(* ===== verification/_CoqProject ===== *)
-Q . S2P
Prelude.v
Ranges.v
Bytes.v
Instances.v
GoLib.v
EthTypes.v
EthInstances.v
Keys.v
Queue.v
Stream.v
Tracker.v
ParsedTx.v
Normalize.v
Virtual.v
VirtualBank.v
VirtualIbc.v
VirtualResponse.v
RpcUtils.v
Cached.v
Codec.v
CodecInstances.v
CodecProps.v
Indexer.v
IndexerQuery.v
IndexerStore.v
IndexerLoop.v
IndexerBatch.v
IndexerSample.v
IndexerProps.v
IndexerScan.v
Blocksync.v
BlocksyncProps.v
BlocksyncLeak.v
Service.v
ServiceProps.v
ServiceParallel.v
ServiceKV.v
RpcTypes.v
Backend.v
BackendLive.v
BackendBlocks.v
BackendTx.v
BackendLogs.v
BackendSample.v
BackendParity.v
BackendCache.v
BackendProps.v
BackendFees.v
RpcStream.v
FilterApi.v
FilterQuery.v
FilterPoll.v
BackendTrace.v
BackendTraceProps.v
BackendCall.v
BackendCallProps.v
Decimals.v
AppConfig.v
AppStart.v
AppProps.v
Commands.v
KvInspect.v
Websocket.v
WebsocketProps.v
Pace.v
DebugApi.v
Namespaces.v
CliOptions.v
PubSub.v
Overrides.v
Connection.v
Lifecycle.v
