(* ===== verification/Prelude.v ===== *)
(** * A verification library for evm-gateway

    evm-gateway serves the Ethereum JSON-RPC of an Injective node.  It copies
    blocks from the node (CometBFT RPC) into a key-value index, turns bank and IBC
    events of Cosmos transactions into virtual Ethereum transactions and logs, answers
    RPC requests from the index with the node as a fallback, and pushes what it has
    indexed to polling filters and subscribers.  The library translates this code to
    Rocq functions and step relations and proves what makes it correct.

    ** The parts and the files that model them (sources under src/internal)

    Vocabulary.  [Prelude]: Go integers as [Z] with their wrap-around, outcomes
    ([res]: value, error or panic), loops.  [Bytes]: byte strings and their order, the
    key-value store and Cosmos SDK helpers as interfaces.  [GoLib]: strings, numbers,
    error values.  [EthTypes]: the Ethereum and CometBFT data the code handles.

    Indexer.  [Ranges] (indexer/ranges.go), [Keys] (the keys of
    indexer/cache_collections.go and kv_indexer.go), [Cached] and [Codec] with
    [CodecProps] (cache_collections.go, kv_codec.go, kvcapnp/kv.capnp), [Indexer]
    (IndexBlock, DeleteBlock and trace records of kv_indexer.go and trace_cache.go),
    [IndexerQuery] (all reads).  [IndexerStore], [IndexerLoop] and [IndexerBatch]
    carry the proofs: the records a height owns, one pass of the transaction loop,
    the batch that is written; [IndexerProps] and [IndexerScan] hold the theorems.

    Transactions.  [ParsedTx] (evm/rpc/types/parsed_tx.go), [Normalize]
    (tx_response_normalize.go), [RpcUtils] (types/utils.go), [Virtual],
    [VirtualBank], [VirtualIbc] and [VirtualResponse] (evm/rpc/virtual and its bank
    and ibc packages).

    Synchronisation.  [Blocksync] (blocksync/syncer.go: jobs, announcers and the
    consumer as a step relation), [BlocksyncProps], [BlocksyncLeak]; [Tracker]
    (syncstatus/tracker.go); [Service] and [ServiceProps] (indexer/service.go) over
    the interface [TxIndexer], which [ServiceKV] shows the indexer to keep;
    [ServiceParallel] (runParallelTipAndGaps: the gap and the tip queue as interleaved
    state machines); [Pace] (blocksync/pace.go, timing.go).

    Serving.  [RpcTypes] (types/block.go, tx_args.go, addrlock.go), [Backend] (the
    backend's state, its caches and its requests to the node), [BackendLive] (blocks
    and receipts built from the node's answers, backend/virtual.go), [BackendBlocks]
    (backend/blocks.go), [BackendTx] (tx_info.go, block_receipts.go), [BackendLogs]
    (filters.go), [BackendFees] (chain_info.go, utils.go); the theorems are in
    [BackendParity], [BackendCache], [BackendProps] and [BackendFees].

    Traces and calls.  [BackendTrace] with [BackendTraceProps] (backend/tracing.go,
    trace_ante_failed.go), [BackendCall] with [BackendCallProps] (call_tx.go,
    account_info.go, storage_range.go, sign_tx.go), [Overrides] (the overrides of
    types/types.go).

    Events.  [Queue] and [Stream] (evm/rpc/stream), [RpcStream] (stream/rpc.go),
    [FilterApi] (namespaces/ethereum/eth/filters) with [FilterQuery] and
    [FilterPoll], [Websocket] with [WebsocketProps] (jsonrpc/json_rpc_ws.go: the
    messages of a connection, its subscriptions and their workers), [Connection] (the
    handler of a connection and its heartbeat), [PubSub] (ethereum/pubsub, a bus that no
    other package uses).

    Namespaces.  [Namespaces] (the methods of eth, debug, net, web3, txpool and miner),
    [DebugApi] (the profiles of debug as a state machine over files and profilers).

    Process.  [Decimals] and [AppConfig] (config/config.go), [AppStart] with
    [AppProps] (app/app.go: what a start reads, opens, runs and releases), [Lifecycle]
    (how Run, its server and its syncer end), [Commands] and [CliOptions]
    (cmd/evm-gateway), [KvInspect] (cmd/kvinspect).

    ** How code becomes definitions

    A pure function is a function of the same name.  A fallible one returns [res];
    errors keep the sentinels and wrapping that the code inspects and drop formatted
    arguments.  A struct is a record, a Go map a [gmap], a slice a list; nil is
    [None] where it is told apart from an empty value.  Stateful code passes its
    state: the store [d] of the indexer, the tracker and indexer of the service, the
    caches and counters of the backend ([Backend.M]), the filters of the filter API.
    Concurrent code (the block getter, stream readers, the filter API with its
    timers and publications) is an inductive step relation, or a function of labels
    where runs are evaluated ([Connection], [Lifecycle], [PubSub]), whose steps are what
    a lock or a channel operation makes atomic.  Logging, tracing spans and context
    values are left out everywhere.

    ** Code that is not in the repository

    is an argument, as a class: the Cosmos SDK ([SDK]), the database ([KVDB]),
    go-ethereum ([EthLib]), the chain's modules and the transaction decoder
    ([ChainLib], [Proto], [LogJSON], [Bank.BankLib], [Ibc.IbcLib], [BackendLib],
    [FeeLib], [TraceLib], [CallLib], [ApiLib]), what a start opens ([StartLib]), the parser of the command line
    ([CliLib]), the state of the EVM ([stateDB]), Cap'n Proto messages ([CapnpLib], [LegacyLib]), JSON numbers
    ([NumberLib]), trace configurations ([TraceKey]) and LRU caches ([LRU]).  What
    the proofs use of them is in the classes of laws beside them ([SDKLaws],
    [KVDBLaws], [KVDBReliable], [EthLibLaws], [ChainLibLaws], [CapnpLaws],
    [ProtoLaws], [NumberLibLaws], [TraceKeyLaws], [LRULaws], [TextLaws],
    [BloomLaws], [TraceJSONLaws], [TraceCacheLaws], [DurationLaws],
    [CliLaws], [stateLaws]).  [Instances], [EthInstances], [CodecInstances], [IndexerSample] and
    [BackendSample] give concrete functions that satisfy all laws together; the
    witnesses of the theorems run on them, most on one sample block with an Ethereum
    transaction, bank events and an IBC hook.  The node and its queries are records
    of functions ([Backend.Client], [Backend.QueryClient], [BackendCall.CallQueries]),
    constant during a call.  The message decoder of the websocket server, its HTTP
    requests to the gateway, the outcomes of its writes and the random identifiers of
    subscriptions are parameters too.

    ** What the theorems show

    - Indexing: the index of a block lists exactly its visible transactions
      ([IndexerBatch.visible_hashes]), with metadata, logs and receipts; writing and
      deleting a block touches its own records only; scans return the indexed heights; every
      payload is read back as it was written.
    - Virtual transactions: their order, log numbers, gas and hashes, and that every
      event log is served once.
    - Synchronisation: blocks reach the indexer in order and without loss, a range
      can always be finished, gaps are closed but for the blocks that AllowGaps lets the
      service pass over, and a failed block leaves no records.
    - Serving: a block indexed in a mode is what the live path would have built; an
      indexed block is served from the index; the caches and, in offline mode, the
      node do not change answers; the logs of a transaction are its part of the logs of
      its block; fee history and percentiles follow their definition.
    - Traces and calls: a block's traces are those the node gives for its transactions,
      in their visible order; a request carries the transactions before it; transaction
      defaults are complete and consistent; storage pages partition the storage.
    - Diagnostics: profiles and their files are accounted for in every interleaving; the
      pace log adds up to the blocks handled.
    - Process: a start with any environment returns or runs, never panics; every
      resource it opened is released; a cancelled service stops in a bounded number of
      steps, after the shutdown of its server; without arguments the configuration is
      what the variables of the options make of the defaults.
    - Events: the queue is a list, the stream a bounded log; a filter delivers every
      matching log once; log queries over a range are exact; the API never panics;
      a websocket subscription that keeps up with its stream sends what it publishes, once and in order, its
      connection knows exactly the subscriptions that run, and all of them end with it.

    Some theorems state a flaw of the code: [closed_getter_leaks] and
    [lost_wakeup_reachable], and lemmas named in the doc comments of [BackendCache],
    [BackendProps], [BackendFees], [BackendTraceProps], [BackendCallProps], [FilterQuery],
    [RpcTypes], [Stream], [AppProps], [WebsocketProps], [Namespaces], [DebugApi],
    [CliOptions], [PubSub] and [Lifecycle].

    ** Bounds and fuel

    Integers wrap as in Go, with two exceptions: the lengths and capacities of [Queue] and
    [Stream] are natural numbers (they could overflow only with a capacity near 2^63), and
    [Codec] does not model the conversion of list lengths to int32 nor the limit Cap'n Proto
    puts on what a reader traverses.  Theorems that need it assume heights below 2^63 (or
    2^62 where the code adds to them) and fewer than 2^31 transactions in a block.
    Loops that are not structural take fuel that is proved sufficient: stream reads
    take the number of segments and two, fee windows the number of blocks; the retry
    loop of the fetcher runs over the list of outcomes of its attempts.  The end of the
    service is bounded by a measure that every step lowers.

    ** Not modelled

    HTTP listeners, the parsing of arguments and the delivery of signals (I/O and
    libraries); generated Cap'n Proto bindings, whose schema [Codec] models; telemetry,
    logging and the text of the version, which influence no result; the encoding of the
    status endpoint, whose snapshot [Tracker] models; interface declarations and
    constructors that only wrap their arguments; the mocks of the tests. *)

From Stdlib Require Export ZArith Lia.
From stdpp Require Export base gmap list list_numbers strings sorting.

#[global] Open Scope Z_scope.

(** ** Go integers

    A Go integer of width [w] is a [Z] in the range of its type; every
    arithmetic operation that can leave the range is wrapped explicitly. *)

Definition uint64 (z : Z) : Z := z mod 2 ^ 64.
Definition int64 (z : Z) : Z := (z + 2 ^ 63) mod 2 ^ 64 - 2 ^ 63.
Definition uint32 (z : Z) : Z := z mod 2 ^ 32.
Definition int32 (z : Z) : Z := (z + 2 ^ 31) mod 2 ^ 32 - 2 ^ 31.

Definition is_uint64 (z : Z) : Prop := 0 ≤ z < 2 ^ 64.
Definition is_int64 (z : Z) : Prop := - 2 ^ 63 ≤ z < 2 ^ 63.
Definition is_int32 (z : Z) : Prop := - 2 ^ 31 ≤ z < 2 ^ 31.

#[global] Instance is_uint64_dec z : Decision (is_uint64 z).
Proof. unfold is_uint64. apply _. Defined.
#[global] Instance is_int64_dec z : Decision (is_int64 z).
Proof. unfold is_int64. apply _. Defined.
#[global] Instance is_int32_dec z : Decision (is_int32 z).
Proof. unfold is_int32. apply _. Defined.

(** [gate_ints] opens the range predicates for [lia]. *)
Ltac gate_ints :=
  unfold is_uint64, is_int64, is_int32, uint64, int64, uint32, int32 in *.

Lemma uint64_small z : is_uint64 z → uint64 z = z.
Proof. gate_ints. intros. apply Z.mod_small. lia. Qed.

Lemma uint64_range z : is_uint64 (uint64 z).
Proof. gate_ints. apply Z.mod_pos_bound. lia. Qed.

Lemma int64_small z : is_int64 z → int64 z = z.
Proof. gate_ints. intros. rewrite Z.mod_small; lia. Qed.

Lemma int64_range z : is_int64 (int64 z).
Proof.
  gate_ints.
  pose proof (Z.mod_pos_bound (z + 2 ^ 63) (2 ^ 64) ltac:(lia)). lia.
Qed.

Lemma int32_small z : is_int32 z → int32 z = z.
Proof. gate_ints. intros. rewrite Z.mod_small; lia. Qed.

Lemma int64_uint64 z : is_int64 z → int64 (uint64 z) = z.
Proof.
  gate_ints. intros Hz.
  rewrite Zplus_mod_idemp_l. rewrite Z.mod_small; lia.
Qed.

Lemma uint64_add_idemp_l a b : uint64 (uint64 a + b) = uint64 (a + b).
Proof. unfold uint64. apply Zplus_mod_idemp_l. Qed.

Lemma uint64_add_idemp_r a b : uint64 (a + uint64 b) = uint64 (a + b).
Proof. unfold uint64. apply Zplus_mod_idemp_r. Qed.

Lemma uint64_idemp z : uint64 (uint64 z) = uint64 z.
Proof. unfold uint64. rewrite Z.mod_mod; lia. Qed.

(** ** Outcomes

    A Go call returns a value, returns an error, or panics. *)

Inductive res (E A : Type) : Type :=
| Ok (a : A)
| Err (e : E)
| Panic (msg : string).
Arguments Ok {E A} _.
Arguments Err {E A} _.
Arguments Panic {E A} _.

Definition res_bind {E A B} (m : res E A) (f : A → res E B) : res E B :=
  match m with
  | Ok a => f a
  | Err e => Err e
  | Panic s => Panic s
  end.

(** [errors.Wrap] and friends: rewrite the error, leave values and panics. *)
Definition res_map_err {E F A} (f : E → F) (m : res E A) : res F A :=
  match m with
  | Ok a => Ok a
  | Err e => Err (f e)
  | Panic s => Panic s
  end.

Definition is_ok {E A} (m : res E A) : bool :=
  match m with Ok _ => true | _ => false end.

Declare Scope res_scope.
Delimit Scope res_scope with res.
Notation "'let!' x ':=' m 'in' k" := (res_bind m (λ x, k))
  (at level 10, x pattern, m at level 100, k at level 200,
   format "'[v' 'let!'  x  ':='  m  'in' '/' k ']'") : res_scope.
#[global] Open Scope res_scope.

Lemma res_bind_ok {E A B} (m : res E A) (f : A → res E B) b :
  res_bind m f = Ok b ↔ ∃ a, m = Ok a ∧ f a = Ok b.
Proof.
  destruct m; simpl; split.
  - intros H. eexists. by split.
  - by intros (? & [= ->] & ?).
  - done.
  - by intros (? & ? & ?).
  - done.
  - by intros (? & ? & ?).
Qed.

(** The loop [for _, x := range l { if err := step; err != nil { return err } }]
    threading a state. *)
Fixpoint res_foldl {E A S} (f : S → A → res E S) (s : S) (l : list A) : res E S :=
  match l with
  | [] => Ok s
  | x :: l => res_bind (f s x) (λ s', res_foldl f s' l)
  end.

Fixpoint res_mapM {E A B} (f : A → res E B) (l : list A) : res E (list B) :=
  match l with
  | [] => Ok []
  | x :: l => let! y := f x in let! ys := res_mapM f l in Ok (y :: ys)
  end.

Lemma res_foldl_app {E A S} (f : S → A → res E S) s l1 l2 :
  res_foldl f s (l1 ++ l2) = res_bind (res_foldl f s l1) (λ s', res_foldl f s' l2).
Proof.
  revert s. induction l1 as [|x l1 IH]; intros s; simpl; [done|].
  destruct (f s x); simpl; auto.
Qed.

Lemma res_foldl_inv {E A S} (f : S → A → res E S) (P : S → Prop) s l s' :
  (∀ s x s', P s → x ∈ l → f s x = Ok s' → P s') →
  P s → res_foldl f s l = Ok s' → P s'.
Proof.
  revert s. induction l as [|x l IH]; intros s Hstep Hs; simpl.
  - by intros [= <-].
  - intros (s1 & H1 & H2)%res_bind_ok. eapply IH; [|eapply Hstep|exact H2]; eauto.
    + intros ? y ? ? ?. eapply Hstep; eauto. by right.
    + by left.
Qed.

Lemma res_mapM_ok {E A B} (f : A → res E B) l k :
  res_mapM f l = Ok k ↔ Forall2 (λ x y, f x = Ok y) l k.
Proof.
  revert k. induction l as [|x l IH]; intros k; simpl.
  - split; [intros [= <-]; constructor | inversion 1; done].
  - rewrite res_bind_ok. setoid_rewrite res_bind_ok. split.
    + intros (y & Hy & ys & Hys & [= <-]). constructor; [done|]. by apply IH.
    + inversion 1; subst. eexists; split; [done|]. eexists; split; [by apply IH|done].
Qed.

Lemma res_mapM_fmap_ok {E A B} (f : A → res E B) (g : A → B) l :
  (∀ x, x ∈ l → f x = Ok (g x)) → res_mapM f l = Ok (g <$> l).
Proof.
  induction l as [|x l IH]; intros H; simpl; [done|].
  rewrite H by set_solver. simpl. rewrite IH by set_solver. done.
Qed.

(** ** Lists *)

Lemma StronglySorted_lt_NoDup (l : list Z) : StronglySorted Z.lt l → NoDup l.
Proof.
  induction 1 as [|x l _ IH Hx]; constructor; [|done].
  intros Hin. rewrite Forall_forall in Hx. specialize (Hx _ Hin). lia.
Qed.

(** ** Automation *)

Create HintDb gate.
Create Rewrite HintDb gate.
#[export] Hint Resolve uint64_range int64_range uint64_small int64_small : gate.
#[export] Hint Rewrite @uint64_idemp @uint64_add_idemp_l @uint64_add_idemp_r : gate.
