(* ===== verification/Ranges.v ===== *)
(** * Block ranges (src/internal/indexer/ranges.go)

    Inclusive ranges of block heights: the gap computation that drives the
    historical sync, the normalisation used by resync, the grouping of
    indexed heights into ranges and the block count.  The specification view
    of a list of ranges is the set of heights it covers; lists in canonical
    form (sorted, non-empty, pairwise separated ranges) represent that set
    uniquely. *)

From S2P Require Import Prelude.

Module Ranges.

Record BlockRange := mkRange { Start : Z; End_ : Z }.

#[global] Instance BlockRange_eq_dec : EqDecision BlockRange.
Proof. solve_decision. Defined.

(** ** Operations *)

(** The loop of LoadIndexedRanges over the heights an iterator yields:
    [ranges], [lastBlock] and [current] of the Go code.  The same loop is
    written twice there, once per key family. *)
Record scan := mkScan { scan_ranges : list BlockRange; lastBlock : Z; current : BlockRange }.

Definition scan_init : scan := mkScan [] (-1) (mkRange 0 0).

Definition scan_height (s : scan) (height : Z) : scan :=
  if bool_decide (height = lastBlock s) then s
  else if bool_decide (lastBlock s = -1) then
    mkScan (scan_ranges s) height (mkRange height height)
  else if bool_decide (height = int64 (lastBlock s + 1)) then
    mkScan (scan_ranges s) height (mkRange (Start (current s)) height)
  else
    mkScan (scan_ranges s ++ [current s]) height (mkRange height height).

Definition scan_result (s : scan) : list BlockRange :=
  if bool_decide (lastBlock s = -1) then scan_ranges s
  else scan_ranges s ++ [current s].

Definition group_heights (heights : list Z) : list BlockRange :=
  scan_result (foldl scan_height scan_init heights).

(** The loop of ComputeGaps.  [tail_gap] is the statement after the loop,
    reached when the ranges are exhausted or by one of the breaks. *)
Definition tail_gap (end_ cursor : Z) : list BlockRange :=
  if bool_decide (cursor ≤ end_) then [mkRange cursor end_] else [].

Definition gap_before (end_ cursor : Z) (r : BlockRange) : list BlockRange :=
  if bool_decide (cursor < Start r) then
    let gapEnd := int64 (Start r - 1) in
    let gapEnd := if bool_decide (end_ < gapEnd) then end_ else gapEnd in
    if bool_decide (cursor ≤ gapEnd) then [mkRange cursor gapEnd] else []
  else [].

Definition next_cursor (cursor : Z) (r : BlockRange) : Z :=
  if bool_decide (cursor < int64 (End_ r + 1)) then int64 (End_ r + 1) else cursor.

Fixpoint gaps_from (end_ cursor : Z) (ranges : list BlockRange) : list BlockRange :=
  match ranges with
  | [] => tail_gap end_ cursor
  | r :: rest =>
      if bool_decide (End_ r < cursor) then gaps_from end_ cursor rest
      else if bool_decide (end_ < Start r) then tail_gap end_ cursor
      else
        let cursor' := next_cursor cursor r in
        gap_before end_ cursor r ++
        (if bool_decide (end_ < cursor') then tail_gap end_ cursor'
         else gaps_from end_ cursor' rest)
  end.

(** [sort.Slice] by [Start]: some sorted permutation; the theorems below hold
    for every sorted permutation, the executable model takes the stable one. *)
Definition by_start (a b : BlockRange) : Prop := Start a ≤ Start b.

#[global] Instance by_start_dec : RelDecision by_start.
Proof. intros a b. unfold by_start. apply _. Defined.

Definition ComputeGaps (start end_ : Z) (ranges : list BlockRange) : list BlockRange :=
  if bool_decide (end_ < start) then []
  else match ranges with
       | [] => [mkRange start end_]
       | _ => gaps_from end_ start (merge_sort by_start ranges)
       end.

(** The less function of NormalizeRanges orders by [Start], then [End]. *)
Definition by_start_end (a b : BlockRange) : Prop :=
  if bool_decide (Start a = Start b) then End_ a ≤ End_ b else Start a < Start b.

#[global] Instance by_start_end_dec : RelDecision by_start_end.
Proof. intros a b. unfold by_start_end. case_bool_decide; apply _. Defined.

Fixpoint merge_from (cur : BlockRange) (rest : list BlockRange) : list BlockRange :=
  match rest with
  | [] => [cur]
  | next :: rest =>
      if bool_decide (Start next ≤ int64 (End_ cur + 1)) then
        merge_from (if bool_decide (End_ cur < End_ next)
                    then mkRange (Start cur) (End_ next) else cur) rest
      else cur :: merge_from next rest
  end.

Definition NormalizeRanges (ranges : list BlockRange) : list BlockRange :=
  match merge_sort by_start_end ranges with
  | [] => []
  | cur :: rest => merge_from cur rest
  end.

Definition CountBlocks (ranges : list BlockRange) : Z :=
  foldl (λ total r, int64 (total + int64 (int64 (End_ r - Start r) + 1))) 0 ranges.

(** ** Specification vocabulary *)

Definition covers (r : BlockRange) (h : Z) : Prop := Start r ≤ h ≤ End_ r.

Definition in_ranges (h : Z) (l : list BlockRange) : Prop := ∃ r, r ∈ l ∧ covers r h.

(** A range of real heights: non-empty, and with a representable successor. *)
Definition wf_range (r : BlockRange) : Prop :=
  - 2 ^ 63 ≤ Start r ∧ Start r ≤ End_ r ∧ End_ r < 2 ^ 63 - 1.

Definition separated (a b : BlockRange) : Prop := End_ a + 1 < Start b.

Definition canonical (l : list BlockRange) : Prop :=
  Forall (λ r, Start r ≤ End_ r) l ∧ StronglySorted separated l.

Definition heights_of (l : list BlockRange) : list Z :=
  l ≫= λ r, seqZ (Start r) (End_ r - Start r + 1).

#[global] Instance covers_dec r h : Decision (covers r h).
Proof. unfold covers. apply _. Defined.

#[global] Instance wf_range_dec r : Decision (wf_range r).
Proof. unfold wf_range. apply _. Defined.

Lemma in_ranges_nil h : in_ranges h [] ↔ False.
Proof. unfold in_ranges. set_solver. Qed.

Lemma in_ranges_cons h r l : in_ranges h (r :: l) ↔ covers r h ∨ in_ranges h l.
Proof. unfold in_ranges. set_solver. Qed.

Lemma in_ranges_app h l k : in_ranges h (l ++ k) ↔ in_ranges h l ∨ in_ranges h k.
Proof. unfold in_ranges. set_solver. Qed.

Lemma in_ranges_perm h l k : l ≡ₚ k → in_ranges h l ↔ in_ranges h k.
Proof. intros Hp. unfold in_ranges. by setoid_rewrite Hp. Qed.

Lemma elem_of_heights h l : h ∈ heights_of l ↔ in_ranges h l.
Proof.
  unfold heights_of, in_ranges, covers. rewrite list_elem_of_bind.
  split; intros (r & H1 & H2); exists r; revert H1 H2;
    rewrite elem_of_seqZ; intuition lia.
Qed.

#[export] Hint Rewrite in_ranges_nil in_ranges_cons in_ranges_app : gate.

Lemma canonical_nil : canonical [].
Proof. repeat constructor. Qed.

Lemma canonical_cons r l :
  canonical (r :: l) ↔ Start r ≤ End_ r ∧ Forall (separated r) l ∧ canonical l.
Proof.
  unfold canonical. split.
  - intros [Hf Hs]. apply Forall_cons in Hf as [??].
    apply StronglySorted_inv in Hs as [??]. tauto.
  - intros (? & ? & ? & ?). split; [by constructor|by constructor].
Qed.

Lemma in_ranges_bound b l h :
  Forall (λ r, b ≤ Start r) l → in_ranges h l → b ≤ h.
Proof.
  rewrite Forall_forall. intros Hb (r & Hr & Hc). specialize (Hb _ Hr).
  unfold covers in Hc. lia.
Qed.

Lemma separated_bound r l : Forall (separated r) l → Forall (λ s, End_ r + 2 ≤ Start s) l.
Proof. intros H. eapply Forall_impl; [exact H|]. unfold separated. simpl. lia. Qed.

(** Canonical lists are determined by the heights they cover. *)
Lemma canonical_head_unique r1 l1 r2 l2 :
  canonical (r1 :: l1) → canonical (r2 :: l2) →
  (∀ h, in_ranges h (r1 :: l1) ↔ in_ranges h (r2 :: l2)) →
  Start r2 ≤ Start r1 ∧ (Start r1 = Start r2 → End_ r2 ≤ End_ r1).
Proof.
  intros (W1 & S1 & C1)%canonical_cons (W2 & S2 & C2)%canonical_cons Heq.
  assert (Forall (λ s, Start r2 ≤ Start s) l2) as B2
    by (eapply Forall_impl; [exact S2|]; unfold separated; simpl; lia).
  split.
  - destruct (proj1 (Heq (Start r1))) as (s & Hs & Hc).
    { apply in_ranges_cons. left. unfold covers. lia. }
    apply elem_of_cons in Hs as [->|Hs].
    + unfold covers in Hc. lia.
    + rewrite Forall_forall in B2. specialize (B2 _ Hs). unfold covers in Hc. lia.
  - intros HS. destruct (Z.le_gt_cases (End_ r2) (End_ r1)) as [|Hlt]; [done|].
    exfalso. destruct (proj2 (Heq (End_ r1 + 1))) as (s & Hs & Hc).
    { apply in_ranges_cons. left. unfold covers. lia. }
    unfold covers in Hc. apply elem_of_cons in Hs as [->|Hs]; [lia|].
    rewrite Forall_forall in S1. specialize (S1 _ Hs). unfold separated in S1. lia.
Qed.

Lemma canonical_unique l1 l2 :
  canonical l1 → canonical l2 → (∀ h, in_ranges h l1 ↔ in_ranges h l2) → l1 = l2.
Proof.
  revert l2. induction l1 as [|r1 l1 IH]; intros [|r2 l2] C1 C2 Heq; [done| | |].
  - exfalso. apply canonical_cons in C2 as (W & _).
    apply (in_ranges_nil (Start r2)), Heq, in_ranges_cons. left. unfold covers. lia.
  - exfalso. apply canonical_cons in C1 as (W & _).
    apply (in_ranges_nil (Start r1)), Heq, in_ranges_cons. left. unfold covers. lia.
  - destruct (canonical_head_unique _ _ _ _ C1 C2 Heq) as [HS1 HE1].
    destruct (canonical_head_unique _ _ _ _ C2 C1 ltac:(naive_solver)) as [HS2 HE2].
    assert (r1 = r2) as ->.
    { destruct r1, r2; simpl in *. f_equal; lia. }
    f_equal. apply canonical_cons in C1 as (W & S1 & C1).
    apply canonical_cons in C2 as (_ & S2 & C2).
    apply IH; [done..|]. intros h. specialize (Heq h).
    rewrite !in_ranges_cons in Heq.
    pose proof (in_ranges_bound _ _ h (separated_bound _ _ S1)).
    pose proof (in_ranges_bound _ _ h (separated_bound _ _ S2)).
    unfold covers in Heq. split; intros Hin; [apply H in Hin as Hb|apply H0 in Hin as Hb]; naive_solver lia.
Qed.

Lemma canonical_heights_NoDup l : canonical l → NoDup (heights_of l).
Proof.
  induction l as [|r l IH]; intros Hc; [constructor|].
  apply canonical_cons in Hc as (W & S & C). unfold heights_of. rewrite bind_cons.
  apply NoDup_app. split; [apply NoDup_seqZ|]. split; [|by apply IH].
  intros h Hh Hin. apply elem_of_seqZ in Hh. apply elem_of_heights in Hin.
  apply (in_ranges_bound _ _ _ (separated_bound _ _ S)) in Hin. lia.
Qed.

(** ** Gaps *)

Lemma next_cursor_wf c r :
  wf_range r → is_int64 c → next_cursor c r = Z.max c (End_ r + 1).
Proof.
  unfold wf_range, next_cursor. intros Hw Hc.
  rewrite int64_small by (gate_ints; lia). case_bool_decide; lia.
Qed.

Lemma gap_before_wf e c r :
  wf_range r → is_int64 c →
  gap_before e c r =
    if bool_decide (c < Start r ∧ c ≤ e) then [mkRange c (Z.min e (Start r - 1))] else [].
Proof.
  unfold wf_range, gap_before. intros Hw Hc.
  destruct (decide (c < Start r)) as [Hl|Hl].
  - rewrite (bool_decide_eq_true_2 (c < Start r)) by done.
    rewrite int64_small by (gate_ints; lia).
    repeat case_bool_decide; try lia; repeat f_equal; lia.
  - rewrite !bool_decide_eq_false_2 by lia. done.
Qed.

Lemma tail_gap_spec e c h : in_ranges h (tail_gap e c) ↔ c ≤ h ≤ e.
Proof.
  unfold tail_gap. case_bool_decide; rewrite ?in_ranges_cons, ?in_ranges_nil;
    unfold covers; simpl; intuition lia.
Qed.

Lemma tail_gap_canonical e c :
  canonical (tail_gap e c) ∧ Forall (λ g, c ≤ Start g) (tail_gap e c).
Proof.
  unfold tail_gap. case_bool_decide; [|by split; [apply canonical_nil|]].
  split; [|by repeat constructor].
  apply canonical_cons. split; [done|]. split; [constructor|apply canonical_nil].
Qed.

Section gaps.
Context (e : Z).

(** The shape of the loop's result on well-formed ranges. *)
Lemma gaps_from_cons c r rest :
  wf_range r → is_int64 c →
  gaps_from e c (r :: rest) =
    if bool_decide (End_ r < c) then gaps_from e c rest
    else if bool_decide (e < Start r) then tail_gap e c
    else (if bool_decide (c < Start r ∧ c ≤ e)
          then [mkRange c (Z.min e (Start r - 1))] else []) ++
         (if bool_decide (e < End_ r + 1) then [] else gaps_from e (End_ r + 1) rest).
Proof.
  intros Hw Hc. simpl. rewrite gap_before_wf, next_cursor_wf by done.
  repeat case_bool_decide; try lia; try done.
  - f_equal. unfold tail_gap. rewrite bool_decide_eq_false_2 by lia. done.
  - f_equal. f_equal. lia.
  - simpl. unfold tail_gap. rewrite bool_decide_eq_false_2 by lia. done.
  - simpl. f_equal. lia.
Qed.

Lemma gaps_from_spec rs c h :
  Forall wf_range rs → StronglySorted by_start rs → is_int64 c →
  in_ranges h (gaps_from e c rs) ↔ c ≤ h ≤ e ∧ ¬ in_ranges h rs.
Proof.
  intros Hwf Hs. revert c. induction Hs as [|r rest Hs IH Hr]; intros c Hc.
  - rewrite in_ranges_nil. simpl. rewrite tail_gap_spec. tauto.
  - apply Forall_cons in Hwf as [Hw Hwf]. specialize (IH Hwf).
    rewrite gaps_from_cons by done. rewrite in_ranges_cons.
    assert (in_ranges h rest → Start r ≤ h) as Hge.
    { apply in_ranges_bound. eapply Forall_impl; [exact Hr|done]. }
    destruct Hw as (? & ? & ?). unfold covers.
    repeat case_bool_decide; rewrite ?in_ranges_app, ?in_ranges_cons, ?in_ranges_nil,
      ?tail_gap_spec; unfold covers; simpl;
      rewrite ?IH by (done || (gate_ints; lia)); destruct (Z.lt_ge_cases h (Start r));
      intuition lia.
Qed.

Lemma gaps_from_canonical rs c :
  Forall wf_range rs → is_int64 c →
  canonical (gaps_from e c rs) ∧ Forall (λ g, c ≤ Start g) (gaps_from e c rs).
Proof.
  intros Hwf. revert c. induction Hwf as [|r rest Hw Hwf IH]; intros c Hc.
  - apply tail_gap_canonical.
  - rewrite gaps_from_cons by done. destruct Hw as (? & ? & ?).
    destruct (IH (End_ r + 1)) as [IHc IHb]; [gate_ints; lia|].
    repeat case_bool_decide; try apply tail_gap_canonical; try (by apply IH); simpl;
      try (by split; [apply canonical_nil|constructor]).
    + split; [|by repeat constructor].
      apply canonical_cons. split; [simpl; lia|]. split; [constructor|apply canonical_nil].
    + split.
      * apply canonical_cons. split; [simpl; lia|]. split; [|done].
        eapply Forall_impl; [exact IHb|]. unfold separated. simpl. lia.
      * constructor; [done|]. eapply Forall_impl; [exact IHb|]. simpl. lia.
    + split; [done|]. eapply Forall_impl; [exact IHb|]. simpl. lia.
Qed.
End gaps.

#[global] Instance by_start_total : Total by_start.
Proof. intros a b. unfold by_start. lia. Qed.
#[global] Instance by_start_trans : Transitive by_start.
Proof. intros a b c. unfold by_start. lia. Qed.

Lemma ComputeGaps_sorted s e rs :
  s ≤ e → ComputeGaps s e rs = gaps_from e s (merge_sort by_start rs).
Proof.
  intros Hse. unfold ComputeGaps. rewrite bool_decide_eq_false_2 by lia.
  destruct rs; [|done]. change (merge_sort by_start []) with (@nil BlockRange).
  simpl. unfold tail_gap. by rewrite bool_decide_eq_true_2.
Qed.

Lemma gaps_from_sorted_spec s e rs sorted :
  is_int64 s → Forall wf_range rs → sorted ≡ₚ rs → Sorted by_start sorted →
  (∀ h, in_ranges h (gaps_from e s sorted) ↔ s ≤ h ≤ e ∧ ¬ in_ranges h rs) ∧
  canonical (gaps_from e s sorted).
Proof.
  intros Hs Hwf Hp Hso. rewrite <- Hp in Hwf.
  split; [|by apply gaps_from_canonical].
  intros h. rewrite gaps_from_spec by first [done | by apply (Sorted_StronglySorted by_start)].
  by rewrite (in_ranges_perm h _ _ Hp).
Qed.

Lemma ComputeGaps_spec s e rs :
  is_int64 s → Forall wf_range rs →
  (∀ h, in_ranges h (ComputeGaps s e rs) ↔ s ≤ h ≤ e ∧ ¬ in_ranges h rs) ∧
  canonical (ComputeGaps s e rs).
Proof.
  intros Hs Hwf. destruct (Z.le_gt_cases s e).
  - rewrite ComputeGaps_sorted by done.
    apply gaps_from_sorted_spec; [done..|apply merge_sort_Permutation|].
    apply Sorted_merge_sort. apply _.
  - unfold ComputeGaps. rewrite bool_decide_eq_true_2 by done.
    split; [|apply canonical_nil]. intros h. rewrite in_ranges_nil. lia.
Qed.

(** ** Normalisation *)

#[global] Instance by_start_end_total : Total by_start_end.
Proof. intros a b. unfold by_start_end. repeat case_bool_decide; lia. Qed.
#[global] Instance by_start_end_trans : Transitive by_start_end.
Proof. intros a b c. unfold by_start_end. repeat case_bool_decide; lia. Qed.

Lemma by_start_end_start a b : by_start_end a b → Start a ≤ Start b.
Proof. unfold by_start_end. case_bool_decide; lia. Qed.

Lemma merge_from_spec rest cur :
  wf_range cur → Forall wf_range rest →
  Forall (λ r, Start cur ≤ Start r) rest → StronglySorted by_start_end rest →
  (∀ h, in_ranges h (merge_from cur rest) ↔ in_ranges h (cur :: rest)) ∧
  canonical (merge_from cur rest) ∧
  Forall (λ r, Start cur ≤ Start r) (merge_from cur rest).
Proof.
  intros Hc Hwf Hge Hs. revert cur Hc Hge.
  induction Hs as [|next rest Hs IH Hnext]; intros cur Hc Hge.
  - simpl. split; [done|]. split; [|by repeat constructor].
    apply canonical_cons. split; [apply Hc|]. split; [constructor|apply canonical_nil].
  - apply Forall_cons in Hwf as [Hn Hwf]. apply Forall_cons in Hge as [Hgn Hge].
    pose proof Hc as (? & ? & ?). pose proof Hn as (? & ? & ?).
    simpl. rewrite int64_small by (gate_ints; lia).
    case_bool_decide as Hm; [case_bool_decide as He|].
    + destruct (IH Hwf (mkRange (Start cur) (End_ next))) as (I1 & I2 & I3);
        [by unfold wf_range; simpl; lia|done|].
      split; [|done]. intros h. rewrite I1, !in_ranges_cons. unfold covers; simpl.
      intuition lia.
    + destruct (IH Hwf cur) as (I1 & I2 & I3); [done..|].
      split; [|done]. intros h. rewrite I1, !in_ranges_cons. unfold covers. intuition lia.
    + destruct (IH Hwf next) as (I1 & I2 & I3); [done| |].
      { eapply Forall_impl; [exact Hnext|]. apply by_start_end_start. }
      split; [|split].
      * intros h. rewrite !(in_ranges_cons h cur), I1. done.
      * apply canonical_cons. split; [done|]. split; [|done].
        eapply Forall_impl; [exact I3|]. unfold separated. simpl. lia.
      * constructor; [done|]. eapply Forall_impl; [exact I3|]. simpl. lia.
Qed.

Lemma NormalizeRanges_spec rs :
  Forall wf_range rs →
  (∀ h, in_ranges h (NormalizeRanges rs) ↔ in_ranges h rs) ∧ canonical (NormalizeRanges rs).
Proof.
  intros Hwf. unfold NormalizeRanges.
  pose proof (merge_sort_Permutation by_start_end rs) as Hp.
  pose proof (StronglySorted_merge_sort by_start_end rs) as Hs.
  rewrite <- Hp in Hwf. destruct (merge_sort by_start_end rs) as [|cur rest].
  - split; [|apply canonical_nil]. intros h. apply (in_ranges_perm h _ _ Hp).
  - apply Forall_cons in Hwf as [Hc Hwf]. apply StronglySorted_inv in Hs as [Hs Hcur].
    destruct (merge_from_spec rest cur) as (I1 & I2 & _); [done..| |done|].
    { eapply Forall_impl; [exact Hcur|]. apply by_start_end_start. }
    split; [|done]. intros h. rewrite I1. apply (in_ranges_perm h _ _ Hp).
Qed.

(** ** Counting *)

Lemma int64_add_idemp_r a b : int64 (a + int64 b) = int64 (a + b).
Proof.
  unfold int64. f_equal.
  replace (a + ((b + 2 ^ 63) `mod` 2 ^ 64 - 2 ^ 63) + 2 ^ 63)
    with (a + (b + 2 ^ 63) `mod` 2 ^ 64) by lia.
  rewrite Zplus_mod_idemp_r. f_equal. lia.
Qed.

Lemma int64_add_idemp_l a b : int64 (int64 a + b) = int64 (a + b).
Proof. rewrite (Z.add_comm (int64 a)), int64_add_idemp_r. f_equal. lia. Qed.

Lemma CountBlocks_heights l :
  Forall (λ r, Start r ≤ End_ r) l → CountBlocks l = int64 (Z.of_nat (length (heights_of l))).
Proof.
  unfold CountBlocks, heights_of.
  assert (∀ acc, Forall (λ r, Start r ≤ End_ r) l →
    int64 (foldl (λ total r, int64 (total + int64 (int64 (End_ r - Start r) + 1))) acc l) =
    int64 (acc + Z.of_nat (length (l ≫= λ r, seqZ (Start r) (End_ r - Start r + 1))))) as Hgen.
  { induction l as [|r l IH]; intros acc Hf; [simpl; f_equal; lia|]. cbn [foldl].
    apply Forall_cons in Hf as [Hr Hf]. rewrite IH by done.
    rewrite bind_cons, length_app, length_seqZ, int64_add_idemp_l.
    rewrite int64_add_idemp_l, <- Z.add_assoc, (Z.add_comm (int64 _)), Z.add_assoc.
    rewrite int64_add_idemp_r. f_equal. lia. }
  intros Hf. rewrite <- (Z.add_0_l (Z.of_nat _)), <- Hgen by done.
  symmetry. apply int64_small.
  assert (∀ acc, is_int64 acc → is_int64 (foldl (λ total r,
    int64 (total + int64 (int64 (End_ r - Start r) + 1))) acc l)) as Hr; [|by apply Hr].
  clear. induction l as [|r l IH]; intros acc Ha; simpl; [done|].
  apply IH. apply int64_range.
Qed.

Lemma NoDup_bounded_length (l : list Z) n :
  NoDup l → Forall (λ h, 0 ≤ h < n) l → Z.of_nat (length l) ≤ Z.max 0 n.
Proof.
  intros Hnd Hf. assert (l ⊆+ seqZ 0 n) as Hsub.
  { apply NoDup_submseteq; [done|]. intros h Hh. apply elem_of_seqZ.
    rewrite Forall_forall in Hf. specialize (Hf _ Hh). lia. }
  apply submseteq_length in Hsub. rewrite length_seqZ in Hsub. lia.
Qed.

(** ** Grouping of indexed heights *)

Definition scan_inv (seen : list Z) (s : scan) : Prop :=
  match seen with
  | [] => s = scan_init
  | _ => 0 ≤ lastBlock s ∧ lastBlock s ∈ seen ∧ End_ (current s) = lastBlock s ∧
         Forall (λ h, h ≤ lastBlock s) seen ∧
         canonical (scan_ranges s ++ [current s]) ∧
         ∀ h, in_ranges h (scan_ranges s ++ [current s]) ↔ h ∈ seen
  end.

Lemma canonical_snoc_inv l r :
  canonical (l ++ [r]) →
  canonical l ∧ Start r ≤ End_ r ∧ Forall (λ a, separated a r) l.
Proof.
  intros [Hf Hs]. apply Forall_app in Hf as [Hf1 Hf2]. apply Forall_cons in Hf2 as [? _].
  apply StronglySorted_app in Hs as (Hcross & ? & _). split; [done|]. split; [done|].
  apply Forall_forall. intros a Ha. apply Hcross; [done|]. by left.
Qed.

Lemma canonical_snoc l r :
  canonical l → Start r ≤ End_ r → Forall (λ a, separated a r) l → canonical (l ++ [r]).
Proof.
  intros [Hf Hs] Hr Hsep. split.
  - apply Forall_app. by repeat constructor.
  - apply StronglySorted_app_2; [|done|by repeat constructor].
    intros a b Ha ->%list_elem_of_singleton. rewrite Forall_forall in Hsep. by apply Hsep.
Qed.

Lemma scan_height_inv seen s h :
  0 ≤ h → is_int64 h → Forall (λ x, x ≤ h) seen →
  scan_inv seen s → scan_inv (seen ++ [h]) (scan_height s h).
Proof.
  intros H0 Hh Hle Hinv. destruct seen as [|x seen].
  - simpl in Hinv. subst s. unfold scan_height. simpl.
    rewrite bool_decide_eq_false_2 by lia. simpl.
    split; [done|]. split; [by left|]. split; [done|]. split; [by repeat constructor|].
    split; [apply (canonical_snoc []); [apply canonical_nil|simpl; lia|constructor]|].
    intros k. rewrite in_ranges_cons, in_ranges_nil, list_elem_of_singleton.
    unfold covers; simpl. lia.
  - destruct Hinv as (I0 & I1 & I2 & I3 & I4 & I5).
    pose proof (proj1 (Forall_forall _ _) Hle _ I1) as Hlast. simpl in Hlast.
    assert (∀ k, k ∈ (x :: seen) ++ [h] ↔ k ∈ x :: seen ∨ k = h) as Hin
      by (intros k; set_solver).
    assert (Forall (λ k, k ≤ h) ((x :: seen) ++ [h])) as Hall
      by (apply Forall_app; split; [done|repeat constructor; lia]).
    apply canonical_snoc_inv in I4 as Hc. destruct Hc as (Hc1 & Hc2 & Hc3).
    unfold scan_height. case_bool_decide as E1; [|rewrite bool_decide_eq_false_2 by lia].
    { subst h. split; [done|]. split; [apply Hin; by left|]. split; [done|].
      split; [exact Hall|]. split; [done|].
      intros k. rewrite I5, Hin. naive_solver. }
    assert (int64 (lastBlock s + 1) = lastBlock s + 1) as Hi.
    { apply int64_small. gate_ints. lia. }
    rewrite Hi. case_bool_decide as E2; unfold scan_inv; simpl.
    + split; [done|]. split; [apply Hin; by right|]. split; [done|].
      split; [exact Hall|]. split.
      * apply canonical_snoc; [done|simpl; lia|].
        eapply Forall_impl; [exact Hc3|]. unfold separated; simpl; lia.
      * intros k. rewrite (Hin k), <- I5, !in_ranges_app, !in_ranges_cons, !in_ranges_nil.
        unfold covers; simpl. intuition lia.
    + split; [done|]. split; [apply Hin; by right|]. split; [done|].
      split; [exact Hall|]. split.
      * apply canonical_snoc; [done|simpl; lia|]. apply Forall_app. split.
        -- eapply Forall_impl; [exact Hc3|]. unfold separated; simpl; lia.
        -- repeat constructor. unfold separated; simpl. lia.
      * intros k. rewrite (Hin k), <- I5, (in_ranges_app _ (scan_ranges s ++ _)).
        rewrite in_ranges_cons, in_ranges_nil. unfold covers; simpl. intuition lia.
Qed.

Lemma group_heights_spec hs :
  Forall (λ h, 0 ≤ h < 2 ^ 63) hs → StronglySorted Z.le hs →
  (∀ h, in_ranges h (group_heights hs) ↔ h ∈ hs) ∧ canonical (group_heights hs).
Proof.
  intros Hf Hs.
  assert (∀ rest seen s, StronglySorted Z.le (seen ++ rest) →
    Forall (λ h, 0 ≤ h < 2 ^ 63) rest → scan_inv seen s →
    scan_inv (seen ++ rest) (foldl scan_height s rest)) as Hgen.
  { clear. induction rest as [|h rest IH]; intros seen s Hs Hf Hi; simpl.
    - by rewrite app_nil_r.
    - apply Forall_cons in Hf as [Hh Hf].
      change (h :: rest) with ([h] ++ rest). rewrite app_assoc. apply IH; [|done|].
      { by rewrite <- app_assoc. }
      apply scan_height_inv; [lia|gate_ints; lia| |done].
      apply StronglySorted_app in Hs as (Hx & _). apply Forall_forall.
      intros x Hxin. apply Hx; [done|]. by left. }
  specialize (Hgen hs [] scan_init Hs Hf eq_refl). simpl in Hgen.
  unfold group_heights, scan_result. destruct hs as [|h hs].
  - simpl. split; [|apply canonical_nil]. intros h. rewrite in_ranges_nil. set_solver.
  - destruct Hgen as (I0 & _ & _ & _ & I4 & I5).
    rewrite bool_decide_eq_false_2 by lia. by split.
Qed.

(** ** Properties *)

(** C24. ComputeGaps returns exactly the heights between [start] and [end] that
    no given range covers, as sorted, non-empty and pairwise separated ranges,
    whatever the order and overlaps of the given ranges. *)
Theorem ComputeGaps_correct start end_ ranges :
  is_int64 start → Forall wf_range ranges →
  (∀ h, in_ranges h (ComputeGaps start end_ ranges) ↔
        start ≤ h ≤ end_ ∧ ¬ in_ranges h ranges) ∧
  canonical (ComputeGaps start end_ ranges).
Proof. apply ComputeGaps_spec. Qed.

Lemma ComputeGaps_correct_witness :
  canonical (ComputeGaps 1 20 [mkRange 12 15; mkRange 3 5; mkRange 4 8]) ∧
  ComputeGaps 1 20 [mkRange 12 15; mkRange 3 5; mkRange 4 8] =
    [mkRange 1 2; mkRange 9 11; mkRange 16 20].
Proof.
  split; [|vm_compute; reflexivity].
  refine (proj2 (ComputeGaps_correct 1 20 [mkRange 12 15; mkRange 3 5; mkRange 4 8] _ _)).
  - unfold is_int64. lia.
  - repeat constructor; unfold wf_range; simpl; lia.
Defined.

(** The unstable order [sort.Slice] leaves between ranges with the same
    start does not matter: every sorted permutation of well-formed ranges gives
    the same gaps. *)
Theorem ComputeGaps_sort_independent start end_ ranges sorted :
  start ≤ end_ → is_int64 start → Forall wf_range ranges →
  sorted ≡ₚ ranges → Sorted by_start sorted →
  gaps_from end_ start sorted = ComputeGaps start end_ ranges.
Proof.
  intros Hse Hs Hwf Hp Hso.
  destruct (gaps_from_sorted_spec start end_ ranges sorted) as [E1 C1]; [done..|].
  destruct (ComputeGaps_spec start end_ ranges) as [E2 C2]; [done..|].
  apply canonical_unique; [done..|]. intros h. by rewrite E1, E2.
Qed.

Lemma ComputeGaps_sort_independent_witness :
  gaps_from 9 1 [mkRange 2 6; mkRange 2 3] = ComputeGaps 1 9 [mkRange 2 3; mkRange 2 6].
Proof.
  apply (ComputeGaps_sort_independent 1 9 [mkRange 2 3; mkRange 2 6] [mkRange 2 6; mkRange 2 3]).
  - lia.
  - unfold is_int64. lia.
  - repeat constructor; unfold wf_range; simpl; lia.
  - apply perm_swap.
  - repeat constructor; unfold by_start; simpl; lia.
Defined.

(** NormalizeRanges keeps the covered heights, returns them in canonical
    form, and that form does not depend on how the targets were listed: two
    target lists with the same heights normalise to the same ranges. *)
Theorem NormalizeRanges_canonical ranges ranges' :
  Forall wf_range ranges → Forall wf_range ranges' →
  (∀ h, in_ranges h ranges ↔ in_ranges h ranges') →
  NormalizeRanges ranges = NormalizeRanges ranges' ∧
  canonical (NormalizeRanges ranges) ∧
  (∀ h, in_ranges h (NormalizeRanges ranges) ↔ in_ranges h ranges).
Proof.
  intros W1 W2 Heq.
  destruct (NormalizeRanges_spec _ W1) as [E1 C1], (NormalizeRanges_spec _ W2) as [E2 C2].
  split; [|done]. apply canonical_unique; [done..|]. intros h. by rewrite E1, E2.
Qed.

Lemma NormalizeRanges_canonical_witness :
  NormalizeRanges [mkRange 7 9; mkRange 1 3; mkRange 4 5] =
  NormalizeRanges [mkRange 1 5; mkRange 7 8; mkRange 8 9].
Proof.
  refine (proj1 (NormalizeRanges_canonical [mkRange 7 9; mkRange 1 3; mkRange 4 5]
    [mkRange 1 5; mkRange 7 8; mkRange 8 9] _ _ _)).
  - repeat constructor; unfold wf_range; simpl; lia.
  - repeat constructor; unfold wf_range; simpl; lia.
  - intros h. rewrite !in_ranges_cons, !in_ranges_nil. unfold covers; simpl. lia.
Defined.

(** On canonical ranges of non-negative heights CountBlocks is the number
    of distinct heights covered: nothing is counted twice and the 64-bit sum
    does not overflow. *)
Theorem CountBlocks_exact ranges :
  canonical ranges → Forall wf_range ranges → Forall (λ r, 0 ≤ Start r) ranges →
  CountBlocks ranges = Z.of_nat (length (heights_of ranges)) ∧
  NoDup (heights_of ranges) ∧
  (∀ h, h ∈ heights_of ranges ↔ in_ranges h ranges).
Proof.
  intros Hc Hwf Hpos. pose proof (canonical_heights_NoDup _ Hc) as Hnd.
  split; [|split; [done|intros; apply elem_of_heights]].
  rewrite CountBlocks_heights by apply Hc. apply int64_small.
  pose proof (NoDup_bounded_length (heights_of ranges) (2 ^ 63 - 1) Hnd) as Hlen.
  assert (Forall (λ h, 0 ≤ h < 2 ^ 63 - 1) (heights_of ranges)) as Hb.
  { apply Forall_forall. intros h Hh. apply elem_of_heights in Hh as (r & Hr & Hcv).
    rewrite Forall_forall in Hwf, Hpos. specialize (Hwf _ Hr). specialize (Hpos _ Hr).
    unfold wf_range, covers in *. lia. }
  specialize (Hlen Hb). gate_ints. lia.
Qed.

Lemma CountBlocks_exact_witness :
  CountBlocks [mkRange 1 5; mkRange 7 9] = Z.of_nat (length (heights_of [mkRange 1 5; mkRange 7 9])).
Proof.
  refine (proj1 (CountBlocks_exact [mkRange 1 5; mkRange 7 9] _ _ _)).
  - split; [repeat constructor; simpl; lia|]. repeat constructor; unfold separated; simpl; lia.
  - repeat constructor; unfold wf_range; simpl; lia.
  - repeat constructor; simpl; lia.
Defined.

End Ranges.
