(* ===== verification/Bytes.v ===== *)
(** * Byte strings and the libraries the gateway calls

    Byte strings with the lexicographic order of the key-value store, and the
    interfaces of code outside the repository: the byte-order helpers of
    cosmos-sdk, the key-value store of cosmos-db and the value types of
    go-ethereum.  Each interface is an operational class (the functions the
    gateway calls) and a class of laws (the documented behaviour the theorems
    rely on); Instances.v gives concrete functions that satisfy the laws. *)

From S2P Require Import Prelude.

Notation bytes := (list Z).

Definition is_byte (b : Z) : Prop := 0 ≤ b < 256.
Definition wf_bytes (l : bytes) : Prop := Forall is_byte l.

#[global] Instance is_byte_dec b : Decision (is_byte b).
Proof. unfold is_byte. apply _. Defined.
#[global] Instance wf_bytes_dec l : Decision (wf_bytes l).
Proof. unfold wf_bytes. apply _. Defined.

(** ** Lexicographic order (bytes.Compare) *)

Fixpoint bytes_ltb (a b : bytes) : bool :=
  match a, b with
  | _, [] => false
  | [], _ :: _ => true
  | x :: a, y :: b => if x <? y then true else if y <? x then false else bytes_ltb a b
  end.

Definition bytes_lt (a b : bytes) : Prop := bytes_ltb a b = true.
Definition bytes_le (a b : bytes) : Prop := bytes_ltb b a = false.

#[global] Instance bytes_lt_dec : RelDecision bytes_lt.
Proof. intros a b. unfold bytes_lt. apply _. Defined.
#[global] Instance bytes_le_dec : RelDecision bytes_le.
Proof. intros a b. unfold bytes_le. apply _. Defined.

Lemma bytes_lt_cons x a y b :
  bytes_lt (x :: a) (y :: b) ↔ x < y ∨ x = y ∧ bytes_lt a b.
Proof.
  unfold bytes_lt. simpl. destruct (Z.ltb_spec x y), (Z.ltb_spec y x);
    split; intros; try done; try lia; try (by left); try (right; split; [lia|done]);
    destruct H1 as [?|[??]]; try lia; done.
Qed.

Lemma bytes_lt_nil_r a : ¬ bytes_lt a [].
Proof. unfold bytes_lt. by destruct a. Qed.

Lemma bytes_lt_nil_l a : bytes_lt [] a ↔ a ≠ [].
Proof. unfold bytes_lt. by destruct a. Qed.

Lemma bytes_le_lt a b : bytes_le a b ↔ ¬ bytes_lt b a.
Proof. unfold bytes_le, bytes_lt. by destruct (bytes_ltb b a). Qed.

Lemma bytes_lt_irrefl a : ¬ bytes_lt a a.
Proof.
  induction a as [|x a IH]; [apply bytes_lt_nil_r|]. rewrite bytes_lt_cons. intros [?|[_ ?]]; [lia|done].
Qed.

Lemma bytes_lt_trans a b c : bytes_lt a b → bytes_lt b c → bytes_lt a c.
Proof.
  revert b c. induction a as [|x a IH]; intros [|y b] [|z c] H1 H2;
    try (by apply bytes_lt_nil_r in H1); try (by apply bytes_lt_nil_r in H2); try done.
  rewrite bytes_lt_cons in *. destruct H1 as [?|[-> ?]], H2 as [?|[-> ?]];
    [left; lia|left; lia|left; lia|right; split; [done|by eapply IH]].
Qed.

Lemma bytes_lt_total a b : bytes_lt a b ∨ a = b ∨ bytes_lt b a.
Proof.
  revert b. induction a as [|x a IH]; intros [|y b].
  - by right; left.
  - left. by apply bytes_lt_nil_l.
  - right; right. by apply bytes_lt_nil_l.
  - rewrite !bytes_lt_cons. destruct (Z.lt_trichotomy x y) as [?|[->|?]]; [by left; left| |by right; right; left].
    destruct (IH b) as [?|[->|?]]; [by left; right|by right; left|by right; right; right].
Qed.

Lemma bytes_lt_le a b : bytes_lt a b → bytes_le a b.
Proof.
  intros H. apply bytes_le_lt. intros H'.
  apply (bytes_lt_irrefl a). by eapply bytes_lt_trans.
Qed.

#[global] Instance bytes_le_refl : Reflexive bytes_le.
Proof. intros a. apply bytes_le_lt, bytes_lt_irrefl. Qed.
#[global] Instance bytes_lt_transitive : Transitive bytes_lt.
Proof. intros a b c. apply bytes_lt_trans. Qed.
#[global] Instance bytes_le_trans : Transitive bytes_le.
Proof.
  intros a b c. rewrite !bytes_le_lt. intros H1 H2 H3.
  destruct (bytes_lt_total a b) as [Hab|[->|?]]; [|done|done].
  apply H2. by eapply bytes_lt_trans.
Qed.
#[global] Instance bytes_le_total : Total bytes_le.
Proof.
  intros a b. rewrite !bytes_le_lt. destruct (bytes_lt_total a b) as [H|[->|H]].
  - left. intros H'. apply (bytes_lt_irrefl a). by eapply bytes_lt_trans.
  - left. apply bytes_lt_irrefl.
  - right. intros H'. apply (bytes_lt_irrefl a). by eapply bytes_lt_trans.
Qed.
#[global] Instance bytes_le_antisymm : AntiSymm (=) bytes_le.
Proof.
  intros a b. rewrite !bytes_le_lt. intros H1 H2.
  by destruct (bytes_lt_total a b) as [?|[?|?]].
Qed.

Lemma bytes_lt_app_l p a b : bytes_lt (p ++ a) (p ++ b) ↔ bytes_lt a b.
Proof.
  induction p as [|x p IH]; simpl; [done|]. rewrite bytes_lt_cons, IH. intuition lia.
Qed.

Lemma bytes_lt_app_same_length a b x y :
  length a = length b → bytes_lt (a ++ x) (b ++ y) ↔ bytes_lt a b ∨ a = b ∧ bytes_lt x y.
Proof.
  revert b. induction a as [|u a IH]; intros [|v b] Hl; try done; simpl.
  - split; [by right|]. by intros [?%bytes_lt_irrefl|[_ ?]].
  - injection Hl as Hl. rewrite !bytes_lt_cons, IH by done. split.
    + intros [?|[-> [?|[-> ?]]]]; [by left; left|by left; right|by right].
    + intros [[?|[-> ?]]|[[= -> ->] ?]]; [by left|by right; split; [|left]|by right; split; [|right]].
Qed.

(** ** Big-endian values *)

Definition be_value (l : bytes) : Z := foldl (λ acc b, acc * 256 + b) 0 l.

Lemma be_value_snoc l b : be_value (l ++ [b]) = be_value l * 256 + b.
Proof. unfold be_value. by rewrite foldl_app. Qed.

Lemma be_value_bound l : wf_bytes l → 0 ≤ be_value l < 256 ^ Z.of_nat (length l).
Proof.
  induction l as [|l b IH] using rev_ind; intros Hw.
  - unfold be_value; simpl. lia.
  - apply Forall_app in Hw as [Hw Hb]. apply Forall_cons in Hb as [Hb _].
    specialize (IH Hw). rewrite be_value_snoc, length_app, Nat2Z.inj_add. simpl length.
    rewrite Z.pow_add_r by lia. unfold is_byte in Hb. change (256 ^ Z.of_nat 1) with 256. nia.
Qed.

(** For byte strings of one length the order is the order of the values. *)
Lemma be_value_lt_1 a b :
  length a = length b → wf_bytes a → wf_bytes b → bytes_lt a b → be_value a < be_value b.
Proof.
  revert b. induction a as [|x a IH] using rev_ind; intros b Hl Ha Hb.
  - destruct b; [|done]. by intros ?%bytes_lt_irrefl.
  - destruct (exists_last (l := b)) as (b' & y & ->).
    { intros ->. rewrite length_app in Hl. simpl in Hl. lia. }
    rewrite !length_app in Hl. simpl in Hl.
    apply Forall_app in Ha as [Ha Hx]. apply Forall_app in Hb as [Hb Hy].
    apply Forall_cons in Hx as [Hx _]. apply Forall_cons in Hy as [Hy _].
    rewrite bytes_lt_app_same_length by lia. rewrite !be_value_snoc, bytes_lt_cons.
    unfold is_byte in *. intros [Hlt|[-> [?|[_ ?%bytes_lt_irrefl]]]]; [|lia|done].
    apply IH in Hlt; [nia|lia|done..].
Qed.

Lemma be_value_lt a b :
  length a = length b → wf_bytes a → wf_bytes b → bytes_lt a b ↔ be_value a < be_value b.
Proof.
  intros Hl Ha Hb. split; [by apply be_value_lt_1|]. intros Hv.
  destruct (bytes_lt_total a b) as [?|[->|H]]; [done|lia|].
  apply be_value_lt_1 in H; [lia|done..].
Qed.

Lemma be_value_inj a b :
  length a = length b → wf_bytes a → wf_bytes b → be_value a = be_value b → a = b.
Proof.
  intros Hl Ha Hb He. destruct (bytes_lt_total a b) as [H|[?|H]]; [|done|];
    apply be_value_lt_1 in H; try done; lia.
Qed.

(** The [n] low-order bytes of a number, most significant first
    (encoding/binary.BigEndian). *)
Fixpoint be_bytes (n : nat) (z : Z) : bytes :=
  match n with
  | O => []
  | S n => be_bytes n (z / 256) ++ [z mod 256]
  end.

Lemma be_bytes_length n z : length (be_bytes n z) = n.
Proof. revert z. induction n as [|n IH]; intros z; simpl; [done|]. rewrite length_app, IH. simpl. lia. Qed.

Lemma be_bytes_wf n z : wf_bytes (be_bytes n z).
Proof.
  revert z. induction n as [|n IH]; intros z; simpl; [constructor|].
  apply Forall_app. split; [apply IH|]. constructor; [|constructor].
  unfold is_byte. apply Z.mod_pos_bound. lia.
Qed.

Lemma be_bytes_value n z : 0 ≤ z < 256 ^ Z.of_nat n → be_value (be_bytes n z) = z.
Proof.
  revert z. induction n as [|n IH]; intros z Hz.
  - simpl in Hz. unfold be_value. simpl. lia.
  - cbn [be_bytes]. rewrite be_value_snoc, IH.
    + pose proof (Z.div_mod z 256). lia.
    + rewrite Nat2Z.inj_succ, Z.pow_succ_r in Hz by lia.
      split; [apply Z.div_pos; lia|apply Z.div_lt_upper_bound; lia].
Qed.

(** ** cosmos-sdk: sdk.Uint64ToBigEndian and sdk.BigEndianToUint64 *)

Class SDK := {
  Uint64ToBigEndian : Z → bytes;
  BigEndianToUint64 : bytes → Z;
}.

Class SDKLaws `{SDK} : Prop := {
  be_length n : length (Uint64ToBigEndian n) = 8%nat;
  be_wf n : wf_bytes (Uint64ToBigEndian n);
  be_encodes n : is_uint64 n → be_value (Uint64ToBigEndian n) = n;
  be_decodes l : length l = 8%nat → wf_bytes l → BigEndianToUint64 l = be_value l;
}.

Section sdk.
Context `{SDKLaws}.

Lemma be_inj m n : is_uint64 m → is_uint64 n → Uint64ToBigEndian m = Uint64ToBigEndian n → m = n.
Proof. intros Hm Hn E. rewrite <- (be_encodes m), <- (be_encodes n) by done. by rewrite E. Qed.

Lemma be_lt m n :
  is_uint64 m → is_uint64 n → bytes_lt (Uint64ToBigEndian m) (Uint64ToBigEndian n) ↔ m < n.
Proof.
  intros Hm Hn. rewrite be_value_lt by (rewrite ?be_length; auto using be_wf).
  by rewrite !be_encodes.
Qed.

Lemma be_roundtrip n : is_uint64 n → BigEndianToUint64 (Uint64ToBigEndian n) = n.
Proof. intros Hn. rewrite be_decodes by auto using be_length, be_wf. by apply be_encodes. Qed.
End sdk.

(** ** cosmos-db: dbm.DB, dbm.Iterator and dbm.Batch *)

Inductive batch_op :=
| OpSet (k v : bytes)
| OpDelete (k : bytes).

Notation batch := (list batch_op).

Definition apply_op (m : gmap bytes bytes) (op : batch_op) : gmap bytes bytes :=
  match op with
  | OpSet k v => <[k := v]> m
  | OpDelete k => delete k m
  end.

Definition apply_ops (m : gmap bytes bytes) (ops : batch) : gmap bytes bytes :=
  foldl apply_op m ops.

(** The store: every call may fail.  [Get] of an absent key is the empty
    value; an iterator's end [None] is Go's nil, the end of the key space. *)
Class KVDB (D : Type) := {
  db_get : D → bytes → res string bytes;
  db_iterator : D → bytes → option bytes → res string (list (bytes * bytes));
  db_reverse_iterator : D → bytes → option bytes → res string (list (bytes * bytes));
  db_set : D → bytes → bytes → option string * D;
  batch_add : D → batch → batch_op → res string batch;
  db_write : D → batch → option string * D;
  contents : D → gmap bytes bytes;
}.

Definition in_range (start : bytes) (end_ : option bytes) (k : bytes) : Prop :=
  bytes_le start k ∧ match end_ with Some e => bytes_lt k e | None => True end.

#[global] Instance in_range_dec s e k : Decision (in_range s e k).
Proof. unfold in_range. destruct e; apply _. Defined.

(** What a successful iteration yields: the pairs of the range in key order. *)
Definition iterates (m : gmap bytes bytes) (start : bytes) (end_ : option bytes)
    (l : list (bytes * bytes)) : Prop :=
  StronglySorted bytes_lt l.*1 ∧
  ∀ k v, (k, v) ∈ l ↔ m !! k = Some v ∧ in_range start end_ k.

Class KVDBLaws (D : Type) `{KVDB D} : Prop := {
  db_get_ok d k v : db_get d k = Ok v → v = default [] (contents d !! k);
  db_iterator_ok d s e l : db_iterator d s e = Ok l → iterates (contents d) s e l;
  db_reverse_iterator_ok d s e l :
    db_reverse_iterator d s e = Ok l → iterates (contents d) s e (reverse l);
  db_set_ok d k v d' : db_set d k v = (None, d') → contents d' = <[k := v]> (contents d);
  batch_add_ok d b op b' : batch_add d b op = Ok b' → b' = b ++ [op];
  db_write_ok d b d' : db_write d b = (None, d') → contents d' = apply_ops (contents d) b;
}.

(** A store on which no call fails. *)
Class KVDBReliable (D : Type) `{KVDB D} : Prop := {
  db_get_total d k : is_ok (db_get d k) = true;
  db_iterator_total d s e : is_ok (db_iterator d s e) = true;
  db_reverse_iterator_total d s e : is_ok (db_reverse_iterator d s e) = true;
  db_set_total d k v : (db_set d k v).1 = None;
  batch_add_total d b op : is_ok (batch_add d b op) = true;
  db_write_total d b : (db_write d b).1 = None;
}.

Lemma bytes_sorted_NoDup (l : list bytes) : StronglySorted bytes_lt l → NoDup l.
Proof.
  induction 1 as [|x l _ IH Hx]; constructor; [|done].
  intros Hin. rewrite Forall_forall in Hx. by apply (bytes_lt_irrefl x), Hx.
Qed.

Lemma sorted_pairs (l : list (bytes * bytes)) :
  StronglySorted bytes_lt l.*1 → StronglySorted (λ a b, bytes_lt a.1 b.1) l.
Proof.
  induction l as [|x l IH]; intros Hs; [constructor|].
  rewrite fmap_cons in Hs. apply StronglySorted_inv in Hs as [Hs Hx].
  constructor; [by apply IH|]. rewrite Forall_fmap in Hx. exact Hx.
Qed.

Lemma iterates_unique m s e l l' : iterates m s e l → iterates m s e l' → l = l'.
Proof.
  intros [S1 M1] [S2 M2].
  apply (StronglySorted_unique_strong (λ a b : bytes * bytes, bytes_lt a.1 b.1));
    [|by apply sorted_pairs..|].
  - intros [k v] [k' v'] _ _ L1 L2. exfalso. simpl in *. apply (bytes_lt_irrefl k).
    by eapply bytes_lt_trans.
  - apply NoDup_Permutation.
    + by apply (NoDup_fmap_1 fst), bytes_sorted_NoDup.
    + by apply (NoDup_fmap_1 fst), bytes_sorted_NoDup.
    + intros [k v]. by rewrite M1, M2.
Qed.

(** The last operation on a key decides. *)
Definition op_key (op : batch_op) : bytes :=
  match op with OpSet k _ => k | OpDelete k => k end.

Lemma apply_ops_app m a b : apply_ops m (a ++ b) = apply_ops (apply_ops m a) b.
Proof. unfold apply_ops. apply foldl_app. Qed.

Lemma apply_ops_other m ops k :
  k ∉ op_key <$> ops → apply_ops m ops !! k = m !! k.
Proof.
  revert m. induction ops as [|op ops IH]; intros m Hk; [done|].
  rewrite fmap_cons, not_elem_of_cons in Hk. destruct Hk as [Hne Hk].
  simpl. rewrite IH by done. destruct op; simpl in *; simplify_map_eq; done.
Qed.

Lemma apply_ops_deleted m ops k :
  Forall (λ op, ∃ k, op = OpDelete k) ops → OpDelete k ∈ ops → apply_ops m ops !! k = None.
Proof.
  intros Hall. revert m. induction Hall as [|op ops [k' ->] Hall IH]; intros m Hin; [set_solver|].
  simpl. apply elem_of_cons in Hin as [[= ->]|Hin]; [|by apply IH].
  clear IH. assert (delete k' m !! k' = None) as Hn by (by simplify_map_eq).
  revert Hn. generalize (delete k' m). induction Hall as [|op ops [k'' ->] Hall IH]; intros m' Hn; [done|].
  simpl. apply IH. by rewrite lookup_delete_None; auto.
Qed.
