(* ===== verification/Instances.v ===== *)
(** * Concrete library instances

    Concrete functions that satisfy the laws assumed of the libraries in
    Bytes.v, so that the theorems stated against those interfaces have
    inhabited hypotheses: big-endian encoding, and an in-memory ordered
    store that never fails. *)

From S2P Require Import Prelude Bytes.

(** ** Big-endian encoding *)

#[export] Instance model_SDK : SDK := {
  Uint64ToBigEndian := be_bytes 8;
  BigEndianToUint64 := be_value;
}.

#[export] Instance model_SDKLaws : SDKLaws.
Proof.
  split.
  - intros. apply be_bytes_length.
  - intros. apply be_bytes_wf.
  - intros n Hn. apply be_bytes_value. unfold is_uint64 in Hn.
    change (256 ^ Z.of_nat 8) with (2 ^ 64). lia.
  - done.
Qed.

(** ** In-memory store *)

Definition pair_le (a b : bytes * bytes) : Prop := bytes_le a.1 b.1.

#[global] Instance pair_le_dec : RelDecision pair_le.
Proof. intros a b. unfold pair_le. apply _. Defined.
#[global] Instance pair_le_total : Total pair_le.
Proof. intros a b. unfold pair_le. apply (total bytes_le). Qed.
#[global] Instance pair_le_trans : Transitive pair_le.
Proof. intros a b c. unfold pair_le. apply (transitivity (R := bytes_le)). Qed.

Definition mem_range (m : gmap bytes bytes) (s : bytes) (e : option bytes) : list (bytes * bytes) :=
  merge_sort pair_le (filter (λ kv, in_range s e kv.1) (map_to_list m)).

Lemma mem_range_iterates m s e : iterates m s e (mem_range m s e).
Proof.
  unfold mem_range. set (l := filter _ _). split.
  - assert (NoDup (merge_sort pair_le l).*1) as Hnd.
    { rewrite merge_sort_Permutation. unfold l.
      eapply sublist_NoDup; [apply (NoDup_fst_map_to_list m)|].
      apply fmap_sublist. apply sublist_filter. }
    pose proof (StronglySorted_merge_sort pair_le l) as Hs. revert Hnd Hs.
    generalize (merge_sort pair_le l). clear. intros k Hnd Hs.
    induction Hs as [|x k Hs IH Hx]; simpl; [constructor|].
    rewrite fmap_cons, NoDup_cons in Hnd. destruct Hnd as [Hnin Hnd].
    constructor; [by apply IH|]. apply Forall_fmap. rewrite Forall_forall in Hx |- *.
    intros y Hy. specialize (Hx _ Hy). unfold pair_le in Hx. simpl.
    destruct (bytes_lt_total x.1 y.1) as [?|[E|L]]; [done| |by apply bytes_le_lt in Hx].
    exfalso. apply Hnin. rewrite E. apply list_elem_of_fmap. eauto.
  - intros k v. rewrite (elem_of_Permutation_proper (k, v) _ _ (merge_sort_Permutation pair_le l)).
    unfold l. rewrite list_elem_of_filter, elem_of_map_to_list. simpl. tauto.
Qed.

#[export] Instance MemDB : KVDB (gmap bytes bytes) := {
  db_get m k := Ok (default [] (m !! k));
  db_iterator m s e := Ok (mem_range m s e);
  db_reverse_iterator m s e := Ok (reverse (mem_range m s e));
  db_set m k v := (None, <[k := v]> m);
  batch_add _ b op := Ok (b ++ [op]);
  db_write m b := (None, apply_ops m b);
  contents m := m;
}.

#[export] Instance MemDBLaws : KVDBLaws (gmap bytes bytes).
Proof.
  split; simpl.
  - by intros ? ? ? [= <-].
  - intros ? ? ? ? [= <-]. apply mem_range_iterates.
  - intros ? ? ? ? [= <-]. rewrite reverse_involutive. apply mem_range_iterates.
  - by intros ? ? ? ? [= <-].
  - by intros ? ? ? ? [= <-].
  - by intros ? ? ? [= <-].
Qed.

#[export] Instance MemDBReliable : KVDBReliable (gmap bytes bytes).
Proof. by split. Qed.
