(* ===== verification/GoLib.v ===== *)
(** * Go standard library functions

    The string, number and big-integer functions of Go's standard library the
    modelled code calls (strings, strconv, math/big), on byte strings. *)

From S2P Require Import Prelude Bytes.
From Stdlib Require Import Ascii String.
From stdpp Require Import strings pretty.
#[local] Open Scope Z_scope.

Module GoLib.

(** ** Errors

    An error is its message text (the format string; interpolated values are
    left out), the error it wraps if any, and its identity when it is a package
    variable compared with errors.Is. *)

Inductive error :=
| New (msg : string)
| Wrap (msg : string) (err : error)
| Sentinel (name : string)
| BlockParseError (msg : string) (err : option error)
| Join (errs : list error).

(** fmt.Errorf without a wrapped error *)
Definition Errorf (msg : string) : error := New msg.

(** The error of a library call. *)
Definition lib {A} (m : res string A) : res error A := res_map_err New m.

(** ** Strings and byte slices *)

Definition byte_of_ascii (c : ascii) : Z := Z.of_nat (nat_of_ascii c).
Definition ascii_of_byte (b : Z) : ascii := ascii_of_nat (Z.to_nat b).

(** []byte(s) and string(b) *)
Definition string_bytes (s : string) : bytes := byte_of_ascii <$> list_ascii_of_string s.
Definition bytes_string (l : bytes) : string := string_of_list_ascii (ascii_of_byte <$> l).

Definition strings_HasPrefix (s prefix : string) : bool := String.prefix prefix s.

Definition strings_TrimPrefix (s prefix : string) : string :=
  if String.prefix prefix s then String.substring (String.length prefix) (String.length s) s else s.

Fixpoint strings_Contains (s sub : string) : bool :=
  String.prefix sub s ||
  match s with
  | EmptyString => false
  | String _ s' => strings_Contains s' sub
  end.

(** The UTF-8 encodings of the runes with the White_Space property. *)
Definition white_space : list bytes :=
  [[9]; [10]; [11]; [12]; [13]; [32]; [194; 133]; [194; 160]; [225; 154; 128];
   [226; 128; 128]; [226; 128; 129]; [226; 128; 130]; [226; 128; 131]; [226; 128; 132];
   [226; 128; 133]; [226; 128; 134]; [226; 128; 135]; [226; 128; 136]; [226; 128; 137];
   [226; 128; 138]; [226; 128; 168]; [226; 128; 169]; [226; 128; 175]; [226; 129; 159];
   [227; 128; 128]].

Definition strip_one (pre : list bytes) (l : bytes) : option bytes :=
  match filter (λ w, bool_decide (take (length w) l = w) = true) pre with
  | w :: _ => Some (drop (length w) l)
  | [] => None
  end.

Fixpoint strip (fuel : nat) (pre : list bytes) (l : bytes) : bytes :=
  match fuel with
  | O => l
  | S fuel => match strip_one pre l with Some l' => strip fuel pre l' | None => l end
  end.

(** Each round removes at least one byte, so the length is enough fuel. *)
Definition strings_TrimSpace (s : string) : string :=
  let l := string_bytes s in
  let l := strip (length l) white_space l in
  let r := reverse l in
  bytes_string (reverse (strip (length r) (reverse <$> white_space) r)).

(** ** strconv *)

Definition digit_value (c : ascii) : option Z :=
  let b := byte_of_ascii c in
  if bool_decide (48 ≤ b ≤ 57) then Some (b - 48) else None.

Fixpoint digits_value (acc : Z) (l : list ascii) : option Z :=
  match l with
  | [] => Some acc
  | c :: l => match digit_value c with
              | Some d => digits_value (acc * 10 + d) l
              | None => None
              end
  end.

Definition parse_digits (s : string) : option Z :=
  match s with
  | EmptyString => None
  | _ => digits_value 0 (list_ascii_of_string s)
  end.

(** strconv.ParseUint(s, 10, bits) *)
Definition strconv_ParseUint (s : string) (bits : Z) : res string Z :=
  match parse_digits s with
  | Some n => if bool_decide (n < 2 ^ bits) then Ok n else Err "value out of range"%string
  | None => Err "invalid syntax"%string
  end.

(** strconv.Atoi: an optional sign and decimal digits in the range of int. *)
Definition strconv_Atoi (s : string) : res string Z :=
  let unsigned (s : string) (f : Z → Z) :=
    match parse_digits s with
    | Some n => if bool_decide (is_int64 (f n)) then Ok (f n) else Err "value out of range"%string
    | None => Err "invalid syntax"%string
    end in
  match s with
  | String c s' =>
      if bool_decide (c = "-"%char) then unsigned s' Z.opp
      else if bool_decide (c = "+"%char) then unsigned s' (λ n, n)
      else unsigned s (λ n, n)
  | EmptyString => Err "invalid syntax"%string
  end.

(** strconv.Itoa *)
Definition strconv_Itoa (z : Z) : string := pretty.pretty z.

(** ** math/big *)

(** The Bytes method of big.Int: the absolute value, big-endian, without leading zeros. *)
Definition big_byte_length (z : Z) : nat :=
  if bool_decide (z = 0) then 0%nat else S (Z.to_nat (Z.log2 (Z.abs z) / 8)).
Definition big_Bytes (z : Z) : bytes := be_bytes (big_byte_length z) (Z.abs z).
Definition big_SetBytes (l : bytes) : Z := be_value l.

Lemma big_Bytes_roundtrip z : big_SetBytes (big_Bytes z) = Z.abs z.
Proof.
  unfold big_SetBytes, big_Bytes. apply be_bytes_value. unfold big_byte_length.
  case_bool_decide as E; [subst; simpl; lia|].
  pose proof (Z.log2_spec (Z.abs z) ltac:(lia)) as [_ Hl].
  pose proof (Z.log2_nonneg (Z.abs z)) as Hn.
  set (k := Z.log2 (Z.abs z)) in *. split; [lia|].
  rewrite Nat2Z.inj_succ, Z2Nat.id by (apply Z.div_pos; lia).
  change 256 with (2 ^ 8). rewrite <- Z.pow_mul_r by (try lia; pose proof (Z.div_pos k 8 Hn ltac:(lia)); lia).
  eapply Z.lt_le_trans; [exact Hl|]. apply Z.pow_le_mono_r; [lia|].
  pose proof (Z.div_mod k 8 ltac:(lia)). pose proof (Z.mod_pos_bound k 8 ltac:(lia)). lia.
Qed.

Lemma big_Bytes_wf z : wf_bytes (big_Bytes z).
Proof. apply be_bytes_wf. Qed.

(** big.Int.Cmp-based choices are written with Z comparisons. *)

Lemma byte_of_ascii_range c : is_byte (byte_of_ascii c).
Proof. unfold byte_of_ascii, is_byte. pose proof (nat_ascii_bounded c). lia. Qed.

Lemma string_bytes_wf s : wf_bytes (string_bytes s).
Proof.
  unfold string_bytes, wf_bytes. apply Forall_fmap, Forall_true. intros c. apply byte_of_ascii_range.
Qed.

Lemma bytes_string_bytes s : bytes_string (string_bytes s) = s.
Proof.
  unfold bytes_string, string_bytes. rewrite <- list_fmap_compose.
  rewrite (list_fmap_ext _ id), list_fmap_id; [apply string_of_list_ascii_of_string|].
  intros i c _. simpl. unfold ascii_of_byte, byte_of_ascii. rewrite Nat2Z.id. apply ascii_nat_embedding.
Qed.

Lemma string_bytes_string l : wf_bytes l → string_bytes (bytes_string l) = l.
Proof.
  intros Hl. unfold bytes_string, string_bytes. rewrite list_ascii_of_string_of_list_ascii.
  induction Hl as [|b l Hb _ IH]; [done|]. rewrite !fmap_cons, IH. f_equal.
  unfold byte_of_ascii, ascii_of_byte. unfold is_byte in Hb.
  rewrite nat_ascii_embedding; lia.
Qed.

(** ** Decimal text *)

#[global] Instance strconv_Itoa_inj : Inj (=) (=) strconv_Itoa.
Proof. unfold strconv_Itoa. apply _. Qed.

#[global] Instance string_bytes_inj : Inj (=) (=) string_bytes.
Proof. intros a b E. rewrite <- (bytes_string_bytes a), <- (bytes_string_bytes b). by rewrite E. Qed.

Lemma pretty_N_go_bytes b x s :
  b < 45 → b ∉ string_bytes s → b ∉ string_bytes (pretty.pretty_N_go x s).
Proof.
  intros Hb. revert s. induction (N.lt_wf_0 x) as [x _ IH]; intros s Hs.
  assert (x = 0 ∨ 0 < x)%N as [->|?] by lia; [by rewrite pretty.pretty_N_go_0|].
  rewrite pretty.pretty_N_go_step by done. apply IH; [by apply N.div_lt|].
  change (string_bytes (String ?c s)) with (byte_of_ascii c :: string_bytes s).
  apply not_elem_of_cons. split; [|done].
  unfold pretty.pretty_N_char. repeat case_match; vm_compute; lia.
Qed.

(** A decimal number has no byte below the minus sign, such as '#'. *)
Lemma Itoa_bytes b z : b < 45 → b ∉ string_bytes (strconv_Itoa z).
Proof.
  intros Hb. unfold strconv_Itoa, pretty, pretty_Z.
  assert (∀ n, b ∉ string_bytes (pretty.pretty_N n)) as Hn.
  { intros n. unfold pretty.pretty_N. case_decide.
    - vm_compute. intros Hin. apply list_elem_of_In in Hin. simpl in Hin. lia.
    - apply pretty_N_go_bytes; [done|]. apply not_elem_of_nil. }
  destruct z as [|p|p]; [|apply Hn|].
  - vm_compute. intros Hin. apply list_elem_of_In in Hin. simpl in Hin. lia.
  - change (b ∉ 45 :: string_bytes (pretty.pretty_N (Npos p))). apply not_elem_of_cons. split; [lia|apply Hn].
Qed.

(** Text before the first separator, and after it. *)
Lemma separator_inj (sep : Z) a b a' b' :
  sep ∉ a → sep ∉ a' → a ++ sep :: b = a' ++ sep :: b' → a = a' ∧ b = b'.
Proof.
  revert a'. induction a as [|x a IH]; intros [|x' a'] Ha Ha'; simpl.
  - by intros [= ->].
  - intros [= <- _]. exfalso. apply Ha'. by left.
  - intros [= -> _]. exfalso. apply Ha. by left.
  - intros [= <- E]. apply not_elem_of_cons in Ha as [_ Ha], Ha' as [_ Ha'].
    destruct (IH _ Ha Ha' E) as [-> ->]. done.
Qed.

Example trim_example : strings_TrimSpace " 12	 " = "12"%string.
Proof. reflexivity. Qed.

Example atoi_example : strconv_Atoi "-42" = Ok (-42) ∧ strconv_Itoa 128 = "128"%string.
Proof. split; reflexivity. Qed.
End GoLib.
