(* ===== verification/EthTypes.v ===== *)
(** * Data of the Ethereum and Cosmos libraries

    The records the gateway exchanges with go-ethereum, cometbft and the chain's
    evm module, and the library functions it calls on them.  Structs are records
    with the fields the gateway reads or writes; a message or transaction is
    given by the results of its methods.  A Go pointer is an [option], nil
    slices and empty slices are identified, and [[]*T] is a list of options.
    Library functions are fields of operational classes; the laws classes state
    the documented behaviour the theorems use.  [model_*] instances at the end
    are concrete functions that satisfy the laws. *)

From Stdlib Require Import Ascii String.
From S2P Require Import Prelude Bytes GoLib.
From stdpp Require Import strings list.
#[local] Open Scope Z_scope.

Module EthTypes.
Import GoLib.

(** ** go-ethereum values *)

Notation Hash := bytes (only parsing).
Notation Address := bytes (only parsing).

Definition HashLength : nat := 32.
Definition AddressLength : nat := 20.
Definition zero_hash : Hash := replicate 32 0.
Definition zero_address : Address := replicate 20 0.

Definition is_hash (h : Hash) : Prop := length h = 32%nat ∧ wf_bytes h.
Definition is_address (a : Address) : Prop := length a = 20%nat ∧ wf_bytes a.

#[global] Instance is_hash_dec h : Decision (is_hash h).
Proof. unfold is_hash. apply _. Defined.
#[global] Instance is_address_dec a : Decision (is_address a).
Proof. unfold is_address. apply _. Defined.

Lemma zero_hash_wf : is_hash zero_hash.
Proof. split; [done|]. vm_compute. repeat constructor; done. Qed.
Lemma zero_address_wf : is_address zero_address.
Proof. split; [done|]. vm_compute. repeat constructor; done. Qed.

(** ethtypes.Log *)
Record EthLog := mkEthLog {
  log_Address : Address;
  log_Topics : list Hash;
  log_Data : bytes;
  log_BlockNumber : Z;
  log_TxHash : Hash;
  log_TxIndex : Z;
  log_BlockHash : Hash;
  log_Index : Z;
  log_Removed : bool;
}.
#[global] Instance EthLog_eq_dec : EqDecision EthLog.
Proof. solve_decision. Defined.

(** ethtypes.AccessTuple *)
Record AccessTuple := mkAccessTuple { at_Address : Address; at_StorageKeys : list Hash }.
#[global] Instance AccessTuple_eq_dec : EqDecision AccessTuple.
Proof. solve_decision. Defined.

Definition LegacyTxType : Z := 0.
Definition AccessListTxType : Z := 1.
Definition DynamicFeeTxType : Z := 2.
Definition ReceiptStatusFailed : Z := 0.
Definition ReceiptStatusSuccessful : Z := 1.
Definition BloomByteLength : nat := 256.

(** ethtypes.Transaction, by the results of its methods *)
Record Transaction := mkTransaction {
  tx_Hash : Hash;
  tx_Type : Z;
  tx_Protected : bool;
  tx_ChainId : Z;
  tx_Nonce : Z;
  tx_To : option Address;
  tx_Gas : Z;
  tx_GasPrice : Z;
  tx_GasFeeCap : Z;
  tx_GasTipCap : Z;
  tx_Value : Z;
  tx_Data : bytes;
  tx_AccessList : list AccessTuple;
  tx_V : Z;
  tx_R : Z;
  tx_S : Z;
}.

(** The two signers the gateway chooses between. *)
Inductive Signer :=
| FrontierSigner
| LatestSignerForChainID (chainID : Z).

(** ** Cosmos values *)

(** evmtypes.MsgEthereumTx, by the results of its methods *)
Record MsgEthereumTx := mkMsgEthereumTx {
  msg_GetGas : Z;
  msg_Hash : Hash;
  msg_AsTransaction : option Transaction;
  msg_GetSenderLegacy : Signer → res string Address;
}.

Inductive Msg :=
| EthMsg (m : MsgEthereumTx)
| OtherMsg (typeURL : string).

(** sdk.Tx: its messages, and the type URLs of its extension options when the
    concrete type has them. *)
Record sdk_Tx := mkSdkTx {
  GetMsgs : list Msg;
  GetExtensionOptions : option (list string);
}.

(** abci.EventAttribute and abci.Event *)
Record EventAttribute := mkAttr { attr_Key : string; attr_Value : string; attr_Index : bool }.
Record Event := mkEvent { ev_Type : string; ev_Attributes : list EventAttribute }.

(** abci.ExecTxResult *)
Record ExecTxResult := mkExecTxResult {
  res_Code : Z;
  res_Data : bytes;
  res_Log : string;
  res_GasUsed : Z;
  res_Events : list Event;
  res_Codespace : string;
}.
#[global] Instance EventAttribute_eq_dec : EqDecision EventAttribute.
Proof. solve_decision. Defined.
#[global] Instance Event_eq_dec : EqDecision Event.
Proof. solve_decision. Defined.
#[global] Instance ExecTxResult_eq_dec : EqDecision ExecTxResult.
Proof. solve_decision. Defined.

Definition CodeTypeOK : Z := 0.

(** evmtypes.Log *)
Record EvmLog := mkEvmLog {
  el_Address : string;
  el_Topics : list string;
  el_Data : bytes;
  el_BlockNumber : Z;
  el_TxHash : string;
  el_TxIndex : Z;
  el_BlockHash : string;
  el_Index : Z;
  el_Removed : bool;
}.

#[global] Instance EvmLog_eq_dec : EqDecision EvmLog.
Proof. solve_decision. Defined.

(** chaintypes.TxResult *)
Record TxResult := mkTxResult {
  txr_Height : Z;
  txr_TxIndex : Z;
  txr_MsgIndex : Z;
  txr_EthTxIndex : Z;
  txr_Failed : bool;
  txr_GasUsed : Z;
  txr_CumulativeGasUsed : Z;
}.
#[global] Instance TxResult_eq_dec : EqDecision TxResult.
Proof. solve_decision. Defined.

(** cmtypes.Block, by the fields and method results the gateway reads *)
Record Block := mkBlock {
  blk_Height : Z;
  blk_Txs : list bytes;
  blk_Hash : bytes;
  blk_LastBlockID_Hash : bytes;
  blk_AppHash : bytes;
  blk_DataHash : bytes;
  blk_ProposerAddress : bytes;
  blk_Time_Unix : Z;
  blk_Size : Z;
}.

(** coretypes.ResultBlockResults *)
Record ResultBlockResults := mkBlockResults {
  br_Height : Z;
  br_TxResults : list (option ExecTxResult);
  br_FinalizeBlockEvents : list Event;
}.

(** ** go-ethereum functions *)

Class EthLib := {
  BytesToHash : bytes → Hash;
  BytesToAddress : bytes → Address;
  HexToHash : string → Hash;
  HexToAddress : string → Address;
  Hash_Hex : Hash → string;
  Address_Hex : Address → string;
  IsHexAddress : string → bool;
  FromHex : string → bytes;
  hexutil_Encode : bytes → string;
  hexutil_Decode : string → res string bytes;
  hexutil_EncodeBig : Z → string;
  hexutil_DecodeBig : string → res string Z;
  BigToHash : Z → Hash;
  Keccak256Hash : list bytes → Hash;
  CreateAddress : Address → Z → Address;
  BytesToBloom : bytes → bytes;
  EmptyRootHash : Hash;
  EmptyUncleHash : Hash;
}.

Class EthLibLaws `{EthLib} : Prop := {
  BytesToHash_wf b : wf_bytes b → is_hash (BytesToHash b);
  BytesToHash_id h : is_hash h → BytesToHash h = h;
  BytesToAddress_wf b : wf_bytes b → is_address (BytesToAddress b);
  BytesToAddress_id a : is_address a → BytesToAddress a = a;
  HexToHash_Hex h : is_hash h → HexToHash (Hash_Hex h) = h;
  HexToHash_wf s : is_hash (HexToHash s);
  HexToAddress_Hex a : is_address a → HexToAddress (Address_Hex a) = a;
  HexToAddress_wf s : is_address (HexToAddress s);
  Decode_Encode b : wf_bytes b → hexutil_Decode (hexutil_Encode b) = Ok b;
  FromHex_Encode b : wf_bytes b → FromHex (hexutil_Encode b) = b;
  DecodeBig_EncodeBig z : 0 ≤ z < 2 ^ 256 → hexutil_DecodeBig (hexutil_EncodeBig z) = Ok z;
  EncodeBig_nonempty z : hexutil_EncodeBig z ≠ EmptyString;
  Keccak256Hash_wf l : is_hash (Keccak256Hash l);
  Keccak256Hash_concat l l' : mjoin l = mjoin l' → Keccak256Hash l = Keccak256Hash l';
  EmptyRootHash_wf : is_hash EmptyRootHash;
}.

(** ** evm module of the chain, cometbft and cosmos-sdk *)

Class ChainLib := {
  EventTypeEthereumTx : string;
  AttributeKeyEthereumTxHash : string;
  AttributeKeyTxIndex : string;
  AttributeKeyTxGasUsed : string;
  AttributeKeyEthereumTxFailed : string;
  ModuleName : string;
  UndefinedCodespace : string;
  LogsBloom : list (option EthLog) → bytes;
  DecodeMsgLogs : bytes → Z → Z → res string (list (option EthLog));
  evm_EffectiveGasPrice : Z → Z → Z → Z;
  TxDecoder : bytes → res string sdk_Tx;
  Tx_Hash : bytes → bytes;
  merkle_HashFromByteSlices : list bytes → bytes;
  LegacyNewDecFromStr_RoundInt : string → option Z;
}.

Class ChainLibLaws `{ChainLib} : Prop := {
  attribute_keys_distinct :
    NoDup [AttributeKeyEthereumTxHash; AttributeKeyTxIndex;
           AttributeKeyTxGasUsed; AttributeKeyEthereumTxFailed];
  Tx_Hash_wf tx : is_hash (Tx_Hash tx);
  LogsBloom_wf l : length (LogsBloom l) = BloomByteLength ∧ wf_bytes (LogsBloom l);
  merkle_wf l : is_hash (merkle_HashFromByteSlices l);
}.
End EthTypes.
