(* ===== verification/EthInstances.v ===== *)
(** * Concrete go-ethereum and chain functions

    Functions that satisfy the laws of EthTypes.v, used to instantiate the
    theorems on concrete blocks: hexadecimal text, left-padded hashes and
    addresses, and a stand-in digest. *)

From Stdlib Require Import Ascii String.
From S2P Require Import Prelude Bytes GoLib EthTypes.
From stdpp Require Import strings list.
#[local] Open Scope Z_scope.

Module EthInstances.
Import GoLib EthTypes.

(** ** Fixed-length values: keep the last [n] bytes, pad on the left *)

Definition fit (n : nat) (b : bytes) : bytes :=
  replicate (n - length b) 0 ++ drop (length b - n) b.

Lemma fit_length n b : length (fit n b) = n.
Proof. unfold fit. rewrite length_app, length_replicate, length_drop. lia. Qed.

Lemma fit_wf n b : wf_bytes b → wf_bytes (fit n b).
Proof.
  intros Hb. unfold fit, wf_bytes. apply Forall_app. split.
  - apply Forall_replicate. unfold is_byte. lia.
  - by apply Forall_drop.
Qed.

Lemma fit_id n b : length b = n → fit n b = b.
Proof.
  intros <-. unfold fit. by rewrite Nat.sub_diag.
Qed.

(** ** Hexadecimal text *)

Definition hex_digit (n : Z) : ascii :=
  ascii_of_byte (if bool_decide (n < 10) then 48 + n else 87 + n).

Definition hex_value (c : ascii) : option Z :=
  let b := byte_of_ascii c in
  if bool_decide (48 ≤ b ≤ 57) then Some (b - 48)
  else if bool_decide (97 ≤ b ≤ 102) then Some (b - 87)
  else if bool_decide (65 ≤ b ≤ 70) then Some (b - 55)
  else None.

Definition hex_of_byte (b : Z) : list ascii := [hex_digit (b / 16); hex_digit (b mod 16)].

Fixpoint hex_decode (l : list ascii) : option bytes :=
  match l with
  | [] => Some []
  | c :: d :: l =>
      match hex_value c, hex_value d, hex_decode l with
      | Some h, Some w, Some r => Some (h * 16 + w :: r)
      | _, _, _ => None
      end
  | _ => None
  end.

Definition hex_encode (b : bytes) : string :=
  String "0" (String "x" (string_of_list_ascii (b ≫= hex_of_byte))).

Definition hex_decode_string (s : string) : res string bytes :=
  match s with
  | String c0 (String c1 s') =>
      if bool_decide (c0 = "0"%char ∧ (c1 = "x"%char ∨ c1 = "X"%char)) then
        match hex_decode (list_ascii_of_string s') with
        | Some b => Ok b
        | None => Err "invalid hex string"%string
        end
      else Err "hex string without 0x prefix"%string
  | _ => Err "empty hex string"%string
  end.

Definition hex_or_empty (s : string) : bytes :=
  match hex_decode_string s with Ok b => b | _ => [] end.

Lemma hex_digit_value n : 0 ≤ n < 16 → hex_value (hex_digit n) = Some n.
Proof.
  intros Hn. assert (n ∈ seqZ 0 16) as Hin by (apply elem_of_seqZ; lia).
  clear Hn. revert n Hin. apply Forall_forall, (bool_decide_unpack _). by vm_compute.
Qed.

Lemma hex_decode_encode b : wf_bytes b → hex_decode (b ≫= hex_of_byte) = Some b.
Proof.
  induction 1 as [|x b Hx _ IH]; [done|].
  change (hex_decode (hex_digit (x / 16) :: hex_digit (x mod 16) :: (b ≫= hex_of_byte)) = Some (x :: b)).
  unfold is_byte in Hx. cbn [hex_decode].
  assert (0 ≤ x / 16 < 16) by (split; [apply Z.div_pos; lia|apply Z.div_lt_upper_bound; lia]).
  pose proof (Z.mod_pos_bound x 16 ltac:(lia)).
  rewrite !hex_digit_value, IH by done. do 2 f_equal.
  pose proof (Z.div_mod x 16 ltac:(lia)). lia.
Qed.

Lemma hex_roundtrip b : wf_bytes b → hex_decode_string (hex_encode b) = Ok b.
Proof.
  intros Hb. unfold hex_encode, hex_decode_string. rewrite bool_decide_true by auto.
  by rewrite list_ascii_of_string_of_list_ascii, hex_decode_encode.
Qed.

Lemma hex_value_range c h : hex_value c = Some h → 0 ≤ h < 16.
Proof. unfold hex_value. repeat case_bool_decide; intros [= <-]; lia. Qed.

Lemma hex_decode_wf l : ∀ b, hex_decode l = Some b → wf_bytes b.
Proof.
  induction l as [l IH] using (induction_ltof1 _ (@length ascii)). unfold ltof in IH.
  destruct l as [|c [|d l]]; simpl; [by intros b [= <-]; constructor|done|].
  intros b. destruct (hex_value c) as [h|] eqn:Ec; [|done].
  destruct (hex_value d) as [w|] eqn:Ed; [|done].
  destruct (hex_decode l) as [r|] eqn:Er; [|done]. intros [= <-].
  apply hex_value_range in Ec, Ed. constructor; [unfold is_byte; lia|].
  eapply IH; [|exact Er]. simpl. lia.
Qed.

Lemma hex_or_empty_wf s : wf_bytes (hex_or_empty s).
Proof.
  unfold hex_or_empty, hex_decode_string.
  destruct s as [|c0 [|c1 s]]; [constructor..|]. case_bool_decide; [|constructor].
  destruct (hex_decode _) eqn:E; [by eapply hex_decode_wf|constructor].
Qed.

Lemma hex_or_empty_encode b : wf_bytes b → hex_or_empty (hex_encode b) = b.
Proof. intros Hb. unfold hex_or_empty. by rewrite hex_roundtrip. Qed.

(** ** go-ethereum *)

(** A digest that depends on every byte; enough to compute with. *)
Definition stand_in_digest (b : bytes) : bytes :=
  be_bytes 32 (foldl (λ acc x, (acc * 1000003 + x + 1) mod 2 ^ 256) (Z.of_nat (length b)) b).

#[export] Instance model_EthLib : EthLib := {
  BytesToHash := fit 32;
  BytesToAddress := fit 20;
  HexToHash s := fit 32 (hex_or_empty s);
  HexToAddress s := fit 20 (hex_or_empty s);
  Hash_Hex := hex_encode;
  Address_Hex := hex_encode;
  IsHexAddress s := bool_decide (length (hex_or_empty s) = 20%nat);
  FromHex := hex_or_empty;
  hexutil_Encode := hex_encode;
  hexutil_Decode := hex_decode_string;
  hexutil_EncodeBig z := hex_encode (big_Bytes z);
  hexutil_DecodeBig s := res_bind (hex_decode_string s) (λ b, Ok (big_SetBytes b));
  BigToHash z := be_bytes 32 z;
  Keccak256Hash l := stand_in_digest (mjoin l);
  CreateAddress a n := be_bytes 20 (be_value a + n);
  BytesToBloom := fit 256;
  EmptyRootHash := be_bytes 32 86;
  EmptyUncleHash := be_bytes 32 29;
}.

#[export] Instance model_EthLibLaws : EthLibLaws.
Proof.
  split; simpl.
  - intros b Hb. split; [apply fit_length|by apply fit_wf].
  - intros h [Hl _]. by apply fit_id.
  - intros b Hb. split; [apply fit_length|by apply fit_wf].
  - intros h [Hl _]. by apply fit_id.
  - intros h [Hl Hw]. rewrite hex_or_empty_encode by done. by apply fit_id.
  - intros s. split; [apply fit_length|apply fit_wf, hex_or_empty_wf].
  - intros h [Hl Hw]. rewrite hex_or_empty_encode by done. by apply fit_id.
  - intros s. split; [apply fit_length|apply fit_wf, hex_or_empty_wf].
  - intros b Hb. by apply hex_roundtrip.
  - intros b Hb. by apply hex_or_empty_encode.
  - intros z Hz.
    change (res_bind (hex_decode_string (hex_encode (big_Bytes z))) (λ b, Ok (big_SetBytes b)) = Ok z).
    rewrite hex_roundtrip by apply big_Bytes_wf. simpl.
    rewrite big_Bytes_roundtrip. f_equal. lia.
  - done.
  - intros l. split; [apply be_bytes_length|apply be_bytes_wf].
  - intros l l' E. by rewrite E.
  - apply (bool_decide_unpack _). by vm_compute.
Qed.

(** ** A codec: the number of a value, as one element *)

Definition countable_marshal {A} `{Countable A} (a : A) : bytes := [Z.pos (encode a)].
Definition countable_unmarshal {A} `{Countable A} (b : bytes) : res string A :=
  match b with
  | [Z.pos n] => match decode n with
                 | Some a => Ok a
                 | None => Err "invalid encoding"%string
                 end
  | _ => Err "invalid encoding"%string
  end.

Lemma countable_roundtrip {A} `{Countable A} (a : A) :
  countable_unmarshal (countable_marshal a) = Ok a.
Proof. unfold countable_unmarshal, countable_marshal. by rewrite decode_encode. Qed.

(** ** Blooms: one slot of 256 for each address and topic *)

Definition bloom_slot (x : bytes) : nat := Z.to_nat (foldr Z.add 0 x `mod` 256).

Definition log_slots (logs : list (option EthLog)) : list nat :=
  logs ≫= λ log, match log with Some l => bloom_slot <$> log_Address l :: log_Topics l | None => [] end.

Definition model_bloom (logs : list (option EthLog)) : bytes :=
  (λ k, if bool_decide (k ∈ log_slots logs) then 1 else 0) <$> seq 0 256.

Definition model_BloomLookup (bloom x : bytes) : bool := bool_decide (bloom !! bloom_slot x = Some 1).

Lemma model_bloom_wf logs : length (model_bloom logs) = 256%nat ∧ wf_bytes (model_bloom logs).
Proof.
  unfold model_bloom. split; [by rewrite length_fmap, length_seq|]. apply Forall_fmap, Forall_true.
  intros k. cbn. unfold is_byte. case_bool_decide; lia.
Qed.

Lemma bloom_slot_lt x : (bloom_slot x < 256)%nat.
Proof. unfold bloom_slot. pose proof (Z.mod_pos_bound (foldr Z.add 0 x) 256). lia. Qed.

Lemma model_bloom_found logs log x :
  Some log ∈ logs → x ∈ log_Address log :: log_Topics log → model_BloomLookup (model_bloom logs) x = true.
Proof.
  intros Hl Hx. apply bool_decide_eq_true_2. unfold model_bloom. pose proof (bloom_slot_lt x).
  rewrite list_lookup_fmap, lookup_seq_lt by lia. cbn. rewrite bool_decide_eq_true_2; [done|].
  apply list_elem_of_bind. exists (Some log). split; [|done]. by apply list_elem_of_fmap_2.
Qed.

(** ** The chain: the transaction decoder and the log decoder are given *)

Definition model_ChainLib (decoder : bytes → res string sdk_Tx)
    (logs : bytes → Z → Z → res string (list (option EthLog))) : ChainLib := {|
  EventTypeEthereumTx := "ethereum_tx";
  AttributeKeyEthereumTxHash := "ethereumTxHash";
  AttributeKeyTxIndex := "txIndex";
  AttributeKeyTxGasUsed := "txGasUsed";
  AttributeKeyEthereumTxFailed := "ethereumTxFailed";
  ModuleName := "evm";
  UndefinedCodespace := "undefined";
  LogsBloom := model_bloom;
  DecodeMsgLogs := logs;
  evm_EffectiveGasPrice base cap tip := Z.min (tip + base) cap;
  TxDecoder := decoder;
  Tx_Hash := stand_in_digest;
  merkle_HashFromByteSlices l := stand_in_digest (mjoin l);
  LegacyNewDecFromStr_RoundInt := parse_digits;
|}.

Lemma model_ChainLibLaws decoder logs : @ChainLibLaws (model_ChainLib decoder logs).
Proof.
  split; simpl.
  - apply (bool_decide_unpack _). by vm_compute.
  - intros tx. split; [apply be_bytes_length|apply be_bytes_wf].
  - apply model_bloom_wf.
  - intros tx. split; [apply be_bytes_length|apply be_bytes_wf].
Qed.

(** A chain without transactions or logs. *)
#[export] Instance empty_ChainLib : ChainLib := model_ChainLib (λ _, Err "no tx"%string) (λ _ _ _, Ok []).
#[export] Instance empty_ChainLibLaws : ChainLibLaws := model_ChainLibLaws _ _.
End EthInstances.
