(* ===== verification/Keys.v ===== *)
(** * Keys of the indexer store

    The key functions of src/internal/indexer/kv_indexer.go,
    cache_collections.go and trace_cache.go: one prefix byte per collection
    followed by a 32-byte hash, a big-endian height, or a height and an index.
    [record_key] names the collections; [encode] is the key function of each. *)

From S2P Require Import Prelude Bytes Instances.

Module Keys.

(** ** Prefixes and lengths *)

Definition KeyPrefixTxHash : Z := 1.
Definition KeyPrefixTxIndex : Z := 2.
Definition KeyPrefixRPCtxHash : Z := 3.
Definition KeyPrefixRPCtxIndex : Z := 4.
Definition KeyPrefixReceipt : Z := 5.
Definition KeyPrefixBlockLogs : Z := 6.
Definition KeyPrefixBlockMeta : Z := 7.
Definition KeyPrefixBlockHash : Z := 8.
Definition KeyPrefixTraceTx : Z := 9.
Definition KeyPrefixTraceBlock : Z := 10.
Definition KeyPrefixVirtualRPCtx : Z := 11.

Definition TxIndexKeyLength : nat := 17.
Definition heightKeyLength : nat := 9.

(** The configuration digest that ends a trace key: sonic.Marshal of the
    configuration, then SHA-256. *)
Class TraceKey (Config : Type) := {
  sonic_marshal_config : option Config → res string bytes;
  sha256 : bytes → bytes;
  marshal_error_text : option Config → bytes; (* fmt.Sprintf "marshal-error:%T" *)
}.

Class TraceKeyLaws (Config : Type) `{TraceKey Config} : Prop := {
  sha256_length b : length (sha256 b) = 32%nat;
  sha256_wf b : wf_bytes (sha256 b);
}.

Section keys.
Context `{SDK}.

(** ** Key functions *)

Definition TxHashKey (hash : bytes) : bytes := [KeyPrefixTxHash] ++ hash.

Definition TxIndexKey (blockNumber txIndex : Z) : bytes :=
  ([KeyPrefixTxIndex] ++ Uint64ToBigEndian (uint64 blockNumber)) ++
  Uint64ToBigEndian (uint64 txIndex).

Definition RPCtxHashKey (hash : bytes) : bytes := [KeyPrefixRPCtxHash] ++ hash.

Definition RPCtxIndexKey (blockNumber txIndex : Z) : bytes :=
  ([KeyPrefixRPCtxIndex] ++ Uint64ToBigEndian (uint64 blockNumber)) ++
  Uint64ToBigEndian (uint64 txIndex).

Definition ReceiptKey (hash : bytes) : bytes := [KeyPrefixReceipt] ++ hash.
Definition VirtualRPCtxKey (hash : bytes) : bytes := [KeyPrefixVirtualRPCtx] ++ hash.

Definition BlockLogsKey (height : Z) : bytes :=
  [KeyPrefixBlockLogs] ++ Uint64ToBigEndian (uint64 height).
Definition BlockMetaKey (height : Z) : bytes :=
  [KeyPrefixBlockMeta] ++ Uint64ToBigEndian (uint64 height).
Definition BlockHashKey (hash : bytes) : bytes := [KeyPrefixBlockHash] ++ hash.

Definition traceConfigKey {Config} `{TraceKey Config} (config : option Config) : bytes :=
  match sonic_marshal_config config with
  | Ok bz => sha256 bz
  | _ => sha256 (marshal_error_text config)
  end.

Definition traceTxPrefixStart (hash : bytes) : bytes := [KeyPrefixTraceTx] ++ hash.
Definition traceBlockPrefixStart (height : Z) : bytes :=
  [KeyPrefixTraceBlock] ++ Uint64ToBigEndian (uint64 height).

Definition TraceTxKey {Config} `{TraceKey Config} (hash : bytes) (config : option Config) : bytes :=
  ([KeyPrefixTraceTx] ++ hash) ++ traceConfigKey config.
Definition TraceBlockKey {Config} `{TraceKey Config} (height : Z) (config : option Config) : bytes :=
  ([KeyPrefixTraceBlock] ++ Uint64ToBigEndian (uint64 height)) ++ traceConfigKey config.

(** ** Iteration bounds *)

Definition txIndexPrefixStart (height : Z) : bytes :=
  [KeyPrefixTxIndex] ++ Uint64ToBigEndian (uint64 height).
Definition txIndexPrefixEnd (height : Z) : bytes :=
  [KeyPrefixTxIndex] ++ Uint64ToBigEndian (uint64 (int64 (height + 1))).
Definition rpcTxIndexPrefixStart (height : Z) : bytes :=
  [KeyPrefixRPCtxIndex] ++ Uint64ToBigEndian (uint64 height).
Definition rpcTxIndexPrefixEnd (height : Z) : bytes :=
  [KeyPrefixRPCtxIndex] ++ Uint64ToBigEndian (uint64 (int64 (height + 1))).

(** The loop runs from the last byte: bytes 0xff are dropped, the first
    other byte is incremented; a prefix of 0xff bytes has no end. *)
Fixpoint prefix_end_rev (r : bytes) : option bytes :=
  match r with
  | [] => None
  | b :: r => if bool_decide (b = 255) then prefix_end_rev r else Some (reverse (b + 1 :: r))
  end.
Definition prefixRangeEnd (prefix : bytes) : option bytes := prefix_end_rev (reverse prefix).

(** ** Parsing *)

Definition parseBlockNumberFromKey (key : bytes) : res string Z :=
  if bool_decide (length key = TxIndexKeyLength) then
    Ok (int64 (BigEndianToUint64 (take 8 (drop 1 key))))
  else Err "wrong tx index key length"%string.

Definition parseHeightFromHeightKey (key : bytes) (prefix : Z) : res string Z :=
  if bool_decide (length key = heightKeyLength) then
    if bool_decide (key !! 0%nat = Some prefix) then
      Ok (int64 (BigEndianToUint64 (drop 1 key)))
    else Err "unexpected key prefix"%string
  else Err "wrong height key length"%string.
End keys.

(** ** The collections *)

Inductive record_key :=
| KTxHash (hash : bytes)
| KTxIndex (height index : Z)
| KRPCtxHash (hash : bytes)
| KRPCtxIndex (height index : Z)
| KReceipt (hash : bytes)
| KBlockLogs (height : Z)
| KBlockMeta (height : Z)
| KBlockHash (hash : bytes)
| KTraceTx (hash digest : bytes)
| KTraceBlock (height : Z) (digest : bytes)
| KVirtualRPCtx (hash : bytes).

#[global] Instance record_key_eq_dec : EqDecision record_key.
Proof. solve_decision. Defined.

Definition is_hash (h : bytes) : Prop := length h = 32%nat ∧ wf_bytes h.

#[global] Instance is_hash_dec h : Decision (is_hash h).
Proof. unfold is_hash. apply _. Defined.

Definition wf_key (k : record_key) : Prop :=
  match k with
  | KTxHash h | KRPCtxHash h | KReceipt h | KBlockHash h | KVirtualRPCtx h => is_hash h
  | KTxIndex n i | KRPCtxIndex n i => is_int64 n ∧ is_int32 i
  | KBlockLogs n | KBlockMeta n => is_int64 n
  | KTraceTx h d => is_hash h ∧ is_hash d
  | KTraceBlock n d => is_int64 n ∧ is_hash d
  end.

Section encode.
Context `{SDKLaws}.

Definition encode (k : record_key) : bytes :=
  match k with
  | KTxHash h => TxHashKey h
  | KTxIndex n i => TxIndexKey n i
  | KRPCtxHash h => RPCtxHashKey h
  | KRPCtxIndex n i => RPCtxIndexKey n i
  | KReceipt h => ReceiptKey h
  | KBlockLogs n => BlockLogsKey n
  | KBlockMeta n => BlockMetaKey n
  | KBlockHash h => BlockHashKey h
  | KTraceTx h d => traceTxPrefixStart h ++ d
  | KTraceBlock n d => traceBlockPrefixStart n ++ d
  | KVirtualRPCtx h => VirtualRPCtxKey h
  end.

Lemma be_height_inj m n :
  is_int64 m → is_int64 n →
  Uint64ToBigEndian (uint64 m) = Uint64ToBigEndian (uint64 n) → m = n.
Proof.
  intros Hm Hn E. apply be_inj in E; [|apply uint64_range..].
  rewrite <- (int64_uint64 m), <- (int64_uint64 n) by done. by rewrite E.
Qed.

Lemma is_int32_int64 z : is_int32 z → is_int64 z.
Proof. gate_ints. lia. Qed.

Lemma be_app_inj m n x y :
  is_int64 m → is_int64 n →
  Uint64ToBigEndian (uint64 m) ++ x = Uint64ToBigEndian (uint64 n) ++ y → m = n ∧ x = y.
Proof.
  intros Hm Hn E. apply app_inj_1 in E as [E ->]; [|by rewrite !be_length].
  split; [by apply be_height_inj|done].
Qed.

Lemma encode_inj k1 k2 : wf_key k1 → wf_key k2 → encode k1 = encode k2 → k1 = k2.
Proof.
  intros W1 W2 E.
  destruct k1, k2; simpl in W1, W2, E; try discriminate E;
    injection E; intros E'; unfold is_hash in *; destruct_and?; rewrite <- ?app_assoc in *;
    (* one hash, one height, height and rest, hash and rest *)
    first
      [ by f_equal
      | f_equal; by apply be_height_inj
      | apply be_app_inj in E' as [-> E']; [|done..];
        first [ by f_equal | f_equal; apply be_height_inj; [..|done]; by apply is_int32_int64 ]
      | apply app_inj_1 in E' as [-> ->]; [done|congruence] ].
Qed.

Lemma encode_wf k : wf_key k → wf_bytes (encode k).
Proof.
  destruct k; simpl; unfold is_hash; intros Hw; destruct_and?;
    repeat (apply Forall_cons; split; [unfold is_byte, KeyPrefixTxHash, KeyPrefixTxIndex,
      KeyPrefixRPCtxHash, KeyPrefixRPCtxIndex, KeyPrefixReceipt, KeyPrefixBlockLogs,
      KeyPrefixBlockMeta, KeyPrefixBlockHash, KeyPrefixTraceTx, KeyPrefixTraceBlock,
      KeyPrefixVirtualRPCtx; lia|]);
    rewrite ?app_nil_l; repeat (apply Forall_app; split); try done; apply be_wf.
Qed.

Lemma encode_length k : wf_key k → (9 ≤ length (encode k))%nat.
Proof.
  destruct k; simpl; unfold is_hash; intros Hw; destruct_and?;
    rewrite ?length_app, ?be_length; simpl; rewrite ?length_app, ?be_length; lia.
Qed.
End encode.

(** ** Prefix ranges *)

Lemma prefix_of_between p x y k :
  bytes_le (p ++ x) k → bytes_lt k (p ++ y) → p `prefix_of` k.
Proof.
  revert k. induction p as [|b p IH]; intros k H1 H2; [apply prefix_nil|].
  destruct k as [|c k].
  - exfalso. apply bytes_le_lt in H1. by apply H1, bytes_lt_nil_l.
  - simpl in *. rewrite bytes_lt_cons in H2. rewrite bytes_le_lt, bytes_lt_cons in H1.
    destruct H2 as [?|[-> H2]]; [exfalso; apply H1; by left|].
    apply prefix_cons, IH; [|done]. apply bytes_le_lt. intros ?. apply H1. by right.
Qed.

Lemma bytes_le_app_l p x y : bytes_le (p ++ x) (p ++ y) ↔ bytes_le x y.
Proof. by rewrite !bytes_le_lt, bytes_lt_app_l. Qed.

Lemma bytes_le_prefix p k : p `prefix_of` k → bytes_le p k.
Proof.
  intros [x ->]. rewrite <- (app_nil_r p) at 1. apply bytes_le_app_l, bytes_le_lt, bytes_lt_nil_r.
Qed.

Lemma bytes_le_single b k :
  wf_bytes k → bytes_le [b] k ↔ ∃ c k', k = c :: k' ∧ b ≤ c.
Proof.
  intros Hk. rewrite bytes_le_lt. destruct k as [|c k].
  - split; [|by intros (? & ? & ? & _)]. intros Hn. exfalso. apply Hn. by apply bytes_lt_nil_l.
  - rewrite bytes_lt_cons. split.
    + intros Hn. eexists _, _. split; [done|]. destruct (Z.le_gt_cases b c); [done|]. exfalso. apply Hn. by left.
    + intros (? & ? & [= -> ->] & ?) [?|[_ ?%bytes_lt_nil_r]]; [lia|done].
Qed.

Lemma prefixRangeEnd_spec p k :
  wf_bytes p → wf_bytes k → in_range p (prefixRangeEnd p) k ↔ p `prefix_of` k.
Proof.
  unfold prefixRangeEnd. induction p as [|b p IH] using rev_ind; intros Hp Hk.
  - rewrite reverse_nil. unfold in_range; simpl. split; [intros _; apply prefix_nil|].
    intros _. split; [|done]. apply bytes_le_lt, bytes_lt_nil_r.
  - rewrite reverse_app. simpl. apply Forall_app in Hp as [Hp Hb]. apply Forall_cons in Hb as [Hb _].
    specialize (IH Hp Hk). unfold is_byte in Hb. case_bool_decide as E.
    + subst b. unfold in_range in *. split.
      * intros [H1 H2]. destruct (proj1 IH) as [x ->].
        { split; [|done]. etrans; [|exact H1]. apply bytes_le_prefix. by exists [255]. }
        apply bytes_le_app_l in H1. apply Forall_app in Hk as [_ Hx].
        apply bytes_le_single in H1 as (c & x' & -> & ?); [|done].
        apply Forall_cons in Hx as [Hc _]. unfold is_byte in Hc.
        replace c with 255 by lia. exists x'. by rewrite <- app_assoc.
      * intros [x ->]. rewrite <- app_assoc in *. split.
        -- apply bytes_le_app_l, (bytes_le_prefix [255]). by exists x.
        -- apply IH. by exists ([255] ++ x).
    + rewrite reverse_cons, reverse_involutive. unfold in_range. split.
      * intros [H1 H2]. destruct (prefix_of_between _ _ _ _ H1 H2) as [x ->].
        apply bytes_le_app_l in H1. apply bytes_lt_app_l in H2.
        apply Forall_app in Hk as [_ Hx].
        apply bytes_le_single in H1 as (c & x' & -> & ?); [|done].
        apply bytes_lt_cons in H2 as [?|[_ ?%bytes_lt_nil_r]]; [|done].
        replace c with b by lia. exists x'. by rewrite <- app_assoc.
      * intros [x ->]. rewrite <- app_assoc. split.
        -- apply bytes_le_app_l, (bytes_le_prefix [b]). by exists x.
        -- apply bytes_lt_app_l, bytes_lt_cons. left. lia.
Qed.

(** Ranges between two consecutive fixed-width prefixes. *)
Lemma consecutive_range p q k :
  length p = length q → wf_bytes p → wf_bytes q → wf_bytes k →
  (length p ≤ length k)%nat → be_value q = be_value p + 1 →
  in_range p (Some q) k ↔ p `prefix_of` k.
Proof.
  intros Hl Hp Hq Hk Hlen Hv. unfold in_range.
  set (k1 := take (length p) k). set (k2 := drop (length p) k).
  assert (k = k1 ++ k2) as Ek by (symmetry; apply take_drop).
  assert (length k1 = length p) as Hk1 by (unfold k1; rewrite length_take; lia).
  assert (wf_bytes k1) as Wk1 by (by apply Forall_take).
  split.
  - intros [H1 H2]. exists k2. rewrite Ek. f_equal.
    apply be_value_inj; [done..|]. apply Z.le_antisymm.
    + rewrite Ek, <- (app_nil_r q) in H2.
      apply bytes_lt_app_same_length in H2 as [H2|[_ H2%bytes_lt_nil_r]]; [|done|congruence].
      apply be_value_lt in H2; [lia|congruence|done..].
    + apply Z.nlt_ge. intros Hlt. apply bytes_le_lt in H1. apply H1.
      rewrite Ek, <- (app_nil_r p). apply bytes_lt_app_same_length; [done|]. left.
      by apply be_value_lt.
  - intros Hpre. split; [by apply bytes_le_prefix|]. destruct Hpre as [x ->].
    rewrite <- (app_nil_r q). apply bytes_lt_app_same_length; [done|]. left.
    apply be_value_lt; [done..|lia].
Qed.
Section ranges.
Context `{SDKLaws}.

Lemma height_prefix_value p h :
  is_uint64 h → be_value ([p] ++ Uint64ToBigEndian h) = p * 2 ^ 64 + h.
Proof.
  intros Hh. rewrite <- (be_encodes h Hh) at 2.
  pose proof (be_length h) as Hl. revert Hl. generalize (Uint64ToBigEndian h) as l. intros l Hl.
  do 8 (destruct l as [|? l]; [discriminate|]). destruct l; [|discriminate].
  unfold be_value. simpl. lia.
Qed.

(** The bounds [prefix ++ height] and [prefix ++ (height+1)] select the keys
    of one height. *)
Lemma height_range p h k :
  is_byte p → 0 ≤ h < 2 ^ 63 → wf_bytes k → (9 ≤ length k)%nat →
  in_range ([p] ++ Uint64ToBigEndian (uint64 h))
    (Some ([p] ++ Uint64ToBigEndian (uint64 (int64 (h + 1))))) k ↔
  ([p] ++ Uint64ToBigEndian (uint64 h)) `prefix_of` k.
Proof.
  intros Hp Hh Hk Hl.
  assert (uint64 (int64 (h + 1)) = h + 1) as E1.
  { destruct (decide (h + 1 < 2 ^ 63)).
    - rewrite int64_small, uint64_small; gate_ints; lia.
    - replace h with (2 ^ 63 - 1) by lia. done. }
  rewrite E1, (uint64_small h) by (gate_ints; lia).
  apply consecutive_range; try done.
  - rewrite !length_app, !be_length. done.
  - apply Forall_app. split; [by apply Forall_singleton|apply be_wf].
  - apply Forall_app. split; [by apply Forall_singleton|apply be_wf].
  - rewrite length_app, be_length. done.
  - rewrite !height_prefix_value by (gate_ints; lia). lia.
Qed.

Lemma BlockMetaKey_lt m n :
  0 ≤ m < 2 ^ 63 → 0 ≤ n < 2 ^ 63 → bytes_lt (BlockMetaKey m) (BlockMetaKey n) ↔ m < n.
Proof.
  intros Hm Hn. unfold BlockMetaKey. rewrite bytes_lt_app_l, !uint64_small by (gate_ints; lia).
  apply be_lt; gate_ints; lia.
Qed.

Lemma parse_BlockMetaKey n :
  is_int64 n → parseHeightFromHeightKey (BlockMetaKey n) KeyPrefixBlockMeta = Ok n.
Proof.
  intros Hn. unfold parseHeightFromHeightKey, BlockMetaKey, heightKeyLength. simpl.
  rewrite be_length. simpl.
  by rewrite drop_0, be_roundtrip, int64_uint64 by auto using uint64_range.
Qed.

Lemma parse_TxIndexKey n i :
  is_int64 n → parseBlockNumberFromKey (TxIndexKey n i) = Ok n.
Proof.
  intros Hn. unfold parseBlockNumberFromKey, TxIndexKey, TxIndexKeyLength.
  rewrite !length_app, !be_length. simpl. rewrite drop_0.
  rewrite (take_app_le _ _ 8), take_ge by (rewrite be_length; done).
  by rewrite be_roundtrip, int64_uint64 by auto using uint64_range.
Qed.
Lemma index_ranges h k :
  0 ≤ h < 2 ^ 63 → wf_key k →
  (in_range (txIndexPrefixStart h) (Some (txIndexPrefixEnd h)) (encode k) ↔
     ∃ i, k = KTxIndex h i) ∧
  (in_range (rpcTxIndexPrefixStart h) (Some (rpcTxIndexPrefixEnd h)) (encode k) ↔
     ∃ i, k = KRPCtxIndex h i).
Proof.
  intros Hh Hk. pose proof (encode_wf k Hk) as W. pose proof (encode_length k Hk) as L.
  unfold txIndexPrefixStart, txIndexPrefixEnd, rpcTxIndexPrefixStart, rpcTxIndexPrefixEnd.
  rewrite !height_range by (done || (unfold is_byte; vm_compute; intuition congruence)).
  split; split.
  - intros [x E]. destruct k; simpl in E; try discriminate E. injection E; intros E'.
    simpl in Hk. apply be_app_inj in E' as [-> _]; [by eauto|apply Hk|gate_ints; lia].
  - intros [i ->]. simpl. unfold TxIndexKey. by eexists.
  - intros [x E]. destruct k; simpl in E; try discriminate E. injection E; intros E'.
    simpl in Hk. apply be_app_inj in E' as [-> _]; [by eauto|apply Hk|gate_ints; lia].
  - intros [i ->]. simpl. unfold RPCtxIndexKey. by eexists.
Qed.

(** The trace ranges of a transaction and of a block. *)
Lemma trace_tx_range x k :
  is_hash x → wf_key k →
  in_range (traceTxPrefixStart x) (prefixRangeEnd (traceTxPrefixStart x)) (encode k) ↔ ∃ d, k = KTraceTx x d.
Proof.
  intros [Hl Hx] Hk. rewrite prefixRangeEnd_spec; [|by apply Forall_cons; split; [unfold is_byte; vm_compute; intuition congruence|]|by apply encode_wf].
  split.
  - intros [y E]. destruct k; simpl in E; try discriminate E. injection E; intros E'.
    simpl in Hk. apply app_inj_1 in E' as [-> _]; [by eauto|]. destruct Hk as [[? _] _]. congruence.
  - intros [d ->]. simpl. by eexists.
Qed.

Lemma trace_block_range h k :
  is_int64 h → wf_key k →
  in_range (traceBlockPrefixStart h) (prefixRangeEnd (traceBlockPrefixStart h)) (encode k) ↔
    ∃ d, k = KTraceBlock h d.
Proof.
  intros Hh Hk. rewrite prefixRangeEnd_spec; [|by apply Forall_cons; split; [unfold is_byte; vm_compute; intuition congruence|apply be_wf]|by apply encode_wf].
  split.
  - intros [y E]. destruct k; simpl in E; try discriminate E. injection E; intros E'.
    simpl in Hk. apply be_app_inj in E' as [-> _]; [by eauto|apply Hk|done].
  - intros [d ->]. simpl. by eexists.
Qed.
End ranges.

(** ** Properties *)

(** No two records share a key: the key functions of the eleven collections
    are injective and their images are disjoint, for every 32-byte hash, every
    int64 height and every int32 index. *)
Theorem encode_injective `{SDKLaws} k1 k2 :
  wf_key k1 → wf_key k2 → encode k1 = encode k2 → k1 = k2.
Proof. apply encode_inj. Qed.

Lemma encode_injective_witness :
  wf_key (KTxIndex (-1) 3) ∧
  (encode (KTxIndex (-1) 3) = encode (KTxIndex (-1) 3) → KTxIndex (-1) 3 = KTxIndex (-1) 3).
Proof.
  split; [vm_compute; intuition congruence|].
  apply (encode_injective (KTxIndex (-1) 3) (KTxIndex (-1) 3)); vm_compute; intuition congruence.
Defined.

(** The range from a prefix to prefixRangeEnd of it selects exactly the
    keys that extend the prefix, including the open-ended range returned when
    every byte of the prefix is 0xff. *)
Theorem prefixRangeEnd_exact prefix key :
  wf_bytes prefix → wf_bytes key →
  in_range prefix (prefixRangeEnd prefix) key ↔ prefix `prefix_of` key.
Proof. apply prefixRangeEnd_spec. Qed.

Lemma prefixRangeEnd_exact_witness :
  in_range [9; 255; 255] (prefixRangeEnd [9; 255; 255]) [9; 255; 255; 7] ∧
  prefixRangeEnd [9; 255; 255] = Some [10] ∧ prefixRangeEnd [255; 255] = None.
Proof.
  split; [|by vm_compute].
  apply (prefixRangeEnd_exact [9; 255; 255] [9; 255; 255; 7]);
    [unfold wf_bytes, is_byte; repeat (constructor; [lia|]); constructor ..|by exists [7]].
Defined.

(** The iteration bounds of one block select the index entries of that
    block only: among all record keys, [txIndexPrefixStart h, txIndexPrefixEnd h)
    holds the tx-index keys of height [h] and nothing else, and likewise for the
    rpc-tx index. *)
Theorem index_ranges_select_height `{SDKLaws} h k :
  0 ≤ h < 2 ^ 63 → wf_key k →
  (in_range (txIndexPrefixStart h) (Some (txIndexPrefixEnd h)) (encode k) ↔
     ∃ i, k = KTxIndex h i) ∧
  (in_range (rpcTxIndexPrefixStart h) (Some (rpcTxIndexPrefixEnd h)) (encode k) ↔
     ∃ i, k = KRPCtxIndex h i).
Proof. apply index_ranges. Qed.

Lemma index_ranges_select_height_witness :
  in_range (txIndexPrefixStart 255) (Some (txIndexPrefixEnd 255)) (encode (KTxIndex 255 2)) ↔
    ∃ i, KTxIndex 255 2 = KTxIndex 255 i.
Proof.
  refine (proj1 (index_ranges_select_height 255 (KTxIndex 255 2) _ _)).
  - lia.
  - vm_compute; intuition congruence.
Defined.

(** Heights survive the key encoding: parsing a block-meta or tx-index key
    returns its height, and block-meta keys are ordered as their heights, so a
    key-order iteration visits blocks in height order. *)
Theorem height_keys_roundtrip `{SDKLaws} m n i :
  0 ≤ m < 2 ^ 63 → 0 ≤ n < 2 ^ 63 →
  parseHeightFromHeightKey (BlockMetaKey m) KeyPrefixBlockMeta = Ok m ∧
  parseBlockNumberFromKey (TxIndexKey m i) = Ok m ∧
  (bytes_lt (BlockMetaKey m) (BlockMetaKey n) ↔ m < n).
Proof.
  intros Hm Hn. split; [apply parse_BlockMetaKey; gate_ints; lia|].
  split; [apply parse_TxIndexKey; gate_ints; lia|]. by apply BlockMetaKey_lt.
Qed.

Lemma height_keys_roundtrip_witness :
  parseHeightFromHeightKey (BlockMetaKey 1000) KeyPrefixBlockMeta = Ok 1000.
Proof. refine (proj1 (height_keys_roundtrip 1000 1001 7 _ _)); lia. Defined.

End Keys.
