(* ===== verification/Queue.v ===== *)
(** * The ring-buffer queue (src/internal/evm/rpc/stream/queue.go)

    A growable ring buffer indexed with a bit mask.  The abstraction function
    [model] reads the stored elements in order; the theorems say that the
    operations are the list operations, that the mask never misindexes, and
    that only the documented calls panic. *)

From S2P Require Import Prelude.

Module Queue.

Section queue.
Context {V : Type} `{!Inhabited V}.

(** [inhabitant] stands for Go's zero value of [V]. *)
Record Queue := mkQueue { buf : list V; head : nat; tail : nat; count : nat }.

Definition minQueueLen : nat := 16.

(** Go's built-in make and copy(dst[off:], src). *)
Definition make_slice (n : nat) : list V := replicate n inhabitant.
Definition copy_at (dst : list V) (off : nat) (src : list V) : list V :=
  take off dst ++ take (length dst - off) src ++ drop (off + length src) dst.

(** x & (len(buf) - 1) *)
Definition mask (x len : nat) : nat := Nat.land x (len - 1).

Definition New : Queue := mkQueue (make_slice minQueueLen) 0 0 0.

Definition Length (q : Queue) : nat := count q.

Definition resize (q : Queue) : Queue :=
  let newBuf := make_slice (Nat.shiftl (count q) 1) in
  let newBuf :=
    if bool_decide (head q < tail q)%nat then
      copy_at newBuf 0 (take (tail q - head q) (drop (head q) (buf q)))
    else
      let src := drop (head q) (buf q) in
      let n := Nat.min (length newBuf) (length src) in
      copy_at (copy_at newBuf 0 src) n (take (tail q) (buf q))
  in mkQueue newBuf 0 (count q) (count q).

Definition Add (q : Queue) (elem : V) : res string Queue :=
  let q := if bool_decide (count q = length (buf q)) then resize q else q in
  if bool_decide (tail q < length (buf q))%nat then
    Ok (mkQueue (<[tail q := elem]> (buf q)) (head q)
          (mask (tail q + 1) (length (buf q))) (count q + 1))
  else Panic "index out of range".

(** PeekP, GetP and TailP return a pointer into the buffer: its index. *)
Definition PeekP (q : Queue) : res string nat :=
  if bool_decide (count q = 0%nat) then Panic "queue: Peek() called on empty queue"
  else Ok (head q).

Definition GetP (q : Queue) (i : Z) : res string nat :=
  let i := if bool_decide (i < 0) then i + Z.of_nat (count q) else i in
  if bool_decide (i < 0 ∨ Z.of_nat (count q) ≤ i) then
    Panic "queue: Get() called with index out of range"
  else Ok (mask (head q + Z.to_nat i) (length (buf q))).

Definition TailP (q : Queue) : res string nat := GetP q (-1).

Definition deref (q : Queue) (p : nat) : res string V :=
  match buf q !! p with Some v => Ok v | None => Panic "index out of range" end.

Definition Peek (q : Queue) : res string V := let! p := PeekP q in deref q p.
Definition Get (q : Queue) (i : Z) : res string V := let! p := GetP q i in deref q p.
Definition Tail (q : Queue) : res string V := let! p := TailP q in deref q p.

(** A store through a pointer returned by GetP. *)
Definition store (q : Queue) (p : nat) (v : V) : Queue :=
  mkQueue (<[p := v]> (buf q)) (head q) (tail q) (count q).

Definition Remove (q : Queue) : res string (V * Queue) :=
  if bool_decide (count q = 0%nat) then Panic "queue: Remove() called on empty queue"
  else
    let! ret := deref q (head q) in
    let q := mkQueue (buf q) (mask (head q + 1) (length (buf q))) (tail q) (count q - 1) in
    let q := if bool_decide (minQueueLen < length (buf q) ∧
                             Nat.shiftl (count q) 2 = length (buf q))%nat
             then resize q else q in
    Ok (ret, q).

(** ** Invariant and abstraction *)

Definition inv (q : Queue) : Prop :=
  (∃ k, (4 ≤ k)%nat ∧ length (buf q) = 2 ^ k)%nat ∧
  (head q < length (buf q))%nat ∧ (count q ≤ length (buf q))%nat ∧
  tail q = ((head q + count q) mod length (buf q))%nat.

(** The buffer read circularly from the head. *)
Definition unrolled (q : Queue) : list V := drop (head q) (buf q) ++ take (head q) (buf q).
Definition model (q : Queue) : list V := take (count q) (unrolled q).

Lemma mask_mod x len k : (len = 2 ^ k → mask x len = x mod len)%nat.
Proof.
  intros ->. unfold mask. rewrite <- Nat.land_ones. f_equal.
  rewrite Nat.ones_equiv. lia.
Qed.

Lemma inv_len q : inv q → (16 ≤ length (buf q))%nat.
Proof.
  intros ((k & Hk & ->) & _). change 16%nat with (2 ^ 4)%nat. apply Nat.pow_le_mono_r; lia.
Qed.

Lemma inv_tail q : inv q → tail q = ((head q + count q) mod length (buf q))%nat.
Proof. by intros (_ & _ & _ & ?). Qed.

Lemma inv_mask q x : inv q → (mask x (length (buf q)) = x mod length (buf q))%nat.
Proof. intros ((k & _ & E) & _). by apply (mask_mod _ _ k). Qed.

Lemma inv_wrap q i :
  inv q → (i ≤ length (buf q))%nat →
  ((head q + i) mod length (buf q) =
    if decide (head q + i < length (buf q)) then head q + i else head q + i - length (buf q))%nat.
Proof.
  intros Hi Hl. pose proof (inv_len q Hi). destruct Hi as (_ & Hh & _).
  case_decide; [by apply Nat.mod_small|].
  replace (head q + i)%nat with (head q + i - length (buf q) + 1 * length (buf q))%nat at 1 by lia.
  rewrite Nat.Div0.mod_add. apply Nat.mod_small. lia.
Qed.

Lemma unrolled_lookup q i :
  inv q → (i < length (buf q))%nat →
  unrolled q !! i = buf q !! ((head q + i) mod length (buf q))%nat.
Proof.
  intros Hi Hl. rewrite inv_wrap by (done || lia). destruct Hi as (_ & Hh & _).
  unfold unrolled. case_decide.
  - rewrite lookup_app_l by (rewrite length_drop; lia). apply lookup_drop.
  - rewrite lookup_app_r by (rewrite length_drop; lia).
    rewrite length_drop, lookup_take by lia. rewrite decide_True by lia. f_equal. lia.
Qed.

Lemma unrolled_length q : inv q → length (unrolled q) = length (buf q).
Proof.
  intros (_ & Hh & _). unfold unrolled. rewrite length_app, length_drop, length_take. lia.
Qed.

Lemma model_length q : inv q → length (model q) = count q.
Proof.
  intros Hi. unfold model. rewrite length_take, unrolled_length by done.
  destruct Hi as (_ & _ & ? & _). lia.
Qed.

Lemma model_lookup q i :
  inv q → (i < count q)%nat →
  model q !! i = buf q !! ((head q + i) mod length (buf q))%nat.
Proof.
  intros Hi Hl. unfold model. rewrite lookup_take, decide_True by done.
  apply unrolled_lookup; [done|]. destruct Hi as (_ & _ & ? & _). lia.
Qed.

Lemma slot_valid q x : inv q → (x mod length (buf q) < length (buf q))%nat.
Proof. intros Hi. pose proof (inv_len q Hi). apply Nat.mod_upper_bound. lia. Qed.

(** ** Resizing keeps the contents *)

Lemma copy_at_start (dst src : list V) :
  (length src ≤ length dst)%nat → copy_at dst 0 src = src ++ drop (length src) dst.
Proof.
  intros Hl. unfold copy_at. rewrite take_0. simpl. rewrite take_ge by lia. done.
Qed.

Lemma copy_at_after (pre dst src : list V) :
  (length src ≤ length dst)%nat →
  copy_at (pre ++ dst) (length pre) src = pre ++ src ++ drop (length src) dst.
Proof.
  intros Hl. unfold copy_at. rewrite take_app_length, length_app.
  rewrite take_ge by lia. f_equal. f_equal.
  rewrite drop_app_ge by lia. f_equal. lia.
Qed.

Lemma resize_buf q :
  inv q → (0 < count q)%nat → buf (resize q) = model q ++ make_slice (count q).
Proof.
  intros Hi Hc. pose proof (inv_wrap q (count q) Hi) as Hw. pose proof (inv_len q Hi) as Hlen.
  pose proof (model_length q Hi) as Hml.
  destruct Hi as (_ & Hh & Hcl & Ht). rewrite <- Ht in Hw. specialize (Hw Hcl).
  unfold resize. cbn [buf].
  replace (Nat.shiftl (count q) 1) with (count q + count q)%nat
    by (rewrite Nat.shiftl_mul_pow2; simpl; lia).
  assert (∀ l, length l = count q →
    l ++ drop (count q) (make_slice (count q + count q)) = l ++ make_slice (count q)) as Hd.
  { intros l _. unfold make_slice. rewrite drop_replicate. do 2 f_equal. lia. }
  case_bool_decide as Hlt.
  - assert (take (tail q - head q) (drop (head q) (buf q)) = model q) as ->.
    { unfold model, unrolled. rewrite take_app_le by (rewrite length_drop; case_decide; lia).
      f_equal. case_decide; lia. }
    rewrite copy_at_start by (unfold make_slice; rewrite length_replicate; lia).
    rewrite Hml. by apply Hd.
  - set (src := drop (head q) (buf q)).
    assert (model q = src ++ take (tail q) (buf q)) as Em.
    { unfold model, unrolled. fold src. case_decide; [lia|].
      rewrite take_app_ge by (unfold src; rewrite length_drop; lia).
      f_equal. rewrite take_take. f_equal. unfold src. rewrite length_drop. lia. }
    assert (length src + length (take (tail q) (buf q)) = count q)%nat as Hl2.
    { rewrite <- Hml, Em, length_app. done. }
    unfold make_slice at 1 2. rewrite length_replicate.
    replace (Nat.min (count q + count q) (length src)) with (length src) by lia.
    fold (make_slice (count q + count q)).
    rewrite copy_at_start by (unfold make_slice; rewrite length_replicate; lia).
    rewrite copy_at_after.
    2:{ unfold make_slice. rewrite drop_replicate, length_replicate. lia. }
    rewrite drop_drop, Hl2, app_assoc, <- Em. by apply Hd.
Qed.

Lemma resize_spec q :
  inv q → (8 ≤ count q)%nat → (∃ k, count q = 2 ^ k)%nat →
  inv (resize q) ∧ model (resize q) = model q ∧ count (resize q) = count q ∧
  length (buf (resize q)) = (2 * count q)%nat.
Proof.
  intros Hi Hc [k Hk]. pose proof (resize_buf q Hi ltac:(lia)) as Hb.
  pose proof (model_length q Hi) as Hml.
  assert (length (buf (resize q)) = (2 * count q)%nat) as Hlen.
  { rewrite Hb, length_app, Hml. unfold make_slice. rewrite length_replicate. lia. }
  split; [|split; [|split; done]].
  - split; [|].
    + exists (S k). split.
      * destruct (decide (3 ≤ k)%nat); [lia|]. exfalso.
        assert (2 ^ k ≤ 2 ^ 2)%nat by (apply Nat.pow_le_mono_r; lia). simpl in *. lia.
      * rewrite Hlen, Hk. done.
    + rewrite Hlen. simpl. split; [lia|]. split; [lia|]. rewrite Nat.mod_small; lia.
  - unfold model at 1, unrolled. rewrite Hb. simpl. rewrite drop_0, take_0, app_nil_r.
    rewrite take_app_le by lia. apply take_ge. lia.
Qed.
(** ** Operations against the list *)

Lemma New_spec : inv New ∧ model New = [].
Proof.
  split; [|done]. split; [by exists 4%nat|]. simpl. split; [lia|]. split; [lia|done].
Qed.

Lemma set_slot_model q x :
  inv q → (count q < length (buf q))%nat →
  inv (mkQueue (<[tail q := x]> (buf q)) (head q) (mask (tail q + 1) (length (buf q))) (count q + 1)) ∧
  model (mkQueue (<[tail q := x]> (buf q)) (head q) (mask (tail q + 1) (length (buf q))) (count q + 1))
    = model q ++ [x].
Proof.
  intros Hi Hlt. pose proof (inv_len q Hi) as Hlen. rewrite inv_mask by done.
  set (q' := mkQueue _ _ _ _).
  assert (inv q') as Hi'.
  { destruct Hi as (Hk & Hh & Hc & Ht). unfold q', inv. simpl. rewrite !length_insert.
    split; [done|]. split; [done|]. split; [lia|]. rewrite Ht, Nat.Div0.add_mod_idemp_l. f_equal. lia. }
  split; [done|]. apply list_eq. intros i.
  destruct (decide (i < count q + 1)%nat) as [Hic|Hic].
  - rewrite model_lookup by done. unfold q'; simpl. rewrite length_insert.
    destruct (decide (i = count q)) as [->|Hne].
    + rewrite lookup_app_r, model_length, Nat.sub_diag by (done || (rewrite model_length; done || lia)).
      rewrite <- (inv_tail q Hi). rewrite list_lookup_insert_eq; [done|].
      rewrite inv_tail by done. by apply slot_valid.
    + rewrite lookup_app_l by (rewrite model_length; done || lia).
      rewrite model_lookup by (done || lia). apply list_lookup_insert_ne.
      pose proof (inv_wrap q i Hi ltac:(lia)) as W1. pose proof (inv_wrap q (count q) Hi ltac:(lia)) as W2.
      destruct Hi as (_ & Hh & _ & ->). rewrite W1, W2. repeat case_decide; lia.
  - rewrite !lookup_ge_None_2; [done|..]; rewrite ?length_app, ?model_length by done; simpl; lia.
Qed.

Lemma queue_Add_spec q x : inv q → ∃ q', Add q x = Ok q' ∧ inv q' ∧ model q' = model q ++ [x].
Proof.
  intros Hi. unfold Add.
  set (q1 := if bool_decide (count q = length (buf q)) then resize q else q).
  assert (inv q1 ∧ model q1 = model q ∧ (count q1 < length (buf q1))%nat) as (Hi1 & Hm1 & Hc1).
  { unfold q1. pose proof (inv_len q Hi). case_bool_decide as E.
    - destruct (resize_spec q Hi) as (? & ? & R1 & R2); [lia| |split; [done|split; [done|rewrite R1, R2; lia]]].
      destruct Hi as ((k & _ & Hk) & _). exists k. lia.
    - split; [done|]. split; [done|]. destruct Hi as (_ & _ & ? & _). lia. }
  rewrite bool_decide_eq_true_2.
  2:{ rewrite inv_tail by done. by apply slot_valid. }
  destruct (set_slot_model q1 x Hi1 Hc1) as [? Hm]. rewrite Hm1 in Hm. eauto.
Qed.

Lemma deref_slot q i :
  inv q → (i < count q)%nat →
  ∃ v, model q !! i = Some v ∧ deref q ((head q + i) mod length (buf q))%nat = Ok v.
Proof.
  intros Hi Hl. destruct (lookup_lt_is_Some_2 (model q) i) as [v Hv].
  { rewrite model_length; done || lia. }
  exists v. split; [done|]. unfold deref. rewrite <- model_lookup, Hv by done. done.
Qed.

Lemma GetP_spec q i :
  inv q →
  GetP q i =
    let j := if bool_decide (i < 0) then i + Z.of_nat (count q) else i in
    if bool_decide (0 ≤ j < Z.of_nat (count q)) then
      Ok ((head q + Z.to_nat j) mod length (buf q))%nat
    else Panic "queue: Get() called with index out of range".
Proof.
  intros Hi. unfold GetP. simpl. set (j := if bool_decide (i < 0) then _ else _).
  rewrite inv_mask by done. repeat case_bool_decide; try done; lia.
Qed.

Lemma Get_spec q i v :
  inv q →
  Get q i = Ok v ↔
  ∃ j : nat, model q !! j = Some v ∧ (i = Z.of_nat j ∨ i = Z.of_nat j - Z.of_nat (length (model q))).
Proof.
  intros Hi. unfold Get. rewrite GetP_spec by done. simpl. rewrite model_length by done.
  set (j := if bool_decide (i < 0) then i + Z.of_nat (count q) else i).
  assert (∀ n : nat, is_Some (model q !! n) ↔ (n < count q)%nat) as Hsome.
  { intros n. rewrite lookup_lt_is_Some, model_length by done. done. }
  case_bool_decide as Hj; simpl.
  - destruct (deref_slot q (Z.to_nat j) Hi ltac:(lia)) as (w & Hw & ->). split.
    + intros [= <-]. exists (Z.to_nat j). split; [done|]. unfold j in *. case_bool_decide; lia.
    + intros (n & Hn & Hin). assert (n < count q)%nat by (apply Hsome; eauto).
      assert (n = Z.to_nat j) as -> by (unfold j; case_bool_decide; lia). congruence.
  - split; [done|]. intros (n & Hn & Hin). assert (n < count q)%nat by (apply Hsome; eauto).
    exfalso. apply Hj. unfold j. case_bool_decide; lia.
Qed.

Lemma advance_model q :
  inv q → (0 < count q)%nat →
  let q' := mkQueue (buf q) (mask (head q + 1) (length (buf q))) (tail q) (count q - 1) in
  inv q' ∧ ∃ v, model q = v :: model q' ∧ deref q (head q) = Ok v.
Proof.
  intros Hi Hc q'. assert (inv q') as Hi'.
  { unfold q'. rewrite inv_mask by done. pose proof (slot_valid q (head q + 1) Hi).
    destruct Hi as (Hk & Hh & Hcl & Ht). unfold inv. simpl.
    split; [done|]. split; [done|]. split; [lia|].
    rewrite Ht, Nat.Div0.add_mod_idemp_l. f_equal. lia. }
  split; [done|]. destruct (deref_slot q 0 Hi Hc) as (v & Hv & Hd).
  exists v. split.
  - apply list_eq. intros [|i]; [done|]. simpl.
    destruct (decide (S i < count q)%nat) as [Hl|Hl].
    + rewrite !model_lookup by (done || (unfold q'; simpl; lia)). unfold q'; simpl.
      rewrite inv_mask by done. f_equal. rewrite Nat.Div0.add_mod_idemp_l. f_equal. lia.
    + rewrite !lookup_ge_None_2; [done|..]; rewrite model_length by done; [unfold q'; simpl; lia|lia].
  - rewrite <- Hd. f_equal. rewrite Nat.add_0_r. symmetry. apply Nat.mod_small, Hi.
Qed.

Lemma Remove_spec q :
  inv q →
  match model q with
  | [] => Remove q = Panic "queue: Remove() called on empty queue"
  | v :: l => ∃ q', Remove q = Ok (v, q') ∧ inv q' ∧ model q' = l
  end.
Proof.
  intros Hi. unfold Remove. pose proof (model_length q Hi) as Hml.
  case_bool_decide as E; [destruct (model q); [done|simpl in Hml; lia]|].
  destruct (advance_model q Hi ltac:(lia)) as (Hi' & v & -> & ->). cbn [res_bind]. cbv zeta.
  set (q1 := mkQueue _ _ _ _) in *. simpl in Hml. eexists. split; [done|].
  case_bool_decide as Hr; [|done]. unfold minQueueLen in Hr. destruct Hr as [Hr1 Hr2].
  rewrite Nat.shiftl_mul_pow2 in Hr2. simpl in Hr2.
  change (length (buf q1)) with (length (buf q)) in Hr1.
  destruct Hi as ((k & Hk & Hlen) & _). destruct k as [|[|k]]; [lia|lia|].
  rewrite Hlen in Hr1, Hr2. simpl in Hr1, Hr2.
  assert (2 ^ 3 ≤ 2 ^ k)%nat as Hk3.
  { apply Nat.pow_le_mono_r; [lia|]. destruct (decide (k ≤ 2)%nat); [|lia].
    assert (2 ^ k ≤ 2 ^ 2)%nat by (apply Nat.pow_le_mono_r; lia). simpl in *. lia. }
  simpl in Hk3. assert (count q1 = 2 ^ k)%nat by (unfold q1; simpl; lia).
  destruct (resize_spec q1 Hi') as (? & ? & _); [lia|by exists k|done].
Qed.

Lemma store_tail_spec q v :
  inv q → (0 < count q)%nat →
  ∃ p, TailP q = Ok p ∧ inv (store q p v) ∧
       model (store q p v) = take (length (model q) - 1) (model q) ++ [v].
Proof.
  intros Hi Hc. unfold TailP. rewrite GetP_spec by done. simpl.
  rewrite bool_decide_eq_true_2 by lia. eexists. split; [done|].
  replace (Z.to_nat (-1 + Z.of_nat (count q))) with (count q - 1)%nat by lia.
  set (p := ((head q + (count q - 1)) mod length (buf q))%nat).
  assert (inv (store q p v)) as Hi'.
  { unfold inv, store in *. simpl. by rewrite length_insert. }
  split; [done|]. pose proof (model_length q Hi) as Hml. rewrite Hml. apply list_eq. intros i.
  destruct (decide (i < count q)%nat) as [Hl|Hl].
  - rewrite model_lookup by done. unfold store; simpl. rewrite length_insert.
    destruct (decide (i = count q - 1)%nat) as [->|Hne].
    + rewrite list_lookup_insert_eq by (by apply slot_valid).
      rewrite lookup_app_r, length_take by (rewrite length_take; lia).
      by replace (count q - 1 - Nat.min (count q - 1) (length (model q)))%nat with 0%nat by lia.
    + rewrite list_lookup_insert_ne, lookup_app_l by
        (rewrite ?length_take; first [lia | unfold p; rewrite !inv_wrap by (done || (destruct Hi as (?&?&?&?); lia));
         destruct Hi as (_ & ? & ? & _); repeat case_decide; lia]).
      rewrite lookup_take, decide_True by lia. by rewrite model_lookup.
  - rewrite !lookup_ge_None_2; [done|..].
    + rewrite length_app, length_take. simpl. lia.
    + by rewrite model_length by done; simpl; lia.
Qed.
End queue.

Arguments Queue : clear implicits.
(** ** Refinement of the list queue *)

Section refinement.
Context {V : Type} `{!Inhabited V}.

Inductive op := OAdd (v : V) | ORemove | OGet (i : Z).

(** A client: a sequence of calls; the values Remove and Get return are
    collected, a panic ends the run. *)
Definition exec (q : Queue V) (o : op) : res string (list V * Queue V) :=
  match o with
  | OAdd v => let! q' := Add q v in Ok ([], q')
  | ORemove => let! r := Remove q in Ok ([r.1], r.2)
  | OGet i => let! v := Get q i in Ok ([v], q)
  end.

Definition spec_exec (l : list V) (o : op) : res string (list V * list V) :=
  match o, l with
  | OAdd v, _ => Ok ([], l ++ [v])
  | ORemove, [] => Panic "queue: Remove() called on empty queue"
  | ORemove, v :: l => Ok ([v], l)
  | OGet i, _ =>
      let i := if bool_decide (i < 0) then i + Z.of_nat (length l) else i in
      match (if bool_decide (0 ≤ i) then l !! Z.to_nat i else None) with
      | Some v => Ok ([v], l)
      | None => Panic "queue: Get() called with index out of range"
      end
  end.

Fixpoint run {S} (step : S → op → res string (list V * S)) (s : S) (ops : list op) : res string (list V * S) :=
  match ops with
  | [] => Ok ([], s)
  | o :: ops =>
      let! r := step s o in
      let! r' := run step r.2 ops in
      Ok (r.1 ++ r'.1, r'.2)
  end.

Definition refines (a : res string (list V * Queue V)) (b : res string (list V * list V)) : Prop :=
  match a, b with
  | Ok (out, q), Ok (out', l) => out = out' ∧ inv q ∧ model q = l
  | Panic m, Panic m' => m = m'
  | _, _ => False
  end.

Lemma exec_refines q o : inv q → refines (exec q o) (spec_exec (model q) o).
Proof.
  intros Hi. destruct o as [v| |i]; simpl.
  - destruct (queue_Add_spec q v Hi) as (q' & -> & ? & ?). by simpl.
  - pose proof (Remove_spec q Hi) as Hr. destruct (model q) as [|v l].
    + by rewrite Hr.
    + destruct Hr as (q' & -> & ? & ?). by simpl.
  - unfold Get. rewrite GetP_spec by done. rewrite model_length by done. simpl.
    set (j := if bool_decide (i < 0) then _ else _). case_bool_decide as Hj.
    + cbn [res_bind].
      destruct (deref_slot q (Z.to_nat j) Hi ltac:(lia)) as (v & Hv & ->). simpl.
      rewrite bool_decide_eq_true_2 by lia. rewrite Hv. by simpl.
    + case_bool_decide as Hn; simpl; [|done].
      rewrite lookup_ge_None_2 by (rewrite model_length by done; lia). done.
Qed.

Lemma run_refines ops q : inv q → refines (run exec q ops) (run spec_exec (model q) ops).
Proof.
  revert q. induction ops as [|o ops IH]; intros q Hi; simpl; [done|].
  pose proof (exec_refines q o Hi) as Ho. unfold refines in Ho.
  destruct (exec q o) as [[out q']|e|m], (spec_exec (model q) o) as [[out' l]|e'|m'];
    simpl; try done.
  destruct Ho as (-> & Hi' & <-). specialize (IH q' Hi'). unfold refines in IH.
  destruct (run exec q' ops) as [[o1 q1]|?|?], (run spec_exec (model q') ops) as [[o2 l2]|?|?];
    simpl; try done. by destruct IH as (-> & ? & ?).
Qed.
End refinement.

(** The ring buffer is a FIFO list: from a new queue, any sequence of Add,
    Remove and (positive or negative) Get calls returns what the same calls
    return on a list, with the same panics; growing, wrapping around and
    shrinking the buffer are invisible, and no call fails on a bad index. *)
Theorem queue_refines_list {V : Type} `{!Inhabited V} (ops : list (@op V)) :
  refines (run exec New ops) (run spec_exec [] ops).
Proof. destruct (@New_spec V _) as [Hi Hm]. rewrite <- Hm. by apply run_refines. Qed.

End Queue.
