(* ===== verification/Stream.v ===== *)
(** * The event stream (src/internal/evm/rpc/stream/stream.go, cond.go)

    A bounded log of items in fixed-size segments, addressed by offsets.  The
    specification state is the list of all items ever added; the stream keeps
    a suffix of it.  The second part models the readers' condition variable
    as a step relation. *)

From S2P Require Import Prelude Queue.
Import Queue.

Module Stream.

Section stream.
Context {V : Type} `{!Inhabited V}.

#[local] Instance segment_inhabited : Inhabited (list V) := populate [].

Record Stream := mkStream {
  segments : Queue (list V); segmentSize : nat; maxSegments : nat; segmentOffset : nat }.

Definition NewStream (segmentSize capacity : Z) : res string Stream :=
  if bool_decide (segmentSize = 0) then Panic "integer divide by zero"
  else
    let maxSegments := Z.quot (capacity + segmentSize - 1) segmentSize in
    if bool_decide (maxSegments < 1) then Panic "capacity is too small"
    else Ok (mkStream New (Z.to_nat segmentSize) (Z.to_nat maxSegments) 0).

Definition with_segments (s : Stream) (q : Queue (list V)) : Stream :=
  mkStream q (segmentSize s) (maxSegments s) (segmentOffset s).

(** The loop body of Add. *)
Definition needs_segment (s : Stream) : res string bool :=
  if bool_decide (Length (segments s) = 0%nat) then Ok true
  else let! t := Tail (segments s) in Ok (bool_decide (length t = segmentSize s)).

Definition open_segment (s : Stream) : res string Stream :=
  if bool_decide (maxSegments s < Length (segments s))%nat then
    let! r := Remove (segments s) in
    let! q := Queue.Add r.2 [] in
    Ok (mkStream q (segmentSize s) (maxSegments s) (segmentOffset s + 1))
  else
    let! q := Queue.Add (segments s) [] in
    Ok (with_segments s q).

Definition append_tail (s : Stream) (v : V) : res string Stream :=
  let! p := TailP (segments s) in
  let! t := deref (segments s) p in
  Ok (with_segments s (store (segments s) p (t ++ [v]))).

Definition add_one (s : Stream) (v : V) : res string Stream :=
  let! b := needs_segment s in
  let! s := (if b : bool then open_segment s else Ok s) in
  append_tail s v.

Definition lastID (s : Stream) : res string Z :=
  if bool_decide (Length (segments s) = 0%nat) then Ok 0
  else
    let! t := Tail (segments s) in
    Ok ((Z.of_nat (segmentOffset s) + Z.of_nat (Length (segments s)) - 1) * Z.of_nat (segmentSize s)
        + Z.of_nat (length t)).

(** Add also broadcasts to the blocked readers: see the condition variable
    below. *)
Definition Add (s : Stream) (vs : list V) : res string (Z * Stream) :=
  match vs with
  | [] => Ok (0, s)
  | _ =>
      let! s := res_foldl add_one s vs in
      let! id := lastID s in
      Ok (id, s)
  end.

Definition doRead (s : Stream) (offset : Z) : res string (list V * Z) :=
  if bool_decide (Length (segments s) = 0%nat) then
    let! id := lastID s in Ok ([], id)
  else if bool_decide (offset < 0) then
    let! id := lastID s in Ok ([], id)
  else
    let segment := Z.quot offset (Z.of_nat (segmentSize s)) in
    let segment :=
      if bool_decide (Z.of_nat (segmentOffset s) ≤ segment)
      then segment - Z.of_nat (segmentOffset s) else 0 in
    if bool_decide (Z.of_nat (Length (segments s)) ≤ segment) then
      let! id := lastID s in Ok ([], id)
    else
      let! seg := Get (segments s) segment in
      let low := Z.to_nat (Z.rem offset (Z.of_nat (segmentSize s))) in
      if bool_decide (length seg < low)%nat then Panic "slice bounds out of range"
      else
        let items := drop low seg in
        match items with
        | [] => let! id := lastID s in Ok ([], id)
        | _ => Ok (items, (Z.of_nat (segmentOffset s) + segment) * Z.of_nat (segmentSize s)
                          + Z.of_nat (length seg))
        end.

Definition ReadNonBlocking (s : Stream) (offset : Z) : res string (list V * Z) := doRead s offset.

(** The unbounded loop of ReadAllNonBlocking, with fuel for its iterations. *)
Fixpoint read_all (fuel : nat) (s : Stream) (offset : Z) (result : list V) : res string (list V * Z) :=
  match fuel with
  | O => Err "out of fuel"%string
  | S fuel =>
      let! r := doRead s offset in
      match r.1 with
      | [] => Ok (result, r.2)
      | items => read_all fuel s r.2 (result ++ items)
      end
  end.

(** One iteration per retained segment and one for the empty read. *)
Definition ReadAllNonBlocking (s : Stream) (offset : Z) : res string (list V * Z) :=
  read_all (S (S (Length (segments s)))) s offset [].

(** ** Invariant *)

(** [hist] is everything ever added; [off * size] items have been pruned. *)
Definition inv (s : Stream) (hist : list V) : Prop :=
  Queue.inv (segments s) ∧ (0 < segmentSize s)%nat ∧ (0 < maxSegments s)%nat ∧
  concat (model (segments s)) = drop (segmentOffset s * segmentSize s) hist ∧
  (segmentOffset s * segmentSize s ≤ length hist)%nat ∧
  (model (segments s) = [] → segmentOffset s = 0%nat ∧ hist = []) ∧
  (∀ segs t, model (segments s) = segs ++ [t] →
     Forall (λ g, length g = segmentSize s) segs ∧ (1 ≤ length t ≤ segmentSize s)%nat) ∧
  (length (model (segments s)) ≤ S (maxSegments s))%nat ∧
  (segmentOffset s ≠ 0%nat → length (model (segments s)) = S (maxSegments s)).

Lemma Length_model s hist : inv s hist → Length (segments s) = length (model (segments s)).
Proof. intros (Hq & _). unfold Length. by rewrite model_length. Qed.

Lemma Tail_snoc q (segs : list (list V)) t : Queue.inv q → model q = segs ++ [t] → Tail q = Ok t.
Proof.
  intros Hq Hm. change (Tail q) with (Get q (-1)). apply Get_spec; [done|].
  exists (length segs). rewrite Hm. split.
  - rewrite lookup_app_r, Nat.sub_diag by lia. done.
  - right. rewrite length_app. simpl. lia.
Qed.

Lemma full_length (segs : list (list V)) n :
  Forall (λ g, length g = n) segs → length (concat segs) = (length segs * n)%nat.
Proof. induction 1 as [|g segs Hg _ IH]; simpl; [done|]. rewrite length_app. lia. Qed.

Lemma hist_length s hist segs t :
  inv s hist → model (segments s) = segs ++ [t] →
  length hist = ((segmentOffset s + length segs) * segmentSize s + length t)%nat.
Proof.
  intros (_ & _ & _ & Hc & Ho & _ & Hf & _) Hm. destruct (Hf _ _ Hm) as [Hfull _].
  rewrite Hm, concat_app in Hc. simpl in Hc. rewrite app_nil_r in Hc.
  apply (f_equal length) in Hc. rewrite length_app, length_drop, (full_length _ _ Hfull) in Hc. lia.
Qed.

Lemma model_snoc s hist : inv s hist → hist ≠ [] → ∃ segs t, model (segments s) = segs ++ [t].
Proof.
  intros (_ & _ & _ & _ & _ & He & _) Hne. destruct (model (segments s)) as [|g l] eqn:E using rev_ind.
  - by destruct He.
  - by eexists _, _.
Qed.

Lemma lastID_spec s hist : inv s hist → lastID s = Ok (Z.of_nat (length hist)).
Proof.
  intros Hi. unfold lastID. rewrite (Length_model s hist) by done.
  case_bool_decide as E.
  - apply nil_length_inv in E. destruct Hi as (_ & _ & _ & _ & _ & He & _).
    by destruct (He E) as [_ ->].
  - destruct (decide (hist = [])) as [->|Hne].
    + exfalso. destruct (exists_last (l := model (segments s))) as (segs & t & Hm).
      { intros E'. by rewrite E' in E. }
      pose proof (hist_length _ _ _ _ Hi Hm). simpl in *.
      destruct Hi as (_ & _ & _ & _ & _ & _ & Hf & _). destruct (Hf _ _ Hm). lia.
    + destruct (model_snoc s hist Hi Hne) as (segs & t & Hm).
      rewrite (Tail_snoc _ segs t) by (done || apply Hi). simpl. f_equal.
      rewrite (hist_length _ _ _ _ Hi Hm), Hm, length_app. simpl. lia.
Qed.

Lemma NewStream_spec (size capacity : Z) :
  0 < size → 0 < capacity →
  ∃ s, NewStream size capacity = Ok s ∧ inv s [] ∧ segmentSize s = Z.to_nat size ∧
       capacity ≤ Z.of_nat (maxSegments s) * size.
Proof.
  intros Hs Hc. unfold NewStream. rewrite bool_decide_eq_false_2 by lia.
  rewrite Z.quot_div_nonneg by lia.
  pose proof (Z.div_mod (capacity + size - 1) size ltac:(lia)) as Hd.
  pose proof (Z.mod_pos_bound (capacity + size - 1) size Hs) as Hm.
  set (m := (capacity + size - 1) / size) in *.
  assert (0 < m) by nia. rewrite bool_decide_eq_false_2 by lia.
  eexists. split; [done|]. split; [|split; [done|simpl; lia]].
  destruct (@New_spec (list V) _) as [Hq Hmod]. unfold inv. simpl. rewrite Hmod.
  repeat (split; [done || lia|]). split; [|split; [lia|done]].
  intros segs t E. by destruct segs.
Qed.
(** ** Appending *)

(** What opening a segment keeps and adds. *)
Lemma open_segment_spec s hist :
  inv s hist → (∀ segs t, model (segments s) = segs ++ [t] → length t = segmentSize s) →
  ∃ s' l, open_segment s = Ok s' ∧ Queue.inv (segments s') ∧
    model (segments s') = l ++ [[]] ∧ Forall (λ g, length g = segmentSize s) l ∧
    segmentSize s' = segmentSize s ∧ maxSegments s' = maxSegments s ∧
    concat l = drop (segmentOffset s' * segmentSize s) hist ∧
    (segmentOffset s' * segmentSize s ≤ length hist)%nat ∧
    (length l ≤ maxSegments s)%nat ∧
    (segmentOffset s' ≠ 0%nat → length l = maxSegments s).
Proof.
  intros Hi Hfull. pose proof Hi as (Hq & Hsz & Hmx & Hc & Ho & _ & Hf & Hl & Hpr).
  assert (Forall (λ g, length g = segmentSize s) (model (segments s))) as Hall.
  { destruct (model (segments s)) as [|t l _] eqn:E using rev_ind; [constructor|].
    apply Forall_app. split; [by apply (Hf l t)|]. constructor; [by eapply Hfull|done]. }
  unfold open_segment. rewrite (Length_model s hist) by done. case_bool_decide as Hlt.
  - pose proof (Remove_spec (segments s) Hq) as Hr.
    destruct (model (segments s)) as [|g l] eqn:Em; [simpl in Hlt; lia|].
    destruct Hr as (q1 & -> & Hq1 & Hm1). simpl.
    destruct (queue_Add_spec q1 [] Hq1) as (q2 & -> & Hq2 & Hm2). simpl.
    apply Forall_cons in Hall as [Hg Hall]. simpl in Hl, Hlt, Hc.
    assert (concat l = drop (S (segmentOffset s) * segmentSize s) hist) as Hcl.
    { simpl. rewrite Nat.add_comm, <- drop_drop, <- Hc, drop_app_length'; [done|lia]. }
    eexists _, l. split; [done|]. simpl. rewrite Hm2, Hm1, Nat.add_1_r.
    split; [done|]. split; [done|]. split; [done|]. split; [done|]. split; [done|].
    split; [done|]. split; [|split; lia].
    apply (f_equal length) in Hc. rewrite length_app, length_drop in Hc. simpl. lia.
  - destruct (queue_Add_spec (segments s) [] Hq) as (q2 & -> & Hq2 & Hm2). simpl.
    eexists _, (model (segments s)). split; [done|]. simpl.
    repeat (split; [done || lia|]). intros Hne. specialize (Hpr Hne). lia.
Qed.

Lemma append_tail_spec s v segs t :
  Queue.inv (segments s) → model (segments s) = segs ++ [t] →
  ∃ q, append_tail s v = Ok (with_segments s q) ∧ Queue.inv q ∧ model q = segs ++ [t ++ [v]].
Proof.
  intros Hq Hm. unfold append_tail.
  assert (0 < count (segments s))%nat as Hc.
  { rewrite <- model_length, Hm, length_app by done. simpl. lia. }
  destruct (store_tail_spec (segments s) (t ++ [v]) Hq Hc) as (p & Hp & Hi & Hmod).
  assert (deref (segments s) p = Ok t) as Hd.
  { pose proof (Tail_snoc _ _ _ Hq Hm) as Ht. unfold Tail in Ht. by rewrite Hp in Ht. }
  rewrite Hp. simpl. rewrite Hd. simpl. eexists. split; [done|]. split; [done|].
  rewrite Hmod, Hm, length_app. simpl.
  replace (length segs + 1 - 1)%nat with (length segs) by lia. by rewrite take_app_length.
Qed.

Lemma snoc_inj {A} (l l' : list A) x x' : l ++ [x] = l' ++ [x'] → l = l' ∧ x = x'.
Proof. intros H. by apply app_inj_tail in H. Qed.

Lemma add_one_spec s hist v :
  inv s hist →
  ∃ s', add_one s v = Ok s' ∧ inv s' (hist ++ [v]) ∧
        segmentSize s' = segmentSize s ∧ maxSegments s' = maxSegments s.
Proof.
  intros Hi. pose proof Hi as (Hq & Hsz & Hmx & Hc & Ho & He & Hf & Hl & Hpr).
  assert (∃ b, needs_segment s = Ok b ∧
    if b then ∀ segs t, model (segments s) = segs ++ [t] → length t = segmentSize s
    else ∃ segs t, model (segments s) = segs ++ [t] ∧ (length t < segmentSize s)%nat) as (b & Hb & Hcase).
  { unfold needs_segment. rewrite (Length_model s hist) by done. case_bool_decide as E.
    - eexists. split; [done|]. intros segs t Hm. rewrite Hm, length_app in E. simpl in E. lia.
    - destruct (exists_last (l := model (segments s))) as (segs & t & Hm).
      { intros E'. by rewrite E' in E. }
      rewrite (Tail_snoc _ segs t) by done. eexists. split; [done|].
      case_bool_decide as Et.
      + intros segs' t' Hm'. rewrite Hm in Hm'. by apply snoc_inj in Hm' as [_ <-].
      + exists segs, t. split; [done|]. destruct (Hf _ _ Hm). lia. }
  unfold add_one. rewrite Hb. simpl. destruct b.
  - destruct (open_segment_spec s hist Hi Hcase)
      as (s1 & l & -> & Hq1 & Hm1 & Hl1 & Es & Em & Hc1 & Ho1 & Hn1 & Hp1). simpl.
    destruct (append_tail_spec s1 v l [] Hq1 Hm1) as (q & -> & Hq2 & Hm2).
    eexists. split; [done|]. split; [|done]. unfold inv, with_segments; simpl. rewrite Hm2, Es, Em.
    repeat (split; [done|]). split.
    { rewrite concat_app. simpl. rewrite Hc1, drop_app_le by done. done. }
    split; [rewrite length_app; simpl; lia|]. split; [by destruct l|]. split.
    { intros segs t E. apply snoc_inj in E as [<- <-]. split; [done|]. simpl. lia. }
    rewrite length_app. simpl. split; [lia|]. intros Hne. specialize (Hp1 Hne). lia.
  - destruct Hcase as (segs & t & Hm & Ht). simpl.
    destruct (append_tail_spec s v segs t Hq Hm) as (q & -> & Hq2 & Hm2).
    eexists. split; [done|]. split; [|done]. unfold inv, with_segments; simpl. rewrite Hm2.
    destruct (Hf _ _ Hm) as [Hfull Hlt]. rewrite Hm in Hc, Hl, Hpr. rewrite length_app in *. simpl in *.
    repeat (split; [done|]). split.
    { rewrite concat_app in *. simpl in *. rewrite app_nil_r in *. rewrite drop_app_le by done.
      by rewrite <- Hc, app_assoc. }
    split; [lia|]. split; [by destruct segs|]. split; [|by rewrite length_app].
    intros segs' t' E. apply snoc_inj in E as [<- <-]. split; [done|]. rewrite length_app. simpl. lia.
Qed.

Lemma add_all_spec vs s hist :
  inv s hist →
  ∃ s', res_foldl add_one s vs = Ok s' ∧ inv s' (hist ++ vs) ∧
        segmentSize s' = segmentSize s ∧ maxSegments s' = maxSegments s.
Proof.
  revert s hist. induction vs as [|v vs IH]; intros s hist Hi; simpl.
  - exists s. by rewrite app_nil_r.
  - destruct (add_one_spec s hist v Hi) as (s1 & -> & Hi1 & E1 & E2). simpl.
    destruct (IH s1 _ Hi1) as (s2 & -> & Hi2 & E3 & E4).
    exists s2. rewrite <- app_assoc in Hi2. split; [done|]. split; [done|]. by rewrite E3, E4.
Qed.

Lemma stream_Add_spec s hist vs :
  inv s hist → vs ≠ [] →
  ∃ s', Add s vs = Ok (Z.of_nat (length (hist ++ vs)), s') ∧ inv s' (hist ++ vs).
Proof.
  intros Hi Hne. destruct (add_all_spec vs s hist Hi) as (s' & E & Hi' & _).
  exists s'. split; [|done]. unfold Add. destruct vs; [done|].
  rewrite E. simpl. rewrite (lastID_spec s' _ Hi'). done.
Qed.

(** ** Reading *)

(** The [j]-th retained segment is the corresponding slice of the history. *)
Lemma segment_slice s hist j seg :
  inv s hist → model (segments s) !! j = Some seg →
  seg = take (length seg) (drop ((segmentOffset s + j) * segmentSize s) hist) ∧
  ((segmentOffset s + j) * segmentSize s + length seg ≤ length hist)%nat ∧
  (length seg = segmentSize s ∨
   ((segmentOffset s + j) * segmentSize s + length seg = length hist)%nat) ∧
  (1 ≤ length seg ≤ segmentSize s)%nat.
Proof.
  intros Hi Hj. destruct (exists_last (l := model (segments s))) as (segs & t & Hm).
  { intros E. by rewrite E in Hj. }
  pose proof (hist_length _ _ _ _ Hi Hm) as Hlen.
  destruct Hi as (_ & Hsz & _ & Hc & Ho & _ & Hf & _). destruct (Hf _ _ Hm) as [Hfull Ht].
  rewrite Hm in Hc, Hj. rewrite Nat.mul_add_distr_r, <- drop_drop, <- Hc.
  destruct (decide (j < length segs)%nat) as [Hlt|Hge].
  - rewrite lookup_app_l in Hj by done. apply list_elem_of_split_length in Hj as (l1 & l2 & Es & El).
    subst segs. apply Forall_app in Hfull as [F1 F2]. apply Forall_cons in F2 as [Fg F2].
    rewrite !length_app in Hlen. simpl in Hlen.
    rewrite <- app_assoc, concat_app, El. simpl. rewrite drop_app_length' by (by rewrite full_length with (n := segmentSize s)).
    split; [by rewrite take_app_length|]. rewrite Fg. split; [nia|]. split; [by left|lia].
  - rewrite lookup_app_r in Hj by lia.
    destruct (j - length segs)%nat as [|n] eqn:En; [|by destruct n]. simpl in Hj. injection Hj as <-.
    assert (j = length segs) as -> by lia. rewrite concat_app. simpl. rewrite app_nil_r.
    rewrite drop_app_length' by (by rewrite full_length with (n := segmentSize s)).
    split; [by rewrite take_ge|]. split; [lia|]. split; [right; lia|done].
Qed.

Lemma doRead_spec s hist (o : nat) :
  inv s hist → (segmentOffset s * segmentSize s ≤ o ≤ length hist)%nat →
  ∃ n : nat, doRead s (Z.of_nat o) = Ok (take (n - o) (drop o hist), Z.of_nat n) ∧
    (o ≤ n ≤ length hist)%nat ∧ (o < length hist → o < n)%nat ∧
    (n = length hist ∨ n mod segmentSize s = 0)%nat.
Proof.
  intros Hi [Hlo Hhi]. pose proof (lastID_spec s hist Hi) as Hlast.
  assert (∀ P : Prop, P → ∃ n : nat, Ok (E := string) (@nil V, Z.of_nat (length hist)) =
    Ok (take (n - length hist) (drop (length hist) hist), Z.of_nat n) ∧
    (length hist ≤ n ≤ length hist)%nat ∧ (length hist < length hist → length hist < n)%nat ∧
    (n = length hist ∨ n mod segmentSize s = 0)%nat) as Hend.
  { intros _ _. exists (length hist). rewrite Nat.sub_diag, take_0.
    split; [done|]. split; [lia|]. split; [lia|by left]. }
  unfold doRead. rewrite (Length_model s hist), Hlast by done. pose proof Hi as (Hq & Hsz & _).
  case_bool_decide as E.
  { apply nil_length_inv in E. destruct Hi as (_ & _ & _ & _ & _ & He & _).
    destruct (He E) as [_ ->]. simpl in *. assert (o = 0%nat) as -> by lia. by apply (Hend True). }
  rewrite bool_decide_eq_false_2 by lia. rewrite Z.quot_div_nonneg, Z.rem_mod_nonneg by lia.
  rewrite <- Nat2Z.inj_div, <- Nat2Z.inj_mod, Nat2Z.id.
  pose proof (Nat.div_mod_eq o (segmentSize s)) as Hdm.
  pose proof (Nat.mod_upper_bound o (segmentSize s) ltac:(lia)) as Hmod.
  set (d := (o / segmentSize s)%nat) in *. set (r := (o mod segmentSize s)%nat) in *.
  assert (segmentOffset s ≤ d)%nat as Hd by nia.
  rewrite (bool_decide_eq_true_2 (Z.of_nat (segmentOffset s) ≤ Z.of_nat d)) by lia.
  rewrite <- Nat2Z.inj_sub by done.
  set (j := (d - segmentOffset s)%nat). case_bool_decide as Hj.
  - (* past the last segment: only possible at the end of the history *)
    assert (o = length hist) as ->.
    { destruct (exists_last (l := model (segments s))) as (segs & t & Hm);
        [intros E'; by rewrite E' in E|].
      pose proof (hist_length _ _ _ _ Hi Hm) as Hl. rewrite Hm, length_app in Hj. simpl in Hj.
      destruct Hi as (_ & _ & _ & _ & _ & _ & Hf & _). destruct (Hf _ _ Hm). nia. }
    by apply (Hend True).
  - destruct (lookup_lt_is_Some_2 (model (segments s)) j) as [seg Hseg]; [lia|].
    assert (Get (segments s) (Z.of_nat j) = Ok seg) as ->.
    { apply Get_spec; [done|]. exists j. split; [done|by left]. }
    destruct (segment_slice s hist j seg Hi Hseg) as (Hsl & Hb & Hfull & Hlen).
    assert ((segmentOffset s + j) = d)%nat as Ed by lia. rewrite Ed in *.
    assert (r ≤ length seg)%nat as Hr by (destruct Hfull; lia).
    simpl. rewrite bool_decide_eq_false_2 by lia.
    assert (drop r seg = take (d * segmentSize s + length seg - o) (drop o hist)) as Hitems.
    { rewrite Hsl at 1. rewrite skipn_firstn_comm, drop_drop. f_equal; [lia|f_equal; lia]. }
    destruct (drop r seg) as [|x items] eqn:Ei.
    + assert (length seg ≤ r)%nat.
      { apply (f_equal length) in Ei. rewrite length_drop in Ei. simpl in Ei. lia. }
      assert (o = length hist) as -> by (destruct Hfull; lia). by apply (Hend True).
    + exists (d * segmentSize s + length seg)%nat. rewrite <- Hitems. split.
      * do 2 f_equal. lia.
      * assert (r < length seg)%nat.
        { apply (f_equal length) in Ei. rewrite length_drop in Ei. simpl in Ei. lia. }
        repeat split; try lia. destruct Hfull as [->|?]; [right|left; lia].
        replace (d * segmentSize s + segmentSize s)%nat with (S d * segmentSize s)%nat by lia.
        apply Nat.Div0.mod_mul.
Qed.
Lemma read_all_step fuel s o acc :
  read_all (S fuel) s o acc =
    res_bind (doRead s o) (λ r, match r.1 with
                                | [] => Ok (acc, r.2)
                                | items => read_all fuel s r.2 (acc ++ items)
                                end).
Proof. done. Qed.

Lemma read_all_spec fuel s hist (o : nat) acc :
  inv s hist → (segmentOffset s * segmentSize s ≤ o ≤ length hist)%nat →
  (length hist + segmentSize s ≤ o + fuel * segmentSize s)%nat → (o mod segmentSize s = 0)%nat ∨ o = length hist →
  read_all fuel s (Z.of_nat o) acc = Ok (acc ++ drop o hist, Z.of_nat (length hist)).
Proof.
  intros Hi. pose proof Hi as (_ & Hsz & _). revert o acc.
  induction fuel as [|fuel IH]; intros o acc Ho Hf Hm; simpl in *; [lia|].
  destruct (doRead_spec s hist o Hi Ho) as (n & -> & Hn & Hlt & Hnm). simpl.
  destruct (take (n - o) (drop o hist)) as [|x items] eqn:E.
  - apply (f_equal length) in E. rewrite length_take, length_drop in E. simpl in E.
    assert (o = length hist) as -> by lia. rewrite drop_ge, app_nil_r by lia. do 2 f_equal. lia.
  - rewrite <- E. rewrite IH; [|lia| |tauto].
    + rewrite <- app_assoc. do 3 f_equal.
      replace (drop n hist) with (drop (n - o) (drop o hist)) by (rewrite drop_drop; f_equal; lia).
      apply take_drop.
    + (* a full segment was consumed, or the end was reached *)
      assert (o < n)%nat as Hon by (apply (f_equal length) in E;
        rewrite length_take, length_drop in E; simpl in E; lia).
      destruct Hnm as [->|Hnm]; [destruct fuel; nia|]. destruct Hm as [Hm| ->]; [|nia].
      apply Nat.Div0.mod_divides in Hnm. apply Nat.Div0.mod_divides in Hm.
      destruct Hnm as [a Ha], Hm as [b Hb]. subst n o.
      assert (b < a)%nat by (eapply Nat.mul_lt_mono_pos_l; eassumption).
      assert (segmentSize s * S b ≤ segmentSize s * a)%nat by (apply Nat.mul_le_mono_l; lia). lia.
Qed.

Lemma ReadAll_spec s hist (o : nat) :
  inv s hist → (segmentOffset s * segmentSize s ≤ o ≤ length hist)%nat →
  ReadAllNonBlocking s (Z.of_nat o) = Ok (drop o hist, Z.of_nat (length hist)).
Proof.
  intros Hi Ho. unfold ReadAllNonBlocking. rewrite (Length_model s hist) by done.
  set (L := length (model (segments s))). rewrite read_all_step.
  destruct (doRead_spec s hist o Hi Ho) as (n & -> & Hn & Hlt & Hnm). cbn [res_bind fst snd].
  destruct (take (n - o) (drop o hist)) as [|x items] eqn:E.
  - apply (f_equal length) in E. rewrite length_take, length_drop in E. simpl in E.
    assert (o = length hist) as -> by lia. rewrite drop_ge by lia. do 2 f_equal. lia.
  - rewrite <- E, app_nil_l. rewrite (read_all_spec (S L) s hist); [|done|lia| |tauto].
    + replace (drop n hist) with (drop (n - o) (drop o hist)) by (rewrite drop_drop; f_equal; lia).
      by rewrite take_drop.
    + destruct (decide (hist = [])) as [->|Hne]; [simpl in *; destruct Hi as (_ & ? & _); lia|].
      destruct (model_snoc s hist Hi Hne) as (segs & t & Hm).
      pose proof (hist_length _ _ _ _ Hi Hm) as Hl. unfold L. rewrite Hm, length_app. simpl.
      destruct Hi as (_ & ? & _ & _ & _ & _ & Hf & _). destruct (Hf _ _ Hm). nia.
Qed.

(** An offset that was pruned is moved to the oldest segment, which is full. *)
Lemma doRead_stale s hist (o : nat) :
  inv s hist → (o < segmentOffset s * segmentSize s)%nat →
  ∃ items, doRead s (Z.of_nat o) = Ok (items, Z.of_nat (S (segmentOffset s) * segmentSize s)) ∧ items ≠ [] ∧
    (∃ k, items ⊆ drop k hist) ∧ (S (segmentOffset s) * segmentSize s ≤ length hist)%nat.
Proof.
  intros Hi Ho. pose proof Hi as (Hq & Hsz & Hmax & _ & _ & _ & Hf & _ & Hp).
  assert (segmentOffset s ≠ 0%nat) as Hne by nia. specialize (Hp Hne).
  destruct (exists_last (l := model (segments s))) as (segs & t & Hm); [intros E; by rewrite E in Hp|].
  destruct (Hf _ _ Hm) as [Hfull _]. rewrite Hm, length_app in Hp. simpl in Hp.
  destruct segs as [|g segs]; [simpl in Hp; lia|]. apply Forall_cons in Hfull as [Hg _].
  assert (model (segments s) !! 0%nat = Some g) as Hseg by (by rewrite Hm).
  destruct (segment_slice s hist 0 g Hi Hseg) as (Hsl & Hb & _). rewrite Nat.add_0_r in *.
  unfold doRead. rewrite (Length_model s hist) by done. rewrite bool_decide_eq_false_2 by (rewrite Hm; simpl; lia).
  rewrite bool_decide_eq_false_2 by lia. rewrite Z.quot_div_nonneg, Z.rem_mod_nonneg by lia.
  rewrite <- Nat2Z.inj_div, <- Nat2Z.inj_mod, Nat2Z.id.
  pose proof (Nat.div_mod_eq o (segmentSize s)). pose proof (Nat.mod_upper_bound o (segmentSize s) ltac:(lia)).
  assert (o / segmentSize s < segmentOffset s)%nat by nia. rewrite (bool_decide_eq_false_2 (Z.of_nat (segmentOffset s) ≤ _)) by lia.
  rewrite bool_decide_eq_false_2 by (rewrite Hm; simpl; lia).
  assert (Get (segments s) 0 = Ok g) as ->.
  { apply Get_spec; [done|]. exists 0%nat. split; [done|by left]. }
  simpl. rewrite bool_decide_eq_false_2 by lia.
  destruct (drop (o mod segmentSize s) g) as [|x items] eqn:Ei.
  { apply (f_equal length) in Ei. rewrite length_drop in Ei. simpl in Ei. lia. }
  exists (x :: items). split; [do 2 f_equal; lia|]. split; [done|]. split; [|lia].
  exists (segmentOffset s * segmentSize s + o mod segmentSize s)%nat. rewrite <- Ei. rewrite Hsl at 1.
  rewrite skipn_firstn_comm, drop_drop. apply subseteq_take.
Qed.

(** From any offset up to the last id the loop ends at the last id, with items
    of the history. *)
Lemma ReadAll_any s hist (o : nat) :
  inv s hist → (o ≤ length hist)%nat →
  ∃ items, ReadAllNonBlocking s (Z.of_nat o) = Ok (items, Z.of_nat (length hist)) ∧ items ⊆ hist.
Proof.
  intros Hi Ho. destruct (decide (segmentOffset s * segmentSize s ≤ o)%nat) as [Hr|Hr].
  - exists (drop o hist). split; [by apply ReadAll_spec|apply subseteq_drop].
  - destruct (doRead_stale s hist o Hi) as (items & E & Hne & (k & Hk) & Hb); [lia|].
    unfold ReadAllNonBlocking. rewrite read_all_step, E. cbn [res_bind fst snd]. destruct items as [|x items]; [done|].
    rewrite app_nil_l. rewrite (Length_model s hist) by done.
    rewrite (read_all_spec _ s hist); [|done|lia| |left; apply Nat.Div0.mod_mul].
    + eexists. split; [done|]. apply list_subseteq_app_iff_l. split; [|apply subseteq_drop].
      etrans; [exact Hk|apply subseteq_drop].
    + destruct (decide (hist = [])) as [->|Hnil]; [simpl in *; lia|].
      destruct (model_snoc s hist Hi Hnil) as (segs & t & Hm). pose proof (hist_length _ _ _ _ Hi Hm) as Hl.
      rewrite Hm, length_app. simpl. destruct Hi as (_ & ? & _ & _ & _ & _ & Hf & _). destruct (Hf _ _ Hm). nia.
Qed.

(** Every call sequence that builds a stream: Add of non-empty batches. *)
Fixpoint add_batches (s : Stream) (batches : list (list V)) : res string Stream :=
  match batches with
  | [] => Ok s
  | b :: bs => let! r := Add s b in add_batches r.2 bs
  end.

Lemma add_batches_spec bs s hist :
  inv s hist →
  ∃ s', add_batches s bs = Ok s' ∧ inv s' (hist ++ concat bs) ∧
        segmentSize s' = segmentSize s ∧ maxSegments s' = maxSegments s.
Proof.
  revert s hist. induction bs as [|b bs IH]; intros s hist Hi; simpl.
  - exists s. by rewrite app_nil_r.
  - assert (∃ id s1, Add s b = Ok (id, s1) ∧ inv s1 (hist ++ b) ∧
      segmentSize s1 = segmentSize s ∧ maxSegments s1 = maxSegments s) as (id & s1 & -> & Hi1 & E1 & E2).
    { destruct b as [|v b]; [exists 0, s; by rewrite app_nil_r|].
      destruct (add_all_spec (v :: b) s hist Hi) as (s1 & Ha & Hi1 & ? & ?).
      eexists _, s1. unfold Add. rewrite Ha. simpl. rewrite (lastID_spec _ _ Hi1). by simpl. }
    simpl. destruct (IH s1 _ Hi1) as (s2 & -> & Hi2 & E3 & E4). exists s2.
    rewrite <- app_assoc in Hi2. by rewrite E3, E4.
Qed.

Lemma retained_spec s hist :
  inv s hist → (Nat.min (length hist) (maxSegments s * segmentSize s)
    ≤ length hist - segmentOffset s * segmentSize s)%nat.
Proof.
  intros Hi. destruct (decide (segmentOffset s = 0%nat)) as [->|Hne]; [lia|].
  destruct (decide (hist = [])) as [->|Hnil]; [simpl; lia|].
  destruct (model_snoc s hist Hi Hnil) as (segs & t & Hm).
  pose proof (hist_length _ _ _ _ Hi Hm) as Hl.
  destruct Hi as (_ & _ & _ & _ & _ & _ & _ & _ & Hp). specialize (Hp Hne).
  rewrite Hm, length_app in Hp. simpl in Hp. replace (length segs) with (maxSegments s) in Hl by lia. nia.
Qed.
End stream.

(** ** Properties *)



(** Reading from an offset that has been pruned loses retained items: the
    remainder of the stale offset is applied to the oldest segment, so with
    segments of four items a reader at offset 3 of a stream that holds items 5
    to 16 is given items 8 to 16 and never sees 5, 6 and 7. *)
Theorem stale_offset_skips_retained :
  ∃ s0 s : Stream (V := nat),
    NewStream 4 8 = Ok s0 ∧ add_batches s0 [seq 1 4; seq 5 4; seq 9 4; seq 13 4] = Ok s ∧
    concat (model (segments s)) = seq 5 12 ∧
    ReadAllNonBlocking s 3 = Ok (seq 8 9, 16).
Proof.
  eexists _, _. split; [vm_compute; reflexivity|]. split; [vm_compute; reflexivity|].
  split; vm_compute; reflexivity.
Qed.

(** ** The condition variable (cond.go) and blocked readers *)

(** A channel is a generation number: Broadcast closes the current one and
    installs the next.  A reader evaluates doRead under the read lock, releases
    it, then Wait picks up the current channel and blocks until it is closed.
    [added] counts the items of the stream, [seen] the reader's offset. *)
Inductive reader_pc :=
| Reading              (* holds the read lock, about to call doRead *)
| Released             (* RUnlock done, before Cond.Wait loads c.ch *)
| Waiting (ch : nat).  (* blocked on <-ch *)

(** Broadcast closes channel [ch] and installs a fresh one. *)
Definition Broadcast (ch : nat) : nat := (ch + 1)%nat.

Record rstate := mkR { added : nat; seen : nat; chan : nat; pc : reader_pc }.

Inductive rstep : rstate → rstate → Prop :=
| step_add n r : pc r ≠ Reading → (* Add needs the write lock *)
    (0 < n)%nat → rstep r (mkR (added r + n) (seen r) (Broadcast (chan r)) (pc r))
| step_read r : pc r = Reading → (seen r < added r)%nat →
    rstep r (mkR (added r) (added r) (chan r) Reading)
| step_read_empty r : pc r = Reading → seen r = added r →
    rstep r (mkR (added r) (seen r) (chan r) Released)
| step_wait r : pc r = Released →
    rstep r (mkR (added r) (seen r) (chan r) (Waiting (chan r)))
| step_wake r ch : pc r = Waiting ch → (ch < chan r)%nat →
    rstep r (mkR (added r) (seen r) (chan r) Reading).

Definition rinit : rstate := mkR 0 0 0 Reading.

Definition reachable : rstate → Prop := rtc rstep rinit.

(** A reader blocked on a live channel can only be released by another Add. *)
Definition blocked (r : rstate) : Prop := pc r = Waiting (chan r).

(** The wake-up can be lost: an Add that runs between the reader's release
    of the lock and its wait leaves the reader blocked on the new channel while
    an unread item is in the stream, and only a further Add releases it. *)
Theorem lost_wakeup_reachable :
  ∃ r, reachable r ∧ blocked r ∧ (seen r < added r)%nat ∧
       ∀ r', rstep r r' → (added r < added r')%nat.
Proof.
  exists (mkR 1 0 1 (Waiting 1)). split; [|split; [done|split; [simpl; lia|]]].
  - eapply rtc_l; [by apply step_read_empty|]. eapply rtc_l; [by apply (step_add 1); simpl; [|lia]|].
    eapply rtc_l; [by apply step_wait|]. simpl. apply rtc_refl.
  - inversion 1; simplify_eq/=; try lia; done.
Qed.

(** Nothing else goes wrong with blocked readers: in every reachable state
    the reader is not ahead of the stream, and a blocked reader with nothing
    unread is woken by the very next Add. *)
Theorem reader_never_ahead r :
  reachable r →
  (seen r ≤ added r)%nat ∧ (∀ ch, pc r = Waiting ch → (ch ≤ chan r)%nat) ∧
  (∀ r1 n, blocked r → r1 = mkR (added r + n) (seen r) (Broadcast (chan r)) (pc r) →
     rstep r1 (mkR (added r1) (seen r1) (chan r1) Reading)).
Proof.
  intros Hr. assert ((seen r ≤ added r)%nat ∧ ∀ ch, pc r = Waiting ch → (ch ≤ chan r)%nat) as [H1 H2].
  { revert r Hr. apply (rtc_ind_r (λ r, (seen r ≤ added r)%nat ∧
      ∀ ch, pc r = Waiting ch → (ch ≤ chan r)%nat) rinit); [by split|].
    intros y z _ Hs [I1 I2]. inversion Hs; simplify_eq/=; split; try lia; intros c Hc; try done.
    - specialize (I2 _ Hc). unfold Broadcast. lia.
    - injection Hc as <-. lia. }
  split; [done|]. split; [done|]. intros r1 n Hb ->. unfold blocked in Hb. simpl.
  apply (step_wake (mkR (added r + n) (seen r) (Broadcast (chan r)) (pc r)) (chan r));
    unfold Broadcast; simpl; [done|lia].
Qed.

Lemma reader_never_ahead_witness :
  (seen (mkR 0 0 0 (Waiting 0)) ≤ added (mkR 0 0 0 (Waiting 0)))%nat.
Proof.
  refine (proj1 (reader_never_ahead (mkR 0 0 0 (Waiting 0)) _)).
  eapply rtc_l; [by apply step_read_empty|]. eapply rtc_l; [by apply step_wait|]. apply rtc_refl.
Defined.

End Stream.
