(* ===== verification/Tracker.v ===== *)
(** * The sync status tracker (src/internal/syncstatus/tracker.go)

    The state behind GET /status/sync.  Every method locks the tracker, so a
    run of the program is a sequence of method calls; the clock reading of a
    call (time.Now, in nanoseconds) is an argument.  The float64 rates of a
    snapshot are given by the operands of their divisions. *)

From S2P Require Import Prelude.

Module Tracker.

Record Range := mkRange { RangeStart : Z; RangeEnd : Z }.

Record Segment := mkSegment {
  Type_ : string; SegStart : Z; SegEnd : option Z; Cursor : Z }.

Record CacheCounters := mkCounters { Hits : Z; Misses : Z; LiveFallbacks : Z }.

Record Tracker := mkTracker {
  threads : Z;
  phase : string;
  startedAt : Z;
  updatedAt : Z;
  earliestBlock : Z;
  chainHead : Z;
  lastSyncedBlock : Z;
  lastSyncedAt : option Z;       (* the zero time is None *)
  blocksProcessed : Z;
  blocksIndexed : Z;
  gapsTotal : Z;
  gapsRemaining : Z;
  currentSegment : option Segment;
  lastSyncedSegment : option Segment;
  recentBlocks : list Z;
  txByHash : CacheCounters;
  txByIndex : CacheCounters;
  receipt : CacheCounters;
  blockLogs : CacheCounters }.

Definition zero_counters : CacheCounters := mkCounters 0 0 0.

Definition NewTracker (now threads earliest : Z) : Tracker :=
  mkTracker threads "idle" now now earliest 0 (-1) None 0 0 0 0 None None []
    zero_counters zero_counters zero_counters zero_counters.

(** Field updates: every setter also stamps [updatedAt]. *)
Definition upd_phase (t : Tracker) (p : string) (now : Z) : Tracker :=
  let 'mkTracker th _ sa _ eb ch ls la bp bi gt gr cs lss rb a b c d := t in
  mkTracker th p sa now eb ch ls la bp bi gt gr cs lss rb a b c d.
Definition upd_bounds (t : Tracker) (eb ch : Z) (now : Z) : Tracker :=
  let 'mkTracker th p sa _ _ _ ls la bp bi gt gr cs lss rb a b c d := t in
  mkTracker th p sa now eb ch ls la bp bi gt gr cs lss rb a b c d.
Definition upd_gaps (t : Tracker) (gt gr : Z) (now : Z) : Tracker :=
  let 'mkTracker th p sa _ eb ch ls la bp bi _ _ cs lss rb a b c d := t in
  mkTracker th p sa now eb ch ls la bp bi gt gr cs lss rb a b c d.
Definition upd_segments (t : Tracker) (cs lss : option Segment) (now : Z) : Tracker :=
  let 'mkTracker th p sa _ eb ch ls la bp bi gt gr _ _ rb a b c d := t in
  mkTracker th p sa now eb ch ls la bp bi gt gr cs lss rb a b c d.
Definition upd_counters (t : Tracker) (a b c d : CacheCounters) : Tracker :=
  let 'mkTracker th p sa ua eb ch ls la bp bi gt gr cs lss rb _ _ _ _ := t in
  mkTracker th p sa ua eb ch ls la bp bi gt gr cs lss rb a b c d.

(** ** Methods *)

Definition SetPhase (t : Tracker) (p : string) (now : Z) : Tracker := upd_phase t p now.

Definition SetEarliestBlock (t : Tracker) (height now : Z) : Tracker :=
  upd_bounds t height (chainHead t) now.

Definition SetChainHead (t : Tracker) (height now : Z) : Tracker :=
  upd_bounds t (earliestBlock t) height now.

Definition SetGaps (t : Tracker) (gaps : list Range) (now : Z) : Tracker :=
  upd_gaps t (Z.of_nat (length gaps)) (Z.of_nat (length gaps)) now.

Definition StartSegment (t : Tracker) (kind : string) (start : Z) (end_ : option Z) (now : Z) : Tracker :=
  upd_segments t (Some (mkSegment kind start end_ (int64 (start - 1)))) (lastSyncedSegment t) now.

Definition dec_gaps (t : Tracker) : Z :=
  if bool_decide (0 < gapsRemaining t) then gapsRemaining t - 1 else gapsRemaining t.

Definition CompleteCurrentSegment (t : Tracker) (now : Z) : Tracker :=
  match currentSegment t with
  | Some cp =>
      let t := upd_segments t (currentSegment t) (Some cp) now in
      let t := if bool_decide (Type_ cp = "gap"%string)
               then upd_gaps t (gapsTotal t) (dec_gaps t) now else t in
      upd_segments t None (lastSyncedSegment t) now
  | None => upd_segments t None (lastSyncedSegment t) now
  end.

Definition CompleteGap (t : Tracker) (start end_ now : Z) : Tracker :=
  let t := upd_segments t (currentSegment t) (Some (mkSegment "gap" start (Some end_) end_)) now in
  upd_gaps t (gapsTotal t) (dec_gaps t) now.

(** 30 * time.Second *)
Definition recent_window : Z := 30 * 1000000000.

(** The loop over keepFrom: drop the leading entries before the cutoff. *)
Fixpoint drop_before (cutoff : Z) (l : list Z) : list Z :=
  match l with
  | [] => []
  | x :: l' => if bool_decide (x < cutoff) then drop_before cutoff l' else l
  end.

Definition advance_cursor (s : option Segment) (height : Z) : option Segment :=
  match s with
  | Some g => if bool_decide (Cursor g < height)
              then Some (mkSegment (Type_ g) (SegStart g) (SegEnd g) height) else Some g
  | None => None
  end.

Definition MarkBlock (t : Tracker) (height : Z) (indexed : bool) (now : Z) : Tracker :=
  let 'mkTracker th p sa _ eb ch ls _ bp bi gt gr cs lss rb a b c d := t in
  mkTracker th p sa now eb
    (if bool_decide (ch < height) then height else ch)
    (if bool_decide (ls < height) then height else ls)
    (Some now) (int64 (bp + 1)) (if indexed then int64 (bi + 1) else bi) gt gr
    (advance_cursor cs height) lss
    (drop_before (now - recent_window) (rb ++ [now])) a b c d.

(** atomic.Uint64.Add(1) *)
Definition bump_hit (c : CacheCounters) : CacheCounters :=
  mkCounters (uint64 (Hits c + 1)) (Misses c) (LiveFallbacks c).
Definition bump_miss (c : CacheCounters) : CacheCounters :=
  mkCounters (Hits c) (uint64 (Misses c + 1)) (LiveFallbacks c).
Definition bump_fallback (c : CacheCounters) : CacheCounters :=
  mkCounters (Hits c) (Misses c) (uint64 (LiveFallbacks c + 1)).

Definition RecordTxByHashCacheHit (t : Tracker) : Tracker :=
  upd_counters t (bump_hit (txByHash t)) (txByIndex t) (receipt t) (blockLogs t).
Definition RecordTxByHashCacheMiss (t : Tracker) : Tracker :=
  upd_counters t (bump_miss (txByHash t)) (txByIndex t) (receipt t) (blockLogs t).
Definition RecordTxByHashLiveFallback (t : Tracker) : Tracker :=
  upd_counters t (bump_fallback (txByHash t)) (txByIndex t) (receipt t) (blockLogs t).
Definition RecordTxByIndexCacheHit (t : Tracker) : Tracker :=
  upd_counters t (txByHash t) (bump_hit (txByIndex t)) (receipt t) (blockLogs t).
Definition RecordTxByIndexCacheMiss (t : Tracker) : Tracker :=
  upd_counters t (txByHash t) (bump_miss (txByIndex t)) (receipt t) (blockLogs t).
Definition RecordTxByIndexLiveFallback (t : Tracker) : Tracker :=
  upd_counters t (txByHash t) (bump_fallback (txByIndex t)) (receipt t) (blockLogs t).
Definition RecordReceiptCacheHit (t : Tracker) : Tracker :=
  upd_counters t (txByHash t) (txByIndex t) (bump_hit (receipt t)) (blockLogs t).
Definition RecordReceiptCacheMiss (t : Tracker) : Tracker :=
  upd_counters t (txByHash t) (txByIndex t) (bump_miss (receipt t)) (blockLogs t).
Definition RecordReceiptLiveFallback (t : Tracker) : Tracker :=
  upd_counters t (txByHash t) (txByIndex t) (bump_fallback (receipt t)) (blockLogs t).
Definition RecordBlockLogsCacheHit (t : Tracker) : Tracker :=
  upd_counters t (txByHash t) (txByIndex t) (receipt t) (bump_hit (blockLogs t)).
Definition RecordBlockLogsCacheMiss (t : Tracker) : Tracker :=
  upd_counters t (txByHash t) (txByIndex t) (receipt t) (bump_miss (blockLogs t)).
Definition RecordBlockLogsLiveFallback (t : Tracker) : Tracker :=
  upd_counters t (txByHash t) (txByIndex t) (receipt t) (bump_fallback (blockLogs t)).

(** ** Snapshots *)

(** A rate: numerator and denominator of the float64 division, 0 when the
    code leaves the field at its zero value. *)
Definition rate : Type := option (Z * Z).

Record CacheLookupStats := mkStats { StatHits : Z; StatMisses : Z; StatFallbacks : Z; HitRatio : rate }.

Definition cacheLookupStats (c : CacheCounters) : CacheLookupStats :=
  let total := uint64 (Hits c + Misses c) in
  mkStats (Hits c) (Misses c) (LiveFallbacks c)
    (if bool_decide (0 < total) then Some (Hits c, total) else None).

Record Snapshot := mkSnapshot {
  SThreads : Z; SPhase : string; SStartedAt : Z; SUpdatedAt : Z; SEarliestBlock : Z;
  SChainHead : Z; SLastSyncedBlock : Z; SLastSyncedAt : option Z;
  SBlocksProcessed : Z; SBlocksIndexed : Z; SBlocksPerSecond : rate; SAvgBlocksPerSec : rate;
  SGapsTotal : Z; SGapsRemaining : Z;
  SCurrentSegment : option Segment; SLastSyncedSegment : option Segment;
  STxByHash : CacheLookupStats; STxByIndex : CacheLookupStats;
  SReceiptByHash : CacheLookupStats; SBlockLogs : CacheLookupStats }.

Definition recent_rate (l : list Z) : rate :=
  match l, last l with
  | first :: _ :: _, Some final =>
      let span := final - first in
      if bool_decide (0 < span) then Some (Z.of_nat (length l) - 1, span) else None
  | _, _ => None
  end.

Definition TakeSnapshot (t : Tracker) (now : Z) : Snapshot :=
  let elapsed := now - startedAt t in
  mkSnapshot (threads t) (phase t) (startedAt t) (updatedAt t) (earliestBlock t)
    (chainHead t) (lastSyncedBlock t) (lastSyncedAt t)
    (blocksProcessed t) (blocksIndexed t) (recent_rate (recentBlocks t))
    (if bool_decide (0 < elapsed) then Some (blocksProcessed t, elapsed) else None)
    (gapsTotal t) (gapsRemaining t) (currentSegment t) (lastSyncedSegment t)
    (cacheLookupStats (txByHash t)) (cacheLookupStats (txByIndex t))
    (cacheLookupStats (receipt t)) (cacheLookupStats (blockLogs t)).

(** ** Runs: sequences of state-changing calls *)

Inductive lookup := LTxByHash | LTxByIndex | LReceipt | LBlockLogs.
Inductive outcome := OHit | OMiss | OFallback.

Inductive call :=
| CSetPhase (p : string) (now : Z)
| CSetEarliest (h now : Z)
| CSetHead (h now : Z)
| CSetGaps (gaps : list Range) (now : Z)
| CStart (kind : string) (start : Z) (end_ : option Z) (now : Z)
| CComplete (now : Z)
| CCompleteGap (start end_ now : Z)
| CMark (height : Z) (indexed : bool) (now : Z)
| CRecord (l : lookup) (o : outcome).

Definition record (t : Tracker) (l : lookup) (o : outcome) : Tracker :=
  match l, o with
  | LTxByHash, OHit => RecordTxByHashCacheHit t
  | LTxByHash, OMiss => RecordTxByHashCacheMiss t
  | LTxByHash, OFallback => RecordTxByHashLiveFallback t
  | LTxByIndex, OHit => RecordTxByIndexCacheHit t
  | LTxByIndex, OMiss => RecordTxByIndexCacheMiss t
  | LTxByIndex, OFallback => RecordTxByIndexLiveFallback t
  | LReceipt, OHit => RecordReceiptCacheHit t
  | LReceipt, OMiss => RecordReceiptCacheMiss t
  | LReceipt, OFallback => RecordReceiptLiveFallback t
  | LBlockLogs, OHit => RecordBlockLogsCacheHit t
  | LBlockLogs, OMiss => RecordBlockLogsCacheMiss t
  | LBlockLogs, OFallback => RecordBlockLogsLiveFallback t
  end.

Definition do_call (t : Tracker) (c : call) : Tracker :=
  match c with
  | CSetPhase p now => SetPhase t p now
  | CSetEarliest h now => SetEarliestBlock t h now
  | CSetHead h now => SetChainHead t h now
  | CSetGaps gaps now => SetGaps t gaps now
  | CStart k s e now => StartSegment t k s e now
  | CComplete now => CompleteCurrentSegment t now
  | CCompleteGap s e now => CompleteGap t s e now
  | CMark h i now => MarkBlock t h i now
  | CRecord l o => record t l o
  end.

Definition run (t : Tracker) (cs : list call) : Tracker := foldl do_call t cs.

Definition marks (cs : list call) : list (Z * bool * Z) :=
  omap (λ c, match c with CMark h i now => Some (h, i, now) | _ => None end) cs.

(** ** Lemmas *)

Lemma run_snoc t cs c : run t (cs ++ [c]) = do_call (run t cs) c.
Proof. unfold run. by rewrite foldl_app. Qed.

Lemma marks_snoc cs c : marks (cs ++ [c]) = marks cs ++ marks [c].
Proof. unfold marks. apply omap_app. Qed.

(** Calls other than MarkBlock leave the block statistics alone. *)
Lemma other_call_stats t c :
  marks [c] = [] →
  lastSyncedBlock (do_call t c) = lastSyncedBlock t ∧
  blocksProcessed (do_call t c) = blocksProcessed t ∧
  blocksIndexed (do_call t c) = blocksIndexed t ∧
  recentBlocks (do_call t c) = recentBlocks t.
Proof.
  destruct c as [| | | | | | | |l o]; intros Hm; try discriminate Hm; destruct t; simpl; try done.
  - unfold CompleteCurrentSegment; simpl. destruct currentSegment0 as [g|]; simpl; [|done].
    by case_bool_decide.
  - by destruct l, o.
Qed.

Definition count_indexed (l : list (Z * bool * Z)) : Z :=
  Z.of_nat (length (filter (λ m : Z * bool * Z, m.1.2 = true) l)).

Lemma marked_snoc_bounds (l : list (Z * bool * Z)) m :
  Z.of_nat (length (l ++ [m])) < 2 ^ 63 → Z.of_nat (length l) + 1 < 2 ^ 63.
Proof. rewrite length_app. simpl. lia. Qed.

Lemma filter_indexed_snoc (l : list (Z * bool * Z)) h i now :
  count_indexed (l ++ [(h, i, now)]) = count_indexed l + (if i then 1 else 0).
Proof.
  unfold count_indexed. rewrite filter_app, length_app.
  rewrite filter_cons, filter_nil. case_decide as E; simpl in *; destruct i; try done; simpl; lia.
Qed.

Lemma count_indexed_bound l : 0 ≤ count_indexed l ≤ Z.of_nat (length l).
Proof. unfold count_indexed. pose proof (length_filter (λ m : Z * bool * Z, m.1.2 = true) l). lia. Qed.

Lemma MarkBlock_call t h i now :
  lastSyncedBlock (MarkBlock t h i now) = Z.max (lastSyncedBlock t) h ∧
  blocksProcessed (MarkBlock t h i now) = int64 (blocksProcessed t + 1) ∧
  blocksIndexed (MarkBlock t h i now) =
    (if i then int64 (blocksIndexed t + 1) else blocksIndexed t) ∧
  recentBlocks (MarkBlock t h i now) =
    drop_before (now - recent_window) (recentBlocks t ++ [now]).
Proof. destruct t; simpl. repeat split; try done. case_bool_decide; lia. Qed.

Lemma run_stats now0 th eb cs :
  let t := run (NewTracker now0 th eb) cs in
  Z.of_nat (length (marks cs)) < 2 ^ 63 →
  lastSyncedBlock t = foldl Z.max (-1) ((λ m : Z * bool * Z, m.1.1) <$> marks cs) ∧
  blocksProcessed t = Z.of_nat (length (marks cs)) ∧
  blocksIndexed t = count_indexed (marks cs).
Proof.
  induction cs as [|c cs IH] using rev_ind; simpl; intros Hlen; [done|].
  rewrite run_snoc, marks_snoc in *. destruct (marks [c]) as [|m l] eqn:Em.
  - rewrite app_nil_r in *. destruct (other_call_stats (run (NewTracker now0 th eb) cs) c Em)
      as (-> & -> & -> & _). by apply IH.
  - destruct c; try discriminate Em. simpl in Em. injection Em as <- <-.
    rewrite length_app in Hlen. simpl in Hlen.
    destruct IH as (I1 & I2 & I3); [lia|]. cbn [do_call].
    destruct (MarkBlock_call (run (NewTracker now0 th eb) cs) height indexed now) as (-> & -> & -> & _).
    rewrite fmap_app, foldl_app, filter_indexed_snoc, length_app, I1, I2, I3. simpl.
    pose proof (count_indexed_bound (marks cs)). split; [done|].
    split; [rewrite int64_small; [lia|gate_ints; lia]|].
    destruct indexed; [rewrite int64_small; [lia|gate_ints; lia]|lia].
Qed.

(** Gap counters: only SetGaps raises them, completions lower the remainder
    and stop at zero. *)
Definition gaps_ok (t : Tracker) : Prop := 0 ≤ gapsRemaining t ≤ gapsTotal t.

Lemma do_call_gaps t c : gaps_ok t → gaps_ok (do_call t c).
Proof.
  unfold gaps_ok. intros Hg. destruct c as [| | | | | | | |l o]; destruct t; simpl in *; try done; try lia.
  - unfold CompleteCurrentSegment; simpl. destruct currentSegment0 as [g|]; simpl; [|done].
    case_bool_decide; simpl; [|done]. unfold dec_gaps; simpl. case_bool_decide; lia.
  - unfold dec_gaps; simpl. case_bool_decide; lia.
  - by destruct l, o.
Qed.

(** The recent window. *)
Lemma filter_true_all {A} (P : A → Prop) `{!∀ x, Decision (P x)} l : Forall P l → filter P l = l.
Proof. induction 1 as [|x l Hx _ IH]; [done|]. rewrite filter_cons_True by done. by rewrite IH. Qed.

Lemma drop_before_sorted c l :
  StronglySorted Z.le l → drop_before c l = filter (λ x, c ≤ x) l.
Proof.
  induction 1 as [|x l Hs IH Hx]; simpl; [done|]. rewrite filter_cons.
  case_bool_decide; case_decide; try lia; [done|].
  f_equal. symmetry. apply filter_true_all. eapply Forall_impl; [exact Hx|]. simpl. lia.
Qed.

Lemma StronglySorted_filter (l : list Z) P `{!∀ x : Z, Decision (P x)} :
  StronglySorted Z.le l → StronglySorted Z.le (filter P l).
Proof.
  induction 1 as [|x l Hs IH Hx]; [constructor|]. rewrite filter_cons. case_decide; [|done].
  constructor; [done|]. rewrite Forall_forall in *. intros y [_ Hy]%list_elem_of_filter. by apply Hx.
Qed.

Definition mark_times (cs : list call) : list Z := snd <$> marks cs.

Lemma run_recent now0 th eb cs final :
  StronglySorted Z.le (mark_times cs) → last (mark_times cs) = Some final →
  recentBlocks (run (NewTracker now0 th eb) cs) =
    filter (λ x, final - recent_window ≤ x) (mark_times cs).
Proof.
  unfold mark_times. revert final. induction cs as [|c cs IH] using rev_ind; intros final Hs Hl; [done|].
  rewrite run_snoc, marks_snoc in *. destruct (marks [c]) as [|m l] eqn:Em.
  - rewrite app_nil_r in *. destruct (other_call_stats (run (NewTracker now0 th eb) cs) c Em)
      as (_ & _ & _ & ->). by apply IH.
  - destruct c; try discriminate Em. simpl in Em. injection Em as <- <-.
    rewrite fmap_app in *. simpl in *. rewrite last_snoc in Hl. injection Hl as ->.
    destruct (MarkBlock_call (run (NewTracker now0 th eb) cs) height indexed final) as (_ & _ & _ & ->).
    apply StronglySorted_app in Hs as (Hx & Hs & _).
    destruct (last (marks cs).*2) as [prev|] eqn:El.
    + rewrite (IH prev) by done.
      assert (prev ≤ final) as Hle.
      { apply Hx; [|by left]. by apply last_Some_elem_of. }
      rewrite drop_before_sorted.
      * rewrite !filter_app. f_equal. apply list_filter_filter_l. intros x. simpl. lia.
      * apply StronglySorted_app_2; [|by apply StronglySorted_filter|by repeat constructor].
        intros a b [_ Ha]%list_elem_of_filter Hb. by apply Hx.
    + apply last_None in El. rewrite El.
      assert (marks cs = []) as Hnil by (by apply fmap_nil_inv in El).
      assert (recentBlocks (run (NewTracker now0 th eb) cs) = []) as ->.
      { clear -Hnil. induction cs as [|c cs IH] using rev_ind; [done|].
        rewrite marks_snoc in Hnil. apply app_nil in Hnil as [H1 H2]. rewrite run_snoc.
        destruct (other_call_stats (run (NewTracker now0 th eb) cs) c H2) as (_ & _ & _ & ->). by apply IH. }
      simpl. unfold recent_window. rewrite bool_decide_eq_false_2 by lia.
      rewrite filter_cons_True by lia. done.
Qed.

(** ** Properties *)

(** The reported progress is the history of MarkBlock calls: after any
    sequence of tracker calls the last synced block is the greatest marked
    height (or -1), the processed and indexed counters are the numbers of marks
    and of marks of indexed blocks, and at all times 0 <= gaps_remaining <=
    gaps_total. *)
Theorem tracker_progress now threads earliest cs :
  Z.of_nat (length (marks cs)) < 2 ^ 63 →
  let t := run (NewTracker now threads earliest) cs in
  lastSyncedBlock t = foldl Z.max (-1) ((λ m : Z * bool * Z, m.1.1) <$> marks cs) ∧
  blocksProcessed t = Z.of_nat (length (marks cs)) ∧
  blocksIndexed t = count_indexed (marks cs) ∧
  0 ≤ blocksIndexed t ≤ blocksProcessed t ∧ gaps_ok t.
Proof.
  intros Hlen t. destruct (run_stats now threads earliest cs Hlen) as (E0 & E1 & E2).
  split; [done|]. split; [done|]. split; [done|]. split.
  - unfold t. rewrite E1, E2. apply count_indexed_bound.
  - unfold t, run. clear. assert (gaps_ok (NewTracker now threads earliest)) as H0 by done.
    revert H0. generalize (NewTracker now threads earliest).
    induction cs as [|c cs IH]; intros t Ht; simpl; [done|]. by apply IH, do_call_gaps.
Qed.

Lemma tracker_progress_witness :
  lastSyncedBlock (run (NewTracker 0 4 1)
    [CSetGaps [mkRange 1 9] 1; CStart "gap" 1 (Some 9) 1; CMark 5 true 2; CMark 3 false 3; CComplete 4]) = 5.
Proof.
  refine (proj1 (tracker_progress 0 4 1
    [CSetGaps [mkRange 1 9] 1; CStart "gap" 1 (Some 9) 1; CMark 5 true 2; CMark 3 false 3; CComplete 4] _)).
  simpl. lia.
Defined.

(** With a clock that does not go back, the recent-blocks window holds
    exactly the marks of the 30 seconds up to the last mark: none of them is
    dropped early and no older one is kept. *)
Theorem tracker_recent_window now threads earliest cs final :
  StronglySorted Z.le (mark_times cs) → last (mark_times cs) = Some final →
  recentBlocks (run (NewTracker now threads earliest) cs) =
    filter (λ x, final - recent_window ≤ x) (mark_times cs).
Proof. apply run_recent. Qed.

Lemma tracker_recent_window_witness :
  recentBlocks (run (NewTracker 0 1 1) [CMark 1 true 5; CMark 2 true 6; CMark 3 true 30000000006]) =
    [6; 30000000006].
Proof.
  refine (eq_trans (tracker_recent_window 0 1 1
    [CMark 1 true 5; CMark 2 true 6; CMark 3 true 30000000006] 30000000006 _ _) _).
  - vm_compute. repeat constructor; discriminate.
  - reflexivity.
  - vm_compute; reflexivity.
Defined.

End Tracker.
