(* ===== verification/ParsedTx.v ===== *)
(** * Ethereum transactions parsed from ABCI results

    src/internal/evm/rpc/types/parsed_tx.go: the ethereum_tx events of a
    transaction result, the error log of a failed message, and the lookups the
    backend and the indexer make on the parsed list. *)

From Stdlib Require Import Ascii String.
From S2P Require Import Prelude Bytes GoLib EthTypes EthInstances.
From stdpp Require Import strings list.
#[local] Open Scope Z_scope.

Module ParsedTx.
Import GoLib EthTypes.

(** ** Data *)

Record ParsedTx := mkParsedTx {
  MsgIndex : Z;
  Hash_ : Hash;
  EthTxIndex : Z;
  GasUsed : Z;
  Failed : bool;
  Reason : string;
  VMError : string;
}.
#[global] Instance ParsedTx_eq_dec : EqDecision ParsedTx.
Proof. solve_decision. Defined.

Definition EthTxIndexUnitialized : Z := -1.

Definition NewParsedTx (msgIndex : Z) : ParsedTx :=
  mkParsedTx msgIndex zero_hash EthTxIndexUnitialized 0 false "" "".

Record ParsedTxs := mkParsedTxs {
  Txs : list ParsedTx;
  TxHashes : gmap Hash Z;
}.

Record abciLogVMError := mkVMError {
  vme_Hash : string;
  vme_GasUsed : Z;
  vme_Reason : string;
  vme_VMError : string;
  vme_Ret : bytes;
}.

(** sonic.Unmarshal and json.Unmarshal into an abciLogVMError *)
Class LogJSON := {
  sonic_Unmarshal_vmError : bytes → res string abciLogVMError;
  json_Unmarshal_vmError : bytes → res string abciLogVMError;
}.

(** ** The log pattern

    msgErrJSONRx: the literal text, one or more decimal digits, a colon and a
    space, then everything up to the end of the line.  The digits are followed
    by a colon, so the greedy group has one way to match. *)

Fixpoint span_digits (s : string) : string * string :=
  match s with
  | EmptyString => (EmptyString, EmptyString)
  | String c s' =>
      match digit_value c with
      | Some _ => let '(d, r) := span_digits s' in (String c d, r)
      | None => (EmptyString, s)
      end
  end.

Definition newline : ascii := "010"%char.

Fixpoint to_line_end (s : string) : string :=
  match s with
  | EmptyString => EmptyString
  | String c s' => if bool_decide (c = newline) then EmptyString else String c (to_line_end s')
  end.

Definition strip_prefix (p s : string) : option string :=
  if String.prefix p s then Some (String.substring (String.length p) (String.length s - String.length p) s)
  else None.

Definition msgErrText : string := "failed to execute message; message index: ".

(** The two groups of a match that starts at the head of [s]. *)
Definition msgErr_at (s : string) : option (string * string) :=
  match strip_prefix msgErrText s with
  | None => None
  | Some r =>
      let '(digits, r) := span_digits r in
      match digits with
      | EmptyString => None
      | _ => match strip_prefix ": " r with
             | Some rest => Some (digits, to_line_end rest)
             | None => None
             end
      end
  end.

(** FindStringSubmatch: the leftmost match. *)
Fixpoint msgErrJSONRx (s : string) : option (string * string) :=
  match msgErr_at s with
  | Some m => Some m
  | None => match s with
            | EmptyString => None
            | String _ s' => msgErrJSONRx s'
            end
  end.

Section ops.
Context {EL : EthLib} {CL : ChainLib} {LJ : LogJSON}.

(** ** Event attributes *)

Definition fillTxAttribute (tx : ParsedTx) (key value : string) : res error ParsedTx :=
  if bool_decide (key = AttributeKeyEthereumTxHash) then
    Ok (mkParsedTx (MsgIndex tx) (HexToHash value) (EthTxIndex tx) (GasUsed tx)
          (Failed tx) (Reason tx) (VMError tx))
  else if bool_decide (key = AttributeKeyTxIndex) then
    let! txIndex := lib (strconv_ParseUint value 31) in
    Ok (mkParsedTx (MsgIndex tx) (Hash_ tx) (int32 txIndex) (GasUsed tx)
          (Failed tx) (Reason tx) (VMError tx))
  else if bool_decide (key = AttributeKeyTxGasUsed) then
    let! gasUsed := lib (strconv_ParseUint value 64) in
    Ok (mkParsedTx (MsgIndex tx) (Hash_ tx) (EthTxIndex tx) gasUsed
          (Failed tx) (Reason tx) (VMError tx))
  else if bool_decide (key = AttributeKeyEthereumTxFailed) then
    Ok (mkParsedTx (MsgIndex tx) (Hash_ tx) (EthTxIndex tx) (GasUsed tx)
          (bool_decide (0 < String.length value)%nat) (Reason tx) (VMError tx))
  else Ok tx.

Definition fillTxAttributes (tx : ParsedTx) (attrs : list EventAttribute) : res error ParsedTx :=
  res_foldl (λ tx attr, fillTxAttribute tx (attr_Key attr) (attr_Value attr)) tx attrs.

Definition parseTxFromEvent (p : ParsedTxs) (attrs : list EventAttribute) : res error ParsedTxs :=
  let msgIndex := Z.of_nat (length (Txs p)) in
  let! tx := fillTxAttributes (NewParsedTx msgIndex) attrs in
  Ok (mkParsedTxs (Txs p ++ [tx]) (<[Hash_ tx := msgIndex]> (TxHashes p))).

(** ** The error log of a failed message *)

Definition failedTxFromTextLog (tx : option sdk_Tx) (result : ExecTxResult) (msgIndex : Z)
    (vmError : string) : res error ParsedTx :=
  match tx with
  | None => Err (New "failed tx fallback requires decoded tx")
  | Some tx =>
      let msgs := GetMsgs tx in
      if bool_decide (msgIndex < 0 ∨ Z.of_nat (length msgs) ≤ msgIndex) then
        Err (Errorf "message index %d out of bounds")
      else
        match msgs !! Z.to_nat msgIndex with
        | Some (EthMsg ethMsg) =>
            let gasUsed := uint64 (res_GasUsed result) in
            let gasUsed := if bool_decide (gasUsed = 0) then msg_GetGas ethMsg else gasUsed in
            Ok (mkParsedTx msgIndex (msg_Hash ethMsg) EthTxIndexUnitialized gasUsed true "" vmError)
        | _ => Err (Errorf "message index %d is not an ethereum tx")
        end
  end.

Definition append_failed (p : ParsedTxs) (tx : ParsedTx) (msgIndex : Z) : ParsedTxs :=
  mkParsedTxs (Txs p ++ [tx]) (<[Hash_ tx := msgIndex]> (TxHashes p)).

Definition parseFromLog (p : ParsedTxs) (result : ExecTxResult) (tx : option sdk_Tx) :
    res error ParsedTxs :=
  match msgErrJSONRx (res_Log result) with
  | None => Err (New "failed to locate message error in abci log")
  | Some (msgIndexStr, logJSON) =>
      let! msgIndex :=
        res_map_err (Wrap "failed to parse message index as int") (lib (strconv_Atoi msgIndexStr)) in
      match sonic_Unmarshal_vmError (string_bytes logJSON) with
      | Ok vmErr =>
          Ok (append_failed p
                (mkParsedTx msgIndex (HexToHash (vme_Hash vmErr)) EthTxIndexUnitialized
                   (vme_GasUsed vmErr) true (vme_Reason vmErr) (vme_VMError vmErr)) msgIndex)
      | Err err =>
          match failedTxFromTextLog tx result msgIndex logJSON with
          | Ok failedTx => Ok (append_failed p failedTx msgIndex)
          | Err _ => Err (Wrap "failed to parse abci log as JSON" (New err))
          | Panic m => Panic m
          end
      | Panic m => Panic m
      end
  end.

(** ** ParseTxResult *)

Definition set_failed (tx : ParsedTx) : ParsedTx :=
  mkParsedTx (MsgIndex tx) (Hash_ tx) (EthTxIndex tx) (GasUsed tx) true (Reason tx) (VMError tx).

Definition parse_events (p : ParsedTxs) (events : list Event) : res error ParsedTxs :=
  res_foldl (λ p event,
    if bool_decide (ev_Type event = EventTypeEthereumTx) then parseTxFromEvent p (ev_Attributes event)
    else Ok p) p events.

(** The loop of the block gas limit case: [i] counts the transactions done. *)
Fixpoint fail_with_gas_limit (msgs : list Msg) (i : nat) (txs : list ParsedTx) : res error (list ParsedTx) :=
  match txs with
  | [] => Ok []
  | tx :: txs =>
      match msgs !! i with
      | None => Panic "index out of range"
      | Some (OtherMsg _) => Panic "interface conversion: not *evmtypes.MsgEthereumTx"
      | Some (EthMsg m) =>
          let! txs := fail_with_gas_limit msgs (S i) txs in
          Ok (mkParsedTx (MsgIndex tx) (Hash_ tx) (EthTxIndex tx) (msg_GetGas m) true
                (Reason tx) (VMError tx) :: txs)
      end
  end.

Definition ParseTxResult (result : ExecTxResult) (tx : option sdk_Tx) : res error ParsedTxs :=
  let! p := parse_events (mkParsedTxs [] ∅) (res_Events result) in
  if bool_decide (res_Code result ≠ CodeTypeOK ∧ res_Codespace result = ModuleName) then
    parseFromLog (mkParsedTxs (set_failed <$> Txs p) (TxHashes p)) result tx
  else
    match tx with
    | Some tx =>
        if bool_decide (res_Code result ≠ CodeTypeOK ∧ res_Codespace result ≠ ModuleName) then
          let! txs := fail_with_gas_limit (GetMsgs tx) 0 (Txs p) in
          Ok (mkParsedTxs txs (TxHashes p))
        else Ok p
    | None => Ok p
    end.

(** ** Lookups *)

Definition GetTxByHash (p : ParsedTxs) (hash : Hash) : res error (option ParsedTx) :=
  match TxHashes p !! hash with
  | None => Ok None
  | Some idx =>
      if bool_decide (0 ≤ idx) then
        match Txs p !! Z.to_nat idx with
        | Some tx => Ok (Some tx)
        | None => Panic "index out of range"
        end
      else Panic "index out of range"
  end.

Definition GetTxByMsgIndex (p : ParsedTxs) (i : Z) : option ParsedTx :=
  if bool_decide (i < 0 ∨ Z.of_nat (length (Txs p)) ≤ i) then None else Txs p !! Z.to_nat i.

Definition GetTxByTxIndex (p : ParsedTxs) (txIndex : Z) : option ParsedTx :=
  match Txs p with
  | [] => None
  | tx0 :: _ => GetTxByMsgIndex p (int64 (txIndex - EthTxIndex tx0))
  end.

(** The loop for i := 0; i <= msgIndex; i++ *)
Fixpoint accumulate (txs : list ParsedTx) (n : nat) (result : Z) {struct n} : res error Z :=
  match n with
  | O => Ok result
  | S n => match txs with
           | [] => Panic "index out of range"
           | tx :: txs => accumulate txs n (uint64 (result + GasUsed tx))
           end
  end.

Definition AccumulativeGasUsed (p : ParsedTxs) (msgIndex : Z) : res error Z :=
  accumulate (Txs p) (Z.to_nat (msgIndex + 1)) 0.

(** cmrpctypes.ResultTx and ParseTxIndexerResult *)
Record ResultTx := mkResultTx { rt_Height : Z; rt_Index : Z; rt_TxResult : ExecTxResult }.

Definition ParseTxIndexerResult (txResult : ResultTx) (tx : option sdk_Tx)
    (getter : ParsedTxs → res error (option ParsedTx)) : res error TxResult :=
  let! txs := res_map_err (Wrap "failed to parse tx events: block %d, index %d")
                (ParseTxResult (rt_TxResult txResult) tx) in
  let! found := getter txs in
  match found with
  | None => Err (Errorf "ethereum tx not found in msgs: block %d, index %d")
  | Some parsedTx =>
      let! cumulative := AccumulativeGasUsed txs (MsgIndex parsedTx) in
      Ok (mkTxResult (rt_Height txResult) (rt_Index txResult) (uint32 (MsgIndex parsedTx))
            (EthTxIndex parsedTx) (Failed parsedTx) (GasUsed parsedTx) cumulative)
  end.
End ops.

(** ** Properties *)

Section props.
Context {EL : EthLib} {CL : ChainLib} {LJ : LogJSON}.

Definition eth_events (events : list Event) : list Event :=
  filter (λ event, ev_Type event = EventTypeEthereumTx) events.

(** The list and the hash map agree: the transaction at position [i] is the
    one of message [i], and the map sends a hash to the last position that
    has it. *)
Definition consistent (p : ParsedTxs) : Prop :=
  (∀ i tx, Txs p !! i = Some tx → MsgIndex tx = Z.of_nat i) ∧
  (∀ h i, TxHashes p !! h = Some i → 0 ≤ i ∧ ∃ tx, Txs p !! Z.to_nat i = Some tx ∧ Hash_ tx = h) ∧
  (∀ i tx, Txs p !! i = Some tx → ∃ j, TxHashes p !! Hash_ tx = Some j ∧ Z.of_nat i ≤ j).

(** What the attributes of an event can put in a transaction. *)
Definition in_bounds (tx : ParsedTx) : Prop :=
  is_uint64 (GasUsed tx) ∧ -1 ≤ EthTxIndex tx < 2 ^ 31.

Lemma digits_value_nonneg acc l n : 0 ≤ acc → digits_value acc l = Some n → 0 ≤ n.
Proof.
  revert acc. induction l as [|c l IH]; intros acc Ha; simpl; [by intros [= <-]|].
  unfold digit_value. case_bool_decide; [|done]. apply IH. lia.
Qed.

Lemma ParseUint_range s bits n : strconv_ParseUint s bits = Ok n → 0 ≤ n < 2 ^ bits.
Proof.
  unfold strconv_ParseUint, parse_digits. destruct s as [|c s]; [done|].
  destruct (digits_value _ _) eqn:E; [|done]. case_bool_decide; [|done]. intros [= <-].
  apply digits_value_nonneg in E; lia.
Qed.

Lemma fillTxAttribute_inv m tx k v tx' :
  MsgIndex tx = m ∧ in_bounds tx → fillTxAttribute tx k v = Ok tx' →
  MsgIndex tx' = m ∧ in_bounds tx'.
Proof.
  intros [Hm [Hg Hi]]. unfold fillTxAttribute, lib, in_bounds. repeat case_bool_decide.
  - by intros [= <-].
  - destruct (strconv_ParseUint v 31) eqn:E; simpl; intros [= <-]. simpl.
    apply ParseUint_range in E. rewrite int32_small by (unfold is_int32; lia). split_and!; [done|exact Hg|lia|lia].
  - destruct (strconv_ParseUint v 64) eqn:E; simpl; intros [= <-]. simpl.
    apply ParseUint_range in E. split_and!; [done|exact E|apply Hi|apply Hi].
  - by intros [= <-].
  - by intros [= <-].
  - by intros [= <-].
Qed.

Lemma fillTxAttributes_inv m attrs tx :
  fillTxAttributes (NewParsedTx m) attrs = Ok tx → MsgIndex tx = m ∧ in_bounds tx.
Proof.
  apply (res_foldl_inv _ (λ tx, MsgIndex tx = m ∧ in_bounds tx)).
  - intros s x s' Hs _. by apply fillTxAttribute_inv.
  - done.
Qed.

Lemma consistent_snoc p tx :
  consistent p → MsgIndex tx = Z.of_nat (length (Txs p)) →
  consistent (append_failed p tx (Z.of_nat (length (Txs p)))).
Proof.
  intros (C1 & C2 & C3) Hm. unfold append_failed. split_and!; simpl.
  - intros i tx' [Hl|[Hl E]]%lookup_app_Some; [by apply C1|].
    apply list_lookup_singleton_Some in E as [E ->]. rewrite Hm. lia.
  - intros h i. destruct (decide (Hash_ tx = h)) as [<-|Hne]; simplify_map_eq.
    + intros [= <-]. split; [lia|]. exists tx. rewrite Nat2Z.id. split; [|done].
      rewrite lookup_app_r, Nat.sub_diag by lia. done.
    + intros (Hpos & tx' & Hl & Hh)%C2. split; [done|]. exists tx'. split; [|done].
      rewrite lookup_app_l; [done|]. by eapply lookup_lt_Some.
  - intros i tx' Hl. destruct (decide (Hash_ tx = Hash_ tx')) as [->|Hne]; simplify_map_eq.
    + eexists. split; [done|]. apply lookup_lt_Some in Hl. rewrite length_app in Hl. simpl in Hl. lia.
    + apply lookup_app_Some in Hl as [Hl|[_ E]]; [by apply C3|].
      by apply list_lookup_singleton_Some in E as [_ ->].
Qed.

Lemma parse_events_cons p ev events :
  parse_events p (ev :: events) =
  res_bind (if bool_decide (ev_Type ev = EventTypeEthereumTx) then parseTxFromEvent p (ev_Attributes ev)
            else Ok p) (λ p, parse_events p events).
Proof. done. Qed.

(** The transactions the events add, in order. *)
Lemma parse_events_spec p events p' :
  parse_events p events = Ok p' → consistent p →
  consistent p' ∧ ∃ new, Txs p' = Txs p ++ new ∧ length new = length (eth_events events) ∧
  ∀ k ev, eth_events events !! k = Some ev → ∃ tx, new !! k = Some tx ∧
    fillTxAttributes (NewParsedTx (Z.of_nat (length (Txs p) + k))) (ev_Attributes ev) = Ok tx.
Proof.
  revert p. induction events as [|ev events IH]; intros p; simpl.
  - intros [= <-] Hc. split; [done|]. exists []. by rewrite app_nil_r.
  - rewrite parse_events_cons. unfold eth_events. rewrite filter_cons. case_bool_decide as Ety.
    + rewrite decide_True by done. unfold parseTxFromEvent.
      intros (p1 & (tx & Hf & [= <-])%res_bind_ok & Hp2)%res_bind_ok Hc.
      pose proof (fillTxAttributes_inv _ _ _ Hf) as [Hm _].
      apply IH in Hp2 as (Hc' & new & Ht & Hl & Hk); [|by apply consistent_snoc].
      split; [done|]. exists (tx :: new). simpl in *. rewrite Ht, <- app_assoc. split_and!; [done|by rewrite Hl|].
      intros [|k] ev'; simpl.
      * intros [= <-]. exists tx. by rewrite Nat.add_0_r.
      * intros (tx' & Hn & Hf')%Hk. exists tx'. split; [done|]. rewrite length_app in Hf'. simpl in Hf'.
        by replace (length (Txs p) + S k)%nat with (length (Txs p) + 1 + k)%nat by lia.
    + rewrite decide_False by done. intros Hp2 Hc. by apply IH.
Qed.

(** Setting fields other than the message index and the hash keeps consistency. *)
Lemma consistent_txs p txs :
  Forall2 (λ a b, MsgIndex a = MsgIndex b ∧ Hash_ a = Hash_ b) (Txs p) txs →
  consistent p → consistent (mkParsedTxs txs (TxHashes p)).
Proof.
  intros Hf (C1 & C2 & C3). split_and!; simpl.
  - intros i b Hb. destruct (Forall2_lookup_r _ _ _ _ _ Hf Hb) as (a & Ha & <- & _). by apply C1.
  - intros h i (Hpos & a & Ha & <-)%C2. split; [done|].
    destruct (Forall2_lookup_l _ _ _ _ _ Hf Ha) as (b & Hb & _ & E). by exists b.
  - intros i b Hb. destruct (Forall2_lookup_r _ _ _ _ _ Hf Hb) as (a & Ha & _ & <-). by apply C3.
Qed.

Lemma fail_with_gas_limit_same msgs i txs txs' :
  fail_with_gas_limit msgs i txs = Ok txs' →
  Forall2 (λ a b, MsgIndex a = MsgIndex b ∧ Hash_ a = Hash_ b) txs txs'.
Proof.
  revert i txs'. induction txs as [|tx txs IH]; intros i txs'; simpl; [by intros [= <-]|].
  destruct (msgs !! i) as [[m|]|]; [|done..].
  intros (txs1 & H1 & [= <-])%res_bind_ok. constructor; [done|]. by eapply IH.
Qed.

Definition gas_sum (txs : list ParsedTx) : Z := foldr (λ tx acc, GasUsed tx + acc) 0 txs.

Lemma accumulate_spec txs n acc :
  accumulate txs n (uint64 acc) =
  if decide (n ≤ length txs)%nat then Ok (uint64 (acc + gas_sum (take n txs)))
  else Panic "index out of range".
Proof.
  revert txs acc. induction n as [|n IH]; intros txs acc; simpl.
  - by rewrite Z.add_0_r.
  - destruct txs as [|tx txs]; simpl; [done|]. rewrite uint64_add_idemp_l, IH.
    destruct (decide (n ≤ length txs)%nat), (decide (S n ≤ S (length txs))%nat); try lia; [|done].
    do 2 f_equal. lia.
Qed.

Lemma consistent_lookups p :
  consistent p →
  (∀ h, GetTxByHash p h = Ok None ∧ (∀ tx, tx ∈ Txs p → Hash_ tx ≠ h) ∨
        ∃ tx, GetTxByHash p h = Ok (Some tx) ∧ tx ∈ Txs p ∧ Hash_ tx = h) ∧
  (∀ i, GetTxByMsgIndex p (Z.of_nat i) = Txs p !! i).
Proof.
  intros (C1 & C2 & C3). split.
  - intros h. unfold GetTxByHash. destruct (TxHashes p !! h) as [i|] eqn:E.
    + right. apply C2 in E as (Hpos & tx & Hl & Hh). exists tx. rewrite bool_decide_true, Hl by done.
      split_and!; [done| |done]. by eapply list_elem_of_lookup_2.
    + left. split; [done|]. intros tx [i Hl]%list_elem_of_lookup <-.
      apply C3 in Hl as (j & Hj & _). congruence.
  - intros i. unfold GetTxByMsgIndex. rewrite Nat2Z.id. case_bool_decide as Hb; [|done].
    symmetry. apply lookup_ge_None. lia.
Qed.

(** Parsing the result of an executed transaction: whenever ParseTxResult
    returns without an EVM failure (the result code is OK, or the failure is not of
    the evm codespace), it returns one transaction per ethereum_tx event, at
    the position of its message, with the values the event's attributes give (gas
    replaced by the gas limit in the failure case); lookups by hash never panic and
    return a transaction of that hash exactly when there is one, lookups by
    message index return the transaction at that position, and AccumulativeGasUsed
    is the 64-bit sum of the gas up to a position, panicking beyond the list. *)
Theorem ParseTxResult_lookups result tx p :
  ParseTxResult result tx = Ok p →
  (res_Code result = CodeTypeOK ∨ res_Codespace result ≠ ModuleName) →
  consistent p ∧
  length (Txs p) = length (eth_events (res_Events result)) ∧
  (∀ i t, Txs p !! i = Some t → ∃ ev t0, eth_events (res_Events result) !! i = Some ev ∧
     fillTxAttributes (NewParsedTx (Z.of_nat i)) (ev_Attributes ev) = Ok t0 ∧ in_bounds t0 ∧
     MsgIndex t = Z.of_nat i ∧ Hash_ t = Hash_ t0 ∧
     (res_Code result = CodeTypeOK → t = t0)) ∧
  (∀ h, GetTxByHash p h = Ok None ∧ (∀ t, t ∈ Txs p → Hash_ t ≠ h) ∨
        ∃ t, GetTxByHash p h = Ok (Some t) ∧ t ∈ Txs p ∧ Hash_ t = h) ∧
  (∀ i, GetTxByMsgIndex p (Z.of_nat i) = Txs p !! i) ∧
  (∀ i, AccumulativeGasUsed p (Z.of_nat i) =
        if decide (i < length (Txs p))%nat then Ok (uint64 (gas_sum (take (S i) (Txs p))))
        else Panic "index out of range").
Proof.
  intros (q & Hq & Hr)%res_bind_ok Hcode.
  apply parse_events_spec in Hq as (Hcq & new & Ht & Hl & Hk); [|by split_and!; simpl; intros; simplify_map_eq].
  simpl in Ht. subst new. rewrite bool_decide_false in Hr by tauto.
  assert (Forall2 (λ a b, MsgIndex a = MsgIndex b ∧ Hash_ a = Hash_ b) (Txs q) (Txs p) ∧
          TxHashes p = TxHashes q ∧ (res_Code result = CodeTypeOK → Txs p = Txs q)) as (Hf & Hh & Hok).
  { destruct tx as [tx|]; [|injection Hr as <-; split_and!; [by apply Forall_Forall2_diag, Forall_true|done..]].
    case_bool_decide as Hb.
    - apply res_bind_ok in Hr as (txs & Hg & [= <-]). simpl. split_and!; [by eapply fail_with_gas_limit_same|done|tauto].
    - injection Hr as <-. split_and!; [by apply Forall_Forall2_diag, Forall_true|done..]. }
  assert (consistent p) as Hc.
  { destruct p as [txs hs]. simpl in *. subst hs. by apply consistent_txs. }
  pose proof (consistent_lookups p Hc) as [HL1 HL2].
  split_and!; [done| | |done|done|].
  - rewrite <- Hl. symmetry. by eapply Forall2_length.
  - intros i t Hi. destruct (Forall2_lookup_r _ _ _ _ _ Hf Hi) as (t0 & Ht0 & Em & Eh).
    destruct (lookup_lt_is_Some_2 (eth_events (res_Events result)) i) as [ev Hev].
    { rewrite <- Hl. by eapply lookup_lt_Some. }
    destruct (Hk _ _ Hev) as (t0' & Ht0' & Hfill). simplify_eq. simpl in Hfill.
    exists ev, t0. pose proof (fillTxAttributes_inv _ _ _ Hfill) as [Em0 Hb].
    split_and!; [done|done|done|lia|done|]. intros Ho. rewrite Hok in Hi by done. congruence.
  - intros i. unfold AccumulativeGasUsed. change 0 with (uint64 0). rewrite accumulate_spec.
    replace (Z.to_nat (Z.of_nat i + 1)) with (S i) by lia.
    destruct (decide (S i ≤ length (Txs p))%nat), (decide (i < length (Txs p))%nat); try lia; done.
Qed.

(** A transaction that fails in the EVM: its log names the failing message
    [k] and ParseTxResult appends the failed transaction after the ones of the
    [n] events of the result.  The lookups by message index and by hash find it
    when [k = n]; when [k] is larger, which is the case for every failing message
    but the first since failed transactions carry no message events, the lookup by
    message index finds nothing and the lookup by hash panics. *)
Theorem vm_failure_lookup result tx q digits json k vmErr :
  res_Code result ≠ CodeTypeOK → res_Codespace result = ModuleName →
  parse_events (mkParsedTxs [] ∅) (res_Events result) = Ok q →
  msgErrJSONRx (res_Log result) = Some (digits, json) →
  strconv_Atoi digits = Ok k → 0 ≤ k →
  sonic_Unmarshal_vmError (string_bytes json) = Ok vmErr →
  let n := Z.of_nat (length (Txs q)) in
  let h := HexToHash (vme_Hash vmErr) in
  let failed := mkParsedTx k h EthTxIndexUnitialized (vme_GasUsed vmErr) true
                  (vme_Reason vmErr) (vme_VMError vmErr) in
  ∃ p, ParseTxResult result tx = Ok p ∧
    Txs p = (set_failed <$> Txs q) ++ [failed] ∧
    (k = n → consistent p ∧ GetTxByMsgIndex p k = Some failed ∧ GetTxByHash p h = Ok (Some failed)) ∧
    (n < k → GetTxByMsgIndex p k = None ∧ GetTxByHash p h = Panic "index out of range").
Proof.
  intros Hcode Hspace Hq Hrx Hk Hpos Hjson n h failed.
  assert (consistent q) as Hcq.
  { apply parse_events_spec in Hq as [Hc _]; [done|]. by split_and!; simpl; intros; simplify_map_eq. }
  exists (append_failed (mkParsedTxs (set_failed <$> Txs q) (TxHashes q)) failed k).
  assert (length (set_failed <$> Txs q) = length (Txs q)) as Hlen by apply length_fmap.
  split_and!.
  - unfold ParseTxResult. rewrite Hq. simpl. rewrite bool_decide_true by done.
    unfold parseFromLog. by rewrite Hrx, Hk; simpl; rewrite Hjson.
  - done.
  - intros ->.
    assert (consistent (append_failed (mkParsedTxs (set_failed <$> Txs q) (TxHashes q)) failed n)) as Hc.
    { pose proof (consistent_snoc (mkParsedTxs (set_failed <$> Txs q) (TxHashes q)) failed) as Hs.
      cbn [Txs] in Hs. rewrite Hlen in Hs. apply Hs; [|done].
      apply consistent_txs; [|done]. by apply Forall2_fmap_r, Forall_Forall2_diag, Forall_true. }
    split_and!; [done| |].
    + unfold n. rewrite (proj2 (consistent_lookups _ Hc)). simpl.
      rewrite lookup_app_r, Hlen, Nat.sub_diag by lia. done.
    + unfold GetTxByHash. simpl. simplify_map_eq. rewrite bool_decide_true by done.
      unfold n. rewrite Nat2Z.id, lookup_app_r, Hlen, Nat.sub_diag by lia. done.
  - intros Hlt. assert (Z.to_nat k ≥ length (set_failed <$> Txs q) + 1)%nat as Hge by lia.
    split.
    + unfold GetTxByMsgIndex. simpl. rewrite bool_decide_true; [done|]. rewrite length_app. simpl. lia.
    + unfold GetTxByHash. simpl. simplify_map_eq. rewrite bool_decide_true by done.
      rewrite lookup_ge_None_2; [done|]. rewrite length_app. simpl. lia.
Qed.
End props.

(** ** Witnesses *)

#[local] Instance sample_json : LogJSON := {
  sonic_Unmarshal_vmError b := Ok (mkVMError (bytes_string b) 21000 "" "execution reverted" []);
  json_Unmarshal_vmError b := Ok (mkVMError (bytes_string b) 21000 "" "execution reverted" []);
}.

Import EthInstances.

Definition sample_event (hash index gas : string) : Event :=
  mkEvent "ethereum_tx" [mkAttr "ethereumTxHash" hash true; mkAttr "txIndex" index true;
                         mkAttr "txGasUsed" gas true].

Definition sample_ok : ExecTxResult :=
  mkExecTxResult 0 [1] "" 42000
    [sample_event "0x0a" "0" "21000"; mkEvent "transfer" []; sample_event "0x0b" "1" "30000"] "".

Definition sample_failed : ExecTxResult :=
  mkExecTxResult 1 [] "failed to execute message; message index: 1: 0x0c" 42000 [] "evm".

Lemma ParseTxResult_lookups_witness :
  ∃ p, ParseTxResult sample_ok None = Ok p ∧
    AccumulativeGasUsed p 1 = Ok 51000 ∧
    ∀ i, GetTxByMsgIndex p (Z.of_nat i) = Txs p !! i.
Proof.
  eexists. split; [by vm_compute|]. split; [by vm_compute|].
  eapply (ParseTxResult_lookups sample_ok None); [by vm_compute|left; reflexivity].
Defined.

Lemma vm_failure_lookup_witness :
  ∃ p, ParseTxResult sample_failed None = Ok p ∧
    GetTxByHash p (HexToHash "0x0c") = Panic "index out of range".
Proof.
  destruct (vm_failure_lookup sample_failed None (mkParsedTxs [] ∅) "1" "0x0c" 1
              (mkVMError "0x0c" 21000 "" "execution reverted" []))
    as (p & Hp & _ & _ & Hlt); [done|reflexivity|reflexivity|by vm_compute|reflexivity|lia|by vm_compute|].
  exists p. split; [exact Hp|]. apply Hlt. simpl. lia.
Defined.
End ParsedTx.
