(* ===== verification/Normalize.v ===== *)
(** * Normalized log indexes of transaction responses

    src/internal/evm/rpc/types/tx_response_normalize.go: the EVM responses of a
    block's transaction results get block-wide log indexes and transaction
    indexes that count the failed Ethereum transactions too.  The protobuf codec is a
    parameter with its round-trip law. *)

From Stdlib Require Import Ascii String.
From S2P Require Import Prelude Bytes GoLib EthTypes EthInstances ParsedTx.
From stdpp Require Import strings list.
#[local] Open Scope Z_scope.

Module Normalize.
Import GoLib EthTypes ParsedTx.

(** ** Messages of the codec *)

(** evmtypes.MsgEthereumTxResponse *)
Record MsgEthereumTxResponse := mkResponse {
  rsp_Hash : string;
  rsp_Logs : list EvmLog;
  rsp_Ret : bytes;
  rsp_VmError : string;
  rsp_GasUsed : Z;
}.

(** codectypes.Any and sdk.TxMsgData *)
Record Any := mkAny { TypeUrl : string; Value : bytes }.
Record TxMsgData := mkTxMsgData { tmd_Data : list bytes; MsgResponses : list Any }.

Class Proto := {
  MessageName_response : string;
  Unmarshal_TxMsgData : bytes → res string TxMsgData;
  Marshal_TxMsgData : TxMsgData → res string bytes;
  Unmarshal_response : bytes → res string MsgEthereumTxResponse;
  Marshal_response : MsgEthereumTxResponse → res string bytes;
}.

(** Decoding what was encoded gives it back; a message with a response does not
    encode to the empty string. *)
Class ProtoLaws `{Proto} : Prop := {
  TxMsgData_roundtrip d b : Marshal_TxMsgData d = Ok b → Unmarshal_TxMsgData b = Ok d;
  TxMsgData_nonempty d b : Marshal_TxMsgData d = Ok b → MsgResponses d ≠ [] → b ≠ [];
  response_roundtrip r b : Marshal_response r = Ok b → Unmarshal_response b = Ok r;
}.

(** ** The log of a failed Ethereum transaction *)

Definition quote : string := String "034"%char "".

(** The JSON text after the message index: the hash, the gas and the rest of
    the object, which ends the log. *)
Definition failed_head : string :=
  ("{" +:+ quote +:+ "tx_hash" +:+ quote +:+ ":" +:+ quote +:+ "0x")%string.
Definition failed_mid : string :=
  (quote +:+ "," +:+ quote +:+ "gas_used" +:+ quote +:+ ":")%string.

Definition is_hex_char (c : ascii) : bool :=
  let b := byte_of_ascii c in
  bool_decide (48 ≤ b ≤ 57) || bool_decide (97 ≤ b ≤ 102) || bool_decide (65 ≤ b ≤ 70).

Fixpoint strip_hex (n : nat) (s : string) : option string :=
  match n with
  | O => Some s
  | S n => match s with
           | String c s' => if is_hex_char c then strip_hex n s' else None
           | EmptyString => None
           end
  end.

(** [.*\}$]: no newline before the last character, which is a brace. *)
Fixpoint ends_object (s : string) : bool :=
  match s with
  | EmptyString => false
  | String c EmptyString => bool_decide (c = "}"%char)
  | String c s' => bool_decide (c ≠ newline) && ends_object s'
  end.

Definition matches_object (s : string) : bool :=
  match strip_prefix failed_head s with
  | None => false
  | Some r => match strip_hex 64 r with
    | None => false
    | Some r => match strip_prefix failed_mid r with
      | None => false
      | Some r => let '(digits, r) := span_digits r in
        match digits with
        | EmptyString => false
        | _ => match strip_prefix "," r with
               | None => false
               | Some r => ends_object r
               end
        end
      end
    end
  end.

Definition failed_at (s : string) : option (string * string) :=
  match strip_prefix msgErrText s with
  | None => None
  | Some r =>
      let '(digits, r) := span_digits r in
      match digits with
      | EmptyString => None
      | _ => match strip_prefix ": " r with
             | Some rest => if matches_object rest then Some (digits, rest) else None
             | None => None
             end
      end
  end.

Fixpoint failedEthereumTxLogRegex (s : string) : option (string * string) :=
  match failed_at s with
  | Some m => Some m
  | None => match s with
            | EmptyString => None
            | String _ s' => failedEthereumTxLogRegex s'
            end
  end.

Section ops.
Context {CL : ChainLib} {LJ : LogJSON} {PB : Proto}.

Definition countEthereumTxEvents (events : list Event) : Z :=
  foldl (λ count event, if bool_decide (ev_Type event = EventTypeEthereumTx) then count + 1 else count)
    0 events.

Definition inferFailedEthereumTxCount (codespace log : string) : Z :=
  if bool_decide (codespace ≠ ModuleName ∧ codespace ≠ UndefinedCodespace) then 0
  else match failedEthereumTxLogRegex log with
       | None => 0
       | Some (digits, json) =>
           match json_Unmarshal_vmError (string_bytes json) with
           | Ok vmErr =>
               if bool_decide (vme_VMError vmErr = ""%string) then 0
               else match strconv_Atoi digits with
                    | Ok msgIndex => if bool_decide (msgIndex < 0) then 0 else int64 (msgIndex + 1)
                    | _ => 0
                    end
           | _ => 0
           end
       end.

(** ** The loops *)

Definition set_indexes (txIndex logIndex : Z) (log : EvmLog) : EvmLog :=
  mkEvmLog (el_Address log) (el_Topics log) (el_Data log) (el_BlockNumber log) (el_TxHash log)
    txIndex (el_BlockHash log) logIndex (el_Removed log).

(** for j := range response.Logs: the logs, whether one changed, the next
    log index. *)
Fixpoint normalize_logs (txIndex logIndex : Z) (logs : list EvmLog) : list EvmLog * bool * Z :=
  match logs with
  | [] => ([], false, logIndex)
  | log :: logs =>
      let dirty := bool_decide (el_TxIndex log ≠ txIndex) || bool_decide (el_Index log ≠ logIndex) in
      let '(logs, dirty', next) := normalize_logs txIndex (uint64 (logIndex + 1)) logs in
      (set_indexes txIndex logIndex log :: logs, dirty || dirty', next)
  end.

Record counters := mkCounters { c_tx : Z; c_log : Z; c_seen : Z; c_dirty : bool }.

Definition is_response (rsp : Any) : bool :=
  bool_decide (TypeUrl rsp = ("/" +:+ MessageName_response)%string).

(** One message response: the element to store and the counters after it. *)
Definition normalize_message (c : counters) (rsp : Any) : res error (Any * counters) :=
  if is_response rsp then
    let! response := lib (Unmarshal_response (Value rsp)) in
    let '(logs, dirty, next) := normalize_logs (c_tx c) (c_log c) (rsp_Logs response) in
    let after d := mkCounters (uint64 (c_tx c + 1)) next (uint64 (c_seen c + 1)) d in
    if (dirty : bool) then
      let! bz := lib (Marshal_response (mkResponse (rsp_Hash response) logs (rsp_Ret response)
                        (rsp_VmError response) (rsp_GasUsed response))) in
      Ok (mkAny (TypeUrl rsp) bz, after true)
    else Ok (rsp, after (c_dirty c))
  else Ok (rsp, c).

Fixpoint normalize_messages (c : counters) (rsps : list Any) : res error (list Any * counters) :=
  match rsps with
  | [] => Ok ([], c)
  | rsp :: rsps =>
      let! (rsp, c) := normalize_message c rsp in
      let! (rsps, c) := normalize_messages c rsps in
      Ok (rsp :: rsps, c)
  end.

Definition eth_tx_count (r : ExecTxResult) : Z :=
  let ethTxCount := countEthereumTxEvents (res_Events r) in
  let inferred := inferFailedEthereumTxCount (res_Codespace r) (res_Log r) in
  if bool_decide (ethTxCount < inferred) then inferred else ethTxCount.

Definition set_data (r : ExecTxResult) (data : bytes) : ExecTxResult :=
  mkExecTxResult (res_Code r) data (res_Log r) (res_GasUsed r) (res_Events r) (res_Codespace r).

(** The body of the loop over the results: the result, and the transaction and
    log indexes after it. *)
Definition normalize_result (txIndex logIndex : Z) (r : ExecTxResult) :
    res error (ExecTxResult * Z * Z) :=
  let ethTxCount := eth_tx_count r in
  if bool_decide (res_Code r ≠ CodeTypeOK) then
    Ok (r, uint64 (txIndex + uint64 ethTxCount), logIndex)
  else if bool_decide (res_Data r = []) then
    Ok (r, uint64 (txIndex + uint64 ethTxCount), logIndex)
  else
    let! d := lib (Unmarshal_TxMsgData (res_Data r)) in
    let! (rsps, c) := normalize_messages (mkCounters txIndex logIndex 0 false) (MsgResponses d) in
    let txIndex :=
      if bool_decide (c_seen c < uint64 ethTxCount)
      then uint64 (c_tx c + (uint64 ethTxCount - c_seen c)) else c_tx c in
    if c_dirty c then
      let! data := lib (Marshal_TxMsgData (mkTxMsgData (tmd_Data d) rsps)) in
      Ok (set_data r data, txIndex, c_log c)
    else Ok (r, txIndex, c_log c).

Fixpoint normalize_results (txIndex logIndex : Z) (input : list (option ExecTxResult)) :
    res error (list (option ExecTxResult)) :=
  match input with
  | [] => Ok []
  | None :: input =>
      let! out := normalize_results txIndex logIndex input in Ok (None :: out)
  | Some r :: input =>
      let! (r, txIndex, logIndex) := normalize_result txIndex logIndex r in
      let! out := normalize_results txIndex logIndex input in Ok (Some r :: out)
  end.

Definition NormalizeTxResponseIndexes (input : list (option ExecTxResult)) :
    res error (list (option ExecTxResult)) :=
  normalize_results 0 0 input.
End ops.

(** ** Reference definitions

    [relabel t l rs] gives the [j]-th response the transaction index [t + j] and
    numbers the logs of all of them from [l]. *)

Definition relabel_logs (t l : Z) (logs : list EvmLog) : list EvmLog :=
  imap (λ k log, set_indexes (uint64 t) (uint64 (l + Z.of_nat k)) log) logs.

Definition relabel_response (t l : Z) (r : MsgEthereumTxResponse) : MsgEthereumTxResponse :=
  mkResponse (rsp_Hash r) (relabel_logs t l (rsp_Logs r)) (rsp_Ret r) (rsp_VmError r) (rsp_GasUsed r).

Definition log_count (rs : list MsgEthereumTxResponse) : Z :=
  foldr (λ r n, Z.of_nat (length (rsp_Logs r)) + n) 0 rs.

Fixpoint relabel (t l : Z) (rs : list MsgEthereumTxResponse) : list MsgEthereumTxResponse :=
  match rs with
  | [] => []
  | r :: rs => relabel_response t l r :: relabel (t + 1) (l + Z.of_nat (length (rsp_Logs r))) rs
  end.

Section props.
Context {CL : ChainLib} {LJ : LogJSON} {PB : Proto}.

(** The Ethereum responses among the message responses. *)
Definition responses (rsps : list Any) : res string (list MsgEthereumTxResponse) :=
  res_mapM (λ rsp, Unmarshal_response (Value rsp)) (filter (λ rsp, is_response rsp = true) rsps).

(** The Ethereum responses of a result: none unless it succeeded with data. *)
Definition view (r : ExecTxResult) : res string (list MsgEthereumTxResponse) :=
  if bool_decide (res_Code r ≠ CodeTypeOK ∨ res_Data r = []) then Ok []
  else let! d := Unmarshal_TxMsgData (res_Data r) in responses (MsgResponses d).

(** The transaction indexes a result takes: the larger of its Ethereum
    transactions and its responses. *)
Definition slots (r : ExecTxResult) (rs : list MsgEthereumTxResponse) : Z :=
  let count := uint64 (eth_tx_count r) in
  if bool_decide (res_Code r ≠ CodeTypeOK ∨ res_Data r = []) then count
  else Z.of_nat (length rs) + Z.max 0 (count - uint64 (Z.of_nat (length rs))).

(** A message response in its place: its type is kept, and all of it unless it
    is an Ethereum response. *)
Definition kept_response (rsp rsp' : Any) : Prop :=
  TypeUrl rsp' = TypeUrl rsp ∧ (is_response rsp = false → rsp' = rsp).

(** The data of a result: as it was, or re-encoded with the other fields of the
    message and the other responses as they were. *)
Definition kept_data (data data' : bytes) : Prop :=
  data' = data ∨
  ∃ d rsps, Unmarshal_TxMsgData data = Ok d ∧ Unmarshal_TxMsgData data' = Ok (mkTxMsgData (tmd_Data d) rsps) ∧
    Forall2 kept_response (MsgResponses d) rsps.

(** [out] is [input] with the Ethereum responses of each result relabelled from the
    indexes the results before it leave, and everything else kept. *)
Fixpoint normalized (t l : Z) (input out : list (option ExecTxResult)) : Prop :=
  match input, out with
  | [], [] => True
  | None :: input, None :: out => normalized t l input out
  | Some r :: input, Some r' :: out =>
      ∃ rs data, r' = set_data r data ∧ kept_data (res_Data r) data ∧ view r = Ok rs ∧ view r' = Ok (relabel t l rs) ∧
        normalized (t + slots r rs) (l + log_count rs) input out
  | _, _ => False
  end.

(** The logs of all responses of a block, in order. *)
Fixpoint all_logs (out : list (option ExecTxResult)) : res string (list EvmLog) :=
  match out with
  | [] => Ok []
  | None :: out => all_logs out
  | Some r :: out => let! rs := view r in let! logs := all_logs out in Ok ((rs ≫= rsp_Logs) ++ logs)
  end.

Lemma uint64_succ n : uint64 (uint64 n + 1) = uint64 (n + 1).
Proof. apply uint64_add_idemp_l. Qed.

Lemma relabel_logs_cons t l log logs :
  relabel_logs t l (log :: logs) = set_indexes (uint64 t) (uint64 l) log :: relabel_logs t (l + 1) logs.
Proof.
  unfold relabel_logs. rewrite imap_cons, Z.add_0_r. f_equal. apply imap_ext. intros i x _. simpl.
  do 2 f_equal. lia.
Qed.

Lemma normalize_logs_spec t l logs :
  normalize_logs (uint64 t) (uint64 l) logs =
  (relabel_logs t l logs, bool_decide (relabel_logs t l logs ≠ logs), uint64 (l + Z.of_nat (length logs))).
Proof.
  revert l. induction logs as [|log logs IH]; intros l.
  - cbn. by rewrite Z.add_0_r.
  - cbn [normalize_logs]. rewrite uint64_succ, IH, relabel_logs_cons. f_equal; [f_equal|].
    + destruct log as [? ? ? ? ? ti ? li ?]. unfold set_indexes. simpl.
      destruct (decide (ti = uint64 t)) as [->|Ht]; [destruct (decide (li = uint64 l)) as [->|Hl]|].
      * rewrite (bool_decide_false (uint64 t ≠ uint64 t)), (bool_decide_false (uint64 l ≠ uint64 l)) by tauto.
        apply bool_decide_ext. split; intros Hn ?; apply Hn; congruence.
      * rewrite (bool_decide_true (li ≠ _)) by done. rewrite orb_true_r. symmetry. apply bool_decide_true. congruence.
      * rewrite (bool_decide_true (ti ≠ _)) by done. symmetry. apply bool_decide_true. congruence.
    + simpl length. f_equal. lia.
Qed.

Lemma relabel_logs_length t l logs : length (relabel_logs t l logs) = length logs.
Proof. apply length_imap. Qed.

Lemma relabel_logs_idemp t l logs : relabel_logs t l (relabel_logs t l logs) = relabel_logs t l logs.
Proof.
  revert l. induction logs as [|log logs IH]; intros l; [done|]. by rewrite !relabel_logs_cons, IH.
Qed.

Lemma relabel_response_id t l r : relabel_logs t l (rsp_Logs r) = rsp_Logs r → relabel_response t l r = r.
Proof. intros E. unfold relabel_response. rewrite E. by destruct r. Qed.

Context {PL : ProtoLaws}.

Definition with_dirty (c : counters) (d : bool) : counters := mkCounters (c_tx c) (c_log c) (c_seen c) d.

(** The counters after [n] responses with [k] logs. *)
Definition advance (t l : Z) (c : counters) (n k : Z) (d : bool) : counters :=
  mkCounters (uint64 (t + n)) (uint64 (l + k)) (uint64 (c_seen c + n)) d.

Lemma normalize_message_spec t l c rsp rsp' c' :
  c_tx c = uint64 t → c_log c = uint64 l → is_response rsp = true →
  normalize_message c rsp = Ok (rsp', c') →
  ∃ r, Unmarshal_response (Value rsp) = Ok r ∧
    Unmarshal_response (Value rsp') = Ok (relabel_response t l r) ∧ TypeUrl rsp' = TypeUrl rsp ∧
    c' = advance t l c 1 (Z.of_nat (length (rsp_Logs r))) (c_dirty c') ∧
    (c_dirty c' = false → rsp' = rsp ∧ c_dirty c = false).
Proof.
  intros Ht Hl Hr. unfold normalize_message. rewrite Hr, Ht, Hl. unfold lib.
  destruct (Unmarshal_response (Value rsp)) as [r| |] eqn:Eu; [|done..]. cbn [res_map_err res_bind].
  rewrite normalize_logs_spec, uint64_succ. intros Hm. exists r. case_bool_decide as Hd.
  - destruct (Marshal_response _) as [bz| |] eqn:Em; [|done..].
    injection Hm as <- <-. apply response_roundtrip in Em. by split_and!.
  - injection Hm as <- <-. destruct (decide (relabel_logs t l (rsp_Logs r) = rsp_Logs r)) as [E|]; [|done].
    split_and!; [done| |done..]. by rewrite Eu, relabel_response_id.
Qed.

(** A relabelled response is left alone. *)
Lemma normalize_message_again t l c rsp r :
  c_tx c = uint64 t → c_log c = uint64 l → is_response rsp = true →
  Unmarshal_response (Value rsp) = Ok (relabel_response t l r) →
  normalize_message c rsp = Ok (rsp, advance t l c 1 (Z.of_nat (length (rsp_Logs r))) (c_dirty c)).
Proof.
  intros Ht Hl Hr Eu. unfold normalize_message. rewrite Hr, Ht, Hl, Eu. cbn [lib res_map_err res_bind].
  rewrite normalize_logs_spec, uint64_succ. simpl. rewrite relabel_logs_idemp, relabel_logs_length.
  by rewrite bool_decide_false by tauto.
Qed.

Lemma responses_cons rsp rsps :
  responses (rsp :: rsps) =
  if is_response rsp then let! r := Unmarshal_response (Value rsp) in
                          let! rs := responses rsps in Ok (r :: rs)
  else responses rsps.
Proof. unfold responses. rewrite filter_cons. by destruct (is_response rsp). Qed.

Lemma normalize_messages_spec t l c rsps rsps' c' :
  c_tx c = uint64 t → c_log c = uint64 l → c_seen c = uint64 (c_seen c) →
  normalize_messages c rsps = Ok (rsps', c') →
  ∃ rs, responses rsps = Ok rs ∧ responses rsps' = Ok (relabel t l rs) ∧
    c' = advance t l c (Z.of_nat (length rs)) (log_count rs) (c_dirty c') ∧
    (c_dirty c' = false → rsps' = rsps ∧ c_dirty c = false) ∧
    ∀ d, normalize_messages (with_dirty c d) rsps' = Ok (rsps', with_dirty c' d).
Proof.
  revert t l c rsps' c'. induction rsps as [|rsp rsps IH]; intros t l c rsps' c' Ht Hl Hs.
  - intros [= <- <-]. exists []. unfold advance. simpl. rewrite !Z.add_0_r, <- Ht, <- Hl, <- Hs.
    split_and!; try done. by destruct c.
  - cbn [normalize_messages]. intros ([rsp1 c1] & H1 & ([rsps1 c2] & H2 & [= <- <-])%res_bind_ok)%res_bind_ok.
    rewrite responses_cons. destruct (is_response rsp) eqn:Er.
    + destruct (normalize_message_spec t l c rsp rsp1 c1 Ht Hl Er H1) as (r & E1 & E2 & E3 & E4 & E5).
      assert (is_response rsp1 = true) as Er1 by (unfold is_response; by rewrite E3).
      set (k := Z.of_nat (length (rsp_Logs r))) in *.
      destruct (IH (t + 1) (l + k) c1 rsps1 c2) as (rs & R1 & R2 & R3 & R4 & R5); try done.
      { by rewrite E4. } { by rewrite E4. } { rewrite E4. simpl. by rewrite uint64_idemp. }
      exists (r :: rs). rewrite E1, R1. split_and!; [done| | | |].
      * rewrite responses_cons, Er1, E2. simpl. by rewrite R2.
      * rewrite R3, E4. unfold advance. cbn [c_seen c_dirty log_count foldr]. fold (log_count rs). fold k.
        rewrite uint64_add_idemp_l. simpl length. f_equal; f_equal; lia.
      * intros [-> E]%R4. apply E5 in E as [-> ?]. done.
      * intros d. cbn [normalize_messages].
        rewrite (normalize_message_again t l (with_dirty c d) rsp1 r Ht Hl Er1 E2). cbn [res_bind].
        specialize (R5 d). replace (with_dirty c1 d) with
          (advance t l (with_dirty c d) 1 k (c_dirty (with_dirty c d))) in R5 by (by rewrite E4).
        fold k. by rewrite R5.
    + unfold normalize_message in H1. rewrite Er in H1. injection H1 as <- <-.
      destruct (IH t l c rsps1 c2 Ht Hl Hs H2) as (rs & R1 & R2 & R3 & R4 & R5).
      exists rs. split_and!; [done| |done| |].
      * by rewrite responses_cons, Er.
      * by intros [-> ?]%R4.
      * intros d. cbn [normalize_messages]. unfold normalize_message at 1. rewrite Er. cbn [res_bind].
        by rewrite R5.
Qed.

Lemma normalize_messages_kept c rsps rsps' c' :
  normalize_messages c rsps = Ok (rsps', c') → Forall2 kept_response rsps rsps'.
Proof.
  revert c rsps' c'. induction rsps as [|rsp rsps IH]; intros c rsps' c'; cbn [normalize_messages].
  - intros [= <- _]. constructor.
  - intros ([rsp1 c1] & H1 & ([rsps1 c2] & H2%IH & [= <- _])%res_bind_ok)%res_bind_ok. constructor; [|done].
    unfold normalize_message in H1. unfold kept_response. destruct (is_response rsp); [|by injection H1 as <- _].
    apply res_bind_ok in H1 as (r & _ & H1). destruct (normalize_logs _ _ _) as [[logs dirty] next].
    split; [|done]. destruct dirty; [|by injection H1 as <- _]. by apply res_bind_ok in H1 as (bz & _ & [= <- _]).
Qed.

Lemma normalize_result_spec t l r r' t' l' :
  normalize_result (uint64 t) (uint64 l) r = Ok (r', t', l') →
  (∃ rs data, r' = set_data r data ∧ kept_data (res_Data r) data ∧ view r = Ok rs ∧ view r' = Ok (relabel t l rs) ∧
    t' = uint64 (t + slots r rs) ∧ l' = uint64 (l + log_count rs)) ∧
  normalize_result (uint64 t) (uint64 l) r' = Ok (r', t', l').
Proof.
  intros Hn. pose proof Hn as Hn'. unfold normalize_result in Hn.
  assert (set_data r (res_Data r) = r) as Hid by (by destruct r).
  destruct (decide (res_Code r ≠ CodeTypeOK ∨ res_Data r = [])) as [Hc|Hc].
  { assert (Ok (r, uint64 (uint64 t + uint64 (eth_tx_count r)), uint64 l) = Ok (r', t', l') :> res error _) as E.
    { rewrite <- Hn. destruct Hc; repeat case_bool_decide; tauto. }
    injection E as <- <- <-. split; [|done]. exists [], (res_Data r). rewrite Hid. unfold view, slots.
    rewrite !bool_decide_true by done. rewrite uint64_add_idemp_l. simpl. rewrite Z.add_0_r. split_and!; try done. by left. }
  rewrite !bool_decide_false in Hn by tauto.
  apply res_bind_ok in Hn as (d & Hd & ([rsps c] & Hm & Hn)%res_bind_ok).
  unfold lib in Hd. destruct (Unmarshal_TxMsgData (res_Data r)) as [d0| |] eqn:Eu; [|done..].
  injection Hd as ->.
  destruct (normalize_messages_spec t l (mkCounters (uint64 t) (uint64 l) 0 false) _ _ _ eq_refl eq_refl eq_refl Hm)
    as (rs & R1 & R2 & R3 & R4 & R5).
  assert (view r = Ok rs) as Hv.
  { unfold view. rewrite bool_decide_false, Eu by done. simpl. done. }
  assert ((if bool_decide (c_seen c < uint64 (eth_tx_count r))
           then uint64 (c_tx c + (uint64 (eth_tx_count r) - c_seen c)) else c_tx c)
          = uint64 (t + slots r rs)) as Htx.
  { unfold slots. rewrite (bool_decide_false (_ ∨ _)) by done. rewrite R3. cbn [advance c_seen c_tx]. rewrite Z.add_0_l.
    clear Hn Hn'. case_bool_decide; [rewrite uint64_add_idemp_l|]; f_equal; lia. }
  assert (c_log c = uint64 (l + log_count rs)) as Hlog by (by rewrite R3).
  rewrite Htx, Hlog in Hn.
  destruct (c_dirty c) eqn:Edirty.
  - apply res_bind_ok in Hn as (data & Hdata & [= <- <- <-]). unfold lib in Hdata.
    destruct (Marshal_TxMsgData _) as [data0| |] eqn:Em; [|done..]. injection Hdata as ->.
    assert (rsps ≠ []) as Hne.
    { intros ->. specialize (R5 false). cbn in R5. destruct (MsgResponses d) as [|m ms]; [|].
      - cbn in Hm. injection Hm as <-. done.
      - cbn [normalize_messages] in Hm. apply res_bind_ok in Hm as ([??] & _ & ([??] & _ & [=])%res_bind_ok). }
    pose proof (TxMsgData_nonempty _ _ Em Hne) as Hdne.
    apply TxMsgData_roundtrip in Em. split.
    + exists rs, data. split_and!; try done.
      { right. exists d, rsps. split_and!; [done|done|]. by eapply normalize_messages_kept. }
      unfold view. simpl.
      rewrite bool_decide_false by tauto. rewrite Em. simpl. done.
    + unfold normalize_result. simpl. rewrite !bool_decide_false by tauto. rewrite Em. cbn [lib res_map_err res_bind].
      specialize (R5 false). unfold with_dirty in R5 at 1. cbn [c_tx c_log c_seen] in R5. cbn [MsgResponses].
      rewrite R5. cbn [res_bind with_dirty c_seen c_tx c_dirty c_log]. rewrite Hlog.
      change (eth_tx_count (set_data r data)) with (eth_tx_count r). by rewrite Htx.
  - injection Hn as <- <- <-. split; [|done]. destruct (R4 eq_refl) as [-> _].
    exists rs, (res_Data r). rewrite Hid. split_and!; try done; [by left|].
    rewrite Hv. by rewrite R1 in R2.
Qed.

Lemma normalize_results_spec t l input out :
  normalize_results (uint64 t) (uint64 l) input = Ok out →
  normalized t l input out ∧ normalize_results (uint64 t) (uint64 l) out = Ok out.
Proof.
  revert t l out. induction input as [|[r|] input IH]; intros t l out; cbn [normalize_results].
  - by intros [= <-].
  - intros ([[r' t'] l'] & H1 & (out' & H2 & [= <-])%res_bind_ok)%res_bind_ok.
    apply normalize_result_spec in H1 as [(rs & data & E1 & E0 & E2 & E3 & -> & ->) Hagain].
    apply IH in H2 as [H2 H3]. split.
    + by exists rs, data.
    + cbn [normalize_results]. rewrite Hagain. cbn [res_bind]. by rewrite H3.
  - intros (out' & H2 & [= <-])%res_bind_ok. apply IH in H2 as [H2 H3]. split; [done|].
    cbn [normalize_results]. by rewrite H3.
Qed.

Definition numbered (l : Z) (logs : list EvmLog) : Prop :=
  ∀ n log, logs !! n = Some log → el_Index log = uint64 (l + Z.of_nat n).

Lemma numbered_app l a b : numbered l a → numbered (l + Z.of_nat (length a)) b → numbered l (a ++ b).
Proof.
  intros Ha Hb n log [Hn|[Hle Hn]]%lookup_app_Some; [by apply Ha|].
  rewrite (Hb _ _ Hn). f_equal. lia.
Qed.

Lemma relabel_numbered t l rs :
  numbered l (relabel t l rs ≫= rsp_Logs) ∧
  Z.of_nat (length (relabel t l rs ≫= rsp_Logs)) = log_count rs.
Proof.
  revert t l. induction rs as [|r rs IH]; intros t l; [by split|].
  destruct (IH (t + 1) (l + Z.of_nat (length (rsp_Logs r)))) as [I1 I2].
  cbn [relabel]. rewrite bind_cons. cbn [relabel_response rsp_Logs]. split.
  - apply numbered_app; [|by rewrite relabel_logs_length].
    intros n log Hn. unfold relabel_logs in Hn. rewrite list_lookup_imap in Hn.
    destruct (rsp_Logs r !! n); [|done]. by injection Hn as <-.
  - rewrite length_app, Nat2Z.inj_add, I2, relabel_logs_length. done.
Qed.

Lemma normalized_numbered t l input out :
  normalized t l input out → ∃ logs, all_logs out = Ok logs ∧ numbered l logs.
Proof.
  revert t l out. induction input as [|[r|] input IH]; intros t l [|[r'|] out]; try done.
  - intros _. by exists [].
  - intros (rs & data & _ & _ & _ & Hv & Hn). cbn [all_logs]. rewrite Hv.
    apply IH in Hn as (logs & -> & Hlogs). destruct (relabel_numbered t l rs) as [N1 N2].
    eexists. split; [done|]. apply numbered_app; [done|]. by rewrite N2.
  - intros Hn. by apply IH in Hn.
Qed.

(** C32. NormalizeTxResponseIndexes renumbers and changes nothing else: when
    it succeeds each result keeps its code, log, events, gas and codespace; its data is as
    it was, or decodes to the same message with every response in its place and of its type
    and every response that is not an Ethereum one unchanged; and its Ethereum
    responses are those of the input with the transaction index of a response counting the
    Ethereum transactions before it, failed ones included, and with the logs of
    the block numbered from 0 without gaps. *)
Theorem NormalizeTxResponseIndexes_relabels input out :
  NormalizeTxResponseIndexes input = Ok out →
  normalized 0 0 input out ∧
  ∃ logs, all_logs out = Ok logs ∧ ∀ n log, logs !! n = Some log → el_Index log = uint64 (Z.of_nat n).
Proof.
  intros [Hn _]%(normalize_results_spec 0 0). split; [done|]. by apply normalized_numbered in Hn.
Qed.

(** Normalizing is idempotent: a block that was normalized is returned as
    it is, byte for byte, without re-encoding. *)
Theorem NormalizeTxResponseIndexes_idempotent input out :
  NormalizeTxResponseIndexes input = Ok out → NormalizeTxResponseIndexes out = Ok out.
Proof. by intros [_ Hn]%(normalize_results_spec 0 0). Qed.
End props.

(** ** Witnesses *)

Import EthInstances.

#[local] Instance EvmLog_countable : Countable EvmLog.
Proof.
  apply (inj_countable'
    (λ l, (el_Address l, el_Topics l, el_Data l, el_BlockNumber l, el_TxHash l,
           (el_TxIndex l, el_BlockHash l, el_Index l, el_Removed l)))
    (λ '(a, b, c, d, e, (f, g, h, i)), mkEvmLog a b c d e f g h i)). by intros [].
Defined.
#[local] Instance response_eq_dec : EqDecision MsgEthereumTxResponse.
Proof. solve_decision. Defined.
#[local] Instance response_countable : Countable MsgEthereumTxResponse.
Proof.
  apply (inj_countable' (λ r, (rsp_Hash r, rsp_Logs r, rsp_Ret r, rsp_VmError r, rsp_GasUsed r))
    (λ '(a, b, c, d, e), mkResponse a b c d e)). by intros [].
Defined.
#[local] Instance Any_eq_dec : EqDecision Any.
Proof. solve_decision. Defined.
#[local] Instance Any_countable : Countable Any.
Proof. apply (inj_countable' (λ a, (TypeUrl a, Value a)) (λ '(a, b), mkAny a b)). by intros []. Defined.
#[local] Instance TxMsgData_eq_dec : EqDecision TxMsgData.
Proof. solve_decision. Defined.
#[local] Instance TxMsgData_countable : Countable TxMsgData.
Proof.
  apply (inj_countable' (λ d, (tmd_Data d, MsgResponses d)) (λ '(a, b), mkTxMsgData a b)). by intros [].
Defined.

#[local] Instance sample_proto : Proto := {
  MessageName_response := "R";
  Unmarshal_TxMsgData := countable_unmarshal;
  Marshal_TxMsgData d := Ok (countable_marshal d);
  Unmarshal_response := countable_unmarshal;
  Marshal_response r := Ok (countable_marshal r);
}.

#[local] Instance sample_protoLaws : ProtoLaws.
Proof.
  split; simpl.
  - intros d b [= <-]. apply countable_roundtrip.
  - by intros d b [= <-] _.
  - intros d b [= <-]. apply countable_roundtrip.
Qed.

Definition sample_log : EvmLog := mkEvmLog "" [] [] 1 "" 0 "" 0 false.

#[local] Existing Instance ParsedTx.sample_json.

(** A failed transaction takes transaction index 0; the next one has two logs
    that both say index 0. *)
Definition sample_input : list (option ExecTxResult) :=
  [Some (mkExecTxResult 1 [] "" 0 [mkEvent "ethereum_tx" []] ""); None;
   Some (mkExecTxResult 0 (countable_marshal (mkTxMsgData []
     [mkAny "/bank" [7]; mkAny "/R" (countable_marshal (mkResponse "" [sample_log; sample_log] [] "" 1))]))
     "" 0 [mkEvent "ethereum_tx" []] "")].

Definition sample_output : list (option ExecTxResult) :=
  match NormalizeTxResponseIndexes sample_input with Ok out => out | _ => [] end.

Lemma sample_normalizes : NormalizeTxResponseIndexes sample_input = Ok sample_output.
Proof. vm_compute. reflexivity. Qed.

Definition indexes (m : res string (list EvmLog)) : res string (list (Z * Z)) :=
  res_bind m (λ logs, Ok ((λ log, (el_TxIndex log, el_Index log)) <$> logs)).

Lemma NormalizeTxResponseIndexes_relabels_witness :
  normalized 0 0 sample_input sample_output ∧ indexes (all_logs sample_output) = Ok [(1, 0); (1, 1)].
Proof.
  split; [|vm_compute; reflexivity].
  exact (proj1 (NormalizeTxResponseIndexes_relabels sample_input sample_output sample_normalizes)).
Defined.

Lemma NormalizeTxResponseIndexes_idempotent_witness :
  NormalizeTxResponseIndexes sample_output = Ok sample_output ∧
  indexes (all_logs sample_input) = Ok [(0, 0); (0, 0)].
Proof.
  split; [|vm_compute; reflexivity].
  exact (NormalizeTxResponseIndexes_idempotent sample_input sample_output sample_normalizes).
Defined.
End Normalize.
