(* ===== verification/Virtual.v ===== *)
(** * Virtual logs, receipts and transactions

    src/internal/evm/rpc/virtual/types.go: the RPC shape of logs, the receipt of
    a synthesized transaction, log filters, the metadata of a group of logs and
    the hashes that identify synthesized transactions; and RPCTransaction of
    src/internal/evm/rpc/types/types.go.  SetLogMetadata writes through the log pointers
    of a freshly built slice, so it is a function on the list. *)

From Stdlib Require Import Ascii String.
From S2P Require Import Prelude Bytes GoLib EthTypes EthInstances.
From stdpp Require Import strings list.
#[local] Open Scope Z_scope.

Module Virtual.
Import GoLib EthTypes.

(** ** Data *)

Record LogContext := mkLogContext {
  ctx_BlockHash : Hash;
  ctx_BlockNumber : Z;
  ctx_TxHash : Hash;
  ctx_TxIndex : Z;
  ctx_FirstLogIndex : Z;
  ctx_CosmosHash : option Hash;
}.

Record RPCLog := mkRPCLog {
  l_Address : Address;
  l_Topics : list Hash;
  l_Data : bytes;
  l_BlockNumber : Z;
  l_TxHash : Hash;
  l_TxIndex : Z;
  l_BlockHash : Hash;
  l_Index : Z;
  l_Removed : bool;
  l_Virtual : bool;
  l_CosmosHash : option Hash;
  l_CosmosMsgIndex : option Z;
}.
#[global] Instance RPCLog_eq_dec : EqDecision RPCLog.
Proof. solve_decision. Defined.

(** rpctypes.RPCTransaction *)
Record RPCTransaction := mkRPCTransaction {
  t_BlockHash : option Hash;
  t_BlockNumber : option Z;
  t_From : Address;
  t_Gas : Z;
  t_GasPrice : option Z;
  t_GasFeeCap : option Z;
  t_GasTipCap : option Z;
  t_Hash : Hash;
  t_Input : bytes;
  t_Nonce : Z;
  t_To : option Address;
  t_TransactionIndex : option Z;
  t_Value : option Z;
  t_Type : Z;
  t_Accesses : option (list AccessTuple);
  t_ChainID : option Z;
  t_V : option Z;
  t_R : option Z;
  t_S : option Z;
  t_Virtual : bool;
  t_CosmosHash : option Hash;
  t_CosmosMsgIndex : option Z;
}.
#[global] Instance RPCTransaction_eq_dec : EqDecision RPCTransaction.
Proof. solve_decision. Defined.

Record Receipt := mkReceipt {
  r_Status : Z;
  r_CumulativeGasUsed : Z;
  r_GasUsed : Z;
  r_Reason : string;
  r_VMError : string;
  r_Logs : list (option RPCLog);
  r_TransactionHash : Hash;
  r_BlockHash : Hash;
  r_BlockNumber : Z;
  r_TransactionIndex : Z;
  r_EffectiveGasPrice : option Z;
  r_From : Address;
  r_To : option Address;
  r_Type : Z;
}.

Record Tx := mkTx {
  Transaction_ : RPCTransaction;
  Receipt_ : Receipt;
}.

(** The values of a receipt map, by the type they have in Go. *)
Inductive Value :=
| VNil
| VUint (n : Z)
| VUint64 (n : Z)
| VBig (n : Z)
| VHash (h : Hash)
| VAddress (a : Address)
| VString (s : string)
| VBloom (b : bytes)
| VLogs (l : list (option RPCLog))
| VEthLogs (l : list (option EthLog)).

(** ** Log filters *)

Definition address_matches (address : Address) (addresses : list Address) : bool :=
  match addresses with
  | [] => true
  | _ => existsb (λ a, bool_decide (address = a)) addresses
  end.

(** The loop over the topic filter; the caller has checked the lengths. *)
Fixpoint topics_match (log_topics : list Hash) (topics : list (list Hash)) {struct topics} : bool :=
  match topics with
  | [] => true
  | sub :: topics =>
      match log_topics with
      | [] => false
      | t :: log_topics =>
          (bool_decide (sub = []) || existsb (λ topic, bool_decide (t = topic)) sub) &&
          topics_match log_topics topics
      end
  end.

Definition LogMatches (log : option RPCLog) (addresses : list Address) (topics : list (list Hash)) : bool :=
  match log with
  | None => false
  | Some log =>
      if address_matches (l_Address log) addresses then
        if bool_decide (length (l_Topics log) < length topics)%nat then false
        else topics_match (l_Topics log) topics
      else false
  end.

(** ** Conversions *)

Definition CopyTopics (topics : list Hash) : list Hash := topics.
Definition copyHashPtr (hash : option Hash) : option Hash := hash.

Definition NewRPCLog (log : option EthLog) (isVirtual : bool) (cosmosHash : option Hash) : option RPCLog :=
  match log with
  | None => None
  | Some log =>
      Some (mkRPCLog (log_Address log) (CopyTopics (log_Topics log)) (log_Data log)
              (log_BlockNumber log) (log_TxHash log) (log_TxIndex log) (log_BlockHash log)
              (log_Index log) (log_Removed log) isVirtual (copyHashPtr cosmosHash) None)
  end.

(** RPCLog.UnmarshalJSON: the log is written when the decoder accepts the text; its slices
    and pointers are copies. *)
Definition UnmarshalJSON (sonic_Unmarshal : bytes → res string RPCLog) (l : RPCLog) (input : bytes) : RPCLog * option string :=
  match sonic_Unmarshal input with
  | Ok dec =>
      (mkRPCLog (l_Address dec) (CopyTopics (l_Topics dec)) (l_Data dec) (l_BlockNumber dec) (l_TxHash dec) (l_TxIndex dec) (l_BlockHash dec)
         (l_Index dec) (l_Removed dec) (l_Virtual dec) (copyHashPtr (l_CosmosHash dec)) (l_CosmosMsgIndex dec), None)
  | Err e | Panic e => (l, Some e)
  end.

Definition WrapLogs (logs : list (option EthLog)) (isVirtual : bool) (cosmosHash : option Hash) :
    list (option RPCLog) :=
  (λ log, NewRPCLog log isVirtual cosmosHash) <$> logs.

Definition EthLog_ (log : option RPCLog) : option EthLog :=
  match log with
  | None => None
  | Some log =>
      Some (mkEthLog (l_Address log) (CopyTopics (l_Topics log)) (l_Data log) (l_BlockNumber log)
              (l_TxHash log) (l_TxIndex log) (l_BlockHash log) (l_Index log) (l_Removed log))
  end.

(** Nil logs are dropped. *)
Definition EthLogs (logs : list (option RPCLog)) : list (option EthLog) :=
  omap (λ log, Some <$> EthLog_ log) logs.

Definition FlattenEthLogs (groups : list (list (option RPCLog))) : list (option EthLog) :=
  foldl (λ out group, out ++ EthLogs group) [] groups.

(** ** Metadata of a group of logs *)

Definition set_metadata (ctx : LogContext) (i : nat) (log : RPCLog) : RPCLog :=
  mkRPCLog (l_Address log) (l_Topics log) (l_Data log) (ctx_BlockNumber ctx) (ctx_TxHash ctx)
    (ctx_TxIndex ctx) (ctx_BlockHash ctx) (uint64 (ctx_FirstLogIndex ctx + Z.of_nat i)) (l_Removed log)
    (l_Virtual log) (if l_Virtual log then copyHashPtr (ctx_CosmosHash ctx) else l_CosmosHash log)
    (l_CosmosMsgIndex log).

Definition SetLogMetadata (logs : list (option RPCLog)) (ctx : LogContext) : list (option RPCLog) :=
  imap (λ i log, set_metadata ctx i <$> log) logs.

Section ops.
Context {EL : EthLib} {CL : ChainLib}.

Definition virtual_LogsBloom (logs : list (option RPCLog)) : bytes := LogsBloom (EthLogs logs).

Definition Receipt_ToMap (r : Receipt) : gmap string Value :=
  let price := default 0 (r_EffectiveGasPrice r) in
  let out : gmap string Value := list_to_map [
    ("status"%string, VUint (r_Status r));
    ("cumulativeGasUsed"%string, VUint64 (r_CumulativeGasUsed r));
    ("logsBloom"%string, VBloom (BytesToBloom (virtual_LogsBloom (r_Logs r))));
    ("logs"%string, VLogs (r_Logs r));
    ("transactionHash"%string, VHash (r_TransactionHash r));
    ("contractAddress"%string, VNil);
    ("gasUsed"%string, VUint64 (r_GasUsed r));
    ("blockHash"%string, VString (Hash_Hex (r_BlockHash r)));
    ("blockNumber"%string, VUint64 (r_BlockNumber r));
    ("transactionIndex"%string, VUint64 (r_TransactionIndex r));
    ("effectiveGasPrice"%string, VBig price);
    ("from"%string, VAddress (r_From r));
    ("to"%string, match r_To r with Some a => VAddress a | None => VNil end);
    ("type"%string, VUint (r_Type r))] in
  let out := if bool_decide (r_Reason r ≠ ""%string) then <["reason"%string := VString (r_Reason r)]> out else out in
  if bool_decide (r_VMError r ≠ ""%string) then <["vmError"%string := VString (r_VMError r)]> out else out.

(** ** Hashes *)

Definition OriginalCosmosTxHash (tx : bytes) : Hash := BytesToHash (Tx_Hash tx).
Definition CosmosTxHash (tx : bytes) : Hash := Keccak256Hash [OriginalCosmosTxHash tx].
Definition IBCHookTxHash (tx : bytes) (msgIndex : Z) : Hash :=
  Keccak256Hash [OriginalCosmosTxHash tx; string_bytes "@"; string_bytes (strconv_Itoa msgIndex)].
Definition NestedIBCHookTxHash (tx : bytes) (msgIndex position : Z) : Hash :=
  Keccak256Hash [OriginalCosmosTxHash tx; string_bytes "@"; string_bytes (strconv_Itoa msgIndex);
                 string_bytes "#"; string_bytes (strconv_Itoa position)].

Definition blockPhaseBegin : string := "begin_block".
Definition blockPhaseEnd : string := "end_block".

Definition blockPhaseHash (phase : string) (height : Z) : Hash :=
  Keccak256Hash [string_bytes phase ++ be_bytes 8 (uint64 height)].
Definition BeginBlockHash (height : Z) : Hash := blockPhaseHash blockPhaseBegin height.
Definition EndBlockHash (height : Z) : Hash := blockPhaseHash blockPhaseEnd height.

Definition newRPCTransaction (hash blockHash : Hash) (blockNumber index : Z) (chainID : option Z)
    (cosmosHash : option Hash) (from to : Address) (input : bytes) (gasUsed : Z) : RPCTransaction :=
  mkRPCTransaction (Some blockHash) (Some blockNumber) from gasUsed (Some 0) None None hash input 0
    (Some to) (Some index) (Some 0) LegacyTxType None chainID (Some 0) (Some 0) (Some 0) true
    (copyHashPtr cosmosHash) None.
End ops.

(** ** Lemmas *)

Lemma topics_match_spec log_topics topics :
  topics_match log_topics topics = true ↔
  (length topics ≤ length log_topics)%nat ∧
  ∀ i sub t, topics !! i = Some sub → log_topics !! i = Some t → sub = [] ∨ t ∈ sub.
Proof.
  revert log_topics. induction topics as [|sub topics IH]; intros [|t log_topics]; simpl.
  - split; [|done]. intros _. split; [done|]. done.
  - split; [|done]. intros _. split; [lia|]. done.
  - split; [done|]. intros [? _]. lia.
  - rewrite andb_true_iff, orb_true_iff, bool_decide_eq_true, existsb_exists, IH. split.
    + intros [Hs [Hl Ht]]. split; [lia|]. intros [|i] sub' t'; simpl.
      * intros [= <-] [= <-]. destruct Hs as [?|(x & Hx & ->%bool_decide_eq_true)]; [by left|].
        right. by apply list_elem_of_In.
      * by apply Ht.
    + intros [Hl Ht]. split_and!.
      * destruct (Ht 0%nat sub t eq_refl eq_refl) as [?|Hin]; [by left|right]. exists t.
        split; [by apply list_elem_of_In|by apply bool_decide_eq_true].
      * lia.
      * intros i. apply (Ht (S i)).
Qed.

Lemma address_matches_spec a addresses :
  address_matches a addresses = true ↔ addresses = [] ∨ a ∈ addresses.
Proof.
  unfold address_matches. destruct addresses as [|b bs]; [split; [by left|done]|].
  rewrite existsb_exists. split.
  - intros (x & Hx & ->%bool_decide_eq_true). right. by apply list_elem_of_In.
  - intros [?|Hin]; [done|]. exists a. split; [by apply list_elem_of_In|by apply bool_decide_eq_true].
Qed.

(** LogMatches decides the eth_getLogs filter. *)
Lemma LogMatches_spec log addresses topics :
  LogMatches (Some log) addresses topics = true ↔
  (addresses = [] ∨ l_Address log ∈ addresses) ∧
  (length topics ≤ length (l_Topics log))%nat ∧
  ∀ i sub t, topics !! i = Some sub → l_Topics log !! i = Some t → sub = [] ∨ t ∈ sub.
Proof.
  unfold LogMatches. rewrite <- address_matches_spec.
  destruct (address_matches _ _); [|split; [done|by intros [? _]]].
  case_bool_decide as Hl; [split; [done|intros (_ & ? & _); lia]|].
  rewrite topics_match_spec. tauto.
Qed.

Lemma SetLogMetadata_lookup logs ctx i :
  SetLogMetadata logs ctx !! i = (λ log, set_metadata ctx i <$> log) <$> (logs !! i).
Proof. unfold SetLogMetadata. by rewrite list_lookup_imap. Qed.

Lemma SetLogMetadata_length logs ctx : length (SetLogMetadata logs ctx) = length logs.
Proof. apply length_imap. Qed.
End Virtual.
