(* ===== verification/VirtualBank.v ===== *)
(** * Virtual bank events

    src/internal/evm/rpc/virtual/bank/bank.go: x/bank events parsed into normalized
    records, one per coin, and turned into metadata-free Ethereum logs.  Coin and bech32
    parsing and the ABI packer are parameters. *)

From Stdlib Require Import Ascii String.
From S2P Require Import Prelude Bytes GoLib EthTypes EthInstances.
From stdpp Require Import strings list.
#[local] Open Scope Z_scope.

Module Bank.
Import GoLib EthTypes.

Definition EventTypeTransfer : string := "transfer".
Definition EventTypeCoinSpent : string := "coin_spent".
Definition EventTypeCoinReceived : string := "coin_received".
Definition EventTypeCoinbase : string := "coinbase".
Definition EventTypeBurn : string := "burn".
Definition AttributeMsgIndex : string := "msg_index".
Definition AttributeMode : string := "mode".
Definition ModeBeginBlock : string := "BeginBlock".

(** The normalized x/bank event *)
Record Event := mkBankEvent {
  be_Type : string;
  be_Sender : Hash;
  be_Recipient : Hash;
  be_Actor : Hash;
  be_Denom : string;
  be_Amount : Z;
  be_MsgIndex : option Z;
  be_Mode : string;
}.

(** sdk.ParseCoinsNormalized (denomination and amount of each coin),
    bech32.DecodeAndConvert (the data part), abi.Arguments.Pack of a string
    and a uint256 *)
Class BankLib := {
  ParseCoinsNormalized : string → res string (list (string * Z));
  bech32_DecodeAndConvert : string → res string bytes;
  denomAmountArgs_Pack : string → Z → res string bytes;
}.

Definition IsTrackedEventType (eventType : string) : bool :=
  bool_decide (eventType ∈ [EventTypeTransfer; EventTypeCoinSpent; EventTypeCoinReceived;
                            EventTypeCoinbase; EventTypeBurn]).

(** Later attributes overwrite earlier ones. *)
Definition eventAttrs (attrs : list EventAttribute) : gmap string string :=
  foldl (λ out attr, <[attr_Key attr := attr_Value attr]> out) ∅ attrs.

Definition parseMsgIndex (attrs : gmap string string) : res error (option Z) :=
  match attrs !! AttributeMsgIndex with
  | None => Ok None
  | Some raw =>
      if bool_decide (strings_TrimSpace raw = ""%string) then Ok None
      else let! idx := lib (strconv_Atoi raw) in
           if bool_decide (idx < 0) then Err (Errorf "negative msg_index %d") else Ok (Some idx)
  end.

Definition isHex (value : string) : bool :=
  match value with
  | EmptyString => false
  | _ => forallb (λ c, let b := byte_of_ascii c in
           bool_decide (48 ≤ b ≤ 57) || bool_decide (97 ≤ b ≤ 102) || bool_decide (65 ≤ b ≤ 70))
         (list_ascii_of_string value)
  end.

Section ops.
Context {EL : EthLib} {BL : BankLib}.

Definition ContractAddress : Address := HexToAddress "0x0000000000000000000000000000000000000800".
Definition TopicTransfer : Hash :=
  Keccak256Hash [string_bytes "NativeBankTransfer(bytes32,bytes32,string,uint256)"].
Definition TopicCoinSpent : Hash :=
  Keccak256Hash [string_bytes "NativeBankCoinSpent(bytes32,string,uint256)"].
Definition TopicCoinReceived : Hash :=
  Keccak256Hash [string_bytes "NativeBankCoinReceived(bytes32,string,uint256)"].
Definition TopicCoinbase : Hash :=
  Keccak256Hash [string_bytes "NativeBankCoinbase(bytes32,string,uint256)"].
Definition TopicBurn : Hash :=
  Keccak256Hash [string_bytes "NativeBankBurn(bytes32,string,uint256)"].

Definition bytesToHash32 (bz : bytes) : res error Hash :=
  if bool_decide (HashLength < length bz)%nat then Err (Errorf "address is %d bytes, max %d")
  else Ok (BytesToHash bz).

(** The bytes and whether the text is hexadecimal. *)
Definition decodeHexAddress (value : string) : res error (bytes * bool) :=
  if strings_HasPrefix value "0x" || strings_HasPrefix value "0X" then
    let! bz := lib (hexutil_Decode value) in Ok (bz, true)
  else if bool_decide (String.length value mod 2 ≠ 0)%nat || negb (isHex value) then Ok ([], false)
  else let! bz := lib (hexutil_Decode ("0x" +:+ value)) in Ok (bz, true).

Definition AddressBytes32 (value : string) : res error Hash :=
  let value := strings_TrimSpace value in
  if bool_decide (value = ""%string) then Err (Errorf "empty address")
  else
    let! (bz, ok) := decodeHexAddress value in
    if (ok : bool) then bytesToHash32 bz
    else match bech32_DecodeAndConvert value with
         | Ok bz => bytesToHash32 bz
         | _ => bytesToHash32 (string_bytes value)
         end.

Definition requiredAddress (attrs : gmap string string) (key : string) : res error Hash :=
  match attrs !! key with
  | None => Err (Errorf "%s event %d missing %s")
  | Some raw =>
      if bool_decide (strings_TrimSpace raw = ""%string) then Err (Errorf "%s event %d missing %s")
      else res_map_err (Wrap "%s event %d invalid %s %q") (AddressBytes32 raw)
  end.

(** The addresses of an event by its type: sender, recipient and actor. *)
Definition eventAddresses (ty : string) (attrs : gmap string string) : res error (Hash * Hash * Hash) :=
  if bool_decide (ty = EventTypeTransfer) then
    let! s := requiredAddress attrs "sender" in
    let! r := requiredAddress attrs "recipient" in Ok (s, r, zero_hash)
  else if bool_decide (ty = EventTypeCoinSpent) then
    let! a := requiredAddress attrs "spender" in Ok (zero_hash, zero_hash, a)
  else if bool_decide (ty = EventTypeCoinReceived) then
    let! a := requiredAddress attrs "receiver" in Ok (zero_hash, zero_hash, a)
  else if bool_decide (ty = EventTypeCoinbase) then
    let! a := requiredAddress attrs "minter" in Ok (zero_hash, zero_hash, a)
  else if bool_decide (ty = EventTypeBurn) then
    let! a := requiredAddress attrs "burner" in Ok (zero_hash, zero_hash, a)
  else Ok (zero_hash, zero_hash, zero_hash).

(** [None]: not a tracked event. *)
Definition ParseEvent (event : EthTypes.Event) : res error (option (list Event)) :=
  if negb (IsTrackedEventType (ev_Type event)) then Ok None
  else
    let attrs := eventAttrs (ev_Attributes event) in
    match attrs !! "amount"%string with
    | None => Err (Errorf "%s event %d missing amount")
    | Some amountRaw =>
        let! coins := res_map_err (λ e, Wrap "%s event %d invalid amount %q" (New e))
                        (ParseCoinsNormalized amountRaw) in
        let! msgIndex := res_map_err (Wrap "%s event %d invalid msg_index") (parseMsgIndex attrs) in
        let! (sender, recipient, actor) := eventAddresses (ev_Type event) attrs in
        Ok (Some ((λ coin : string * Z,
          mkBankEvent (ev_Type event) sender recipient actor coin.1 coin.2 msgIndex
            (default ""%string (attrs !! AttributeMode))) <$> coins))
    end.

Definition ParseEvents (events : list EthTypes.Event) : res error (list Event) :=
  res_foldl (λ out event,
    let! parsed := ParseEvent event in
    match parsed with
    | Some parsed => Ok (out ++ parsed)
    | None => Ok out
    end) [] events.

Definition SplitBlockEvents (events : list EthTypes.Event) : res error (list Event * list Event) :=
  let! parsed := ParseEvents events in
  Ok (filter (λ e, be_Mode e = ModeBeginBlock) parsed, filter (λ e, be_Mode e ≠ ModeBeginBlock) parsed).

Definition eventTopics (event : Event) : res error (list Hash) :=
  if bool_decide (be_Type event = EventTypeTransfer) then
    Ok [TopicTransfer; be_Sender event; be_Recipient event]
  else if bool_decide (be_Type event = EventTypeCoinSpent) then Ok [TopicCoinSpent; be_Actor event]
  else if bool_decide (be_Type event = EventTypeCoinReceived) then Ok [TopicCoinReceived; be_Actor event]
  else if bool_decide (be_Type event = EventTypeCoinbase) then Ok [TopicCoinbase; be_Actor event]
  else if bool_decide (be_Type event = EventTypeBurn) then Ok [TopicBurn; be_Actor event]
  else Err (Errorf "unsupported event type %q").

(** A log without block or transaction metadata. *)
Definition bare_log (address : Address) (topics : list Hash) (data : bytes) : EthLog :=
  mkEthLog address topics data 0 zero_hash 0 zero_hash 0 false.

Definition EthereumLogs (events : list Event) : res error (list (option EthLog)) :=
  res_mapM (λ event,
    let! data := lib (denomAmountArgs_Pack (be_Denom event) (be_Amount event)) in
    let! topics := eventTopics event in
    Ok (Some (bare_log ContractAddress topics data))) events.
End ops.

(** ** Lemmas *)

Section props.
Context {EL : EthLib} {BL : BankLib}.

(** What a parsed event tells: its type, one record per coin, all with the
    message index of the event. *)
Lemma ParseEvent_spec event parsed :
  ParseEvent event = Ok (Some parsed) →
  IsTrackedEventType (ev_Type event) = true ∧
  ∃ amountRaw coins msgIndex,
    eventAttrs (ev_Attributes event) !! "amount"%string = Some amountRaw ∧
    ParseCoinsNormalized amountRaw = Ok coins ∧
    parseMsgIndex (eventAttrs (ev_Attributes event)) = Ok msgIndex ∧
    (λ e, (be_Denom e, be_Amount e)) <$> parsed = coins ∧
    Forall (λ e, be_Type e = ev_Type event ∧ be_MsgIndex e = msgIndex) parsed.
Proof.
  unfold ParseEvent. destruct (IsTrackedEventType _); [|done]. cbn [negb].
  destruct (_ !! "amount"%string) as [raw|] eqn:Ea; [|done].
  intros (coins & Hc & (mi & Hm & ([[s r] a] & Ha & [= <-])%res_bind_ok)%res_bind_ok)%res_bind_ok.
  split; [done|]. exists raw, coins, mi. split_and!; [done| | | |].
  - by destruct (ParseCoinsNormalized raw); simplify_eq/=.
  - by destruct (parseMsgIndex _); simplify_eq/=.
  - rewrite <- list_fmap_compose. rewrite (list_fmap_ext _ id), list_fmap_id; [done|].
    by intros i [d n] _.
  - by apply Forall_fmap, Forall_true.
Qed.

Lemma parseMsgIndex_nonneg attrs i : parseMsgIndex attrs = Ok (Some i) → 0 ≤ i.
Proof.
  unfold parseMsgIndex. destruct (attrs !! _); [|done]. case_bool_decide; [done|].
  intros (idx & _ & Hi)%res_bind_ok. case_bool_decide; simplify_eq. lia.
Qed.

(** Tracked events always have topics. *)
Lemma eventTopics_tracked e : IsTrackedEventType (be_Type e) = true → is_ok (eventTopics e) = true.
Proof.
  unfold IsTrackedEventType, eventTopics. rewrite bool_decide_eq_true, !elem_of_cons.
  intros Hin. repeat case_bool_decide; try done. set_solver.
Qed.

Lemma EthereumLogs_spec events logs :
  EthereumLogs events = Ok logs →
  Forall2 (λ e log, ∃ topics data, log = Some (bare_log ContractAddress topics data) ∧
    eventTopics e = Ok topics ∧ denomAmountArgs_Pack (be_Denom e) (be_Amount e) = Ok data) events logs.
Proof.
  revert logs. induction events as [|e events IH]; intros logs; cbn [EthereumLogs res_mapM].
  - intros [= <-]. constructor.
  - intros (log & (data & Hd & (topics & Ht & [= <-])%res_bind_ok)%res_bind_ok & (logs' & Hl & [= <-])%res_bind_ok)%res_bind_ok.
    constructor; [|by apply IH]. exists topics, data. split_and!; try done.
    unfold lib in Hd. by destruct (denomAmountArgs_Pack _ _); simplify_eq/=.
Qed.
End props.
End Bank.
