(* ===== verification/VirtualIbc.v ===== *)
(** * Virtual IBC hook events

    src/internal/evm/rpc/virtual/ibc/ibc.go: hook events, plain or with the error
    prefix of ibc-go, parsed into hook calls and turned into metadata-free Ethereum
    logs.  The typed-event decoder and the ABI packer are parameters. *)

From Stdlib Require Import Ascii String.
From S2P Require Import Prelude Bytes GoLib EthTypes EthInstances.
From stdpp Require Import strings list.
#[local] Open Scope Z_scope.

Module Ibc.
Import GoLib EthTypes.

Definition EventType : string := "injective.evm.v1.EventIBCHookCall".

Record HookCall := mkHookCall {
  DestinationPort : string;
  DestinationChannel : string;
  Sequence : Z;
  Contract : Address;
  Input : bytes;
  Success : bool;
  ReturnData : bytes;
  Error_ : string;
  GasUsed : Z;
  Logs : list (option EthLog);
  MsgIndex : option Z;
}.

(** evmtypes.EventIBCHookCall *)
Record EventIBCHookCall := mkEventIBCHookCall {
  eh_DestinationPort : string;
  eh_DestinationChannel : string;
  eh_Sequence : Z;
  eh_Contract : string;
  eh_Input : bytes;
  eh_Success : bool;
  eh_ReturnData : bytes;
  eh_Error : string;
  eh_GasUsed : Z;
  eh_Logs : list (option EvmLog);
}.

(** sdk.ParseTypedEvent ([None] when the event decodes to another type), the
    error prefix of ibc-go and the ABI packer of the summary. *)
Class IbcLib := {
  ErrorAttributeKeyPrefix : string;
  ParseTypedEvent : Event → res string (option EventIBCHookCall);
  summaryArgs_Pack : string → string → Z → bool → bytes → string → res string bytes;
}.

Section ops.
Context {EL : EthLib} {IL : IbcLib}.

Definition ContractAddress : Address := HexToAddress "0x0000000000000000000000000000000000000800".
Definition TopicHookCall : Hash :=
  Keccak256Hash [string_bytes "IBCHookCall(string,string,uint64,address,bool,bytes,string,uint256)"].

Definition normalizeEvent (event : Event) : option Event :=
  if bool_decide (ev_Type event = EventType) then Some event
  else if bool_decide (ev_Type event = ErrorAttributeKeyPrefix +:+ EventType) then
    Some (mkEvent EventType
      ((λ attr, mkAttr (strings_TrimPrefix (attr_Key attr) ErrorAttributeKeyPrefix)
                  (attr_Value attr) (attr_Index attr)) <$> ev_Attributes event))
  else None.

(** The first non-blank msg_index attribute decides. *)
Fixpoint parseMsgIndex (attrs : list EventAttribute) : res error (option Z) :=
  match attrs with
  | [] => Ok None
  | attr :: attrs =>
      if bool_decide (attr_Key attr ≠ "msg_index"%string) || bool_decide (strings_TrimSpace (attr_Value attr) = ""%string)
      then parseMsgIndex attrs
      else let! idx := lib (strconv_Atoi (attr_Value attr)) in
           if bool_decide (idx < 0) then Err (Errorf "negative msg_index %d") else Ok (Some idx)
  end.

Definition decode_topic (topic : string) : res error Hash :=
  match hexutil_Decode topic with
  | Ok bz => if bool_decide (length bz = HashLength) then Ok (BytesToHash bz)
             else Err (Errorf "invalid topic %d %q")
  | Err _ => Err (Errorf "invalid topic %d %q")
  | Panic m => Panic m
  end.

Definition ethereumLog (log : option EvmLog) : res error (option EthLog) :=
  match log with
  | None => Err (Errorf "nil log")
  | Some log =>
      if IsHexAddress (el_Address log) then
        let! topics := res_mapM decode_topic (el_Topics log) in
        Ok (Some (mkEthLog (HexToAddress (el_Address log)) topics (el_Data log)
                    0 zero_hash 0 zero_hash 0 false))
      else Err (Errorf "invalid address %q")
  end.

(** [None]: not a hook event. *)
Definition ParseEvent (event : Event) : res error (option HookCall) :=
  match normalizeEvent event with
  | None => Ok None
  | Some normalized =>
      let! msgIndex := res_map_err (Wrap "IBC hook event %d invalid msg_index")
                         (parseMsgIndex (ev_Attributes normalized)) in
      let! parsed := res_map_err (λ e, Wrap "IBC hook event %d" (New e)) (ParseTypedEvent normalized) in
      match parsed with
      | None => Err (Errorf "IBC hook event %d decoded as %T")
      | Some typed =>
          if IsHexAddress (eh_Contract typed) then
            let! logs := res_mapM (λ log, res_map_err (Wrap "IBC hook event %d log %d") (ethereumLog log))
                           (eh_Logs typed) in
            Ok (Some (mkHookCall (eh_DestinationPort typed) (eh_DestinationChannel typed) (eh_Sequence typed)
                        (HexToAddress (eh_Contract typed)) (eh_Input typed) (eh_Success typed)
                        (eh_ReturnData typed) (eh_Error typed) (eh_GasUsed typed) logs msgIndex))
          else Err (Errorf "IBC hook event %d invalid contract %q")
      end
  end.

Definition EthereumLogs (call : option HookCall) : res error (list (option EthLog)) :=
  match call with
  | None => Ok []
  | Some call =>
      match MsgIndex call with
      | Some msgIndex =>
          if bool_decide (msgIndex < 0) then Err (Errorf "IBC hook requires a nonnegative msg_index")
          else
            let! data := lib (summaryArgs_Pack (DestinationPort call) (DestinationChannel call)
                                (Sequence call) (Success call) (ReturnData call) (Error_ call)) in
            Ok (omap (λ log, (λ log, Some (mkEthLog (log_Address log) (log_Topics log) (log_Data log)
                                             0 zero_hash 0 zero_hash 0 false)) <$> log) (Logs call) ++
                [Some (mkEthLog ContractAddress
                   [TopicHookCall; BytesToHash (Contract call); BigToHash msgIndex] data
                   0 zero_hash 0 zero_hash 0 false)])
      | None => Err (Errorf "IBC hook requires a nonnegative msg_index")
      end
  end.
End ops.

(** ** Lemmas *)

Section props.
Context {EL : EthLib} {IL : IbcLib}.

(** A hook that has logs has a message index, at least the summary log, and no
    nil log. *)
Lemma EthereumLogs_hook call logs :
  EthereumLogs (Some call) = Ok logs →
  (∃ i, MsgIndex call = Some i ∧ 0 ≤ i) ∧ logs ≠ [] ∧ Forall is_Some logs.
Proof.
  unfold EthereumLogs. destruct (MsgIndex call) as [i|]; [|done]. case_bool_decide; [done|].
  intros (data & _ & [= <-])%res_bind_ok. split_and!.
  - exists i. split; [done|]. lia.
  - intros E%app_nil. by destruct E.
  - apply Forall_app. split; [|by repeat constructor].
    induction (Logs call) as [|[log|] l IH]; simpl; [constructor|constructor; [done|exact IH]|exact IH].
Qed.
End props.
End Ibc.
