(* ===== verification/VirtualResponse.v ===== *)
(** * Virtual view of a transaction response

    src/internal/evm/rpc/virtual/response.go: the virtualizable events of one Cosmos
    transaction, the logs that belong to its Ethereum messages, and the
    synthetic transactions that carry the rest. *)

From Stdlib Require Import Ascii String.
From S2P Require Import Prelude Bytes GoLib EthTypes EthInstances Virtual VirtualBank VirtualIbc.
From stdpp Require Import strings list pretty.
#[local] Open Scope Z_scope.

Module VirtualResponse.
Import GoLib EthTypes Virtual.

Record entry := mkEntry {
  e_logs : list (option EthLog);
  e_msgIndex : option Z;
  e_hook : option Ibc.HookCall;
}.

Record Response := mkResponse {
  entries : list entry;
  code : Z;
  gasUsed : Z;
}.

Record TxContext := mkTxContext {
  c_Tx : bytes;
  c_EthereumMessageIndexes : gset Z;
  c_EthereumGasUsed : Z;
  c_TotalMessages : Z;
  c_BlockHash : Hash;
  c_BlockNumber : Z;
  c_TxIndex : Z;
  c_FirstLogIndex : Z;
  c_CumulativeGasUsedBefore : Z;
  c_ChainID : option Z;
}.

(** ** Ownership of an event *)

Definition belongsToMessage (msgIndex : option Z) (wanted total : Z) : bool :=
  match msgIndex with
  | Some i => bool_decide (i = wanted)
  | None => bool_decide (total = 1) && bool_decide (wanted = 0)
  end.

Definition belongsToNonEthereumMessage (msgIndex : option Z) (ethereumIndexes : gset Z) (total : Z) : bool :=
  match msgIndex with
  | Some i => negb (bool_decide (i ∈ ethereumIndexes))
  | None => negb (bool_decide (total = 1) && bool_decide (0 ∈ ethereumIndexes))
  end.

Definition hookMsgIndex (hook : Ibc.HookCall) : option Z := uint64 <$> Ibc.MsgIndex hook.

(** The logs of an event, marked with the message index of its hook.  Marking a nil
    log would dereference it. *)
Definition set_cosmos_msg_index (index : option Z) (log : RPCLog) : RPCLog :=
  mkRPCLog (l_Address log) (l_Topics log) (l_Data log) (l_BlockNumber log) (l_TxHash log) (l_TxIndex log)
    (l_BlockHash log) (l_Index log) (l_Removed log) (l_Virtual log) (l_CosmosHash log) index.

Definition wrap_event (cosmosHash : option Hash) (event : entry) : res error (list (option RPCLog)) :=
  let eventLogs := WrapLogs (e_logs event) true cosmosHash in
  match e_hook event with
  | None => Ok eventLogs
  | Some hook =>
      res_mapM (λ log, match log with
        | Some log => Ok (Some (set_cosmos_msg_index (hookMsgIndex hook) log))
        | None => Panic "nil pointer dereference"
        end) eventLogs
  end.

Definition wrap_events (cosmosHash : option Hash) (events : list entry) : res error (list (option RPCLog)) :=
  res_foldl (λ logs event, let! eventLogs := wrap_event cosmosHash event in Ok (logs ++ eventLogs)) [] events.

(** ** Stable sort of the hooks by message index (sort.SliceStable) *)

Fixpoint insert_hook (key : entry → Z) (e : entry) (l : list entry) : list entry :=
  match l with
  | [] => [e]
  | e' :: l' => if bool_decide (key e < key e') then e :: l else e' :: insert_hook key e l'
  end.

Definition sort_hooks (key : entry → Z) (l : list entry) : list entry :=
  foldl (λ acc e, insert_hook key e acc) [] l.

Definition hook_index (e : entry) : Z := default 0 (e_msgIndex e).

Section ops.
Context {EL : EthLib} {CL : ChainLib} {BL : Bank.BankLib} {IL : Ibc.IbcLib}.

(** evmtypes.IBCHookCallerAddressHex *)
Context (IBCHookCallerAddressHex : string).

(** One event of ParseResponse: the entry it adds, if any. *)
Definition parse_event (event : Event) : res error (option entry) :=
  let! bankEvents := Bank.ParseEvent event in
  match bankEvents with
  | Some bankEvents =>
      let! logs := res_map_err (Wrap "bank event %d") (Bank.EthereumLogs bankEvents) in
      let msgIndex := match bankEvents with e :: _ => Bank.be_MsgIndex e | [] => None end in
      Ok (Some (mkEntry logs msgIndex None))
  | None =>
      let! hook := Ibc.ParseEvent event in
      match hook with
      | Some hook =>
          let! logs := res_map_err (Wrap "IBC hook event %d") (Ibc.EthereumLogs (Some hook)) in
          Ok (Some (mkEntry logs (Ibc.MsgIndex hook) (Some hook)))
      | None => Ok None
      end
  end.

Definition ParseResponse (resp : option ExecTxResult) : res error Response :=
  match resp with
  | None => Err (Errorf "transaction response is nil")
  | Some resp =>
      let gas := if bool_decide (0 < res_GasUsed resp) then uint64 (res_GasUsed resp) else 0 in
      let! es := res_foldl (λ es event,
          let! e := parse_event event in
          match e with Some e => Ok (es ++ [e]) | None => Ok es end) [] (res_Events resp) in
      Ok (mkResponse es (res_Code resp) gas)
  end.

Definition LogsForMessage (r : Response) (msgIndex totalMessages : Z) (ctx : LogContext) :
    res error (list (option RPCLog)) :=
  let! logs := wrap_events None
    (filter (λ e, belongsToMessage (e_msgIndex e) msgIndex totalMessages = true) (entries r)) in
  Ok (SetLogMetadata logs ctx).

Definition syntheticTx (r : Response) (ctx : TxContext) (events : list entry) (hook : option Ibc.HookCall)
    (txHash : Hash) (gas : Z) : res error Tx :=
  let cosmosHash := OriginalCosmosTxHash (c_Tx ctx) in
  let logCtx := mkLogContext (c_BlockHash ctx) (c_BlockNumber ctx) txHash (uint64 (c_TxIndex ctx))
                  (c_FirstLogIndex ctx) (Some cosmosHash) in
  let! logs := wrap_events (Some cosmosHash) events in
  let logs := SetLogMetadata logs logCtx in
  let status := if bool_decide (code r ≠ CodeTypeOK) then ReceiptStatusFailed else ReceiptStatusSuccessful in
  let '(from, to, input, txGas, receiptGasUsed, vmError, status) :=
    match hook with
    | None => (zero_address, Bank.ContractAddress, [], 0, gas, ""%string, status)
    | Some hook =>
        (HexToAddress IBCHookCallerAddressHex, Ibc.Contract hook, Ibc.Input hook, Ibc.GasUsed hook,
         Ibc.GasUsed hook, Ibc.Error_ hook,
         if Ibc.Success hook then status else ReceiptStatusFailed)
    end in
  let tx := newRPCTransaction txHash (c_BlockHash ctx) (c_BlockNumber ctx) (c_TxIndex ctx) (c_ChainID ctx)
              (Some cosmosHash) from to input txGas in
  let tx := match hook with
            | Some hook => mkRPCTransaction (t_BlockHash tx) (t_BlockNumber tx) (t_From tx) (t_Gas tx)
                (t_GasPrice tx) (t_GasFeeCap tx) (t_GasTipCap tx) (t_Hash tx) (t_Input tx) (t_Nonce tx)
                (t_To tx) (t_TransactionIndex tx) (t_Value tx) (t_Type tx) (t_Accesses tx) (t_ChainID tx)
                (t_V tx) (t_R tx) (t_S tx) (t_Virtual tx) (t_CosmosHash tx) (hookMsgIndex hook)
            | None => tx
            end in
  Ok (mkTx tx
        (mkReceipt status (uint64 (c_CumulativeGasUsedBefore ctx + receiptGasUsed)) receiptGasUsed ""
           vmError logs txHash (c_BlockHash ctx) (c_BlockNumber ctx) (c_TxIndex ctx) (Some 0) from (Some to)
           LegacyTxType)).

(** ** SyntheticTxs *)

Definition selected (r : Response) (ctx : TxContext) : list entry :=
  filter (λ e, e_logs e ≠ [] ∧
    belongsToNonEthereumMessage (e_msgIndex e) (c_EthereumMessageIndexes ctx) (c_TotalMessages ctx) = true)
    (entries r).

Definition bank_entries (l : list entry) : list entry := filter (λ e, e_hook e = None) l.
Definition hook_entries (l : list entry) : list entry := filter (λ e, e_hook e ≠ None) l.

(** The counting loop, which also refuses hooks without a message index. *)
Definition count_hooks (total : Z) (hooks : list entry) : res error (gmap Z Z) :=
  res_foldl (λ m e, match e_msgIndex e with
    | Some i => if bool_decide (i < 0 ∨ total ≤ i) then Err (Errorf "IBC hook calls require valid msg_index attributes")
                else Ok (<[i := default 0 (m !! i) + 1]> m)
    | None => Err (Errorf "IBC hook calls require valid msg_index attributes")
    end) ∅ hooks.

(** accountGas: subtraction that stops at zero. *)
Definition account_gas (bankGasUsed gas : Z) : Z :=
  if bool_decide (bankGasUsed ≤ gas) then 0 else bankGasUsed - gas.

Definition entry_gas (e : entry) : Z := match e_hook e with Some h => Ibc.GasUsed h | None => 0 end.

(** appendTx: the context for the next transaction. *)
Definition next_context (ctx : TxContext) (tx : Tx) : TxContext :=
  mkTxContext (c_Tx ctx) (c_EthereumMessageIndexes ctx) (c_EthereumGasUsed ctx) (c_TotalMessages ctx)
    (c_BlockHash ctx) (c_BlockNumber ctx) (uint64 (c_TxIndex ctx + 1))
    (uint64 (c_FirstLogIndex ctx + Z.of_nat (length (r_Logs (Receipt_ tx)))))
    (r_CumulativeGasUsed (Receipt_ tx)) (c_ChainID ctx).

Definition hook_hash (tx : bytes) (counts : gmap Z Z) (i ordinal : Z) : Hash :=
  if bool_decide (1 < default 0 (counts !! i)) then NestedIBCHookTxHash tx i ordinal else IBCHookTxHash tx i.

(** The loop over the sorted hooks; [prev] is the index of the previous hook. *)
Fixpoint hook_txs (r : Response) (counts : gmap Z Z) (ctx : TxContext) (prev : option Z) (ordinal : Z)
    (hooks : list entry) : res error (list Tx) :=
  match hooks with
  | [] => Ok []
  | e :: hooks =>
      let i := hook_index e in
      let ordinal := match prev with
                     | Some p => if bool_decide (p ≠ i) then 0 else ordinal
                     | None => ordinal
                     end in
      let! tx := syntheticTx r ctx [e] (e_hook e) (hook_hash (c_Tx ctx) counts i ordinal) (entry_gas e) in
      let! txs := hook_txs r counts (next_context ctx tx) (Some i) (ordinal + 1) hooks in
      Ok (tx :: txs)
  end.

Definition SyntheticTxs (r : Response) (ctx : TxContext) : res error (list Tx) :=
  let bankEvents := bank_entries (selected r ctx) in
  let hooks := hook_entries (selected r ctx) in
  match bankEvents, hooks with
  | [], [] => Ok []
  | _, [] =>
      let! tx := syntheticTx r ctx bankEvents None (CosmosTxHash (c_Tx ctx)) (gasUsed r) in Ok [tx]
  | _, _ =>
      let! counts := count_hooks (c_TotalMessages ctx) hooks in
      let hooks := sort_hooks hook_index hooks in
      let ctx := mkTxContext (c_Tx ctx) (c_EthereumMessageIndexes ctx) (c_EthereumGasUsed ctx)
                   (c_TotalMessages ctx) (c_BlockHash ctx) (c_BlockNumber ctx) (c_TxIndex ctx)
                   (c_FirstLogIndex ctx)
                   (uint64 (c_CumulativeGasUsedBefore ctx + c_EthereumGasUsed ctx)) (c_ChainID ctx) in
      let bankGasUsed := foldl (λ g e, account_gas g (entry_gas e))
                           (account_gas (gasUsed r) (c_EthereumGasUsed ctx)) hooks in
      match bankEvents with
      | [] => hook_txs r counts ctx None 0 hooks
      | _ =>
          let! tx := syntheticTx r ctx bankEvents None (CosmosTxHash (c_Tx ctx)) bankGasUsed in
          let! txs := hook_txs r counts (next_context ctx tx) None 0 hooks in
          Ok (tx :: txs)
      end
  end.

(** ** Block events *)

Definition SplitBlockEvents (events : list Event) :
    res error (list (option EthLog) * list (option EthLog)) :=
  let! bankEvents := Bank.ParseEvents events in
  let beginEvents := filter (λ e, Bank.be_Mode e = Bank.ModeBeginBlock) bankEvents in
  let endEvents := filter (λ e, Bank.be_Mode e ≠ Bank.ModeBeginBlock) bankEvents in
  let! begin_ := Bank.EthereumLogs beginEvents in
  let! end_ := Bank.EthereumLogs endEvents in
  Ok (begin_, end_).

Definition MaterializeLogs (logs : list (option EthLog)) (ctx : LogContext) : list (option RPCLog) :=
  SetLogMetadata (WrapLogs logs true (ctx_CosmosHash ctx)) ctx.

Definition NewBlockTx (hash : Hash) (logs : list (option EthLog)) (ctx : LogContext) (chainID : option Z)
    (cumulativeGasUsed : Z) : Tx :=
  let materialized := MaterializeLogs logs ctx in
  let tx := newRPCTransaction hash (ctx_BlockHash ctx) (ctx_BlockNumber ctx) (uint64 (ctx_TxIndex ctx))
              chainID None zero_address Bank.ContractAddress [] 0 in
  mkTx tx (mkReceipt ReceiptStatusSuccessful cumulativeGasUsed 0 "" "" materialized hash (ctx_BlockHash ctx)
             (ctx_BlockNumber ctx) (uint64 (ctx_TxIndex ctx)) (Some 0) zero_address
             (Some Bank.ContractAddress) LegacyTxType).
End ops.

(** ** Conservation of logs *)

(** What a log says, without its place in the block. *)
Definition body : Type := Address * list Hash * bytes.
Definition eth_body (log : option EthLog) : option body :=
  (λ l, (log_Address l, log_Topics l, log_Data l)) <$> log.
Definition rpc_body (log : option RPCLog) : option body :=
  (λ l, (l_Address l, l_Topics l, l_Data l)) <$> log.
Definition entry_bodies (e : entry) : list (option body) := eth_body <$> e_logs e.

Lemma wrap_event_bodies h e logs : wrap_event h e = Ok logs → rpc_body <$> logs = entry_bodies e.
Proof.
  unfold wrap_event, entry_bodies. assert (rpc_body <$> WrapLogs (e_logs e) true h = eth_body <$> e_logs e) as Hw.
  { unfold WrapLogs. rewrite <- list_fmap_compose. apply list_fmap_ext. by intros i [l|] _. }
  destruct (e_hook e) as [hook|]; [|by intros [= <-]]. rewrite <- Hw. generalize (WrapLogs (e_logs e) true h).
  intros l. revert logs. induction l as [|[x|] l IH]; intros logs; cbn [res_mapM res_bind].
  - by intros [= <-].
  - intros (ys & Hys & [= <-])%res_bind_ok. rewrite !fmap_cons. f_equal. by apply IH.
  - done.
Qed.

Lemma wrap_events_bodies h es logs : wrap_events h es = Ok logs → rpc_body <$> logs = es ≫= entry_bodies.
Proof.
  unfold wrap_events. assert (∀ acc, res_foldl (λ logs event, let! eventLogs := wrap_event h event in Ok (logs ++ eventLogs)) acc es = Ok logs →
    rpc_body <$> logs = (rpc_body <$> acc) ++ (es ≫= entry_bodies)) as Hg; [|intros Hf; by apply Hg in Hf].
  induction es as [|e es IH]; intros acc; cbn [res_foldl].
  - intros [= <-]. by rewrite app_nil_r.
  - intros (acc' & (el & He & [= <-])%res_bind_ok & Hf)%res_bind_ok. apply IH in Hf.
    rewrite Hf, fmap_app, bind_cons, (wrap_event_bodies _ _ _ He). by rewrite app_assoc.
Qed.

Lemma SetLogMetadata_bodies logs ctx : rpc_body <$> SetLogMetadata logs ctx = rpc_body <$> logs.
Proof.
  apply list_eq. intros i. rewrite !list_lookup_fmap, SetLogMetadata_lookup.
  destruct (logs !! i) as [[log|]|]; done.
Qed.

Lemma insert_hook_perm key e l : insert_hook key e l ≡ₚ e :: l.
Proof.
  induction l as [|e' l IH]; simpl; [done|]. case_bool_decide; [done|]. rewrite IH. apply Permutation_swap.
Qed.

Lemma sort_hooks_perm key l : sort_hooks key l ≡ₚ l.
Proof.
  unfold sort_hooks. assert (∀ acc, foldl (λ acc e, insert_hook key e acc) acc l ≡ₚ l ++ acc) as Hg.
  { induction l as [|e l IH]; intros acc; simpl; [done|]. rewrite IH, insert_hook_perm.
    symmetry. apply Permutation_middle. }
  by rewrite Hg, app_nil_r.
Qed.

Lemma bank_hook_split l : bank_entries l ++ hook_entries l ≡ₚ l.
Proof.
  unfold bank_entries, hook_entries. induction l as [|e l IH]; [done|].
  rewrite !filter_cons. destruct (decide (e_hook e = None)) as [He|He].
  - rewrite decide_False by tauto. simpl. by rewrite IH.
  - rewrite decide_True by done. by rewrite <- Permutation_middle, IH.
Qed.

Section props.
Context {EL : EthLib} {CL : ChainLib} {BL : Bank.BankLib} {IL : Ibc.IbcLib}.
Context (caller : string).

(** The place of a synthetic transaction: its index, hash and block, the chained
    cumulative gas, and logs numbered from the first log index. *)
Definition tx_at (ctx : TxContext) (tx : Tx) : Prop :=
  let r := Receipt_ tx in
  r_TransactionIndex r = c_TxIndex ctx ∧ t_TransactionIndex (Transaction_ tx) = Some (c_TxIndex ctx) ∧
  t_Hash (Transaction_ tx) = r_TransactionHash r ∧
  r_BlockHash r = c_BlockHash ctx ∧ r_BlockNumber r = c_BlockNumber ctx ∧
  r_CumulativeGasUsed r = uint64 (c_CumulativeGasUsedBefore ctx + r_GasUsed r) ∧
  ∀ n log, r_Logs r !! n = Some (Some log) →
    l_Index log = uint64 (c_FirstLogIndex ctx + Z.of_nat n) ∧ l_TxIndex log = uint64 (c_TxIndex ctx) ∧
    l_TxHash log = r_TransactionHash r ∧ l_BlockHash log = c_BlockHash ctx ∧
    l_BlockNumber log = c_BlockNumber ctx.

Lemma syntheticTx_spec r ctx events hook hash gas tx :
  syntheticTx caller r ctx events hook hash gas = Ok tx →
  tx_at ctx tx ∧ rpc_body <$> r_Logs (Receipt_ tx) = events ≫= entry_bodies ∧
  r_TransactionHash (Receipt_ tx) = hash ∧
  r_GasUsed (Receipt_ tx) = match hook with Some h => Ibc.GasUsed h | None => gas end.
Proof.
  unfold syntheticTx. intros (logs & Hl & Hr)%res_bind_ok.
  set (lc := mkLogContext _ _ _ _ _ _) in *.
  assert (∀ n log, SetLogMetadata logs lc !! n = Some (Some log) →
    l_Index log = uint64 (c_FirstLogIndex ctx + Z.of_nat n) ∧ l_TxIndex log = uint64 (c_TxIndex ctx) ∧
    l_TxHash log = hash ∧ l_BlockHash log = c_BlockHash ctx ∧ l_BlockNumber log = c_BlockNumber ctx) as Hm.
  { intros n log. rewrite SetLogMetadata_lookup. destruct (logs !! n) as [[l0|]|]; simpl; [|done..].
    by intros [= <-]. }
  assert (rpc_body <$> SetLogMetadata logs lc = events ≫= entry_bodies) as Hb.
  { by rewrite SetLogMetadata_bodies, (wrap_events_bodies _ _ _ Hl). }
  destruct hook as [hook|]; injection Hr as <-; by split_and!.
Qed.

(** A list of transactions laid out one after the other. *)
Fixpoint laid_out (ctx : TxContext) (txs : list Tx) : Prop :=
  match txs with
  | [] => True
  | tx :: txs => tx_at ctx tx ∧ laid_out (next_context ctx tx) txs
  end.

Definition tx_logs (txs : list Tx) : list (option RPCLog) := txs ≫= λ tx, r_Logs (Receipt_ tx).

Lemma hook_txs_spec r counts ctx prev ordinal hooks txs :
  hook_txs caller r counts ctx prev ordinal hooks = Ok txs →
  Forall (λ e, e_hook e ≠ None) hooks →
  laid_out ctx txs ∧ rpc_body <$> tx_logs txs = hooks ≫= entry_bodies ∧
  (λ tx, r_GasUsed (Receipt_ tx)) <$> txs = entry_gas <$> hooks.
Proof.
  revert ctx prev ordinal txs. induction hooks as [|e hooks IH]; intros ctx prev ordinal txs; cbn [hook_txs].
  - by intros [= <-] _.
  - intros (tx & Htx & (txs' & Hh & [= <-])%res_bind_ok)%res_bind_ok [He Hall]%Forall_cons.
    apply syntheticTx_spec in Htx as (T1 & T2 & T3 & T4). apply IH in Hh as (L1 & L2 & L3); [|done].
    split; [exact (conj T1 L1)|split].
    + unfold tx_logs in *. rewrite !bind_cons, fmap_app, L2, T2, bind_cons. simpl. by rewrite app_nil_r.
    + rewrite !fmap_cons, L3, T4. f_equal. unfold entry_gas. by destruct (e_hook e).
Qed.

Definition with_before (ctx : TxContext) (before : Z) : TxContext :=
  mkTxContext (c_Tx ctx) (c_EthereumMessageIndexes ctx) (c_EthereumGasUsed ctx) (c_TotalMessages ctx)
    (c_BlockHash ctx) (c_BlockNumber ctx) (c_TxIndex ctx) (c_FirstLogIndex ctx) before (c_ChainID ctx).

Definition receipt_gas (txs : list Tx) : list Z := (λ tx, r_GasUsed (Receipt_ tx)) <$> txs.

(** The gas of the bank envelope and of the hooks, in transaction order. *)
Definition expected_gas (r : Response) (ctx : TxContext) : list Z :=
  let bankEvents := bank_entries (selected r ctx) in
  let hooks := sort_hooks hook_index (hook_entries (selected r ctx)) in
  let bankGas := match hooks with
                 | [] => gasUsed r
                 | _ => foldl (λ g e, account_gas g (entry_gas e))
                          (account_gas (gasUsed r) (c_EthereumGasUsed ctx)) hooks
                 end in
  (match bankEvents with [] => [] | _ => [bankGas] end) ++ (entry_gas <$> hooks).

(** The cumulative gas before the first synthetic transaction. *)
Definition gas_before (r : Response) (ctx : TxContext) : Z :=
  match hook_entries (selected r ctx) with
  | [] => c_CumulativeGasUsedBefore ctx
  | _ => uint64 (c_CumulativeGasUsedBefore ctx + c_EthereumGasUsed ctx)
  end.

Lemma sort_hooks_nonempty key e l : ∃ e' l', sort_hooks key (e :: l) = e' :: l'.
Proof.
  destruct (sort_hooks key (e :: l)) as [|e' l'] eqn:E; [|eauto].
  pose proof (sort_hooks_perm key (e :: l)) as Hp. rewrite E in Hp. by apply Permutation_nil in Hp.
Qed.

Lemma hooks_all r ctx : Forall (λ e, e_hook e ≠ None) (sort_hooks hook_index (hook_entries (selected r ctx))).
Proof.
  rewrite sort_hooks_perm. apply Forall_forall. intros e. unfold hook_entries.
  by intros [? _]%list_elem_of_filter.
Qed.

Lemma SyntheticTxs_spec r ctx txs :
  SyntheticTxs caller r ctx = Ok txs →
  laid_out (with_before ctx (gas_before r ctx)) txs ∧
  rpc_body <$> tx_logs txs ≡ₚ selected r ctx ≫= entry_bodies ∧
  receipt_gas txs = expected_gas r ctx.
Proof.
  unfold SyntheticTxs, gas_before, expected_gas. intros Hs.
  pose proof (hooks_all r ctx) as Hall.
  assert (selected r ctx ≫= entry_bodies ≡ₚ
          (bank_entries (selected r ctx) ≫= entry_bodies) ++
          (sort_hooks hook_index (hook_entries (selected r ctx)) ≫= entry_bodies)) as Hsel.
  { rewrite <- bind_app. rewrite sort_hooks_perm. by rewrite bank_hook_split. }
  rewrite Hsel. clear Hsel.
  destruct (hook_entries (selected r ctx)) as [|h hs] eqn:Eh.
  - change (sort_hooks hook_index [] ≫= entry_bodies) with (@nil (option body)). rewrite app_nil_r. destruct (bank_entries (selected r ctx)) as [|b bs] eqn:Eb.
    + by injection Hs as <-.
    + apply res_bind_ok in Hs as (tx & Htx & [= <-]). apply syntheticTx_spec in Htx as (T1 & T2 & T3 & T4).
      split; [by split|]. unfold tx_logs. simpl. rewrite app_nil_r, T2. split; [done|]. simpl. by rewrite T4.
  - set (sorted := sort_hooks hook_index (h :: hs)) in *.
    destruct (sort_hooks_nonempty hook_index h hs) as (e' & l' & Es). fold sorted in Es.
    destruct (bank_entries (selected r ctx)) as [|b bs] eqn:Eb.
    + apply res_bind_ok in Hs as (counts & _ & Hh). apply hook_txs_spec in Hh as (L1 & L2 & L3); [|done].
      split_and!; [exact L1|by rewrite L2|]. unfold receipt_gas. by rewrite L3, Es.
    + apply res_bind_ok in Hs as (counts & _ & (tx & Htx & (txs' & Hh & [= <-])%res_bind_ok)%res_bind_ok).
      apply hook_txs_spec in Hh as (L1 & L2 & L3); [|done].
      apply syntheticTx_spec in Htx as (T1 & T2 & T3 & T4).
      split; [exact (conj T1 L1)|split].
      * unfold tx_logs in *. by rewrite bind_cons, fmap_app, L2, T2.
      * unfold receipt_gas. rewrite fmap_cons, L3, T4, Es. done.
Qed.

(** ** The layout in closed form *)

Definition sum (l : list Z) : Z := foldr Z.add 0 l.

Lemma sum_cons x l : sum (x :: l) = x + sum l.
Proof. done. Qed.

Lemma laid_out_lookup ctx txs k tx :
  laid_out ctx txs → is_uint64 (c_TxIndex ctx) → txs !! k = Some tx →
  r_TransactionIndex (Receipt_ tx) = uint64 (c_TxIndex ctx + Z.of_nat k) ∧
  t_TransactionIndex (Transaction_ tx) = Some (uint64 (c_TxIndex ctx + Z.of_nat k)) ∧
  t_Hash (Transaction_ tx) = r_TransactionHash (Receipt_ tx) ∧
  r_CumulativeGasUsed (Receipt_ tx) =
    uint64 (c_CumulativeGasUsedBefore ctx + sum (take (S k) (receipt_gas txs))).
Proof.
  revert ctx k. induction txs as [|tx0 txs IH]; intros ctx k; [done|].
  intros [(T1 & T2 & T3 & _ & _ & T6 & _) Hl] Hu. destruct k as [|k].
  - intros [= ->]. rewrite T1, T2, T3, T6, Z.add_0_r, uint64_small by done. split_and!; [done..|].
    f_equal. unfold receipt_gas. simpl. lia.
  - intros Hk. destruct (IH _ _ Hl (uint64_range _) Hk) as (K1 & K2 & K3 & K4).
    cbn [next_context c_TxIndex c_CumulativeGasUsedBefore] in *.
    rewrite uint64_add_idemp_l in K1, K2. split_and!; [|rewrite K2|done|].
    + rewrite K1. f_equal. lia.
    + do 2 f_equal. lia.
    + rewrite K4, T6, uint64_add_idemp_l. f_equal. unfold receipt_gas. cbn [fmap list_fmap take sum foldr]. unfold sum. lia.
Qed.

Lemma laid_out_logs ctx txs n log :
  laid_out ctx txs → tx_logs txs !! n = Some (Some log) →
  l_Index log = uint64 (c_FirstLogIndex ctx + Z.of_nat n) ∧ l_BlockHash log = c_BlockHash ctx ∧
  ∃ tx, tx ∈ txs ∧ l_TxHash log = r_TransactionHash (Receipt_ tx).
Proof.
  revert ctx n. induction txs as [|tx0 txs IH]; intros ctx n; [done|].
  intros [(_ & _ & _ & _ & _ & _ & T7) Hl]. unfold tx_logs in *. rewrite bind_cons.
  intros [Hn|[Hle Hn]]%lookup_app_Some.
  - destruct (T7 _ _ Hn) as (E1 & _ & E2 & E3 & _). split_and!; [done|done|]. exists tx0. split; [by left|done].
  - destruct (IH _ _ Hl Hn) as (E1 & E2 & tx & Hin & E3).
    cbn [next_context c_FirstLogIndex c_BlockHash] in *. rewrite uint64_add_idemp_l in E1.
    split_and!; [rewrite E1; f_equal; lia|done|]. exists tx. split; [by right|done].
Qed.

Lemma sum_gas_nonneg es : Forall (λ e, 0 ≤ entry_gas e) es → 0 ≤ sum (entry_gas <$> es).
Proof.
  induction 1 as [|e es He _ IH]; [done|]. rewrite fmap_cons, sum_cons. lia.
Qed.

Lemma account_gas_sum g es :
  0 ≤ g → Forall (λ e, 0 ≤ entry_gas e) es →
  foldl (λ g e, account_gas g (entry_gas e)) g es = Z.max 0 (g - sum (entry_gas <$> es)).
Proof.
  intros Hg Hes. revert g Hg. induction Hes as [|e es He Hes IH]; intros g Hg; [simpl; lia|].
  assert (0 ≤ sum (entry_gas <$> es)) as Hpos by (by apply sum_gas_nonneg).
  cbn [foldl]. rewrite fmap_cons, sum_cons.
  unfold account_gas at 2. case_bool_decide; rewrite IH by lia; lia.
Qed.

Lemma sum_perm l l' : l ≡ₚ l' → sum l = sum l'.
Proof. induction 1; simpl; lia. Qed.


(** ** Every event has one owner *)

Lemma belongs_unique m total i j :
  belongsToMessage m i total = true → belongsToMessage m j total = true → i = j.
Proof. unfold belongsToMessage. destruct m; rewrite ?andb_true_iff, !bool_decide_eq_true; lia. Qed.

Lemma belongs_non_ethereum m total (eth : gset Z) :
  belongsToNonEthereumMessage m eth total = true ↔ ∀ i, i ∈ eth → belongsToMessage m i total = false.
Proof.
  unfold belongsToMessage, belongsToNonEthereumMessage. destruct m as [k|]; split.
  - intros Hk%negb_true_iff%bool_decide_eq_false i Hi. apply bool_decide_eq_false. intros ->. done.
  - intros Hall. apply negb_true_iff, bool_decide_eq_false. intros Hk.
    specialize (Hall _ Hk). by rewrite bool_decide_true in Hall.
  - intros Hk%negb_true_iff i Hi. destruct (bool_decide (total = 1)); [|done]. simpl in *.
    apply bool_decide_eq_false in Hk. apply bool_decide_eq_false. intros ->. done.
  - intros Hall. apply negb_true_iff. destruct (bool_decide (total = 1)); [|done]. simpl in *.
    apply bool_decide_eq_false. intros Hk. specialize (Hall _ Hk). done.
Qed.

Lemma filters_cons {A B} (P : Z → A → bool) (f : A → list B) idx e l :
  NoDup idx → (∀ i j, i ∈ idx → j ∈ idx → P i e = true → P j e = true → i = j) →
  (idx ≫= λ i, filter (λ x, P i x = true) (e :: l) ≫= f) ≡ₚ
  (if decide (Exists (λ i, P i e = true) idx) then f e else []) ++
  (idx ≫= λ i, filter (λ x, P i x = true) l ≫= f).
Proof.
  induction idx as [|i idx IH]; intros Hnd Hu; [by destruct (decide _) as [He%Exists_nil|]|].
  apply NoDup_cons in Hnd as [Hni Hnd]. rewrite !bind_cons, IH; [|done|].
  2: { intros a b Ha Hb. apply Hu; by right. }
  rewrite filter_cons. destruct (decide (P i e = true)) as [Hi|Hi].
  - rewrite (decide_True (P := Exists _ (i :: idx))) by (by left).
    rewrite (decide_False (P := Exists _ idx)).
    + rewrite bind_cons. simpl. by rewrite <- app_assoc.
    + intros (j & Hj & HP)%Exists_exists. assert (i = j) as -> by (apply Hu; [by left|by right|done..]). done.
  - destruct (decide (Exists (λ i, P i e = true) idx)) as [He|He].
    + rewrite decide_True by (by right). rewrite !app_assoc. f_equiv. apply Permutation_app_comm.
    + rewrite decide_False; [done|]. by intros [?|?]%Exists_cons.
Qed.

Lemma entries_split (r : Response) ctx idx :
  NoDup idx → (∀ i, i ∈ idx ↔ i ∈ c_EthereumMessageIndexes ctx) →
  entries r ≫= entry_bodies ≡ₚ
  (idx ≫= λ i, filter (λ e, belongsToMessage (e_msgIndex e) i (c_TotalMessages ctx) = true) (entries r)
               ≫= entry_bodies) ++ (selected r ctx ≫= entry_bodies).
Proof.
  intros Hnd Hidx. unfold selected. induction (entries r) as [|e l IH].
  - simpl. clear -idx. induction idx; [done|]. by rewrite bind_cons.
  - rewrite filters_cons; [|done|intros i j _ _; apply belongs_unique].
    rewrite bind_cons, IH. rewrite (filter_cons _ e l) at 1.
    destruct (decide (Exists _ idx)) as [He|He].
    + rewrite decide_False; [by rewrite app_assoc|].
      intros [_ Hb]. apply Exists_exists in He as (i & Hi & Hm).
      rewrite (proj1 (belongs_non_ethereum _ _ _) Hb i) in Hm; [done|]. by apply Hidx.
    + assert (belongsToNonEthereumMessage (e_msgIndex e) (c_EthereumMessageIndexes ctx) (c_TotalMessages ctx) = true) as Hb.
      { apply belongs_non_ethereum. intros i Hi%Hidx. destruct (belongsToMessage _ _ _) eqn:Em; [|done].
        exfalso. apply He, Exists_exists. eauto. }
      destruct (decide (e_logs e = [])) as [E0|E0].
      * rewrite decide_False by tauto. unfold entry_bodies at 1. rewrite E0. done.
      * rewrite decide_True by done. rewrite bind_cons. rewrite !app_assoc. f_equiv. apply Permutation_app_comm.
Qed.

(** C34. No virtual event is lost or duplicated: the logs of all events of
    a response are, up to order, the logs given to its Ethereum messages
    together with the logs of its synthetic transactions. *)
Theorem virtual_logs_conserved r ctx idx (place : Z → LogContext) (mlogs : Z → list (option RPCLog)) txs :
  NoDup idx → (∀ i, i ∈ idx ↔ i ∈ c_EthereumMessageIndexes ctx) →
  (∀ i, i ∈ idx → LogsForMessage r i (c_TotalMessages ctx) (place i) = Ok (mlogs i)) →
  SyntheticTxs caller r ctx = Ok txs →
  entries r ≫= entry_bodies ≡ₚ
  (idx ≫= λ i, rpc_body <$> mlogs i) ++ (rpc_body <$> tx_logs txs).
Proof.
  intros Hnd Hidx Hm (_ & -> & _)%SyntheticTxs_spec. rewrite (entries_split r ctx idx) by done.
  apply Permutation_app_tail. clear Hnd Hidx. induction idx as [|i idx IH]; [done|].
  rewrite !bind_cons. apply Permutation_app; [|apply IH; intros j Hj; apply Hm; by right].
  assert (i ∈ i :: idx) as Hin by (by left).
  apply Hm, res_bind_ok in Hin as (logs & Hl & [= <-]).
  by rewrite SetLogMetadata_bodies, (wrap_events_bodies _ _ _ Hl).
Qed.

(** ** Hashes of the synthetic transactions *)

(** The message index and the ordinal the hook loop uses for each hook. *)
Fixpoint labels (prev : option Z) (ordinal : Z) (hooks : list entry) : list (Z * Z) :=
  match hooks with
  | [] => []
  | e :: hooks =>
      let i := hook_index e in
      let ordinal := match prev with
                     | Some p => if bool_decide (p ≠ i) then 0 else ordinal
                     | None => ordinal
                     end in
      (i, ordinal) :: labels (Some i) (ordinal + 1) hooks
  end.

Definition hashes (txs : list Tx) : list Hash := (λ tx, r_TransactionHash (Receipt_ tx)) <$> txs.

Lemma next_context_Tx ctx tx : c_Tx (next_context ctx tx) = c_Tx ctx.
Proof. done. Qed.

Lemma hook_txs_hashes r counts ctx prev ordinal hooks txs :
  hook_txs caller r counts ctx prev ordinal hooks = Ok txs →
  hashes txs = (λ l, hook_hash (c_Tx ctx) counts l.1 l.2) <$> labels prev ordinal hooks.
Proof.
  revert ctx prev ordinal txs. induction hooks as [|e hooks IH]; intros ctx prev ordinal txs; cbn [hook_txs labels].
  - by intros [= <-].
  - intros (tx & Htx & (txs' & Hh & [= <-])%res_bind_ok)%res_bind_ok.
    apply syntheticTx_spec in Htx as (_ & _ & T3 & _). apply IH in Hh. unfold hashes in *.
    rewrite !fmap_cons, Hh, T3, next_context_Tx. done.
Qed.

Lemma labels_fst prev ordinal hooks : (labels prev ordinal hooks).*1 = hook_index <$> hooks.
Proof.
  revert prev ordinal. induction hooks as [|e hooks IH]; intros; [done|].
  cbn [labels]. by rewrite !fmap_cons, IH.
Qed.

Definition key_le (a b : entry) : Prop := hook_index a ≤ hook_index b.

Lemma insert_hook_sorted e l :
  StronglySorted key_le l → StronglySorted key_le (insert_hook hook_index e l).
Proof.
  induction 1 as [|e' l Hs IH Hall]; simpl; [by repeat constructor|]. case_bool_decide as Hlt.
  - constructor; [by constructor|]. constructor; [unfold key_le; lia|].
    eapply Forall_impl; [exact Hall|]. unfold key_le. intros x ?. lia.
  - constructor; [done|]. rewrite insert_hook_perm. constructor; [unfold key_le; lia|done].
Qed.

Lemma sort_hooks_sorted l : StronglySorted key_le (sort_hooks hook_index l).
Proof.
  unfold sort_hooks. assert (∀ acc, StronglySorted key_le acc →
    StronglySorted key_le (foldl (λ acc e, insert_hook hook_index e acc) acc l)) as Hg.
  { induction l as [|e l IH]; intros acc Ha; simpl; [done|]. by apply IH, insert_hook_sorted. }
  apply Hg. constructor.
Qed.

(** Within a message the ordinals grow. *)
Lemma labels_ge p n hooks i o :
  StronglySorted key_le hooks → Forall (λ e, p ≤ hook_index e) hooks →
  (i, o) ∈ labels (Some p) n hooks → i = p → n ≤ o.
Proof.
  intros Hs. revert n. induction Hs as [|e hooks Hs IH Hall]; intros n Hp; cbn [labels]; [set_solver|].
  apply Forall_cons in Hp as [Hpe Hp]. rewrite elem_of_cons. intros [[= -> ->]|Hin] Hi.
  - rewrite bool_decide_false by (intros Hne; congruence). done.
  - subst i. destruct (decide (p = hook_index e)) as [E|E].
    + rewrite bool_decide_false in Hin by tauto. rewrite <- E in Hin. apply IH in Hin; [lia|done|done].
    + exfalso. assert (p ∈ (labels (Some (hook_index e)) ((if bool_decide (p ≠ hook_index e) then 0 else n) + 1) hooks).*1) as Hin'.
      { apply list_elem_of_fmap. by exists (p, o). }
      rewrite labels_fst in Hin'. apply list_elem_of_fmap in Hin' as (e' & -> & He').
      rewrite Forall_forall in Hall. specialize (Hall _ He'). unfold key_le in Hall. lia.
Qed.

Lemma labels_NoDup prev n hooks : StronglySorted key_le hooks → NoDup (labels prev n hooks).
Proof.
  intros Hs. revert prev n. induction Hs as [|e hooks Hs IH Hall]; intros prev n; cbn [labels]; [constructor|].
  constructor; [|apply IH]. intros Hin. apply labels_ge in Hin; [lia|done|done|done].
Qed.

Lemma labels_nonneg prev n hooks i o : 0 ≤ n → (i, o) ∈ labels prev n hooks → 0 ≤ o < n + Z.of_nat (length hooks).
Proof.
  revert prev n. induction hooks as [|e hooks IH]; intros prev n Hn; cbn [labels]; [set_solver|].
  set (n' := match prev with Some p => _ | None => n end).
  assert (0 ≤ n' ≤ n) as Hn' by (unfold n'; destruct prev; [case_bool_decide|]; lia).
  rewrite elem_of_cons. simpl length. intros [[= -> ->]|Hin]; [lia|]. apply IH in Hin; lia.
Qed.

(** The counting loop counts, and accepts valid indexes only. *)
Definition occurrences (i : Z) (hooks : list entry) : Z :=
  Z.of_nat (length (filter (λ e, e_msgIndex e = Some i) hooks)).

Lemma count_hooks_spec total hooks counts :
  count_hooks total hooks = Ok counts →
  (∀ i, default 0 (counts !! i) = occurrences i hooks) ∧
  Forall (λ e, e_msgIndex e = Some (hook_index e) ∧ 0 ≤ hook_index e < total) hooks.
Proof.
  unfold count_hooks. assert (∀ acc, res_foldl (λ (m : gmap Z Z) e, match e_msgIndex e with
    | Some i => if bool_decide (i < 0 ∨ total ≤ i) then Err (Errorf "IBC hook calls require valid msg_index attributes")
                else Ok (<[i := default 0 (m !! i) + 1]> m)
    | None => Err (Errorf "IBC hook calls require valid msg_index attributes")
    end) acc hooks = Ok counts →
    (∀ i, default 0 (counts !! i) = default 0 (acc !! i) + occurrences i hooks) ∧
    Forall (λ e, e_msgIndex e = Some (hook_index e) ∧ 0 ≤ hook_index e < total) hooks) as Hg.
  { induction hooks as [|e hooks IH]; intros acc; cbn [res_foldl].
    - intros [= <-]. split; [|constructor]. intros i. unfold occurrences. simpl. lia.
    - intros (acc' & He & Hf)%res_bind_ok. destruct (e_msgIndex e) as [k|] eqn:Ek; [|done].
      case_bool_decide as Hk; [done|]. injection He as <-. apply IH in Hf as [F1 F2].
      assert (hook_index e = k) as Hi by (unfold hook_index; by rewrite Ek).
      split; [|constructor; [rewrite Ek, Hi; split; [done|lia]|done]].
      intros i. rewrite F1. unfold occurrences. destruct (decide (k = i)) as [->|Hne].
      + rewrite filter_cons_True by done. rewrite lookup_insert_eq. simpl. lia.
      + rewrite filter_cons_False by congruence. by rewrite lookup_insert_ne. }
  intros Hc. apply Hg in Hc as [F1 F2]. split; [|done]. intros i. rewrite F1. by rewrite lookup_empty.
Qed.

(** The byte strings that are hashed for a transaction with [n] hooks. *)
Definition hook_payload (tx : bytes) (i : Z) : list bytes :=
  [OriginalCosmosTxHash tx; string_bytes "@"; string_bytes (strconv_Itoa i)].
Definition nested_payload (tx : bytes) (i o : Z) : list bytes :=
  [OriginalCosmosTxHash tx; string_bytes "@"; string_bytes (strconv_Itoa i);
   string_bytes "#"; string_bytes (strconv_Itoa o)].

Definition payloads (tx : bytes) (total n : Z) : list (list bytes) :=
  [OriginalCosmosTxHash tx] ::
  (hook_payload tx <$> seqZ 0 total) ++
  (seqZ 0 total ≫= λ i, nested_payload tx i <$> seqZ 0 n).

(** No two of them collide. *)
Definition collision_free (l : list (list bytes)) : Prop :=
  ∀ a b, a ∈ l → b ∈ l → Keccak256Hash a = Keccak256Hash b → mjoin a = mjoin b.

Lemma payload_tail a b tx : mjoin (OriginalCosmosTxHash tx :: string_bytes "@" :: a) =
  mjoin (OriginalCosmosTxHash tx :: string_bytes "@" :: b) → mjoin a = mjoin b.
Proof. simpl. intros E. apply app_inv_head in E. by injection E. Qed.

Lemma hook_payload_inj tx i j : mjoin (hook_payload tx i) = mjoin (hook_payload tx j) → i = j.
Proof. intros E%payload_tail. simpl in E. rewrite !app_nil_r in E. by simplify_eq. Qed.

Lemma nested_payload_inj tx i o j p :
  mjoin (nested_payload tx i o) = mjoin (nested_payload tx j p) → i = j ∧ o = p.
Proof.
  intros E%payload_tail. cbn [mjoin list_join] in E. rewrite !app_nil_r in E.
  change (string_bytes "#") with [35] in E. apply separator_inj in E as [E1 E2]; [|by apply Itoa_bytes..].
  by simplify_eq.
Qed.

Lemma hook_nested_payload tx i j p : mjoin (hook_payload tx i) ≠ mjoin (nested_payload tx j p).
Proof.
  intros E%payload_tail. cbn [mjoin list_join] in E. rewrite !app_nil_r in E.
  apply (Itoa_bytes 35 i ltac:(lia)). rewrite E. apply elem_of_app. right.
  change (string_bytes "#") with [35]. by left.
Qed.

Lemma bank_payload_ne tx l : mjoin [OriginalCosmosTxHash tx] ≠ mjoin (OriginalCosmosTxHash tx :: string_bytes "@" :: l).
Proof.
  simpl. rewrite app_nil_r. intros E. apply (f_equal length) in E. rewrite length_app in E. simpl in E. lia.
Qed.

Lemma filter_index_length i prev n hooks :
  length (filter (λ l : Z * Z, l.1 = i) (labels prev n hooks)) =
  length (filter (λ e, hook_index e = i) hooks).
Proof.
  revert prev n. induction hooks as [|e hooks IH]; intros prev n; [done|]. cbn [labels].
  destruct (decide (hook_index e = i)).
  - rewrite !filter_cons_True by done. simpl. by rewrite IH.
  - rewrite !filter_cons_False by done. apply IH.
Qed.

Lemma filter_index_eq i hooks :
  Forall (λ e, e_msgIndex e = Some (hook_index e)) hooks →
  filter (λ e, hook_index e = i) hooks = filter (λ e, e_msgIndex e = Some i) hooks.
Proof.
  induction 1 as [|e hooks He _ IH]; [done|]. destruct (decide (hook_index e = i)) as [E|E].
  - rewrite !filter_cons_True; [by rewrite IH|congruence|done].
  - rewrite !filter_cons_False; [done|congruence|done].
Qed.

(** Hooks that are alone in their message have one label. *)
Lemma labels_alone hooks i o o' :
  Forall (λ e, e_msgIndex e = Some (hook_index e)) hooks → occurrences i hooks ≤ 1 →
  (i, o) ∈ labels None 0 hooks → (i, o') ∈ labels None 0 hooks → o = o'.
Proof.
  intros Hall Hocc H1 H2. assert (length (filter (λ l : Z * Z, l.1 = i) (labels None 0 hooks)) ≤ 1)%nat as Hlen.
  { rewrite filter_index_length. unfold occurrences in Hocc.
    rewrite filter_index_eq by done. lia. }
  assert ((i, o) ∈ filter (λ l : Z * Z, l.1 = i) (labels None 0 hooks)) as M1 by (by apply list_elem_of_filter).
  assert ((i, o') ∈ filter (λ l : Z * Z, l.1 = i) (labels None 0 hooks)) as M2 by (by apply list_elem_of_filter).
  destruct (filter _ _) as [|a [|b l]]; [set_solver| |simpl in Hlen; lia].
  apply list_elem_of_singleton in M1, M2. congruence.
Qed.

Definition label_payload (tx : bytes) (counts : gmap Z Z) (l : Z * Z) : list bytes :=
  if bool_decide (1 < default 0 (counts !! l.1)) then nested_payload tx l.1 l.2 else hook_payload tx l.1.

Lemma hook_hash_payload tx counts l : hook_hash tx counts l.1 l.2 = Keccak256Hash (label_payload tx counts l).
Proof. unfold hook_hash, label_payload. by case_bool_decide. Qed.

Lemma label_payload_in tx counts total n l :
  0 ≤ l.1 < total → 0 ≤ l.2 < n → label_payload tx counts l ∈ payloads tx total n.
Proof.
  intros Hi Ho. unfold label_payload, payloads. right. apply elem_of_app. case_bool_decide.
  - right. apply list_elem_of_bind. exists l.1. split; [|apply elem_of_seqZ; lia].
    apply list_elem_of_fmap. exists l.2. split; [done|]. apply elem_of_seqZ; lia.
  - left. apply list_elem_of_fmap. exists l.1. split; [done|]. apply elem_of_seqZ; lia.
Qed.

Lemma label_payload_inj tx counts hooks x y :
  Forall (λ e, e_msgIndex e = Some (hook_index e)) hooks →
  (∀ i, default 0 (counts !! i) = occurrences i hooks) →
  x ∈ labels None 0 hooks → y ∈ labels None 0 hooks →
  mjoin (label_payload tx counts x) = mjoin (label_payload tx counts y) → x = y.
Proof.
  intros Hall Hcount Hx Hy. destruct x as [i o], y as [j p]. unfold label_payload. cbn [fst snd].
  rewrite !Hcount. case_bool_decide as H1; case_bool_decide as H2; intros E.
  - by apply nested_payload_inj in E as [-> ->].
  - by apply symmetry, hook_nested_payload in E.
  - by apply hook_nested_payload in E.
  - apply hook_payload_inj in E as ->. f_equal. eapply labels_alone; [done| |exact Hx|exact Hy]. lia.
Qed.

Lemma hook_hashes_distinct tx total n counts hooks :
  StronglySorted key_le hooks → Z.of_nat (length hooks) ≤ n →
  Forall (λ e, e_msgIndex e = Some (hook_index e) ∧ 0 ≤ hook_index e < total) hooks →
  (∀ i, default 0 (counts !! i) = occurrences i hooks) →
  collision_free (payloads tx total n) →
  let hs := (λ l, hook_hash tx counts l.1 l.2) <$> labels None 0 hooks in
  NoDup hs ∧ CosmosTxHash tx ∉ hs.
Proof.
  intros Hs Hn Hall Hcount Hcf.
  assert (∀ l, l ∈ labels None 0 hooks → label_payload tx counts l ∈ payloads tx total n) as Hin.
  { intros [i o] Hl. apply label_payload_in; simpl.
    - assert (i ∈ (labels None 0 hooks).*1) as Hi by (apply list_elem_of_fmap; by exists (i, o)).
      rewrite labels_fst in Hi. apply list_elem_of_fmap in Hi as (e & -> & He).
      rewrite Forall_forall in Hall. by destruct (Hall _ He).
    - apply labels_nonneg in Hl; lia. }
  split.
  - apply NoDup_fmap_2_strong; [|by apply labels_NoDup].
    intros x y Hx Hy. rewrite !hook_hash_payload. intros E%Hcf; [|auto..].
    eapply label_payload_inj; [|exact Hcount|done|done|exact E].
    eapply Forall_impl; [exact Hall|]. by intros e [? _].
  - intros (l & E & Hl)%list_elem_of_fmap. rewrite hook_hash_payload in E.
    apply Hcf in E; [|by left|auto]. unfold label_payload in E.
    case_bool_decide; by apply bank_payload_ne in E.
Qed.

Lemma occurrences_perm i l l' : l ≡ₚ l' → occurrences i l = occurrences i l'.
Proof. intros Hp. unfold occurrences. by rewrite Hp. Qed.

Lemma sorted_hook_hashes tx total n counts hooks :
  count_hooks total hooks = Ok counts → (length hooks ≤ n)%nat →
  collision_free (payloads tx total (Z.of_nat n)) →
  let hs := (λ l, hook_hash tx counts l.1 l.2) <$> labels None 0 (sort_hooks hook_index hooks) in
  NoDup hs ∧ CosmosTxHash tx ∉ hs.
Proof.
  intros [Hc1 Hc2]%count_hooks_spec Hn Hcf.
  pose proof (sort_hooks_perm hook_index hooks) as Hp.
  eapply hook_hashes_distinct; [apply sort_hooks_sorted| | | |exact Hcf].
  - rewrite (Permutation_length Hp). lia.
  - by rewrite Hp.
  - intros i. by rewrite (occurrences_perm i _ _ Hp).
Qed.

(** The synthetic transactions of one Cosmos transaction have distinct
    hashes, provided Keccak-256 has no collision among the strings hashed for that
    transaction: several hooks of a message get their ordinal, a hook alone in its message
    does not, and the bank envelope hashes the transaction hash alone. *)
Theorem synthetic_hashes_distinct r ctx txs :
  SyntheticTxs caller r ctx = Ok txs →
  collision_free (payloads (c_Tx ctx) (c_TotalMessages ctx) (Z.of_nat (length (entries r)))) →
  NoDup (hashes txs).
Proof.
  unfold SyntheticTxs. intros Hs Hcf. destruct (hook_entries (selected r ctx)) as [|h hs] eqn:Eh.
  { destruct (bank_entries (selected r ctx)) as [|b bs]; [injection Hs as <-; constructor|].
    apply res_bind_ok in Hs as (tx & _ & [= <-]). apply NoDup_singleton. }
  assert (length (h :: hs) ≤ length (entries r))%nat as Hlen.
  { rewrite <- Eh. unfold hook_entries, selected. etrans; [apply length_filter|apply length_filter]. }
  destruct (bank_entries (selected r ctx)) as [|b bs].
  - apply res_bind_ok in Hs as (counts & Hc & Hh). apply hook_txs_hashes in Hh as ->.
    eapply proj1, sorted_hook_hashes; done.
  - apply res_bind_ok in Hs as (counts & Hc & (tx & Htx & (txs' & Hh & [= <-])%res_bind_ok)%res_bind_ok).
    apply hook_txs_hashes in Hh. apply syntheticTx_spec in Htx as (_ & _ & T3 & _).
    unfold hashes in *. rewrite fmap_cons, T3, Hh. apply NoDup_cons.
    rewrite next_context_Tx. cbn [c_Tx].
    split; [eapply proj2, sorted_hook_hashes; done|eapply proj1, sorted_hook_hashes; done].
Qed.
(** ** The hashes in closed form *)

(** The [k]-th sorted hook: a hook that shares its message with others is told
    apart by the number of hooks of the message before it. *)
Definition expected_hook_hash (tx : bytes) (hooks : list entry) (k : nat) (e : entry) : Hash :=
  let same := filter (λ e', hook_index e' = hook_index e) in
  if bool_decide (1 < length (same hooks))%nat
  then NestedIBCHookTxHash tx (hook_index e) (Z.of_nat (length (same (take k hooks))))
  else IBCHookTxHash tx (hook_index e).

(** One hash for the coin movements outside Ethereum messages, if any, then
    one for each hook outside them, in message order. *)
Definition expected_hashes (r : Response) (ctx : TxContext) : list Hash :=
  let hooks := sort_hooks hook_index (hook_entries (selected r ctx)) in
  match bank_entries (selected r ctx) with [] => [] | _ => [CosmosTxHash (c_Tx ctx)] end ++
  imap (expected_hook_hash (c_Tx ctx) hooks) hooks.

Definition same_message (i : Z) (hooks : list entry) : Z := Z.of_nat (length (filter (λ e, hook_index e = i) hooks)).

Lemma same_message_app i a b : same_message i (a ++ b) = same_message i a + same_message i b.
Proof. unfold same_message. rewrite filter_app, length_app. lia. Qed.

Lemma same_message_none i l : Forall (λ e, hook_index e < i) l → same_message i l = 0.
Proof. induction 1 as [|e l He _ IH]; [done|]. unfold same_message in *. by rewrite filter_cons_False by lia. Qed.

(** On sorted hooks the running ordinal counts the earlier hooks of the message. *)
Lemma labels_count pre e0 rest :
  StronglySorted key_le (pre ++ e0 :: rest) →
  labels (Some (hook_index e0)) (same_message (hook_index e0) (pre ++ [e0])) rest =
  imap (λ k e, (hook_index e, same_message (hook_index e) (pre ++ e0 :: take k rest))) rest.
Proof.
  revert pre e0. induction rest as [|e rest IH]; intros pre e0 Hs; [done|]. cbn [labels imap].
  assert ((if bool_decide (hook_index e0 ≠ hook_index e) then 0 else same_message (hook_index e0) (pre ++ [e0])) =
          same_message (hook_index e) (pre ++ [e0])) as ->.
  { case_bool_decide as Hne; [|by rewrite Hne]. symmetry. apply same_message_none.
    apply Forall_forall. intros x Hx. replace (pre ++ e0 :: e :: rest) with ((pre ++ [e0]) ++ e :: rest) in Hs
      by (by rewrite <- app_assoc).
    assert (hook_index e0 < hook_index e) as Hlt.
    { apply StronglySorted_app in Hs as (Hs & _ & _). assert (key_le e0 e); [|unfold key_le in *; lia].
      apply Hs; [apply elem_of_app; right; by left|by left]. }
    rewrite <- app_assoc in Hs. apply StronglySorted_app in Hs as (Hs & _ & _).
    apply elem_of_app in Hx as [Hx|Hx]; [|by apply list_elem_of_singleton in Hx as ->].
    assert (key_le x e0); [|unfold key_le in *; lia]. apply Hs; [done|by left]. }
  f_equal.
  assert (same_message (hook_index e) (pre ++ [e0]) + 1 = same_message (hook_index e) ((pre ++ [e0]) ++ [e])) as ->.
  { rewrite (same_message_app _ (pre ++ [e0])). f_equal. unfold same_message. by rewrite filter_cons_True. }
  rewrite IH by (by rewrite <- app_assoc). apply imap_ext. intros k x _. cbn. by rewrite <- app_assoc.
Qed.

Lemma labels_ordinals hooks :
  StronglySorted key_le hooks →
  labels None 0 hooks = imap (λ k e, (hook_index e, same_message (hook_index e) (take k hooks))) hooks.
Proof.
  destruct hooks as [|e hooks]; [done|]. intros Hs. cbn [labels imap]. f_equal.
  pose proof (labels_count [] e hooks Hs) as Hl. cbn [app] in Hl. unfold same_message in Hl at 1.
  rewrite filter_cons_True in Hl by done. exact Hl.
Qed.

Lemma hook_hash_expected tx counts total hooks :
  count_hooks total hooks = Ok counts →
  (λ l, hook_hash tx counts l.1 l.2) <$> labels None 0 (sort_hooks hook_index hooks) =
  imap (expected_hook_hash tx (sort_hooks hook_index hooks)) (sort_hooks hook_index hooks).
Proof.
  intros [Hc1 Hc2]%count_hooks_spec. rewrite labels_ordinals by apply sort_hooks_sorted.
  rewrite fmap_imap. apply imap_ext. intros k e _. cbn. unfold hook_hash, expected_hook_hash.
  pose proof (sort_hooks_perm hook_index hooks) as Hp.
  rewrite Hc1, <- (occurrences_perm _ _ _ Hp). unfold occurrences.
  rewrite <- filter_index_eq by (rewrite Hp; eapply Forall_impl; [exact Hc2|]; by intros ? [? _]).
  repeat case_bool_decide; done || lia.
Qed.

(** The hashes of the synthetic transactions. *)
Lemma SyntheticTxs_hashes r ctx txs : SyntheticTxs caller r ctx = Ok txs → hashes txs = expected_hashes r ctx.
Proof.
  unfold SyntheticTxs, expected_hashes. destruct (hook_entries (selected r ctx)) as [|h hs] eqn:Eh.
  { destruct (bank_entries (selected r ctx)) as [|b bs]; [by intros [= <-]|].
    intros (tx & (_ & _ & T & _)%syntheticTx_spec & [= <-])%res_bind_ok. unfold hashes. simpl. by rewrite T. }
  destruct (bank_entries (selected r ctx)) as [|b bs].
  - intros (counts & Hc & Hh)%res_bind_ok. apply hook_txs_hashes in Hh as ->. exact (hook_hash_expected _ _ _ _ Hc).
  - intros (counts & Hc & (tx & Htx & (txs' & Hh & [= <-])%res_bind_ok)%res_bind_ok)%res_bind_ok.
    apply hook_txs_hashes in Hh. apply syntheticTx_spec in Htx as (_ & _ & T3 & _).
    unfold hashes in *. rewrite fmap_cons, T3, Hh. by rewrite <- (hook_hash_expected _ _ _ _ Hc).
Qed.
End props.

(** ** Witnesses *)

Import EthInstances.

Definition sample_log (n : Z) : option EthLog := Some (mkEthLog zero_address [] [n] 0 zero_hash 0 zero_hash 0 false).

Definition sample_hook (gas : Z) : Ibc.HookCall :=
  Ibc.mkHookCall "transfer" "channel-0" 1 zero_address [] true [] "" gas [] (Some 2).

(** Message 0 is an Ethereum message, message 1 moves coins, message 2 has two
    hooks; one event has no message index. *)
Definition sample_response : Response :=
  mkResponse [mkEntry [sample_log 1] (Some 0) None; mkEntry [sample_log 2] (Some 2) (Some (sample_hook 30));
              mkEntry [sample_log 3; sample_log 4] (Some 1) None; mkEntry [sample_log 5] None None;
              mkEntry [sample_log 6] (Some 2) (Some (sample_hook 40))] 0 100.

Definition sample_ctx : TxContext :=
  mkTxContext [1; 2; 3] {[ 0 ]} 20 3 zero_hash 7 4 10 1000 None.

Definition sample_txs : list Tx :=
  match SyntheticTxs "" sample_response sample_ctx with Ok txs => txs | _ => [] end.

Lemma sample_synthetic : SyntheticTxs "" sample_response sample_ctx = Ok sample_txs.
Proof. vm_compute. reflexivity. Qed.


Definition sample_message_logs (i : Z) : list (option RPCLog) :=
  match LogsForMessage sample_response i 3 (mkLogContext zero_hash 7 zero_hash 3 9 None) with Ok l => l | _ => [] end.

Lemma virtual_logs_conserved_witness :
  entries sample_response ≫= entry_bodies ≡ₚ
  ([0] ≫= λ i, rpc_body <$> sample_message_logs i) ++ (rpc_body <$> tx_logs sample_txs).
Proof.
  apply (virtual_logs_conserved "" sample_response sample_ctx [0]
           (λ _, mkLogContext zero_hash 7 zero_hash 3 9 None) sample_message_logs sample_txs).
  - apply NoDup_singleton.
  - intros i. cbn. set_solver.
  - intros i Hi. apply list_elem_of_singleton in Hi as ->. vm_compute. reflexivity.
  - exact sample_synthetic.
Defined.

Lemma sample_collision_free :
  collision_free (payloads (c_Tx sample_ctx) (c_TotalMessages sample_ctx)
                    (Z.of_nat (length (entries sample_response)))).
Proof.
  set (l := payloads _ _ _).
  assert (NoDup (Keccak256Hash <$> l)) as Hl.
  { apply (bool_decide_unpack _). vm_compute. exact I. }
  intros a b [i Ha]%list_elem_of_lookup [j Hb]%list_elem_of_lookup E.
  rewrite NoDup_alt in Hl. assert (i = j) as <-; [|by simplify_eq].
  apply (Hl i j (Keccak256Hash a)); rewrite list_lookup_fmap; [by rewrite Ha|by rewrite Hb, E].
Qed.

Lemma synthetic_hashes_distinct_witness : length sample_txs = 3%nat ∧ NoDup (hashes sample_txs).
Proof.
  split; [vm_compute; reflexivity|].
  exact (synthetic_hashes_distinct "" sample_response sample_ctx sample_txs sample_synthetic sample_collision_free).
Defined.
End VirtualResponse.
