(* ===== verification/RpcUtils.v ===== *)
(** * RPC conversions

    src/internal/evm/rpc/types/utils.go: the RPC transaction of an Ethereum message,
    the base fee of a block's events, headers built from cometbft headers, and the
    classification of failed results.  Decimal parsing (sdkmath.LegacyDec) and the
    signer are parameters of the chain interface. *)

From Stdlib Require Import Ascii String.
From S2P Require Import Prelude Bytes GoLib EthTypes EthInstances Virtual.
From stdpp Require Import strings list.
#[local] Open Scope Z_scope.

Module RpcUtils.
Import GoLib EthTypes Virtual.

Definition ExceedBlockGasLimitError : string := "out of gas in location: block gas meter; gasWanted:".
Definition MsgExecutionFailedLog : string := "failed to execute message".

(** The signer chosen for a transaction. *)
Definition signer_for (tx : Transaction) : Signer :=
  if tx_Protected tx then LatestSignerForChainID (tx_ChainId tx) else FrontierSigner.

Definition NewRPCTransaction (msg : MsgEthereumTx) (blockHash : Hash) (blockNumber index : Z)
    (baseFee chainID : option Z) : res error RPCTransaction :=
  match msg_AsTransaction msg with
  | None => Panic "nil pointer dereference"
  | Some tx =>
      let! from := lib (msg_GetSenderLegacy msg (signer_for tx)) in
      let mined := bool_decide (blockHash ≠ zero_hash) in
      let located {A} (x : A) : option A := if mined then Some x else None in
      let base accesses chain cap tip price :=
        mkRPCTransaction (located blockHash) (located blockNumber) from (tx_Gas tx) (Some price) cap tip
          (tx_Hash tx) (tx_Data tx) (tx_Nonce tx) (tx_To tx) (located index) (Some (tx_Value tx))
          (tx_Type tx) accesses chain (Some (tx_V tx)) (Some (tx_R tx)) (Some (tx_S tx)) false None None in
      if bool_decide (tx_Type tx = AccessListTxType) then
        Ok (base (Some (tx_AccessList tx)) (Some (tx_ChainId tx)) None None (tx_GasPrice tx))
      else if bool_decide (tx_Type tx = DynamicFeeTxType) then
        let price :=
          match baseFee with
          | Some baseFee =>
              if mined then
                let price := tx_GasTipCap tx + baseFee in
                if bool_decide (tx_GasFeeCap tx < price) then tx_GasFeeCap tx else price
              else tx_GasFeeCap tx
          | None => tx_GasFeeCap tx
          end in
        Ok (base (Some (tx_AccessList tx)) (Some (tx_ChainId tx)) (Some (tx_GasFeeCap tx))
              (Some (tx_GasTipCap tx)) price)
      else Ok (base None chainID None None (tx_GasPrice tx))
  end.

Definition NewTransactionFromMsg := NewRPCTransaction.

(** ethtypes.Header, the fields the gateway fills *)
Record Header := mkHeader {
  h_ParentHash : Hash;
  h_UncleHash : Hash;
  h_Coinbase : Address;
  h_Root : Hash;
  h_TxHash : Hash;
  h_ReceiptHash : Hash;
  h_Bloom : bytes;
  h_Difficulty : Z;
  h_Number : Z;
  h_GasLimit : Z;
  h_GasUsed : Z;
  h_Time : Z;
  h_BaseFee : option Z;
}.

(** cmtypes.Header *)
Record CmHeader := mkCmHeader {
  ch_Height : Z;
  ch_LastBlockID_Hash : bytes;
  ch_AppHash : bytes;
  ch_DataHash : bytes;
  ch_ProposerAddress : bytes;
  ch_Time_Unix : Z;
}.

Section ops.
Context {EL : EthLib} {CL : ChainLib}.

Definition RawTxToEthTx (txBz : bytes) : res error (list MsgEthereumTx) :=
  match TxDecoder txBz with
  | Ok tx =>
      res_mapM (λ msg, match msg with
        | EthMsg m => Ok m
        | OtherMsg _ => Err (Errorf "invalid message type %T, expected %T")
        end) (GetMsgs tx)
  | Err err => Err (Wrap err (Sentinel "ErrJSONUnmarshal"))
  | Panic m => Panic m
  end.

Definition EthHeaderFromTendermint (header : CmHeader) (bloom : bytes) (baseFee : option Z) : Header :=
  let txHash := if bool_decide (ch_DataHash header = []) then BytesToHash (ch_DataHash header)
                else EmptyRootHash in
  mkHeader (BytesToHash (ch_LastBlockID_Hash header)) EmptyUncleHash
    (BytesToAddress (ch_ProposerAddress header)) (BytesToHash (ch_AppHash header)) txHash EmptyRootHash
    bloom 0 (ch_Height header) 0 0 (uint64 (ch_Time_Unix header)) baseFee.

(** The last txfees event with a parseable base fee; the first basefee
    attribute of an event decides for it. *)
Fixpoint basefee_attr (attrs : list EventAttribute) : option Z :=
  match attrs with
  | [] => None
  | attr :: attrs =>
      if bool_decide (attr_Key attr ≠ "basefee"%string) then basefee_attr attrs
      else LegacyNewDecFromStr_RoundInt (attr_Value attr)
  end.

Fixpoint basefee_rev (events : list Event) : option Z :=
  match events with
  | [] => None
  | evt :: events =>
      if bool_decide (ev_Type evt ≠ "txfees"%string) then basefee_rev events
      else match basefee_attr (ev_Attributes evt) with
           | Some fee => Some fee
           | None => basefee_rev events
           end
  end.

Definition BaseFeeFromEvents (events : list Event) : option Z := basefee_rev (reverse events).

Definition TxExceedBlockGasLimit (r : ExecTxResult) : bool :=
  strings_Contains (res_Log r) ExceedBlockGasLimitError.

Definition TxSuccessOrExceedsBlockGasLimit (r : ExecTxResult) : bool :=
  bool_decide (res_Code r = 0) || TxExceedBlockGasLimit r.

Definition TxAnteFailed (r : option ExecTxResult) : bool :=
  match r with
  | None => false
  | Some r =>
      if bool_decide (res_Code r = CodeTypeOK) then false
      else if bool_decide (res_Events r ≠ []) then false
      else if bool_decide (res_Codespace r = ModuleName) || TxExceedBlockGasLimit r then false
      else negb (strings_Contains (res_Log r) MsgExecutionFailedLog)
  end.
End ops.

(** The price of a mined dynamic-fee transaction is the base fee plus the tip,
    capped by the fee cap. *)
Lemma NewRPCTransaction_effective_price msg tx blockHash number index baseFee chainID rpc :
  msg_AsTransaction msg = Some tx → tx_Type tx = DynamicFeeTxType → blockHash ≠ zero_hash →
  NewRPCTransaction msg blockHash number index (Some baseFee) chainID = Ok rpc →
  t_GasPrice rpc = Some (Z.min (tx_GasTipCap tx + baseFee) (tx_GasFeeCap tx)) ∧
  t_BlockHash rpc = Some blockHash ∧ t_TransactionIndex rpc = Some index.
Proof.
  intros Htx Hty Hh. unfold NewRPCTransaction. rewrite Htx. intros (from & _ & Hr)%res_bind_ok.
  rewrite Hty in Hr. rewrite (bool_decide_true (blockHash ≠ _)) in Hr by done.
  cbn [bool_decide] in Hr. injection Hr as <-. simpl. split_and!; [|done..].
  case_bool_decide; f_equal; lia.
Qed.

(** A block with transactions gets the empty root: the header test is the
    wrong way round. *)
Lemma EthHeaderFromTendermint_root `{EthLib} header bloom baseFee :
  ch_DataHash header ≠ [] → h_TxHash (EthHeaderFromTendermint header bloom baseFee) = EmptyRootHash.
Proof. intros Hd. unfold EthHeaderFromTendermint. simpl. by rewrite bool_decide_false. Qed.
End RpcUtils.
