(* ===== verification/Cached.v ===== *)
(** * Cached block metadata and receipts

    The records of src/internal/indexer/cache_collections.go and virtual.go: the
    metadata of an indexed block, its validation and the Ethereum header it gives;
    the cached receipt, how it is built and the map it is served as. *)

From Stdlib Require Import Ascii String.
From S2P Require Import Prelude Bytes GoLib EthTypes EthInstances Virtual RpcUtils.
From stdpp Require Import strings list.
#[local] Open Scope Z_scope.

Module Cached.
Import GoLib EthTypes Virtual RpcUtils.

Record CachedBlockMeta := mkMeta {
  m_Height : Z;
  m_Hash : string;
  m_ParentHash : string;
  m_StateRoot : string;
  m_Miner : string;
  m_Timestamp : Z;
  m_Size : Z;
  m_GasLimit : Z;
  m_GasUsed : Z;
  m_EthTxCount : Z;
  m_TxCount : Z;
  m_Bloom : string;
  m_TransactionsRoot : string;
  m_BaseFee : string;
  m_VirtualizedCosmosEvents : bool;
}.
#[global] Instance CachedBlockMeta_eq_dec : EqDecision CachedBlockMeta.
Proof. solve_decision. Defined.

Record CachedReceipt := mkCachedReceipt {
  cr_Status : Z;
  cr_CumulativeGasUsed : Z;
  cr_GasUsed : Z;
  cr_Reason : option string;
  cr_VMError : option string;
  cr_LogsBloom : string;
  cr_Logs : list (option RPCLog);
  cr_TransactionHash : string;
  cr_ContractAddress : option string;
  cr_BlockHash : string;
  cr_BlockNumber : Z;
  cr_TransactionIndex : Z;
  cr_EffectiveGasPrice : string;
  cr_From : string;
  cr_To : option string;
  cr_Type : Z;
}.
#[global] Instance CachedReceipt_eq_dec : EqDecision CachedReceipt.
Proof. solve_decision. Defined.

Section ops.
Context {EL : EthLib} {CL : ChainLib}.

(** ** Block metadata *)

Definition isHexHashString (value : string) : bool :=
  match hexutil_Decode value with
  | Ok bz => bool_decide (length bz = HashLength)
  | _ => false
  end.

Definition valid_bloom (bloom : string) : bool :=
  match hexutil_Decode bloom with
  | Ok bz => bool_decide (length bz = BloomByteLength)
  | _ => false
  end.

Definition ValidateCachedBlockMeta (meta : option CachedBlockMeta) : res error unit :=
  match meta with
  | None => Err (Errorf "cached block meta is nil")
  | Some meta =>
      if bool_decide (m_Height meta < 1) then Err (Errorf "cached block meta has invalid height: %d")
      else if bool_decide (m_EthTxCount meta < 0) then
        Err (Errorf "cached block meta has invalid eth tx count for height %d: %d")
      else if bool_decide (m_TxCount meta < 0) then
        Err (Errorf "cached block meta has invalid tx count for height %d: %d")
      else if negb (isHexHashString (m_Hash meta)) then
        Err (Errorf "cached block meta has invalid hash for height %d: %q")
      else if bool_decide (m_ParentHash meta ≠ ""%string) && negb (isHexHashString (m_ParentHash meta)) then
        Err (Errorf "cached block meta has invalid parent hash for height %d: %q")
      else if bool_decide (m_StateRoot meta ≠ ""%string) && negb (isHexHashString (m_StateRoot meta)) then
        Err (Errorf "cached block meta has invalid state root for height %d: %q")
      else if bool_decide (m_Miner meta ≠ ""%string) && negb (IsHexAddress (m_Miner meta)) then
        Err (Errorf "cached block meta has invalid miner for height %d: %q")
      else if bool_decide (m_TransactionsRoot meta ≠ ""%string) && negb (isHexHashString (m_TransactionsRoot meta)) then
        Err (Errorf "cached block meta has invalid transactions root for height %d: %q")
      else if bool_decide (m_Bloom meta ≠ ""%string) && negb (valid_bloom (m_Bloom meta)) then
        Err (Errorf "cached block meta has invalid bloom length for height %d: %d")
      else if bool_decide (m_BaseFee meta ≠ ""%string) then
        let! _ := res_map_err (λ e, Wrap "cached block meta has invalid base fee for height %d" (New e))
                    (hexutil_DecodeBig (m_BaseFee meta)) in Ok tt
      else Ok tt
  end.

Definition CachedStateRoot (meta : option CachedBlockMeta) : bytes :=
  match meta with
  | Some meta => if bool_decide (m_StateRoot meta = ""%string) then zero_hash else FromHex (m_StateRoot meta)
  | None => zero_hash
  end.

Definition CachedTransactionsRoot (meta : option CachedBlockMeta) (hasTransactions : bool) : Hash :=
  match meta with
  | Some meta =>
      if bool_decide (m_TransactionsRoot meta ≠ ""%string) then HexToHash (m_TransactionsRoot meta)
      else if hasTransactions then zero_hash else EmptyRootHash
  | None => if hasTransactions then zero_hash else EmptyRootHash
  end.

Definition CachedMiner (meta : option CachedBlockMeta) : Address :=
  match meta with
  | Some meta => if bool_decide (m_Miner meta = ""%string) then zero_address else HexToAddress (m_Miner meta)
  | None => zero_address
  end.

Definition HeaderFromCachedBlockMeta (meta : option CachedBlockMeta) : res error Header :=
  let! _ := ValidateCachedBlockMeta meta in
  match meta with
  | None => Panic "nil pointer dereference"
  | Some m =>
      let! baseFee :=
        if bool_decide (m_BaseFee m ≠ ""%string) then
          let! fee := res_map_err (λ e, Wrap "cached block meta has invalid base fee for height %d" (New e))
                        (hexutil_DecodeBig (m_BaseFee m)) in Ok (Some fee)
        else Ok None in
      Ok (mkHeader (HexToHash (m_ParentHash m)) EmptyUncleHash (CachedMiner meta)
            (BytesToHash (CachedStateRoot meta))
            (CachedTransactionsRoot meta (bool_decide (0 < m_EthTxCount m))) EmptyRootHash
            (BytesToBloom (FromHex (m_Bloom m))) 0 (m_Height m) (m_GasLimit m) (m_GasUsed m)
            (uint64 (m_Timestamp m)) baseFee)
  end.

Definition encodeOptionalBig (v : option Z) : string :=
  match v with None => "" | Some v => hexutil_EncodeBig v end.

(** ** Receipts *)

Definition evmLogsBloom (logs : list (option RPCLog)) : bytes := LogsBloom (EthLogs logs).

Definition opt_string (s : string) : option string := if bool_decide (s ≠ ""%string) then Some s else None.

Definition buildCachedReceipt (status cumulativeGasUsed gasUsed : Z) (reason vmError : string)
    (logs : list (option RPCLog)) (txHash : Hash) (contractAddress : option Address) (blockHash : Hash)
    (blockNumber transactionIndex effectiveGasPrice : Z) (from : Address) (to : option Address)
    (txType : Z) : CachedReceipt :=
  mkCachedReceipt status cumulativeGasUsed gasUsed (opt_string reason) (opt_string vmError)
    (hexutil_Encode (evmLogsBloom logs)) logs (Hash_Hex txHash) (Address_Hex <$> contractAddress)
    (Hash_Hex blockHash) blockNumber transactionIndex (hexutil_EncodeBig effectiveGasPrice)
    (Address_Hex from) (Address_Hex <$> to) txType.

Definition receiptEffectiveGasPrice (tx : Transaction) (baseFee : option Z) : Z :=
  match baseFee with
  | Some baseFee =>
      if bool_decide (tx_Type tx ≠ DynamicFeeTxType) then tx_GasPrice tx
      else evm_EffectiveGasPrice baseFee (tx_GasFeeCap tx) (tx_GasTipCap tx)
  | None => tx_GasPrice tx
  end.

Definition CachedReceipt_ToMap (r : CachedReceipt) : gmap string Value :=
  let receipt : gmap string Value := list_to_map [
    ("status"%string, VUint (cr_Status r));
    ("cumulativeGasUsed"%string, VUint64 (cr_CumulativeGasUsed r));
    ("logsBloom"%string, VBloom (BytesToBloom (FromHex (cr_LogsBloom r))));
    ("logs"%string, VLogs (cr_Logs r));
    ("transactionHash"%string, VHash (HexToHash (cr_TransactionHash r)));
    ("contractAddress"%string, VNil);
    ("gasUsed"%string, VUint64 (cr_GasUsed r));
    ("blockHash"%string, VString (cr_BlockHash r));
    ("blockNumber"%string, VUint64 (cr_BlockNumber r));
    ("transactionIndex"%string, VUint64 (cr_TransactionIndex r));
    ("from"%string, VAddress (HexToAddress (cr_From r)));
    ("to"%string, VNil);
    ("type"%string, VUint (cr_Type r))] in
  let receipt := match cr_Reason r with Some s => <["reason"%string := VString s]> receipt | None => receipt end in
  let receipt := match cr_VMError r with Some s => <["vmError"%string := VString s]> receipt | None => receipt end in
  let receipt :=
    if bool_decide (cr_EffectiveGasPrice r ≠ ""%string) then
      match hexutil_DecodeBig (cr_EffectiveGasPrice r) with
      | Ok p => <["effectiveGasPrice"%string := VBig p]> receipt
      | _ => receipt
      end
    else receipt in
  let receipt := match cr_ContractAddress r with
    | Some a => <["contractAddress"%string := VAddress (HexToAddress a)]> receipt
    | None => receipt
    end in
  match cr_To r with
  | Some a => <["to"%string := VAddress (HexToAddress a)]> receipt
  | None => receipt
  end.

(** virtual.go *)
Definition cachedVirtualReceipt (receipt : Receipt) : CachedReceipt :=
  buildCachedReceipt (r_Status receipt) (r_CumulativeGasUsed receipt) (r_GasUsed receipt)
    (r_Reason receipt) (r_VMError receipt) (r_Logs receipt) (r_TransactionHash receipt) None
    (r_BlockHash receipt) (r_BlockNumber receipt) (r_TransactionIndex receipt) 0 (r_From receipt)
    (r_To receipt) (r_Type receipt).
End ops.

(** ** Properties *)

Section props.
Context {EL : EthLib} {CL : ChainLib} {ELL : EthLibLaws} {CLL : ChainLibLaws}.

Lemma virtual_receipt_map (r : Receipt) :
  is_hash (r_TransactionHash r) → is_address (r_From r) →
  (∀ a, r_To r = Some a → is_address a) → default 0 (r_EffectiveGasPrice r) = 0 →
  CachedReceipt_ToMap (cachedVirtualReceipt r) = Receipt_ToMap r.
Proof.
  intros Hh Hf Hto Hp. apply map_eq. intros k.
  unfold CachedReceipt_ToMap, Receipt_ToMap, cachedVirtualReceipt, buildCachedReceipt.
  cbn [cr_Status cr_CumulativeGasUsed cr_GasUsed cr_Reason cr_VMError cr_LogsBloom cr_Logs cr_TransactionHash
       cr_ContractAddress cr_BlockHash cr_BlockNumber cr_TransactionIndex cr_EffectiveGasPrice cr_From cr_To cr_Type].
  rewrite Hp, FromHex_Encode by apply LogsBloom_wf.
  rewrite HexToHash_Hex, HexToAddress_Hex, DecodeBig_EncodeBig by (done || lia).
  rewrite (bool_decide_true (hexutil_EncodeBig 0 ≠ _)) by apply EncodeBig_nonempty.
  change (LogsBloom (EthLogs (r_Logs r))) with (virtual_LogsBloom (r_Logs r)).
  unfold opt_string. fold (evmLogsBloom (r_Logs r)).
  change (evmLogsBloom (r_Logs r)) with (virtual_LogsBloom (r_Logs r)).
  assert (match r_To r with Some a => HexToAddress (Address_Hex a) = a | None => True end) as Ha.
  { destruct (r_To r); [|done]. by apply HexToAddress_Hex, Hto. }
  cbn [list_to_map foldr fst snd].
  destruct (r_To r) as [a|]; cbn [fmap option_fmap option_map]; rewrite ?Ha;
    repeat case_bool_decide; rewrite !lookup_insert; repeat case_decide; by simplify_eq.
Qed.

(** A synthetic transaction has one receipt: the map served from the cache
    (the receipt stored by saveVirtualTx, read back) is the map served from
    the live path, field for field, bloom included, for every synthetic receipt with
    a zero or absent gas price. *)
Theorem virtual_receipt_parity (r : Receipt) :
  is_hash (r_TransactionHash r) → is_address (r_From r) →
  (∀ a, r_To r = Some a → is_address a) → default 0 (r_EffectiveGasPrice r) = 0 →
  CachedReceipt_ToMap (cachedVirtualReceipt r) = Receipt_ToMap r.
Proof. apply virtual_receipt_map. Qed.
End props.

(** ** Witness *)

Import EthInstances.

Definition sample_receipt : Receipt :=
  mkReceipt 0 21000 21000 "reverted" "" [None] zero_hash zero_hash 7 2 (Some 0) zero_address (Some zero_address) 0.

Lemma virtual_receipt_parity_witness :
  CachedReceipt_ToMap (cachedVirtualReceipt sample_receipt) = Receipt_ToMap sample_receipt ∧
  Receipt_ToMap sample_receipt !! "reason"%string = Some (VString "reverted").
Proof.
  split; [|vm_compute; reflexivity].
  apply (virtual_receipt_parity sample_receipt).
  - apply zero_hash_wf.
  - apply zero_address_wf.
  - intros a Ha. injection Ha as <-. apply zero_address_wf.
  - reflexivity.
Defined.
End Cached.
