(* ===== verification/Codec.v ===== *)
(** * Cache payloads

    src/internal/indexer/kv_codec.go: the Cap'n Proto encoding of the cache values,
    with the magic header that tells it from the older JSON and protobuf
    payloads.  The schema (src/internal/indexer/kvcapnp/kv.capnp) is a set of records over
    the kind of pointer: a value being built has optional pointers, a message
    being read has pointers whose access can fail.  Building, marshalling and
    reading messages are library calls; a failure while building is a panic, as in
    mustSet. *)

From Stdlib Require Import Ascii String.
From S2P Require Import Prelude Bytes GoLib EthTypes EthInstances Virtual RpcUtils Cached.
From stdpp Require Import strings list.
#[local] Open Scope Z_scope.

Module Codec.
Import GoLib EthTypes Virtual Cached.

(** ** Schema *)

Section schema.
Context (P : Type → Type).

Record CapBlockMeta := mkCapBlockMeta {
  bm_height : Z; bm_hash : P string; bm_parentHash : P string; bm_stateRoot : P string;
  bm_miner : P string; bm_timestamp : Z; bm_size : Z; bm_gasLimit : Z; bm_gasUsed : Z;
  bm_ethTxCount : Z; bm_txCount : Z; bm_bloom : P string; bm_transactionsRoot : P string;
  bm_baseFee : P string; bm_virtualizedCosmosEvents : bool;
}.

Record CapLog := mkCapLog {
  lg_address : P bytes; lg_topics : P (list (P bytes)); lg_data : P bytes; lg_blockNumber : Z;
  lg_txHash : P bytes; lg_txIndex : Z; lg_blockHash : P bytes; lg_index : Z; lg_removed : bool;
  lg_virtual : bool; lg_cosmosHash : P bytes; lg_cosmosMsgIndex : Z; lg_cosmosMsgIndexPresent : bool;
}.

Record CapLogGroup := mkCapLogGroup { gr_logs : P (list CapLog) }.
Record CapBlockLogs := mkCapBlockLogs { bl_groups : P (list CapLogGroup) }.

Record CapReceipt := mkCapReceipt {
  rc_status : Z; rc_cumulativeGasUsed : Z; rc_gasUsed : Z; rc_reason : P string; rc_vmError : P string;
  rc_logsBloom : P bytes; rc_logs : P (list CapLog); rc_transactionHash : P bytes;
  rc_contractAddress : P bytes; rc_blockHash : P bytes; rc_blockNumber : Z; rc_transactionIndex : Z;
  rc_effectiveGasPrice : P bytes; rc_from : P bytes; rc_to : P bytes; rc_type : Z;
  rc_reasonPresent : bool; rc_vmErrorPresent : bool; rc_effectiveGasPricePresent : bool;
}.

Record CapAccessTuple := mkCapAccessTuple { ac_address : P bytes; ac_storageKeys : P (list (P bytes)) }.

Record CapRPCTransaction := mkCapRPCTransaction {
  tx_blockHash : P bytes; tx_blockNumber : P bytes; tx_from : P bytes; tx_gas : Z; tx_gasPrice : P bytes;
  tx_gasFeeCap : P bytes; tx_gasTipCap : P bytes; tx_hash : P bytes; tx_input : P bytes; tx_nonce : Z;
  tx_to : P bytes; tx_transactionIndex : Z; tx_value : P bytes; tx_type : Z;
  tx_accesses : P (list CapAccessTuple); tx_chainId : P bytes; tx_v : P bytes; tx_r : P bytes; tx_s : P bytes;
  tx_virtual : bool; tx_cosmosHash : P bytes; tx_transactionIndexPresent : bool;
  tx_blockNumberPresent : bool; tx_gasPricePresent : bool; tx_gasFeeCapPresent : bool;
  tx_gasTipCapPresent : bool; tx_valuePresent : bool; tx_accessesPresent : bool; tx_chainIdPresent : bool;
  tx_vPresent : bool; tx_rPresent : bool; tx_sPresent : bool; tx_cosmosMsgIndex : Z;
  tx_cosmosMsgIndexPresent : bool;
}.

Record CapTracePayload := mkCapTracePayload { tp_raw : P bytes }.

Record CapTxResult := mkCapTxResult {
  tr_height : Z; tr_txIndex : Z; tr_msgIndex : Z; tr_ethTxIndex : Z; tr_failed : bool; tr_gasUsed : Z;
  tr_cumulativeGasUsed : Z;
}.
End schema.

(** A pointer of a message that is read: null, or an object whose access may
    fail. *)
Inductive ptr (A : Type) : Type :=
| Null
| Ptr (r : res string A).
Arguments Null {A}.
Arguments Ptr {A} _.

(** HasX *)
Definition has {A} (p : ptr A) : bool := match p with Null => false | Ptr _ => true end.

(** X(): the default of the type for a null pointer *)
Definition get {A} (d : A) (p : ptr A) : res error A := match p with Null => Ok d | Ptr r => lib r end.

(** ** The library *)

(** How a field that was built is read back: a pointer that was never set is
    null; one that was set has its contents, or is null when they are empty. *)
Definition reads_ptr {A B} (R : A → B → Prop) (empty : A → Prop) (w : option A) (v : ptr B) : Prop :=
  match w with
  | None => v = Null
  | Some a => (∃ b, v = Ptr (Ok b) ∧ R a b) ∨ (empty a ∧ v = Null)
  end.

Definition reads_text : option string → ptr string → Prop := reads_ptr eq (λ s, s = EmptyString).
Definition reads_data : option bytes → ptr bytes → Prop := reads_ptr eq (λ b, b = []).
Definition reads_list {A B} (R : A → B → Prop) : option (list A) → ptr (list B) → Prop :=
  reads_ptr (Forall2 R) (λ l, l = []).

Definition reads_BlockMeta (w : CapBlockMeta option) (v : CapBlockMeta ptr) : Prop :=
  bm_height _ v = bm_height _ w ∧ reads_text (bm_hash _ w) (bm_hash _ v) ∧
  reads_text (bm_parentHash _ w) (bm_parentHash _ v) ∧ reads_text (bm_stateRoot _ w) (bm_stateRoot _ v) ∧
  reads_text (bm_miner _ w) (bm_miner _ v) ∧ bm_timestamp _ v = bm_timestamp _ w ∧
  bm_size _ v = bm_size _ w ∧ bm_gasLimit _ v = bm_gasLimit _ w ∧ bm_gasUsed _ v = bm_gasUsed _ w ∧
  bm_ethTxCount _ v = bm_ethTxCount _ w ∧ bm_txCount _ v = bm_txCount _ w ∧
  reads_text (bm_bloom _ w) (bm_bloom _ v) ∧
  reads_text (bm_transactionsRoot _ w) (bm_transactionsRoot _ v) ∧
  reads_text (bm_baseFee _ w) (bm_baseFee _ v) ∧
  bm_virtualizedCosmosEvents _ v = bm_virtualizedCosmosEvents _ w.

Definition reads_Log (w : CapLog option) (v : CapLog ptr) : Prop :=
  reads_data (lg_address _ w) (lg_address _ v) ∧
  reads_list reads_data (lg_topics _ w) (lg_topics _ v) ∧ reads_data (lg_data _ w) (lg_data _ v) ∧
  lg_blockNumber _ v = lg_blockNumber _ w ∧ reads_data (lg_txHash _ w) (lg_txHash _ v) ∧
  lg_txIndex _ v = lg_txIndex _ w ∧ reads_data (lg_blockHash _ w) (lg_blockHash _ v) ∧
  lg_index _ v = lg_index _ w ∧ lg_removed _ v = lg_removed _ w ∧ lg_virtual _ v = lg_virtual _ w ∧
  reads_data (lg_cosmosHash _ w) (lg_cosmosHash _ v) ∧ lg_cosmosMsgIndex _ v = lg_cosmosMsgIndex _ w ∧
  lg_cosmosMsgIndexPresent _ v = lg_cosmosMsgIndexPresent _ w.

Definition reads_LogGroup (w : CapLogGroup option) (v : CapLogGroup ptr) : Prop :=
  reads_list reads_Log (gr_logs _ w) (gr_logs _ v).

Definition reads_BlockLogs (w : CapBlockLogs option) (v : CapBlockLogs ptr) : Prop :=
  reads_list reads_LogGroup (bl_groups _ w) (bl_groups _ v).

Definition reads_Receipt (w : CapReceipt option) (v : CapReceipt ptr) : Prop :=
  rc_status _ v = rc_status _ w ∧ rc_cumulativeGasUsed _ v = rc_cumulativeGasUsed _ w ∧
  rc_gasUsed _ v = rc_gasUsed _ w ∧ reads_text (rc_reason _ w) (rc_reason _ v) ∧
  reads_text (rc_vmError _ w) (rc_vmError _ v) ∧ reads_data (rc_logsBloom _ w) (rc_logsBloom _ v) ∧
  reads_list reads_Log (rc_logs _ w) (rc_logs _ v) ∧
  reads_data (rc_transactionHash _ w) (rc_transactionHash _ v) ∧
  reads_data (rc_contractAddress _ w) (rc_contractAddress _ v) ∧
  reads_data (rc_blockHash _ w) (rc_blockHash _ v) ∧ rc_blockNumber _ v = rc_blockNumber _ w ∧
  rc_transactionIndex _ v = rc_transactionIndex _ w ∧
  reads_data (rc_effectiveGasPrice _ w) (rc_effectiveGasPrice _ v) ∧
  reads_data (rc_from _ w) (rc_from _ v) ∧ reads_data (rc_to _ w) (rc_to _ v) ∧
  rc_type _ v = rc_type _ w ∧ rc_reasonPresent _ v = rc_reasonPresent _ w ∧
  rc_vmErrorPresent _ v = rc_vmErrorPresent _ w ∧
  rc_effectiveGasPricePresent _ v = rc_effectiveGasPricePresent _ w.

Definition reads_AccessTuple (w : CapAccessTuple option) (v : CapAccessTuple ptr) : Prop :=
  reads_data (ac_address _ w) (ac_address _ v) ∧
  reads_list reads_data (ac_storageKeys _ w) (ac_storageKeys _ v).

Definition reads_RPCTransaction (w : CapRPCTransaction option) (v : CapRPCTransaction ptr) : Prop :=
  reads_data (tx_blockHash _ w) (tx_blockHash _ v) ∧ reads_data (tx_blockNumber _ w) (tx_blockNumber _ v) ∧
  reads_data (tx_from _ w) (tx_from _ v) ∧ tx_gas _ v = tx_gas _ w ∧
  reads_data (tx_gasPrice _ w) (tx_gasPrice _ v) ∧ reads_data (tx_gasFeeCap _ w) (tx_gasFeeCap _ v) ∧
  reads_data (tx_gasTipCap _ w) (tx_gasTipCap _ v) ∧ reads_data (tx_hash _ w) (tx_hash _ v) ∧
  reads_data (tx_input _ w) (tx_input _ v) ∧ tx_nonce _ v = tx_nonce _ w ∧
  reads_data (tx_to _ w) (tx_to _ v) ∧ tx_transactionIndex _ v = tx_transactionIndex _ w ∧
  reads_data (tx_value _ w) (tx_value _ v) ∧ tx_type _ v = tx_type _ w ∧
  reads_list reads_AccessTuple (tx_accesses _ w) (tx_accesses _ v) ∧
  reads_data (tx_chainId _ w) (tx_chainId _ v) ∧ reads_data (tx_v _ w) (tx_v _ v) ∧
  reads_data (tx_r _ w) (tx_r _ v) ∧ reads_data (tx_s _ w) (tx_s _ v) ∧ tx_virtual _ v = tx_virtual _ w ∧
  reads_data (tx_cosmosHash _ w) (tx_cosmosHash _ v) ∧
  tx_transactionIndexPresent _ v = tx_transactionIndexPresent _ w ∧
  tx_blockNumberPresent _ v = tx_blockNumberPresent _ w ∧ tx_gasPricePresent _ v = tx_gasPricePresent _ w ∧
  tx_gasFeeCapPresent _ v = tx_gasFeeCapPresent _ w ∧ tx_gasTipCapPresent _ v = tx_gasTipCapPresent _ w ∧
  tx_valuePresent _ v = tx_valuePresent _ w ∧ tx_accessesPresent _ v = tx_accessesPresent _ w ∧
  tx_chainIdPresent _ v = tx_chainIdPresent _ w ∧ tx_vPresent _ v = tx_vPresent _ w ∧
  tx_rPresent _ v = tx_rPresent _ w ∧ tx_sPresent _ v = tx_sPresent _ w ∧
  tx_cosmosMsgIndex _ v = tx_cosmosMsgIndex _ w ∧
  tx_cosmosMsgIndexPresent _ v = tx_cosmosMsgIndexPresent _ w.

(** capnp.Unmarshal, and for each root type: building and marshalling a
    message, and reading its root. *)
Class CapnpLib := {
  Message : Type;
  capnp_Unmarshal : bytes → res string Message;
  Marshal_BlockMeta : CapBlockMeta option → res string bytes;
  ReadRootBlockMeta : Message → res string (CapBlockMeta ptr);
  Marshal_BlockLogs : CapBlockLogs option → res string bytes;
  ReadRootBlockLogs : Message → res string (CapBlockLogs ptr);
  Marshal_Receipt : CapReceipt option → res string bytes;
  ReadRootReceipt : Message → res string (CapReceipt ptr);
  Marshal_RPCTransaction : CapRPCTransaction option → res string bytes;
  ReadRootRPCTransaction : Message → res string (CapRPCTransaction ptr);
  Marshal_TracePayload : CapTracePayload option → res string bytes;
  ReadRootTracePayload : Message → res string (CapTracePayload ptr);
  Marshal_TxResult : CapTxResult → res string bytes;
  ReadRootTxResult : Message → res string CapTxResult;
}.

Class CapnpLaws `{CapnpLib} : Prop := {
  BlockMeta_read w b : Marshal_BlockMeta w = Ok b →
    ∃ m v, capnp_Unmarshal b = Ok m ∧ ReadRootBlockMeta m = Ok v ∧ reads_BlockMeta w v;
  BlockLogs_read w b : Marshal_BlockLogs w = Ok b →
    ∃ m v, capnp_Unmarshal b = Ok m ∧ ReadRootBlockLogs m = Ok v ∧ reads_BlockLogs w v;
  Receipt_read w b : Marshal_Receipt w = Ok b →
    ∃ m v, capnp_Unmarshal b = Ok m ∧ ReadRootReceipt m = Ok v ∧ reads_Receipt w v;
  RPCTransaction_read w b : Marshal_RPCTransaction w = Ok b →
    ∃ m v, capnp_Unmarshal b = Ok m ∧ ReadRootRPCTransaction m = Ok v ∧ reads_RPCTransaction w v;
  TracePayload_read w b : Marshal_TracePayload w = Ok b →
    ∃ m v, capnp_Unmarshal b = Ok m ∧ ReadRootTracePayload m = Ok v ∧ reads_data (tp_raw _ w) (tp_raw _ v);
  TxResult_read w b : Marshal_TxResult w = Ok b →
    ∃ m, capnp_Unmarshal b = Ok m ∧ ReadRootTxResult m = Ok w;
}.

(** The decoders of the payloads written by earlier versions. *)
Class LegacyLib := {
  sonic_BlockMeta : bytes → res string CachedBlockMeta;
  sonic_BlockLogs : bytes → res string (list (list (option RPCLog)));
  sonic_Receipt : bytes → res string CachedReceipt;
  sonic_RPCTransaction : bytes → res string RPCTransaction;
  codec_TxResult : bytes → res string TxResult;
}.

Definition kvCapnpMagic : bytes := [137; 101; 103; 99; 112; 49; 13; 10].

Definition bytes_HasPrefix (b p : bytes) : bool := bool_decide (take (length p) b = p).

(** unmarshalJSON of a type whose decoder is [decode] *)
Definition unmarshalJSON {T} (decode : bytes → res string T) (bz : bytes) : res error T :=
  match bz with
  | [] => Err (Errorf "empty payload")
  | _ => lib (decode bz)
  end.

Definition hexutilBigBytes (v : option Z) : bytes := match v with None => [] | Some v => big_Bytes v end.
Definition hexutilBigFromData (bz : bytes) : Z := big_SetBytes bz.

Section ops.
Context {EL : EthLib} {CP : CapnpLib} {LG : LegacyLib}.

Definition hexBigDataString (bz : bytes) : string := hexutil_EncodeBig (big_SetBytes bz).

(** msg.Marshal and the magic header *)
Definition mustCapnpPayload (built : res string bytes) : res error bytes :=
  match built with
  | Ok bz => Ok (kvCapnpMagic ++ bz)
  | Err e => Panic e
  | Panic e => Panic e
  end.

Definition capnpPayloadMessage (bz : bytes) : res error (option Message) :=
  if bytes_HasPrefix bz kvCapnpMagic then
    let! msg := lib (capnp_Unmarshal (drop (length kvCapnpMagic) bz)) in Ok (Some msg)
  else Ok None.

(** ** Block metadata *)

Definition mustMarshalBlockMeta (meta : CachedBlockMeta) : res error bytes :=
  mustCapnpPayload (Marshal_BlockMeta (mkCapBlockMeta option
    (m_Height meta) (Some (m_Hash meta)) (Some (m_ParentHash meta)) (Some (m_StateRoot meta))
    (Some (m_Miner meta)) (m_Timestamp meta) (m_Size meta) (m_GasLimit meta) (m_GasUsed meta)
    (m_EthTxCount meta) (m_TxCount meta) (Some (m_Bloom meta)) (Some (m_TransactionsRoot meta))
    (Some (m_BaseFee meta)) (m_VirtualizedCosmosEvents meta))).

Definition unmarshalBlockMetaPayload (bz : bytes) : res error CachedBlockMeta :=
  let! msg := capnpPayloadMessage bz in
  match msg with
  | None => unmarshalJSON sonic_BlockMeta bz
  | Some msg =>
      let! root := lib (ReadRootBlockMeta msg) in
      let! hash := get EmptyString (bm_hash _ root) in
      let! parentHash := get EmptyString (bm_parentHash _ root) in
      let! stateRoot := get EmptyString (bm_stateRoot _ root) in
      let! miner := get EmptyString (bm_miner _ root) in
      let! bloom := get EmptyString (bm_bloom _ root) in
      let! transactionsRoot := get EmptyString (bm_transactionsRoot _ root) in
      let! baseFee := get EmptyString (bm_baseFee _ root) in
      Ok (mkMeta (bm_height _ root) hash parentHash stateRoot miner (bm_timestamp _ root) (bm_size _ root)
            (bm_gasLimit _ root) (bm_gasUsed _ root) (bm_ethTxCount _ root) (bm_txCount _ root) bloom
            transactionsRoot baseFee (bm_virtualizedCosmosEvents _ root))
  end.

(** ** Logs *)

(** The log struct of a list element that is left as allocated. *)
Definition empty_cap_log : CapLog option :=
  mkCapLog option None None None 0 None 0 None 0 false false None 0 false.

Definition setCapnpLog (log : RPCLog) : CapLog option :=
  mkCapLog option (Some (l_Address log)) (Some (Some <$> l_Topics log)) (Some (l_Data log)) (l_BlockNumber log)
    (Some (l_TxHash log)) (l_TxIndex log) (Some (l_BlockHash log)) (l_Index log) (l_Removed log) (l_Virtual log)
    (l_CosmosHash log) (default 0 (l_CosmosMsgIndex log)) (bool_decide (is_Some (l_CosmosMsgIndex log))).

Definition setCapnpLogList (logs : list (option RPCLog)) : list (CapLog option) :=
  (λ log, match log with Some log => setCapnpLog log | None => empty_cap_log end) <$> logs.

(** [if src.HasX() { v, err := src.X(); ... }] *)
Definition read_if {A B} (p : ptr A) (d : A) (k : A → B) (absent : B) : res error B :=
  if has p then let! v := get d p in Ok (k v) else Ok absent.

Definition read_data_list (p : ptr (list (ptr bytes))) : res error (list Hash) :=
  if has p then
    let! l := get [] p in
    res_mapM (λ e, let! bz := get [] e in Ok (BytesToHash bz)) l
  else Ok [].

Definition capnpLogToRPC (src : CapLog ptr) : res error RPCLog :=
  let! address := read_if (lg_address _ src) [] BytesToAddress zero_address in
  let! topics := read_data_list (lg_topics _ src) in
  let! data := read_if (lg_data _ src) [] id [] in
  let! txHash := read_if (lg_txHash _ src) [] BytesToHash zero_hash in
  let! blockHash := read_if (lg_blockHash _ src) [] BytesToHash zero_hash in
  let! cosmosHash := read_if (lg_cosmosHash _ src) [] (λ b, Some (BytesToHash b)) None in
  Ok (mkRPCLog address topics data (lg_blockNumber _ src) txHash (lg_txIndex _ src) blockHash
        (lg_index _ src) (lg_removed _ src) (lg_virtual _ src) cosmosHash
        (if lg_cosmosMsgIndexPresent _ src then Some (lg_cosmosMsgIndex _ src) else None)).

Definition capnpLogListToRPC (src : list (CapLog ptr)) : res error (list (option RPCLog)) :=
  res_mapM (λ l, let! log := capnpLogToRPC l in Ok (Some log)) src.

Definition mustMarshalBlockLogs (groups : list (list (option RPCLog))) : res error bytes :=
  mustCapnpPayload (Marshal_BlockLogs (mkCapBlockLogs option
    (Some ((λ logs, mkCapLogGroup option (Some (setCapnpLogList logs))) <$> groups)))).

Definition read_group (group : CapLogGroup ptr) : res error (list (option RPCLog)) :=
  if has (gr_logs _ group) then
    let! clogs := get [] (gr_logs _ group) in capnpLogListToRPC clogs
  else Ok [].

Definition unmarshalBlockLogsPayload (bz : bytes) : res error (list (list (option RPCLog))) :=
  let! msg := capnpPayloadMessage bz in
  match msg with
  | None => unmarshalJSON sonic_BlockLogs bz
  | Some msg =>
      let! root := lib (ReadRootBlockLogs msg) in
      if has (bl_groups _ root) then
        let! cgroups := get [] (bl_groups _ root) in res_mapM read_group cgroups
      else Ok []
  end.

(** ** Filtered logs *)

Fixpoint cap_topics_match (ctopics : list (ptr bytes)) (topics : list (list Hash)) {struct topics} : res error bool :=
  match topics with
  | [] => Ok true
  | sub :: topics =>
      match ctopics with
      | [] => Panic "list index out of bounds"
      | t :: ctopics =>
          if bool_decide (sub = []) then cap_topics_match ctopics topics
          else
            let! bz := get [] t in
            if existsb (λ c, bool_decide (BytesToHash bz = c)) sub then cap_topics_match ctopics topics
            else Ok false
      end
  end.

Definition capnpLogMatches (src : CapLog ptr) (addresses : list Address) (topics : list (list Hash)) :
    res error bool :=
  let! address_ok :=
    match addresses with
    | [] => Ok true
    | _ => if has (lg_address _ src) then
             let! bz := get [] (lg_address _ src) in
             Ok (existsb (λ c, bool_decide (BytesToAddress bz = c)) addresses)
           else Ok false
    end in
  if (address_ok : bool) then
    match topics with
    | [] => Ok true
    | _ => if has (lg_topics _ src) then
             let! ctopics := get [] (lg_topics _ src) in
             if bool_decide (length ctopics < length topics)%nat then Ok false
             else cap_topics_match ctopics topics
           else Ok false
    end
  else Ok false.

(** The body of the inner loop: the log if it matches. *)
Definition filter_log (addresses : list Address) (topics : list (list Hash)) (src : CapLog ptr) :
    res error (list (option RPCLog)) :=
  let! matched := capnpLogMatches src addresses topics in
  if (matched : bool) then let! log := capnpLogToRPC src in Ok [Some log] else Ok [].

Definition filter_logs (addresses : list Address) (topics : list (list Hash)) (clogs : list (CapLog ptr)) :
    res error (list (option RPCLog)) :=
  let! l := res_mapM (filter_log addresses topics) clogs in Ok (mjoin l).

Definition filter_group (addresses : list Address) (topics : list (list Hash)) (group : CapLogGroup ptr) :
    res error (list (option RPCLog)) :=
  if has (gr_logs _ group) then
    let! clogs := get [] (gr_logs _ group) in filter_logs addresses topics clogs
  else Ok [].

Definition unmarshalFilteredBlockLogsPayload (bz : bytes) (addresses : list Address) (topics : list (list Hash)) :
    res error (list (option RPCLog)) :=
  let! msg := capnpPayloadMessage bz in
  match msg with
  | None =>
      let! groups := unmarshalJSON sonic_BlockLogs bz in
      Ok (filter (λ log, LogMatches log addresses topics = true) (mjoin groups))
  | Some msg =>
      let! root := lib (ReadRootBlockLogs msg) in
      if has (bl_groups _ root) then
        let! cgroups := get [] (bl_groups _ root) in
        let! l := res_mapM (filter_group addresses topics) cgroups in Ok (mjoin l)
      else Ok []
  end.

(** ** Receipts *)

Definition mustMarshalReceipt (receipt : CachedReceipt) : res error bytes :=
  let build price :=
    mustCapnpPayload (Marshal_Receipt (mkCapReceipt option
      (cr_Status receipt) (cr_CumulativeGasUsed receipt) (cr_GasUsed receipt) (cr_Reason receipt)
      (cr_VMError receipt) (Some (FromHex (cr_LogsBloom receipt))) (Some (setCapnpLogList (cr_Logs receipt)))
      (Some (HexToHash (cr_TransactionHash receipt))) (HexToAddress <$> cr_ContractAddress receipt)
      (Some (HexToHash (cr_BlockHash receipt))) (cr_BlockNumber receipt) (cr_TransactionIndex receipt)
      price (Some (HexToAddress (cr_From receipt))) (HexToAddress <$> cr_To receipt) (cr_Type receipt)
      (bool_decide (is_Some (cr_Reason receipt))) (bool_decide (is_Some (cr_VMError receipt)))
      (bool_decide (is_Some price)))) in
  if bool_decide (cr_EffectiveGasPrice receipt ≠ EmptyString) then
    match hexutil_DecodeBig (cr_EffectiveGasPrice receipt) with
    | Ok v => build (Some (big_Bytes v))
    | Err e => Panic e
    | Panic e => Panic e
    end
  else build None.

Definition unmarshalReceiptPayload (bz : bytes) : res error CachedReceipt :=
  let! msg := capnpPayloadMessage bz in
  match msg with
  | None => unmarshalJSON sonic_Receipt bz
  | Some msg =>
      let! root := lib (ReadRootReceipt msg) in
      let! reason := if rc_reasonPresent _ root
                     then let! r := get EmptyString (rc_reason _ root) in Ok (Some r) else Ok None in
      let! vmErr := if rc_vmErrorPresent _ root
                    then let! r := get EmptyString (rc_vmError _ root) in Ok (Some r) else Ok None in
      let! logsBloom := read_if (rc_logsBloom _ root) [] hexutil_Encode EmptyString in
      let! logs := if has (rc_logs _ root)
                   then let! clogs := get [] (rc_logs _ root) in capnpLogListToRPC clogs else Ok [] in
      let! txHash := read_if (rc_transactionHash _ root) [] (λ b, Hash_Hex (BytesToHash b)) EmptyString in
      let! contract := read_if (rc_contractAddress _ root) [] (λ b, Some (Address_Hex (BytesToAddress b))) None in
      let! blockHash := read_if (rc_blockHash _ root) [] (λ b, Hash_Hex (BytesToHash b)) EmptyString in
      let! price := if rc_effectiveGasPricePresent _ root || has (rc_effectiveGasPrice _ root)
                    then let! d := get [] (rc_effectiveGasPrice _ root) in Ok (hexBigDataString d)
                    else Ok EmptyString in
      let! from := read_if (rc_from _ root) [] (λ b, Address_Hex (BytesToAddress b)) EmptyString in
      let! to := read_if (rc_to _ root) [] (λ b, Some (Address_Hex (BytesToAddress b))) None in
      Ok (mkCachedReceipt (rc_status _ root) (rc_cumulativeGasUsed _ root) (rc_gasUsed _ root) reason vmErr
            logsBloom logs txHash contract blockHash (rc_blockNumber _ root) (rc_transactionIndex _ root) price
            from to (rc_type _ root))
  end.

(** ** RPC transactions *)

Definition cap_big (v : option Z) : option bytes := hexutilBigBytes ∘ Some <$> v.

Definition present {A} (v : option A) : bool := bool_decide (is_Some v).

Definition cap_access (a : AccessTuple) : CapAccessTuple option :=
  mkCapAccessTuple option (Some (at_Address a)) (Some (Some <$> at_StorageKeys a)).

Definition mustMarshalRPCTransaction (tx : RPCTransaction) : res error bytes :=
  mustCapnpPayload (Marshal_RPCTransaction (mkCapRPCTransaction option
    (t_BlockHash tx) (cap_big (t_BlockNumber tx)) (Some (t_From tx)) (t_Gas tx) (cap_big (t_GasPrice tx))
    (cap_big (t_GasFeeCap tx)) (cap_big (t_GasTipCap tx)) (Some (t_Hash tx)) (Some (t_Input tx)) (t_Nonce tx)
    (t_To tx) (default 0 (t_TransactionIndex tx)) (cap_big (t_Value tx)) (t_Type tx)
    (map cap_access <$> t_Accesses tx) (cap_big (t_ChainID tx)) (cap_big (t_V tx)) (cap_big (t_R tx))
    (cap_big (t_S tx)) (t_Virtual tx) (t_CosmosHash tx) (present (t_TransactionIndex tx))
    (present (t_BlockNumber tx)) (present (t_GasPrice tx)) (present (t_GasFeeCap tx)) (present (t_GasTipCap tx))
    (present (t_Value tx)) (present (t_Accesses tx)) (present (t_ChainID tx)) (present (t_V tx))
    (present (t_R tx)) (present (t_S tx)) (default 0 (t_CosmosMsgIndex tx)) (present (t_CosmosMsgIndex tx)))).

(** [if root.XPresent() || root.HasX() { v, err := root.X(); ... }] *)
Definition read_big (flag : bool) (p : ptr bytes) : res error (option Z) :=
  if flag || has p then let! v := get [] p in Ok (Some (hexutilBigFromData v)) else Ok None.

Definition read_access (src : CapAccessTuple ptr) : res error AccessTuple :=
  let! address := read_if (ac_address _ src) [] BytesToAddress zero_address in
  let! keys := read_data_list (ac_storageKeys _ src) in
  Ok (mkAccessTuple address keys).

Definition unmarshalRPCTransactionPayload (bz : bytes) : res error RPCTransaction :=
  let! msg := capnpPayloadMessage bz in
  match msg with
  | None => unmarshalJSON sonic_RPCTransaction bz
  | Some msg =>
      let! root := lib (ReadRootRPCTransaction msg) in
      let! blockHash := read_if (tx_blockHash _ root) [] (λ b, Some (BytesToHash b)) None in
      let! blockNumber := read_big (tx_blockNumberPresent _ root) (tx_blockNumber _ root) in
      let! from := read_if (tx_from _ root) [] BytesToAddress zero_address in
      let! gasPrice := read_big (tx_gasPricePresent _ root) (tx_gasPrice _ root) in
      let! gasFeeCap := read_big (tx_gasFeeCapPresent _ root) (tx_gasFeeCap _ root) in
      let! gasTipCap := read_big (tx_gasTipCapPresent _ root) (tx_gasTipCap _ root) in
      let! hash := read_if (tx_hash _ root) [] BytesToHash zero_hash in
      let! input := read_if (tx_input _ root) [] id [] in
      let! to := read_if (tx_to _ root) [] (λ b, Some (BytesToAddress b)) None in
      let! value := read_big (tx_valuePresent _ root) (tx_value _ root) in
      let! accesses :=
        if tx_accessesPresent _ root || has (tx_accesses _ root) then
          let! l := get [] (tx_accesses _ root) in
          let! l := res_mapM read_access l in Ok (Some l)
        else Ok None in
      let! chainId := read_big (tx_chainIdPresent _ root) (tx_chainId _ root) in
      let! v := read_big (tx_vPresent _ root) (tx_v _ root) in
      let! r := read_big (tx_rPresent _ root) (tx_r _ root) in
      let! s := read_big (tx_sPresent _ root) (tx_s _ root) in
      let! cosmosHash := read_if (tx_cosmosHash _ root) [] (λ b, Some (BytesToHash b)) None in
      Ok (mkRPCTransaction blockHash blockNumber from (tx_gas _ root) gasPrice gasFeeCap gasTipCap hash input
            (tx_nonce _ root) to
            (if tx_transactionIndexPresent _ root then Some (tx_transactionIndex _ root) else None) value
            (tx_type _ root) accesses chainId v r s (tx_virtual _ root) cosmosHash
            (if tx_cosmosMsgIndexPresent _ root then Some (tx_cosmosMsgIndex _ root) else None))
  end.

(** ** Transaction results and traces *)

Definition mustMarshalTxResult (tx : option TxResult) : res error bytes :=
  mustCapnpPayload (Marshal_TxResult
    match tx with
    | Some tx => mkCapTxResult (txr_Height tx) (txr_TxIndex tx) (txr_MsgIndex tx) (txr_EthTxIndex tx)
                   (txr_Failed tx) (txr_GasUsed tx) (txr_CumulativeGasUsed tx)
    | None => mkCapTxResult 0 0 0 0 false 0 0
    end).

Definition unmarshalTxResultPayload (bz : bytes) : res error TxResult :=
  let! msg := capnpPayloadMessage bz in
  match msg with
  | None => lib (codec_TxResult bz)
  | Some msg =>
      let! root := lib (ReadRootTxResult msg) in
      Ok (mkTxResult (tr_height root) (tr_txIndex root) (tr_msgIndex root) (tr_ethTxIndex root)
            (tr_failed root) (tr_gasUsed root) (tr_cumulativeGasUsed root))
  end.

Definition mustMarshalTracePayload (raw : bytes) : res error bytes :=
  mustCapnpPayload (Marshal_TracePayload (mkCapTracePayload option (Some raw))).

Definition unmarshalTracePayload (bz : bytes) : res error bytes :=
  let! msg := capnpPayloadMessage bz in
  match msg with
  | None => Ok bz
  | Some msg =>
      let! root := lib (ReadRootTracePayload msg) in
      get [] (tp_raw _ root)
  end.
End ops.
End Codec.
