(* ===== verification/CodecInstances.v ===== *)
(** * A concrete message codec

    A Cap'n Proto library that satisfies the laws of Codec.v: a message is the
    number of the value it was built from, and every pointer that was set
    reads back valid.  Legacy payloads do not decode. *)

From Stdlib Require Import Ascii String.
From S2P Require Import Prelude Bytes GoLib EthTypes EthInstances Virtual RpcUtils Cached Codec.
From stdpp Require Import strings list countable.
#[local] Open Scope Z_scope.

Module CodecInstances.
Import EthTypes EthInstances Codec.

#[export] Instance CapLog_eq_dec : EqDecision (CapLog option).
Proof. solve_decision. Defined.

#[export] Instance CapLog_countable : Countable (CapLog option).
Proof.
  apply (inj_countable' (λ x : CapLog option, (lg_address _ x, lg_topics _ x, lg_data _ x, lg_blockNumber _ x, lg_txHash _ x, lg_txIndex _ x, (lg_blockHash _ x, lg_index _ x, lg_removed _ x, lg_virtual _ x, lg_cosmosHash _ x, lg_cosmosMsgIndex _ x, lg_cosmosMsgIndexPresent _ x)))
    (λ '(x0, x1, x2, x3, x4, x5, (x6, x7, x8, x9, x10, x11, x12)), mkCapLog option x0 x1 x2 x3 x4 x5 x6 x7 x8 x9 x10 x11 x12)). by intros [].
Defined.

#[export] Instance CapLogGroup_eq_dec : EqDecision (CapLogGroup option).
Proof. solve_decision. Defined.

#[export] Instance CapLogGroup_countable : Countable (CapLogGroup option).
Proof.
  apply (inj_countable' (λ x : CapLogGroup option, gr_logs _ x)
    (λ x0, mkCapLogGroup option x0)). by intros [].
Defined.

#[export] Instance CapBlockLogs_eq_dec : EqDecision (CapBlockLogs option).
Proof. solve_decision. Defined.

#[export] Instance CapBlockLogs_countable : Countable (CapBlockLogs option).
Proof.
  apply (inj_countable' (λ x : CapBlockLogs option, bl_groups _ x)
    (λ x0, mkCapBlockLogs option x0)). by intros [].
Defined.

#[export] Instance CapBlockMeta_eq_dec : EqDecision (CapBlockMeta option).
Proof. solve_decision. Defined.

#[export] Instance CapBlockMeta_countable : Countable (CapBlockMeta option).
Proof.
  apply (inj_countable' (λ x : CapBlockMeta option, (bm_height _ x, bm_hash _ x, bm_parentHash _ x, bm_stateRoot _ x, bm_miner _ x, bm_timestamp _ x, (bm_size _ x, bm_gasLimit _ x, bm_gasUsed _ x, bm_ethTxCount _ x, bm_txCount _ x, bm_bloom _ x, (bm_transactionsRoot _ x, bm_baseFee _ x, bm_virtualizedCosmosEvents _ x))))
    (λ '(x0, x1, x2, x3, x4, x5, (x6, x7, x8, x9, x10, x11, (x12, x13, x14))), mkCapBlockMeta option x0 x1 x2 x3 x4 x5 x6 x7 x8 x9 x10 x11 x12 x13 x14)). by intros [].
Defined.

#[export] Instance CapReceipt_eq_dec : EqDecision (CapReceipt option).
Proof. solve_decision. Defined.

#[export] Instance CapReceipt_countable : Countable (CapReceipt option).
Proof.
  apply (inj_countable' (λ x : CapReceipt option, (rc_status _ x, rc_cumulativeGasUsed _ x, rc_gasUsed _ x, rc_reason _ x, rc_vmError _ x, rc_logsBloom _ x, (rc_logs _ x, rc_transactionHash _ x, rc_contractAddress _ x, rc_blockHash _ x, rc_blockNumber _ x, rc_transactionIndex _ x, (rc_effectiveGasPrice _ x, rc_from _ x, rc_to _ x, rc_type _ x, rc_reasonPresent _ x, rc_vmErrorPresent _ x, rc_effectiveGasPricePresent _ x))))
    (λ '(x0, x1, x2, x3, x4, x5, (x6, x7, x8, x9, x10, x11, (x12, x13, x14, x15, x16, x17, x18))), mkCapReceipt option x0 x1 x2 x3 x4 x5 x6 x7 x8 x9 x10 x11 x12 x13 x14 x15 x16 x17 x18)). by intros [].
Defined.

#[export] Instance CapAccessTuple_eq_dec : EqDecision (CapAccessTuple option).
Proof. solve_decision. Defined.

#[export] Instance CapAccessTuple_countable : Countable (CapAccessTuple option).
Proof.
  apply (inj_countable' (λ x : CapAccessTuple option, (ac_address _ x, ac_storageKeys _ x))
    (λ '(x0, x1), mkCapAccessTuple option x0 x1)). by intros [].
Defined.

#[export] Instance CapRPCTransaction_eq_dec : EqDecision (CapRPCTransaction option).
Proof. solve_decision. Defined.

#[export] Instance CapRPCTransaction_countable : Countable (CapRPCTransaction option).
Proof.
  apply (inj_countable' (λ x : CapRPCTransaction option, (tx_blockHash _ x, tx_blockNumber _ x, tx_from _ x, tx_gas _ x, tx_gasPrice _ x, tx_gasFeeCap _ x, (tx_gasTipCap _ x, tx_hash _ x, tx_input _ x, tx_nonce _ x, tx_to _ x, tx_transactionIndex _ x, (tx_value _ x, tx_type _ x, tx_accesses _ x, tx_chainId _ x, tx_v _ x, tx_r _ x, (tx_s _ x, tx_virtual _ x, tx_cosmosHash _ x, tx_transactionIndexPresent _ x, tx_blockNumberPresent _ x, tx_gasPricePresent _ x, (tx_gasFeeCapPresent _ x, tx_gasTipCapPresent _ x, tx_valuePresent _ x, tx_accessesPresent _ x, tx_chainIdPresent _ x, tx_vPresent _ x, (tx_rPresent _ x, tx_sPresent _ x, tx_cosmosMsgIndex _ x, tx_cosmosMsgIndexPresent _ x)))))))
    (λ '(x0, x1, x2, x3, x4, x5, (x6, x7, x8, x9, x10, x11, (x12, x13, x14, x15, x16, x17, (x18, x19, x20, x21, x22, x23, (x24, x25, x26, x27, x28, x29, (x30, x31, x32, x33)))))), mkCapRPCTransaction option x0 x1 x2 x3 x4 x5 x6 x7 x8 x9 x10 x11 x12 x13 x14 x15 x16 x17 x18 x19 x20 x21 x22 x23 x24 x25 x26 x27 x28 x29 x30 x31 x32 x33)). by intros [].
Defined.

#[export] Instance CapTracePayload_eq_dec : EqDecision (CapTracePayload option).
Proof. solve_decision. Defined.

#[export] Instance CapTracePayload_countable : Countable (CapTracePayload option).
Proof.
  apply (inj_countable' (λ x : CapTracePayload option, tp_raw _ x)
    (λ x0, mkCapTracePayload option x0)). by intros [].
Defined.

#[export] Instance CapTxResult_eq_dec : EqDecision (CapTxResult).
Proof. solve_decision. Defined.

#[export] Instance CapTxResult_countable : Countable (CapTxResult).
Proof.
  apply (inj_countable' (λ x : CapTxResult, (tr_height x, tr_txIndex x, tr_msgIndex x, tr_ethTxIndex x, tr_failed x, tr_gasUsed x, tr_cumulativeGasUsed x))
    (λ '(x0, x1, x2, x3, x4, x5, x6), mkCapTxResult x0 x1 x2 x3 x4 x5 x6)). by intros [].
Defined.

(** A message as it is read: every pointer that was set is valid. *)
Definition to_ptr {A} (o : option A) : ptr A := match o with Some a => Ptr (Ok a) | None => Null end.
Definition to_ptr_list {A B} (f : A → B) (o : option (list A)) : ptr (list B) :=
  match o with Some l => Ptr (Ok (f <$> l)) | None => Null end.

Definition view_CapLog (x : CapLog option) : CapLog ptr :=
  mkCapLog ptr (to_ptr (lg_address _ x)) (to_ptr_list to_ptr (lg_topics _ x)) (to_ptr (lg_data _ x))
    (lg_blockNumber _ x) (to_ptr (lg_txHash _ x)) (lg_txIndex _ x) (to_ptr (lg_blockHash _ x))
    (lg_index _ x) (lg_removed _ x) (lg_virtual _ x) (to_ptr (lg_cosmosHash _ x)) (lg_cosmosMsgIndex _ x)
    (lg_cosmosMsgIndexPresent _ x).

Definition view_CapLogGroup (x : CapLogGroup option) : CapLogGroup ptr :=
  mkCapLogGroup ptr (to_ptr_list view_CapLog (gr_logs _ x)).

Definition view_CapBlockLogs (x : CapBlockLogs option) : CapBlockLogs ptr :=
  mkCapBlockLogs ptr (to_ptr_list view_CapLogGroup (bl_groups _ x)).

Definition view_CapBlockMeta (x : CapBlockMeta option) : CapBlockMeta ptr :=
  mkCapBlockMeta ptr (bm_height _ x) (to_ptr (bm_hash _ x)) (to_ptr (bm_parentHash _ x))
    (to_ptr (bm_stateRoot _ x)) (to_ptr (bm_miner _ x)) (bm_timestamp _ x) (bm_size _ x) (bm_gasLimit _ x)
    (bm_gasUsed _ x) (bm_ethTxCount _ x) (bm_txCount _ x) (to_ptr (bm_bloom _ x))
    (to_ptr (bm_transactionsRoot _ x)) (to_ptr (bm_baseFee _ x)) (bm_virtualizedCosmosEvents _ x).

Definition view_CapReceipt (x : CapReceipt option) : CapReceipt ptr :=
  mkCapReceipt ptr (rc_status _ x) (rc_cumulativeGasUsed _ x) (rc_gasUsed _ x) (to_ptr (rc_reason _ x))
    (to_ptr (rc_vmError _ x)) (to_ptr (rc_logsBloom _ x)) (to_ptr_list view_CapLog (rc_logs _ x))
    (to_ptr (rc_transactionHash _ x)) (to_ptr (rc_contractAddress _ x)) (to_ptr (rc_blockHash _ x))
    (rc_blockNumber _ x) (rc_transactionIndex _ x) (to_ptr (rc_effectiveGasPrice _ x))
    (to_ptr (rc_from _ x)) (to_ptr (rc_to _ x)) (rc_type _ x) (rc_reasonPresent _ x)
    (rc_vmErrorPresent _ x) (rc_effectiveGasPricePresent _ x).

Definition view_CapAccessTuple (x : CapAccessTuple option) : CapAccessTuple ptr :=
  mkCapAccessTuple ptr (to_ptr (ac_address _ x)) (to_ptr_list to_ptr (ac_storageKeys _ x)).

Definition view_CapRPCTransaction (x : CapRPCTransaction option) : CapRPCTransaction ptr :=
  mkCapRPCTransaction ptr (to_ptr (tx_blockHash _ x)) (to_ptr (tx_blockNumber _ x)) (to_ptr (tx_from _ x))
    (tx_gas _ x) (to_ptr (tx_gasPrice _ x)) (to_ptr (tx_gasFeeCap _ x)) (to_ptr (tx_gasTipCap _ x))
    (to_ptr (tx_hash _ x)) (to_ptr (tx_input _ x)) (tx_nonce _ x) (to_ptr (tx_to _ x))
    (tx_transactionIndex _ x) (to_ptr (tx_value _ x)) (tx_type _ x)
    (to_ptr_list view_CapAccessTuple (tx_accesses _ x)) (to_ptr (tx_chainId _ x)) (to_ptr (tx_v _ x))
    (to_ptr (tx_r _ x)) (to_ptr (tx_s _ x)) (tx_virtual _ x) (to_ptr (tx_cosmosHash _ x))
    (tx_transactionIndexPresent _ x) (tx_blockNumberPresent _ x) (tx_gasPricePresent _ x)
    (tx_gasFeeCapPresent _ x) (tx_gasTipCapPresent _ x) (tx_valuePresent _ x) (tx_accessesPresent _ x)
    (tx_chainIdPresent _ x) (tx_vPresent _ x) (tx_rPresent _ x) (tx_sPresent _ x) (tx_cosmosMsgIndex _ x)
    (tx_cosmosMsgIndexPresent _ x).

Definition view_CapTracePayload (x : CapTracePayload option) : CapTracePayload ptr :=
  mkCapTracePayload ptr (to_ptr (tp_raw _ x)).

Lemma reads_to_ptr {A} (empty : A → Prop) o : reads_ptr eq empty o (to_ptr o).
Proof. destruct o; simpl; [left|done]. eauto. Qed.

Lemma reads_to_ptr_list {A B} (R : A → B → Prop) (f : A → B) o :
  (∀ a, R a (f a)) → reads_list R o (to_ptr_list f o).
Proof.
  intros Hf. destruct o as [l|]; simpl; [left|done]. exists (f <$> l). split; [done|].
  apply Forall2_fmap_r, Forall_Forall2_diag, Forall_true. done.
Qed.

Lemma view_CapLog_reads x : reads_Log x (view_CapLog x).
Proof. repeat split; try apply reads_to_ptr. apply reads_to_ptr_list. intros o. apply reads_to_ptr. Qed.

#[export] Instance model_CapnpLib : CapnpLib := {
  Message := bytes;
  capnp_Unmarshal b := Ok b;
  Marshal_BlockMeta w := Ok (countable_marshal w);
  ReadRootBlockMeta m := res_bind (countable_unmarshal m) (λ w, Ok (view_CapBlockMeta w));
  Marshal_BlockLogs w := Ok (countable_marshal w);
  ReadRootBlockLogs m := res_bind (countable_unmarshal m) (λ w, Ok (view_CapBlockLogs w));
  Marshal_Receipt w := Ok (countable_marshal w);
  ReadRootReceipt m := res_bind (countable_unmarshal m) (λ w, Ok (view_CapReceipt w));
  Marshal_RPCTransaction w := Ok (countable_marshal w);
  ReadRootRPCTransaction m := res_bind (countable_unmarshal m) (λ w, Ok (view_CapRPCTransaction w));
  Marshal_TracePayload w := Ok (countable_marshal (tp_raw _ w));
  ReadRootTracePayload m := res_bind (countable_unmarshal m) (λ w, Ok (mkCapTracePayload ptr (to_ptr w)));
  Marshal_TxResult w := Ok (countable_marshal w);
  ReadRootTxResult m := countable_unmarshal m;
}.

#[export] Instance model_CapnpLaws : CapnpLaws.
Proof.
  split; intros w b Hb; cbn in Hb; injection Hb as <-; eexists.
  - eexists. split; [reflexivity|]. cbn [ReadRootBlockMeta model_CapnpLib]. rewrite countable_roundtrip.
    split; [reflexivity|]. repeat split; apply reads_to_ptr.
  - eexists. split; [reflexivity|]. cbn [ReadRootBlockLogs model_CapnpLib]. rewrite countable_roundtrip.
    split; [reflexivity|]. apply reads_to_ptr_list. intros g. apply reads_to_ptr_list. apply view_CapLog_reads.
  - eexists. split; [reflexivity|]. cbn [ReadRootReceipt model_CapnpLib]. rewrite countable_roundtrip.
    split; [reflexivity|]. repeat split; try apply reads_to_ptr. apply reads_to_ptr_list, view_CapLog_reads.
  - eexists. split; [reflexivity|]. cbn [ReadRootRPCTransaction model_CapnpLib]. rewrite countable_roundtrip.
    split; [reflexivity|]. repeat split; try apply reads_to_ptr. apply reads_to_ptr_list.
    intros a. split; [apply reads_to_ptr|]. apply reads_to_ptr_list. intros o. apply reads_to_ptr.
  - eexists. split; [reflexivity|]. cbn [ReadRootTracePayload model_CapnpLib]. rewrite countable_roundtrip.
    split; [reflexivity|]. apply reads_to_ptr.
  - split; [reflexivity|]. cbn [ReadRootTxResult model_CapnpLib]. apply countable_roundtrip.
Qed.

#[export] Instance model_LegacyLib : LegacyLib := {
  sonic_BlockMeta _ := Err "invalid JSON"%string;
  sonic_BlockLogs _ := Err "invalid JSON"%string;
  sonic_Receipt _ := Err "invalid JSON"%string;
  sonic_RPCTransaction _ := Err "invalid JSON"%string;
  codec_TxResult _ := Err "invalid protobuf"%string;
}.
End CodecInstances.
