(* ===== verification/CodecProps.v ===== *)
(** * Properties of the cache payloads

    What is written is read back, for every kind of payload, and the filtered
    decoding of logs agrees with decoding followed by the log filter. *)

From Stdlib Require Import Ascii String.
From S2P Require Import Prelude Bytes GoLib EthTypes EthInstances Virtual RpcUtils Cached Codec CodecInstances.
From stdpp Require Import strings list.
#[local] Open Scope Z_scope.

Module CodecProps.
Import GoLib EthTypes Virtual Cached Codec.

(** ** Well-formed values *)

Definition opt_all {A} (P : A → Prop) (o : option A) : Prop := match o with Some a => P a | None => True end.

Definition wf_log (log : RPCLog) : Prop :=
  is_address (l_Address log) ∧ Forall is_hash (l_Topics log) ∧ is_hash (l_TxHash log) ∧
  is_hash (l_BlockHash log) ∧ opt_all is_hash (l_CosmosHash log).

Definition wf_logs (logs : list (option RPCLog)) : Prop := Forall (opt_all wf_log) logs.

#[global] Instance opt_all_dec {A} (P : A → Prop) `{∀ a, Decision (P a)} o : Decision (opt_all P o).
Proof. destruct o; cbn; apply _. Defined.
#[global] Instance wf_log_dec log : Decision (wf_log log).
Proof. unfold wf_log. apply _. Defined.
#[global] Instance wf_logs_dec logs : Decision (wf_logs logs).
Proof. unfold wf_logs. apply _. Defined.

(** A nil log is stored as an empty struct and comes back as a log without
    contents. *)
Definition zero_log : RPCLog :=
  mkRPCLog zero_address [] [] 0 zero_hash 0 zero_hash 0 false false None None.
Definition stored_log (log : option RPCLog) : option RPCLog := Some (default zero_log log).


Definition stored_group (logs : list (option RPCLog)) : list (option RPCLog) := stored_log <$> logs.

Section ptr.
Context {A B : Type}.

Lemma reads_text_get s v : reads_text (Some s) v → get EmptyString v = Ok s.
Proof. intros [(b & -> & ->)|[-> ->]]; done. Qed.

Lemma reads_data_get b v : reads_data (Some b) v → get [] v = Ok b.
Proof. intros [(b' & -> & ->)|[-> ->]]; done. Qed.

Lemma reads_data_read_if {C} b v (k : bytes → C) absent :
  reads_data (Some b) v → (b = [] → k [] = absent) → read_if v [] k absent = Ok (k b).
Proof. intros [(b' & -> & ->)|[-> ->]] Hk; [done|]. unfold read_if. simpl. by rewrite Hk. Qed.

Lemma reads_data_none {C} v (k : bytes → C) absent : reads_data None v → read_if v [] k absent = Ok absent.
Proof. by intros ->. Qed.

Lemma reads_list_get (R : A → B → Prop) l v :
  reads_list R (Some l) v → ∃ l', get [] v = Ok l' ∧ Forall2 R l l' ∧ (has v = false → l = []).
Proof.
  intros [(l' & -> & Hf)|[-> ->]]; [by exists l'|]. by exists [].
Qed.

Lemma res_mapM_Forall2 {E C} (R : A → B → Prop) (f : B → res E C) (g : A → C) l l' :
  Forall2 R l l' → (∀ a b, a ∈ l → R a b → f b = Ok (g a)) → res_mapM f l' = Ok (g <$> l).
Proof.
  intros Hf. induction Hf as [|a b l l' Hab Hf IH]; intros Hg; [done|].
  cbn [res_mapM]. rewrite (Hg a b), IH; [done| |by left|done].
  intros a' b' Ha'. apply Hg. by right.
Qed.
End ptr.

Lemma is_hash_nonempty h : is_hash h → h ≠ [].
Proof. intros [Hl _] ->. done. Qed.
Lemma is_address_nonempty a : is_address a → a ≠ [].
Proof. intros [Hl _] ->. done. Qed.

Section props.
Context {EL : EthLib} {ELL : EthLibLaws} {CP : CapnpLib} {CPL : CapnpLaws} {LG : LegacyLib}.

(** The header marks the payload and is removed from it. *)
Lemma payload_message (built : res string bytes) bz :
  mustCapnpPayload built = Ok bz →
  ∃ b, built = Ok b ∧ capnpPayloadMessage bz = let! m := lib (capnp_Unmarshal b) in Ok (Some m).
Proof.
  unfold mustCapnpPayload. destruct built as [b| |]; [|done..]. intros [= <-]. exists b. split; [done|].
  unfold capnpPayloadMessage, bytes_HasPrefix. by rewrite bool_decide_true by reflexivity.
Qed.

Lemma read_hash h v : reads_data (Some h) v → is_hash h → read_if v [] BytesToHash zero_hash = Ok h.
Proof.
  intros Hr Hh. rewrite (reads_data_read_if h); [|done|intros E; by destruct (is_hash_nonempty h Hh)].
  by rewrite BytesToHash_id.
Qed.

Lemma read_address a v : reads_data (Some a) v → is_address a → read_if v [] BytesToAddress zero_address = Ok a.
Proof.
  intros Hr Ha. rewrite (reads_data_read_if a); [|done|intros E; by destruct (is_address_nonempty a Ha)].
  by rewrite BytesToAddress_id.
Qed.

Lemma read_opt_hash o v :
  reads_data o v → opt_all is_hash o → read_if v [] (λ b, Some (BytesToHash b)) None = Ok o.
Proof.
  destruct o as [h|]; intros Hr Hh; [|by apply reads_data_none].
  rewrite (reads_data_read_if h); [|done|intros E; by destruct (is_hash_nonempty h Hh)]. by rewrite BytesToHash_id.
Qed.

Lemma read_opt_address o v :
  reads_data o v → opt_all is_address o → read_if v [] (λ b, Some (BytesToAddress b)) None = Ok o.
Proof.
  destruct o as [h|]; intros Hr Hh; [|by apply reads_data_none].
  rewrite (reads_data_read_if h); [|done|intros E; by destruct (is_address_nonempty h Hh)]. by rewrite BytesToAddress_id.
Qed.

Lemma read_bytes b v : reads_data (Some b) v → read_if v [] id [] = Ok b.
Proof. intros Hr. by rewrite (reads_data_read_if b). Qed.

Lemma read_hashes l v :
  reads_list reads_data (Some (Some <$> l)) v → Forall is_hash l → read_data_list v = Ok l.
Proof.
  intros Hr Hl. destruct (reads_list_get _ _ _ Hr) as (l' & Hg & Hf & Hh). unfold read_data_list.
  destruct (has v) eqn:Ev.
  - rewrite Hg. cbn [res_bind]. rewrite Forall2_fmap_l in Hf.
    rewrite <- (list_fmap_id l) at 1. eapply res_mapM_Forall2; [exact Hf|].
    intros a b Ha Hab. simpl in Hab. rewrite (reads_data_get a) by done. cbn [res_bind].
    rewrite Forall_forall in Hl. by rewrite BytesToHash_id by auto.
  - specialize (Hh eq_refl). by apply fmap_nil_inv in Hh as ->.
Qed.

Lemma read_log log v : reads_Log (setCapnpLog log) v → wf_log log → capnpLogToRPC v = Ok log.
Proof.
  intros (R1 & R2 & R3 & R4 & R5 & R6 & R7 & R8 & R9 & R10 & R11 & R12 & R13) (W1 & W2 & W3 & W4 & W5).
  unfold capnpLogToRPC.
  rewrite (read_address (l_Address log) _ R1 W1), (read_hashes (l_Topics log) _ R2 W2),
    (read_bytes (l_Data log) _ R3), (read_hash (l_TxHash log) _ R5 W3),
    (read_hash (l_BlockHash log) _ R7 W4), (read_opt_hash (l_CosmosHash log) _ R11 W5).
  cbn [res_bind]. rewrite R4, R6, R8, R9, R10, R12, R13.
  destruct log as [? ? ? ? ? ? ? ? ? ? ? [i|]]; reflexivity.
Qed.

Lemma read_empty_log v : reads_Log empty_cap_log v → capnpLogToRPC v = Ok zero_log.
Proof.
  intros (R1 & R2 & R3 & R4 & R5 & R6 & R7 & R8 & R9 & R10 & R11 & R12 & R13).
  unfold capnpLogToRPC. cbn in R1, R2, R3, R5, R7, R11. rewrite R1, R2, R3, R4, R5, R6, R7, R8, R9, R10, R11, R13. done.
Qed.

Lemma read_logs logs v :
  reads_list reads_Log (Some (setCapnpLogList logs)) v → wf_logs logs →
  (if has v then let! clogs := get [] v in capnpLogListToRPC clogs else Ok []) = Ok (stored_log <$> logs).
Proof.
  intros Hr Hl. destruct (reads_list_get _ _ _ Hr) as (l' & Hg & Hf & Hh).
  unfold setCapnpLogList in Hf, Hh. unfold wf_logs in Hl. destruct (has v) eqn:Ev.
  - rewrite Hg. cbn [res_bind]. rewrite Forall2_fmap_l in Hf.
    eapply res_mapM_Forall2; [exact Hf|]. intros log c Hin Hc.
    rewrite Forall_forall in Hl. specialize (Hl _ Hin). destruct log as [log|]; simpl in Hc.
    + by rewrite (read_log log).
    + by rewrite read_empty_log.
  - specialize (Hh eq_refl). by apply fmap_nil_inv in Hh as ->.
Qed.

(** ** Round trips *)

Lemma BlockMeta_roundtrip meta bz :
  mustMarshalBlockMeta meta = Ok bz → unmarshalBlockMetaPayload bz = Ok meta.
Proof.
  intros (b & Hb & Hm)%payload_message. apply BlockMeta_read in Hb as (m & v & Hu & Hr & HR).
  destruct HR as (R1 & R2 & R3 & R4 & R5 & R6 & R7 & R8 & R9 & R10 & R11 & R12 & R13 & R14 & R15).
  unfold unmarshalBlockMetaPayload. rewrite Hm, Hu. cbn [lib res_map_err res_bind]. rewrite Hr.
  cbn [lib res_map_err res_bind].
  rewrite (reads_text_get (m_Hash meta) _ R2), (reads_text_get (m_ParentHash meta) _ R3),
    (reads_text_get (m_StateRoot meta) _ R4), (reads_text_get (m_Miner meta) _ R5),
    (reads_text_get (m_Bloom meta) _ R12), (reads_text_get (m_TransactionsRoot meta) _ R13),
    (reads_text_get (m_BaseFee meta) _ R14).
  cbn [res_bind]. rewrite R1, R6, R7, R8, R9, R10, R11, R15. by destruct meta.
Qed.

Lemma BlockLogs_roundtrip groups bz :
  Forall wf_logs groups → mustMarshalBlockLogs groups = Ok bz →
  unmarshalBlockLogsPayload bz = Ok (stored_group <$> groups).
Proof.
  intros Hwf (b & Hb & Hm)%payload_message. apply BlockLogs_read in Hb as (m & v & Hu & Hr & HR).
  unfold unmarshalBlockLogsPayload. rewrite Hm, Hu. cbn [lib res_map_err res_bind]. rewrite Hr.
  cbn [lib res_map_err res_bind].
  destruct (reads_list_get _ _ _ HR) as (l' & Hg & Hf & Hh). destruct (has (bl_groups ptr v)) eqn:Ev.
  - rewrite Hg. cbn [res_bind]. rewrite Forall2_fmap_l in Hf. eapply res_mapM_Forall2; [exact Hf|].
    intros logs g Hin Hgr. unfold read_group. rewrite Forall_forall in Hwf.
    exact (read_logs logs _ Hgr (Hwf _ Hin)).
  - specialize (Hh eq_refl). by apply fmap_nil_inv in Hh as ->.
Qed.

Lemma TxResult_roundtrip tx bz :
  mustMarshalTxResult (Some tx) = Ok bz → unmarshalTxResultPayload bz = Ok tx.
Proof.
  intros (b & Hb & Hm)%payload_message. apply TxResult_read in Hb as (m & Hu & Hr).
  unfold unmarshalTxResultPayload. rewrite Hm, Hu. cbn [lib res_map_err res_bind]. rewrite Hr.
  by destruct tx.
Qed.

Lemma TracePayload_roundtrip raw bz :
  mustMarshalTracePayload raw = Ok bz → unmarshalTracePayload bz = Ok raw.
Proof.
  intros (b & Hb & Hm)%payload_message. apply TracePayload_read in Hb as (m & v & Hu & Hr & HR).
  unfold unmarshalTracePayload. rewrite Hm, Hu. cbn [lib res_map_err res_bind]. rewrite Hr.
  cbn [lib res_map_err res_bind]. exact (reads_data_get raw _ HR).
Qed.

(** The receipts buildCachedReceipt makes: fields that are texts of values. *)
Definition wf_receipt (r : CachedReceipt) : Prop :=
  wf_logs (cr_Logs r) ∧
  (∃ bloom, cr_LogsBloom r = hexutil_Encode bloom ∧ wf_bytes bloom ∧ bloom ≠ []) ∧
  (∃ h, cr_TransactionHash r = Hash_Hex h ∧ is_hash h) ∧
  opt_all (λ s, ∃ a, s = Address_Hex a ∧ is_address a) (cr_ContractAddress r) ∧
  (∃ h, cr_BlockHash r = Hash_Hex h ∧ is_hash h) ∧
  (∃ p, cr_EffectiveGasPrice r = hexutil_EncodeBig p ∧ 0 ≤ p < 2 ^ 256) ∧
  (∃ a, cr_From r = Address_Hex a ∧ is_address a) ∧
  opt_all (λ s, ∃ a, s = Address_Hex a ∧ is_address a) (cr_To r).

Definition stored_receipt (r : CachedReceipt) : CachedReceipt :=
  mkCachedReceipt (cr_Status r) (cr_CumulativeGasUsed r) (cr_GasUsed r) (cr_Reason r) (cr_VMError r)
    (cr_LogsBloom r) (stored_log <$> cr_Logs r) (cr_TransactionHash r) (cr_ContractAddress r) (cr_BlockHash r)
    (cr_BlockNumber r) (cr_TransactionIndex r) (cr_EffectiveGasPrice r) (cr_From r) (cr_To r) (cr_Type r).

Lemma read_opt_text o v :
  reads_text o v →
  (if bool_decide (is_Some o) then let! r := get EmptyString v in Ok (Some r) else Ok None) = Ok o.
Proof.
  destruct o as [s|]; intros Hr; [|done]. rewrite bool_decide_true by done.
  by rewrite (reads_text_get s _ Hr).
Qed.

Lemma read_opt_address_text o v :
  reads_data (HexToAddress <$> o) v → opt_all (λ s, ∃ a, s = Address_Hex a ∧ is_address a) o →
  read_if v [] (λ b, Some (Address_Hex (BytesToAddress b))) None = Ok o.
Proof.
  destruct o as [s|]; cbn [fmap option_fmap option_map opt_all].
  - intros Hr (a & -> & Ha). rewrite HexToAddress_Hex in Hr by done.
    rewrite (reads_data_read_if a); [|done|intros E; by destruct (is_address_nonempty a Ha)].
    by rewrite BytesToAddress_id.
  - intros Hr _. by apply reads_data_none.
Qed.

Lemma read_hash_text h v :
  reads_data (Some h) v → is_hash h → read_if v [] (λ b, Hash_Hex (BytesToHash b)) EmptyString = Ok (Hash_Hex h).
Proof.
  intros Hr Hh. rewrite (reads_data_read_if h); [|done|intros E; by destruct (is_hash_nonempty h Hh)].
  by rewrite BytesToHash_id.
Qed.

Lemma read_address_text a v :
  reads_data (Some a) v → is_address a →
  read_if v [] (λ b, Address_Hex (BytesToAddress b)) EmptyString = Ok (Address_Hex a).
Proof.
  intros Hr Ha. rewrite (reads_data_read_if a); [|done|intros E; by destruct (is_address_nonempty a Ha)].
  by rewrite BytesToAddress_id.
Qed.

Lemma Receipt_roundtrip r bz :
  wf_receipt r → mustMarshalReceipt r = Ok bz → unmarshalReceiptPayload bz = Ok (stored_receipt r).
Proof.
  intros (W1 & (bloom & W2 & W2' & W2n) & (h & W3 & W3') & W4 & (bh & W5 & W5') & (p & W6 & W6') &
    (f & W7 & W7') & W8).
  unfold mustMarshalReceipt. rewrite W6, bool_decide_true, DecodeBig_EncodeBig by (done || apply EncodeBig_nonempty).
  rewrite W2, W3, W5, W7, FromHex_Encode, !HexToHash_Hex, HexToAddress_Hex by done.
  intros (b & Hb & Hm)%payload_message. apply Receipt_read in Hb as (m & v & Hu & Hr & HR).
  destruct HR as (R1 & R2 & R3 & R4 & R5 & R6 & R7 & R8 & R9 & R10 & R11 & R12 & R13 & R14 & R15 & R16 & R17 & R18 & R19).
  unfold unmarshalReceiptPayload. rewrite Hm, Hu. cbn [lib res_map_err res_bind]. rewrite Hr.
  cbn [lib res_map_err res_bind]. rewrite R17, R18, R19.
  cbn [rc_reasonPresent rc_vmErrorPresent rc_effectiveGasPricePresent].
  rewrite (read_opt_text (cr_Reason r) _ R4), (read_opt_text (cr_VMError r) _ R5).
  rewrite (bool_decide_true (is_Some (Some _))) by done. cbn [orb res_bind].
  rewrite (reads_data_read_if bloom _ _ _ R6) by (by intros ->). cbn [res_bind].
  rewrite (read_logs (cr_Logs r) _ R7 W1). cbn [res_bind].
  rewrite (read_hash_text h _ R8 W3'), (read_opt_address_text (cr_ContractAddress r) _ R9 W4),
    (read_hash_text bh _ R10 W5'), (reads_data_get (big_Bytes p) _ R13).
  cbn [res_bind]. rewrite (read_address_text f _ R14 W7'), (read_opt_address_text (cr_To r) _ R15 W8).
  cbn [res_bind]. unfold hexBigDataString, stored_receipt. rewrite big_Bytes_roundtrip, Z.abs_eq by lia.
  rewrite R1, R2, R3, R11, R12, R16, W2, W3, W5, W6, W7. done.
Qed.

Definition nonneg (z : Z) : Prop := 0 ≤ z.
Definition wf_access (a : AccessTuple) : Prop := is_address (at_Address a) ∧ Forall is_hash (at_StorageKeys a).

Definition wf_rpc_tx (t : RPCTransaction) : Prop :=
  opt_all is_hash (t_BlockHash t) ∧ opt_all nonneg (t_BlockNumber t) ∧ is_address (t_From t) ∧
  opt_all nonneg (t_GasPrice t) ∧ opt_all nonneg (t_GasFeeCap t) ∧ opt_all nonneg (t_GasTipCap t) ∧
  is_hash (t_Hash t) ∧ opt_all is_address (t_To t) ∧ opt_all nonneg (t_Value t) ∧
  opt_all (Forall wf_access) (t_Accesses t) ∧ opt_all nonneg (t_ChainID t) ∧ opt_all nonneg (t_V t) ∧
  opt_all nonneg (t_R t) ∧ opt_all nonneg (t_S t) ∧ opt_all is_hash (t_CosmosHash t).

Lemma read_big_roundtrip o v : reads_data (cap_big o) v → opt_all nonneg o → read_big (present o) v = Ok o.
Proof.
  unfold read_big, present. destruct o as [z|]; cbn [cap_big fmap option_fmap option_map compose opt_all]; intros Hr Hz.
  - rewrite bool_decide_true by done. cbn [orb]. rewrite (reads_data_get (big_Bytes z) _ Hr). cbn [res_bind].
    unfold hexutilBigFromData. by rewrite big_Bytes_roundtrip, Z.abs_eq.
  - rewrite bool_decide_false by (by intros [? ?]). cbn in Hr. by rewrite Hr.
Qed.

Lemma read_access_roundtrip a v : reads_AccessTuple (cap_access a) v → wf_access a → read_access v = Ok a.
Proof.
  intros [R1 R2] [W1 W2]. unfold read_access.
  rewrite (read_address (at_Address a) _ R1 W1), (read_hashes (at_StorageKeys a) _ R2 W2). by destruct a.
Qed.

Lemma read_accesses o v :
  reads_list reads_AccessTuple (map cap_access <$> o) v → opt_all (Forall wf_access) o →
  (if present o || has v then let! l := get [] v in let! l := res_mapM read_access l in Ok (Some l)
   else Ok None) = Ok o.
Proof.
  unfold present. destruct o as [l|]; cbn [fmap option_fmap option_map opt_all]; intros Hr Hl.
  - rewrite bool_decide_true by done. cbn [orb].
    destruct (reads_list_get _ _ _ Hr) as (l' & -> & Hf & _). cbn [res_bind].
    rewrite Forall2_fmap_l in Hf. rewrite (res_mapM_Forall2 _ _ id _ _ Hf); [by rewrite list_fmap_id|].
    intros a b Ha Hab. rewrite Forall_forall in Hl. exact (read_access_roundtrip _ _ Hab (Hl _ Ha)).
  - rewrite bool_decide_false by (by intros [? ?]). cbn in Hr. by rewrite Hr.
Qed.

Lemma RPCTransaction_roundtrip t bz :
  wf_rpc_tx t → mustMarshalRPCTransaction t = Ok bz → unmarshalRPCTransactionPayload bz = Ok t.
Proof.
  intros (W1 & W2 & W3 & W4 & W5 & W6 & W7 & W8 & W9 & W10 & W11 & W12 & W13 & W14 & W15).
  intros (b & Hb & Hm)%payload_message. apply RPCTransaction_read in Hb as (m & v & Hu & Hr & HR).
  destruct HR as (R1 & R2 & R3 & R4 & R5 & R6 & R7 & R8 & R9 & R10 & R11 & R12 & R13 & R14 & R15 & R16 & R17 & R18 &
    R19 & R20 & R21 & R22 & R23 & R24 & R25 & R26 & R27 & R28 & R29 & R30 & R31 & R32 & R33 & R34).
  unfold unmarshalRPCTransactionPayload. rewrite Hm, Hu. cbn [lib res_map_err res_bind]. rewrite Hr.
  cbn [lib res_map_err res_bind]. rewrite R22, R23, R24, R25, R26, R27, R28, R29, R30, R31, R32, R34.
  cbn [tx_transactionIndexPresent tx_blockNumberPresent tx_gasPricePresent tx_gasFeeCapPresent
       tx_gasTipCapPresent tx_valuePresent tx_accessesPresent tx_chainIdPresent tx_vPresent tx_rPresent tx_sPresent
       tx_cosmosMsgIndexPresent].
  rewrite (read_opt_hash (t_BlockHash t) _ R1 W1), (read_big_roundtrip (t_BlockNumber t) _ R2 W2),
    (read_address (t_From t) _ R3 W3), (read_big_roundtrip (t_GasPrice t) _ R5 W4),
    (read_big_roundtrip (t_GasFeeCap t) _ R6 W5), (read_big_roundtrip (t_GasTipCap t) _ R7 W6),
    (read_hash (t_Hash t) _ R8 W7), (read_bytes (t_Input t) _ R9), (read_opt_address (t_To t) _ R11 W8),
    (read_big_roundtrip (t_Value t) _ R13 W9).
  cbn [res_bind].
  rewrite (read_accesses (t_Accesses t) _ R15 W10). cbn [res_bind].
  rewrite (read_big_roundtrip (t_ChainID t) _ R16 W11), (read_big_roundtrip (t_V t) _ R17 W12),
    (read_big_roundtrip (t_R t) _ R18 W13), (read_big_roundtrip (t_S t) _ R19 W14),
    (read_opt_hash (t_CosmosHash t) _ R21 W15).
  cbn [res_bind]. rewrite R4, R10, R12, R14, R20, R33. unfold present.
  destruct t as [? ? ? ? ? ? ? ? ? ? ? [i|] ? ? ? ? ? ? ? ? ? [j|]]; reflexivity.
Qed.

(** C35. Cache payloads round-trip: whatever the encoders write, the decoders
    read back unchanged, for block metadata, grouped logs, receipts, RPC
    transactions, transaction results and traces.  Zero amounts, absent and empty
    fields survive; a nil log comes back as a log without contents. *)
Theorem cache_payload_roundtrip :
  (∀ meta bz, mustMarshalBlockMeta meta = Ok bz → unmarshalBlockMetaPayload bz = Ok meta) ∧
  (∀ groups bz, Forall wf_logs groups → mustMarshalBlockLogs groups = Ok bz →
     unmarshalBlockLogsPayload bz = Ok (stored_group <$> groups)) ∧
  (∀ r bz, wf_receipt r → mustMarshalReceipt r = Ok bz → unmarshalReceiptPayload bz = Ok (stored_receipt r)) ∧
  (∀ t bz, wf_rpc_tx t → mustMarshalRPCTransaction t = Ok bz → unmarshalRPCTransactionPayload bz = Ok t) ∧
  (∀ tx bz, mustMarshalTxResult (Some tx) = Ok bz → unmarshalTxResultPayload bz = Ok tx) ∧
  (∀ raw bz, mustMarshalTracePayload raw = Ok bz → unmarshalTracePayload bz = Ok raw).
Proof.
  split_and!; auto using BlockMeta_roundtrip, BlockLogs_roundtrip, Receipt_roundtrip,
    RPCTransaction_roundtrip, TxResult_roundtrip, TracePayload_roundtrip.
Qed.

(** ** Filtered decoding *)

Lemma existsb_flip (h : bytes) l :
  existsb (λ c, bool_decide (h = c)) l = true ↔ h ∈ l.
Proof.
  rewrite existsb_exists. split.
  - intros (x & Hx & ->%bool_decide_eq_true). by apply list_elem_of_In.
  - intros Hin. exists h. split; [by apply list_elem_of_In|by apply bool_decide_eq_true].
Qed.

Lemma cap_topics_match_spec ctopics topics hs :
  res_mapM (λ e, let! bz := get [] e in Ok (BytesToHash bz)) ctopics = Ok hs →
  (length topics ≤ length ctopics)%nat →
  cap_topics_match ctopics topics = Ok (topics_match hs topics).
Proof.
  revert ctopics hs. induction topics as [|sub topics IH]; intros ctopics hs; [done|].
  destruct ctopics as [|t ctopics]; [simpl; intros _ Hl; lia|]. simpl.
  intros (h & (bz & Hg & [= <-])%res_bind_ok & (hs' & Hm & [= <-])%res_bind_ok)%res_bind_ok Hl.
  apply le_S_n in Hl. specialize (IH _ _ Hm Hl). rewrite Hg. cbn [res_bind].
  case_bool_decide as Hs; [by rewrite IH|]. rewrite IH. cbn [orb].
  by destruct (existsb _ sub).
Qed.

Lemma read_if_has {A B} (p : ptr A) d (k : A → B) absent b :
  read_if p d k absent = Ok b → if has p then ∃ a, get d p = Ok a ∧ b = k a else b = absent.
Proof.
  unfold read_if. destruct (has p); [|by intros [= <-]].
  intros (a & Ha & [= <-])%res_bind_ok. by exists a.
Qed.

(** A log that was decoded is filtered as LogMatches filters it, unless it has no
    address field and the filter asks for the zero address. *)
Lemma capnpLogMatches_spec src log addresses topics :
  capnpLogToRPC src = Ok log → has (lg_address _ src) = true ∨ zero_address ∉ addresses →
  capnpLogMatches src addresses topics = Ok (LogMatches (Some log) addresses topics).
Proof.
  unfold capnpLogToRPC. intros (address & Ha%read_if_has & Hrest)%res_bind_ok Hcond.
  apply res_bind_ok in Hrest as (ts & Ht & Hrest).
  apply res_bind_ok in Hrest as (data & _ & Hrest). apply res_bind_ok in Hrest as (txHash & _ & Hrest).
  apply res_bind_ok in Hrest as (blockHash & _ & Hrest). apply res_bind_ok in Hrest as (cosmosHash & _ & [= <-]).
  unfold capnpLogMatches, LogMatches. cbn [l_Address l_Topics].
  assert ((match addresses with
           | [] => Ok true
           | _ => if has (lg_address _ src) then
                    let! bz := get [] (lg_address _ src) in
                    Ok (existsb (λ c, bool_decide (BytesToAddress bz = c)) addresses)
                  else Ok false
           end : res error bool) = Ok (address_matches address addresses)) as ->.
  { destruct addresses as [|a0 addresses]; [done|]. destruct (has (lg_address _ src)).
    - destruct Ha as (bz & -> & ->). done.
    - subst address. destruct Hcond as [?|Hz]; [done|]. f_equal. symmetry.
      apply not_true_iff_false. intros [?|Hin]%address_matches_spec; done. }
  cbn [res_bind]. destruct (address_matches address addresses); [|done].
  destruct topics as [|sub topics]; [done|].
  unfold read_data_list in Ht. destruct (has (lg_topics _ src)).
  - apply res_bind_ok in Ht as (ctopics & -> & Ht). cbn [res_bind].
    assert (length ts = length ctopics) as -> by (apply res_mapM_ok, Forall2_length in Ht; lia).
    case_bool_decide; [done|]. rewrite (cap_topics_match_spec _ _ ts) by (done || lia). done.
  - injection Ht as <-. done.
Qed.

Lemma filter_logs_spec clogs logs addresses topics :
  capnpLogListToRPC clogs = Ok logs →
  Forall (λ src, has (lg_address _ src) = true ∨ zero_address ∉ addresses) clogs →
  filter_logs addresses topics clogs = Ok (filter (λ log, LogMatches log addresses topics = true) logs).
Proof.
  unfold filter_logs, capnpLogListToRPC. revert logs. induction clogs as [|src clogs IH]; intros logs.
  - by intros [= <-] _.
  - cbn [res_mapM]. intros (olog & (log & Hd & [= <-])%res_bind_ok & (logs' & Hm & [= <-])%res_bind_ok)%res_bind_ok.
    intros [Hs Hall]%Forall_cons. specialize (IH _ Hm Hall).
    apply res_bind_ok in IH as (l & Hl & [= Hj]). rewrite Hl. unfold filter_log at 1.
    rewrite (capnpLogMatches_spec _ _ _ topics Hd Hs). cbn [res_bind]. rewrite filter_cons.
    destruct (LogMatches (Some log) addresses topics) eqn:Em.
    + rewrite Hd. cbn [res_bind]. rewrite decide_True by done. by rewrite <- Hj.
    + cbn [res_bind]. rewrite decide_False by done. by rewrite <- Hj.
Qed.

Lemma filter_mjoin_app {A} (P : A → Prop) `{∀ x, Decision (P x)} (x : list A) l :
  filter P (mjoin (x :: l)) = filter P x ++ filter P (mjoin l).
Proof. simpl. apply filter_app. Qed.

Lemma filter_groups_spec cgroups groups addresses topics :
  res_mapM read_group cgroups = Ok groups →
  Forall (λ g, ∀ clogs, gr_logs _ g = Ptr (Ok clogs) →
    Forall (λ src, has (lg_address _ src) = true ∨ zero_address ∉ addresses) clogs) cgroups →
  res_bind (res_mapM (filter_group addresses topics) cgroups) (λ l, Ok (mjoin l)) =
  Ok (filter (λ log, LogMatches log addresses topics = true) (mjoin groups)) :> res error _.
Proof.
  revert groups. induction cgroups as [|g cgroups IH]; intros groups.
  - by intros [= <-] _.
  - cbn [res_mapM]. intros (logs & Hg & (groups' & Hm & [= <-])%res_bind_ok)%res_bind_ok [Hs Hall]%Forall_cons.
    specialize (IH _ Hm Hall). apply res_bind_ok in IH as (l & Hl & [= Hj]). rewrite Hl.
    assert (filter_group addresses topics g = Ok (filter (λ log, LogMatches log addresses topics = true) logs)) as ->.
    { unfold read_group in Hg. unfold filter_group. destruct (gr_logs ptr g) as [|[clogs| |]]; try done.
      - by injection Hg as <-.
      - cbn [has get lib res_map_err res_bind] in *. by apply filter_logs_spec, Hs. }
    cbn [res_bind]. rewrite filter_mjoin_app, <- Hj. done.
Qed.

Lemma filtered_decode bz groups addresses topics :
  unmarshalBlockLogsPayload bz = Ok groups → zero_address ∉ addresses →
  unmarshalFilteredBlockLogsPayload bz addresses topics =
  Ok (filter (λ log, LogMatches log addresses topics = true) (mjoin groups)).
Proof.
  unfold unmarshalBlockLogsPayload, unmarshalFilteredBlockLogsPayload.
  intros (msg & -> & Hm)%res_bind_ok Hz. cbn [res_bind]. destruct msg as [msg|]; [|by rewrite Hm].
  apply res_bind_ok in Hm as (root & -> & Hm). cbn [res_bind].
  destruct (has (bl_groups ptr root)); [|by injection Hm as <-].
  apply res_bind_ok in Hm as (cgroups & -> & Hm). cbn [res_bind].
  apply filter_groups_spec; [done|]. apply Forall_true. intros g clogs _. apply Forall_true. by right.
Qed.

(** C36. The filtered decoding of a block's logs is the decoding followed by
    the log filter: for any payload, legacy or not, that decodes, and any filter
    that does not ask for the zero address, filtering while decoding returns exactly
    the matching logs of the groups, in order. *)
Theorem filtered_decode_equiv bz groups addresses topics :
  unmarshalBlockLogsPayload bz = Ok groups → zero_address ∉ addresses →
  unmarshalFilteredBlockLogsPayload bz addresses topics =
  Ok (filter (λ log, LogMatches log addresses topics = true) (mjoin groups)).
Proof. apply filtered_decode. Qed.

End props.

(** ** Witnesses *)

Import EthInstances CodecInstances.

Definition sample_rpc_log : RPCLog :=
  mkRPCLog (be_bytes 20 7) [be_bytes 32 1; be_bytes 32 2] [] 5 (be_bytes 32 9) 0 (be_bytes 32 8) 3 false true
    None (Some 0).

Definition payload (m : res error bytes) : bytes := match m with Ok b => b | _ => [] end.

Definition sample_payload : bytes := payload (mustMarshalBlockLogs [[Some sample_rpc_log; None]; []]).

Lemma sample_log_wf : Forall wf_logs [[Some sample_rpc_log; None]; []].
Proof.
  repeat constructor; vm_compute; try done; repeat constructor; done.
Qed.

Lemma cache_payload_roundtrip_witness :
  unmarshalBlockLogsPayload sample_payload = Ok [[Some sample_rpc_log; Some zero_log]; []] ∧
  unmarshalTxResultPayload (payload (mustMarshalTxResult (Some (mkTxResult 5 0 1 2 true 21000 42000)))) =
  Ok (mkTxResult 5 0 1 2 true 21000 42000).
Proof.
  destruct cache_payload_roundtrip as (_ & Hl & _ & _ & Ht & _). split.
  - exact (Hl [[Some sample_rpc_log; None]; []] sample_payload sample_log_wf eq_refl).
  - exact (Ht _ _ eq_refl).
Defined.

Lemma sample_payload_decodes :
  unmarshalBlockLogsPayload sample_payload = Ok [[Some sample_rpc_log; Some zero_log]; []].
Proof. exact (BlockLogs_roundtrip [[Some sample_rpc_log; None]; []] sample_payload sample_log_wf eq_refl). Qed.

Lemma filtered_decode_equiv_witness :
  unmarshalFilteredBlockLogsPayload sample_payload [be_bytes 20 7] [[]; [be_bytes 32 2]] =
  Ok [Some sample_rpc_log].
Proof.
  rewrite (filtered_decode_equiv sample_payload _ [be_bytes 20 7] [[]; [be_bytes 32 2]] sample_payload_decodes).
  - vm_compute. reflexivity.
  - apply (bool_decide_unpack _). vm_compute. exact I.
Defined.
End CodecProps.
