(* ===== verification/Indexer.v ===== *)
(** * The key-value indexer

    KVIndexer of src/internal/indexer/kv_indexer.go with the lookups of
    cache_collections.go, trace_cache.go, virtual.go, errors.go and the database scans of
    ranges.go.  The store is passed explicitly; IndexBlock and DeleteBlock collect a
    batch and write it once.  A panic while indexing is recovered into an error.
    The count of indexed transactions is returned on success only (callers ignore
    it on error); tracing and logging are left out. *)

From Stdlib Require Import Ascii String.
From S2P Require Import Prelude Ranges Bytes Instances GoLib EthTypes EthInstances Keys ParsedTx.
From S2P Require Import Normalize Virtual VirtualBank VirtualIbc VirtualResponse RpcUtils Cached Codec.
From S2P Require Import CodecInstances.
From stdpp Require Import strings list.
#[local] Open Scope Z_scope.

Module Indexer.
Import GoLib EthTypes Keys ParsedTx Normalize Virtual RpcUtils Cached Codec Ranges.

(** ** Errors (errors.go) *)

Definition ErrBlockParse : string := "block parse error".
Definition ErrCacheMiss : string := "cache miss".

Definition newBlockParseError (err : option error) (msg : string) : error := BlockParseError msg err.
Definition newCacheMiss (msg : string) : error := Wrap msg (Sentinel ErrCacheMiss).

(** errors.Is against a package variable, through Unwrap and the Is method of
    blockParseError. *)
Fixpoint errors_Is (e : error) (target : string) : bool :=
  match e with
  | New _ => false
  | Sentinel name => bool_decide (name = target)
  | Wrap _ e => errors_Is e target
  | BlockParseError _ err =>
      bool_decide (target = ErrBlockParse) || match err with Some e => errors_Is e target | None => false end
  | Join errs => existsb (λ e, errors_Is e target) errs
  end.

(** ** The indexer *)

Record KVIndexer := mkKVIndexer {
  cachedGasLimit : Z;
  virtualizationEnabled : bool;
  virtualChainID : option Z;
}.

(** new(big.Int).SetString(s, 10) *)
Definition big_SetString (s : string) : option Z :=
  match s with
  | String c s' =>
      if bool_decide (c = "-"%char) then Z.opp <$> parse_digits s'
      else if bool_decide (c = "+"%char) then parse_digits s'
      else parse_digits s
  | EmptyString => None
  end.

Definition WithCachedBlockGasLimit (gasLimit : Z) (kv : KVIndexer) : KVIndexer :=
  mkKVIndexer gasLimit (virtualizationEnabled kv) (virtualChainID kv).

Definition WithVirtualCosmosEvents (enabled : bool) (chainID : string) (kv : KVIndexer) : KVIndexer :=
  let kv' := mkKVIndexer (cachedGasLimit kv) enabled (virtualChainID kv) in
  if enabled then
    let chainID := strings_TrimSpace chainID in
    match big_SetString chainID with
    | Some parsed => if bool_decide (0 < parsed) then mkKVIndexer (cachedGasLimit kv) enabled (Some parsed) else kv'
    | None => kv'
    end
  else kv'.

Definition NewKVIndexer (opts : list (KVIndexer → KVIndexer)) : KVIndexer :=
  foldl (λ kv opt, opt kv) (mkKVIndexer 0 false None) opts.

Record BlockIndexStats := mkStats { IndexedEthTxs : Z }.

(** isEthTx *)
Definition isEthTx (tx : sdk_Tx) : bool :=
  match GetExtensionOptions tx with
  | Some [url] => bool_decide (url = "/injective.evm.v1.ExtensionOptionsEthereumTx"%string)
  | _ => false
  end.

(** What the loop over a block's transactions carries. *)
Record index_state := mkState {
  s_batch : batch;
  s_ethTxIndex : Z;
  s_rpcTxIndex : Z;
  s_logIndex : Z;
  s_gasUsed : Z;
  s_gasBefore : Z;
  s_hashes : list Hash;
  s_blockLogs : list (list (option RPCLog));
  s_flatLogs : list (option RPCLog);
  s_indexed : Z;
}.

Section ops.
Context {D : Type} {DB : KVDB D} {SD : SDK} {EL : EthLib} {CL : ChainLib} {LJ : LogJSON} {PB : Proto}
        {BL : Bank.BankLib} {IL : Ibc.IbcLib} {CP : CapnpLib} {LG : LegacyLib}.
Context (IBCHookCallerAddressHex : string).
Context {Config : Type} {TK : TraceKey Config}.

(** ** Batches *)

Definition wrap {A} (msg : string) (m : res string A) : res error A := res_map_err (λ e, Wrap msg (New e)) m.
Definition wrap_err {A} (msg : string) (m : res error A) : res error A := res_map_err (Wrap msg) m.

Definition batch_Set (d : D) (b : batch) (k v : bytes) (msg : string) : res error batch :=
  wrap msg (batch_add d b (OpSet k v)).
Definition batch_Delete (d : D) (b : batch) (k : bytes) (msg : string) : res error batch :=
  wrap msg (batch_add d b (OpDelete k)).

(** ** resetBlock *)

Definition deleteTraceKeys (d : D) (b : batch) (start : bytes) (msg_it msg_del : string) : res error batch :=
  let! kvs := wrap msg_it (db_iterator d start (prefixRangeEnd start)) in
  res_foldl (λ b kv, batch_Delete d b kv.1 msg_del) b kvs.

Definition deleteTraceKeysForBlock (d : D) (b : batch) (height : Z) (txHashes : list Hash) : res error batch :=
  let! b := res_foldl (λ b txHash,
      deleteTraceKeys d b (traceTxPrefixStart txHash) "delete tx trace iterator %d" "delete tx trace %d")
    b txHashes in
  deleteTraceKeys d b (traceBlockPrefixStart height) "delete block trace iterator %d" "delete block trace %d".

Definition reset_tx (d : D) (b : batch) (kv : bytes * bytes) : res error batch :=
  let txHash := BytesToHash kv.2 in
  let! b := batch_Delete d b kv.1 "reset block %d: delete tx index" in
  let! b := batch_Delete d b (TxHashKey txHash) "reset block %d: delete tx hash" in
  let! b := batch_Delete d b (ReceiptKey txHash) "reset block %d: delete receipt" in
  let! b := batch_Delete d b (RPCtxHashKey txHash) "reset block %d: delete rpc tx hash" in
  batch_Delete d b (VirtualRPCtxKey txHash) "reset block %d: delete virtual rpc tx marker".

Definition reset_rpc_tx (d : D) (b : batch) (kv : bytes * bytes) : res error batch :=
  let txHash := BytesToHash kv.2 in
  let! b := batch_Delete d b (ReceiptKey txHash) "reset block %d: delete rpc receipt" in
  let! b := batch_Delete d b (RPCtxHashKey txHash) "reset block %d: delete rpc tx hash" in
  let! b := batch_Delete d b (VirtualRPCtxKey txHash) "reset block %d: delete virtual rpc tx marker" in
  batch_Delete d b kv.1 "reset block %d: delete rpc tx index".

Definition resetBlock (d : D) (b : batch) (height : Z) : res error batch :=
  let! metaBz := wrap "reset block %d: get meta" (db_get d (BlockMetaKey height)) in
  let! b :=
    match metaBz with
    | [] => Ok b
    | _ =>
        let! meta := wrap_err "reset block %d: unmarshal meta" (unmarshalBlockMetaPayload metaBz) in
        batch_Delete d b (BlockHashKey (HexToHash (m_Hash meta))) "reset block %d: delete block hash"
    end in
  let! kvs := wrap "reset block %d: tx iterator"
                (db_iterator d (txIndexPrefixStart height) (Some (txIndexPrefixEnd height))) in
  let! b := res_foldl (reset_tx d) b kvs in
  let! b := wrap_err "reset block %d: delete trace cache"
              (deleteTraceKeysForBlock d b height (BytesToHash ∘ snd <$> kvs)) in
  let! rkvs := wrap "reset block %d: rpc tx iterator"
                 (db_iterator d (rpcTxIndexPrefixStart height) (Some (rpcTxIndexPrefixEnd height))) in
  let! b := res_foldl (reset_rpc_tx d) b rkvs in
  let! b := batch_Delete d b (BlockLogsKey height) "reset block %d: delete block logs" in
  batch_Delete d b (BlockMetaKey height) "reset block %d: delete block meta".

(** batch.Write *)
Definition batch_Write (d : D) (b : batch) (msg : string) : res error unit * D :=
  match db_write d b with
  | (None, d') => (Ok tt, d')
  | (Some e, d') => (Err (Wrap msg (New e)), d')
  end.

Definition DeleteBlock (d : D) (height : Z) : res error unit * D :=
  match resetBlock d [] height with
  | Ok b => batch_Write d b "DeleteBlock %d"
  | Err e => (Err e, d)
  | Panic m => (Panic m, d)
  end.

(** ** Records of a transaction *)

Definition saveTxResult (d : D) (b : batch) (txHash : Hash) (txResult : TxResult) : res error batch :=
  let! bz := mustMarshalTxResult (Some txResult) in
  let! b := batch_Set d b (TxHashKey txHash) bz "set tx-hash key" in
  batch_Set d b (TxIndexKey (txr_Height txResult) (txr_EthTxIndex txResult)) txHash "set tx-index key".

Definition saveVirtualTx (d : D) (b : batch) (height : Z) (tx : option Tx) : res error batch :=
  match tx with
  | None => Err (Errorf "virtual transaction is incomplete")
  | Some tx =>
      let txHash := t_Hash (Transaction_ tx) in
      let! receipt := mustMarshalReceipt (cachedVirtualReceipt (Receipt_ tx)) in
      let! b := batch_Set d b (ReceiptKey txHash) receipt "set virtual receipt %s" in
      let! rpcTx := mustMarshalRPCTransaction (Transaction_ tx) in
      let! b := batch_Set d b (RPCtxHashKey txHash) rpcTx "set virtual rpc tx hash %s" in
      let! b := batch_Set d b (VirtualRPCtxKey txHash) [1] "set virtual rpc tx marker %s" in
      batch_Set d b (RPCtxIndexKey height (int32 (r_TransactionIndex (Receipt_ tx)))) txHash
        "set virtual rpc tx index %d"
  end.

Definition blockBaseFeeFromResults (blockResults : option ResultBlockResults) : option Z :=
  match blockResults with None => None | Some r => BaseFeeFromEvents (br_FinalizeBlockEvents r) end.

Definition blockTxResults (blockResults : option ResultBlockResults) : list (option ExecTxResult) :=
  match blockResults with None => [] | Some r => br_TxResults r end.

Definition blockMinerFromHeader (block : Block) : Address := BytesToAddress (blk_ProposerAddress block).

Definition visibleRPCTxsRoot (txHashes : list Hash) : Hash :=
  match txHashes with
  | [] => EmptyRootHash
  | _ => BytesToHash (merkle_HashFromByteSlices txHashes)
  end.

(** ** Synthetic transactions of a block *)

(** The context of one block: indexer options, block, hash and base fee. *)
Context (kv : KVIndexer) (d : D) (block : Block).

Definition blockHash : Hash := BytesToHash (blk_Hash block).

Definition virtualLogContext (logIndex : Z) (txHash : Hash) (txIndex : Z) : LogContext :=
  mkLogContext blockHash (uint64 (blk_Height block)) txHash (uint64 txIndex) logIndex None.

(** logIndex += len(logs); storeVirtualTx; rpcTxIndex++ *)
Definition store_virtual (s : index_state) (tx : Tx) : res error index_state :=
  let logs := r_Logs (Receipt_ tx) in
  let! b := wrap_err "IndexBlock %d" (saveVirtualTx d (s_batch s) (blk_Height block) (Some tx)) in
  Ok (mkState b (s_ethTxIndex s) (int32 (s_rpcTxIndex s + 1))
        (uint64 (s_logIndex s + Z.of_nat (length logs))) (s_gasUsed s) (s_gasBefore s)
        (if virtualizationEnabled kv then s_hashes s ++ [t_Hash (Transaction_ tx)] else s_hashes s)
        (s_blockLogs s ++ [logs]) (s_flatLogs s ++ logs) (s_indexed s)).

(** The synthetic transactions of one response, with the Ethereum gas of the
    transaction. *)
Definition store_synthetic (s : index_state) (tx : bytes) (vr : VirtualResponse.Response) (ethIndexes : gset Z)
    (ethGas total : Z) : res error index_state :=
  let ctx := VirtualResponse.mkTxContext tx ethIndexes ethGas total blockHash (uint64 (blk_Height block))
               (uint64 (s_rpcTxIndex s)) (s_logIndex s) (s_gasBefore s) (virtualChainID kv) in
  let! txs := res_map_err (λ e, newBlockParseError (Some e)
                "block %d txIndex %d: failed to build virtual transaction")
              (VirtualResponse.SyntheticTxs IBCHookCallerAddressHex vr ctx) in
  res_foldl store_virtual s txs.

(** ** Ethereum messages *)

(** The result of a message: the record, its hash, reason and VM error. *)
Definition eth_tx_result (ethTxIndex : Z) (result : ExecTxResult) (txs : ParsedTxs) (txIndex msgIndex : nat)
    (ethMsg : MsgEthereumTx) (cumulative : Z) : res error (TxResult * Hash * string * string) :=
  let mk failed gas :=
    mkTxResult (blk_Height block) (uint32 (Z.of_nat txIndex)) (uint32 (Z.of_nat msgIndex)) ethTxIndex
      failed gas (uint64 (cumulative + gas)) in
  if bool_decide (res_Code result ≠ CodeTypeOK ∧ res_Codespace result ≠ ModuleName) then
    Ok (mk true (msg_GetGas ethMsg), msg_Hash ethMsg, EmptyString, EmptyString)
  else
    match GetTxByMsgIndex txs (Z.of_nat msgIndex) with
    | None => Err (newBlockParseError None "block %d txIndex %d msgIndex %d: msg index not found in results")
    | Some parsedTx =>
        if bool_decide (0 ≤ EthTxIndex parsedTx ∧ EthTxIndex parsedTx ≠ ethTxIndex) then
          Err (newBlockParseError None
                 "block %d txIndex %d msgIndex %d: eth tx index mismatch (expected=%d found=%d)")
        else Ok (mk (Failed parsedTx) (GasUsed parsedTx), Hash_ parsedTx, Reason parsedTx, VMError parsedTx)
    end.

(** The logs of a message and the log index after them. *)
Definition eth_msg_logs (s : index_state) (result : ExecTxResult) (vr : option VirtualResponse.Response)
    (msgIndex total : nat) (failed : bool) (txHash : Hash) (visibleTxIndex : Z) :
    res error (list (option RPCLog) * Z) :=
  let! logs :=
    if bool_decide (res_Data result ≠ []) then
      let! evmLogs := res_map_err (λ e, newBlockParseError (Some (New e))
                        "block %d txIndex %d msgIndex %d: failed to decode msg logs")
                      (DecodeMsgLogs (res_Data result) (Z.of_nat msgIndex) (uint64 (blk_Height block))) in
      Ok (WrapLogs evmLogs false None)
    else if failed then Ok []
    else Err (newBlockParseError None "block %d txIndex %d msgIndex %d: missing tx response data") in
  match vr with
  | None => Ok (logs, s_logIndex s)
  | Some vr =>
      let logs := SetLogMetadata logs (virtualLogContext (s_logIndex s) txHash visibleTxIndex) in
      let logIndex := uint64 (s_logIndex s + Z.of_nat (length logs)) in
      let! virtualLogs := VirtualResponse.LogsForMessage vr (Z.of_nat msgIndex) (Z.of_nat total)
                            (virtualLogContext logIndex txHash visibleTxIndex) in
      Ok (logs ++ virtualLogs, uint64 (logIndex + Z.of_nat (length virtualLogs)))
  end.

Definition set_hash (tx : RPCTransaction) (hash : Hash) : RPCTransaction :=
  mkRPCTransaction (t_BlockHash tx) (t_BlockNumber tx) (t_From tx) (t_Gas tx) (t_GasPrice tx) (t_GasFeeCap tx)
    (t_GasTipCap tx) hash (t_Input tx) (t_Nonce tx) (t_To tx) (t_TransactionIndex tx) (t_Value tx) (t_Type tx)
    (t_Accesses tx) (t_ChainID tx) (t_V tx) (t_R tx) (t_S tx) (t_Virtual tx) (t_CosmosHash tx)
    (t_CosmosMsgIndex tx).

(** The receipt and the RPC transaction of a message, added to the batch. *)
Definition store_eth_records (b : batch) (baseFee : option Z) (ethMsg : MsgEthereumTx) (txData : Transaction)
    (txResult : TxResult) (txHash : Hash) (reason vmError : string) (logs : list (option RPCLog))
    (cumulativeGasUsed visibleTxIndex : Z) : res error batch :=
  let status := if txr_Failed txResult then ReceiptStatusFailed else ReceiptStatusSuccessful in
  let! from := res_map_err (λ e, newBlockParseError (Some (New e))
                 "block %d txIndex %d msgIndex %d txHash %s: failed to derive tx sender")
               (msg_GetSenderLegacy ethMsg (signer_for txData)) in
  let contractAddress := match tx_To txData with
                         | None => Some (CreateAddress from (tx_Nonce txData))
                         | Some _ => None
                         end in
  let! receipt := mustMarshalReceipt (buildCachedReceipt status cumulativeGasUsed (txr_GasUsed txResult) reason vmError
    logs txHash contractAddress blockHash (uint64 (blk_Height block)) (uint64 visibleTxIndex)
    (receiptEffectiveGasPrice txData baseFee) from (tx_To txData) (tx_Type txData)) in
  let! b := batch_Set d b (ReceiptKey txHash) receipt "IndexBlock %d, set receipt" in
  let! rpcTx := res_map_err (λ e, newBlockParseError (Some e)
                  "block %d txIndex %d msgIndex %d txHash %s: failed to build rpc tx")
                (NewRPCTransaction ethMsg blockHash (uint64 (blk_Height block)) (uint64 visibleTxIndex) baseFee
                   (Some (tx_ChainId txData))) in
  let! rpcBz := mustMarshalRPCTransaction (set_hash rpcTx txHash) in
  let! b := batch_Set d b (RPCtxHashKey txHash) rpcBz "IndexBlock %d, set rpc tx hash" in
  batch_Set d b (RPCtxIndexKey (blk_Height block) visibleTxIndex) txHash "IndexBlock %d, set rpc tx index".

(** One message of an Ethereum transaction; the second component is the gas
    of the transaction's Ethereum messages so far. *)
Definition index_msg (baseFee : option Z) (result : ExecTxResult) (txs : ParsedTxs)
    (vr : option VirtualResponse.Response) (txIndex total : nat) (acc : index_state * Z) (m : nat * Msg) :
    res error (index_state * Z) :=
  let '(s, cumulative) := acc in
  match m with
  | (_, OtherMsg _) => Ok (s, cumulative)
  | (msgIndex, EthMsg ethMsg) =>
      let visibleTxIndex := if virtualizationEnabled kv then s_rpcTxIndex s else s_ethTxIndex s in
      let! (txResult, txHash, reason, vmError) :=
        eth_tx_result (s_ethTxIndex s) result txs txIndex msgIndex ethMsg cumulative in
      let cumulative := txr_CumulativeGasUsed txResult in
      let! b := wrap_err "IndexBlock %d" (saveTxResult d (s_batch s) txHash txResult) in
      match msg_AsTransaction ethMsg with
      | None => Err (newBlockParseError None "block %d txIndex %d msgIndex %d: failed to unpack eth tx data")
      | Some txData =>
          let! (logs, logIndex) :=
            eth_msg_logs s result vr msgIndex total (txr_Failed txResult) txHash visibleTxIndex in
          let! b := store_eth_records b baseFee ethMsg txData txResult txHash reason vmError logs
                      (uint64 (s_gasBefore s + cumulative)) visibleTxIndex in
          Ok (mkState b (int32 (s_ethTxIndex s + 1)) (int32 (s_rpcTxIndex s + 1)) logIndex (s_gasUsed s)
                (s_gasBefore s) (if virtualizationEnabled kv then s_hashes s ++ [txHash] else s_hashes s)
                (s_blockLogs s ++ [logs]) (s_flatLogs s ++ logs) (s_indexed s + 1), cumulative)
      end
  end.

(** ** Transactions *)

(** The positions of the Ethereum messages. *)
Definition eth_indexes (msgs : list Msg) : gset Z :=
  list_to_set (omap (λ m : nat * Msg, match m with (i, EthMsg _) => Some (Z.of_nat i) | _ => None end) (imap pair msgs)).

(** blockGasUsed and blockResultGasUsedBeforeTx both grow by the gas of the
    result. *)
Definition add_gas (s : index_state) (gas : Z) : index_state :=
  mkState (s_batch s) (s_ethTxIndex s) (s_rpcTxIndex s) (s_logIndex s) (uint64 (s_gasUsed s + gas))
    (uint64 (s_gasBefore s + gas)) (s_hashes s) (s_blockLogs s) (s_flatLogs s) (s_indexed s).

Definition index_tx (baseFee : option Z) (results : list (option ExecTxResult)) (s : index_state)
    (t : nat * bytes) : res error index_state :=
  let '(txIndex, txBz) := t in
  match results !! txIndex with
  | None => Err (newBlockParseError None "block %d txIndex %d: tx results shorter than block tx list (txCount=%d txResultCount=%d)")
  | Some None => Err (newBlockParseError None "block %d txIndex %d: missing tx result")
  | Some (Some result) =>
      let resultGasUsed := uint64 (res_GasUsed result) in
      let! tx := res_map_err (λ e, newBlockParseError (Some (New e)) "block %d txIndex %d: failed to decode tx")
                   (TxDecoder txBz) in
      let msgs := GetMsgs tx in
      let! vr :=
        if virtualizationEnabled kv then
          let! vr := res_map_err (λ e, newBlockParseError (Some e) "block %d txIndex %d: failed to parse virtual events")
                       (VirtualResponse.ParseResponse (Some result)) in Ok (Some vr)
        else Ok None in
      let synthetic s ethGas :=
        match vr with
        | Some vr => store_synthetic s txBz vr (eth_indexes msgs) ethGas (Z.of_nat (length msgs))
        | None => Ok s
        end in
      if negb (isEthTx tx) then
        let! s := synthetic s 0 in
        Ok (add_gas s resultGasUsed)
      else
        let! txs := res_map_err (λ e, newBlockParseError (Some e) "block %d txIndex %d: failed to parse tx result")
                      (ParseTxResult result (Some tx)) in
        let! (s, cumulative) := res_foldl (index_msg baseFee result txs vr txIndex (length msgs)) (s, 0) (imap pair msgs) in
        let! s := synthetic s cumulative in
        Ok (add_gas s resultGasUsed)
  end.

(** ** Blocks *)

(** Begin- and end-block events as one synthetic transaction each. *)
Definition store_block_tx (s : index_state) (hash : Hash) (events : list (option EthLog)) (cumulative : Z) :
    res error index_state :=
  match events with
  | [] => Ok s
  | _ => store_virtual s (VirtualResponse.NewBlockTx hash events
           (virtualLogContext (s_logIndex s) hash (s_rpcTxIndex s)) (virtualChainID kv) cumulative)
  end.

Definition visible_count (s : index_state) : Z :=
  if virtualizationEnabled kv then s_rpcTxIndex s else s_ethTxIndex s.

Definition transactions_root (s : index_state) : res error string :=
  if bool_decide (0 < visible_count s) then
    if virtualizationEnabled kv then
      if bool_decide (int32 (Z.of_nat (length (s_hashes s))) ≠ visible_count s) then
        Err (newBlockParseError None "block %d: visible rpc tx root count mismatch (expected=%d found=%d)")
      else Ok (Hash_Hex (visibleRPCTxsRoot (s_hashes s)))
    else Ok (Hash_Hex (BytesToHash (blk_DataHash block)))
  else Ok (Hash_Hex EmptyRootHash).

Definition block_meta (s : index_state) (root : string) (baseFee : option Z) : CachedBlockMeta :=
  mkMeta (blk_Height block) (Hash_Hex blockHash) (Hash_Hex (BytesToHash (blk_LastBlockID_Hash block)))
    (hexutil_Encode (blk_AppHash block)) (Address_Hex (blockMinerFromHeader block)) (blk_Time_Unix block)
    (uint64 (blk_Size block)) (cachedGasLimit kv) (s_gasUsed s) (visible_count s)
    (int32 (Z.of_nat (length (blk_Txs block)))) (hexutil_Encode (LogsBloom (EthLogs (s_flatLogs s)))) root
    (encodeOptionalBig baseFee) (virtualizationEnabled kv).

(** Everything up to the write: the batch and the statistics. *)
Definition build_batch (blockResults : option ResultBlockResults) : res error (batch * BlockIndexStats) :=
  let! b := resetBlock d [] (blk_Height block) in
  let baseFee := blockBaseFeeFromResults blockResults in
  let! results := res_map_err (λ e, newBlockParseError (Some e) "block %d: failed to normalize tx response indexes")
                    (NormalizeTxResponseIndexes (blockTxResults blockResults)) in
  let s := mkState b 0 0 0 0 0 [] [] [] 0 in
  let! (beginEvents, endEvents) :=
    match blockResults with
    | Some r =>
        if virtualizationEnabled kv then
          res_map_err (λ e, newBlockParseError (Some e) "block %d: failed to parse finalize virtual events")
            (VirtualResponse.SplitBlockEvents (br_FinalizeBlockEvents r))
        else Ok ([], [])
    | None => Ok ([], [])
    end in
  let! s := store_block_tx s (BeginBlockHash (blk_Height block)) beginEvents 0 in
  let! s := res_foldl (index_tx baseFee results) s (imap pair (blk_Txs block)) in
  let! s := store_block_tx s (EndBlockHash (blk_Height block)) endEvents (s_gasBefore s) in
  let! root := transactions_root s in
  let! metaBz := mustMarshalBlockMeta (block_meta s root baseFee) in
  let! b := batch_Set d (s_batch s) (BlockMetaKey (blk_Height block)) metaBz "IndexBlock %d, set block meta" in
  let! b := batch_Set d b (BlockHashKey blockHash) (Uint64ToBigEndian (uint64 (blk_Height block)))
              "IndexBlock %d, set block hash map" in
  let! logsBz := mustMarshalBlockLogs (s_blockLogs s) in
  let! b := batch_Set d b (BlockLogsKey (blk_Height block)) logsBz "IndexBlock %d, set block logs" in
  Ok (b, mkStats (s_indexed s)).

(** indexBlockWithStats: a panic becomes an error. *)
Definition indexBlockWithStats (blockResults : option ResultBlockResults) : res error BlockIndexStats * D :=
  match build_batch blockResults with
  | Ok (b, stats) =>
      match batch_Write d b "IndexBlock %d, write batch" with
      | (Ok _, d') => (Ok stats, d')
      | (Err e, d') => (Err e, d')
      | (Panic m, d') => (Err (New m), d')
      end
  | Err e => (Err e, d)
  | Panic m => (Err (New m), d)
  end.
End ops.
End Indexer.
