(* ===== verification/IndexerQuery.v ===== *)
(** * Reading the index

    The lookups of KVIndexer (src/internal/indexer/kv_indexer.go,
    cache_collections.go), the trace cache (trace_cache.go), the entry points
    around indexBlockWithStats, and the scans that find the indexed heights
    (LoadFirstBlock, LoadLastBlock, LoadIndexedRanges of ranges.go). *)

From Stdlib Require Import Ascii String.
From S2P Require Import Prelude Ranges Bytes Instances GoLib EthTypes EthInstances Keys ParsedTx.
From S2P Require Import Normalize Virtual VirtualBank VirtualIbc VirtualResponse RpcUtils Cached Codec.
From S2P Require Import Indexer.
From stdpp Require Import strings list.
#[local] Open Scope Z_scope.

Module IndexerQuery.
Import GoLib EthTypes Keys ParsedTx Normalize Virtual RpcUtils Cached Codec Ranges Indexer.

Section ops.
Context {D : Type} {DB : KVDB D} {SD : SDK} {EL : EthLib} {CL : ChainLib} {LJ : LogJSON} {PB : Proto}
        {BL : Bank.BankLib} {IL : Ibc.IbcLib} {CP : CapnpLib} {LG : LegacyLib}.
Context (IBCHookCallerAddressHex : string).
Context {Config : Type} {TK : TraceKey Config}.

(** ** Entry points of indexing *)

(** &coretypes.ResultBlockResults{Height, TxResults} *)
Definition results_of (block : Block) (txResults : list (option ExecTxResult)) : ResultBlockResults :=
  mkBlockResults (blk_Height block) txResults [].

Definition IndexBlockWithResults (kv : KVIndexer) (d : D) (block : Block) (blockResults : option ResultBlockResults) :
    res error unit * D :=
  match indexBlockWithStats IBCHookCallerAddressHex kv d block blockResults with
  | (Ok _, d') => (Ok tt, d')
  | (Err e, d') => (Err e, d')
  | (Panic m, d') => (Panic m, d')
  end.

Definition IndexBlockWithStatsAndResults (kv : KVIndexer) (d : D) (block : Block)
    (blockResults : option ResultBlockResults) : res error BlockIndexStats * D :=
  indexBlockWithStats IBCHookCallerAddressHex kv d block blockResults.

Definition IndexBlockWithStats (kv : KVIndexer) (d : D) (block : Block) (txResults : list (option ExecTxResult)) :
    res error BlockIndexStats * D :=
  indexBlockWithStats IBCHookCallerAddressHex kv d block (Some (results_of block txResults)).

Definition IndexBlock (kv : KVIndexer) (d : D) (block : Block) (txResults : list (option ExecTxResult)) :
    res error unit * D :=
  IndexBlockWithResults kv d block (Some (results_of block txResults)).

(** ** Lookups *)

(** db.Get followed by the test for an absent record. *)
Definition get_record (d : D) (key : bytes) (msg : string) (absent : error) : res error bytes :=
  let! bz := wrap msg (db_get d key) in
  match bz with [] => Err absent | _ => Ok bz end.

Definition GetByTxHash (d : D) (hash : Hash) : res error TxResult :=
  let! bz := get_record d (TxHashKey hash) "GetByTxHash %s" (Errorf "tx not found, hash: %s") in
  wrap_err "GetByTxHash %s" (unmarshalTxResultPayload bz).

Definition GetByBlockAndIndex (d : D) (blockNumber txIndex : Z) : res error TxResult :=
  let! bz := get_record d (TxIndexKey blockNumber txIndex) "GetByBlockAndIndex %d %d"
               (Errorf "tx not found, block: %d, eth-index: %d") in
  GetByTxHash d (BytesToHash bz).

Definition GetRPCTransactionByHash (d : D) (hash : Hash) : res error RPCTransaction :=
  let! bz := get_record d (RPCtxHashKey hash) "GetRPCTransactionByHash %s" (newCacheMiss "rpc tx not found, hash: %s") in
  wrap_err "GetRPCTransactionByHash %s" (unmarshalRPCTransactionPayload bz).

Definition GetRPCTransactionByBlockAndIndex (d : D) (blockNumber txIndex : Z) : res error RPCTransaction :=
  let! hashBz := get_record d (RPCtxIndexKey blockNumber txIndex) "GetRPCTransactionByBlockAndIndex %d %d"
                   (newCacheMiss "rpc tx not found, block: %d, eth-index: %d") in
  GetRPCTransactionByHash d (BytesToHash hashBz).

Definition GetRPCTransactionHashesByBlockHeight (d : D) (height : Z) : res error (list Hash) :=
  let! kvs := wrap "GetRPCTransactionHashesByBlockHeight %d"
                (db_iterator d (rpcTxIndexPrefixStart height) (Some (rpcTxIndexPrefixEnd height))) in
  Ok (BytesToHash ∘ snd <$> kvs).

Definition GetReceiptByTxHash (d : D) (hash : Hash) : res error (gmap string Value) :=
  let! bz := get_record d (ReceiptKey hash) "GetReceiptByTxHash %s" (newCacheMiss "receipt not found, hash: %s") in
  let! receipt := wrap_err "GetReceiptByTxHash %s" (unmarshalReceiptPayload bz) in
  Ok (CachedReceipt_ToMap receipt).

Definition IsVirtualRPCTransaction (d : D) (hash : Hash) : res error bool :=
  let! bz := wrap "IsVirtualRPCTransaction %s" (db_get d (VirtualRPCtxKey hash)) in
  Ok (bool_decide (0 < length bz)%nat).

Definition GetBlockMetaByHeight (d : D) (height : Z) : res error CachedBlockMeta :=
  let! bz := get_record d (BlockMetaKey height) "GetBlockMetaByHeight %d"
               (newCacheMiss "block meta not found, height: %d") in
  wrap_err "GetBlockMetaByHeight %d" (unmarshalBlockMetaPayload bz).

Definition GetBlockMetaByHash (d : D) (hash : Hash) : res error CachedBlockMeta :=
  let! bz := get_record d (BlockHashKey hash) "GetBlockMetaByHash %s" (newCacheMiss "block hash not indexed: %s") in
  GetBlockMetaByHeight d (int64 (BigEndianToUint64 bz)).

Definition GetLogsByBlockHeight (d : D) (height : Z) : res error (list (list (option RPCLog))) :=
  let! bz := get_record d (BlockLogsKey height) "GetLogsByBlockHeight %d"
               (newCacheMiss "block logs not found, height: %d") in
  unmarshalBlockLogsPayload bz.

Definition GetFilteredLogsByBlockHeight (d : D) (height : Z) (addresses : list Address) (topics : list (list Hash)) :
    res error (list (option RPCLog)) :=
  let! bz := get_record d (BlockLogsKey height) "GetFilteredLogsByBlockHeight %d"
               (newCacheMiss "block logs not found, height: %d") in
  unmarshalFilteredBlockLogsPayload bz addresses topics.

Definition GetLogsByBlockHash (d : D) (hash : Hash) : res error (list (list (option RPCLog))) :=
  let! bz := get_record d (BlockHashKey hash) "GetLogsByBlockHash %s" (newCacheMiss "block hash not indexed: %s") in
  GetLogsByBlockHeight d (int64 (BigEndianToUint64 bz)).

Definition GetFilteredLogsByBlockHash (d : D) (hash : Hash) (addresses : list Address) (topics : list (list Hash)) :
    res error (list (option RPCLog)) :=
  let! bz := get_record d (BlockHashKey hash) "GetFilteredLogsByBlockHash %s"
               (newCacheMiss "block hash not indexed: %s") in
  GetFilteredLogsByBlockHeight d (int64 (BigEndianToUint64 bz)) addresses topics.

Definition blockIndexedFlagLength : nat := 1.

Definition IsBlockIndexed (d : D) (height : Z) : res error bool :=
  let! bz := wrap "IsBlockIndexed %d" (db_get d (BlockMetaKey height)) in
  Ok (bool_decide (length bz = blockIndexedFlagLength) || bool_decide (0 < length bz)%nat).

(** ** Trace cache *)

Definition trace_default (raw : bytes) (text : string) : bytes :=
  match raw with [] => string_bytes text | _ => raw end.

(** kv.db.Set of the payload; mustMarshalTracePayload may panic. *)
Definition set_trace (d : D) (key raw : bytes) (msg : string) : res error unit * D :=
  match mustMarshalTracePayload raw with
  | Ok bz =>
      match db_set d key bz with
      | (None, d') => (Ok tt, d')
      | (Some e, d') => (Err (Wrap msg (New e)), d')
      end
  | Err e => (Err e, d)
  | Panic m => (Panic m, d)
  end.

Definition SetTraceTransaction (d : D) (hash : Hash) (config : option Config) (raw : bytes) : res error unit * D :=
  set_trace d (TraceTxKey hash config) (trace_default raw "null") "SetTraceTransaction %s".

Definition GetTraceTransaction (d : D) (hash : Hash) (config : option Config) : res error bytes :=
  let! bz := get_record d (TraceTxKey hash config) "GetTraceTransaction %s"
               (newCacheMiss "trace tx not found, hash: %s") in
  wrap_err "GetTraceTransaction %s" (unmarshalTracePayload bz).

Definition SetTraceBlockByHeight (d : D) (height : Z) (config : option Config) (raw : bytes) : res error unit * D :=
  set_trace d (TraceBlockKey height config) (trace_default raw "[]") "SetTraceBlockByHeight %d".

Definition GetTraceBlockByHeight (d : D) (height : Z) (config : option Config) : res error bytes :=
  let! bz := get_record d (TraceBlockKey height config) "GetTraceBlockByHeight %d"
               (newCacheMiss "trace block not found, height: %d") in
  wrap_err "GetTraceBlockByHeight %d" (unmarshalTracePayload bz).

(** ** Scans *)

(** The first key of a scan decides; the tx index is the fallback of stores
    written before block metadata existed. *)
Definition LoadLastBlock (d : D) : res error Z :=
  let! itMeta := wrap "LoadLastBlock" (db_reverse_iterator d [KeyPrefixBlockMeta] (Some [KeyPrefixBlockMeta + 1])) in
  match itMeta with
  | (key, _) :: _ => lib (parseHeightFromHeightKey key KeyPrefixBlockMeta)
  | [] =>
      let! it := wrap "LoadLastBlock" (db_reverse_iterator d [KeyPrefixTxIndex] (Some [KeyPrefixTxIndex + 1])) in
      match it with
      | (key, _) :: _ => lib (parseBlockNumberFromKey key)
      | [] => Ok (-1)
      end
  end.

Definition LoadFirstBlock (d : D) : res error Z :=
  let! itMeta := wrap "LoadFirstBlock" (db_iterator d [KeyPrefixBlockMeta] (Some [KeyPrefixBlockMeta + 1])) in
  match itMeta with
  | (key, _) :: _ => lib (parseHeightFromHeightKey key KeyPrefixBlockMeta)
  | [] =>
      let! it := wrap "LoadFirstBlock" (db_iterator d [KeyPrefixTxIndex] (Some [KeyPrefixTxIndex + 1])) in
      match it with
      | (key, _) :: _ => lib (parseBlockNumberFromKey key)
      | [] => Ok (-1)
      end
  end.

Definition LastIndexedBlock (d : D) : res error Z := LoadLastBlock d.
Definition FirstIndexedBlock (d : D) : res error Z := LoadFirstBlock d.

(** One scan loop: heights parsed from the keys, grouped as they come. *)
Definition scan_keys (parse : bytes → res string Z) (s : scan) (kvs : list (bytes * bytes)) : res error scan :=
  res_foldl (λ s kv, let! height := lib (parse kv.1) in Ok (scan_height s height)) s kvs.

Definition LoadIndexedRanges (d : D) : res error (list BlockRange) :=
  let! it := lib (db_iterator d [KeyPrefixBlockMeta] (Some [KeyPrefixBlockMeta + 1])) in
  let! s := scan_keys (λ key, parseHeightFromHeightKey key KeyPrefixBlockMeta) scan_init it in
  if bool_decide (lastBlock s ≠ -1) then Ok (scan_ranges s ++ [current s])
  else
    let! legacyIt := lib (db_iterator d [KeyPrefixTxIndex] (Some [KeyPrefixTxIndex + 1])) in
    let! s := scan_keys parseBlockNumberFromKey (mkScan (scan_ranges s) (-1) (current s)) legacyIt in
    Ok (scan_result s).
End ops.
End IndexerQuery.
