(* ===== verification/IndexerStore.v ===== *)
(** * What a block owns in the store

    The invariant of the index store, the records a block owns, and the proof
    that resetting a block (DeleteBlock, and the first step of IndexBlock)
    removes exactly those. *)

From Stdlib Require Import Ascii String.
From S2P Require Import Prelude Bytes Instances GoLib EthTypes EthInstances Keys Normalize Virtual.
From S2P Require Import Cached Codec CodecInstances Indexer.
From stdpp Require Import strings list.
#[local] Open Scope Z_scope.

Module IndexerStore.
Import GoLib EthTypes Keys Cached Codec Indexer.

(** ** Store invariant: every key is a record key, and index entries hold hashes *)

Section defs.
Context {SD : SDK} {SDL : SDKLaws}.

Definition wf_record (k : record_key) (v : bytes) : Prop :=
  wf_key k ∧ match k with KTxIndex _ _ | KRPCtxIndex _ _ => Keys.is_hash v | _ => True end.

#[global] Instance wf_record_dec k v : Decision (wf_record k v).
Proof. unfold wf_record. destruct k; simpl; apply _. Defined.

Definition wf_store (m : gmap bytes bytes) : Prop :=
  ∀ key v, m !! key = Some v → ∃ k, key = encode k ∧ wf_record k v.

Definition height_key (k : record_key) : option Z :=
  match k with
  | KTxIndex n _ | KRPCtxIndex n _ | KBlockLogs n | KBlockMeta n | KTraceBlock n _ => Some n
  | _ => None
  end.

(** The hashes a height lists in an index. *)
Definition tx_hash_of (m : gmap bytes bytes) (h : Z) (x : Hash) : Prop :=
  ∃ i, is_int32 i ∧ m !! TxIndexKey h i = Some x.
Definition rpc_hash_of (m : gmap bytes bytes) (h : Z) (x : Hash) : Prop :=
  ∃ i, is_int32 i ∧ m !! RPCtxIndexKey h i = Some x.
End defs.

Section owned.
Context {SD : SDK} {EL : EthLib} {CP : CapnpLib} {LG : LegacyLib}.

(** The block hash recorded in the metadata of a height. *)
Definition block_hash_of (m : gmap bytes bytes) (h : Z) (x : Hash) : Prop :=
  ∃ bz meta, m !! BlockMetaKey h = Some bz ∧ bz ≠ [] ∧ unmarshalBlockMetaPayload bz = Ok meta ∧
             x = HexToHash (m_Hash meta).

Definition owned (m : gmap bytes bytes) (h : Z) (k : record_key) : Prop :=
  match k with
  | KTxIndex n _ | KRPCtxIndex n _ | KBlockLogs n | KBlockMeta n | KTraceBlock n _ => n = h
  | KTxHash x | KTraceTx x _ => tx_hash_of m h x
  | KReceipt x | KRPCtxHash x | KVirtualRPCtx x => tx_hash_of m h x ∨ rpc_hash_of m h x
  | KBlockHash x => block_hash_of m h x
  end.
End owned.

(** ** Batches *)

Lemma res_map_err_ok {E F A} (f : E → F) (m : res E A) a : res_map_err f m = Ok a ↔ m = Ok a.
Proof. destruct m; simpl; naive_solver. Qed.

(** A loop whose body appends [g x] appends the concatenation. *)
Lemma foldl_emits {E A B} (f : list B → A → res E (list B)) (g : A → list B) l b b' :
  (∀ b x b', f b x = Ok b' → b' = b ++ g x) →
  res_foldl f b l = Ok b' → b' = b ++ (l ≫= g).
Proof.
  intros Hf. revert b. induction l as [|x l IH]; intros b; cbn [res_foldl].
  - intros [= <-]. by rewrite app_nil_r.
  - intros (b1 & H1 & H2)%res_bind_ok. apply IH in H2 as ->. apply Hf in H1 as ->.
    by rewrite bind_cons, app_assoc.
Qed.

Section batch.
Context {D : Type} {DB : KVDB D} {DBL : KVDBLaws D}.

Lemma batch_Set_ok d b k v msg b' : batch_Set d b k v msg = Ok b' → b' = b ++ [OpSet k v].
Proof. unfold batch_Set, wrap. rewrite res_map_err_ok. apply batch_add_ok. Qed.
Lemma batch_Delete_ok d b k msg b' : batch_Delete d b k msg = Ok b' → b' = b ++ [OpDelete k].
Proof. unfold batch_Delete, wrap. rewrite res_map_err_ok. apply batch_add_ok. Qed.
End batch.

(** [emit] turns the successful calls of a chain into the batch they build. *)
Ltac emit :=
  repeat match goal with
    | H : res_bind _ _ = Ok _ |- _ => apply res_bind_ok in H as (? & ? & H)
    | H : wrap _ _ = Ok _ |- _ => unfold wrap in H
    | H : wrap_err _ _ = Ok _ |- _ => unfold wrap_err in H
    | H : res_map_err _ _ = Ok _ |- _ => apply res_map_err_ok in H
    | H : batch_Set _ _ _ _ _ = Ok _ |- _ => apply batch_Set_ok in H; subst
    | H : batch_Delete _ _ _ _ = Ok _ |- _ => apply batch_Delete_ok in H; subst
    end.

Section reset.
Context {D : Type} {DB : KVDB D} {DBL : KVDBLaws D} {SD : SDK} {EL : EthLib} {CP : CapnpLib} {LG : LegacyLib}.

(** ** The deletions of a reset *)

Definition reset_tx_ops (kv : bytes * bytes) : batch :=
  let x := BytesToHash kv.2 in
  OpDelete <$> [kv.1; TxHashKey x; ReceiptKey x; RPCtxHashKey x; VirtualRPCtxKey x].
Definition reset_rpc_ops (kv : bytes * bytes) : batch :=
  let x := BytesToHash kv.2 in
  OpDelete <$> [ReceiptKey x; RPCtxHashKey x; VirtualRPCtxKey x; kv.1].
Definition pairs (d : D) (s : bytes) (e : option bytes) : list (bytes * bytes) :=
  match db_iterator d s e with Ok kvs => kvs | _ => [] end.
Definition trace_ops (d : D) (start : bytes) : batch :=
  OpDelete ∘ fst <$> pairs d start (prefixRangeEnd start).
Definition hash_op (d : D) (h : Z) : batch :=
  match db_get d (BlockMetaKey h) with
  | Ok [] => []
  | Ok bz => match unmarshalBlockMetaPayload bz with
             | Ok meta => [OpDelete (BlockHashKey (HexToHash (m_Hash meta)))]
             | _ => []
             end
  | _ => []
  end.

Definition reset_ops (d : D) (h : Z) : batch :=
  let kvs := pairs d (txIndexPrefixStart h) (Some (txIndexPrefixEnd h)) in
  hash_op d h ++ (kvs ≫= reset_tx_ops) ++
  ((BytesToHash ∘ snd <$> kvs) ≫= λ x, trace_ops d (traceTxPrefixStart x)) ++
  trace_ops d (traceBlockPrefixStart h) ++
  (pairs d (rpcTxIndexPrefixStart h) (Some (rpcTxIndexPrefixEnd h)) ≫= reset_rpc_ops) ++
  [OpDelete (BlockLogsKey h); OpDelete (BlockMetaKey h)].

Lemma pairs_ok d s e kvs : db_iterator d s e = Ok kvs → pairs d s e = kvs.
Proof. unfold pairs. by intros ->. Qed.

Lemma deleteTraceKeys_ok d b start m1 m2 b' :
  deleteTraceKeys d b start m1 m2 = Ok b' →
  b' = b ++ trace_ops d start ∧ is_ok (db_iterator d start (prefixRangeEnd start)) = true.
Proof.
  unfold deleteTraceKeys. intros H. emit. unfold trace_ops. rewrite (pairs_ok _ _ _ _ H0). split; [|by rewrite H0].
  apply (foldl_emits _ (λ kv, [OpDelete kv.1])) in H as ->; [|by intros ? ? ? ?%batch_Delete_ok].
  done.
Qed.

(** A successful reset appended [reset_ops], and its iterators succeeded. *)
Definition reset_reads (d : D) (h : Z) : Prop :=
  let kvs := pairs d (txIndexPrefixStart h) (Some (txIndexPrefixEnd h)) in
  is_ok (db_get d (BlockMetaKey h)) = true ∧
  (∀ bz, db_get d (BlockMetaKey h) = Ok bz → bz ≠ [] → is_ok (unmarshalBlockMetaPayload bz) = true) ∧
  is_ok (db_iterator d (txIndexPrefixStart h) (Some (txIndexPrefixEnd h))) = true ∧
  (∀ kv, kv ∈ kvs → let s := traceTxPrefixStart (BytesToHash kv.2) in
     is_ok (db_iterator d s (prefixRangeEnd s)) = true) ∧
  is_ok (db_iterator d (traceBlockPrefixStart h) (prefixRangeEnd (traceBlockPrefixStart h))) = true ∧
  is_ok (db_iterator d (rpcTxIndexPrefixStart h) (Some (rpcTxIndexPrefixEnd h))) = true.

Lemma deleteTraces_ok d b l m1 m2 b' :
  res_foldl (λ b x, deleteTraceKeys d b (traceTxPrefixStart x) m1 m2) b l = Ok b' →
  b' = b ++ (l ≫= λ x, trace_ops d (traceTxPrefixStart x)) ∧
  ∀ x, x ∈ l → is_ok (db_iterator d (traceTxPrefixStart x) (prefixRangeEnd (traceTxPrefixStart x))) = true.
Proof.
  revert b. induction l as [|x l IH]; intros b; cbn [res_foldl].
  - intros [= <-]. split; [by rewrite app_nil_r|set_solver].
  - intros (b1 & [-> Ho]%deleteTraceKeys_ok & [-> Hr]%IH)%res_bind_ok. split; [by rewrite bind_cons, app_assoc|].
    intros y [->|Hy]%elem_of_cons; auto.
Qed.

Lemma reset_tx_ok d b kv b' : reset_tx d b kv = Ok b' → b' = b ++ reset_tx_ops kv.
Proof. unfold reset_tx, reset_tx_ops. intros H. emit. by rewrite <- !app_assoc. Qed.

Lemma reset_rpc_tx_ok d b kv b' : reset_rpc_tx d b kv = Ok b' → b' = b ++ reset_rpc_ops kv.
Proof. unfold reset_rpc_tx, reset_rpc_ops. intros H. emit. by rewrite <- !app_assoc. Qed.

Lemma hash_op_ok d h b metaBz b' :
  db_get d (BlockMetaKey h) = Ok metaBz →
  match metaBz with
  | [] => Ok b
  | _ => let! meta := res_map_err (Wrap "reset block %d: unmarshal meta") (unmarshalBlockMetaPayload metaBz) in
         batch_Delete d b (BlockHashKey (HexToHash (m_Hash meta))) "reset block %d: delete block hash"
  end = Ok b' →
  b' = b ++ hash_op d h ∧ (metaBz ≠ [] → is_ok (unmarshalBlockMetaPayload metaBz) = true).
Proof.
  intros Hm H. unfold hash_op. rewrite Hm. destruct metaBz as [|z zs].
  - injection H as <-. by rewrite app_nil_r.
  - apply res_bind_ok in H as (meta & Hu%res_map_err_ok & H). emit. by rewrite Hu.
Qed.

Lemma resetBlock_ok d b h b' :
  resetBlock d b h = Ok b' → b' = b ++ reset_ops d h ∧ reset_reads d h.
Proof.
  unfold resetBlock, deleteTraceKeysForBlock, wrap, wrap_err.
  intros (metaBz & Hm%res_map_err_ok & H)%res_bind_ok. apply res_bind_ok in H as (b1 & H1 & H).
  apply res_bind_ok in H as (kvs & Hk%res_map_err_ok & H). apply res_bind_ok in H as (b2 & H2 & H).
  apply res_bind_ok in H as (b3 & H3%res_map_err_ok & H). apply res_bind_ok in H3 as (b3' & H3 & H3').
  apply res_bind_ok in H as (rkvs & Hr%res_map_err_ok & H). apply res_bind_ok in H as (b4 & H4 & H).
  emit. destruct (hash_op_ok _ _ _ _ _ Hm H1) as [-> Hu].
  apply (foldl_emits _ reset_tx_ops) in H2 as ->; [|by apply reset_tx_ok].
  apply deleteTraces_ok in H3 as [-> Hto]. apply deleteTraceKeys_ok in H3' as [-> Hbo].
  apply (foldl_emits _ reset_rpc_ops) in H4 as ->; [|by apply reset_rpc_tx_ok].
  unfold reset_ops, reset_reads. rewrite (pairs_ok _ _ _ _ Hk), (pairs_ok _ _ _ _ Hr). split.
  - by rewrite <- !app_assoc.
  - split_and!; [by rewrite Hm|by intros bz [= <-]%(eq_trans (eq_sym Hm)); apply Hu|by rewrite Hk| |done|by rewrite Hr].
    intros kv Hkv. apply Hto, list_elem_of_fmap. by exists kv.
Qed.

(** ** The deletions are the keys the block owns *)

Context {SDL : SDKLaws} {ELL : EthLibLaws}.

Lemma pairs_iterates d s e :
  is_ok (db_iterator d s e) = true → iterates (contents d) s e (pairs d s e).
Proof.
  unfold pairs. destruct (db_iterator d s e) eqn:E; [|done..]. intros _. by apply db_iterator_ok.
Qed.

Lemma block_hash_op d h op : reset_reads d h →
  op ∈ hash_op d h ↔ ∃ x, op = OpDelete (BlockHashKey x) ∧ block_hash_of (contents d) h x.
Proof.
  intros (Hg & Hu & _). unfold hash_op, block_hash_of.
  destruct (db_get d (BlockMetaKey h)) as [bz| |] eqn:Eg; [|done..].
  specialize (Hu _ eq_refl). apply db_get_ok in Eg. destruct bz as [|z zs].
  - split; [set_solver|]. intros (x & -> & bz & meta & Hl & Hn & _). rewrite Hl in Eg. by destruct bz.
  - destruct (contents d !! BlockMetaKey h) as [bz|] eqn:El; simpl in Eg; [subst bz|done].
    destruct (unmarshalBlockMetaPayload (z :: zs)) as [meta| |] eqn:Em; [|by specialize (Hu ltac:(done))..].
    rewrite list_elem_of_singleton. split.
    + intros ->. eexists; split; [done|]. by exists (z :: zs), meta.
    + intros (x & -> & bz & meta' & [= <-] & _ & [= <-]%(eq_trans (eq_sym Em)) & ->). done.
Qed.

Section owned_keys.
Context (d : D) (h : Z) (Hh : 0 ≤ h < 2 ^ 63) (Hwf : wf_store (contents d)).

Lemma elem_of_pairs s e key v :
  is_ok (db_iterator d s e) = true →
  (key, v) ∈ pairs d s e ↔
  ∃ k, key = encode k ∧ wf_record k v ∧ contents d !! key = Some v ∧ in_range s e (encode k).
Proof using Hwf DBL.
  intros Hok. destruct (pairs_iterates _ _ _ Hok) as [_ Hi]. rewrite Hi. split.
  - intros [Hl Hr]. destruct (Hwf _ _ Hl) as (k & -> & Hk). by exists k.
  - by intros (k & -> & _ & ? & ?).
Qed.

Lemma tx_pairs key v :
  is_ok (db_iterator d (txIndexPrefixStart h) (Some (txIndexPrefixEnd h))) = true →
  (key, v) ∈ pairs d (txIndexPrefixStart h) (Some (txIndexPrefixEnd h)) ↔
  ∃ i, is_int32 i ∧ key = TxIndexKey h i ∧ contents d !! TxIndexKey h i = Some v ∧ Keys.is_hash v.
Proof using Hh Hwf DBL SDL.
  intros Hok. rewrite elem_of_pairs by done. split.
  - intros (k & -> & [Hk Hv] & Hl & Hr). apply index_ranges in Hr as [i ->]; [|done..].
    exists i. destruct Hk. by split_and!.
  - intros (i & Hi & -> & Hl & Hv). exists (KTxIndex h i).
    assert (wf_key (KTxIndex h i)) as Hk by (split; [gate_ints; lia|done]).
    split_and!; [done|by split|done|]. apply index_ranges; [done..|by eexists].
Qed.

Lemma rpc_pairs key v :
  is_ok (db_iterator d (rpcTxIndexPrefixStart h) (Some (rpcTxIndexPrefixEnd h))) = true →
  (key, v) ∈ pairs d (rpcTxIndexPrefixStart h) (Some (rpcTxIndexPrefixEnd h)) ↔
  ∃ i, is_int32 i ∧ key = RPCtxIndexKey h i ∧ contents d !! RPCtxIndexKey h i = Some v ∧ Keys.is_hash v.
Proof using Hh Hwf DBL SDL.
  intros Hok. rewrite elem_of_pairs by done. split.
  - intros (k & -> & [Hk Hv] & Hl & Hr). apply index_ranges in Hr as [i ->]; [|done..].
    exists i. destruct Hk. by split_and!.
  - intros (i & Hi & -> & Hl & Hv). exists (KRPCtxIndex h i).
    assert (wf_key (KRPCtxIndex h i)) as Hk by (split; [gate_ints; lia|done]).
    split_and!; [done|by split|done|]. apply index_ranges; [done..|by eexists].
Qed.

Lemma elem_of_trace_ops s op :
  is_ok (db_iterator d s (prefixRangeEnd s)) = true →
  op ∈ trace_ops d s ↔ ∃ k v, op = OpDelete (encode k) ∧ wf_record k v ∧ contents d !! encode k = Some v ∧
                              in_range s (prefixRangeEnd s) (encode k).
Proof using Hwf DBL.
  intros Hok. unfold trace_ops. rewrite list_elem_of_fmap. split.
  - intros ([key v] & -> & (k & -> & ? & ? & ?)%elem_of_pairs); [|done]. by exists k, v.
  - intros (k & v & -> & ? & ? & ?). exists (encode k, v). split; [done|]. apply elem_of_pairs; [done|]. by exists k.
Qed.


Lemma elem_of_reset_tx op : reset_reads d h →
  op ∈ pairs d (txIndexPrefixStart h) (Some (txIndexPrefixEnd h)) ≫= reset_tx_ops ↔
  ∃ i x, is_int32 i ∧ contents d !! TxIndexKey h i = Some x ∧ Keys.is_hash x ∧
    op ∈ OpDelete <$> [TxIndexKey h i; TxHashKey x; ReceiptKey x; RPCtxHashKey x; VirtualRPCtxKey x].
Proof using Hh Hwf DBL SDL ELL.
  intros (_ & _ & Hok & _). rewrite list_elem_of_bind. split.
  - intros ([key v] & Hop & (i & Hi & -> & Hl & Hv)%tx_pairs); [|done]. exists i, v.
    unfold reset_tx_ops in Hop. simpl in Hop. rewrite (BytesToHash_id _ Hv) in Hop. by split_and!.
  - intros (i & x & Hi & Hl & Hx & Hop). exists (TxIndexKey h i, x).
    unfold reset_tx_ops. simpl. rewrite (BytesToHash_id _ Hx). split; [exact Hop|].
    apply tx_pairs; [done|]. by exists i.
Qed.

Lemma elem_of_reset_rpc op : reset_reads d h →
  op ∈ pairs d (rpcTxIndexPrefixStart h) (Some (rpcTxIndexPrefixEnd h)) ≫= reset_rpc_ops ↔
  ∃ i x, is_int32 i ∧ contents d !! RPCtxIndexKey h i = Some x ∧ Keys.is_hash x ∧
    op ∈ OpDelete <$> [ReceiptKey x; RPCtxHashKey x; VirtualRPCtxKey x; RPCtxIndexKey h i].
Proof using Hh Hwf DBL SDL ELL.
  intros (_ & _ & _ & _ & _ & Hok). rewrite list_elem_of_bind. split.
  - intros ([key v] & Hop & (i & Hi & -> & Hl & Hv)%rpc_pairs); [|done]. exists i, v.
    unfold reset_rpc_ops in Hop. simpl in Hop. rewrite (BytesToHash_id _ Hv) in Hop. by split_and!.
  - intros (i & x & Hi & Hl & Hx & Hop). exists (RPCtxIndexKey h i, x).
    unfold reset_rpc_ops. simpl. rewrite (BytesToHash_id _ Hx). split; [exact Hop|].
    apply rpc_pairs; [done|]. by exists i.
Qed.

Lemma elem_of_reset_traces op : reset_reads d h →
  op ∈ (BytesToHash ∘ snd <$> pairs d (txIndexPrefixStart h) (Some (txIndexPrefixEnd h))) ≫=
       (λ x, trace_ops d (traceTxPrefixStart x)) ↔
  ∃ i x digest v, is_int32 i ∧ contents d !! TxIndexKey h i = Some x ∧ wf_key (KTraceTx x digest) ∧
    contents d !! encode (KTraceTx x digest) = Some v ∧ op = OpDelete (encode (KTraceTx x digest)).
Proof using Hh Hwf DBL SDL ELL.
  intros (_ & _ & Hok & Ht & _). rewrite list_elem_of_bind. split.
  - intros (x & Hop & ([key v] & -> & Hin)%list_elem_of_fmap). specialize (Ht _ Hin). cbn in Ht, Hop.
    apply tx_pairs in Hin as (i & Hi & -> & Hl & Hv); [|done]. rewrite (BytesToHash_id _ Hv) in *.
    apply elem_of_trace_ops in Hop as (k & w & -> & [Hk _] & Hw & [digest ->]%trace_tx_range); [|done..].
    by exists i, v, digest, w.
  - intros (i & x & digest & v & Hi & Hl & Hk & Hv & ->). pose proof (proj1 Hk) as Hx. exists x.
    assert ((TxIndexKey h i, x) ∈ pairs d (txIndexPrefixStart h) (Some (txIndexPrefixEnd h))) as Hin.
    { apply tx_pairs; [done|]. by exists i. }
    pose proof (Ht _ Hin) as Ho. cbn in Ho. rewrite (BytesToHash_id _ Hx) in Ho. split.
    + apply elem_of_trace_ops; [done|]. exists (KTraceTx x digest), v. split_and!; [done|by split|done|].
      apply trace_tx_range; [done..|by eexists].
    + apply list_elem_of_fmap. exists (TxIndexKey h i, x). split; [|done]. simpl. by rewrite (BytesToHash_id _ Hx).
Qed.

Lemma elem_of_block_traces op : reset_reads d h →
  op ∈ trace_ops d (traceBlockPrefixStart h) ↔
  ∃ digest v, wf_key (KTraceBlock h digest) ∧ contents d !! encode (KTraceBlock h digest) = Some v ∧
    op = OpDelete (encode (KTraceBlock h digest)).
Proof using Hh Hwf DBL SDL ELL.
  intros (_ & _ & _ & _ & Hok & _). rewrite elem_of_trace_ops by done.
  assert (is_int64 h) by (gate_ints; lia). split.
  - intros (k & v & -> & [Hk _] & Hv & [digest ->]%trace_block_range); [|done..]. by exists digest, v.
  - intros (digest & v & Hk & Hv & ->). exists (KTraceBlock h digest), v. split_and!; [done|by split|done|].
    apply trace_block_range; [done..|by eexists].
Qed.

Lemma reset_sound op : reset_reads d h → op ∈ reset_ops d h →
  ∃ k, op = OpDelete (encode k) ∧ wf_key k ∧ owned (contents d) h k.
Proof using Hh Hwf DBL SDL ELL.
  intros Hr. assert (is_int64 h) as Hi64 by (gate_ints; lia). unfold reset_ops. rewrite !elem_of_app.
  rewrite block_hash_op, elem_of_reset_tx, elem_of_reset_traces, elem_of_block_traces, elem_of_reset_rpc by done.
  intros [(x & -> & Hx)|[(i & x & Hi & Hl & Hx & Hop)|[(i & x & digest & v & Hi & Hl & Hk & _ & ->)
         |[(digest & v & Hk & _ & ->)|[(i & x & Hi & Hl & Hx & Hop)|Hop]]]]].
  - exists (KBlockHash x). split_and!; [done| |done]. destruct Hx as (? & meta & _ & _ & _ & ->). apply HexToHash_wf.
  - assert (tx_hash_of (contents d) h x) as Ht by (by exists i).
    repeat (apply elem_of_cons in Hop as [->|Hop]); [..|set_solver].
    + by exists (KTxIndex h i).
    + by exists (KTxHash x).
    + exists (KReceipt x). split_and!; [done..|by left].
    + exists (KRPCtxHash x). split_and!; [done..|by left].
    + exists (KVirtualRPCtx x). split_and!; [done..|by left].
  - exists (KTraceTx x digest). split_and!; [done..|]. by exists i.
  - by exists (KTraceBlock h digest).
  - assert (rpc_hash_of (contents d) h x) as Ht by (by exists i).
    repeat (apply elem_of_cons in Hop as [->|Hop]); [..|set_solver].
    + exists (KReceipt x). split_and!; [done..|by right].
    + exists (KRPCtxHash x). split_and!; [done..|by right].
    + exists (KVirtualRPCtx x). split_and!; [done..|by right].
    + by exists (KRPCtxIndex h i).
  - repeat (apply elem_of_cons in Hop as [->|Hop]); [..|set_solver].
    + by exists (KBlockLogs h).
    + by exists (KBlockMeta h).
Qed.

(** An index entry or a listed hash puts its records among the deletions. *)
Lemma reset_tx_keys i x key : reset_reads d h →
  is_int32 i → contents d !! TxIndexKey h i = Some x → Keys.is_hash x →
  key ∈ [TxIndexKey h i; TxHashKey x; ReceiptKey x; RPCtxHashKey x; VirtualRPCtxKey x] →
  OpDelete key ∈ reset_ops d h.
Proof using Hh Hwf DBL SDL ELL.
  intros Hr Hi Hl Hx Hk. unfold reset_ops. apply elem_of_app. right. apply elem_of_app. left.
  apply elem_of_reset_tx; [done|]. exists i, x. split_and!; [done..|]. by apply list_elem_of_fmap_2.
Qed.

Lemma reset_rpc_keys i x key : reset_reads d h →
  is_int32 i → contents d !! RPCtxIndexKey h i = Some x → Keys.is_hash x →
  key ∈ [ReceiptKey x; RPCtxHashKey x; VirtualRPCtxKey x; RPCtxIndexKey h i] →
  OpDelete key ∈ reset_ops d h.
Proof using Hh Hwf DBL SDL ELL.
  intros Hr Hi Hl Hx Hk. unfold reset_ops. rewrite !elem_of_app. do 4 right. left.
  apply elem_of_reset_rpc; [done|]. exists i, x. split_and!; [done..|]. by apply list_elem_of_fmap_2.
Qed.

(** The value under an index key of the height is a hash. *)
Lemma index_value k v : contents d !! encode k = Some v → wf_key k → wf_record k v.
Proof using Hwf SDL.
  intros Hl Hk. destruct (Hwf _ _ Hl) as (k' & E & Hr). apply encode_inj in E as ->; [done..|apply Hr].
Qed.

Lemma reset_complete k : reset_reads d h →
  wf_key k → owned (contents d) h k → is_Some (contents d !! encode k) → OpDelete (encode k) ∈ reset_ops d h.
Proof using Hh Hwf DBL SDL ELL.
  intros Hr Hk Ho [v Hv].
  assert (∀ i x, is_int32 i → contents d !! TxIndexKey h i = Some x → Keys.is_hash x) as Htx.
  { intros i x Hi Hl. apply (index_value (KTxIndex h i) x Hl). split; [gate_ints; lia|done]. }
  assert (∀ i x, is_int32 i → contents d !! RPCtxIndexKey h i = Some x → Keys.is_hash x) as Hrpc.
  { intros i x Hi Hl. apply (index_value (KRPCtxIndex h i) x Hl). split; [gate_ints; lia|done]. }
  destruct k as [x|n i|x|n i|x|n|n|x|x digest|n digest|x]; simpl in Ho; subst.
  - destruct Ho as (i & Hi & Hl). eapply reset_tx_keys; [done..|by eapply Htx|set_solver].
  - eapply (reset_tx_keys i v); [done|apply Hk|done|eapply Htx, Hv; apply Hk|set_solver].
  - destruct Ho as [(i & Hi & Hl)|(i & Hi & Hl)].
    + eapply reset_tx_keys; [done..|by eapply Htx|set_solver].
    + eapply reset_rpc_keys; [done..|by eapply Hrpc|set_solver].
  - eapply (reset_rpc_keys i v); [done|apply Hk|done|eapply Hrpc, Hv; apply Hk|set_solver].
  - destruct Ho as [(i & Hi & Hl)|(i & Hi & Hl)].
    + eapply reset_tx_keys; [done..|by eapply Htx|set_solver].
    + eapply reset_rpc_keys; [done..|by eapply Hrpc|set_solver].
  - unfold reset_ops. rewrite !elem_of_app. do 5 right. by left.
  - unfold reset_ops. rewrite !elem_of_app. do 5 right. right. by left.
  - unfold reset_ops. rewrite !elem_of_app. left. apply block_hash_op; [done|]. by exists x.
  - destruct Ho as (i & Hi & Hl). unfold reset_ops. rewrite !elem_of_app. do 2 right. left.
    apply elem_of_reset_traces; [done|]. by exists i, x, digest, v.
  - unfold reset_ops. rewrite !elem_of_app. do 3 right. left. apply elem_of_block_traces; [done|]. by exists digest, v.
  - destruct Ho as [(i & Hi & Hl)|(i & Hi & Hl)].
    + eapply reset_tx_keys; [done..|by eapply Htx|set_solver].
    + eapply reset_rpc_keys; [done..|by eapply Hrpc|set_solver].
Qed.

(** The effect of the deletions on the store. *)
Lemma reset_owned k : reset_reads d h → wf_key k → owned (contents d) h k →
  apply_ops (contents d) (reset_ops d h) !! encode k = None.
Proof using Hh Hwf DBL SDL ELL.
  intros Hr Hk Ho. destruct (contents d !! encode k) as [v|] eqn:E.
  - apply apply_ops_deleted; [|apply reset_complete; [done..|by rewrite E]].
    apply Forall_forall. intros op (k' & -> & _)%reset_sound; [by eexists|done].
  - destruct (decide (encode k ∈ op_key <$> reset_ops d h)) as [(op & Ek & Hop)%list_elem_of_fmap|Hn].
    + destruct (reset_sound _ Hr Hop) as (k' & -> & _). simpl in Ek. rewrite Ek.
      apply apply_ops_deleted; [|done]. apply Forall_forall. intros op (k2 & -> & _)%reset_sound; [by eexists|done].
    + by rewrite apply_ops_other.
Qed.

Lemma reset_not_owned k : reset_reads d h → wf_key k → ¬ owned (contents d) h k →
  apply_ops (contents d) (reset_ops d h) !! encode k = contents d !! encode k.
Proof using Hh Hwf DBL SDL ELL.
  intros Hr Hk Ho. apply apply_ops_other. intros (op & Ek & Hop)%list_elem_of_fmap.
  apply reset_sound in Hop as (k' & -> & Hk' & Ho'); [|done]. simpl in Ek. apply encode_inj in Ek as ->; done.
Qed.
End owned_keys.
End reset.
End IndexerStore.
