(* ===== verification/IndexerLoop.v ===== *)
(** * The loop of IndexBlock

    The invariant of the loop over a block's transactions: the batch holds only
    records of this block, the RPC index lists the visible transactions in order
    without holes, every listed transaction has its records, and in a
    virtualised block the logs are numbered through the block. *)

From Stdlib Require Import Ascii String.
From S2P Require Import Prelude Bytes Instances GoLib EthTypes EthInstances Keys ParsedTx Normalize.
From S2P Require Import Virtual VirtualBank VirtualIbc VirtualResponse RpcUtils Cached Codec Indexer.
From S2P Require Import IndexerStore.
From stdpp Require Import strings list.
#[local] Open Scope Z_scope.

Module IndexerLoop.
Import GoLib EthTypes Keys ParsedTx Normalize Virtual RpcUtils Cached Codec Indexer IndexerStore.

(** ** Machine integers *)

Lemma int32_add_idemp a b : int32 (int32 a + b) = int32 (a + b).
Proof.
  unfold int32. f_equal.
  replace ((a + 2 ^ 31) `mod` 2 ^ 32 - 2 ^ 31 + b + 2 ^ 31) with ((a + 2 ^ 31) `mod` 2 ^ 32 + b) by lia.
  rewrite Zplus_mod_idemp_l. f_equal. lia.
Qed.

Lemma int32_uint64 a : int32 (uint64 a) = int32 a.
Proof.
  unfold int32, uint64. f_equal. change (2 ^ 64) with (2 ^ 32 * 2 ^ 32).
  rewrite Z.rem_mul_r by lia. rewrite <- Z.add_assoc, (Z.add_comm (_ * _)), Z.add_assoc, Z.mul_comm, Z_mod_plus_full.
  by rewrite Zplus_mod_idemp_l.
Qed.

Lemma int32_idemp a : int32 (int32 a) = int32 a.
Proof. pose proof (int32_add_idemp a 0) as H. by rewrite !Z.add_0_r in H. Qed.

Lemma int32_range a : is_int32 (int32 a).
Proof. gate_ints. pose proof (Z.mod_pos_bound (a + 2 ^ 31) (2 ^ 32) ltac:(lia)). lia. Qed.

Section hashes.
Context {EL : EthLib} {ELL : EthLibLaws} {CL : ChainLib} {LJ : LogJSON}.

(** ** Hashes of parsed transactions *)

Definition tx_hashes_wf (tx : sdk_Tx) : Prop := ∀ m, EthMsg m ∈ GetMsgs tx → EthTypes.is_hash (msg_Hash m).

Definition hash_wf (t : ParsedTx) : Prop := EthTypes.is_hash (Hash_ t).

Lemma fillTxAttributes_hash tx attrs tx' : hash_wf tx → fillTxAttributes tx attrs = Ok tx' → hash_wf tx'.
Proof.
  intros Hw. apply res_foldl_inv; [|done]. intros s [k v i] s' Hs _. unfold fillTxAttribute. simpl.
  repeat case_bool_decide; try (by intros [= <-]); try (intros [= <-]; apply HexToHash_wf);
    by intros (n & _ & [= <-])%res_bind_ok.
Qed.

Lemma parse_events_hashes p events p' :
  Forall hash_wf (Txs p) → parse_events p events = Ok p' → Forall hash_wf (Txs p').
Proof.
  intros Hw. apply (res_foldl_inv _ (λ p, Forall hash_wf (Txs p))); [|done].
  intros s ev s' Hs _. case_bool_decide; [|by intros [= <-]].
  intros (tx & Htx%fillTxAttributes_hash & [= <-])%res_bind_ok; [|apply zero_hash_wf]. simpl.
  by apply Forall_app_2; [|apply Forall_singleton].
Qed.

Lemma fail_with_gas_limit_hashes msgs i txs txs' :
  Forall hash_wf txs → fail_with_gas_limit msgs i txs = Ok txs' → Forall hash_wf txs'.
Proof.
  intros Hw. revert i txs'. induction Hw as [|tx txs Hx _ IH]; intros i txs'; cbn [fail_with_gas_limit].
  - by intros [= <-].
  - destruct (msgs !! i) as [[m|?]|]; [|done..]. intros (txs1 & H1%IH & [= <-])%res_bind_ok. by constructor.
Qed.

Lemma parseFromLog_hashes p result tx p' :
  tx_hashes_wf tx → Forall hash_wf (Txs p) → parseFromLog p result (Some tx) = Ok p' → Forall hash_wf (Txs p').
Proof.
  intros Ht Hp. unfold parseFromLog. destruct (msgErrJSONRx _) as [[q json]|]; [|done].
  intros (i & _ & H)%res_bind_ok. destruct (sonic_Unmarshal_vmError _) as [vme|e|]; [| |done].
  - injection H as <-. simpl. apply Forall_app_2; [done|]. apply Forall_singleton. apply HexToHash_wf.
  - destruct (failedTxFromTextLog _ _ _ _) as [t| |] eqn:Ef; [|done..]. injection H as <-. simpl.
    apply Forall_app_2; [done|]. apply Forall_singleton. unfold failedTxFromTextLog in Ef.
    case_bool_decide; [done|]. destruct (GetMsgs tx !! _) as [[m|]|] eqn:El; [|done..].
    injection Ef as <-. apply Ht. by eapply list_elem_of_lookup_2.
Qed.

Lemma ParseTxResult_hashes result tx p :
  tx_hashes_wf tx → ParseTxResult result (Some tx) = Ok p → Forall hash_wf (Txs p).
Proof.
  intros Ht (q & Hq%parse_events_hashes & H)%res_bind_ok; [|constructor]. case_bool_decide.
  - eapply parseFromLog_hashes; [done| |exact H]. simpl. apply Forall_fmap. by eapply Forall_impl.
  - case_bool_decide; [|by injection H as <-].
    apply res_bind_ok in H as (txs & Hf & [= <-]). by eapply fail_with_gas_limit_hashes.
Qed.
End hashes.

(** ** The invariant *)

Section loop.
Context {D : Type} {DB : KVDB D} {DBL : KVDBLaws D} {SD : SDK} {SDL : SDKLaws} {EL : EthLib} {ELL : EthLibLaws}
        {CL : ChainLib} {LJ : LogJSON} {PB : Proto} {BL : Bank.BankLib} {IL : Ibc.IbcLib}
        {CP : CapnpLib} {LG : LegacyLib}.
Context (caller : string) (kv : KVIndexer) (d : D) (block : Block) (dels : batch).

Notation height := (blk_Height block).
Notation virt := (virtualizationEnabled kv).

(** ** The visible transactions of a block *)

(** The hash of an Ethereum message: its own when the transaction failed outside
    the EVM, the reported one otherwise. *)
Definition eth_msg_hash (result : ExecTxResult) (txs : ParsedTxs) (m : nat * Msg) : option Hash :=
  match m with
  | (i, EthMsg e) =>
      if bool_decide (res_Code result ≠ CodeTypeOK ∧ res_Codespace result ≠ ModuleName)
      then Some (msg_Hash e) else Hash_ <$> GetTxByMsgIndex txs (Z.of_nat i)
  | (_, OtherMsg _) => None
  end.

(** Of the Ethereum messages of a transaction, in message order. *)
Definition eth_hashes (result : ExecTxResult) (tx : sdk_Tx) : list Hash :=
  if isEthTx tx then
    match ParseTxResult result (Some tx) with
    | Ok txs => omap (eth_msg_hash result txs) (imap pair (GetMsgs tx))
    | _ => []
    end
  else [].

(** Of the events outside its Ethereum messages: the coin movements, then the hooks. *)
Definition synthetic_hashes (bz : bytes) (vr : VirtualResponse.Response) (ethIndexes : gset Z) (total : Z) : list Hash :=
  VirtualResponse.expected_hashes vr
    (VirtualResponse.mkTxContext bz ethIndexes 0 total zero_hash 0 0 0 0 None).

Definition virtual_hashes (result : ExecTxResult) (bz : bytes) (tx : sdk_Tx) : list Hash :=
  if virt then
    match VirtualResponse.ParseResponse (Some result) with
    | Ok vr => synthetic_hashes bz vr (eth_indexes (GetMsgs tx)) (Z.of_nat (length (GetMsgs tx)))
    | _ => []
    end
  else [].

Definition tx_hashes (results : list (option ExecTxResult)) (t : nat * bytes) : list Hash :=
  match results !! t.1, TxDecoder t.2 with
  | Some (Some result), Ok tx => eth_hashes result tx ++ virtual_hashes result t.2 tx
  | _, _ => []
  end.

(** A synthetic transaction for block events, if there are any. *)
Definition event_hashes (hash : Hash) (events : list (option EthLog)) : list Hash :=
  match events with [] => [] | _ => [hash] end.

(** A stored receipt and a stored RPC transaction that name the hash they are
    stored under, and the block. *)
Definition names_receipt (x : Hash) (v : bytes) : Prop :=
  ∃ r, mustMarshalReceipt r = Ok v ∧
    (cr_TransactionHash r, cr_BlockHash r, cr_BlockNumber r) = (Hash_Hex x, Hash_Hex (blockHash block), uint64 height).
Definition names_rpc_tx (x : Hash) (v : bytes) : Prop := ∃ t, mustMarshalRPCTransaction t = Ok v ∧ t_Hash t = x.

(** An operation of the loop: a record of this block. *)
Definition tx_op (op : batch_op) : Prop :=
  ∃ k v, op = OpSet (encode k) v ∧ wf_record k v ∧
    match k with
    | KTxHash _ | KVirtualRPCtx _ => True
    | KReceipt x => names_receipt x v
    | KRPCtxHash x => names_rpc_tx x v
    | KTxIndex n _ | KRPCtxIndex n _ => n = height
    | _ => False
    end.

(** The transaction a record of the loop is keyed by, if any. *)
Definition op_of (x : Hash) (op : batch_op) : Prop :=
  ∃ k v, op = OpSet (encode k) v ∧ wf_key k ∧
    match k with
    | KTxHash y | KRPCtxHash y | KReceipt y | KVirtualRPCtx y => y = x
    | _ => True
    end.

Definition rpc_ops (ops : batch) : batch :=
  filter (λ op, head (op_key op) = Some KeyPrefixRPCtxIndex) ops.

Definition has_set (ops : batch) (key : bytes) : Prop := ∃ v, OpSet key v ∈ ops.

Definition index_ops (hs : list Hash) : batch :=
  imap (λ i x, OpSet (RPCtxIndexKey height (int32 (Z.of_nat i))) x) hs.

(** Logs of the [n]-th visible transaction [x], numbered from [first]. *)
Definition logs_at (first : Z) (x : Hash) (n : nat) (logs : list (option RPCLog)) : Prop :=
  ∀ i log, logs !! i = Some (Some log) →
    l_Index log = uint64 (first + Z.of_nat i) ∧ l_TxHash log = x ∧
    (Z.of_nat n < 2 ^ 31 → l_TxIndex log = Z.of_nat n) ∧
    l_BlockHash log = blockHash block ∧ l_BlockNumber log = uint64 height.

(** [hs] are the hashes of the visible transactions so far. *)
Record loop_inv (s : index_state) (hs : list Hash) : Prop := mkInv {
  li_batch : ∃ sets, s_batch s = dels ++ sets ∧ Forall tx_op sets ∧ rpc_ops sets = index_ops hs ∧
               Forall (λ x, has_set sets (ReceiptKey x) ∧ has_set sets (RPCtxHashKey x)) hs ∧
               Forall (λ op, ∃ x, x ∈ hs ∧ op_of x op) sets;
  li_hashes : Forall Keys.is_hash hs;
  li_rpc : s_rpcTxIndex s = int32 (Z.of_nat (length hs));
  li_eth : is_int32 (s_ethTxIndex s) ∧ (virt = false → s_ethTxIndex s = s_rpcTxIndex s);
  li_visible : virt = true → s_hashes s = hs;
  li_groups : length (s_blockLogs s) = length hs;
  li_flat : s_flatLogs s = mjoin (s_blockLogs s);
  li_log : virt = true → s_logIndex s = uint64 (Z.of_nat (length (s_flatLogs s)));
  li_numbered : virt = true → ∀ n log, s_flatLogs s !! n = Some (Some log) → l_Index log = uint64 (Z.of_nat n);
  li_owner : virt = true → ∀ i x g, hs !! i = Some x → s_blockLogs s !! i = Some g →
               ∃ first, logs_at first x i g;
}.

(** One visible transaction appended. *)
Record pushed (s : index_state) (n : nat) (s' : index_state) (x : Hash) (logs : list (option RPCLog))
    (ops : batch) : Prop := mkPushed {
  pu_hash : Keys.is_hash x;
  pu_batch : s_batch s' = s_batch s ++ ops;
  pu_ops : Forall tx_op ops;
  pu_index : rpc_ops ops = [OpSet (RPCtxIndexKey height (s_rpcTxIndex s)) x];
  pu_receipt : has_set ops (ReceiptKey x);
  pu_rpc_tx : has_set ops (RPCtxHashKey x);
  pu_own : Forall (op_of x) ops;
  pu_rpc : s_rpcTxIndex s' = int32 (s_rpcTxIndex s + 1);
  pu_eth : is_int32 (s_ethTxIndex s') ∧ (virt = false → s_ethTxIndex s' = s_rpcTxIndex s');
  pu_visible : s_hashes s' = if virt then s_hashes s ++ [x] else s_hashes s;
  pu_groups : s_blockLogs s' = s_blockLogs s ++ [logs];
  pu_flat : s_flatLogs s' = s_flatLogs s ++ logs;
  pu_log : virt = true → s_logIndex s' = uint64 (s_logIndex s + Z.of_nat (length logs)) ∧
                         logs_at (s_logIndex s) x n logs;
}.

Lemma has_set_app_l a b key : has_set a key → has_set (a ++ b) key.
Proof. intros [v Hv]. exists v. set_solver. Qed.
Lemma has_set_app_r a b key : has_set b key → has_set (a ++ b) key.
Proof. intros [v Hv]. exists v. set_solver. Qed.

Lemma loop_push s hs s' x logs ops :
  loop_inv s hs → pushed s (length hs) s' x logs ops → loop_inv s' (hs ++ [x]).
Proof.
  intros [(sets & B1 & B2 & B3 & B4 & B5) I1 I2 I3 I4 I5 I6 I7 I8 I9] [P1 P2 P3 P4 P5 P6 Po P7 P8 P9 P10 P11 P12].
  constructor.
  - exists (sets ++ ops). rewrite P2, B1, app_assoc. split_and!; [done|by apply Forall_app_2| | |].
    + unfold rpc_ops, index_ops in *. rewrite filter_app, B3, P4, imap_app, I2. simpl. by rewrite Nat.add_0_r.
    + apply Forall_app_2; [|apply Forall_singleton; auto using has_set_app_r].
      eapply Forall_impl; [exact B4|]. intros y [? ?]. auto using has_set_app_l.
    + apply Forall_app_2.
      * eapply Forall_impl; [exact B5|]. intros op (y & Hy & Ho). exists y. split; [set_solver|done].
      * eapply Forall_impl; [exact Po|]. intros op Ho. exists x. split; [set_solver|done].
  - by apply Forall_app_2; [|apply Forall_singleton].
  - rewrite P7, I2, int32_add_idemp, length_app. f_equal. simpl. lia.
  - done.
  - intros Hv. rewrite P9, Hv, I4 by done. done.
  - rewrite P10, !length_app, I5. done.
  - rewrite P11, P10, I6, join_app. simpl. by rewrite app_nil_r.
  - intros Hv. destruct (P12 Hv) as [-> _]. rewrite I7, P11, length_app by done. rewrite uint64_add_idemp_l. f_equal. lia.
  - intros Hv n log. destruct (P12 Hv) as [_ Hl]. rewrite P11. intros [Hn|[Hle Hn]]%lookup_app_Some; [by apply I8|].
    destruct (Hl _ _ Hn) as [-> _]. rewrite I7 by done. rewrite uint64_add_idemp_l. f_equal. lia.
  - intros Hv i y g. rewrite P10. intros Hi Hg. destruct (P12 Hv) as [_ Hl].
    apply lookup_app_Some in Hi as [Hi|[Hle Hi]].
    + rewrite lookup_app_l in Hg by (rewrite I5; by eapply lookup_lt_Some). by eapply I9.
    + rewrite lookup_app_r in Hg by lia. rewrite I5 in Hg.
      destruct (i - length hs)%nat eqn:E; [|done]. injection Hi as <-. injection Hg as <-.
      replace i with (length hs) by lia. by eexists.
Qed.

(** ** Records of one transaction *)

Context (Hh : 0 ≤ height < 2 ^ 63).

Lemma height_int64 : is_int64 height.
Proof. gate_ints. lia. Qed.

Lemma tx_ops_hash x v : Keys.is_hash x →
  tx_op (OpSet (TxHashKey x) v) ∧ (names_receipt x v → tx_op (OpSet (ReceiptKey x) v)) ∧
  (names_rpc_tx x v → tx_op (OpSet (RPCtxHashKey x) v)) ∧ tx_op (OpSet (VirtualRPCtxKey x) v).
Proof.
  intros Hx. split_and!; [exists (KTxHash x), v|intros Hn; exists (KReceipt x), v|intros Hn; exists (KRPCtxHash x), v|
    exists (KVirtualRPCtx x), v]; by split_and!.
Qed.

Lemma tx_ops_index i x : is_int32 i → Keys.is_hash x →
  tx_op (OpSet (TxIndexKey height i) x) ∧ tx_op (OpSet (RPCtxIndexKey height i) x).
Proof.
  pose proof height_int64. intros Hi Hx.
  split; [exists (KTxIndex height i), x|exists (KRPCtxIndex height i), x]; by split_and!.
Qed.

Lemma op_of_keys x i v w : is_int32 i → Keys.is_hash x →
  op_of x (OpSet (TxHashKey x) v) ∧ op_of x (OpSet (ReceiptKey x) v) ∧ op_of x (OpSet (RPCtxHashKey x) v) ∧
  op_of x (OpSet (VirtualRPCtxKey x) v) ∧ op_of x (OpSet (TxIndexKey height i) w) ∧ op_of x (OpSet (RPCtxIndexKey height i) w).
Proof.
  pose proof height_int64. intros Hi Hx.
  split_and!; [exists (KTxHash x), v|exists (KReceipt x), v|exists (KRPCtxHash x), v|exists (KVirtualRPCtx x), v|
    exists (KTxIndex height i), w|exists (KRPCtxIndex height i), w]; by split_and!.
Qed.

Lemma store_virtual_push s hs tx s' :
  virt = true → loop_inv s hs → store_virtual kv d block s tx = Ok s' →
  int32 (r_TransactionIndex (Receipt_ tx)) = s_rpcTxIndex s → Keys.is_hash (t_Hash (Transaction_ tx)) →
  logs_at (s_logIndex s) (t_Hash (Transaction_ tx)) (length hs) (r_Logs (Receipt_ tx)) →
  (r_TransactionHash (Receipt_ tx), r_BlockHash (Receipt_ tx), r_BlockNumber (Receipt_ tx)) =
    (t_Hash (Transaction_ tx), blockHash block, uint64 height) →
  loop_inv s' (hs ++ [t_Hash (Transaction_ tx)]).
Proof.
  intros Hv Hi H Hidx Hx Hl Hn. unfold store_virtual, saveVirtualTx in H. cbv zeta in H.
  set (x := t_Hash (Transaction_ tx)) in *. apply res_bind_ok in H as (b & Hb & [= <-]).
  unfold wrap_err in Hb. rewrite res_map_err_ok in Hb.
  apply res_bind_ok in Hb as (rbz & Hrbz & Hb). apply res_bind_ok in Hb as (b1 & Hb1%batch_Set_ok & Hb).
  apply res_bind_ok in Hb as (tbz & Htbz & Hb). emit. rewrite Hidx.
  pose proof (li_rpc _ _ Hi) as Hr.
  eapply (loop_push _ _ _ _ (r_Logs (Receipt_ tx))
    [OpSet (ReceiptKey x) rbz; OpSet (RPCtxHashKey x) tbz; OpSet (VirtualRPCtxKey x) [1];
     OpSet (RPCtxIndexKey height (s_rpcTxIndex s)) x]); [done|].
  destruct (tx_ops_hash x rbz Hx) as (_ & T1 & _), (tx_ops_hash x tbz Hx) as (_ & _ & T2 & _),
    (tx_ops_hash x [1] Hx) as (_ & _ & _ & T3).
  assert (names_receipt x rbz) as N1.
  { eexists. split; [exact Hrbz|]. cbn. by injection Hn as -> -> ->. }
  assert (names_rpc_tx x tbz) as N2 by (by eexists).
  destruct (tx_ops_index (s_rpcTxIndex s) x) as [_ T4]; [rewrite Hr; apply int32_range|done|].
  constructor; simpl.
  - done.
  - by rewrite <- !app_assoc.
  - repeat constructor; auto.
  - done.
  - exists rbz. set_solver.
  - exists tbz. set_solver.
  - assert (is_int32 (s_rpcTxIndex s)) as H32 by (rewrite Hr; apply int32_range).
    repeat constructor; by eapply op_of_keys.
  - done.
  - split; [apply (li_eth _ _ Hi)|by rewrite Hv].
  - by rewrite Hv.
  - done.
  - done.
  - by split.
Qed.

(** Synthetic transactions, laid out from the current position. *)
Lemma store_synthetic_fold s hs ctx txs s' :
  virt = true → loop_inv s hs → VirtualResponse.laid_out ctx txs →
  Forall (λ tx, Keys.is_hash (t_Hash (Transaction_ tx))) txs →
  VirtualResponse.c_BlockHash ctx = blockHash block → VirtualResponse.c_BlockNumber ctx = uint64 height →
  int32 (VirtualResponse.c_TxIndex ctx) = s_rpcTxIndex s →
  (Z.of_nat (length hs) < 2 ^ 31 → VirtualResponse.c_TxIndex ctx = Z.of_nat (length hs)) →
  VirtualResponse.c_FirstLogIndex ctx = s_logIndex s →
  res_foldl (store_virtual kv d block) s txs = Ok s' →
  loop_inv s' (hs ++ VirtualResponse.hashes txs).
Proof.
  intros Hv. revert s hs ctx. induction txs as [|tx txs IH]; intros s hs ctx Hi Hlay Hx Hb1 Hb2 Hc1 Hc2 Hc3; cbn [res_foldl].
  { intros [= <-]. by rewrite app_nil_r. }
  intros (s1 & H1 & H2)%res_bind_ok. destruct Hlay as [Hat Hlay]. apply Forall_cons in Hx as [Hx Hxs].
  destruct Hat as (A1 & _ & A3 & A4 & A5 & _ & A7).
  assert (logs_at (s_logIndex s) (t_Hash (Transaction_ tx)) (length hs) (r_Logs (Receipt_ tx))) as Hl.
  { intros i log Hlog. destruct (A7 _ _ Hlog) as (L1 & L2 & L3 & L4 & L5). rewrite A3, L1, L3, L4, L5, Hb1, Hb2, Hc3.
    split_and!; try done. intros Hn. rewrite L2, Hc2 by done. apply uint64_small. gate_ints. lia. }
  pose proof (store_virtual_push _ _ _ _ Hv Hi H1 ltac:(by rewrite A1) Hx Hl ltac:(by rewrite A3, A4, A5, Hb1, Hb2)) as Hi1.
  eapply (IH s1 (hs ++ [t_Hash (Transaction_ tx)])) in H2; [rewrite <- app_assoc in H2; unfold VirtualResponse.hashes; rewrite fmap_cons, <- A3; exact H2|done|exact Hlay|done|done|done|..].
  - pose proof (li_rpc _ _ Hi) as Hr. rewrite (li_rpc _ _ Hi1), length_app. cbn [VirtualResponse.next_context VirtualResponse.c_TxIndex].
    rewrite int32_uint64, <- int32_add_idemp, Hc1, Hr, int32_add_idemp. f_equal. simpl. lia.
  - cbn [VirtualResponse.next_context VirtualResponse.c_TxIndex]. rewrite length_app. simpl. intros Hn.
    rewrite Hc2 by lia. rewrite uint64_small by (gate_ints; lia). lia.
  - cbn [VirtualResponse.next_context VirtualResponse.c_FirstLogIndex]. rewrite Hc3.
    unfold store_virtual in H1. cbv zeta in H1. by apply res_bind_ok in H1 as (b & _ & [= <-]).
Qed.

Lemma hook_txs_hash_wf r counts ctx prev ordinal hooks txs :
  VirtualResponse.hook_txs caller r counts ctx prev ordinal hooks = Ok txs →
  Forall (λ tx, Keys.is_hash (r_TransactionHash (Receipt_ tx))) txs.
Proof.
  revert ctx prev ordinal txs. induction hooks as [|e hooks IH]; intros ctx prev ordinal txs; cbn [VirtualResponse.hook_txs].
  - by intros [= <-].
  - intros (tx & (_ & _ & Ht & _)%VirtualResponse.syntheticTx_spec & (txs' & Hs%IH & [= <-])%res_bind_ok)%res_bind_ok.
    constructor; [|done]. rewrite Ht. unfold VirtualResponse.hook_hash. case_bool_decide; apply Keccak256Hash_wf.
Qed.

Lemma SyntheticTxs_hash_wf r ctx txs :
  VirtualResponse.SyntheticTxs caller r ctx = Ok txs →
  Forall (λ tx, Keys.is_hash (r_TransactionHash (Receipt_ tx))) txs.
Proof.
  assert (∀ r ctx es hook gas tx,
    VirtualResponse.syntheticTx caller r ctx es hook (CosmosTxHash (VirtualResponse.c_Tx ctx)) gas = Ok tx →
    Keys.is_hash (r_TransactionHash (Receipt_ tx))) as Hb.
  { intros ?????? (_ & _ & -> & _)%VirtualResponse.syntheticTx_spec. apply Keccak256Hash_wf. }
  unfold VirtualResponse.SyntheticTxs. destruct (VirtualResponse.bank_entries _) as [|e es], (VirtualResponse.hook_entries _) as [|h hs].
  - by intros [= <-].
  - by intros (counts & _ & ?%hook_txs_hash_wf)%res_bind_ok.
  - intros (tx & Ht%Hb & [= <-])%res_bind_ok. by constructor.
  - intros (counts & _ & H)%res_bind_ok. apply res_bind_ok in H as (tx & Ht & H).
    apply res_bind_ok in H as (txs' & Hs%hook_txs_hash_wf & [= <-]). constructor; [|done]. by eapply (Hb _ _ _ _ _ _ Ht).
Qed.

Lemma laid_out_hashes ctx txs : VirtualResponse.laid_out ctx txs →
  Forall (λ tx, Keys.is_hash (r_TransactionHash (Receipt_ tx))) txs →
  Forall (λ tx, Keys.is_hash (t_Hash (Transaction_ tx))) txs.
Proof.
  revert ctx. induction txs as [|tx txs IH]; intros ctx Hl Hf; constructor.
  - destruct Hl as [(_ & _ & -> & _) _]. by apply Forall_cons in Hf as [? _].
  - destruct Hl as [_ Hl]. apply Forall_cons in Hf as [_ Hf]. by eapply IH.
Qed.

Lemma store_synthetic_inv s hs tx vr idx gas total s' :
  virt = true → loop_inv s hs → store_synthetic caller kv d block s tx vr idx gas total = Ok s' →
  loop_inv s' (hs ++ synthetic_hashes tx vr idx total).
Proof.
  intros Hv Hi (txs & Ht & Hf)%res_bind_ok. apply res_map_err_ok in Ht.
  pose proof (SyntheticTxs_hash_wf _ _ _ Ht) as Hw. pose proof (VirtualResponse.SyntheticTxs_hashes _ _ _ _ Ht) as Hhs. apply VirtualResponse.SyntheticTxs_spec in Ht as (Hl & _ & _).
  pose proof (laid_out_hashes _ _ Hl Hw) as Hw'. pose proof (li_rpc _ _ Hi) as Hr.
  change (synthetic_hashes tx vr idx total) with (VirtualResponse.expected_hashes vr
    (VirtualResponse.mkTxContext tx idx gas total (blockHash block) (uint64 height) (uint64 (s_rpcTxIndex s)) (s_logIndex s)
       (s_gasBefore s) (virtualChainID kv))). rewrite <- Hhs.
  eapply store_synthetic_fold; [done|exact Hi|exact Hl|done|done|done| | |done|exact Hf]; cbn.
  - by rewrite int32_uint64, Hr, int32_idemp.
  - intros Hn. rewrite Hr, int32_small by (gate_ints; lia). apply uint64_small. gate_ints. lia.
Qed.

(** Gas counters are not part of the invariant. *)
Lemma add_gas_inv s hs gas : loop_inv s hs → loop_inv (add_gas s gas) hs.
Proof. intros [? ? ? ? ? ? ? ? ? ?]. by constructor. Qed.

Lemma store_block_tx_inv s hs hash events gas s' :
  (virt = true ∨ events = []) → EthTypes.is_hash hash → loop_inv s hs →
  store_block_tx kv d block s hash events gas = Ok s' → loop_inv s' (hs ++ event_hashes hash events).
Proof.
  intros Hv Hx Hi. destruct events as [|e es]; [intros [= <-]; by rewrite app_nil_r|].
  destruct Hv as [Hv|]; [|done]. unfold store_block_tx. intros H. pose proof (li_rpc _ _ Hi) as Hr.
  apply (store_virtual_push _ _ _ _ Hv Hi H); cbn -[SetLogMetadata].
  - by rewrite !int32_uint64, Hr, int32_idemp.
  - exact Hx.
  - intros i log. unfold VirtualResponse.MaterializeLogs; rewrite SetLogMetadata_lookup. destruct (_ !! i) as [[l0|]|]; cbn; [|done..]. intros [= <-]. cbn.
    split_and!; try done. intros Hn. rewrite Hr, int32_small by (gate_ints; lia). apply uint64_small. gate_ints. lia.
  - done.
Qed.

(** ** Ethereum messages *)

Lemma eth_tx_result_ok ethTxIndex result txs txIndex msgIndex m cumulative r x reason vmError :
  Forall hash_wf (Txs txs) → EthTypes.is_hash (msg_Hash m) →
  eth_tx_result block ethTxIndex result txs txIndex msgIndex m cumulative = Ok (r, x, reason, vmError) →
  EthTypes.is_hash x ∧ txr_Height r = height ∧ txr_EthTxIndex r = ethTxIndex ∧
  eth_msg_hash result txs (msgIndex, EthMsg m) = Some x.
Proof.
  intros Hw Hm. unfold eth_tx_result, eth_msg_hash. case_bool_decide; [by intros [= <- <- _ _]|].
  destruct (GetTxByMsgIndex txs (Z.of_nat msgIndex)) as [t|] eqn:Eg; [|done]. case_bool_decide; [done|].
  intros [= <- <- _ _]. split; [|by split_and!]. unfold GetTxByMsgIndex in Eg. case_bool_decide; [done|].
  by eapply (Forall_lookup_1 _ _ _ _ Hw).
Qed.

(** Metadata numbers the logs from the first index of the context. *)
Lemma SetLogMetadata_at logs logIndex x n rpc :
  rpc = int32 (Z.of_nat n) → logs_at logIndex x n (SetLogMetadata logs (virtualLogContext block logIndex x rpc)).
Proof.
  intros -> i log. rewrite SetLogMetadata_lookup. destruct (logs !! i) as [[l0|]|]; cbn; [|done..]. intros [= <-]. cbn.
  split_and!; try done. intros Hn. rewrite int32_small by (gate_ints; lia). apply uint64_small. gate_ints. lia.
Qed.

Lemma logs_at_app first x n a b :
  logs_at first x n a → logs_at (uint64 (first + Z.of_nat (length a))) x n b → logs_at first x n (a ++ b).
Proof.
  intros Ha Hb i log [Hi|[Hle Hi]]%lookup_app_Some; [by apply Ha|].
  destruct (Hb _ _ Hi) as (-> & R). rewrite uint64_add_idemp_l. split; [f_equal; lia|done].
Qed.

Lemma eth_msg_logs_ok s result vr msgIndex total failed x visible n logs logIndex :
  visible = int32 (Z.of_nat n) → (virt = true → is_Some vr) →
  eth_msg_logs block s result vr msgIndex total failed x visible = Ok (logs, logIndex) →
  virt = true → logIndex = uint64 (s_logIndex s + Z.of_nat (length logs)) ∧ logs_at (s_logIndex s) x n logs.
Proof.
  intros Hvis Hvr (l0 & _ & H)%res_bind_ok Hv. destruct (Hvr Hv) as [r ->].
  apply res_bind_ok in H as (vl & Hvl & [= <- <-]). unfold VirtualResponse.LogsForMessage in Hvl.
  apply res_bind_ok in Hvl as (wl & _ & [= <-]). split.
  - rewrite length_app, !uint64_add_idemp_l. f_equal. lia.
  - apply logs_at_app; by apply SetLogMetadata_at.
Qed.

Lemma store_eth_records_ok b baseFee m txData r x reason vmError logs gas visible b' :
  store_eth_records d block b baseFee m txData r x reason vmError logs gas visible = Ok b' →
  ∃ rbz tbz, b' = b ++ [OpSet (ReceiptKey x) rbz; OpSet (RPCtxHashKey x) tbz; OpSet (RPCtxIndexKey height visible) x] ∧
    names_receipt x rbz ∧ names_rpc_tx x tbz.
Proof.
  unfold store_eth_records. cbv zeta. intros (from & _ & H)%res_bind_ok.
  apply res_bind_ok in H as (rbz & Hr & H). apply res_bind_ok in H as (b1 & H1%batch_Set_ok & H).
  apply res_bind_ok in H as (rt & _ & H). apply res_bind_ok in H as (tbz & Ht & H). emit.
  exists rbz, tbz. rewrite <- !app_assoc. split_and!; [done|by eexists|by eexists].
Qed.

Lemma index_msg_inv baseFee result txs vr txIndex total s hs gas m s' gas' :
  (virt = true → is_Some vr) → Forall hash_wf (Txs txs) →
  (∀ e, m.2 = EthMsg e → EthTypes.is_hash (msg_Hash e)) → loop_inv s hs →
  index_msg kv d block baseFee result txs vr txIndex total (s, gas) m = Ok (s', gas') →
  loop_inv s' (hs ++ option_list (eth_msg_hash result txs m)).
Proof.
  intros Hvr Hw Hm Hi. destruct m as [msgIndex [e|?]]; [|intros [= <- _]; by rewrite app_nil_r].
  specialize (Hm e eq_refl). unfold index_msg. cbv beta iota zeta.
  set (visible := if virt then s_rpcTxIndex s else s_ethTxIndex s).
  assert (visible = s_rpcTxIndex s) as Hvis.
  { unfold visible. destruct (li_eth _ _ Hi) as [_ He]. destruct virt; [done|]. by apply He. }
  clearbody visible. subst visible. pose proof (li_rpc _ _ Hi) as Hr. destruct (li_eth _ _ Hi) as [He1 He2].
  intros ([[[r x] reason] vmError] & Hres & H)%res_bind_ok. apply eth_tx_result_ok in Hres as (Hx & Hrh & Hre & ->); [|done..].
  apply res_bind_ok in H as (b & Hb%res_map_err_ok & H). destruct (msg_AsTransaction e) as [txData|]; [|done].
  apply res_bind_ok in H as ([logs logIndex] & Hlogs & H). apply res_bind_ok in H as (b' & Hb' & [= <- _]).
  unfold saveTxResult in Hb. apply res_bind_ok in Hb as (bz & _ & Hb). emit. rewrite Hrh, Hre in *.
  apply store_eth_records_ok in Hb' as (rbz & tbz & -> & N1 & N2). cbn [option_list].
  destruct (tx_ops_hash x bz Hx) as (T1 & _), (tx_ops_hash x rbz Hx) as (_ & T2 & _), (tx_ops_hash x tbz Hx) as (_ & _ & T3 & _).
  destruct (tx_ops_index (s_ethTxIndex s) x) as [T4 _]; [done..|].
  destruct (tx_ops_index (s_rpcTxIndex s) x) as [_ T5]; [rewrite Hr; apply int32_range|done|].
  eapply (loop_push _ _ _ _ logs [OpSet (TxHashKey x) bz; OpSet (TxIndexKey height (s_ethTxIndex s)) x;
     OpSet (ReceiptKey x) rbz; OpSet (RPCtxHashKey x) tbz; OpSet (RPCtxIndexKey height (s_rpcTxIndex s)) x]); [done|].
  constructor; simpl; try done.
  - by rewrite <- !app_assoc.
  - repeat constructor; auto.
  - exists rbz. set_solver.
  - exists tbz. set_solver.
  - assert (is_int32 (s_rpcTxIndex s)) as H32 by (rewrite Hr; apply int32_range).
    repeat constructor; first [by eapply (op_of_keys _ (s_rpcTxIndex s))|by eapply (op_of_keys _ (s_ethTxIndex s))].
  - split; [apply int32_range|]. intros Hf. by rewrite He2.
  - by eapply eth_msg_logs_ok.
Qed.

Lemma index_msgs_inv baseFee result txs vr txIndex total l s hs gas s' gas' :
  (virt = true → is_Some vr) → Forall hash_wf (Txs txs) →
  (∀ i e, (i, EthMsg e) ∈ l → EthTypes.is_hash (msg_Hash e)) → loop_inv s hs →
  res_foldl (index_msg kv d block baseFee result txs vr txIndex total) (s, gas) l = Ok (s', gas') →
  loop_inv s' (hs ++ omap (eth_msg_hash result txs) l).
Proof.
  intros Hvr Hw. revert s hs gas. induction l as [|[i m] l IH]; intros s hs gas Hm Hi; cbn [res_foldl].
  - intros [= <- _]. by rewrite app_nil_r.
  - intros ([s1 gas1] & H1 & H2)%res_bind_ok.
    apply (index_msg_inv _ _ _ _ _ _ _ hs) in H1; [|done|done|by intros e E; simpl in E; subst m; eapply Hm; left|done].
    eapply IH in H2; [|by intros j e Hj; eapply Hm; right|exact H1]. rewrite <- app_assoc in H2.
    cbn [omap list_omap]. by destruct (eth_msg_hash result txs (i, m)).
Qed.

(** ** Transactions and the block *)

Context (Hdec : ∀ bz tx, TxDecoder bz = Ok tx → tx_hashes_wf tx).

Lemma index_tx_inv baseFee results s hs t s' :
  loop_inv s hs → index_tx caller kv d block baseFee results s t = Ok s' → loop_inv s' (hs ++ tx_hashes results t).
Proof.
  intros Hi. destruct t as [txIndex txBz]. unfold index_tx, tx_hashes. cbn [fst snd]. cbv beta iota zeta.
  destruct (results !! txIndex) as [[result|]|]; [|done..].
  intros (tx & Htx%res_map_err_ok & H)%res_bind_ok. rewrite Htx. apply Hdec in Htx.
  apply res_bind_ok in H as (vr & Hvr & H).
  assert (if virt then ∃ r, vr = Some r ∧ VirtualResponse.ParseResponse (Some result) = Ok r else vr = None) as Hvs.
  { destruct virt; [|by injection Hvr as <-]. apply res_bind_ok in Hvr as (r & Hr%res_map_err_ok & [= <-]). by exists r. }
  clear Hvr.
  assert (∀ s hs gas s', loop_inv s hs →
    match vr with
    | Some vr => store_synthetic caller kv d block s txBz vr (eth_indexes (GetMsgs tx)) gas (Z.of_nat (length (GetMsgs tx)))
    | None => Ok s
    end = Ok s' → loop_inv s' (hs ++ virtual_hashes result txBz tx)) as Hsyn.
  { intros s0 hs0 gas s0' Hi0. unfold virtual_hashes. destruct virt eqn:Ev.
    - destruct Hvs as (r & -> & ->). by apply store_synthetic_inv.
    - subst vr. intros [= <-]. by rewrite app_nil_r. }
  unfold eth_hashes. destruct (isEthTx tx); cbn [negb] in H.
  - apply res_bind_ok in H as (txs & Hp%res_map_err_ok & H). rewrite Hp. apply ParseTxResult_hashes in Hp; [|done].
    apply res_bind_ok in H as ([s1 gas] & H1 & H). apply res_bind_ok in H as (s2 & H2 & [= <-]).
    eapply index_msgs_inv in H1; [| |done| |exact Hi].
    3: { intros i e Hin. apply Htx. apply elem_of_lookup_imap in Hin as (j & m & [= -> ->] & Hj).
         by eapply list_elem_of_lookup_2. }
    2: { intros E. rewrite E in Hvs. by destruct Hvs as (r & -> & _). }
    eapply Hsyn in H2; [|exact H1]. rewrite <- app_assoc in H2. by apply add_gas_inv.
  - apply res_bind_ok in H as (s1 & H1 & [= <-]). eapply Hsyn in H1; [|exact Hi]. by apply add_gas_inv.
Qed.

Lemma index_txs_inv baseFee results l s hs s' :
  loop_inv s hs → res_foldl (index_tx caller kv d block baseFee results) s l = Ok s' →
  loop_inv s' (hs ++ (l ≫= tx_hashes results)).
Proof.
  revert s hs. induction l as [|t l IH]; intros s hs Hi; cbn [res_foldl].
  - intros [= <-]. by rewrite app_nil_r.
  - intros (s1 & H1 & H2)%res_bind_ok. eapply index_tx_inv in H1; [|exact Hi].
    eapply IH in H2; [|exact H1]. by rewrite bind_cons, app_assoc.
Qed.

Lemma loop_inv_init : loop_inv (mkState dels 0 0 0 0 0 [] [] [] 0) [].
Proof.
  constructor; simpl; try done; try (by intros _; vm_compute).
  - exists []. split_and!; [by rewrite app_nil_r|constructor|done|constructor|constructor].
Qed.
End loop.
End IndexerLoop.
