(* ===== verification/IndexerBatch.v ===== *)
(** * The batch of a block, written

    What the batch built by IndexBlock does to the store: the block's own
    records, the RPC index of its height, and the records of other blocks. *)

From Stdlib Require Import Ascii String.
From S2P Require Import Prelude Bytes Instances GoLib EthTypes EthInstances Keys ParsedTx Normalize.
From S2P Require Import Virtual VirtualBank VirtualIbc VirtualResponse RpcUtils Cached Codec Indexer.
From S2P Require Import IndexerStore IndexerLoop.
From stdpp Require Import strings list.
#[local] Open Scope Z_scope.

Module IndexerBatch.
Import GoLib EthTypes Keys ParsedTx Normalize Virtual RpcUtils Cached Codec Indexer IndexerStore IndexerLoop.

(** ** Applying operations *)

(** Only the operations on keys of one family matter to a key of that family. *)
Lemma apply_ops_filter (P : bytes → Prop) `{∀ k, Decision (P k)} m1 m2 ops key :
  P key → m1 !! key = m2 !! key →
  apply_ops m1 ops !! key = apply_ops m2 (filter (λ op, P (op_key op)) ops) !! key.
Proof.
  intros Hk. revert m1 m2. induction ops as [|op ops IH]; intros m1 m2 Hm; [done|].
  rewrite filter_cons. case_decide as Hp; simpl; apply IH.
  - destruct op as [k v|k]; simpl; destruct (decide (k = key)) as [->|Hne]; by simplify_map_eq.
  - assert (op_key op ≠ key) as Hne by congruence. destruct op as [k v|k]; simpl in *; by simplify_map_eq.
Qed.

Definition is_set (op : batch_op) : Prop := match op with OpSet _ _ => True | OpDelete _ => False end.

(** After assignments only, an assigned key has one of the assigned values. *)
Lemma apply_sets_lookup m ops key :
  Forall is_set ops →
  apply_ops m ops !! key = m !! key ∨ ∃ v, OpSet key v ∈ ops ∧ apply_ops m ops !! key = Some v.
Proof.
  intros Hs. revert m. induction Hs as [|op ops Hop _ IH]; intros m; [by left|].
  destruct op as [k w|?]; [|done]. simpl. destruct (IH (<[k := w]> m)) as [->|(v & Hv & ->)].
  - destruct (decide (k = key)) as [->|Hne]; simplify_map_eq; [|by left].
    right. exists w. split; [by left|done].
  - right. exists v. split; [by right|done].
Qed.

Lemma apply_sets_value m ops key v :
  Forall is_set ops → OpSet key v ∈ ops → ∃ w, OpSet key w ∈ ops ∧ apply_ops m ops !! key = Some w.
Proof.
  intros Hs Hin. apply list_elem_of_split in Hin as (a & b & ->). rewrite apply_ops_app. simpl.
  apply Forall_app in Hs as [_ Hs]. apply Forall_cons in Hs as [_ Hs].
  destruct (apply_sets_lookup (<[key := v]> (apply_ops m a)) b key Hs) as [->|(w & Hw & ->)].
  - exists v. simplify_map_eq. split; [set_solver|done].
  - exists w. split; [set_solver|done].
Qed.

Section batch.
Context {D : Type} {DB : KVDB D} {DBL : KVDBLaws D} {SD : SDK} {SDL : SDKLaws} {EL : EthLib} {ELL : EthLibLaws}
        {CL : ChainLib} {LJ : LogJSON} {PB : Proto} {BL : Bank.BankLib} {IL : Ibc.IbcLib}
        {CP : CapnpLib} {LG : LegacyLib}.
Context (caller : string) (kv : KVIndexer) (d : D) (block : Block).
Context (Hh : 0 ≤ blk_Height block < 2 ^ 63) (Hdec : ∀ bz tx, TxDecoder bz = Ok tx → tx_hashes_wf tx).

Notation height := (blk_Height block).

(** The records written after the loop. *)
Definition block_ops (metaBz logsBz : bytes) : batch :=
  [OpSet (BlockMetaKey height) metaBz; OpSet (BlockHashKey (blockHash block)) (Uint64ToBigEndian (uint64 height));
   OpSet (BlockLogsKey height) logsBz].

(** The begin- and end-block events that become transactions. *)
Definition block_events (blockResults : option ResultBlockResults) : res error (list (option EthLog) * list (option EthLog)) :=
  match blockResults with
  | Some r =>
      if virtualizationEnabled kv then
        res_map_err (λ e, newBlockParseError (Some e) "block %d: failed to parse finalize virtual events")
          (VirtualResponse.SplitBlockEvents (br_FinalizeBlockEvents r))
      else Ok ([], [])
  | None => Ok ([], [])
  end.

(** The loop of the indexer, up to its last state. *)
Definition run_loop (blockResults : option ResultBlockResults) : res error index_state :=
  let! results := NormalizeTxResponseIndexes (blockTxResults blockResults) in
  let! (beginEvents, endEvents) := block_events blockResults in
  let! s := store_block_tx kv d block (mkState (reset_ops d height) 0 0 0 0 0 [] [] [] 0) (BeginBlockHash height) beginEvents 0 in
  let! s := res_foldl (index_tx caller kv d block (blockBaseFeeFromResults blockResults) results) s (imap pair (blk_Txs block)) in
  store_block_tx kv d block s (EndBlockHash height) endEvents (s_gasBefore s).

(** The visible transactions of a block: begin-block events, the transactions in
    block order, end-block events. *)
Definition visible_hashes (blockResults : option ResultBlockResults) : list Hash :=
  match NormalizeTxResponseIndexes (blockTxResults blockResults), block_events blockResults with
  | Ok results, Ok (beginEvents, endEvents) =>
      event_hashes (BeginBlockHash height) beginEvents ++
      (imap pair (blk_Txs block) ≫= tx_hashes kv results) ++
      event_hashes (EndBlockHash height) endEvents
  | _, _ => []
  end.

(** A built batch: a reset, the records of the loop, the records of the block. *)
Record built (blockResults : option ResultBlockResults) (b : batch) (s : index_state) (hs : list Hash)
    (meta : CachedBlockMeta) (metaBz logsBz : bytes) : Prop := mkBuilt {
  bu_reads : reset_reads d height;
  bu_inv : loop_inv kv block (reset_ops d height) s hs;
  bu_visible : hs = visible_hashes blockResults;
  bu_meta : ∃ root, transactions_root kv block s = Ok root ∧
                    meta = block_meta kv block s root (blockBaseFeeFromResults blockResults);
  bu_metaBz : mustMarshalBlockMeta meta = Ok metaBz;
  bu_logsBz : mustMarshalBlockLogs (s_blockLogs s) = Ok logsBz;
  bu_batch : b = s_batch s ++ block_ops metaBz logsBz;
}.

Lemma build_batch_ok blockResults b stats :
  build_batch caller kv d block blockResults = Ok (b, stats) →
  ∃ s hs meta metaBz logsBz, built blockResults b s hs meta metaBz logsBz ∧ run_loop blockResults = Ok s.
Proof.
  unfold build_batch. intros (b0 & [-> Hr]%resetBlock_ok & H)%res_bind_ok.
  apply res_bind_ok in H as (results & Hn%res_map_err_ok & H). rewrite app_nil_l in H.
  pose proof (loop_inv_init kv block (reset_ops d height)) as Hi.
  apply res_bind_ok in H as ([beginEvents endEvents] & Hev & H).
  assert (virtualizationEnabled kv = true ∨ (beginEvents = [] ∧ endEvents = [])) as Hv.
  { destruct blockResults as [r|]; [|injection Hev as <- <-; auto].
    destruct (virtualizationEnabled kv); [by left|]. injection Hev as <- <-; auto. }
  apply res_bind_ok in H as (s1 & H1 & H). apply res_bind_ok in H as (s2 & H2 & H).
  apply res_bind_ok in H as (s3 & H3 & H).
  assert (run_loop blockResults = Ok s3) as Hrun.
  { unfold run_loop. rewrite Hn. cbn [res_bind]. unfold block_events. rewrite Hev. cbn [res_bind]. rewrite H1. cbn [res_bind].
    rewrite H2. cbn [res_bind]. exact H3. }
  eapply store_block_tx_inv in H1; [|done|naive_solver|apply Keccak256Hash_wf|exact Hi].
  eapply index_txs_inv in H2; [|done|exact Hdec|exact H1].
  eapply store_block_tx_inv in H3; [|done|naive_solver|apply Keccak256Hash_wf|exact H2].
  apply res_bind_ok in H as (root & Hroot & H). apply res_bind_ok in H as (metaBz & Hm & H).
  apply res_bind_ok in H as (b1 & Hb1%batch_Set_ok & H). apply res_bind_ok in H as (b2 & Hb2%batch_Set_ok & H).
  apply res_bind_ok in H as (logsBz & Hl & H). apply res_bind_ok in H as (b3 & Hb3%batch_Set_ok & [= <- _]).
  eexists s3, _, _, metaBz, logsBz. split; [|exact Hrun].
  split; [done|exact H3| |by exists root|done|done|].
  - unfold visible_hashes. rewrite Hn. unfold block_events. rewrite Hev. by rewrite <- !app_assoc.
  - subst. by rewrite <- !app_assoc.
Qed.

(** ** The store after the write *)

Section written.
Context (Hwf : wf_store (contents d)).
Context (blockResults : option ResultBlockResults) (b : batch) (s : index_state) (hs : list Hash)
        (meta : CachedBlockMeta) (metaBz logsBz : bytes).
Context (Hb : built blockResults b s hs meta metaBz logsBz) (Hblk : wf_bytes (blk_Hash block)).

Notation final := (apply_ops (contents d) b).

Lemma blockHash_wf : Keys.is_hash (blockHash block).
Proof. apply BytesToHash_wf, Hblk. Qed.

(** The assignments: every one is a record of this block. *)
Lemma written_sets : ∃ sets,
  b = reset_ops d height ++ (sets ++ block_ops metaBz logsBz) ∧ Forall (tx_op block) sets ∧
  rpc_ops sets = index_ops block hs ∧
  Forall (λ x, has_set sets (ReceiptKey x) ∧ has_set sets (RPCtxHashKey x)) hs ∧
  Forall (λ op, ∃ x, x ∈ hs ∧ op_of x op) sets.
Proof.
  destruct (li_batch _ _ _ _ _ (bu_inv _ _ _ _ _ _ _ Hb)) as (sets & E & ? & ? & ? & ?). exists sets.
  rewrite (bu_batch _ _ _ _ _ _ _ Hb), E, <- app_assoc. done.
Qed.

Definition block_op (op : batch_op) : Prop :=
  ∃ k v, op = OpSet (encode k) v ∧ wf_record k v ∧
    match k with
    | KTraceTx _ _ | KTraceBlock _ _ => False
    | KBlockHash x => x = blockHash block
    | KTxHash _ | KRPCtxHash _ | KReceipt _ | KVirtualRPCtx _ => True
    | KTxIndex n _ | KRPCtxIndex n _ | KBlockMeta n | KBlockLogs n => n = height
    end.

Lemma written_block_ops sets : Forall (tx_op block) sets → Forall block_op (sets ++ block_ops metaBz logsBz).
Proof.
  intros Hs. pose proof (height_int64 block Hh) as H64. apply Forall_app_2.
  - eapply Forall_impl; [exact Hs|]. intros op (k & v & -> & Hr & Hk). exists k, v. by destruct k.
  - repeat constructor; [exists (KBlockMeta height), metaBz|exists (KBlockHash (blockHash block)), (Uint64ToBigEndian (uint64 height))|exists (KBlockLogs height), logsBz];
      by split_and!; [| split; [first [exact H64|apply blockHash_wf]|] | ].
Qed.

Lemma block_op_set ops : Forall block_op ops → Forall is_set ops.
Proof. intros Hs. eapply Forall_impl; [exact Hs|]. by intros op (k & v & -> & _). Qed.

Lemma block_op_key ops k : Forall block_op ops → wf_key k → encode k ∈ op_key <$> ops →
  match k with
  | KTraceTx _ _ | KTraceBlock _ _ => False
  | KBlockHash x => x = blockHash block
  | KTxHash _ | KRPCtxHash _ | KReceipt _ | KVirtualRPCtx _ => True
  | KTxIndex n _ | KRPCtxIndex n _ | KBlockMeta n | KBlockLogs n => n = height
  end.
Proof.
  intros Hs Hk (op & E & Hop)%list_elem_of_fmap. rewrite Forall_forall in Hs.
  destruct (Hs _ Hop) as (k' & v & -> & [Hk' _] & Hm). simpl in E. by apply encode_inj in E as ->.
Qed.

Lemma reset_subset key v : apply_ops (contents d) (reset_ops d height) !! key = Some v → contents d !! key = Some v.
Proof.
  destruct (decide (key ∈ op_key <$> reset_ops d height)) as [(op & E & Hop)%list_elem_of_fmap|Hn];
    [|by rewrite apply_ops_other].
  pose proof (bu_reads _ _ _ _ _ _ _ Hb) as Hr.
  destruct (reset_sound d height Hh Hwf op Hr Hop) as (k & -> & Hk & Ho). simpl in E. subst key.
  by rewrite (reset_owned d height Hh Hwf k Hr Hk Ho).
Qed.

Lemma final_wf : wf_store final.
Proof.
  destruct written_sets as (sets & Eb & Hs%written_block_ops & _). intros key v. rewrite Eb, apply_ops_app.
  destruct (apply_sets_lookup (apply_ops (contents d) (reset_ops d height)) _ key (block_op_set _ Hs)) as [->|(w & Hin & ->)].
  - intros Hv%reset_subset. by apply Hwf.
  - intros [= <-]. rewrite Forall_forall in Hs. destruct (Hs _ Hin) as (k & v & [= -> ->] & Hr & _). by exists k.
Qed.

(** Records of other heights are not touched. *)
Lemma final_other k n : wf_key k → height_key k = Some n → n ≠ height → final !! encode k = contents d !! encode k.
Proof.
  intros Hk Hn Hne. destruct written_sets as (sets & Eb & Hs%written_block_ops & _). rewrite Eb, apply_ops_app.
  rewrite apply_ops_other.
  - apply reset_not_owned; [done..|apply (bu_reads _ _ _ _ _ _ _ Hb)|done|].
    intros Ho. apply Hne. destruct k; simpl in *; congruence.
  - intros Hin. apply (block_op_key _ _ Hs Hk) in Hin. destruct k; simpl in *; congruence.
Qed.

(** The records of the block: those of its height, its hash and its transactions. *)
Definition block_key (k : record_key) : Prop :=
  match k with
  | KTraceTx _ _ | KTraceBlock _ _ => False
  | KBlockHash x => x = blockHash block
  | KTxHash x | KRPCtxHash x | KReceipt x | KVirtualRPCtx x => x ∈ hs
  | KTxIndex n _ | KRPCtxIndex n _ | KBlockMeta n | KBlockLogs n => n = height
  end.

(** Only these are written after the reset. *)
Lemma final_unwritten k :
  wf_key k → ¬ block_key k → final !! encode k = apply_ops (contents d) (reset_ops d height) !! encode k.
Proof.
  intros Hk Hn. destruct written_sets as (sets & Eb & Hs & _ & _ & Hown).
  pose proof (written_block_ops _ Hs) as Hbo. rewrite Eb, apply_ops_app. apply apply_ops_other.
  intros Hin. apply Hn.
  apply list_elem_of_fmap in Hin as (op & E & [Hop|Hop]%elem_of_app).
  - rewrite Forall_forall in Hown, Hbo. destruct (Hown _ Hop) as (x & Hx & k' & v & -> & Hk' & Hm).
    apply encode_inj in E as ->; [|done..].
    destruct (Hbo (OpSet (encode k') v)) as (k & w & [= E _] & [Hk2 _] & Hm2); [by apply elem_of_app; left|].
    apply encode_inj in E as <-; [|done..]. destruct k'; simpl in *; by subst.
  - unfold block_ops in Hop. pose proof (height_int64 block Hh) as H64.
    assert (k = KBlockMeta height ∨ k = KBlockHash (blockHash block) ∨ k = KBlockLogs height) as [->|[->| ->]]; [|done..].
    repeat apply elem_of_cons in Hop as [->|Hop]; [..|by apply not_elem_of_nil in Hop]; cbn in E;
      [left; apply (encode_inj _ (KBlockMeta _)) in E|right; left; apply (encode_inj _ (KBlockHash _)) in E|
       right; right; apply (encode_inj _ (KBlockLogs _)) in E]; done || apply blockHash_wf.
Qed.

(** Of the records the block does not write, those of an earlier indexing of the
    height are gone and the others are not touched. *)
Lemma final_frame k : wf_key k → ¬ block_key k →
  (owned (contents d) height k → final !! encode k = None) ∧
  (¬ owned (contents d) height k → final !! encode k = contents d !! encode k).
Proof.
  intros Hk Hn. rewrite (final_unwritten k Hk Hn). pose proof (bu_reads _ _ _ _ _ _ _ Hb) as Hr.
  split; intros Ho; [by apply reset_owned|by apply reset_not_owned].
Qed.

(** Block traces of the height are dropped. *)
Lemma final_trace digest : Keys.is_hash digest → final !! encode (KTraceBlock height digest) = None.
Proof.
  intros Hd. assert (wf_key (KTraceBlock height digest)) as Hk by (split; [by apply height_int64|done]).
  destruct written_sets as (sets & Eb & Hs%written_block_ops & _). rewrite Eb, apply_ops_app, apply_ops_other.
  - apply reset_owned; [done..|apply (bu_reads _ _ _ _ _ _ _ Hb)|done|done].
  - by intros Hin%(block_op_key _ _ Hs Hk).
Qed.

Lemma final_block :
  final !! BlockMetaKey height = Some metaBz ∧ final !! BlockLogsKey height = Some logsBz ∧
  final !! BlockHashKey (blockHash block) = Some (Uint64ToBigEndian (uint64 height)).
Proof.
  destruct written_sets as (sets & -> & _). rewrite app_assoc, apply_ops_app. unfold block_ops. simpl.
  split_and!.
  - rewrite !lookup_insert_ne by done. apply lookup_insert_eq.
  - apply lookup_insert_eq.
  - rewrite lookup_insert_ne by done. apply lookup_insert_eq.
Qed.

(** Every visible transaction has a receipt and an RPC transaction that name it. *)
Lemma final_present x : x ∈ hs →
  (∃ v, final !! ReceiptKey x = Some v ∧ names_receipt block x v) ∧
  (∃ v, final !! RPCtxHashKey x = Some v ∧ names_rpc_tx x v).
Proof.
  intros Hx. destruct written_sets as (sets & -> & Hs & _ & Hp & _). rewrite app_assoc, apply_ops_app.
  rewrite Forall_forall in Hp. destruct (Hp _ Hx) as [[v Hv] [w Hw]].
  assert (Keys.is_hash x) as Hxh.
  { pose proof (li_hashes _ _ _ _ _ (bu_inv _ _ _ _ _ _ _ Hb)) as Hhs. rewrite Forall_forall in Hhs. by apply Hhs. }
  assert (Forall is_set sets) as Hset by (eapply Forall_impl; [exact Hs|]; by intros op (? & ? & -> & _)).
  rewrite Forall_forall in Hs. split; rewrite apply_ops_other, apply_ops_app by (cbn; set_solver).
  - destruct (apply_sets_value (apply_ops (contents d) (reset_ops d height)) _ _ _ Hset Hv) as (v' & Hv' & ->).
    destruct (Hs _ Hv') as (k & ? & [= E ->] & [Hk _] & N).
    apply (encode_inj (KReceipt x)) in E as <-; [|done..]. by eexists.
  - destruct (apply_sets_value (apply_ops (contents d) (reset_ops d height)) _ _ _ Hset Hw) as (v' & Hv' & ->).
    destruct (Hs _ Hv') as (k & ? & [= E ->] & [Hk _] & N).
    apply (encode_inj (KRPCtxHash x)) in E as <-; [|done..]. by eexists.
Qed.

Lemma index_ops_lookup m l j :
  is_int32 j → Z.of_nat (length l) ≤ 2 ^ 31 → m !! RPCtxIndexKey height j = None →
  apply_ops m (index_ops block l) !! RPCtxIndexKey height j = if bool_decide (0 ≤ j) then l !! Z.to_nat j else None.
Proof.
  intros Hj Hlen Hm. induction l as [|x l IH] using rev_ind; [simpl; by rewrite Hm, lookup_nil; case_bool_decide|].
  rewrite length_app in Hlen. simpl in Hlen. unfold index_ops in *. rewrite imap_app, apply_ops_app. simpl.
  rewrite Nat.add_0_r, int32_small by (gate_ints; lia).
  destruct (decide (j = Z.of_nat (length l))) as [->|Hne].
  - rewrite lookup_insert_eq, bool_decide_eq_true_2 by lia. rewrite Nat2Z.id. by rewrite list_lookup_middle.
  - rewrite lookup_insert_ne, IH by (done || lia || (intros E; apply Hne; apply (encode_inj (KRPCtxIndex _ _) (KRPCtxIndex _ _)) in E;
      [by injection E|split; [by apply height_int64|gate_ints; lia]|split; [by apply height_int64|done]])).
    case_bool_decide; [|done]. destruct (decide (Z.to_nat j < length l)%nat).
    + by rewrite lookup_app_l.
    + rewrite lookup_ge_None_2 by lia. symmetry. apply lookup_ge_None_2. rewrite length_app. simpl. lia.
Qed.

(** The RPC index of the height lists [hs]. *)
Lemma final_rpc j : is_int32 j → Z.of_nat (length hs) ≤ 2 ^ 31 →
  final !! RPCtxIndexKey height j = if bool_decide (0 ≤ j) then hs !! Z.to_nat j else None.
Proof.
  intros Hj Hlen. destruct written_sets as (sets & -> & Hs & Hr & _). rewrite apply_ops_app.
  rewrite (apply_ops_filter (λ k, head k = Some KeyPrefixRPCtxIndex) _ (apply_ops (contents d) (reset_ops d height))) by done.
  rewrite filter_app. unfold rpc_ops in Hr. rewrite Hr. rewrite app_nil_r. apply index_ops_lookup; [done..|].
  apply (reset_owned d height Hh Hwf (KRPCtxIndex height j)); [apply (bu_reads _ _ _ _ _ _ _ Hb)| |done].
  split; [by apply height_int64|done].
Qed.
End written.
End batch.
End IndexerBatch.
