(* ===== verification/IndexerSample.v ===== *)
(** * A concrete block

    Concrete library functions and a virtualised block with a begin-block
    event, an Ethereum transaction and a Cosmos transaction with two bank events,
    indexed into an in-memory store. *)

From Stdlib Require Import Ascii String.
From S2P Require Import Prelude Ranges Bytes Instances GoLib EthTypes EthInstances Keys ParsedTx.
From S2P Require Import Normalize Virtual VirtualBank VirtualIbc VirtualResponse RpcUtils Cached Codec.
From S2P Require Import CodecInstances Indexer IndexerStore IndexerLoop.
From stdpp Require Import strings list.
#[local] Open Scope Z_scope.

Module IndexerSample.
Import GoLib EthTypes EthInstances Keys ParsedTx Normalize Virtual Codec CodecInstances Indexer IndexerStore IndexerLoop.

#[export] Existing Instance ParsedTx.sample_json.
#[export] Existing Instance Normalize.sample_proto.

#[export] Instance sample_BankLib : Bank.BankLib := {|
  Bank.ParseCoinsNormalized _ := Ok [("inj"%string, 5)];
  Bank.bech32_DecodeAndConvert _ := Ok (replicate 20 1);
  Bank.denomAmountArgs_Pack _ amount := Ok [amount];
|}.

#[export] Instance sample_IbcLib : Ibc.IbcLib := {|
  Ibc.ErrorAttributeKeyPrefix := "ibccallbackerror-";
  Ibc.ParseTypedEvent _ := Ok None;
  Ibc.summaryArgs_Pack _ _ _ _ _ _ := Ok [];
|}.

#[export] Instance sample_TraceKey : TraceKey unit := {
  sonic_marshal_config _ := Ok [];
  sha256 b := be_bytes 32 (be_value b);
  marshal_error_text _ := [];
}.
#[export] Instance sample_TraceKeyLaws : TraceKeyLaws unit.
Proof. split; intros b; [apply be_bytes_length|apply be_bytes_wf]. Qed.

Definition eth_hash : Hash := be_bytes 32 77.

Definition sample_eth_tx : Transaction :=
  mkTransaction eth_hash 0 true 1776 7 (Some (be_bytes 20 9)) 21000 1 1 1 0 [] [] 0 0 0.

Definition sample_msg : MsgEthereumTx :=
  mkMsgEthereumTx 21000 eth_hash (Some sample_eth_tx) (λ _, Ok (be_bytes 20 8)).

(** [1] is an Ethereum transaction, [2] a Cosmos transaction of two messages. *)
Definition sample_decoder (bz : bytes) : res string sdk_Tx :=
  match bz with
  | [1] => Ok (mkSdkTx [EthMsg sample_msg] (Some ["/injective.evm.v1.ExtensionOptionsEthereumTx"%string]))
  | [2] => Ok (mkSdkTx [OtherMsg "/cosmos.bank.v1beta1.MsgSend"; OtherMsg "/cosmos.bank.v1beta1.MsgSend"] None)
  | _ => Err "tx parse error"%string
  end.

#[export] Instance sample_ChainLib : ChainLib := model_ChainLib sample_decoder (λ _ _ _, Ok []).

Definition sample_transfer (mode : list EventAttribute) : Event :=
  mkEvent "transfer" ([mkAttr "sender" "0x0a" true; mkAttr "recipient" "0x0b" true; mkAttr "amount" "5inj" true] ++ mode).

(** The Ethereum transaction ran out of block gas; the Cosmos transaction moved
    coins in both messages. *)
Definition sample_results : ResultBlockResults :=
  mkBlockResults 12
    [Some (mkExecTxResult 11 [] "out of gas" 21000 [] "sdk");
     Some (mkExecTxResult 0 [] "" 900
       [sample_transfer [mkAttr "msg_index" "0" true]; sample_transfer [mkAttr "msg_index" "1" true]] "")]
    [sample_transfer [mkAttr "mode" "BeginBlock" true]].

Definition sample_block : Block :=
  mkBlock 12 [[1]; [2]] (be_bytes 32 1000) (be_bytes 32 999) (be_bytes 32 3) (be_bytes 32 4) (be_bytes 20 5) 1700000000 512.

Definition sample_indexer : KVIndexer :=
  NewKVIndexer [WithCachedBlockGasLimit 50000000; WithVirtualCosmosEvents true "1776"].

Definition sample_run : res error BlockIndexStats * gmap bytes bytes :=
  indexBlockWithStats "0x01" sample_indexer (∅ : gmap bytes bytes) sample_block (Some sample_results).

(** The store after the run; its payloads are left unevaluated. *)
Definition sample_store : gmap bytes bytes := sample_run.2.

Lemma sample_run_ok : sample_run = (Ok (mkStats 1), sample_store).
Proof.
  unfold sample_store. rewrite (surjective_pairing sample_run) at 1. apply (f_equal2 pair); reflexivity.
Qed.

Lemma sample_decodes bz tx : TxDecoder bz = Ok tx → tx_hashes_wf tx.
Proof.
  cbn. intros H m Hin. assert (m = sample_msg) as ->.
  { destruct bz as [|[|p|] [|]]; try done; do 3 (try (destruct p as [p|p|]; try done)); injection H as <-;
      cbn in Hin; apply elem_of_cons in Hin as [|Hin]; set_solver. }
  split; [apply be_bytes_length|apply be_bytes_wf].
Qed.

Lemma empty_store_wf : wf_store (contents (∅ : gmap bytes bytes)).
Proof. by intros key v. Qed.

Lemma sample_block_wf : 0 ≤ blk_Height sample_block < 2 ^ 63 ∧ wf_bytes (blk_Hash sample_block).
Proof. split; [cbn; lia|apply be_bytes_wf]. Qed.
End IndexerSample.
