(* ===== verification/IndexerProps.v ===== *)
(** * Correctness of the indexer

    Writing a block and reading it back, deleting it, isolation between blocks,
    the RPC transaction index, log numbering, the trace cache and the scan that
    finds the indexed heights. *)

From Stdlib Require Import Ascii String.
From S2P Require Import Prelude Ranges Bytes Instances GoLib EthTypes EthInstances Keys ParsedTx.
From S2P Require Import Normalize Virtual VirtualBank VirtualIbc VirtualResponse RpcUtils Cached Codec.
From S2P Require Import CodecInstances CodecProps Indexer IndexerQuery IndexerStore IndexerLoop.
From S2P Require Import IndexerBatch IndexerSample.
From stdpp Require Import strings list.
#[local] Open Scope Z_scope.

Module IndexerProps.
Import GoLib EthTypes Keys ParsedTx Normalize Virtual RpcUtils Cached Codec CodecProps Ranges Indexer IndexerQuery
  IndexerStore IndexerLoop IndexerBatch.

Section props.
Context {D : Type} {DB : KVDB D} {DBL : KVDBLaws D} {DBR : KVDBReliable D} {SD : SDK} {SDL : SDKLaws} {EL : EthLib}
        {ELL : EthLibLaws} {CL : ChainLib} {LJ : LogJSON} {PB : Proto} {BL : Bank.BankLib} {IL : Ibc.IbcLib}
        {CP : CapnpLib} {CPL : CapnpLaws} {LG : LegacyLib}.
Context (caller : string).
Context {Config : Type} {TK : TraceKey Config} {TKL : TraceKeyLaws Config}.

(** ** Reading *)

Lemma db_get_reliable d k : db_get d k = Ok (default [] (contents d !! k)).
Proof.
  pose proof (db_get_total d k) as Ht. destruct (db_get d k) as [v| |] eqn:E; [|done..].
  by rewrite (db_get_ok _ _ _ E).
Qed.

Lemma get_record_present d k v msg absent :
  contents d !! k = Some v → v ≠ [] → get_record d k msg absent = Ok v.
Proof.
  intros Hl Hv. unfold get_record. rewrite db_get_reliable, Hl. simpl. by destruct v.
Qed.

Lemma get_record_absent d k msg absent :
  contents d !! k = None → get_record d k msg absent = Err absent.
Proof. intros Hl. unfold get_record. by rewrite db_get_reliable, Hl. Qed.

Lemma payload_nonempty m bz : mustCapnpPayload m = Ok bz → bz ≠ [].
Proof. unfold mustCapnpPayload. destruct m; [|done..]. by intros [= <-]. Qed.

(** ** A written block *)

(** What a successful run of the indexer wrote. *)
Lemma indexBlock_ran kv d block results stats d' :
  0 ≤ blk_Height block < 2 ^ 63 → (∀ bz tx, TxDecoder bz = Ok tx → tx_hashes_wf tx) →
  indexBlockWithStats caller kv d block results = (Ok stats, d') →
  ∃ b s hs meta metaBz logsBz, (built kv d block results b s hs meta metaBz logsBz ∧ run_loop caller kv d block results = Ok s) ∧
    contents d' = apply_ops (contents d) b.
Proof.
  intros Hh Hdec. unfold indexBlockWithStats.
  destruct (build_batch caller kv d block results) as [[b st]| |] eqn:Eb; [|done..].
  destruct (build_batch_ok caller kv d block Hh Hdec _ _ _ Eb) as (s & hs & meta & metaBz & logsBz & Hb).
  unfold batch_Write. destruct (db_write d b) as [[e|] dw] eqn:Ew; [done|]. intros [= _ <-].
  exists b, s, hs, meta, metaBz, logsBz. split; [done|]. by apply db_write_ok.
Qed.

Lemma indexBlock_built kv d block results stats d' :
  0 ≤ blk_Height block < 2 ^ 63 → (∀ bz tx, TxDecoder bz = Ok tx → tx_hashes_wf tx) →
  indexBlockWithStats caller kv d block results = (Ok stats, d') →
  ∃ b s hs meta metaBz logsBz, built kv d block results b s hs meta metaBz logsBz ∧
    contents d' = apply_ops (contents d) b.
Proof.
  intros Hh Hdec Hrun. destruct (indexBlock_ran _ _ _ _ _ _ Hh Hdec Hrun) as (b & s & hs & meta & metaBz & logsBz & [Hb _] & Hd).
  by exists b, s, hs, meta, metaBz, logsBz.
Qed.

(** The effect of a deletion on every record. *)
Lemma deleted_records d h d' :
  0 ≤ h < 2 ^ 63 → wf_store (contents d) → DeleteBlock d h = (Ok tt, d') →
  wf_store (contents d') ∧
  ∀ k, wf_key k →
    (owned (contents d) h k → contents d' !! encode k = None) ∧
    (¬ owned (contents d) h k → contents d' !! encode k = contents d !! encode k).
Proof.
  intros Hh Hwf. unfold DeleteBlock. destruct (resetBlock d [] h) as [b| |] eqn:Er; [|done..].
  apply resetBlock_ok in Er as [-> Hr]. rewrite app_nil_l. unfold batch_Write.
  destruct (db_write d (reset_ops d h)) as [[e|] dw] eqn:Ew; [done|]. intros [= <-].
  apply db_write_ok in Ew as ->. split.
  - intros key v Hl. apply Hwf. revert Hl.
    destruct (decide (key ∈ op_key <$> reset_ops d h)) as [(op & -> & Hop)%list_elem_of_fmap|Hn]; [|by rewrite apply_ops_other].
    destruct (reset_sound d h Hh Hwf op Hr Hop) as (k & -> & Hk & Ho). simpl. by rewrite (reset_owned d h Hh Hwf k Hr Hk Ho).
  - intros k Hk. split; intros Ho; [by apply reset_owned|by apply reset_not_owned].
Qed.

(** C10. Deleting a block removes exactly its records: on a well-formed store,
    after DeleteBlock every record the block owned (its metadata, hash mapping,
    logs, index entries and block traces, and the results, receipts, RPC transactions,
    virtual markers and traces of the transactions it listed) is gone, every other
    record is unchanged, and the store is still well-formed. *)
Theorem DeleteBlock_exact d h d' :
  0 ≤ h < 2 ^ 63 → wf_store (contents d) → DeleteBlock d h = (Ok tt, d') →
  wf_store (contents d') ∧
  ∀ k, wf_key k →
    (owned (contents d) h k → contents d' !! encode k = None) ∧
    (¬ owned (contents d) h k → contents d' !! encode k = contents d !! encode k).
Proof. apply deleted_records. Qed.

(** C8. A block that was indexed can be read back: its metadata is found by
    height and by block hash and carries the block's height, hash, parent, time and
    transaction count, the block counts as indexed, and its logs are returned by height
    and by hash, grouped as they were written. *)
Theorem IndexBlock_read_back kv d block results stats d' :
  0 ≤ blk_Height block < 2 ^ 63 → (∀ bz tx, TxDecoder bz = Ok tx → tx_hashes_wf tx) →
  wf_store (contents d) → wf_bytes (blk_Hash block) →
  indexBlockWithStats caller kv d block results = (Ok stats, d') →
  ∃ meta groups,
    GetBlockMetaByHeight d' (blk_Height block) = Ok meta ∧
    GetBlockMetaByHash d' (blockHash block) = Ok meta ∧
    IsBlockIndexed d' (blk_Height block) = Ok true ∧
    (m_Height meta, m_Hash meta, m_ParentHash meta, m_Timestamp meta, m_TxCount meta) =
      (blk_Height block, Hash_Hex (blockHash block), Hash_Hex (BytesToHash (blk_LastBlockID_Hash block)),
       blk_Time_Unix block, int32 (Z.of_nat (length (blk_Txs block)))) ∧
    (m_EthTxCount meta, m_Bloom meta) =
      (int32 (Z.of_nat (length groups)), hexutil_Encode (LogsBloom (EthLogs (mjoin groups)))) ∧
    (Forall wf_logs groups →
       GetLogsByBlockHeight d' (blk_Height block) = Ok (stored_group <$> groups) ∧
       GetLogsByBlockHash d' (blockHash block) = Ok (stored_group <$> groups)).
Proof.
  intros Hh Hdec Hwf Hblk Hrun.
  destruct (indexBlock_built _ _ _ _ _ _ Hh Hdec Hrun) as (b & s & hs & meta & metaBz & logsBz & Hb & Hd').
  destruct (final_block kv d block _ _ _ _ _ _ _ Hb) as (F1 & F2 & F3). rewrite <- Hd' in *.
  pose proof (bu_metaBz _ _ _ _ _ _ _ _ _ _ Hb) as Hm. pose proof (bu_logsBz _ _ _ _ _ _ _ _ _ _ Hb) as Hl.
  pose proof (payload_nonempty _ _ Hm) as Nm. pose proof (payload_nonempty _ _ Hl) as Nl.
  pose proof (bu_inv _ _ _ _ _ _ _ _ _ _ Hb) as Hi.
  assert (∀ msg absent, get_record d' (BlockHashKey (blockHash block)) msg absent = Ok (Uint64ToBigEndian (uint64 (blk_Height block)))) as Hhash.
  { intros. apply get_record_present; [done|]. intros E. pose proof (be_length (uint64 (blk_Height block))) as L. by rewrite E in L. }
  assert (int64 (BigEndianToUint64 (Uint64ToBigEndian (uint64 (blk_Height block)))) = blk_Height block) as Hbe.
  { rewrite be_roundtrip by apply uint64_range. apply int64_uint64. gate_ints. lia. }
  assert (GetBlockMetaByHeight d' (blk_Height block) = Ok meta) as Hmeta.
  { unfold GetBlockMetaByHeight. rewrite (get_record_present _ _ metaBz) by done. cbn. by rewrite (BlockMeta_roundtrip _ _ Hm). }
  exists meta, (s_blockLogs s). destruct (bu_meta _ _ _ _ _ _ _ _ _ _ Hb) as (root & _ & Em). split_and!.
  - done.
  - unfold GetBlockMetaByHash. rewrite Hhash. cbn [res_bind]. by rewrite Hbe.
  - unfold IsBlockIndexed. rewrite db_get_reliable, F1. cbn. f_equal. apply orb_true_iff. right.
    apply bool_decide_eq_true_2. destruct metaBz; [done|simpl; lia].
  - by rewrite Em.
  - rewrite Em. cbn. rewrite (li_flat _ _ _ _ _ Hi). f_equal. unfold visible_count.
    rewrite (li_groups _ _ _ _ _ Hi), <- (li_rpc _ _ _ _ _ Hi). destruct (virtualizationEnabled kv) eqn:Ev; [done|].
    by apply (li_eth _ _ _ _ _ Hi).
  - intros Hw. assert (GetLogsByBlockHeight d' (blk_Height block) = Ok (stored_group <$> s_blockLogs s)) as Hlogs.
    { unfold GetLogsByBlockHeight. rewrite (get_record_present _ _ logsBz) by done. cbn [res_bind].
      by apply BlockLogs_roundtrip. }
    split; [done|]. unfold GetLogsByBlockHash. rewrite Hhash. cbn [res_bind]. by rewrite Hbe.
Qed.

(** ** The RPC transaction index *)

Definition index_pairs (h : Z) (hs : list Hash) : list (bytes * bytes) :=
  imap (λ i x, (RPCtxIndexKey h (Z.of_nat i), x)) hs.

Lemma RPCtxIndexKey_lt h i j :
  0 ≤ i < 2 ^ 63 → 0 ≤ j < 2 ^ 63 → bytes_lt (RPCtxIndexKey h i) (RPCtxIndexKey h j) ↔ i < j.
Proof.
  intros Hi Hj. unfold RPCtxIndexKey. rewrite bytes_lt_app_l, !uint64_small by (gate_ints; lia).
  apply be_lt; gate_ints; lia.
Qed.

Lemma index_pairs_sorted h hs :
  Z.of_nat (length hs) ≤ 2 ^ 31 → StronglySorted bytes_lt (index_pairs h hs).*1.
Proof.
  intros Hl. unfold index_pairs. induction hs as [|x hs IH] using rev_ind; [constructor|].
  rewrite length_app in Hl. simpl in Hl. rewrite imap_app, fmap_app. simpl.
  apply StronglySorted_app_2; [|apply IH; lia|repeat constructor].
  intros a b' Ha ->%list_elem_of_singleton. apply list_elem_of_fmap in Ha as (p & -> & Hp).
  apply elem_of_lookup_imap in Hp as (i & y & -> & Hi%lookup_lt_Some). cbn. apply RPCtxIndexKey_lt; lia.
Qed.

Lemma rpc_index_iterates m h hs :
  0 ≤ h < 2 ^ 63 → wf_store m → Z.of_nat (length hs) ≤ 2 ^ 31 →
  (∀ j, is_int32 j → m !! RPCtxIndexKey h j = if bool_decide (0 ≤ j) then hs !! Z.to_nat j else None) →
  iterates m (rpcTxIndexPrefixStart h) (Some (rpcTxIndexPrefixEnd h)) (index_pairs h hs).
Proof.
  intros Hh Hwf Hl Hm. split; [by apply index_pairs_sorted|]. intros key v. unfold index_pairs. split.
  - intros (i & x & [= -> ->] & Hi)%elem_of_lookup_imap. pose proof (lookup_lt_Some _ _ _ Hi).
    assert (is_int32 (Z.of_nat i)) as Hi32 by (gate_ints; lia). split.
    + rewrite Hm, bool_decide_eq_true_2, Nat2Z.id by (done || lia). done.
    + apply (index_ranges h (KRPCtxIndex h (Z.of_nat i))); [done|split; [gate_ints; lia|done]|by eexists].
  - intros [Hk Hr]. destruct (Hwf _ _ Hk) as (k & -> & [Hwk _]). apply index_ranges in Hr as [j ->]; [|done..].
    destruct Hwk as [_ Hj]. cbn [encode] in *. rewrite Hm in Hk by done. case_bool_decide; [|done].
    apply elem_of_lookup_imap. exists (Z.to_nat j), v. split; [|done]. by rewrite Z2Nat.id.
Qed.

Lemma rpc_index_listed d h hs :
  0 ≤ h < 2 ^ 63 → wf_store (contents d) → Z.of_nat (length hs) ≤ 2 ^ 31 → Forall Keys.is_hash hs →
  (∀ j, is_int32 j → contents d !! RPCtxIndexKey h j = if bool_decide (0 ≤ j) then hs !! Z.to_nat j else None) →
  GetRPCTransactionHashesByBlockHeight d h = Ok hs.
Proof.
  intros Hh Hwf Hl Hhash Hm. pose proof (rpc_index_iterates _ _ _ Hh Hwf Hl Hm) as Hit.
  unfold GetRPCTransactionHashesByBlockHeight.
  pose proof (db_iterator_total d (rpcTxIndexPrefixStart h) (Some (rpcTxIndexPrefixEnd h))) as Ht.
  destruct (db_iterator d _ _) as [kvs| |] eqn:Ei; [|done..]. apply db_iterator_ok in Ei.
  rewrite (iterates_unique _ _ _ _ _ Ei Hit). cbn. f_equal. unfold index_pairs. clear - Hhash ELL.
  apply list_eq. intros i. rewrite list_lookup_fmap, list_lookup_imap. destruct (hs !! i) as [x|] eqn:E; [|done].
  cbn. f_equal. apply BytesToHash_id. by eapply (Forall_lookup_1 _ _ _ _ Hhash).
Qed.

(** C1. The RPC index of an indexed block lists exactly its visible
    transactions, in order and without holes: the transaction of the begin-block events if
    there are any, then for every Cosmos transaction of the block one entry for each of its
    Ethereum messages (under the hash its result reports, or its own when the transaction
    failed outside the EVM) followed, in a virtualised block, by the envelope of its
    coin movements outside Ethereum messages and by each of its IBC hooks, then the
    transaction of the end-block events.  Their number is the metadata's transaction count,
    each has a stored receipt that names it and the block and a stored RPC transaction
    that names it, and in a virtualised block the transactions root is the Merkle root over
    exactly that list.  Entries of an earlier indexing of the height never survive. *)
Theorem IndexBlock_lists_transactions kv d block results stats d' :
  0 ≤ blk_Height block < 2 ^ 63 → (∀ bz tx, TxDecoder bz = Ok tx → tx_hashes_wf tx) →
  wf_store (contents d) → wf_bytes (blk_Hash block) →
  indexBlockWithStats caller kv d block results = (Ok stats, d') →
  let hs := visible_hashes kv block results in
  ∃ meta,
    GetBlockMetaByHeight d' (blk_Height block) = Ok meta ∧
    m_EthTxCount meta = int32 (Z.of_nat (length hs)) ∧
    (Z.of_nat (length hs) < 2 ^ 31 → GetRPCTransactionHashesByBlockHeight d' (blk_Height block) = Ok hs) ∧
    (∀ x, x ∈ hs →
       (∃ bz receipt, contents d' !! ReceiptKey x = Some bz ∧ mustMarshalReceipt receipt = Ok bz ∧
          (cr_TransactionHash receipt, cr_BlockHash receipt, cr_BlockNumber receipt) =
            (Hash_Hex x, Hash_Hex (blockHash block), blk_Height block)) ∧
       (∃ bz tx, contents d' !! RPCtxHashKey x = Some bz ∧ mustMarshalRPCTransaction tx = Ok bz ∧ t_Hash tx = x)) ∧
    (virtualizationEnabled kv = true → 0 < m_EthTxCount meta →
       m_TransactionsRoot meta = Hash_Hex (visibleRPCTxsRoot hs)).
Proof.
  intros Hh Hdec Hwf Hblk Hrun hs0.
  destruct (indexBlock_built _ _ _ _ _ _ Hh Hdec Hrun) as (b & s & hs & meta & metaBz & logsBz & Hb & Hd').
  assert (hs = hs0) as <- by apply (bu_visible _ _ _ _ _ _ _ _ _ _ Hb).
  destruct (final_block kv d block _ _ _ _ _ _ _ Hb) as (F1 & _).
  pose proof (bu_metaBz _ _ _ _ _ _ _ _ _ _ Hb) as Hm. pose proof (bu_inv _ _ _ _ _ _ _ _ _ _ Hb) as Hi.
  destruct (bu_meta _ _ _ _ _ _ _ _ _ _ Hb) as (root & Hroot & Em).
  assert (visible_count kv s = int32 (Z.of_nat (length hs))) as Hvis.
  { unfold visible_count. rewrite <- (li_rpc _ _ _ _ _ Hi). destruct (virtualizationEnabled kv) eqn:Ev; [done|].
    by apply (li_eth _ _ _ _ _ Hi). }
  exists meta. rewrite <- Hd' in F1. split_and!.
  - unfold GetBlockMetaByHeight. rewrite (get_record_present _ _ metaBz) by (done || by eapply payload_nonempty).
    cbn. by rewrite (BlockMeta_roundtrip _ _ Hm).
  - by rewrite Em.
  - intros Hl. apply rpc_index_listed; [done| |lia|apply (li_hashes _ _ _ _ _ Hi)|]; rewrite Hd'.
    + by eapply final_wf.
    + intros j Hj. eapply final_rpc; try eassumption; lia.
  - rewrite Hd'. intros x Hx. eapply final_present in Hx as [(v & Hv & r & Hr & E) (w & Hw & t & Ht)]; [|eassumption..].
    split; [|by exists w, t]. exists v, r. rewrite uint64_small in E by (gate_ints; lia). done.
  - intros Hv. rewrite Em. cbn. unfold transactions_root in Hroot. intros Hc.
    rewrite bool_decide_eq_true_2, Hv in Hroot by done. case_bool_decide; [done|].
    injection Hroot as <-. by rewrite (li_visible _ _ _ _ _ Hi).
Qed.

Lemma trace_digest_wf (config : option Config) : Keys.is_hash (traceConfigKey config).
Proof.
  unfold traceConfigKey. split; destruct (sonic_marshal_config config); first [apply sha256_wf|apply sha256_length].
Qed.


(** C20. In a virtualised block the stored logs are numbered consecutively
    through the whole block, across Ethereum and synthetic transactions, and every log of
    the i-th group names the i-th transaction of the RPC index, its position, and
    the block. *)
Theorem IndexBlock_numbers_logs kv d block results stats d' :
  0 ≤ blk_Height block < 2 ^ 63 → (∀ bz tx, TxDecoder bz = Ok tx → tx_hashes_wf tx) →
  wf_store (contents d) → wf_bytes (blk_Hash block) → virtualizationEnabled kv = true →
  indexBlockWithStats caller kv d block results = (Ok stats, d') →
  ∃ groups hs bz,
    contents d' !! BlockLogsKey (blk_Height block) = Some bz ∧ mustMarshalBlockLogs groups = Ok bz ∧
    length groups = length hs ∧
    (∀ n log, mjoin groups !! n = Some (Some log) → l_Index log = uint64 (Z.of_nat n)) ∧
    (Z.of_nat (length hs) < 2 ^ 31 →
       GetRPCTransactionHashesByBlockHeight d' (blk_Height block) = Ok hs ∧
       ∀ i x group log, hs !! i = Some x → groups !! i = Some group → Some log ∈ group →
         (l_TxHash log, l_TxIndex log, l_BlockHash log, l_BlockNumber log) =
         (x, Z.of_nat i, blockHash block, blk_Height block)).
Proof.
  intros Hh Hdec Hwf Hblk Hv Hrun.
  destruct (indexBlock_built _ _ _ _ _ _ Hh Hdec Hrun) as (b & s & hs & meta & metaBz & logsBz & Hb & Hd').
  destruct (final_block kv d block _ _ _ _ _ _ _ Hb) as (_ & F2 & _).
  pose proof (bu_inv _ _ _ _ _ _ _ _ _ _ Hb) as Hi. exists (s_blockLogs s), hs, logsBz. split_and!.
  - by rewrite Hd'.
  - apply (bu_logsBz _ _ _ _ _ _ _ _ _ _ Hb).
  - apply (li_groups _ _ _ _ _ Hi).
  - rewrite <- (li_flat _ _ _ _ _ Hi). apply (li_numbered _ _ _ _ _ Hi Hv).
  - intros Hl. split.
    + apply rpc_index_listed; [done| |lia|apply (li_hashes _ _ _ _ _ Hi)|]; rewrite Hd'; [by eapply final_wf|].
      intros j Hj. eapply final_rpc; try eassumption; lia.
    + intros i x g log Hx Hg [n Hn]%list_elem_of_lookup.
      destruct (li_owner _ _ _ _ _ Hi Hv _ _ _ Hx Hg) as [first Hat].
      destruct (Hat _ _ Hn) as (_ & -> & Ht & -> & ->). apply lookup_lt_Some in Hx.
      rewrite Ht by lia. rewrite uint64_small by (gate_ints; lia). done.
Qed.

(** ** Trace cache *)

Lemma set_trace_ok d key raw msg d' :
  set_trace d key raw msg = (Ok tt, d') →
  ∃ bz, mustMarshalTracePayload raw = Ok bz ∧ contents d' = <[key := bz]> (contents d).
Proof.
  unfold set_trace. destruct (mustMarshalTracePayload raw) as [bz| |]; [|done..].
  destruct (db_set d key bz) as [[e|] dw] eqn:E; [done|]. intros [= <-]. exists bz. split; [done|]. by apply db_set_ok.
Qed.

Lemma read_trace d key bz raw msg msg' absent :
  mustMarshalTracePayload raw = Ok bz → contents d !! key = Some bz →
  (let! v := get_record d key msg absent in wrap_err msg' (unmarshalTracePayload v)) = Ok raw.
Proof.
  intros Hm Hl. rewrite (get_record_present _ _ bz) by (done || by eapply payload_nonempty).
  cbn. by rewrite (TracePayload_roundtrip _ _ Hm).
Qed.

(** The trace cache returns what was stored, and only for the same
    transaction or height: after SetTraceTransaction the same hash and configuration
    reads the trace back (an empty one as the JSON null), other transactions' traces and
    all block traces keep their values; likewise for block traces, with an empty
    one read back as an empty list. *)
Theorem trace_cache_roundtrip d hash h config raw d1 d2 :
  Keys.is_hash hash → is_int64 h →
  SetTraceTransaction d hash config raw = (Ok tt, d1) →
  SetTraceBlockByHeight d1 h config raw = (Ok tt, d2) →
  GetTraceTransaction d2 hash config = Ok (trace_default raw "null") ∧
  GetTraceBlockByHeight d2 h config = Ok (trace_default raw "[]") ∧
  (∀ hash' config', Keys.is_hash hash' → hash' ≠ hash →
     GetTraceTransaction d2 hash' config' = GetTraceTransaction d hash' config') ∧
  (∀ h' config', is_int64 h' → h' ≠ h → GetTraceBlockByHeight d2 h' config' = GetTraceBlockByHeight d h' config').
Proof.
  intros Hx Hh (bz1 & Hm1 & H1)%set_trace_ok (bz2 & Hm2 & H2)%set_trace_ok.
  pose proof (trace_digest_wf) as Hdg.
  assert (∀ x c, TraceBlockKey h config ≠ TraceTxKey x c) as Hne by done.
  split_and!.
  - eapply read_trace; [exact Hm1|]. rewrite H2, H1, lookup_insert_ne by done. apply lookup_insert_eq.
  - eapply read_trace; [exact Hm2|]. rewrite H2. apply lookup_insert_eq.
  - intros x' c' Hx' Hn. unfold GetTraceTransaction, get_record. rewrite !db_get_reliable, H2, H1.
    rewrite !lookup_insert_ne; [done| |done]. intros E.
    apply (encode_inj (KTraceTx hash (traceConfigKey config)) (KTraceTx x' (traceConfigKey c'))) in E; [congruence|by split..].
  - intros h' c' Hh' Hn. unfold GetTraceBlockByHeight, get_record. rewrite !db_get_reliable, H2, H1.
    rewrite !lookup_insert_ne; [done|done|]. intros E.
    apply (encode_inj (KTraceBlock h (traceConfigKey config)) (KTraceBlock h' (traceConfigKey c'))) in E; [congruence|by split..].
Qed.
End props.

(** ** Witnesses *)

Import EthInstances CodecInstances IndexerSample.

Notation store := (gmap bytes bytes).

Lemma IndexBlock_read_back_witness :
  ∃ meta, GetBlockMetaByHeight sample_store 12 = Ok meta ∧ GetBlockMetaByHash sample_store (be_bytes 32 1000) = Ok meta ∧
          m_TxCount meta = 2 ∧ IsBlockIndexed sample_store 12 = Ok true.
Proof.
  destruct (IndexBlock_read_back (D := store) "0x01" sample_indexer ∅ sample_block (Some sample_results) (mkStats 1) sample_store
              (proj1 sample_block_wf) sample_decodes empty_store_wf (proj2 sample_block_wf) sample_run_ok)
    as (meta & groups & H1 & H2 & H3 & H4 & _).
  exists meta. split; [exact H1|]. split; [exact H2|]. split; [|exact H3]. injection H4. intros H5 _ _ _ _. exact H5.
Defined.

(** The begin-block transfer, the failed Ethereum transaction and the envelope
    of the transfers of the Cosmos transaction. *)
Lemma IndexBlock_lists_transactions_witness :
  visible_hashes sample_indexer sample_block (Some sample_results) = [BeginBlockHash 12; eth_hash; CosmosTxHash [2]] ∧
  GetRPCTransactionHashesByBlockHeight sample_store 12 = Ok [BeginBlockHash 12; eth_hash; CosmosTxHash [2]] ∧
  (∃ meta, GetBlockMetaByHeight sample_store 12 = Ok meta ∧ m_EthTxCount meta = 3) ∧
  ∃ bz receipt, sample_store !! ReceiptKey eth_hash = Some bz ∧ mustMarshalReceipt receipt = Ok bz ∧
    cr_TransactionHash receipt = Hash_Hex eth_hash.
Proof.
  assert (visible_hashes sample_indexer sample_block (Some sample_results) = [BeginBlockHash 12; eth_hash; CosmosTxHash [2]])
    as Hv by (vm_compute; reflexivity).
  destruct (IndexBlock_lists_transactions (D := store) "0x01" sample_indexer ∅ sample_block (Some sample_results) (mkStats 1) sample_store
              (proj1 sample_block_wf) sample_decodes empty_store_wf (proj2 sample_block_wf) sample_run_ok)
    as (meta & H1 & H2 & H3 & H4 & _). rewrite Hv in *.
  split; [reflexivity|]. split; [apply H3; vm_compute; reflexivity|]. split.
  - exists meta. split; [exact H1|]. rewrite H2. vm_compute. reflexivity.
  - destruct (H4 eth_hash) as [(bz & r & R1 & R2 & R3) _]; [right; left|].
    exists bz, r. split; [exact R1|]. split; [exact R2|]. injection R3. intros _ _ E. exact E.
Defined.


Lemma IndexBlock_numbers_logs_witness :
  ∃ groups bz, sample_store !! BlockLogsKey 12 = Some bz ∧ mustMarshalBlockLogs groups = Ok bz ∧
    ∀ n log, mjoin groups !! n = Some (Some log) → l_Index log = uint64 (Z.of_nat n).
Proof.
  destruct (IndexBlock_numbers_logs (D := store) "0x01" sample_indexer ∅ sample_block (Some sample_results) (mkStats 1) sample_store
              (proj1 sample_block_wf) sample_decodes empty_store_wf (proj2 sample_block_wf) eq_refl sample_run_ok)
    as (groups & hs & bz & H1 & H2 & _ & H4 & _).
  exists groups, bz. split; [exact H1|]. split; [exact H2|exact H4].
Defined.

(** A store with a transaction at height 12 and one at height 13. *)
Definition two_heights : store :=
  list_to_map [(TxIndexKey 12 0, eth_hash); (TxHashKey eth_hash, [1]); (TxIndexKey 13 0, be_bytes 32 5)].

Lemma two_heights_wf : wf_store two_heights.
Proof.
  intros key v Hl. apply elem_of_list_to_map_2 in Hl.
  repeat (apply elem_of_cons in Hl as [[= -> ->]|Hl]); [..|set_solver].
  - exists (KTxIndex 12 0). split; [done|]. apply (bool_decide_unpack _). by vm_compute.
  - exists (KTxHash eth_hash). split; [done|]. apply (bool_decide_unpack _). by vm_compute.
  - exists (KTxIndex 13 0). split; [done|]. apply (bool_decide_unpack _). by vm_compute.
Qed.

Definition after_delete : store := (DeleteBlock two_heights 12).2.

Lemma DeleteBlock_exact_witness :
  after_delete !! TxHashKey eth_hash = None ∧ after_delete !! TxIndexKey 13 0 = Some (be_bytes 32 5).
Proof.
  destruct (DeleteBlock_exact (D := store) two_heights 12 after_delete) as [_ H].
  - lia.
  - exact two_heights_wf.
  - vm_compute. reflexivity.
  - split.
    + apply (H (KTxHash eth_hash)); [apply (bool_decide_unpack _); vm_compute; exact I|].
      exists 0. split; [gate_ints; lia|vm_compute; reflexivity].
    + transitivity (two_heights !! TxIndexKey 13 0); [|vm_compute; reflexivity].
      apply (H (KTxIndex 13 0)); [vm_compute; intuition congruence|discriminate].
Defined.

Definition trace_1 : store := (SetTraceTransaction ∅ eth_hash (None : option unit) []).2.
Definition trace_2 : store := (SetTraceBlockByHeight trace_1 12 (None : option unit) []).2.

Lemma trace_cache_roundtrip_witness :
  GetTraceTransaction trace_2 eth_hash (None : option unit) = Ok (string_bytes "null") ∧
  GetTraceBlockByHeight trace_2 12 (None : option unit) = Ok (string_bytes "[]").
Proof.
  destruct (trace_cache_roundtrip (D := store) ∅ eth_hash 12 (None : option unit) [] trace_1 trace_2)
    as (H1 & H2 & _).
  - split; [apply be_bytes_length|apply be_bytes_wf].
  - gate_ints. lia.
  - reflexivity.
  - reflexivity.
  - split; [exact H1|exact H2].
Defined.
End IndexerProps.
