(* ===== verification/IndexerScan.v ===== *)
(** * Finding the indexed heights

    LoadIndexedRanges, LoadFirstBlock and LoadLastBlock read the heights of a
    store from its block metadata, or from its tx index when it has no
    metadata. *)

From Stdlib Require Import Ascii String.
From S2P Require Import Prelude Ranges Bytes Instances GoLib EthTypes EthInstances Keys Normalize.
From S2P Require Import Virtual VirtualBank VirtualIbc Cached Codec CodecInstances Indexer IndexerQuery.
From S2P Require Import IndexerStore IndexerSample.
From stdpp Require Import strings list.
#[local] Open Scope Z_scope.

Module IndexerScan.
Import GoLib Keys Ranges Indexer IndexerQuery IndexerStore.

Lemma reverse_nil_inv {A} (l : list A) : reverse l = [] → l = [].
Proof. intros E. by rewrite <- (reverse_involutive l), E. Qed.

Section scan.
Context {D : Type} {DB : KVDB D} {DBL : KVDBLaws D} {DBR : KVDBReliable D} {SD : SDK} {SDL : SDKLaws}.

(** ** Keys of one collection *)

Lemma prefix_byte_range p k :
  is_byte p → wf_key k → in_range [p] (Some [p + 1]) (encode k) ↔ head (encode k) = Some p.
Proof.
  intros Hp Hk. pose proof (encode_wf k Hk) as W. pose proof (encode_length k Hk) as L. unfold in_range.
  destruct (encode k) as [|c l]; [simpl in L; lia|]. rewrite (bytes_le_single p) by done. rewrite bytes_lt_cons. split.
  - intros [(c' & l' & [= <- <-] & ?) [?|[_ ?%bytes_lt_nil_r]]]; [|done]. simpl. f_equal. lia.
  - intros [= ->]. split; [by eexists _, _|left; lia].
Qed.

(** Heights stored in the metadata, and in the tx index. *)
Definition has_meta (m : gmap bytes bytes) (h : Z) : Prop := is_Some (m !! BlockMetaKey h).
Definition has_txs (m : gmap bytes bytes) (h : Z) : Prop := ∃ i, is_int32 i ∧ is_Some (m !! TxIndexKey h i).

(** The records a store may have under heights: none below zero. *)
Definition heights_wf (m : gmap bytes bytes) : Prop :=
  ∀ h, is_int64 h → has_meta m h ∨ has_txs m h → 0 ≤ h.

Context (d : D) (Hwf : wf_store (contents d)) (Hpos : heights_wf (contents d)).

(** What an iteration over one collection yields. *)
Definition yields (parse : bytes → res string Z) (has : Z → Prop) (kvs : list (bytes * bytes)) (hs : list Z) : Prop :=
  Forall2 (λ kv h, parse kv.1 = Ok h) kvs hs ∧ StronglySorted Z.le hs ∧ Forall (λ h, 0 ≤ h < 2 ^ 63) hs ∧
  ∀ h, is_int64 h → h ∈ hs ↔ has h.

Lemma yields_keys parse has kvs :
  StronglySorted bytes_lt kvs.*1 →
  (∀ kv, kv ∈ kvs → ∃ h, parse kv.1 = Ok h ∧ 0 ≤ h < 2 ^ 63 ∧ has h) →
  (∀ h, is_int64 h → has h → ∃ kv, kv ∈ kvs ∧ parse kv.1 = Ok h) →
  (∀ a b x y, a ∈ kvs.*1 → b ∈ kvs.*1 → parse a = Ok x → parse b = Ok y → bytes_lt a b → x ≤ y) →
  ∃ hs, yields parse has kvs hs.
Proof.
  intros Hs Hp Hc Hm.
  assert (∃ hs, Forall2 (λ kv h, parse kv.1 = Ok h) kvs hs) as [hs Hf].
  { clear - Hp. induction kvs as [|kv kvs IH]; [by exists []|]. destruct (Hp kv) as (h & Hh & _); [by left|].
    destruct IH as [hs IH]; [intros; apply Hp; by right|]. exists (h :: hs). by constructor. }
  assert (∀ h, h ∈ hs → ∃ kv, kv ∈ kvs ∧ parse kv.1 = Ok h) as Hin.
  { intros h [i Hi]%list_elem_of_lookup. destruct (Forall2_lookup_r _ _ _ _ _ Hf Hi) as (kv & Hk & E).
    exists kv. split; [by eapply list_elem_of_lookup_2|done]. }
  exists hs. split_and!; [done| | |].
  - clear - Hs Hf Hm. induction Hf as [|kv h kvs hs E Hf IH]; [constructor|].
    rewrite fmap_cons in *. apply StronglySorted_inv in Hs as [Hs Hx]. constructor.
    + apply IH; [done|]. intros a b x y Ha Hb. by apply Hm; right.
    + apply Forall_forall. intros y [i Hi]%list_elem_of_lookup.
      destruct (Forall2_lookup_r _ _ _ _ _ Hf Hi) as (kv' & Hk & E'). rewrite Forall_forall in Hx.
      assert (kv'.1 ∈ kvs.*1) as Hin by (apply list_elem_of_fmap; exists kv'; split; [done|by eapply list_elem_of_lookup_2]).
      eapply Hm; [by left|by right|done|done|]. by apply Hx.
  - apply Forall_forall. intros h (kv & Hk & E)%Hin. destruct (Hp kv Hk) as (h' & E' & Hb & _).
    rewrite E in E'. by injection E' as <-.
  - intros h H64. split.
    + intros (kv & Hk & E)%Hin. destruct (Hp kv Hk) as (h' & E' & _ & Hb). rewrite E in E'. by injection E' as <-.
    + intros (kv & Hk & E)%Hc; [|done]. apply list_elem_of_lookup in Hk as [i Hi].
      destruct (Forall2_lookup_l _ _ _ _ _ Hf Hi) as (h' & Hh' & E'). rewrite E in E'. injection E' as <-.
      by eapply list_elem_of_lookup_2.
Qed.

Lemma TxIndexKey_le m n i j :
  0 ≤ m < 2 ^ 63 → 0 ≤ n < 2 ^ 63 → bytes_lt (TxIndexKey m i) (TxIndexKey n j) → m ≤ n.
Proof.
  intros Hm Hn. unfold TxIndexKey. rewrite <- !app_assoc, bytes_lt_app_l.
  rewrite bytes_lt_app_same_length by (by rewrite !be_length). rewrite be_lt by apply uint64_range.
  rewrite !uint64_small by (gate_ints; lia). intros [?|[E _]]; [lia|].
  apply be_inj in E; [lia|gate_ints; lia..].
Qed.

Lemma meta_yields kvs :
  iterates (contents d) [KeyPrefixBlockMeta] (Some [KeyPrefixBlockMeta + 1]) kvs →
  ∃ hs, yields (λ key, parseHeightFromHeightKey key KeyPrefixBlockMeta) (has_meta (contents d)) kvs hs.
Proof.
  intros [Hs Hi].
  assert (∀ kv, kv ∈ kvs → ∃ h, is_int64 h ∧ kv.1 = BlockMetaKey h ∧ 0 ≤ h ∧ has_meta (contents d) h) as Hk.
  { intros [key v] [Hl Hr]%Hi. destruct (Hwf _ _ Hl) as (k & -> & [Hk _]).
    apply prefix_byte_range in Hr; [|vm_compute; intuition congruence|done].
    destruct k; try discriminate Hr. exists height. split_and!; [done|done|apply Hpos; [done|left]|]; by exists v. }
  apply yields_keys; [done|..].
  - intros kv (h & H64 & -> & Hh & Hm)%Hk. exists h. split_and!; [by apply parse_BlockMetaKey|done|gate_ints; lia|done].
  - intros h H64 [v Hv]. exists (BlockMetaKey h, v). split; [|by apply parse_BlockMetaKey]. apply Hi. split; [done|].
    by apply (prefix_byte_range _ (KBlockMeta h)); [vm_compute; intuition congruence|..].
  - intros a b x y Ha Hb. apply list_elem_of_fmap in Ha as (? & -> & (h & H64 & -> & ? & _)%Hk).
    apply list_elem_of_fmap in Hb as (? & -> & (h' & H64' & -> & ? & _)%Hk).
    rewrite !parse_BlockMetaKey by done. intros [= ->] [= ->] ?%BlockMetaKey_lt; gate_ints; lia.
Qed.

Lemma txs_yields kvs :
  iterates (contents d) [KeyPrefixTxIndex] (Some [KeyPrefixTxIndex + 1]) kvs →
  ∃ hs, yields parseBlockNumberFromKey (has_txs (contents d)) kvs hs.
Proof.
  intros [Hs Hi].
  assert (∀ kv, kv ∈ kvs → ∃ h i, is_int64 h ∧ kv.1 = TxIndexKey h i ∧ 0 ≤ h ∧ has_txs (contents d) h) as Hk.
  { intros [key v] [Hl Hr]%Hi. destruct (Hwf _ _ Hl) as (k & -> & [Hk _]).
    apply prefix_byte_range in Hr; [|vm_compute; intuition congruence|done].
    destruct k as [|h i| | | | | | | | |]; try discriminate Hr. destruct Hk as [H64 H32].
    assert (has_txs (contents d) h) as Ht by (exists i; split; [done|by exists v]).
    exists h, i. split_and!; [done|done|apply Hpos; auto|done]. }
  apply yields_keys; [done|..].
  - intros kv (h & i & H64 & -> & Hh & Hm)%Hk. exists h. split_and!; [by apply parse_TxIndexKey|done|gate_ints; lia|done].
  - intros h H64 (i & H32 & [v Hv]). exists (TxIndexKey h i, v). split; [|by apply parse_TxIndexKey]. apply Hi. split; [done|].
    by apply (prefix_byte_range _ (KTxIndex h i)); [vm_compute; intuition congruence|..].
  - intros a b x y Ha Hb. apply list_elem_of_fmap in Ha as (? & -> & (h & i & H64 & -> & ? & _)%Hk).
    apply list_elem_of_fmap in Hb as (? & -> & (h' & i' & H64' & -> & ? & _)%Hk).
    rewrite !parse_TxIndexKey by done. intros [= ->] [= ->] ?%TxIndexKey_le; gate_ints; lia.
Qed.

(** ** The indexed heights *)

(** A store with metadata is read through it; an older one through its tx
    index. *)
Definition indexed_height (m : gmap bytes bytes) (h : Z) : Prop :=
  has_meta m h ∨ (∀ n, is_int64 n → ¬ has_meta m n) ∧ has_txs m h.

Lemma scan_keys_ok parse s0 kvs hs :
  Forall2 (λ kv h, parse kv.1 = Ok h) kvs hs → scan_keys parse s0 kvs = Ok (foldl scan_height s0 hs).
Proof.
  intros Hf. revert s0. unfold scan_keys. induction Hf as [|kv h kvs hs E _ IH]; intros s0; cbn [res_foldl]; [done|].
  rewrite E. cbn. apply IH.
Qed.

Lemma scan_last s0 hs h : lastBlock (foldl scan_height s0 (hs ++ [h])) = h.
Proof.
  rewrite foldl_app. cbn. unfold scan_height. case_bool_decide; [done|]. by repeat case_bool_decide.
Qed.

Lemma iterator_reads s e : ∃ kvs, db_iterator d s e = Ok kvs ∧ iterates (contents d) s e kvs.
Proof.
  pose proof (db_iterator_total d s e) as Ht. destruct (db_iterator d s e) as [kvs| |] eqn:E; [|done..].
  exists kvs. split; [done|]. by apply db_iterator_ok.
Qed.

Lemma reverse_iterator_reads s e : ∃ kvs, db_reverse_iterator d s e = Ok (reverse kvs) ∧ iterates (contents d) s e kvs.
Proof.
  pose proof (db_reverse_iterator_total d s e) as Ht. destruct (db_reverse_iterator d s e) as [kvs| |] eqn:E; [|done..].
  exists (reverse kvs). rewrite reverse_involutive. split; [done|]. by apply db_reverse_iterator_ok.
Qed.

(** The heights in order, from one of the two collections. *)
Lemma indexed_heights :
  ∃ mkvs mhs tkvs ths,
    iterates (contents d) [KeyPrefixBlockMeta] (Some [KeyPrefixBlockMeta + 1]) mkvs ∧
    yields (λ key, parseHeightFromHeightKey key KeyPrefixBlockMeta) (has_meta (contents d)) mkvs mhs ∧
    iterates (contents d) [KeyPrefixTxIndex] (Some [KeyPrefixTxIndex + 1]) tkvs ∧
    yields parseBlockNumberFromKey (has_txs (contents d)) tkvs ths ∧
    ∀ h, is_int64 h → h ∈ (match mhs with [] => ths | _ => mhs end) ↔ indexed_height (contents d) h.
Proof.
  destruct (iterator_reads [KeyPrefixBlockMeta] (Some [KeyPrefixBlockMeta + 1])) as (mkvs & _ & Im).
  destruct (iterator_reads [KeyPrefixTxIndex] (Some [KeyPrefixTxIndex + 1])) as (tkvs & _ & It).
  destruct (meta_yields _ Im) as [mhs Ym], (txs_yields _ It) as [ths Yt]. exists mkvs, mhs, tkvs, ths.
  split_and!; [done..|]. intros h H64. destruct Ym as (_ & _ & Fm & Em), Yt as (_ & _ & _ & Et).
  unfold indexed_height. destruct mhs as [|m0 mhs].
  - rewrite Et by done. split; [|intros [?%Em|[_ ?]]; [set_solver|done|done]].
    intros ?. right. split; [|done]. intros n Hn ?%Em; [set_solver|done].
  - rewrite Em by done. split; [by left|]. intros [?|[Hno _]]; [done|]. exfalso.
    apply Forall_cons in Fm as [Hm0 _]. apply (Hno m0); [gate_ints; lia|]. apply Em; [gate_ints; lia|by left].
Qed.

Lemma ranges_read ranges mkvs mhs tkvs ths :
  iterates (contents d) [KeyPrefixBlockMeta] (Some [KeyPrefixBlockMeta + 1]) mkvs →
  Forall2 (λ kv h, parseHeightFromHeightKey kv.1 KeyPrefixBlockMeta = Ok h) mkvs mhs → Forall (λ h, 0 ≤ h < 2 ^ 63) mhs →
  iterates (contents d) [KeyPrefixTxIndex] (Some [KeyPrefixTxIndex + 1]) tkvs →
  Forall2 (λ kv h, parseBlockNumberFromKey kv.1 = Ok h) tkvs ths →
  ranges = group_heights (match mhs with [] => ths | _ => mhs end) →
  LoadIndexedRanges d = Ok ranges.
Proof.
  intros Im Fm Hm It Ft ->. unfold LoadIndexedRanges.
  destruct (iterator_reads [KeyPrefixBlockMeta] (Some [KeyPrefixBlockMeta + 1])) as (mkvs' & -> & Im').
  rewrite (iterates_unique _ _ _ _ _ Im' Im). cbn [lib res_map_err res_bind].
  rewrite (scan_keys_ok (λ key, parseHeightFromHeightKey key KeyPrefixBlockMeta) _ _ _ Fm). cbn [res_bind].
  destruct mhs as [|m0 mhs]; cbn [foldl].
  - destruct (iterator_reads [KeyPrefixTxIndex] (Some [KeyPrefixTxIndex + 1])) as (tkvs' & -> & It').
    rewrite (iterates_unique _ _ _ _ _ It' It). cbn. by rewrite (scan_keys_ok _ _ _ _ Ft).
  - assert (lastBlock (foldl scan_height scan_init (m0 :: mhs)) ≠ -1) as Hne.
    { destruct (exists_last (l := m0 :: mhs) ltac:(done)) as (l & h & E). rewrite E in *. rewrite scan_last.
      apply Forall_app in Hm as [_ Hm]. apply Forall_cons in Hm as [? _]. lia. }
    cbn [foldl] in Hne. rewrite bool_decide_eq_true_2 by done. unfold group_heights, scan_result. cbn [foldl].
    by rewrite bool_decide_eq_false_2.
Qed.

(** The key an iterator starts with parses to the first height; the reverse
    iterator starts with the last one. *)
Lemma head_parsed parse (kvs : list (bytes * bytes)) (hs : list Z) :
  Forall2 (λ kv h, parse kv.1 = Ok h) kvs hs →
  match kvs with
  | (key, _) :: _ => ∃ h, head hs = Some h ∧ parse key = @Ok string Z h
  | [] => hs = []
  end.
Proof. intros [|[key v] h kvs' hs' E _]; [done|]. by exists h. Qed.

Lemma first_read mkvs mhs tkvs ths :
  iterates (contents d) [KeyPrefixBlockMeta] (Some [KeyPrefixBlockMeta + 1]) mkvs →
  Forall2 (λ kv h, parseHeightFromHeightKey kv.1 KeyPrefixBlockMeta = Ok h) mkvs mhs →
  iterates (contents d) [KeyPrefixTxIndex] (Some [KeyPrefixTxIndex + 1]) tkvs →
  Forall2 (λ kv h, parseBlockNumberFromKey kv.1 = Ok h) tkvs ths →
  LoadFirstBlock d = Ok (default (-1) (head (match mhs with [] => ths | _ => mhs end))).
Proof.
  intros Im Fm It Ft. unfold LoadFirstBlock, wrap.
  destruct (iterator_reads [KeyPrefixBlockMeta] (Some [KeyPrefixBlockMeta + 1])) as (mkvs' & -> & Im').
  rewrite (iterates_unique _ _ _ _ _ Im' Im). cbn [res_map_err res_bind].
  apply (head_parsed (λ key, parseHeightFromHeightKey key KeyPrefixBlockMeta)) in Fm. destruct mkvs as [|[key v] mkvs].
  - subst mhs. destruct (iterator_reads [KeyPrefixTxIndex] (Some [KeyPrefixTxIndex + 1])) as (tkvs' & -> & It').
    rewrite (iterates_unique _ _ _ _ _ It' It). cbn [res_map_err res_bind]. apply head_parsed in Ft.
    destruct tkvs as [|[key v] tkvs]; [by subst|]. by destruct Ft as (h & -> & ->).
  - destruct Fm as (h & E & ->). destruct mhs; [done|]. cbn in *. by simplify_eq.
Qed.

Lemma last_read mkvs mhs tkvs ths :
  iterates (contents d) [KeyPrefixBlockMeta] (Some [KeyPrefixBlockMeta + 1]) mkvs →
  Forall2 (λ kv h, parseHeightFromHeightKey kv.1 KeyPrefixBlockMeta = Ok h) mkvs mhs →
  iterates (contents d) [KeyPrefixTxIndex] (Some [KeyPrefixTxIndex + 1]) tkvs →
  Forall2 (λ kv h, parseBlockNumberFromKey kv.1 = Ok h) tkvs ths →
  LoadLastBlock d = Ok (default (-1) (last (match mhs with [] => ths | _ => mhs end))).
Proof.
  intros Im Fm%Forall2_reverse It Ft%Forall2_reverse. unfold LoadLastBlock, wrap.
  destruct (reverse_iterator_reads [KeyPrefixBlockMeta] (Some [KeyPrefixBlockMeta + 1])) as (mkvs' & -> & Im').
  rewrite (iterates_unique _ _ _ _ _ Im' Im). cbn [res_map_err res_bind].
  apply (head_parsed (λ key, parseHeightFromHeightKey key KeyPrefixBlockMeta)) in Fm. destruct (reverse mkvs) as [|[key v] rkvs].
  - apply reverse_nil_inv in Fm as ->.
    destruct (reverse_iterator_reads [KeyPrefixTxIndex] (Some [KeyPrefixTxIndex + 1])) as (tkvs' & -> & It').
    rewrite (iterates_unique _ _ _ _ _ It' It). cbn [res_map_err res_bind]. apply head_parsed in Ft.
    destruct (reverse tkvs) as [|[key v] rt]; [by apply reverse_nil_inv in Ft as ->|].
    destruct Ft as (h & E & ->). rewrite head_reverse in E. by rewrite E.
  - destruct Fm as (h & E & ->). rewrite head_reverse in E. destruct mhs; [done|]. by rewrite E.
Qed.

Lemma sorted_bounds (hs : list Z) lo hi h :
  StronglySorted Z.le hs → head hs = Some lo → last hs = Some hi → h ∈ hs → lo ≤ h ≤ hi.
Proof.
  intros Hs Hlo Hhi Hin. split.
  - destruct Hs as [|x hs Hs Hx]; [done|]. injection Hlo as ->. apply elem_of_cons in Hin as [->|Hin]; [lia|].
    rewrite Forall_forall in Hx. by apply Hx.
  - apply last_Some in Hhi as [l ->]. apply StronglySorted_app in Hs as (Hx & _ & _).
    apply elem_of_app in Hin as [Hin|Hin]; [apply Hx; [done|by left]|]. apply list_elem_of_singleton in Hin. lia.
Qed.

(** The ranges a scan returns, before anything is known of the heights' source. *)
Lemma ranges_loaded :
  ∃ ranges, LoadIndexedRanges d = Ok ranges ∧ canonical ranges ∧
    ∀ h, in_ranges h ranges ↔ 0 ≤ h < 2 ^ 63 ∧ indexed_height (contents d) h.
Proof.
  destruct indexed_heights as (mkvs & mhs & tkvs & ths & Im & (Fm & Sm & Bm & _) & It & (Ft & St & Bt & _) & Hin).
  pose proof (ranges_read _ _ _ _ _ Im Fm Bm It Ft eq_refl) as Hr.
  set (hs := match mhs with [] => ths | _ => mhs end) in *.
  assert (StronglySorted Z.le hs ∧ Forall (λ h, 0 ≤ h < 2 ^ 63) hs) as [Hs Hb] by (unfold hs; by destruct mhs).
  destruct (group_heights_spec hs Hb Hs) as [Hg Hc]. rewrite Forall_forall in Hb.
  eexists. split_and!; [exact Hr|exact Hc|]. intros h. rewrite Hg. split.
  - intros Hh. pose proof (Hb _ Hh). split; [done|]. apply Hin; [gate_ints; lia|done].
  - intros [? ?]. apply Hin; [gate_ints; lia|done].
Qed.

(** C19. The scans of a store agree with what is indexed: LoadIndexedRanges
    returns the indexed heights, exactly, as sorted separated ranges, and
    LoadFirstBlock and LoadLastBlock return the least and the greatest of them, or -1
    when there is none.  A store without block metadata is read through its tx
    index. *)
Theorem index_scans_exact :
  ∃ ranges lo hi,
    LoadIndexedRanges d = Ok ranges ∧ LoadFirstBlock d = Ok lo ∧ LoadLastBlock d = Ok hi ∧
    canonical ranges ∧
    (∀ h, is_int64 h → in_ranges h ranges ↔ indexed_height (contents d) h) ∧
    (ranges = [] → lo = -1 ∧ hi = -1) ∧
    (ranges ≠ [] → indexed_height (contents d) lo ∧ indexed_height (contents d) hi ∧
       ∀ h, is_int64 h → indexed_height (contents d) h → lo ≤ h ≤ hi).
Proof.
  destruct indexed_heights as (mkvs & mhs & tkvs & ths & Im & (Fm & Sm & Bm & _) & It & (Ft & St & Bt & _) & Hin).
  pose proof (first_read _ _ _ _ Im Fm It Ft) as Hf. pose proof (last_read _ _ _ _ Im Fm It Ft) as Hl.
  pose proof (ranges_read _ _ _ _ _ Im Fm Bm It Ft eq_refl) as Hr.
  set (hs := match mhs with [] => ths | _ => mhs end) in *.
  assert (StronglySorted Z.le hs ∧ Forall (λ h, 0 ≤ h < 2 ^ 63) hs) as [Hs Hb] by (unfold hs; by destruct mhs).
  destruct (group_heights_spec hs Hb Hs) as [Hg Hc].
  eexists _, _, _. split; [exact Hr|]. split; [exact Hf|]. split; [exact Hl|]. split; [exact Hc|]. split_and!.
  - intros h H64. by rewrite Hg, Hin.
  - intros E. destruct hs as [|h hs']; [done|]. exfalso. apply (in_ranges_nil h). rewrite <- E. apply Hg. by left.
  - intros Hne. assert (hs ≠ []) as Hne' by (intros E; by rewrite E in Hne).
    destruct (head hs) as [lo|] eqn:Elo; [|by destruct hs]. destruct (last hs) as [hi|] eqn:Ehi; [|by apply last_None in Ehi].
    rewrite Forall_forall in Hb. assert (lo ∈ hs) as Hlo by (destruct hs; [done|injection Elo as ->; by left]).
    assert (hi ∈ hs) as Hhi by (apply last_Some in Ehi as [l ->]; set_solver). cbn.
    pose proof (Hb _ Hlo). pose proof (Hb _ Hhi). split_and!; [apply Hin; [gate_ints; lia|done]..|].
    intros h H64 ?%Hin; [|done]. by eapply sorted_bounds.
Qed.
End scan.

(** ** Witness *)

Import IndexerSample.

(** Metadata at heights 3, 4 and 9. *)
Definition scan_store : gmap bytes bytes :=
  list_to_map [(BlockMetaKey 3, [1]); (BlockMetaKey 9, [1]); (BlockMetaKey 4, [1])].

Lemma scan_store_keys key v : scan_store !! key = Some v → ∃ h, key = BlockMetaKey h ∧ 0 ≤ h < 10.
Proof.
  intros Hl. apply elem_of_list_to_map_2 in Hl.
  repeat (apply elem_of_cons in Hl as [[= -> ->]|Hl]); [exists 3|exists 9|exists 4|set_solver]; (split; [done|lia]).
Qed.

Lemma scan_store_wf : wf_store (contents scan_store).
Proof.
  intros key v (h & -> & Hh)%scan_store_keys. exists (KBlockMeta h). split; [done|]. split; [|done]. cbn. gate_ints. lia.
Qed.

Lemma scan_store_heights : heights_wf (contents scan_store).
Proof.
  intros h H64 [[v (n & E & Hn)%scan_store_keys]|(i & _ & [v (n & E & _)%scan_store_keys])]; [|done].
  apply (encode_inj (KBlockMeta h) (KBlockMeta n)) in E; [|done|cbn; gate_ints; lia]. injection E as ->. lia.
Qed.

Lemma index_scans_exact_witness :
  LoadIndexedRanges scan_store = Ok [mkRange 3 4; mkRange 9 9] ∧
  ∃ ranges, LoadIndexedRanges scan_store = Ok ranges ∧ canonical ranges.
Proof.
  split; [vm_compute; reflexivity|].
  destruct (index_scans_exact (D := gmap bytes bytes) scan_store scan_store_wf scan_store_heights)
    as (ranges & lo & hi & H1 & _ & _ & H4 & _).
  exists ranges. split; [exact H1|exact H4].
Defined.
End IndexerScan.
