(* ===== verification/Blocksync.v ===== *)
(** * Block synchronisation

    src/internal/blocksync/syncer.go: the fetch of one block with retries, and
    the getter that fetches blocks with concurrent jobs and hands them to
    SyncRange in order.  The fetch is a function of the answers of the client; the
    getter is a step relation over its jobs, announcer, channel and consumer. *)

From Stdlib Require Import Ascii String.
From S2P Require Import Prelude Bytes GoLib EthTypes ParsedTx Indexer.
From stdpp Require Import strings list relations.
#[local] Open Scope Z_scope.

Module Blocksync.
Import GoLib EthTypes ParsedTx.

(** ** Errors of the node *)

Definition retryAttempts : nat := 10.
Definition NotFoundErr : string := "is not available".
Definition ErrBlockUnavailable : string := "block not available".
Definition context_Canceled : string := "context canceled".

(** The errors are the texts the client returns. *)
Definition isNotFound (err : string) : bool := strings_Contains err NotFoundErr.

Definition aheadOfHead_at (s : string) : bool :=
  match strip_prefix "height " s with
  | None => false
  | Some r =>
      let '(digits, r) := span_digits r in
      match digits, strip_prefix " must be less than or equal to the current blockchain height " r with
      | String _ _, Some r => match span_digits r with (String _ _, _) => true | _ => false end
      | _, _ => false
      end
  end.

(** aheadOfHeadHeightRE.MatchString *)
Fixpoint isAheadOfChainHead (s : string) : bool :=
  aheadOfHead_at s || match s with EmptyString => false | String _ s' => isAheadOfChainHead s' end.

(** lowestAvailableHeightRE.FindStringSubmatch: the digits of the leftmost match. *)
Fixpoint lowestAvailableHeightRE (s : string) : option string :=
  match strip_prefix "lowest height is " s with
  | Some r => match span_digits r with
              | (String c d, _) => Some (String c d)
              | _ => match s with String _ s' => lowestAvailableHeightRE s' | EmptyString => None end
              end
  | None => match s with String _ s' => lowestAvailableHeightRE s' | EmptyString => None end
  end.

Definition LowestAvailableHeight (err : option string) : option Z :=
  match err with
  | None => None
  | Some err =>
      match lowestAvailableHeightRE err with
      | None => None
      | Some digits =>
          match strconv_Atoi digits with
          | Ok height => if bool_decide (0 < height) then Some height else None
          | _ => None
          end
      end
  end.

(** ** fetchWithRetry *)

(** What happens around one attempt: the context's error before it, the error
    of the call, and the context's error while waiting to retry. *)
Record attempt_env := mkAttempt {
  ctx_before : option error;
  call_err : option string;
  ctx_wait : option error;
}.

(** [None]: the given attempts are used up and the loop is still running. *)
Fixpoint fetch_attempts (allowGaps : bool) (attempt : nat) (envs : list attempt_env) : option (res error unit) :=
  if bool_decide (retryAttempts ≤ attempt)%nat then Some (Ok tt)
  else
    match envs with
    | [] => None
    | e :: envs =>
        match ctx_before e, call_err e with
        | Some err, _ => Some (Err err)
        | None, None => Some (Ok tt)
        | None, Some err =>
            if isAheadOfChainHead err then
              match ctx_wait e with
              | Some err => Some (Err err)
              | None => fetch_attempts allowGaps attempt envs
              end
            else if allowGaps && isNotFound err then Some (Err (Sentinel ErrBlockUnavailable))
            else if bool_decide (attempt = retryAttempts - 1)%nat then Some (Err (New err))
            else
              match ctx_wait e with
              | Some err => Some (Err err)
              | None => fetch_attempts allowGaps (S attempt) envs
              end
        end
    end.

Definition fetchWithRetry (allowGaps : bool) (envs : list attempt_env) : option (res error unit) :=
  fetch_attempts allowGaps 0 envs.

(** ** fetchBlockByNum *)

Section data.
Context {Validator : Type}.

Record NewBlockData := mkNewBlockData {
  nb_Height : Z;
  nb_Block : option Block;
  nb_BlockResults : option ResultBlockResults;
  nb_ActiveSet : list Validator;
  nb_Skipped : bool;
}.

Definition err_of {A} (r : res error A) : list error := match r with Err e => [e] | _ => [] end.

(** The results of the three requests, and the errors in the order they were sent. *)
Definition fetchBlockByNum (fetchValidators : bool) (height : Z) (block : res error (option Block))
    (blockResults : res error ResultBlockResults) (validators : res error (list Validator)) (errC : list error) :
    res error NewBlockData :=
  match errC with
  | err :: _ => Err err
  | [] =>
      match block with
      | Ok b => Ok (mkNewBlockData (int64 height) b
                      (match blockResults with Ok r => Some r | _ => None end)
                      (if fetchValidators then match validators with Ok v => v | _ => [] end else []) false)
      | _ => Panic "nil pointer dereference"
      end
  end.

Definition sent_errors (fetchValidators : bool) (block : res error (option Block))
    (blockResults : res error ResultBlockResults) (validators : res error (list Validator)) : list error :=
  err_of block ++ err_of blockResults ++ (if fetchValidators then err_of validators else []).

(** ** The loops of SyncRange and SyncForward *)

(** What the select of one iteration yields: a block, the closed channel, or
    the context's error. *)
Inductive stream_item := SBlock (nb : NewBlockData) | SClosed | SDone (err : error).

(** NewSyncer: the number of jobs. *)
Definition NewSyncer_jobs (jobs : Z) : Z := if bool_decide (jobs ≤ 0) then 1 else jobs.

Section loop.
Context {S : Type} (handler : NewBlockData → S → res error unit * S).

(** [None]: the given items are used up and the loop waits. *)
Fixpoint sync_loop (end_ : option Z) (expected : Z) (items : list stream_item) (st : S) :
    option (res error unit) * S :=
  if match end_ with Some e => bool_decide (e < expected) | None => false end then (Some (Ok tt), st)
  else
    match items with
    | [] => (None, st)
    | SDone err :: _ => (Some (Err err), st)
    | SClosed :: _ => (Some (Err (New "block stream closed")), st)
    | SBlock nb :: items =>
        if bool_decide (nb_Height nb ≠ expected) then
          (Some (Err (Errorf "sequential block height mismatch: expected %d, got %d")), st)
        else if nb_Skipped nb then sync_loop end_ (int64 (expected + 1)) items st
        else
          match handler nb st with
          | (Ok _, st) => sync_loop end_ (int64 (expected + 1)) items st
          | (Err e, st) => (Some (Err e), st)
          | (Panic m, st) => (Some (Panic m), st)
          end
    end.

Definition SyncRange (start end_ : Z) (items : list stream_item) (st : S) : option (res error unit) * S :=
  if bool_decide (start < 0) then (Some (Err (Errorf "negative start block %d")), st)
  else if bool_decide (end_ < start) then (Some (Ok tt), st)
  else sync_loop (Some end_) start items st.

Definition SyncForward (start : Z) (items : list stream_item) (st : S) : option (res error unit) * S :=
  if bool_decide (start < 0) then (Some (Err (Errorf "negative start block %d")), st)
  else sync_loop None start items st.
End loop.

(** ** The getter: jobs, announcer, channel, consumer *)

Inductive direction := Forward | Backward.

(** A job takes a height, fetches it, and waits while too many blocks are held. *)
Inductive job := JTake | JFetch (height : Z) | JThrottled | JExit.

(** announceBlocks: at the top of the loop; under the lock; waiting on the
    condition variable; sending a block; returned. *)
Inductive announcer :=
| ATop (height : Z)
| ACheck (height : Z)
| AWait (height : Z)
| ASend (height : Z) (ev : NewBlockData)
| AExit.

(** SyncRange: receiving; returning (the deferred Close has not run); the
    condition signalled; closed. *)
Inductive consumer :=
| CRecv (expected : Z)
| CReturn (result : res error unit)
| CSignalled (result : res error unit)
| CClosed (result : res error unit).

Record state := mkGetter {
  b_height : Z;
  jobs : list job;
  newBlocksMap : gmap Z NewBlockData;
  ann : announcer;
  newBlocksC : list NewBlockData;
  chan_closed : bool;
  closeC : bool;
  cancelled : bool;
  cons : consumer;
  delivered : list NewBlockData;
}.

Definition isDone (s : state) : bool := closeC s || cancelled s.

(** [clientCancels]: the client may answer context.Canceled while the context
    of the getter is live. *)
Context (dir : direction) (allowGaps clientCancels : bool) (start : Z) (end_ : option Z).

Definition advance (height : Z) : Z :=
  match dir with Forward => uint64 (height + 1) | Backward => uint64 (height - 1) end.

(** newBlockGetter *)
Definition init (njobs : nat) : state :=
  mkGetter (uint64 start) (replicate njobs JTake) ∅
    (ATop (match dir with Forward => uint64 start | Backward => uint64 (uint64 start - 1) end))
    [] false false false (CRecv start) [].

Definition capacity (s : state) : nat := length (jobs s) * 100.
Definition limit (s : state) : nat := 1024 * length (jobs s).

(** jobCond.Signal: wakes the announcer if it waits. *)
Definition wake (a : announcer) : announcer := match a with AWait h => ACheck h | a => a end.

Definition set_job (s : state) (i : nat) (j : job) : state :=
  mkGetter (b_height s) (<[i := j]> (jobs s)) (newBlocksMap s) (ann s) (newBlocksC s) (chan_closed s)
    (closeC s) (cancelled s) (cons s) (delivered s).
Definition set_ann (s : state) (a : announcer) : state :=
  mkGetter (b_height s) (jobs s) (newBlocksMap s) a (newBlocksC s) (chan_closed s)
    (closeC s) (cancelled s) (cons s) (delivered s).
Definition set_cons (s : state) (c : consumer) : state :=
  mkGetter (b_height s) (jobs s) (newBlocksMap s) (ann s) (newBlocksC s) (chan_closed s)
    (closeC s) (cancelled s) c (delivered s).

(** getHeightToFetch *)
Definition take_height (s : state) (i : nat) : state :=
  mkGetter (advance (b_height s)) (<[i := JFetch (b_height s)]> (jobs s)) (newBlocksMap s) (ann s) (newBlocksC s)
    (chan_closed s) (closeC s) (cancelled s) (cons s) (delivered s).

(** newBlocksMap[height] = newBlock; Signal; throttle when the map is large. *)
Definition store_block (s : state) (i : nat) (height : Z) (nb : NewBlockData) : state :=
  let m := <[height := nb]> (newBlocksMap s) in
  mkGetter (b_height s) (<[i := if bool_decide (limit s < size m)%nat then JThrottled else JTake]> (jobs s)) m
    (wake (ann s)) (newBlocksC s) (chan_closed s) (closeC s) (cancelled s) (cons s) (delivered s).

(** The announcer returns: close(newBlocksC). *)
Definition ann_exit (s : state) : state :=
  mkGetter (b_height s) (jobs s) (newBlocksMap s) AExit (newBlocksC s) true
    (closeC s) (cancelled s) (cons s) (delivered s).

Definition ann_found (s : state) (height : Z) (ev : NewBlockData) : state :=
  mkGetter (b_height s) (jobs s) (delete height (newBlocksMap s)) (ASend height ev) (newBlocksC s) (chan_closed s)
    (closeC s) (cancelled s) (cons s) (delivered s).

Definition ann_sent (s : state) (height : Z) (ev : NewBlockData) : state :=
  let s := mkGetter (b_height s) (jobs s) (newBlocksMap s) (ann s) (newBlocksC s ++ [ev]) (chan_closed s)
             (closeC s) (cancelled s) (cons s) (delivered s) in
  match dir with
  | Forward => set_ann s (ATop (advance height))
  | Backward => if bool_decide (advance height = 0) then ann_exit s else set_ann s (ATop (advance height))
  end.

(** The head of the channel reaches the loop of SyncRange; [outcome] is the
    handler's error. *)
Definition receive (s : state) (expected : Z) (nb : NewBlockData) (rest : list NewBlockData) (outcome : option error) :
    state :=
  let after c d := mkGetter (b_height s) (jobs s) (newBlocksMap s) (ann s) rest (chan_closed s)
                     (closeC s) (cancelled s) c d in
  if bool_decide (nb_Height nb ≠ expected) then
    after (CReturn (Err (Errorf "sequential block height mismatch: expected %d, got %d"))) (delivered s)
  else
    match (if nb_Skipped nb then None else outcome) with
    | Some err => after (CReturn (Err err)) (delivered s)
    | None =>
        let next := int64 (expected + 1) in
        after (match end_ with
               | Some e => if bool_decide (next ≤ e) then CRecv next else CReturn (Ok tt)
               | None => CRecv next
               end) (delivered s ++ [nb])
    end.

(** A block the client can return for a height. *)
Definition fetched (height : Z) (nb : NewBlockData) : Prop :=
  nb_Height nb = int64 height ∧ nb_Skipped nb = false.

Definition skipped (height : Z) : NewBlockData := mkNewBlockData (int64 height) None None [] true.

Inductive step : state → state → Prop :=
| StTake s i : jobs s !! i = Some JTake → step s (take_height s i)
| StDone s i h : jobs s !! i = Some (JFetch h) → isDone s = true ∨ clientCancels = true → step s (set_job s i JExit)
| StFetched s i h nb : jobs s !! i = Some (JFetch h) → fetched h nb → step s (store_block s i h nb)
| StUnavailable s i h : jobs s !! i = Some (JFetch h) → allowGaps = true → step s (store_block s i h (skipped h))
| StRetry s i h : jobs s !! i = Some (JFetch h) → step s s
| StThrottle s i : jobs s !! i = Some JThrottled →
    step s (if bool_decide (limit s < size (newBlocksMap s))%nat then s else set_job s i JTake)
| StTop s h : ann s = ATop h → step s (if isDone s then ann_exit s else set_ann s (ACheck h))
| StFound s h ev : ann s = ACheck h → newBlocksMap s !! h = Some ev → step s (ann_found s h ev)
| StMissing s h : ann s = ACheck h → newBlocksMap s !! h = None →
    step s (if isDone s then ann_exit s else set_ann s (AWait h))
| StSend s h ev : ann s = ASend h ev → (length (newBlocksC s) < capacity s)%nat → step s (ann_sent s h ev)
| StReceive s e nb rest outcome : cons s = CRecv e → newBlocksC s = nb :: rest →
    step s (receive s e nb rest outcome)
| StContext s e : cons s = CRecv e → cancelled s = true →
    step s (set_cons s (CReturn (Err (Sentinel context_Canceled))))
| StStreamClosed s e : cons s = CRecv e → newBlocksC s = [] → chan_closed s = true →
    step s (set_cons s (CReturn (Err (New "block stream closed"))))
| StSignal s r : cons s = CReturn r → step s (set_cons (set_ann s (wake (ann s))) (CSignalled r))
| StClose s r : cons s = CSignalled r →
    step s (mkGetter (b_height s) (jobs s) (newBlocksMap s) (ann s) (newBlocksC s) (chan_closed s)
              true (cancelled s) (CClosed r) (delivered s))
| StCancel s :
    step s (mkGetter (b_height s) (jobs s) (newBlocksMap s) (ann s) (newBlocksC s) (chan_closed s)
              (closeC s) true (cons s) (delivered s)).

(** Runs in which the next height to fetch stays below 2^63. *)
Definition bounded_step (s s' : state) : Prop := step s s' ∧ b_height s' < 2 ^ 63.
Definition reachable (njobs : nat) (s : state) : Prop := rtc bounded_step (init njobs) s.
End data.
End Blocksync.
