(* ===== verification/BlocksyncProps.v ===== *)
(** * Properties of block synchronisation

    Retries end and report what happened; the getter delivers every height once and
    in order, never loses a height and never deadlocks while it is open; a
    getter that was closed can leave a job running for ever. *)

From Stdlib Require Import Ascii String.
From S2P Require Import Prelude Bytes GoLib EthTypes ParsedTx Blocksync.
From stdpp Require Import strings list relations.
#[local] Open Scope Z_scope.

Module BlocksyncProps.
Import GoLib EthTypes Blocksync.

(** ** Retries *)

(** An attempt that does not count: the node is behind and the context is live. *)
Definition waits_for_head (x : attempt_env) : bool :=
  match ctx_before x, call_err x, ctx_wait x with
  | None, Some err, None => isAheadOfChainHead err
  | _, _, _ => false
  end.

(** A counted attempt that failed and may be repeated. *)
Definition failed_attempt (allowGaps : bool) (x : attempt_env) : bool :=
  match ctx_before x, call_err x, ctx_wait x with
  | None, Some err, None => negb (isAheadOfChainHead err) && negb (allowGaps && isNotFound err)
  | _, _, _ => false
  end.

(** How an attempt made after [n] counted ones ends the fetch. *)
Definition ends_fetch (allowGaps : bool) (n : nat) (x : attempt_env) (r : res error unit) : Prop :=
  match ctx_before x, call_err x with
  | Some err, _ => r = Err err
  | None, None => r = Ok tt
  | None, Some err =>
      if isAheadOfChainHead err then ∃ c, ctx_wait x = Some c ∧ r = Err c
      else if allowGaps && isNotFound err then r = Err (Sentinel ErrBlockUnavailable)
      else if bool_decide (n = retryAttempts - 1)%nat then r = Err (New err)
      else ∃ c, ctx_wait x = Some c ∧ r = Err c
  end.

Definition retried (allowGaps : bool) (y : attempt_env) : bool := waits_for_head y || failed_attempt allowGaps y.

(** The attempts split into those that were retried and the one that ended the fetch. *)
Definition fetch_trace (allowGaps : bool) (k : nat) (envs : list attempt_env) (r : res error unit) : Prop :=
  ∃ pre x post, envs = pre ++ x :: post ∧ Forall (λ y, retried allowGaps y = true) pre ∧
    (k + length (filter (λ y, failed_attempt allowGaps y = true) pre) < retryAttempts)%nat ∧
    ends_fetch allowGaps (k + length (filter (λ y, failed_attempt allowGaps y = true) pre)) x r.

Lemma fetch_trace_last allowGaps k x envs r :
  (k < retryAttempts)%nat → ends_fetch allowGaps k x r → fetch_trace allowGaps k (x :: envs) r.
Proof. intros Hk He. exists [], x, envs. cbn. rewrite Nat.add_0_r. by split_and!. Qed.

Lemma fetch_trace_cons allowGaps k k' x envs r :
  retried allowGaps x = true → k' = (if failed_attempt allowGaps x then S k else k) →
  fetch_trace allowGaps k' envs r → fetch_trace allowGaps k (x :: envs) r.
Proof.
  intros Hx -> (pre & y & post & -> & Hpre & Hlt & He). exists (x :: pre), y, post.
  rewrite filter_cons. destruct (failed_attempt allowGaps x) eqn:Hf; cbn.
  - rewrite decide_True by done. cbn. rewrite Nat.add_succ_r. split_and!; [done|by constructor|done|done].
  - rewrite decide_False by done. split_and!; [done|by constructor|done|done].
Qed.

Lemma fetch_attempts_trace allowGaps k envs r :
  (k < retryAttempts)%nat → fetch_attempts allowGaps k envs = Some r → fetch_trace allowGaps k envs r.
Proof.
  revert k. induction envs as [|x envs IH]; intros k Hk Hf; cbn -[retryAttempts] in Hf;
    rewrite bool_decide_eq_false_2 in Hf by lia; [done|].
  destruct (ctx_before x) as [cb|] eqn:Hcb.
  { injection Hf as <-. apply fetch_trace_last; [done|]. unfold ends_fetch. by rewrite Hcb. }
  destruct (call_err x) as [err|] eqn:Hce.
  2: { injection Hf as <-. apply fetch_trace_last; [done|]. unfold ends_fetch. by rewrite Hcb, Hce. }
  destruct (isAheadOfChainHead err) eqn:Hah.
  { destruct (ctx_wait x) as [cw|] eqn:Hcw.
    - injection Hf as <-. apply fetch_trace_last; [done|]. unfold ends_fetch. rewrite Hcb, Hce, Hah. eauto.
    - apply (fetch_trace_cons _ _ k); [| |by apply IH]; unfold retried, waits_for_head, failed_attempt;
        by rewrite Hcb, Hce, Hcw, Hah. }
  destruct (allowGaps && isNotFound err) eqn:Hnf.
  { injection Hf as <-. apply fetch_trace_last; [done|]. unfold ends_fetch. by rewrite Hcb, Hce, Hah, Hnf. }
  case_bool_decide as Hl.
  { injection Hf as <-. apply fetch_trace_last; [done|]. unfold ends_fetch. rewrite Hcb, Hce, Hah, Hnf.
    by rewrite bool_decide_eq_true_2. }
  destruct (ctx_wait x) as [cw|] eqn:Hcw.
  - injection Hf as <-. apply fetch_trace_last; [done|]. unfold ends_fetch. rewrite Hcb, Hce, Hah, Hnf.
    rewrite bool_decide_eq_false_2 by done. eauto.
  - apply (fetch_trace_cons _ _ (S k)); [| |apply IH; [lia|done]]; unfold retried, waits_for_head, failed_attempt;
      by rewrite Hcb, Hce, Hcw, Hah, Hnf.
Qed.

(** With enough attempts that are not waits for the head, the loop ends. *)
Lemma fetch_attempts_ends allowGaps k envs :
  (retryAttempts ≤ k + length (filter (λ y, waits_for_head y = false) envs))%nat →
  is_Some (fetch_attempts allowGaps k envs).
Proof.
  revert k. induction envs as [|x envs IH]; intros k Hk; cbn -[retryAttempts]; (case_bool_decide as E; [done|]).
  { cbn -[retryAttempts] in Hk. lia. }
  assert (waits_for_head x = true → (retryAttempts ≤ k + length (filter (λ y, waits_for_head y = false) envs))%nat) as Hw.
  { intros Hw. rewrite filter_cons, decide_False in Hk by congruence. done. }
  assert (retryAttempts ≤ S k + length (filter (λ y, waits_for_head y = false) envs))%nat as Hs.
  { rewrite filter_cons in Hk. case_decide; cbn -[retryAttempts] in Hk; lia. }
  unfold waits_for_head at 1 in Hw.
  destruct (ctx_before x); [done|]. destruct (call_err x) as [err|]; [|done].
  destruct (isAheadOfChainHead err) eqn:Hah; [destruct (ctx_wait x); [done|by apply IH, Hw]|].
  destruct (allowGaps && isNotFound err); [done|]. case_bool_decide; [done|]. destruct (ctx_wait x); [done|by apply IH].
Qed.

(** C38.  fetchWithRetry: as soon as ten attempts were made that are not waits
    for the chain head, it has returned; and what it returns is the
    outcome of the attempt that ended it (the call's success, the
    context's error, ErrBlockUnavailable for a missing block when gaps are
    allowed, or the tenth counted error), all attempts before it having
    failed in a way that is retried, with fewer than ten counted ones.  In
    particular it reports success only if the call succeeded. *)
Theorem fetchWithRetry_outcome allowGaps envs :
  (retryAttempts ≤ length (filter (λ y, waits_for_head y = false) envs))%nat →
  ∃ r, fetchWithRetry allowGaps envs = Some r ∧ fetch_trace allowGaps 0 envs r.
Proof.
  intros Hl. destruct (fetch_attempts_ends allowGaps 0 envs Hl) as [r Hr]. exists r. split; [done|].
  apply fetch_attempts_trace; [unfold retryAttempts; lia|done].
Qed.

Lemma fetchWithRetry_outcome_witness :
  ∃ r, fetchWithRetry true (mkAttempt None (Some "height 12 must be less than or equal to the current blockchain height 11"%string) None
                            :: replicate 10 (mkAttempt None (Some "EOF"%string) None)) = Some r ∧ r = Err (New "EOF"%string).
Proof.
  destruct (fetchWithRetry_outcome true
    (mkAttempt None (Some "height 12 must be less than or equal to the current blockchain height 11"%string) None
     :: replicate 10 (mkAttempt None (Some "EOF"%string) None))) as (r & Hr & _); [vm_compute; lia|].
  exists r. split; [exact Hr|]. vm_compute in Hr. by injection Hr as <-.
Defined.

(** ** Jobs *)

Definition fetches (l : list job) (h : Z) : Prop := ∃ i, l !! i = Some (JFetch h).
Definition once (l : list job) : Prop :=
  ∀ i j h, l !! i = Some (JFetch h) → l !! j = Some (JFetch h) → i = j.

Lemma job_lookup (l : list job) i j i' :
  (i < length l)%nat → <[i := j]> l !! i' = if decide (i = i') then Some j else l !! i'.
Proof. intros Hi. case_decide as E; [subst; by rewrite list_lookup_insert_eq|by rewrite list_lookup_insert_ne]. Qed.

(** A job that was fetching [h0] gives it up. *)
Lemma fetches_give l i h0 j h :
  once l → l !! i = Some (JFetch h0) → (∀ h, j ≠ JFetch h) →
  fetches (<[i := j]> l) h ↔ fetches l h ∧ h ≠ h0.
Proof.
  intros Ho Hi Hj. pose proof (lookup_lt_Some _ _ _ Hi) as Hlt. split.
  - intros [i' Hi']. rewrite job_lookup in Hi' by done. case_decide as E; [by injection Hi' as ->; destruct (Hj h)|].
    split; [by exists i'|]. intros ->. apply E. by eapply Ho.
  - intros [[i' Hi'] Hne]. exists i'. rewrite job_lookup by done. case_decide as E; [subst i'; congruence|done].
Qed.

(** A job that was not fetching takes [h0], or stays idle. *)
Lemma fetches_take l i j0 h0 h :
  l !! i = Some j0 → (∀ h, j0 ≠ JFetch h) → fetches (<[i := JFetch h0]> l) h ↔ h = h0 ∨ fetches l h.
Proof.
  intros Hi Hj. pose proof (lookup_lt_Some _ _ _ Hi) as Hlt. split.
  - intros [i' Hi']. rewrite job_lookup in Hi' by done. case_decide; [left; congruence|right; by exists i'].
  - intros [->|[i' Hi']]; [exists i|exists i']; rewrite job_lookup by done; case_decide as E; try done.
    subst i'. rewrite Hi in Hi'. injection Hi' as ->. by destruct (Hj h).
Qed.

Lemma fetches_idle l i j0 j h :
  l !! i = Some j0 → (∀ h, j0 ≠ JFetch h) → (∀ h, j ≠ JFetch h) → fetches (<[i := j]> l) h ↔ fetches l h.
Proof.
  intros Hi Hj0 Hj. pose proof (lookup_lt_Some _ _ _ Hi) as Hlt. split; intros [i' Hi']; exists i'.
  - rewrite job_lookup in Hi' by done. case_decide; [|done]. injection Hi' as ->. by destruct (Hj h).
  - rewrite job_lookup by done. case_decide as E; [|done]. subst i'. rewrite Hi in Hi'. injection Hi' as ->. by destruct (Hj0 h).
Qed.

Lemma once_idle (l : list job) (i : nat) j : once l → (∀ h, j ≠ JFetch h) → once (<[i := j]> l).
Proof.
  intros Ho Hj. destruct (decide (i < length l)%nat) as [Hlt|]; [|by rewrite list_insert_ge by lia].
  intros i1 i2 h. rewrite !job_lookup by done. repeat case_decide; try done; try (by intros [= E]; destruct (Hj h)).
  - by intros _ [= E]; destruct (Hj h).
  - apply Ho.
Qed.

Lemma once_take l i h0 : once l → ¬ fetches l h0 → once (<[i := JFetch h0]> l).
Proof.
  intros Ho Hn. destruct (decide (i < length l)%nat) as [Hlt|]; [|by rewrite list_insert_ge by lia].
  intros i1 i2 h. rewrite !job_lookup by done. repeat case_decide; try congruence.
  - intros [= <-] H2. destruct Hn. by exists i2.
  - intros H1 [= <-]. destruct Hn. by exists i1.
  - apply Ho.
Qed.

Lemma exit_not_in (l : list job) (i : nat) j : JExit ∉ l → j ≠ JExit → JExit ∉ <[i := j]> l.
Proof.
  intros Hl Hj [k Hk]%list_elem_of_lookup. destruct (decide (i < length l)%nat) as [Hlt|].
  - rewrite job_lookup in Hk by done. case_decide; [congruence|]. apply Hl. by eapply list_elem_of_lookup_2.
  - rewrite list_insert_ge in Hk by lia. apply Hl. by eapply list_elem_of_lookup_2.
Qed.

Section getter.
Context {Validator : Type}.
Notation NewBlockData := (@NewBlockData Validator).
Notation state := (@state Validator).
Notation announcer := (@announcer Validator).
Context (allowGaps clientCancels : bool) (start : Z) (end_ : option Z).
Context (Hstart : 0 ≤ start < 2 ^ 63).

Notation step := (step Forward allowGaps clientCancels end_).
Notation bounded_step := (bounded_step Forward allowGaps clientCancels end_).
Notation init := (init Forward start).
Notation reachable := (reachable Forward allowGaps clientCancels start end_).

(** ** Invariant *)

(** The announcer is at height [a]. *)
Definition ann_at (x : announcer) (a : Z) : Prop :=
  match x with
  | ATop h | ACheck h | AWait h => h = a
  | ASend h ev => h = a ∧ nb_Height ev = a
  | AExit => True
  end.

(** The first height not yet taken out of the map. *)
Definition pending (x : announcer) (a : Z) : Z := match x with ASend _ _ => a + 1 | _ => a end.

Definition fetching (s : state) (h : Z) : Prop := fetches (jobs s) h.
Definition held (s : state) (h : Z) : Prop := is_Some (newBlocksMap s !! h).

(** SyncRange has returned without an error. *)
Definition returned_ok (c : consumer) : Prop :=
  match c with CRecv _ => False | CReturn r | CSignalled r | CClosed r => r = Ok tt end.

Record getter_inv (njobs : nat) (s : state) (a : Z) : Prop := mkGetterInv {
  gi_ann : ann_at (ann s) a;
  gi_bounds : start ≤ a ∧ pending (ann s) a ≤ b_height s ∧ b_height s < 2 ^ 63;
  gi_range : ∀ h, held s h ∨ fetching s h → pending (ann s) a ≤ h < b_height s;
  gi_cover : JExit ∉ jobs s → ∀ h, pending (ann s) a ≤ h < b_height s → held s h ∨ fetching s h;
  gi_disjoint : ∀ h, held s h → ¬ fetching s h;
  gi_once : once (jobs s);
  gi_heights : ∀ h nb, newBlocksMap s !! h = Some nb → nb_Height nb = h;
  gi_wait : ∀ h, ann s = AWait h → newBlocksMap s !! h = None;
  gi_njobs : length (jobs s) = njobs;
  gi_open : isDone s = false → ann s ≠ AExit ∧ chan_closed s = false ∧ (clientCancels = false → JExit ∉ jobs s);
  gi_delivered : nb_Height <$> delivered s = seqZ start (Z.of_nat (length (delivered s)));
  gi_recv : ∀ e, cons s = CRecv e → e = start + Z.of_nat (length (delivered s)) ∧
              nb_Height <$> newBlocksC s = seqZ e (a - e) ∧ e ≤ a ∧
              match end_ with Some z => start ≤ z → e ≤ z | None => True end;
  gi_ok : returned_ok (cons s) →
            ∃ z, end_ = Some z ∧ (start ≤ z → Z.of_nat (length (delivered s)) = z - start + 1);
}.

Lemma init_inv njobs : getter_inv njobs (init njobs) start.
Proof.
  unfold init. rewrite (uint64_small start) by (gate_ints; lia).
  assert (∀ i h, replicate njobs JTake !! i = Some (JFetch h) → False) as Hj.
  { intros i h. intros [? _]%lookup_replicate. done. }
  constructor; cbn; try done.
  - lia.
  - intros h. unfold held, fetching. cbn. intros [[? Hh]|[i Hi]]; [done|by eapply Hj in Hi].
  - lia.
  - intros h [? Hh]. done.
  - by intros i j h ?%Hj.
  - by rewrite length_replicate.
  - intros _. split_and!; [done..|]. intros _ [? _]%elem_of_replicate. done.
  - intros e [= <-]. rewrite Z.sub_diag. split_and!; [lia|done|lia|]. by destruct end_.
Qed.

(** ** Steps *)

Lemma exit_back (l : list job) (i : nat) j0 j :
  l !! i = Some j0 → j0 ≠ JExit → JExit ∉ <[i := j]> l → JExit ∉ l.
Proof.
  intros Hi Hj Hn [k Hk]%list_elem_of_lookup. apply Hn. apply list_elem_of_lookup. exists k.
  rewrite job_lookup by (by eapply lookup_lt_Some). case_decide; [subst; congruence|done].
Qed.

Lemma take_inv njobs s a i :
  getter_inv njobs s a → jobs s !! i = Some JTake → b_height (take_height Forward s i) < 2 ^ 63 →
  getter_inv njobs (take_height Forward s i) a.
Proof.
  intros [I1 I2 I3 I3' I4 I5 I6 I7 I8 I9 I10 I11 I12] Hi Hb. cbn in Hb.
  assert (uint64 (b_height s + 1) = b_height s + 1) as Hu
    by (apply uint64_small; destruct (ann s); cbn in *; gate_ints; lia).
  assert (¬ fetching s (b_height s)) as Hn by (intros Hf; pose proof (I3 _ (or_intror Hf)); lia).
  constructor; try done; cbn; rewrite ?Hu in *.
  - lia.
  - intros h. unfold fetching. cbn. rewrite (fetches_take _ _ _ _ _ Hi) by done.
    intros [Hh|[->|Hf]]; [pose proof (I3 h (or_introl Hh)); lia|lia|pose proof (I3 h (or_intror Hf)); lia].
  - intros He h Hr. unfold fetching. cbn. rewrite (fetches_take _ _ _ _ _ Hi) by done.
    destruct (decide (h = b_height s)) as [->|]; [tauto|]. apply exit_back with (j0 := JTake) in He; [|done..].
    destruct (I3' He h); [lia|by left|by right; right].
  - intros h Hh. unfold fetching. cbn. rewrite (fetches_take _ _ _ _ _ Hi) by done. intros [->|Hf]; [|by eapply I4].
    pose proof (I3 (b_height s) (or_introl Hh)). lia.
  - by apply once_take.
  - by rewrite length_insert.
  - intros Hd. destruct (I9 Hd) as (? & ? & Hx). split_and!; [done..|]. intros Hc. apply exit_not_in; [by apply Hx|done].
Qed.

(** A job that holds no height changes its state. *)
Lemma idle_inv njobs s a i j0 j :
  getter_inv njobs s a → jobs s !! i = Some j0 → (∀ h, j0 ≠ JFetch h) → j0 ≠ JExit →
  (∀ h, j ≠ JFetch h) → j ≠ JExit → getter_inv njobs (set_job s i j) a.
Proof.
  intros [I1 I2 I3 I3' I4 I5 I6 I7 I8 I9 I10 I11 I12] Hi Hj0 Hx0 Hj Hx. constructor; try done; cbn.
  - intros h. unfold fetching. cbn. rewrite (fetches_idle _ _ _ _ _ Hi) by done. apply I3.
  - intros He h. unfold fetching. cbn. rewrite (fetches_idle _ _ _ _ _ Hi) by done. apply I3'. by eapply exit_back.
  - intros h Hh. unfold fetching. cbn. rewrite (fetches_idle _ _ _ _ _ Hi) by done. by apply I4.
  - by apply once_idle.
  - by rewrite length_insert.
  - intros Hd. destruct (I9 Hd) as (? & ? & Hx'). split_and!; [done..|]. intros Hc. apply exit_not_in; [by apply Hx'|done].
Qed.

(** A job that stops leaves its height unfetched. *)
Lemma done_inv njobs s a i h :
  getter_inv njobs s a → jobs s !! i = Some (JFetch h) → isDone s = true ∨ clientCancels = true →
  getter_inv njobs (set_job s i JExit) a.
Proof.
  intros [I1 I2 I3 I3' I4 I5 I6 I7 I8 I9 I10 I11 I12] Hi Hd.
  constructor; try done; cbn.
  - intros h'. unfold fetching. cbn. rewrite (fetches_give _ _ _ _ _ I5 Hi) by done. intros [?|[??]]; apply I3; tauto.
  - intros He. destruct He. apply list_elem_of_lookup. exists i. apply list_lookup_insert_eq. by eapply lookup_lt_Some.
  - intros h' Hh. unfold fetching. cbn. rewrite (fetches_give _ _ _ _ _ I5 Hi) by done. intros [? _]. by eapply I4.
  - by apply once_idle.
  - by rewrite length_insert.
  - intros Hd'. destruct (I9 Hd') as (? & ? & _). split_and!; [done..|]. intros Hc. unfold isDone in *. cbn in *.
    destruct Hd; congruence.
Qed.

Lemma ann_at_wake (x : announcer) a : ann_at (wake x) a ↔ ann_at x a.
Proof. by destruct x. Qed.
Lemma pending_wake (x : announcer) a : pending (wake x) a = pending x a.
Proof. by destruct x. Qed.
Lemma wake_wait (x : announcer) h : wake x ≠ AWait h.
Proof. by destruct x. Qed.
Lemma wake_exit (x : announcer) : wake x = AExit → x = AExit.
Proof. by destruct x. Qed.

Lemma wake_send (x : announcer) h nb : wake x = ASend h nb → x = ASend h nb.
Proof. by destruct x. Qed.

Lemma store_inv njobs s a i h nb :
  getter_inv njobs s a → jobs s !! i = Some (JFetch h) → nb_Height nb = int64 h →
  getter_inv njobs (store_block s i h nb) a.
Proof.
  intros [I1 I2 I3 I3' I4 I5 I6 I7 I8 I9 I10 I11 I12] Hi Hh.
  assert (fetching s h) as Hf by (by exists i). pose proof (I3 h (or_intror Hf)) as Hr.
  assert (int64 h = h) as H64 by (apply int64_small; destruct (ann s); cbn in *; gate_ints; lia).
  set (j := if bool_decide (limit s < size (<[h := nb]> (newBlocksMap s)))%nat then JThrottled else JTake).
  assert (∀ h, j ≠ JFetch h) as Hj by (intros ?; unfold j; by case_bool_decide).
  assert (j ≠ JExit) as Hx by (unfold j; by case_bool_decide).
  unfold store_block. cbv zeta. fold j. clearbody j. constructor; try done; cbn.
  - by apply ann_at_wake.
  - rewrite pending_wake. done.
  - intros h'. rewrite pending_wake. unfold held, fetching in *. cbn.
    rewrite (fetches_give _ _ _ _ _ I5 Hi) by done. rewrite lookup_insert_is_Some'.
    intros [[<-|?]|[??]]; [done|apply I3; tauto..].
  - intros He h'. rewrite pending_wake. unfold held, fetching in *. cbn.
    rewrite (fetches_give _ _ _ _ _ I5 Hi) by done. rewrite lookup_insert_is_Some'.
    intros Hr'. destruct (decide (h = h')) as [->|]; [tauto|].
    apply exit_back with (j0 := JFetch h) in He; [|done..]. destruct (I3' He h' Hr'); [tauto|right; by split].
  - intros h'. unfold held, fetching. cbn. rewrite (fetches_give _ _ _ _ _ I5 Hi) by done.
    rewrite lookup_insert_is_Some'. intros [<-|Hm]; [tauto|]. intros [Hf' _]. by eapply I4.
  - by apply once_idle.
  - intros h' nb'. rewrite lookup_insert_Some. intros [[<- <-]|[_ ?]]; [congruence|by apply I6].
  - intros h' Hw. by apply wake_wait in Hw.
  - by rewrite length_insert.
  - intros Hd. destruct (I9 Hd) as (Ha & ? & He). split_and!; [by intros ?%wake_exit|done|]. intros Hc.
    apply exit_not_in; [by apply He|done].
Qed.

(** The announcer moves without touching the map or the channel. *)
Lemma ann_move_inv njobs s a x :
  getter_inv njobs s a → ann_at x a → pending x a = pending (ann s) a →
  (∀ h, x = AWait h → newBlocksMap s !! h = None) → (x = AExit → isDone s = true ∨ ann s = AExit) →
  getter_inv njobs (set_ann s x) a.
Proof.
  intros [I1 I2 I3 I3' I4 I5 I6 I7 I8 I9 I10 I11 I12] Ha Hp Hw Hx. constructor; cbn; rewrite ?Hp; try done.
  intros Hd. destruct (I9 Hd) as (? & ? & ?). split_and!; [|done..]. unfold isDone in *. cbn in *. intros E. destruct (Hx E); congruence.
Qed.

Lemma ann_exit_inv njobs s a h :
  getter_inv njobs s a → ann s = ATop h ∨ ann s = ACheck h → isDone s = true → getter_inv njobs (ann_exit s) a.
Proof.
  intros [I1 I2 I3 I3' I4 I5 I6 I7 I8 I9 I10 I11 I12] Ha Hd. constructor; cbn; try done.
  all: try (by destruct Ha as [Ha|Ha]; rewrite Ha in *).
  intros Hd'. unfold isDone in *. cbn in *. congruence.
Qed.

Lemma found_inv njobs s a h ev : getter_inv njobs s a → ann s = ACheck h → newBlocksMap s !! h = Some ev →
  getter_inv njobs (ann_found s h ev) a.
Proof.
  intros [I1 I2 I3 I3' I4 I5 I6 I7 I8 I9 I10 I11 I12] Ha Hm. rewrite Ha in *. cbn in *. subst h.
  assert (held s a) as Hh by (by exists ev). pose proof (I3 a (or_introl Hh)) as Hr.
  constructor; cbn; try done.
  - split; [done|]. by apply I6.
  - lia.
  - intros h. unfold held, fetching in *. cbn. rewrite lookup_delete_is_Some. intros Hor.
    assert (a ≤ h < b_height s) by (apply I3; tauto). enough (a ≠ h) by lia. intros <-.
    destruct Hor as [[? _]|Hf]; [done|]. by eapply I4.
  - intros He h Hr'. unfold held, fetching in *. cbn. rewrite lookup_delete_is_Some.
    destruct (I3' He h); [lia|left; split; [lia|done]|by right].
  - intros h. unfold held, fetching in *. cbn. rewrite lookup_delete_is_Some. intros [_ ?]. by apply I4.
  - intros h nb. rewrite lookup_delete_Some. intros [_ ?]. by apply I6.
  - intros Hd. destruct (I9 Hd). done.
Qed.

Lemma sent_inv njobs s a h ev : getter_inv njobs s a → ann s = ASend h ev →
  getter_inv njobs (ann_sent Forward s h ev) (a + 1).
Proof.
  intros [I1 I2 I3 I3' I4 I5 I6 I7 I8 I9 I10 I11 I12] Ha. rewrite Ha in *. cbn in *. destruct I1 as [-> Hev].
  assert (uint64 (a + 1) = a + 1) as Hu by (apply uint64_small; gate_ints; lia).
  constructor; cbn; rewrite ?Hu; try done.
  - lia.
  - intros Hd. destruct (I9 Hd) as (? & ? & ?). done.
  - intros e Hc. destruct (I11 e Hc) as (He & Hch & Hle & Hz). split_and!; [done| |lia|done].
    rewrite fmap_app, Hch. cbn. rewrite Hev. replace (a + 1 - e) with ((a - e) + 1) by lia.
    rewrite seqZ_app by lia. f_equal. replace (e + (a - e)) with a by lia. done.
Qed.

Lemma seqZ_cons_inv (l : list Z) x e n : x :: l = seqZ e n → 0 < n ∧ x = e ∧ l = seqZ (e + 1) (n - 1).
Proof.
  intros H. destruct (decide (0 < n)) as [Hn|Hn].
  - rewrite seqZ_cons in H by done. injection H as -> ->. rewrite Z.sub_1_r, Z.add_1_r. done.
  - rewrite seqZ_nil in H by lia. done.
Qed.

(** The head of the channel is the height the consumer expects. *)
Lemma head_expected njobs s a e nb rest :
  getter_inv njobs s a → cons s = CRecv e → newBlocksC s = nb :: rest →
  e < a ∧ nb_Height nb = e ∧ nb_Height <$> rest = seqZ (e + 1) (a - (e + 1)).
Proof.
  intros I Hc Hch. destruct (gi_recv _ _ _ I e Hc) as (_ & Hs & _ & _). rewrite Hch in Hs. cbn in Hs.
  apply seqZ_cons_inv in Hs as (? & ? & ->). split_and!; [lia|done|]. f_equal. lia.
Qed.

Lemma receive_inv njobs s a e nb rest outcome :
  getter_inv njobs s a → cons s = CRecv e → newBlocksC s = nb :: rest →
  getter_inv njobs (receive end_ s e nb rest outcome) a.
Proof.
  intros I Hc Hch. destruct (head_expected _ _ _ _ _ _ I Hc Hch) as (Hlt & Hnb & Hrest).
  destruct I as [I1 I2 I3 I3' I4 I5 I6 I7 I8 I9 I10 I11 I12]. destruct (I11 e Hc) as (He & _ & _ & Hz).
  unfold receive. rewrite bool_decide_eq_false_2 by (by intros []).
  destruct (if nb_Skipped nb then None else outcome) as [err|].
  { by constructor; cbn. }
  assert (int64 (e + 1) = e + 1) as Hn by (apply int64_small; destruct (ann s); cbn in *; gate_ints; lia).
  constructor; cbn; rewrite ?Hn; try done; rewrite ?length_app; cbn.
  - rewrite fmap_app, I10, Nat2Z.inj_add, seqZ_app by lia. cbn. rewrite Hnb, <- He. done.
  - intros e'. destruct end_ as [z|]; [case_bool_decide; [|done]|]; intros [= <-]; split_and!; try done; lia.
  - destruct end_ as [z|]; [case_bool_decide|]; [done| |done]. intros _. exists z. split; [done|].
    intros Hsz. specialize (Hz Hsz). lia.
Qed.

(** SyncRange leaves its loop with an error, or closes the getter. *)
Lemma cons_inv njobs s a c :
  getter_inv njobs s a → (∀ e, c ≠ CRecv e) →
  (returned_ok c → returned_ok (cons s)) →
  getter_inv njobs (set_cons s c) a.
Proof.
  intros [I1 I2 I3 I3' I4 I5 I6 I7 I8 I9 I10 I11 I12] Hc Hok. constructor; cbn; try done.
  - intros e E. by destruct (Hc e).
  - intros H. by apply I12, Hok.
Qed.

(** closeC or the context is closed. *)
Lemma close_inv njobs s a cl ca :
  getter_inv njobs s a → (isDone s = true → cl || ca = true) →
  getter_inv njobs (mkGetter (b_height s) (jobs s) (newBlocksMap s) (ann s) (newBlocksC s) (chan_closed s)
                      cl ca (cons s) (delivered s)) a.
Proof.
  intros [I1 I2 I3 I3' I4 I5 I6 I7 I8 I9 I10 I11 I12] Hd. constructor; cbn; try done.
  unfold isDone at 1. cbn. intros E. apply I9. destruct (isDone s); [|done]. rewrite Hd in E; done.
Qed.

Lemma step_inv njobs s s' a :
  getter_inv njobs s a → step s s' → b_height s' < 2 ^ 63 → ∃ a', getter_inv njobs s' a'.
Proof.
  intros I Hs Hb. pose proof (gi_ann _ _ _ I) as Hat. pose proof (gi_wait _ _ _ I) as Hw.
  destruct Hs as [s i Hi|s i h Hi Hd|s i h nb Hi [Hn _]|s i h Hi _|s i h Hi|s i Hi|s h Ha|s h ev Ha Hm|s h Ha Hm
                 |s h ev Ha Hl|s e nb rest o Hc Hch|s e Hc Hca|s e Hc Hch Hcl|s r Hc|s r Hc|s].
  - exists a. by apply take_inv.
  - exists a. by eapply done_inv.
  - exists a. by apply store_inv.
  - exists a. by apply store_inv.
  - by exists a.
  - exists a. case_bool_decide; [done|]. by eapply idle_inv.
  - exists a. rewrite Ha in Hat. destruct (isDone s) eqn:Hd; [by eapply ann_exit_inv; [| |done]; eauto|].
    apply ann_move_inv; rewrite ?Ha; try done.
  - exists a. by apply found_inv.
  - exists a. rewrite Ha in Hat. destruct (isDone s) eqn:Hd; [by eapply ann_exit_inv; [| |done]; eauto|].
    apply ann_move_inv; rewrite ?Ha; try done. by intros ? [= <-].
  - exists (a + 1). by apply sent_inv.
  - exists a. by apply receive_inv.
  - exists a. by apply cons_inv.
  - exists a. by apply cons_inv.
  - exists a. apply cons_inv; [|done|].
    + apply ann_move_inv; rewrite ?ann_at_wake, ?pending_wake; try done.
      * intros h Hx. by apply wake_wait in Hx.
      * intros Hx. right. by apply wake_exit.
    + cbn. by rewrite Hc.
  - exists a. apply (close_inv _ (set_cons s (CClosed r)) a true (cancelled s)); [|done].
    apply cons_inv; [done..|]. by rewrite Hc.
  - exists a. apply close_inv; [done|]. intros _. by rewrite orb_true_r.
Qed.

Lemma steps_inv njobs s s' a : getter_inv njobs s a → rtc bounded_step s s' → ∃ a', getter_inv njobs s' a'.
Proof. intros I Hs. revert a I. induction Hs as [|s1 s2 s3 [H Hb] _ IH]; intros a I; [by exists a|].
  destruct (step_inv _ _ _ _ I H Hb) as [a' I']. by eapply IH. Qed.

Lemma reachable_inv njobs s : reachable njobs s → ∃ a, getter_inv njobs s a.
Proof. apply steps_inv with start, init_inv. Qed.

(** The step that receives a block is one iteration of the loop: with the
    handler answering [outcome], the loop returns what the consumer returns, or goes on at the
    height the consumer goes on at. *)
Lemma receive_sync_loop {S} (handler : NewBlockData → S → res error unit * S) s e nb rest outcome items st st' :
  handler nb st = (match outcome with Some err => Err err | None => Ok tt end, st') →
  match end_ with Some z => e ≤ z | None => True end →
  sync_loop handler end_ e (SBlock nb :: items) st =
    let st1 := if bool_decide (nb_Height nb ≠ e) || nb_Skipped nb then st else st' in
    match cons (receive end_ s e nb rest outcome) with
    | CRecv e' => sync_loop handler end_ e' items st1
    | CReturn r | CSignalled r | CClosed r => (Some r, st1)
    end.
Proof.
  intros Hh He. cbn [sync_loop]. unfold receive.
  replace (match end_ with Some z => bool_decide (z < e) | None => false end) with false
    by (destruct end_; [by rewrite bool_decide_eq_false_2 by lia|done]).
  case_bool_decide; [done|]. cbn. destruct (nb_Skipped nb); [|rewrite Hh; destruct outcome as [err|]; [done|]].
  all: destruct end_ as [z|]; cbn; [case_bool_decide; [done|]|done].
  all: destruct items; cbn; by rewrite bool_decide_eq_true_2 by lia.
Qed.

(** ** Skipped blocks *)

(** Where a block can be. *)
Definition blocks_of (s : state) (nb : NewBlockData) : Prop :=
  (∃ h, newBlocksMap s !! h = Some nb) ∨ (∃ h, ann s = ASend h nb) ∨ nb ∈ newBlocksC s ∨ nb ∈ delivered s.

Lemma step_blocks s s' nb :
  step s s' → blocks_of s' nb → blocks_of s nb ∨ nb_Skipped nb = false ∨ allowGaps = true.
Proof.
  intros Hs Hb. destruct Hs as [s i Hi|s i h Hi Hd|s i h nb' Hi [_ Hn]|s i h Hi Hg|s i h Hi|s i Hi|s h Ha|s h ev Ha Hm|s h Ha Hm
                 |s h ev Ha Hl|s e nb' rest o Hc Hch|s e Hc Hca|s e Hc Hch Hcl|s r Hc|s r Hc|s];
    try (left; exact Hb); try (by right; right).
  - destruct Hb as [[h' Hl]|[[h' Ha]|Hb]]; [|left; right; left; exists h'; by apply wake_send|left; by right; right].
    cbn in Hl. apply lookup_insert_Some in Hl as [[_ <-]|[_ ?]]; [by right; left|left; left; by exists h'].
  - left. by case_bool_decide.
  - left. destruct (isDone s); destruct Hb as [?|[[? ?]|?]]; [by left|done|by right; right|by left|done|by right; right].
  - left. destruct Hb as [[h' Hl]|[[h' E]|?]]; [|injection E as <- <-; left; by exists h|by right; right].
    cbn in Hl. apply lookup_delete_Some in Hl as [_ ?]. left. by exists h'.
  - left. destruct (isDone s); destruct Hb as [?|[[? ?]|?]]; [by left|done|by right; right|by left|done|by right; right].
  - left. destruct Hb as [?|[[? ?]|[Hin|?]]]; [by left|done| |by right; right; right].
    cbn in Hin. apply elem_of_app in Hin as [?|E]; [by right; right; left|]. apply list_elem_of_singleton in E as ->.
    right; left. by exists h.
  - left. unfold receive in Hb. repeat case_match; (destruct Hb as [?|[?|[Hin|Hin]]]; cbn in *; [by left|by right; left|right; right; left; rewrite Hch; by right|]).
    all: try (by right; right; right).
    all: apply elem_of_app in Hin as [?|E]; [by right; right; right|]; apply list_elem_of_singleton in E as ->;
      right; right; left; rewrite Hch; by left.
  - left. destruct Hb as [?|[[h' E]|?]]; [by left| |by right; right]. right; left. exists h'. by apply wake_send.
Qed.

Lemma reachable_unskipped njobs s nb :
  allowGaps = false → reachable njobs s → blocks_of s nb → nb_Skipped nb = false.
Proof.
  intros Hg. apply (rtc_ind_r (λ s, blocks_of s nb → nb_Skipped nb = false)).
  - intros [[h ?]|[[h E]|[?|?]]]; [done|done|by apply elem_of_nil in H|by apply elem_of_nil in H].
  - intros s1 s2 _ [Hs _] IH Hb. destruct (step_blocks _ _ _ Hs Hb) as [?|[?|?]]; [by apply IH|done|congruence].
Qed.

(** ** Progress *)

Definition next_cons (e : Z) : consumer :=
  match end_ with
  | Some z => if bool_decide (e + 1 ≤ z) then CRecv (e + 1) else CReturn (Ok tt)
  | None => CRecv (e + 1)
  end.

(** The block the consumer waits for can be delivered without closing the getter. *)
Definition can_deliver (s : state) (e : Z) : Prop :=
  ∃ s', rtc bounded_step s s' ∧ isDone s' = false ∧ cons s' = next_cons e.

Lemma can_step s s1 e : bounded_step s s1 → can_deliver s1 e → can_deliver s e.
Proof. intros H (s' & ? & ?). exists s'. split; [by eapply rtc_l|done]. Qed.

Section progress.
Context (njobs : nat) (Hjobs : (0 < njobs)%nat) (Hclient : clientCancels = false).
Context (e : Z) (He : e + 1 < 2 ^ 63).

(** The getter is open, its consumer waits for [e] and its announcer is at [a]. *)
Record open_at (s : state) (a : Z) : Prop := mkOpenAt {
  oa_inv : getter_inv njobs s a;
  oa_open : isDone s = false;
  oa_cons : cons s = CRecv e;
}.

Lemma oa_bound s a : open_at s a → b_height s < 2 ^ 63.
Proof. intros [I _ _]. by apply (gi_bounds _ _ _ I). Qed.

Lemma deliver_channel s a nb rest : open_at s a → newBlocksC s = nb :: rest → can_deliver s e.
Proof.
  intros O Hch. pose proof (oa_bound _ _ O). destruct O as [I Ho Hc].
  destruct (head_expected _ _ _ _ _ _ I Hc Hch) as (Hlt & Hnb & _).
  assert (0 ≤ e) by (destruct (gi_recv _ _ _ I e Hc) as (? & _); lia).
  exists (receive end_ s e nb rest None). unfold receive.
  rewrite (bool_decide_eq_false_2 (nb_Height nb ≠ e)) by (by intros []).
  replace (if nb_Skipped nb then None else None) with (@None error) by (by destruct (nb_Skipped nb)).
  rewrite int64_small by (gate_ints; lia). split_and!; [|done|done].
  apply rtc_once. split; [|done]. pose proof (StReceive Forward allowGaps clientCancels end_ s e nb rest None Hc Hch) as Hs.
  unfold receive in Hs. rewrite (bool_decide_eq_false_2 (nb_Height nb ≠ e)) in Hs by (by intros []).
  replace (if nb_Skipped nb then None else None) with (@None error) in Hs by (by destruct (nb_Skipped nb)).
  rewrite int64_small in Hs by (gate_ints; lia). exact Hs.
Qed.

Lemma deliver_send s a h ev : open_at s a → ann s = ASend h ev → can_deliver s e.
Proof.
  intros O Ha. destruct (newBlocksC s) as [|nb rest] eqn:Hch; [|by eapply deliver_channel].
  pose proof (oa_bound _ _ O). destruct O as [I Ho Hc]. eapply can_step; [split; [apply StSend; [done|]|done]|].
  - rewrite Hch. unfold capacity. rewrite (gi_njobs _ _ _ I). cbn. lia.
  - eapply (deliver_channel _ (a + 1) ev []); [|cbn; by rewrite Hch]. split; [by apply sent_inv|done..].
Qed.

Lemma deliver_check s a h : open_at s a → ann s = ACheck h → held s h → can_deliver s e.
Proof.
  intros O Ha [ev Hm]. pose proof (oa_bound _ _ O). destruct O as [I Ho Hc].
  eapply can_step; [split; [by apply StFound|done]|].
  eapply (deliver_send _ a h ev); [|done]. split; [by apply found_inv|done..].
Qed.

Lemma deliver_fetch s a h : open_at s a → ann s = AWait h → fetching s h → can_deliver s e.
Proof.
  intros O Ha [i Hi]. pose proof (oa_bound _ _ O). destruct O as [I Ho Hc].
  set (nb := mkNewBlockData (int64 h) None None [] false : NewBlockData).
  eapply can_step; [split; [by apply (StFetched _ _ _ _ _ _ _ nb Hi)|done]|].
  eapply (deliver_check _ a h).
  - split; [by apply store_inv|done..].
  - cbn. by rewrite Ha.
  - exists nb. cbn. apply lookup_insert_eq.
Qed.

Lemma deliver_take s h i : open_at s h → ann s = AWait h → h = b_height s → jobs s !! i = Some JTake →
  b_height s = e → can_deliver s e.
Proof.
  intros O Ha Hh Hi Hb. pose proof (oa_bound _ _ O). destruct O as [I Ho Hc].
  assert (b_height (take_height Forward s i) < 2 ^ 63) as Hb'.
  { cbn. rewrite uint64_small; [lia|]. pose proof (gi_bounds _ _ _ I). gate_ints. lia. }
  eapply can_step; [split; [by apply StTake|done]|]. eapply (deliver_fetch _ h h).
  - split; [by apply take_inv|done..].
  - done.
  - exists i. cbn. rewrite list_lookup_insert_eq by (by eapply lookup_lt_Some). by rewrite Hh.
Qed.

Lemma deliver_wait s a h : open_at s a → ann s = AWait h → newBlocksC s = [] → can_deliver s e.
Proof.
  intros O Ha Hch. pose proof (oa_bound _ _ O). pose proof O as [I Ho Hc].
  pose proof (gi_ann _ _ _ I) as Hat. rewrite Ha in Hat. cbn in Hat. subst h.
  destruct (gi_open _ _ _ I Ho) as (_ & _ & Hx). specialize (Hx Hclient).
  pose proof (gi_bounds _ _ _ I) as Hbd. rewrite Ha in Hbd. cbn in Hbd.
  destruct (decide (a = b_height s)) as [Hab|Hab].
  2: { destruct (gi_cover _ _ _ I Hx a) as [[nb Hm]|Hf]; [rewrite Ha; cbn; lia| |by eapply deliver_fetch].
       by rewrite (gi_wait _ _ _ I _ Ha) in Hm. }
  destruct (gi_recv _ _ _ I e Hc) as (_ & Hl & Hle & _). rewrite Hch in Hl.
  assert (a = e) as Hae.
  { apply (f_equal length) in Hl. rewrite length_seqZ in Hl. cbn in Hl. lia. }
  assert (∀ h, ¬ (held s h ∨ fetching s h)) as Hnone.
  { intros h Hor. pose proof (gi_range _ _ _ I h Hor) as Hr. rewrite Ha in Hr. cbn in Hr. lia. }
  destruct (lookup_lt_is_Some_2 (jobs s) 0) as [j Hj]; [rewrite (gi_njobs _ _ _ I); lia|].
  destruct j as [|h| |].
  - apply (deliver_take s a 0); [done..|congruence].
  - destruct (Hnone h). right. by exists 0%nat.
  - pose proof (StThrottle Forward allowGaps clientCancels end_ s 0 Hj) as Hst.
    assert (size (newBlocksMap s) = 0%nat) as Hsz.
    { apply map_size_empty_iff, map_empty. intros h. apply eq_None_not_Some. intros Hh. apply (Hnone h). by left. }
    rewrite bool_decide_eq_false_2 in Hst by lia.
    eapply can_step; [by split|]. apply (deliver_take _ a 0); [|done|done| |cbn; congruence].
    + split; [by eapply idle_inv|done..].
    + cbn. apply list_lookup_insert_eq. by eapply lookup_lt_Some.
  - destruct Hx. by eapply list_elem_of_lookup_2.
Qed.

Lemma deliver_missing s a h : open_at s a → ann s = ACheck h → can_deliver s e.
Proof.
  intros O Ha. destruct (newBlocksC s) as [|nb rest] eqn:Hch; [|by eapply deliver_channel].
  destruct (newBlocksMap s !! h) as [ev|] eqn:Hm; [eapply (deliver_check s a h); [done|done|by exists ev]|].
  pose proof (oa_bound _ _ O). destruct O as [I Ho Hc].
  pose proof (StMissing Forward allowGaps clientCancels end_ s h Ha Hm) as Hst. rewrite Ho in Hst.
  eapply can_step; [by split|]. eapply (deliver_wait _ a h); [|done..]. split; [|done..].
  pose proof (gi_ann _ _ _ I) as Hat. apply ann_move_inv; rewrite ?Ha in *; try done. by intros ? [= <-].
Qed.

Lemma deliver_any s a : open_at s a → can_deliver s e.
Proof.
  intros O. destruct (newBlocksC s) as [|nb rest] eqn:Hch; [|by eapply deliver_channel].
  pose proof (oa_bound _ _ O). pose proof O as [I Ho Hc]. destruct (ann s) as [h|h|h|h ev|] eqn:Ha.
  - pose proof (StTop Forward allowGaps clientCancels end_ s h Ha) as Hst. rewrite Ho in Hst.
    eapply can_step; [by split|]. eapply (deliver_missing _ a h); [|done]. split; [|done..].
    pose proof (gi_ann _ _ _ I) as Hat. apply ann_move_inv; rewrite ?Ha in *; done.
  - by eapply deliver_missing.
  - by eapply deliver_wait.
  - by eapply deliver_send.
  - by destruct (gi_open _ _ _ I Ho).
Qed.
End progress.

Lemma finish_from njobs z n s a e :
  end_ = Some z → z + 1 < 2 ^ 63 → (0 < njobs)%nat → clientCancels = false → Z.to_nat (z - e) = n → e ≤ z →
  open_at njobs e s a → ∃ s', rtc bounded_step s s' ∧ cons s' = CReturn (Ok tt) ∧ isDone s' = false.
Proof.
  intros Hz Hb Hj Hc. revert s a e. induction n as [|n IH]; intros s a e Hn Hle O.
  all: destruct (deliver_any njobs Hj Hc e ltac:(lia) s a O) as (s1 & Hs1 & Ho1 & Hc1).
  all: unfold next_cons in Hc1; rewrite Hz in Hc1.
  - rewrite bool_decide_eq_false_2 in Hc1 by lia. by exists s1.
  - rewrite bool_decide_eq_true_2 in Hc1 by lia. destruct O as [I _ _].
    destruct (steps_inv _ _ _ _ I Hs1) as [a1 I1].
    destruct (IH s1 a1 (e + 1)) as (s2 & Hs2 & ? & ?); [lia|lia|by split|]. exists s2. split; [by etrans|done].
Qed.

Lemma range_finishes njobs z (s : state) e :
  end_ = Some z → start ≤ z → z + 1 < 2 ^ 63 → (0 < njobs)%nat → clientCancels = false →
  reachable njobs s → isDone s = false → cons s = CRecv e →
  ∃ s', rtc bounded_step s s' ∧ cons s' = CReturn (Ok tt) ∧ isDone s' = false ∧
        nb_Height <$> delivered s' = seqZ start (z - start + 1).
Proof.
  intros Hz Hle Hb Hj Hc [a I]%reachable_inv Ho He.
  assert (e ≤ z) by (destruct (gi_recv _ _ _ I e He) as (_ & _ & _ & H); rewrite Hz in H; auto).
  destruct (finish_from njobs z (Z.to_nat (z - e)) s a e) as (s' & Hs & Hr & Hd); [done..|].
  exists s'. split_and!; [done..|]. destruct (steps_inv _ _ _ _ I Hs) as [a' I'].
  destruct (gi_ok _ _ _ I') as (z' & Hz' & Hl); [by rewrite Hr|].
  rewrite Hz in Hz'. injection Hz' as <-. by rewrite (gi_delivered _ _ _ I'), Hl.
Qed.

(** C13.  SyncRange receives the blocks in order: in every reachable state
    of the jobs, announcer and channel, the blocks taken from the channel have
    the heights start, start + 1, ... without a gap or a repetition, the head of
    the channel is always the expected height (the sequence check of SyncRange
    never fires), SyncRange returns without an error only when it has
    taken exactly the heights start to end, and no block is marked as skipped
    unless gaps are allowed. *)
Theorem SyncRange_in_order njobs (s : state) :
  reachable njobs s →
  nb_Height <$> delivered s = seqZ start (Z.of_nat (length (delivered s))) ∧
  (∀ e nb rest, cons s = CRecv e → newBlocksC s = nb :: rest → nb_Height nb = e) ∧
  (returned_ok (cons s) →
   ∃ z, end_ = Some z ∧ (start ≤ z → nb_Height <$> delivered s = seqZ start (z - start + 1))) ∧
  (allowGaps = false → Forall (λ nb, nb_Skipped nb = false) (delivered s)).
Proof.
  intros Hr. destruct (reachable_inv _ _ Hr) as [a I]. split_and!.
  - apply I.
  - intros e nb rest Hc Hch. by destruct (head_expected _ _ _ _ _ _ I Hc Hch) as (_ & ? & _).
  - intros Hok. destruct (gi_ok _ _ _ I Hok) as (z & Hz & Hl). exists z. split; [done|]. intros Hle.
    rewrite (gi_delivered _ _ _ I), Hl by done. done.
  - intros Hg. apply Forall_forall. intros nb Hin. eapply reachable_unskipped; [done..|]. by right; right; right.
Qed.

(** C14.  The getter never deadlocks while it is open: from every reachable
    state in which the context is live and SyncRange still waits for a block,
    whatever the jobs, the announcer and the channel are doing, the remaining
    blocks can be fetched, announced and received without closing anything, and
    SyncRange then returns without an error with all heights start to end. *)
Theorem SyncRange_can_finish njobs z (s : state) e :
  end_ = Some z → start ≤ z → z + 1 < 2 ^ 63 → (0 < njobs)%nat → clientCancels = false →
  reachable njobs s → isDone s = false → cons s = CRecv e →
  ∃ s', rtc bounded_step s s' ∧ cons s' = CReturn (Ok tt) ∧ isDone s' = false ∧
        nb_Height <$> delivered s' = seqZ start (z - start + 1).
Proof.
  apply range_finishes.
Qed.
End getter.

(** In a state where the range was received. *)
Lemma SyncRange_in_order_witness :
  ∃ s : @state unit, reachable Forward false false 5 (Some 7) 2 s ∧ cons s = CReturn (Ok tt) ∧
    nb_Height <$> delivered s = seqZ 5 (Z.of_nat (length (delivered s))) ∧ nb_Height <$> delivered s = [5; 6; 7] ∧
    Forall (λ nb, nb_Skipped nb = false) (delivered s).
Proof.
  destruct (range_finishes (Validator := unit) false false 5 (Some 7) ltac:(lia) 2 7 (init Forward 5 2) 5) as (s & Hs & Hr & _);
    try done; try lia; [apply rtc_refl|].
  assert (reachable Forward false false 5 (Some 7) 2 s) as Hreach by exact Hs.
  destruct (SyncRange_in_order false false 5 (Some 7) ltac:(lia) 2 s Hreach) as (H1 & _ & H3 & H4).
  exists s. split; [exact Hreach|]. split; [exact Hr|]. split; [exact H1|]. split; [|apply H4; reflexivity].
  destruct H3 as (z & Hz & H); [rewrite Hr; reflexivity|]. injection Hz as <-. rewrite H; [reflexivity|lia].
Defined.

Lemma SyncRange_can_finish_witness :
  ∃ s', rtc (bounded_step Forward false false (Some 7)) (@init unit Forward 5 2) s' ∧ cons s' = CReturn (Ok tt) ∧
        isDone s' = false ∧ nb_Height <$> delivered s' = [5; 6; 7].
Proof.
  apply (SyncRange_can_finish false false 5 (Some 7) ltac:(lia) 2 7 (init Forward 5 2) 5); try done; try lia.
  apply rtc_refl.
Defined.
End BlocksyncProps.
