(* ===== verification/BlocksyncLeak.v ===== *)
(** * What is left of a closed getter

    SyncRange closes its getter when it returns.  Runs in which a goroutine of
    the getter never ends afterwards: the job that waits for the map to shrink, the
    announcer that sends on a full channel, and the announcer that went back to
    sleep between the signal and the close. *)

From Stdlib Require Import Ascii String.
From S2P Require Import Prelude Bytes GoLib EthTypes ParsedTx Blocksync.
From stdpp Require Import strings list relations.
#[local] Open Scope Z_scope.

Module BlocksyncLeak.
Import GoLib EthTypes Blocksync.

(** One job, the range 0..0. *)
Notation state := (@state unit).
Notation step := (step Forward false false (Some 0)).
Notation bounded_step := (bounded_step Forward false false (Some 0)).
Notation reachable := (@reachable unit Forward false false 0 (Some 0)).

(** ** A scheduler *)

Inductive action := XTake | XFetch | XDone | XTop | XCheck | XSend | XReceive | XSignal | XClose.

Definition exec (x : action) (s : state) : option state :=
  match x with
  | XTake => match jobs s with [JTake] => Some (take_height Forward s 0) | _ => None end
  | XFetch => match jobs s with
              | [JFetch h] => Some (store_block s 0 h (mkNewBlockData (int64 h) None None [] false))
              | _ => None
              end
  | XDone => match jobs s with [JFetch h] => if isDone s then Some (set_job s 0 JExit) else None | _ => None end
  | XTop => match ann s with ATop h => Some (if isDone s then ann_exit s else set_ann s (ACheck h)) | _ => None end
  | XCheck => match ann s with
              | ACheck h => match newBlocksMap s !! h with
                            | Some ev => Some (ann_found s h ev)
                            | None => Some (if isDone s then ann_exit s else set_ann s (AWait h))
                            end
              | _ => None
              end
  | XSend => match ann s with
             | ASend h ev => if bool_decide (length (newBlocksC s) < capacity s)%nat then Some (ann_sent Forward s h ev) else None
             | _ => None
             end
  | XReceive => match cons s, newBlocksC s with
                | CRecv e, nb :: rest => Some (receive (Some 0) s e nb rest None)
                | _, _ => None
                end
  | XSignal => match cons s with CReturn r => Some (set_cons (set_ann s (wake (ann s))) (CSignalled r)) | _ => None end
  | XClose => match cons s with
              | CSignalled r => Some (mkGetter (b_height s) (jobs s) (newBlocksMap s) (ann s) (newBlocksC s)
                                        (chan_closed s) true (cancelled s) (CClosed r) (delivered s))
              | _ => None
              end
  end.

Fixpoint run (xs : list action) (s : state) : option state :=
  match xs with
  | [] => Some s
  | x :: xs => match exec x s with
               | Some s' => if bool_decide (b_height s' < 2 ^ 63) then run xs s' else None
               | None => None
               end
  end.

Lemma exec_step x s s' : exec x s = Some s' → step s s'.
Proof.
  intros H. destruct x; unfold exec in H.
  - destruct (jobs s) as [|[] []] eqn:E; try done. apply (inj Some) in H as <-. apply StTake. by rewrite E.
  - destruct (jobs s) as [|[] []] eqn:E; try done. apply (inj Some) in H as <-. apply StFetched; [by rewrite E|done].
  - destruct (jobs s) as [|[|h| |] []] eqn:E; try done. destruct (isDone s) eqn:D; [|done]. apply (inj Some) in H as <-.
    apply (StDone _ _ _ _ _ 0 h); [by rewrite E|by left].
  - destruct (ann s) eqn:E; try done. apply (inj Some) in H as <-. by apply StTop.
  - destruct (ann s) eqn:E; try done. destruct (_ !! _) eqn:M; apply (inj Some) in H as <-; [by apply StFound|by apply StMissing].
  - destruct (ann s) eqn:E; try done. case_bool_decide; [|done]. apply (inj Some) in H as <-. by apply StSend.
  - destruct (cons s) eqn:E; try done. destruct (newBlocksC s) eqn:C; [done|]. apply (inj Some) in H as <-. by apply StReceive.
  - destruct (cons s) eqn:E; try done. apply (inj Some) in H as <-. by apply StSignal.
  - destruct (cons s) eqn:E; try done. apply (inj Some) in H as <-. by apply StClose.
Qed.

Lemma run_steps xs s s' : run xs s = Some s' → rtc bounded_step s s'.
Proof.
  revert s. induction xs as [|x xs IH]; intros s H; cbn in H; [injection H as <-; apply rtc_refl|].
  destruct (exec x s) as [s1|] eqn:E; [|done]. case_bool_decide; [|done].
  eapply rtc_l; [split; [by eapply exec_step|done]|by apply IH].
Qed.

Lemma run_reachable xs s : run xs (init Forward 0 1) = Some s → reachable 1 s.
Proof. apply run_steps. Qed.

(** ** Goroutines that never end *)

(** After [XReceive] SyncRange has its result, but the deferred Close has not run yet:
    the job goes on until the channel and the map are full. *)
Definition full_schedule : list action :=
  [XTake; XFetch; XTop; XCheck; XSend; XReceive] ++
  concat (replicate 100 [XTake; XFetch; XTop; XCheck; XSend]) ++
  [XTake; XFetch; XTop; XCheck] ++ concat (replicate 1025 [XTake; XFetch]) ++ [XSignal; XClose].

(** The announcer checks the map between the signal and the close. *)
Definition late_schedule : list action :=
  [XTake; XFetch; XTop; XCheck; XSend; XReceive; XTop; XCheck; XTake; XSignal; XCheck; XClose; XDone].

(** The job is throttled, the announcer sends on a full channel, nobody receives. *)
Definition stuck_full (s : state) : bool :=
  match jobs s, ann s, cons s with
  | [JThrottled], ASend _ _, CClosed (Ok tt) =>
      bool_decide (capacity s ≤ length (newBlocksC s))%nat && bool_decide (limit s < size (newBlocksMap s))%nat
  | _, _, _ => false
  end.

Definition stuck_asleep (s : state) : bool :=
  match jobs s, ann s, cons s with [JExit], AWait _, CClosed (Ok tt) => true | _, _, _ => false end.

Lemma stuck_full_step s s' : stuck_full s = true → step s s' → stuck_full s' = true ∧ ann s' = ann s.
Proof.
  intros Hst. pose proof Hst as Hst'. revert Hst'.
  unfold stuck_full. destruct (jobs s) as [|[] []] eqn:Hj; try done. destruct (ann s) as [| | |h ev|] eqn:Ha; try done.
  destruct (cons s) as [| | |[[]| |]] eqn:Hc; try done. intros [Hf Hl]%andb_prop.
  pose proof (bool_decide_eq_true_1 _ Hf). pose proof (bool_decide_eq_true_1 _ Hl).
  intros Hs. destruct Hs as [s i Hi|s i h' Hi _|s i h' nb Hi _|s i h' Hi _|s i h' Hi|s i Hi| | | |s h' ev' _ Hcap| | | | | |s];
    try congruence.
  1-4: rewrite Hj in Hi; destruct i; [done|]; by destruct i.
  - by rewrite Hj, Ha, Hc, Hf, Hl.
  - rewrite bool_decide_eq_true_2 by done. by rewrite Hj, Ha, Hc, Hf, Hl.
  - lia.
  - split; [exact Hst|done].
Qed.

Lemma stuck_asleep_step s s' : stuck_asleep s = true → step s s' → stuck_asleep s' = true ∧ ann s' = ann s.
Proof.
  unfold stuck_asleep. destruct (jobs s) as [|[] []] eqn:Hj; try done. destruct (ann s) as [| |h| |] eqn:Ha; try done.
  destruct (cons s) as [| | |[[]| |]] eqn:Hc; try done. intros _ Hs.
  destruct Hs as [s i Hi|s i h' Hi _|s i h' nb Hi _|s i h' Hi _|s i h' Hi|s i Hi| | | | | | | | | |s]; try congruence.
  1-6: rewrite Hj in Hi; destruct i; [done|]; by destruct i.
  cbn. by rewrite Hj, Ha, Hc.
Qed.

Lemma stuck_full_steps s s' : stuck_full s = true → rtc step s s' → stuck_full s' = true ∧ ann s' = ann s.
Proof.
  intros H Hs. induction Hs as [|s1 s2 s3 H1 _ IH]; [done|].
  destruct (stuck_full_step _ _ H H1) as [H2 <-]. by apply IH.
Qed.

Lemma stuck_asleep_steps s s' : stuck_asleep s = true → rtc step s s' → stuck_asleep s' = true ∧ ann s' = ann s.
Proof.
  intros H Hs. induction Hs as [|s1 s2 s3 H1 _ IH]; [done|].
  destruct (stuck_asleep_step _ _ H H1) as [H2 <-]. by apply IH.
Qed.

Lemma run_stuck (P : state → bool) xs :
  match run xs (init Forward 0 1) with Some s => P s | None => false end = true → ∃ s, reachable 1 s ∧ P s = true.
Proof. destruct (run xs _) as [s|] eqn:E; [|done]. intros H. exists s. split; [by eapply run_reachable|done]. Qed.

(**  A closed getter can leave goroutines that never end.  With one
    job and the range 0..0 there is a run after which SyncRange has returned without
    an error and closed its getter, the job waits for the map to shrink and the
    announcer sends on the full channel, and both stay there for ever, whatever else
    happens (cancelling the context included): neither loop looks at closeC.  There
    is another one in which the announcer went back to sleep after Close signalled
    it and before Close closed closeC, the job has stopped, and the announcer
    sleeps for ever. *)
Theorem closed_getter_leaks :
  (∃ s, reachable 1 s ∧ cons s = CClosed (Ok tt) ∧
        ∀ s', rtc step s s' → jobs s' = [JThrottled] ∧ ∃ h ev, ann s' = ASend h ev) ∧
  (∃ s, reachable 1 s ∧ cons s = CClosed (Ok tt) ∧
        ∀ s', rtc step s s' → jobs s' = [JExit] ∧ ∃ h, ann s' = AWait h).
Proof.
  split.
  - destruct (run_stuck stuck_full full_schedule) as (s & Hr & Hs); [by vm_compute|]. exists s. split_and!; [done| |].
    + unfold stuck_full in Hs. by repeat (case_match; try done); simplify_eq.
    + intros s' Hss. apply (stuck_full_steps _ _ Hs) in Hss as [H _]. unfold stuck_full in H.
      repeat (case_match; try done); simplify_eq. eauto.
  - destruct (run_stuck stuck_asleep late_schedule) as (s & Hr & Hs); [by vm_compute|]. exists s. split_and!; [done| |].
    + unfold stuck_asleep in Hs. by repeat (case_match; try done); simplify_eq.
    + intros s' Hss. apply (stuck_asleep_steps _ _ Hs) in Hss as [H _]. unfold stuck_asleep in H.
      repeat (case_match; try done); simplify_eq. eauto.
Qed.
End BlocksyncLeak.
