(* ===== verification/Service.v ===== *)
(** * The indexer service

    src/internal/indexer/service.go: the handlers that index a synced block,
    the gap and forward queues, resyncing and the start of Run.  The indexer is an
    interface; what it promises about the indexed heights is a class of laws the
    service's theorems are proved against. *)

From Stdlib Require Import Ascii String.
From S2P Require Import Prelude Bytes GoLib EthTypes ParsedTx Ranges Tracker Indexer Blocksync.
From stdpp Require Import strings list.
#[local] Open Scope Z_scope.

Module Service.
Import GoLib EthTypes ParsedTx Ranges Indexer Blocksync.

(** ** The indexer as the service sees it *)

(** The TxIndexer methods the service calls; the optional interfaces it
    tests for (txIndexerWithResults, txIndexerWithStats,
    txIndexerWithStatsAndResults); and LoadIndexedRanges of its store. *)
Class TxIndexer (X : Type) := {
  ix_IndexBlock : X → option Block → list (option ExecTxResult) → res error unit * X;
  ix_DeleteBlock : X → Z → res error unit * X;
  ix_withResults : option (X → option Block → option ResultBlockResults → res error unit * X);
  ix_withStats : option (X → option Block → list (option ExecTxResult) → res error BlockIndexStats * X);
  ix_withStatsAndResults : option (X → option Block → option ResultBlockResults → res error BlockIndexStats * X);
  ix_LoadIndexedRanges : X → res error (list BlockRange);
}.

(** ** Configuration and state *)

Record Config := mkConfig {
  EnableSync : bool;
  Earliest : Z;
  AllowGaps : bool;
  ParallelSyncTipAndGaps : bool;
}.

Record ResyncStats := mkResyncStats { BlocksSynced : Z; UniqueTxnsSeen : Z }.

(** The indexer with its store, the status tracker if any, the number of clock readings,
    the pace counter and the heights published to subscribers. *)
Record svc (X : Type) := mkSvc {
  v_indexer : X;
  v_status : option Tracker.Tracker;
  v_ticks : nat;
  v_pace : Z;
  v_published : list Z;
}.
Arguments mkSvc {X}.
Arguments v_indexer {X}.
Arguments v_status {X}.
Arguments v_ticks {X}.
Arguments v_pace {X}.
Arguments v_published {X}.

Section service.
Context {X : Type} {TI : TxIndexer X} {Validator : Type}.
Notation NewBlockData := (@NewBlockData Validator).
Notation stream_item := (@stream_item Validator).
Notation svc := (svc X).

(** The configuration, whether a tip publisher is set, and the readings of the clock. *)
Context (cfg : Config) (tipPublisher : bool) (clock : nat → Z).

Definition set_indexer (v : svc) (x : X) : svc := mkSvc x (v_status v) (v_ticks v) (v_pace v) (v_published v).
Definition pace_Add (v : svc) (n : Z) : svc :=
  mkSvc (v_indexer v) (v_status v) (v_ticks v) (int64 (v_pace v + n)) (v_published v).
Definition publish (v : svc) (height : Z) : svc :=
  mkSvc (v_indexer v) (v_status v) (v_ticks v) (v_pace v) (v_published v ++ [height]).

(** if s.status != nil { s.status.<f>(...) } *)
Definition with_status (v : svc) (f : Tracker.Tracker → Z → Tracker.Tracker) : svc :=
  match v_status v with
  | None => v
  | Some t => mkSvc (v_indexer v) (Some (f t (clock (v_ticks v)))) (S (v_ticks v)) (v_pace v) (v_published v)
  end.

Definition mark (v : svc) (height : Z) (indexed : bool) : svc :=
  with_status v (λ t now, Tracker.MarkBlock t height indexed now).

(** ** Indexing one block *)

Definition txResultsFromBlockResults (blockResults : option ResultBlockResults) : list (option ExecTxResult) :=
  match blockResults with None => [] | Some r => br_TxResults r end.

Definition indexBlock (x : X) (block : option Block) (blockResults : option ResultBlockResults) : res error unit * X :=
  match ix_withResults with
  | Some withResults => withResults x block blockResults
  | None => ix_IndexBlock x block (txResultsFromBlockResults blockResults)
  end.

Definition indexBlockForResync (x : X) (block : option Block) (blockResults : option ResultBlockResults) :
    res error BlockIndexStats * X :=
  match ix_withStatsAndResults, ix_withStats with
  | Some withStatsAndResults, _ => withStatsAndResults x block blockResults
  | None, Some withStats => withStats x block (txResultsFromBlockResults blockResults)
  | None, None =>
      match indexBlock x block blockResults with
      | (Ok _, x) => (Ok (Indexer.mkStats 0), x)
      | (Err e, x) => (Err e, x)
      | (Panic m, x) => (Panic m, x)
      end
  end.

Definition cleanupFailedBlock (x : X) (height : Z) : res error unit * X :=
  match ix_DeleteBlock x height with
  | (Ok _, x) => (Ok tt, x)
  | (Err e, x) => (Err (Wrap "delete failed block %d" e), x)
  | (Panic m, x) => (Panic m, x)
  end.

Definition joinErrors (primary secondary : option error) : option error :=
  match primary, secondary with
  | None, _ => secondary
  | _, None => primary
  | Some p, Some s => Some (Join [p; s])
  end.

(** Indexing failed with [err]: clean up, then go on with [k]. *)
Definition after_cleanup {A} (v : svc) (height : Z) (err : error) (k : svc → res error A * svc) : res error A * svc :=
  match cleanupFailedBlock (v_indexer v) height with
  | (Ok _, x) => k (set_indexer v x)
  | (Err cleanupErr, x) =>
      (Err (default cleanupErr (joinErrors (Some (Wrap "index block %d" err)) (Some cleanupErr))), set_indexer v x)
  | (Panic m, x) => (Panic m, set_indexer v x)
  end.

Definition handleSyncedBlock (publishTip : bool) (block : NewBlockData) (v : svc) : res error unit * svc :=
  let height := nb_Height block in
  if nb_Skipped block then (Ok tt, pace_Add (mark v height false) 1)
  else
    match indexBlock (v_indexer v) (nb_Block block) (nb_BlockResults block) with
    | (Ok _, x) =>
        let v := pace_Add (mark (set_indexer v x) height true) 1 in
        (Ok tt, if publishTip && tipPublisher then publish v height else v)
    | (Err err, x) =>
        after_cleanup (set_indexer v x) height err (λ v,
          let v := mark v height false in
          if errors_Is err ErrBlockParse && AllowGaps cfg then (Ok tt, pace_Add v 1)
          else (Err (Wrap "index block %d" err), v))
    | (Panic m, x) => (Panic m, set_indexer v x)
    end.

(** ** Gaps *)

(** A range with what its getter yields. *)
Definition feed : Type := BlockRange * list stream_item.

Fixpoint syncGaps (gaps : list feed) (parallel : bool) (v : svc) : option (res error unit) * svc :=
  match gaps with
  | [] => (Some (Ok tt), v)
  | (gap, items) :: gaps =>
      let v := if parallel then v
               else with_status v (λ t now, Tracker.StartSegment t "gap" (Start gap) (Some (End_ gap)) now) in
      match SyncRange (handleSyncedBlock false) (Start gap) (End_ gap) items v with
      | (None, v) => (None, v)
      | (Some (Panic m), v) => (Some (Panic m), v)
      | (Some (Err err), v) =>
          if errors_Is err context_Canceled then (Some (Err err), v) else syncGaps gaps parallel v
      | (Some (Ok _), v) =>
          let v := with_status v (λ t now, if parallel then Tracker.CompleteGap t (Start gap) (End_ gap) now
                                           else Tracker.CompleteCurrentSegment t now) in
          syncGaps gaps parallel v
      end
  end.

(** ** Forward sync *)

Definition runForwardSync (start : Z) (manageStatus : bool) (items : list stream_item) (v : svc) :
    option (res error unit) * svc :=
  let v := if manageStatus then
             with_status (with_status v (λ t now, Tracker.SetPhase t "forward_sync" now))
               (λ t now, Tracker.StartSegment t "forward" start None now)
           else v in
  match SyncForward (handleSyncedBlock true) start items v with
  | (Some (Err err), v) =>
      if errors_Is err context_Canceled then (Some (Err err), v)
      else (Some (Ok tt), with_status v (λ t now, Tracker.SetPhase t "forward_sync_stopped" now))
  | (Some (Ok _), v) => (Some (Ok tt), v)
  | (r, v) => (r, v)
  end.

(** ** Resync *)

(** The handler of Resync, on the statistics and the service. *)
Definition resync_handler (block : NewBlockData) (st : ResyncStats * svc) : res error unit * (ResyncStats * svc) :=
  let '(stats, v) := st in
  if nb_Skipped block then (Err (Errorf "block %d was skipped during resync"), st)
  else
    match indexBlockForResync (v_indexer v) (nb_Block block) (nb_BlockResults block) with
    | (Ok indexStats, x) =>
        (Ok tt, (mkResyncStats (int64 (BlocksSynced stats + 1)) (int64 (UniqueTxnsSeen stats + IndexedEthTxs indexStats)),
                 pace_Add (set_indexer v x) 1))
    | (Err err, x) =>
        let '(r, v) := after_cleanup (set_indexer v x) (nb_Height block) err
                         (λ v, (Err (Wrap "index block %d" err), v)) in
        (r, (stats, v))
    | (Panic m, x) => (Panic m, (stats, set_indexer v x))
    end.

Fixpoint resync_targets (targets : list feed) (st : ResyncStats * svc) : option (res error unit) * (ResyncStats * svc) :=
  match targets with
  | [] => (Some (Ok tt), st)
  | (target, items) :: targets =>
      match SyncRange resync_handler (Start target) (End_ target) items st with
      | (Some (Ok _), st) => resync_targets targets st
      | (r, st) => (r, st)
      end
  end.

(** [feed_of] gives what the getter of each normalised target yields. *)
Definition Resync (targets : list BlockRange) (feed_of : BlockRange → list stream_item) (v : svc) :
    option (res error unit) * (ResyncStats * svc) :=
  match targets with
  | [] => (Some (Err (New "no resync targets provided")), (mkResyncStats 0 0, v))
  | _ => resync_targets ((λ t, (t, feed_of t)) <$> NormalizeRanges targets) (mkResyncStats 0 0, v)
  end.

(** ** Run *)

(** The answer of the client to Block(requested): the block, nil, or the error's text. *)
Definition resolveEarliestBlock (requested : Z) (answer : res string (option Block)) : res error Z :=
  match answer with
  | Ok (Some _) => Ok requested
  | Ok None => Err (Errorf "validate earliest block %d: empty block response")
  | Panic m => Panic m
  | Err err =>
      match LowestAvailableHeight (Some err) with
      | None => Err (Wrap "validate earliest block %d" (New err))
      | Some chainEarliest =>
          if negb (AllowGaps cfg) then Err (Errorf "earliest block %d before chain earliest %d") else Ok chainEarliest
      end
  end.

Record SyncInfo := mkSyncInfo { EarliestBlockHeight : Z; LatestBlockHeight : Z }.

Definition run_earliest (status : SyncInfo) (answer : Z → res string (option Block)) : res error Z :=
  if bool_decide (Earliest cfg ≤ 0) then
    Ok (if bool_decide (EarliestBlockHeight status ≤ 0) then 1 else EarliestBlockHeight status)
  else resolveEarliestBlock (Earliest cfg) (answer (Earliest cfg)).

Definition toStatusRanges (ranges : list BlockRange) : list Tracker.Range :=
  (λ r, Tracker.mkRange (Start r) (End_ r)) <$> ranges.

(** Run up to the parallel queues: the status of the chain, the answer to a
    Block request, what the getters of the gaps yield and what the forward getter yields.
    The parallel mode stops here with its gaps and head. *)
Inductive run_result :=
| Returned (r : option (res error unit))
| Parallel (gaps : list feed) (head : Z).

Definition Run (status : res error SyncInfo) (answer : Z → res string (option Block))
    (feed_of : BlockRange → list stream_item) (tip : list stream_item) (v : svc) : run_result * svc :=
  if negb (EnableSync cfg) then
    (Returned (Some (Ok tt)), with_status v (λ t now, Tracker.SetPhase t "sync_disabled" now))
  else
    let v := with_status v (λ t now, Tracker.SetPhase t "initializing" now) in
    match status with
    | Err e => (Returned (Some (Err e)), v)
    | Panic m => (Returned (Some (Panic m)), v)
    | Ok status =>
        match run_earliest status answer with
        | Err e => (Returned (Some (Err e)), v)
        | Panic m => (Returned (Some (Panic m)), v)
        | Ok earliest =>
            let head := LatestBlockHeight status in
            let v := with_status (with_status v (λ t now, Tracker.SetChainHead t head now))
                       (λ t now, Tracker.SetEarliestBlock t earliest now) in
            if bool_decide (head < earliest) then
              (Returned (Some (Ok tt)), with_status v (λ t now, Tracker.SetPhase t "idle" now))
            else
              match ix_LoadIndexedRanges (v_indexer v) with
              | Err e => (Returned (Some (Err e)), v)
              | Panic m => (Returned (Some (Panic m)), v)
              | Ok ranges =>
                  let gaps := ComputeGaps earliest head ranges in
                  let v := with_status (with_status v (λ t now, Tracker.SetPhase t "initial_gap_sync" now))
                             (λ t now, Tracker.SetGaps t (toStatusRanges gaps) now) in
                  let feeds := (λ g, (g, feed_of g)) <$> gaps in
                  if bool_decide (gaps ≠ []) && ParallelSyncTipAndGaps cfg then (Parallel feeds head, v)
                  else
                    match syncGaps feeds false v with
                    | (Some (Ok _), v) =>
                        let '(r, v) := runForwardSync (int64 (head + 1)) true tip v in (Returned r, v)
                    | (r, v) => (Returned r, v)
                    end
              end
        end
    end.
End service.
End Service.
