(* ===== verification/ServiceProps.v ===== *)
(** * Properties of the indexer service

    What the service needs of its indexer, and what follows from it: a synced block is
    indexed or leaves no records, a gap sync that reports no remaining gap has closed
    every gap, and a resync that succeeds has indexed and counted its targets. *)

From Stdlib Require Import Ascii String.
From S2P Require Import Prelude Bytes GoLib EthTypes ParsedTx Ranges Tracker Indexer Blocksync Service.
From stdpp Require Import strings list.
#[local] Open Scope Z_scope.

Module ServiceProps.
Import GoLib EthTypes ParsedTx Ranges Indexer Blocksync Service.

(** ** The promise of the indexer *)

(** [ix_indexed x n]: the store of [x] holds block [n].  A call is about one
    height and leaves the others alone. *)
Class TxIndexerLaws (X : Type) {TI : TxIndexer X} := {
  ix_wf : X → Prop;
  ix_block_ok : Block → Prop;
  ix_indexed : X → Z → Prop;
  ix_block_height b : ix_block_ok b → 0 ≤ blk_Height b < 2 ^ 63 - 1;
  ix_index_law x b results o x' :
    ix_wf x → ix_block_ok b → indexBlock x (Some b) results = (o, x') →
    ix_wf x' ∧ ∀ n, is_int64 n →
      match o with
      | Ok _ => ix_indexed x' n ↔ n = blk_Height b ∨ ix_indexed x n
      | Err _ => n ≠ blk_Height b → ix_indexed x' n ↔ ix_indexed x n
      | Panic _ => False
      end;
  ix_resync_law x b results o x' :
    ix_wf x → ix_block_ok b → indexBlockForResync x (Some b) results = (o, x') →
    ix_wf x' ∧ ∀ n, is_int64 n →
      match o with
      | Ok _ => ix_indexed x' n ↔ n = blk_Height b ∨ ix_indexed x n
      | Err _ => n ≠ blk_Height b → ix_indexed x' n ↔ ix_indexed x n
      | Panic _ => False
      end;
  ix_delete_law x h o x' :
    ix_wf x → 0 ≤ h < 2 ^ 63 → ix_DeleteBlock x h = (o, x') →
    ix_wf x' ∧ ∀ n, is_int64 n →
      match o with
      | Ok _ => ix_indexed x' n ↔ n ≠ h ∧ ix_indexed x n
      | _ => n ≠ h → ix_indexed x' n ↔ ix_indexed x n
      end;
  ix_load_law x :
    ix_wf x → ∃ ranges, ix_LoadIndexedRanges x = Ok ranges ∧ Forall wf_range ranges ∧
                        ∀ n, is_int64 n → in_ranges n ranges ↔ ix_indexed x n;
}.

(** ** The loop of SyncRange *)

Section loop.
Context {Validator S : Type}.
Notation NewBlockData := (@NewBlockData Validator).
Context (handler : NewBlockData → S → res error unit * S).

(** [P h] holds before height [h] is handled, [Q] after a failure. *)
Lemma sync_loop_rule (P : Z → S → Prop) (Q : S → Prop) e items expected st r st' :
  (∀ nb st r st', SBlock nb ∈ items → expected ≤ nb_Height nb ≤ e → nb_Skipped nb = false → P (nb_Height nb) st →
     handler nb st = (r, st') → match r with Ok _ => P (nb_Height nb + 1) st' | _ => Q st' end) →
  (∀ nb st, SBlock nb ∈ items → expected ≤ nb_Height nb ≤ e → nb_Skipped nb = true → P (nb_Height nb) st → P (nb_Height nb + 1) st) →
  (∀ h st, P h st → Q st) →
  0 ≤ expected ≤ e + 1 → e < 2 ^ 63 - 1 → P expected st →
  sync_loop handler (Some e) expected items st = (r, st') →
  match r with Some (Ok _) => P (e + 1) st' | _ => Q st' end.
Proof.
  revert expected st. induction items as [|x items IH]; intros expected st Hh Hsk HQ He Hb HP; cbn.
  all: case_bool_decide as Hd; [intros [= <- <-]; by replace (e + 1) with expected by lia|].
  { intros [= <- <-]. by eapply HQ. }
  destruct x as [nb| |err]; [|intros [= <- <-]; by eapply HQ..].
  case_bool_decide as Hn; [intros [= <- <-]; by eapply HQ|]. assert (nb_Height nb = expected) as <- by (by destruct (decide (nb_Height nb = expected))).
  rewrite int64_small by (gate_ints; lia).
  assert (∀ st, P (nb_Height nb + 1) st → sync_loop handler (Some e) (nb_Height nb + 1) items st = (r, st') →
            match r with Some (Ok _) => P (e + 1) st' | _ => Q st' end) as Hnext.
  { intros st1 HP1. apply IH; [|intros nb' s1 Hin Hr; apply Hsk; [by right|lia]|done|lia|done|done].
    intros nb' s1 r1 s1' Hin Hr. apply Hh; [by right|lia]. }
  destruct (nb_Skipped nb) eqn:Hs; [apply Hnext, Hsk; [by left|lia|done|done]|].
  destruct (handler nb st) as [[[]|err|m] st1] eqn:Hr.
  all: pose proof (Hh nb st _ st1 ltac:(by left) ltac:(lia) Hs HP Hr) as H1; cbn in H1.
  - by apply Hnext.
  - by intros [= <- <-].
  - by intros [= <- <-].
Qed.

Lemma SyncRange_rule (P : Z → S → Prop) (Q : S → Prop) a e items st r st' :
  (∀ nb st r st', SBlock nb ∈ items → a ≤ nb_Height nb ≤ e → nb_Skipped nb = false → P (nb_Height nb) st →
     handler nb st = (r, st') → match r with Ok _ => P (nb_Height nb + 1) st' | _ => Q st' end) →
  (∀ nb st, SBlock nb ∈ items → a ≤ nb_Height nb ≤ e → nb_Skipped nb = true → P (nb_Height nb) st → P (nb_Height nb + 1) st) →
  (∀ h st, P h st → Q st) →
  0 ≤ a ≤ e → e < 2 ^ 63 - 1 → P a st →
  SyncRange handler a e items st = (r, st') →
  match r with Some (Ok _) => P (e + 1) st' | _ => Q st' end.
Proof.
  intros Hh Hs HQ Ha He HP. unfold SyncRange. rewrite !bool_decide_eq_false_2 by lia.
  eapply sync_loop_rule; [done..| |done|done]. lia.
Qed.
End loop.

(** ** One block *)

Section service.
Context {X : Type} {TI : TxIndexer X} {TL : TxIndexerLaws X} {Validator : Type}.
Notation NewBlockData := (@NewBlockData Validator).
Notation stream_item := (@stream_item Validator).
Context (cfg : Config) (tipPublisher : bool) (clock : nat → Z).
Notation svc := (svc X).
Notation feed := (@feed Validator).
Notation handle := (handleSyncedBlock cfg tipPublisher clock).

(** A block the client returns for its height. *)
Definition valid_block (nb : NewBlockData) : Prop :=
  ∃ b, nb_Block nb = Some b ∧ blk_Height b = nb_Height nb ∧ ix_block_ok b.

(** Only block [n] may have changed, and it is indexed if [flag] is set. *)
Definition height_set (x x' : X) (h : Z) (flag : bool) : Prop :=
  ix_wf x' ∧ ∀ n, is_int64 n → ix_indexed x' n ↔ (n = h ∧ flag = true) ∨ (n ≠ h ∧ ix_indexed x n).

Definition others_kept (x x' : X) (h : Z) : Prop :=
  ix_wf x' ∧ ∀ n, is_int64 n → n ≠ h → ix_indexed x' n ↔ ix_indexed x n.

Lemma height_set_others x x' h flag : height_set x x' h flag → others_kept x x' h.
Proof. intros [Hw Hi]. split; [done|]. intros n Hn Hne. rewrite Hi by done. split; [by intros [[? _]|[_ ?]]|by right]. Qed.

Lemma valid_height nb : valid_block nb → 0 ≤ nb_Height nb < 2 ^ 63 - 1.
Proof. intros (b & _ & <- & Hb). by apply ix_block_height. Qed.

Lemma cleanup_law x x1 h o x' :
  others_kept x x1 h → 0 ≤ h < 2 ^ 63 → cleanupFailedBlock x1 h = (o, x') →
  match o with Ok _ => height_set x x' h false | _ => others_kept x x' h end.
Proof.
  intros [Hw Hk] Hh. unfold cleanupFailedBlock. destruct (ix_DeleteBlock x1 h) as [o' x2] eqn:E.
  destruct (ix_delete_law _ _ _ _ Hw Hh E) as [Hw2 Hd]. destruct o'; intros [= <- <-]; (split; [done|]).
  - intros n Hn. rewrite (Hd n Hn). destruct (decide (n = h)) as [->|Hne].
    + split; [by intros [? _]|by intros [[_ ?]|[? _]]].
    + rewrite Hk by done. split; [by right|by intros [[? _]|?]].
  - intros n Hn Hne. by rewrite (Hd n Hn), Hk.
  - intros n Hn Hne. by rewrite (Hd n Hn), Hk.
Qed.

Lemma index_law nb x o x' :
  valid_block nb → ix_wf x → indexBlock x (nb_Block nb) (nb_BlockResults nb) = (o, x') →
  match o with Ok _ => height_set x x' (nb_Height nb) true | Err _ => others_kept x x' (nb_Height nb) | Panic _ => False end.
Proof.
  intros Hv Hw. pose proof (valid_height _ Hv). destruct Hv as (b & -> & <- & Hb). intros E.
  destruct (ix_index_law _ _ _ _ _ Hw Hb E) as [Hw' Hi]. destruct o; [split; [done|]..|].
  - intros n Hn. rewrite (Hi n Hn). destruct (decide (n = blk_Height b)); tauto.
  - exact Hi.
  - apply (Hi 0). gate_ints. lia.
Qed.

Lemma resync_index_law nb x o x' :
  valid_block nb → ix_wf x → indexBlockForResync x (nb_Block nb) (nb_BlockResults nb) = (o, x') →
  match o with Ok _ => height_set x x' (nb_Height nb) true | Err _ => others_kept x x' (nb_Height nb) | Panic _ => False end.
Proof.
  intros Hv Hw. pose proof (valid_height _ Hv). destruct Hv as (b & -> & <- & Hb). intros E.
  destruct (ix_resync_law _ _ _ _ _ Hw Hb E) as [Hw' Hi]. destruct o; [split; [done|]..|].
  - intros n Hn. rewrite (Hi n Hn). destruct (decide (n = blk_Height b)); tauto.
  - exact Hi.
  - apply (Hi 0). gate_ints. lia.
Qed.

(** The tracker after a block: one MarkBlock call. *)
Definition marked (v v' : svc) (h : Z) (indexed : bool) : Prop :=
  v_status v' = (λ t, Tracker.MarkBlock t h indexed (clock (v_ticks v))) <$> v_status v.

Lemma mark_marked (v : svc) h i : marked v (mark clock v h i) h i.
Proof. by destruct v as [x [t|] n p l]. Qed.
Lemma mark_indexer (v : svc) h i : v_indexer (mark clock v h i) = v_indexer v.
Proof. by destruct v as [x [t|] n p l]. Qed.
Lemma mark_published (v : svc) h i : v_published (mark clock v h i) = v_published v.
Proof. by destruct v as [x [t|] n p l]. Qed.

(** What handling a block does to the service, by its result. *)
Definition handled (publishTip : bool) (nb : NewBlockData) (v v' : svc) (r : res error unit) : Prop :=
  match r with
  | Ok _ => ∃ flag, height_set (v_indexer v) (v_indexer v') (nb_Height nb) flag ∧ marked v v' (nb_Height nb) flag ∧
              v_published v' = v_published v ++ (if flag && (publishTip && tipPublisher) then [nb_Height nb] else []) ∧
              (flag = false → AllowGaps cfg = true)
  | Err _ => v_published v' = v_published v ∧
             (height_set (v_indexer v) (v_indexer v') (nb_Height nb) false ∧ marked v v' (nb_Height nb) false ∨
              others_kept (v_indexer v) (v_indexer v') (nb_Height nb) ∧ v_status v' = v_status v ∧
              ∃ x c, cleanupFailedBlock x (nb_Height nb) = (Err c, v_indexer v'))
  | Panic _ => others_kept (v_indexer v) (v_indexer v') (nb_Height nb) ∧ v_status v' = v_status v
  end.

Lemma handle_law publishTip nb v r v' :
  valid_block nb → nb_Skipped nb = false → ix_wf (v_indexer v) →
  handle publishTip nb v = (r, v') → handled publishTip nb v v' r.
Proof.
  intros Hv Hs Hw. pose proof (valid_height _ Hv) as Hh. unfold handleSyncedBlock. rewrite Hs.
  destruct (indexBlock _ _ _) as [[[]|err|m] x] eqn:Hi; pose proof (index_law _ _ _ _ Hv Hw Hi) as Hx; cbn in Hx; [| |done].
  - intros [= <- <-]. exists true. set (w := pace_Add (mark clock (set_indexer v x) (nb_Height nb) true) 1).
    assert (v_indexer w = x) as Ex by apply mark_indexer.
    assert (marked v w (nb_Height nb) true) as Hm by apply (mark_marked (set_indexer v x)).
    assert (v_published w = v_published v) as Hp by apply (mark_published (set_indexer v x)).
    clearbody w. destruct (publishTip && tipPublisher); cbn; rewrite ?Ex, ?Hp, ?app_nil_r; by split_and!.
  - unfold after_cleanup. destruct (cleanupFailedBlock _ _) as [o x2] eqn:Ec.
    pose proof (cleanup_law _ _ _ _ _ Hx ltac:(lia) Ec) as Hc. destruct o as [[]|c|m]; cbn in Hc.
    + set (w := mark clock (set_indexer (set_indexer v x) x2) (nb_Height nb) false).
      assert (v_indexer w = x2) as Ex by apply mark_indexer.
      assert (marked v w (nb_Height nb) false) as Hm by apply (mark_marked (set_indexer (set_indexer v x) x2)).
      assert (v_published w = v_published v) as Hp by apply (mark_published (set_indexer (set_indexer v x) x2)).
      clearbody w. destruct (errors_Is err ErrBlockParse && AllowGaps cfg) eqn:Eg; intros [= <- <-].
      * exists false. cbn. rewrite Ex, Hp, app_nil_r. split_and!; try done. intros _. by apply andb_prop in Eg as [_ ?].
      * cbn. rewrite Ex, Hp. split; [done|]. by left.
    + intros [= <- <-]. cbn. split; [done|]. right. split_and!; [done..|]. by exists x, c.
    + by intros [= <- <-].
Qed.

(** ** Gap sync *)

(** The gaps the tracker still counts, and the kind of its current segment. *)
Definition tracker_at (v : svc) (g : Z) (kind : option string) : Prop :=
  ∃ t, v_status v = Some t ∧ Tracker.gapsRemaining t = g ∧ Tracker.Type_ <$> Tracker.currentSegment t = kind.

Lemma MarkBlock_tracker t h i now :
  Tracker.gapsRemaining (Tracker.MarkBlock t h i now) = Tracker.gapsRemaining t ∧
  Tracker.Type_ <$> Tracker.currentSegment (Tracker.MarkBlock t h i now) = Tracker.Type_ <$> Tracker.currentSegment t.
Proof.
  destruct t as [? ? ? ? ? ? ? ? ? ? ? ? cs]; cbn. split; [done|]. destruct cs as [seg|]; [|done]. cbn. by case_bool_decide.
Qed.

Lemma marked_tracker v v' h i g kind : marked v v' h i → tracker_at v g kind → tracker_at v' g kind.
Proof.
  intros Hm (t & Ht & Hg & Hk). unfold marked in Hm. rewrite Ht in Hm. cbn in Hm. eexists. split; [exact Hm|].
  destruct (MarkBlock_tracker t h i (clock (v_ticks v))) as [-> ->]. done.
Qed.

(** What the getter of a range yields when it passes no block over. *)
Definition feed_ok (f : feed) : Prop :=
  0 ≤ Start f.1 ≤ End_ f.1 ∧ End_ f.1 < 2 ^ 63 - 1 ∧
  ∀ nb : NewBlockData, SBlock nb ∈ f.2 → valid_block nb ∧ nb_Skipped nb = false.

(** What it yields in general: skipped blocks only when gaps are allowed. *)
Definition feed_wf (f : feed) : Prop :=
  0 ≤ Start f.1 ≤ End_ f.1 ∧ End_ f.1 < 2 ^ 63 - 1 ∧
  ∀ nb : NewBlockData, SBlock nb ∈ f.2 → if nb_Skipped nb then AllowGaps cfg = true else valid_block nb.

Lemma feed_ok_wf f : feed_ok f → feed_wf f.
Proof. intros (? & ? & H). split_and!; [lia..|]. intros nb Hin. destruct (H nb Hin) as [Hv ->]. done. Qed.

(** A height is passed over when gaps are allowed and its block was skipped by the
    getter or could not be parsed. *)
Definition passed_over (items : list stream_item) (n : Z) : Prop :=
  AllowGaps cfg = true ∧ ∃ nb : NewBlockData, SBlock nb ∈ items ∧ nb_Height nb = n ∧
    (nb_Skipped nb = true ∨
     ∃ (x : X) err x', indexBlock x (nb_Block nb) (nb_BlockResults nb) = (Err err, x') ∧ errors_Is err ErrBlockParse = true).

(** Heights [a] to [h - 1] of the gap were indexed or passed over, nothing else changed. *)
Definition gap_done (items : list stream_item) (x0 : X) (a g : Z) (kind : option string) (h : Z) (v : svc) : Prop :=
  ix_wf (v_indexer v) ∧ (∀ n, is_int64 n → ¬ (a ≤ n < h) → ix_indexed (v_indexer v) n ↔ ix_indexed x0 n) ∧
  (∀ n, is_int64 n → a ≤ n < h → ix_indexed (v_indexer v) n ∨ passed_over items n) ∧ tracker_at v g kind.

Definition gap_failed (x0 : X) (a e g : Z) (kind : option string) (v : svc) : Prop :=
  ix_wf (v_indexer v) ∧ (∀ n, is_int64 n → ¬ (a ≤ n ≤ e) → ix_indexed (v_indexer v) n ↔ ix_indexed x0 n) ∧ tracker_at v g kind.

(** A block that was handled without an error is indexed, or did not parse. *)
Lemma handle_ok publishTip nb v v' :
  valid_block nb → nb_Skipped nb = false → ix_wf (v_indexer v) → handle publishTip nb v = (Ok tt, v') →
  ix_indexed (v_indexer v') (nb_Height nb) ∨
  AllowGaps cfg = true ∧ ∃ err x', indexBlock (v_indexer v) (nb_Block nb) (nb_BlockResults nb) = (Err err, x') ∧ errors_Is err ErrBlockParse = true.
Proof.
  intros Hv Hs Hw. pose proof (valid_height _ Hv). unfold handleSyncedBlock. rewrite Hs.
  destruct (indexBlock _ _ _) as [[[]|err|m] x] eqn:Hi; pose proof (index_law _ _ _ _ Hv Hw Hi) as Hx; cbn in Hx; [| |done].
  - intros [= <-]. left. destruct Hx as [_ Hx]. assert (ix_indexed x (nb_Height nb)) as Hn by (apply Hx; [gate_ints; lia|by left]).
    destruct (publishTip && tipPublisher); cbn; by rewrite mark_indexer.
  - unfold after_cleanup. destruct (cleanupFailedBlock _ _) as [[[]|c|m] x2]; [|done..].
    destruct (errors_Is err ErrBlockParse && AllowGaps cfg) eqn:Eg; [|done]. intros _. right.
    apply andb_prop in Eg as [? ?]. split; [done|]. by exists err, x.
Qed.

Lemma handle_gap items x0 a e g kind publishTip nb v r v' :
  SBlock nb ∈ items → valid_block nb → nb_Skipped nb = false → a ≤ nb_Height nb ≤ e → gap_done items x0 a g kind (nb_Height nb) v →
  handle publishTip nb v = (r, v') →
  match r with Ok _ => gap_done items x0 a g kind (nb_Height nb + 1) v' | _ => gap_failed x0 a e g kind v' end.
Proof.
  intros Hin Hv Hs Hr (Hw & Hi & Hd & Ht) E. pose proof (handle_law _ _ _ _ _ Hv Hs Hw E) as Hl.
  assert (∀ x', others_kept (v_indexer v) x' (nb_Height nb) →
            ∀ n, is_int64 n → ¬ (a ≤ n ≤ e) → ix_indexed x' n ↔ ix_indexed x0 n) as Ho.
  { intros x' [_ Ho] n Hn Hne. rewrite Ho, Hi by (done || lia). done. }
  destruct r as [[]|err|m]; cbn in Hl.
  - destruct Hl as (flag & Hset & Hm & _). pose proof (height_set_others _ _ _ _ Hset) as [Hw' Hk].
    split_and!; [done| | |by eapply marked_tracker].
    + intros n Hn Hne. rewrite Hk, Hi by (done || lia). done.
    + intros n Hn Hle. destruct (decide (n = nb_Height nb)) as [->|Hne].
      * destruct (handle_ok _ _ _ _ Hv Hs Hw E) as [|(Hg & err & x' & He & Hp)]; [by left|]. right. split; [done|].
        exists nb. split_and!; [done|done|]. right. by exists (v_indexer v), err, x'.
      * rewrite Hk by done. apply Hd; [done|lia].
  - destruct Hl as [_ [[Hset Hm]|[Hk [Hst _]]]].
    + split_and!; [apply Hset| |by eapply marked_tracker]. by apply Ho, height_set_others with false.
    + split_and!; [apply Hk|by apply Ho|]. destruct Ht as (t & ? & ?). exists t. by rewrite Hst.
  - destruct Hl as [Hk Hst]. split_and!; [apply Hk|by apply Ho|]. destruct Ht as (t & ? & ?). exists t. by rewrite Hst.
Qed.

Lemma range_synced f g kind v r v' :
  feed_wf f → ix_wf (v_indexer v) → tracker_at v g kind →
  SyncRange (handle false) (Start f.1) (End_ f.1) f.2 v = (r, v') →
  match r with
  | Some (Ok _) => gap_done f.2 (v_indexer v) (Start f.1) g kind (End_ f.1 + 1) v'
  | _ => gap_failed (v_indexer v) (Start f.1) (End_ f.1) g kind v'
  end.
Proof.
  intros (Ha & He & Hf) Hw Ht Hs.
  pose proof (SyncRange_rule (handle false) (λ h v1, h ≤ End_ f.1 + 1 ∧ gap_done f.2 (v_indexer v) (Start f.1) g kind h v1)
    (gap_failed (v_indexer v) (Start f.1) (End_ f.1) g kind) (Start f.1) (End_ f.1) f.2 v r v') as Hrule.
  enough (match r with
          | Some (Ok _) => End_ f.1 + 1 ≤ End_ f.1 + 1 ∧ gap_done f.2 (v_indexer v) (Start f.1) g kind (End_ f.1 + 1) v'
          | _ => gap_failed (v_indexer v) (Start f.1) (End_ f.1) g kind v' end) as Hgoal
    by (destruct r as [[]|]; [by destruct Hgoal|exact Hgoal..]).
  apply Hrule; [| | |done|done| |done].
  - intros nb st r1 st1 Hin Hr Hsk [_ HP] E. pose proof (Hf nb Hin) as Hv. rewrite Hsk in Hv.
    pose proof (handle_gap _ _ _ _ _ _ _ _ _ _ _ Hin Hv Hsk Hr HP E) as Hh. destruct r1; [split; [lia|done]|done..].
  - intros nb st Hin Hr Hsk [_ (Hw' & Hi & Hd & Ht')]. pose proof (Hf nb Hin) as Hg. rewrite Hsk in Hg.
    split; [lia|]. split_and!; [done|intros n Hn Hne; apply Hi; [done|lia]| |done].
    intros n Hn Hle. destruct (decide (n = nb_Height nb)) as [->|]; [|apply Hd; [done|lia]].
    right. split; [done|]. exists nb. split_and!; [done..|]. by left.
  - intros h st (Hle & Hw' & Hi & Hd & Ht'). split_and!; [done| |done]. intros n Hn Hne. apply Hi; [done|lia].
  - split; [lia|]. split_and!; [done|done| |done]. intros n Hn. lia.
Qed.

(** The tracker operations around a gap. *)
Lemma segment_started v g kind r :
  tracker_at v g kind →
  tracker_at (with_status clock v (λ t now, Tracker.StartSegment t "gap" (Start r) (Some (End_ r)) now)) g (Some "gap"%string).
Proof. intros (t & Ht & Hg & _). destruct v as [x st n p l]. cbn in Ht. subst st.
  eexists. split; [reflexivity|]. by destruct t.
Qed.

Definition dec (g : Z) : Z := if bool_decide (0 < g) then g - 1 else g.

Lemma segment_completed v g :
  tracker_at v g (Some "gap"%string) →
  ∃ kind, tracker_at (with_status clock v (λ t now, Tracker.CompleteCurrentSegment t now)) (dec g) kind.
Proof.
  intros (t & Ht & Hg & Hk). destruct v as [x st n p l]. cbn in Ht. subst st.
  eexists. eexists. split; [reflexivity|]. split; [|reflexivity].
  destruct t as [? ? ? ? ? ? ? ? ? ? ? ? [seg|]]; cbn in *; [|done]. injection Hk as Hk. unfold Tracker.CompleteCurrentSegment.
  cbn. rewrite Hk. cbn. unfold Tracker.dec_gaps, dec. cbn. by rewrite Hg.
Qed.

Lemma gap_completed v g kind r :
  tracker_at v g kind →
  tracker_at (with_status clock v (λ t now, Tracker.CompleteGap t (Start r) (End_ r) now)) (dec g) kind.
Proof.
  intros (t & Ht & Hg & Hk). destruct v as [x st n p l]. cbn in Ht. subst st. eexists. split; [reflexivity|].
  destruct t; cbn in *. unfold Tracker.dec_gaps, dec. cbn. by rewrite Hg.
Qed.

(** What a run over the gaps guarantees of the store and of the tracker. *)
Definition gaps_run (feeds : list feed) (x : X) (g : Z) (v' : svc) : Prop :=
  ix_wf (v_indexer v') ∧
  (∀ n, is_int64 n → ¬ in_ranges n feeds.*1 → ix_indexed (v_indexer v') n ↔ ix_indexed x n) ∧
  ∃ g' kind', tracker_at v' g' kind' ∧ g - Z.of_nat (length feeds) ≤ g' ∧
    (g' = g - Z.of_nat (length feeds) → ∀ n, in_ranges n feeds.*1 →
       ix_indexed (v_indexer v') n ∨ ∃ f, f ∈ feeds ∧ passed_over f.2 n).

Lemma with_status_indexer (v : svc) f : v_indexer (with_status clock v f) = v_indexer v.
Proof. by destruct v as [x [t|] n p l]. Qed.

Lemma feed_covers (f : feed) n : feed_wf f → covers f.1 n → is_int64 n.
Proof. intros (? & ? & _). unfold covers. gate_ints. lia. Qed.

(** The first gap failed: its heights may have changed, no gap is closed. *)
Lemma gaps_run_failed f feeds x g kind v v' :
  feed_wf f → Forall feed_wf feeds → canonical (f.1 :: feeds.*1) →
  gap_failed x (Start f.1) (End_ f.1) g kind v → gaps_run feeds (v_indexer v) g v' → gaps_run (f :: feeds) x g v'.
Proof.
  intros Hf _ _ (Hw & Hi & _) (Hw' & Hi' & g' & kind' & Ht & Hle & _). split_and!; [done| |].
  - intros n Hn. cbn. rewrite in_ranges_cons. intros Hni. rewrite Hi', Hi; try done; [|tauto]. unfold covers in Hni. tauto.
  - exists g', kind'. cbn. split_and!; [done|lia|lia].
Qed.

(** The first gap was synced and counted. *)
Lemma gaps_run_done f feeds x g kind v v' :
  feed_wf f → canonical (f.1 :: feeds.*1) → 0 < g →
  gap_done f.2 x (Start f.1) g kind (End_ f.1 + 1) v → gaps_run feeds (v_indexer v) (g - 1) v' → gaps_run (f :: feeds) x g v'.
Proof.
  intros Hf (_ & Hsep & _)%canonical_cons Hg (Hw & Hi & Hd & _) (Hw' & Hi' & g' & kind' & Ht & Hle & Hall).
  assert (∀ n, covers f.1 n → ¬ in_ranges n feeds.*1) as Hdis.
  { intros n Hc Hin. apply (in_ranges_bound (End_ f.1 + 2)) in Hin; [unfold covers in Hc; lia|by apply separated_bound]. }
  split_and!; [done| |].
  - intros n Hn. cbn. rewrite in_ranges_cons. intros Hni. rewrite Hi' by tauto. apply Hi; [done|].
    intros ?. apply Hni. left. unfold covers. lia.
  - exists g', kind'. cbn -[Z.of_nat]. split_and!; [done|lia|]. intros E n [Hc|Hin]%in_ranges_cons.
    + pose proof (feed_covers _ _ Hf Hc) as Hn. destruct (Hd n Hn) as [Hx|Hp]; [unfold covers in Hc; lia| |].
      * left. apply Hi'; [done|by apply Hdis|done].
      * right. exists f. split; [by left|done].
    + destruct (Hall ltac:(lia) n Hin) as [|(f' & ? & ?)]; [by left|]. right. exists f'. split; [by right|done].
Qed.

Lemma syncGaps_run feeds parallel v g kind v' :
  Forall feed_wf feeds → canonical feeds.*1 → ix_wf (v_indexer v) → tracker_at v g kind →
  Z.of_nat (length feeds) ≤ g →
  syncGaps cfg tipPublisher clock feeds parallel v = (Some (Ok tt), v') → gaps_run feeds (v_indexer v) g v'.
Proof.
  revert v g kind. induction feeds as [|[gap items] feeds IH]; intros v g kind Hf Hcan Hw Ht Hg; cbn [syncGaps].
  { intros [= <-]. split_and!; [done|done|]. exists g, kind. split_and!; [done|cbn; lia|]. by intros _ n ?%in_ranges_nil. }
  apply Forall_cons in Hf as [Hf1 Hf]. pose proof Hcan as (_ & _ & Hcan')%canonical_cons.
  set (v1 := if parallel then v else _). intros E.
  assert (v_indexer v1 = v_indexer v) as Ex by (unfold v1; destruct parallel; [done|apply with_status_indexer]).
  assert (∃ kind1, tracker_at v1 g kind1 ∧ (parallel = false → kind1 = Some "gap"%string)) as (kind1 & Ht1 & Hk1).
  { unfold v1. destruct parallel; [by exists kind|]. eexists. split; [by eapply segment_started|done]. }
  rewrite <- Ex in Hw |- *. clearbody v1.
  destruct (SyncRange _ _ _ _ v1) as [r v2] eqn:Er. pose proof (range_synced (gap, items) _ _ _ _ _ Hf1 Hw Ht1 Er) as Hr.
  cbn in Hg. destruct r as [[[]|err|m]|]; cbn in Hr; [| |done|done].
  - pose proof Hr as (Hw2 & _ & _ & Ht2). eapply gaps_run_done; [exact Hf1|exact Hcan|lia|exact Hr|].
    set (v3 := with_status clock v2 _) in E.
    assert (v_indexer v3 = v_indexer v2) as Ex3 by apply with_status_indexer. rewrite <- Ex3 in Hw2 |- *.
    assert (∃ kind3, tracker_at v3 (dec g) kind3) as [kind3 Ht3].
    { unfold v3. destruct parallel; [exists kind1; by apply gap_completed|]. apply segment_completed. by rewrite <- Hk1. }
    unfold dec in Ht3. rewrite bool_decide_eq_true_2 in Ht3 by lia. eapply IH; [done|done|done|done|lia|done].
  - destruct (errors_Is err context_Canceled); [done|]. pose proof Hr as (Hw2 & _ & Ht2).
    eapply gaps_run_failed; [exact Hf1|done|exact Hcan|exact Hr|]. eapply IH; [done|done|done|done|lia|done].
Qed.

Lemma no_ranges l : canonical l → (∀ n, ¬ in_ranges n l) → l = [].
Proof.
  destruct l as [|r l]; [done|]. intros (Hr & _)%canonical_cons Hn. destruct (Hn (Start r)).
  apply in_ranges_cons. left. split; lia.
Qed.

Lemma gaps_set v t gaps :
  v_status v = Some t →
  ∃ kind, tracker_at (with_status clock v (λ t now, Tracker.SetGaps t (toStatusRanges gaps) now)) (Z.of_nat (length gaps)) kind.
Proof.
  intros Ht. destruct v as [x st n p l]. cbn in Ht. subst st. eexists. eexists. split; [reflexivity|]. split; [|reflexivity].
  unfold toStatusRanges. destruct t. cbn. by rewrite length_fmap.
Qed.


(** C26.  A synced block ends up indexed or without records.  Whatever the
    indexer answers, handleSyncedBlock touches only the height of the block; when it returns
    without an error the block is indexed, marked as such in the tracker and, on the tip
    queue, published, or (only if gaps are allowed) it has no records, is marked as not
    indexed and is not published; when it returns an error the block has no records and is
    marked as not indexed, unless the cleanup itself failed. *)
Theorem handleSyncedBlock_exact publishTip nb v r v' :
  valid_block nb → nb_Skipped nb = false → ix_wf (v_indexer v) →
  handle publishTip nb v = (r, v') →
  match r with
  | Ok _ => ∃ flag, height_set (v_indexer v) (v_indexer v') (nb_Height nb) flag ∧ marked v v' (nb_Height nb) flag ∧
              v_published v' = v_published v ++ (if flag && (publishTip && tipPublisher) then [nb_Height nb] else []) ∧
              (flag = false → AllowGaps cfg = true)
  | Err _ => v_published v' = v_published v ∧
             (height_set (v_indexer v) (v_indexer v') (nb_Height nb) false ∧ marked v v' (nb_Height nb) false ∨
              others_kept (v_indexer v) (v_indexer v') (nb_Height nb) ∧ v_status v' = v_status v ∧
              ∃ x c, cleanupFailedBlock x (nb_Height nb) = (Err c, v_indexer v'))
  | Panic _ => others_kept (v_indexer v) (v_indexer v') (nb_Height nb) ∧ v_status v' = v_status v
  end.
Proof. intros Hv Hs Hw E. pose proof (handle_law _ _ _ _ _ Hv Hs Hw E) as H. by destruct r. Qed.

(** ** Resync *)

(** Heights [a] to [h - 1] were indexed and counted on top of [c]. *)
Definition resynced (x0 : X) (a c h : Z) (st : ResyncStats * svc) : Prop :=
  ix_wf (v_indexer st.2) ∧
  (∀ n, is_int64 n → ix_indexed (v_indexer st.2) n ↔ a ≤ n < h ∨ ix_indexed x0 n) ∧
  BlocksSynced st.1 = int64 (c + (h - a)).

Lemma resync_step x0 a c nb st st' :
  valid_block nb → nb_Skipped nb = false → a ≤ nb_Height nb → resynced x0 a c (nb_Height nb) st →
  resync_handler nb st = (Ok tt, st') → resynced x0 a c (nb_Height nb + 1) st'.
Proof.
  destruct st as [stats v]. intros Hv Hs Ha (Hw & Hi & Hc). unfold resync_handler. rewrite Hs.
  destruct (indexBlockForResync _ _ _) as [[ist|err|m] x] eqn:E; pose proof (resync_index_law _ _ _ _ Hv Hw E) as Hx; cbn in Hx.
  - intros [= <-]. destruct Hx as [Hw' Hi']. split_and!; cbn; [done| |].
    + intros n Hn. rewrite Hi', Hi by done. cbn. destruct (decide (n = nb_Height nb)) as [->|]; [split; intros _; left; [lia|done]|].
      split; [intros [[? _]|[_ [?|?]]]; [done|left; lia|by right]|]. intros [?|?]; right; (split; [done|]); [left; lia|by right].
    + cbn in Hc. rewrite Hc, int64_add_idemp_l. f_equal. lia.
  - unfold after_cleanup. by destruct (cleanupFailedBlock _ _) as [[[]| |] ?].
  - done.
Qed.

Lemma target_resynced (f : feed) c st st' :
  feed_ok f → ix_wf (v_indexer st.2) → BlocksSynced st.1 = int64 c →
  SyncRange resync_handler (Start f.1) (End_ f.1) f.2 st = (Some (Ok tt), st') →
  resynced (v_indexer st.2) (Start f.1) c (End_ f.1 + 1) st'.
Proof.
  intros (Ha & He & Hf) Hw Hc.
  apply (SyncRange_rule resync_handler (resynced (v_indexer st.2) (Start f.1) c) (λ _, True) _ _ _ _ (Some (Ok tt))); try done.
  - intros nb s1 r s2 Hin Hr Hs HP E. destruct r as [[]| |]; [|done..]. destruct (Hf nb Hin). eapply resync_step; [done..| |done|done]. lia.
  - intros nb s1 Hin _ Hs. destruct (Hf nb Hin). congruence.
  - split_and!; [done| |].
    + intros n Hn. split; [by right|]. intros [?|?]; [lia|done].
    + rewrite Hc. f_equal. lia.
Qed.

Lemma heights_cons r l : Start r ≤ End_ r →
  Z.of_nat (length (heights_of (r :: l))) = (End_ r - Start r + 1) + Z.of_nat (length (heights_of l)).
Proof. intros H. unfold heights_of. rewrite bind_cons, length_app, length_seqZ. lia. Qed.

Lemma targets_resynced (feeds : list feed) c st st' :
  Forall feed_ok feeds → ix_wf (v_indexer st.2) → BlocksSynced st.1 = int64 c →
  resync_targets feeds st = (Some (Ok tt), st') →
  ix_wf (v_indexer st'.2) ∧
  (∀ n, is_int64 n → ix_indexed (v_indexer st'.2) n ↔ in_ranges n feeds.*1 ∨ ix_indexed (v_indexer st.2) n) ∧
  BlocksSynced st'.1 = int64 (c + Z.of_nat (length (heights_of feeds.*1))).
Proof.
  revert c st. induction feeds as [|[r items] feeds IH]; intros c st Hf Hw Hc; cbn [resync_targets].
  { intros [= <-]. split_and!; [done| |by rewrite Hc, Z.add_0_r]. intros n Hn. cbn. rewrite in_ranges_nil. tauto. }
  apply Forall_cons in Hf as [Hf1 Hf]. destruct (SyncRange _ _ _ _ st) as [[[[]| |]|] st1] eqn:E; [|done..].
  destruct (target_resynced (r, items) c st st1 Hf1 Hw Hc E) as (Hw1 & Hi1 & Hc1). intros E2.
  destruct (IH _ _ Hf Hw1 Hc1 E2) as (Hw2 & Hi2 & Hc2). split_and!; [done| |].
  - intros n Hn. rewrite Hi2, Hi1 by done. cbn. rewrite in_ranges_cons. unfold covers.
    assert (Start r ≤ n < End_ r + 1 ↔ Start r ≤ n ≤ End_ r) by lia. tauto.
  - rewrite Hc2. cbn [fmap list_fmap fst]. rewrite heights_cons by (destruct Hf1; cbn in *; lia). f_equal. cbn. lia.
Qed.

(** C25.  A resync that returns without an error has done its work: exactly
    the heights of its targets were added to the indexed ones, and BlocksSynced is
    the number of distinct heights of the targets (CountBlocks of the normalised
    targets), however the targets overlap. *)
Theorem Resync_exact targets feed_of v stats v' :
  Forall wf_range targets → ix_wf (v_indexer v) →
  Forall feed_ok ((λ t, (t, feed_of t)) <$> NormalizeRanges targets) →
  Resync targets feed_of v = (Some (Ok tt), (stats, v')) →
  (∀ n, is_int64 n → ix_indexed (v_indexer v') n ↔ in_ranges n targets ∨ ix_indexed (v_indexer v) n) ∧
  BlocksSynced stats = CountBlocks (NormalizeRanges targets).
Proof.
  intros Hwf Hw Hf. unfold Resync. destruct targets as [|t0 targets']; [done|]. set (targets := t0 :: targets') in *. intros E.
  destruct (NormalizeRanges_spec targets Hwf) as [Hin [Hle _]].
  destruct (targets_resynced _ 0 (mkResyncStats 0 0, v) _ Hf Hw eq_refl E) as (_ & Hi & Hc).
  rewrite <- list_fmap_compose, list_fmap_id in Hi, Hc.
  split.
  - intros n Hn. rewrite Hi by done. cbn. by rewrite Hin.
  - cbn in Hc. by rewrite Hc, CountBlocks_heights.
Qed.
End service.
End ServiceProps.
