(* ===== verification/ServiceParallel.v ===== *)
(** * Gap and tip queues in parallel

    runParallelTipAndGaps of src/internal/indexer/service.go: the gap queue and the
    tip queue run as two goroutines over one indexer and one status tracker.  A queue
    is a state machine whose steps are the calls that touch shared state, so the steps of
    the two interleave between indexing a block, cleaning up after a failure, marking it
    in the tracker and publishing it.  A call of the indexer is one step: it writes its
    block in one batch. *)

From Stdlib Require Import Ascii String.
From S2P Require Import Prelude Bytes GoLib EthTypes ParsedTx Ranges Tracker Indexer Blocksync Service ServiceProps.
From stdpp Require Import strings list relations.
#[local] Open Scope Z_scope.

Module ServiceParallel.
Import GoLib EthTypes ParsedTx Ranges Indexer Blocksync Service ServiceProps.

Section queues.
Context {X : Type} {TI : TxIndexer X} {Validator : Type}.
Notation NewBlockData := (@NewBlockData Validator).
Notation stream_item := (@stream_item Validator).
Notation feed := (@feed Validator).
Notation svc := (svc X).
Context (cfg : Config) (tipPublisher : bool) (clock : nat → Z).

(** ** One queue *)

(** Where a queue is: at the head of the loop over blocks; before the cleanup of a
    failed block; before it is marked, with the result of the handler; before it is
    published; after the loop; or returned. *)
Inductive place :=
| AtLoop
| AtCleanup (nb : NewBlockData) (err : error)
| AtMark (nb : NewBlockData) (indexed : bool) (result : res error unit)
| AtPublish (nb : NewBlockData)
| AtEnd (result : res error unit)
| Returned (result : res error unit).

(** The range of the loop ([None] for the tip), the height it expects, the blocks that
    will arrive, the gaps that follow. *)
Record queue := mkQueue {
  q_range : option BlockRange;
  q_expected : Z;
  q_items : list stream_item;
  q_rest : list feed;
  q_at : place;
}.

Definition at_ (q : queue) (p : place) : queue := mkQueue (q_range q) (q_expected q) (q_items q) (q_rest q) p.
Definition advance (q : queue) (items : list stream_item) : queue :=
  mkQueue (q_range q) (int64 (q_expected q + 1)) items (q_rest q) AtLoop.

(** The next gap, with the tests SyncRange starts with. *)
Definition next_gap (gaps : list feed) : queue :=
  match gaps with
  | [] => mkQueue None 0 [] [] (Returned (Ok tt))
  | (gap, items) :: rest =>
      mkQueue (Some gap) (Start gap) items rest
        (if bool_decide (Start gap < 0) then AtEnd (Err (Errorf "negative start block %d"))
         else if bool_decide (End_ gap < Start gap) then AtEnd (Ok tt) else AtLoop)
  end.

Definition tip_queue (start : Z) (items : list stream_item) : queue :=
  mkQueue None start items []
    (if bool_decide (start < 0) then AtEnd (Err (Errorf "negative start block %d")) else AtLoop).

(** The loop over blocks; [None] when it waits for one. *)
Definition loop_step (q : queue) (v : svc) : option (queue * svc) :=
  if match q_range q with Some r => bool_decide (End_ r < q_expected q) | None => false end then Some (at_ q (AtEnd (Ok tt)), v)
  else
    match q_items q with
    | [] => None
    | SDone err :: _ => Some (at_ q (AtEnd (Err err)), v)
    | SClosed :: _ => Some (at_ q (AtEnd (Err (New "block stream closed"))), v)
    | SBlock nb :: items =>
        if bool_decide (nb_Height nb ≠ q_expected q) then
          Some (at_ q (AtEnd (Err (Errorf "sequential block height mismatch: expected %d, got %d"))), v)
        else if nb_Skipped nb then Some (advance q items, v)
        else
          match indexBlock (v_indexer v) (nb_Block nb) (nb_BlockResults nb) with
          | (Ok _, x) => Some (at_ q (AtMark nb true (Ok tt)), set_indexer v x)
          | (Err err, x) => Some (at_ q (AtCleanup nb err), set_indexer v x)
          | (Panic m, x) => Some (at_ q (AtEnd (Panic m)), set_indexer v x)
          end
    end.

Definition cleanup_step (q : queue) (nb : NewBlockData) (err : error) (v : svc) : queue * svc :=
  match cleanupFailedBlock (v_indexer v) (nb_Height nb) with
  | (Ok _, x) =>
      (at_ q (AtMark nb false (if errors_Is err ErrBlockParse && AllowGaps cfg then Ok tt else Err (Wrap "index block %d" err))), set_indexer v x)
  | (Err cleanupErr, x) =>
      (at_ q (AtEnd (Err (default cleanupErr (joinErrors (Some (Wrap "index block %d" err)) (Some cleanupErr))))), set_indexer v x)
  | (Panic m, x) => (at_ q (AtEnd (Panic m)), set_indexer v x)
  end.

Definition mark_step (tip : bool) (q : queue) (nb : NewBlockData) (indexed : bool) (result : res error unit) (v : svc) : queue * svc :=
  let v := mark clock v (nb_Height nb) indexed in
  match result with
  | Ok _ =>
      (if indexed && (tip && tipPublisher) then at_ q (AtPublish nb) else advance q (tail (q_items q)), pace_Add v 1)
  | r => (at_ q (AtEnd r), v)
  end.

(** A range is over: the gap queue completes it or goes on; the tip queue reports that
    it stopped. *)
Definition end_step (tip : bool) (q : queue) (result : res error unit) (v : svc) : queue * svc :=
  match result with
  | Panic m => (at_ q (Returned (Panic m)), v)
  | Err err =>
      if errors_Is err context_Canceled then (at_ q (Returned (Err err)), v)
      else if tip then (at_ q (Returned (Ok tt)), with_status clock v (λ t now, Tracker.SetPhase t "forward_sync_stopped" now))
      else (next_gap (q_rest q), v)
  | Ok _ =>
      match tip, q_range q with
      | false, Some gap => (next_gap (q_rest q), with_status clock v (λ t now, Tracker.CompleteGap t (Start gap) (End_ gap) now))
      | _, _ => (at_ q (Returned (Ok tt)), v)
      end
  end.

(** [None]: the queue waits for a block or has returned. *)
Definition queue_step (tip : bool) (q : queue) (v : svc) : option (queue * svc) :=
  match q_at q with
  | AtLoop => loop_step q v
  | AtCleanup nb err => Some (cleanup_step q nb err v)
  | AtMark nb indexed result => Some (mark_step tip q nb indexed result v)
  | AtPublish nb => Some (advance q (tail (q_items q)), publish v (nb_Height nb))
  | AtEnd result => Some (end_step tip q result v)
  | Returned _ => None
  end.

(** ** The two queues *)

Record parallel := mkParallel { gapQ : queue; tipQ : queue; shared : svc }.

Inductive par_step : parallel → parallel → Prop :=
| par_gap g t v g' v' : queue_step false g v = Some (g', v') → par_step (mkParallel g t v) (mkParallel g' t v')
| par_tip g t v t' v' : queue_step true t v = Some (t', v') → par_step (mkParallel g t v) (mkParallel g t' v').

Definition runParallelTipAndGaps (gaps : list feed) (head : Z) (tip : list stream_item) (v : svc) : parallel :=
  let tipStart := int64 (head + 1) in
  let v := with_status clock (with_status clock v (λ t now, Tracker.SetPhase t "parallel_gap_tip_sync" now))
             (λ t now, Tracker.StartSegment t "forward" tipStart None now) in
  mkParallel (next_gap gaps) (tip_queue tipStart tip) v.

(** The result, from the results of the queues in the order they are received. *)
Definition parallel_result (first second : res error unit) : res error unit :=
  let canceled (r : res error unit) := match r with Err err => errors_Is err context_Canceled | _ => false end in
  if canceled second then second else if canceled first then first else Ok tt.

(** ** A queue alone *)

Definition alone (tip : bool) (s s' : queue * svc) : Prop := queue_step tip s.1 s.2 = Some s'.

Lemma alone_once tip q v q' v' : queue_step tip q v = Some (q', v') → rtc (alone tip) (q, v) (q', v').
Proof. intros H. by apply rtc_once. Qed.

Notation handle := (handleSyncedBlock cfg tipPublisher clock).

Lemma alone_step tip q v s' k : queue_step tip q v = Some s' → rtc (alone tip) s' k → rtc (alone tip) (q, v) k.
Proof. intros H. by apply rtc_l. Qed.

(** The handler of one block, in steps. *)
Lemma handle_alone tip range expected nb items rest v r v' :
  nb_Height nb = expected → nb_Skipped nb = false → (match range with Some r => expected ≤ End_ r | None => True end) →
  handle tip nb v = (r, v') →
  rtc (alone tip) (mkQueue range expected (SBlock nb :: items) rest AtLoop, v)
    (match r with
     | Ok _ => mkQueue range (int64 (expected + 1)) items rest AtLoop
     | r => mkQueue range expected (SBlock nb :: items) rest (AtEnd r)
     end, v').
Proof.
  intros Hh Hs Hr E. unfold handleSyncedBlock in E. rewrite Hs in E.
  assert (match range with Some r0 => bool_decide (End_ r0 < expected) | None => false end = false) as Hend
    by (destruct range; [by apply bool_decide_eq_false_2; lia|done]).
  destruct (indexBlock _ _ _) as [[[]|err|m] x] eqn:Ei.
  all: eapply alone_step; [unfold queue_step, loop_step; cbn [q_at q_items q_expected q_range];
    rewrite Hend, bool_decide_eq_false_2, Hs, Ei by (by intros []); reflexivity|].
  - injection E as <- <-. eapply alone_step; [reflexivity|]. unfold mark_step. cbn [andb].
    destruct (tip && tipPublisher); [|apply rtc_refl]. by apply alone_once.
  - unfold after_cleanup in E. eapply alone_step; [reflexivity|]. unfold cleanup_step. cbn [v_indexer set_indexer] in *.
    destruct (cleanupFailedBlock x (nb_Height nb)) as [[[]|c|m] x2]; [|injection E as <- <-; apply rtc_refl..].
    eapply alone_step; [reflexivity|]. unfold mark_step. cbn [andb].
    destruct (errors_Is err ErrBlockParse && AllowGaps cfg); injection E as <- <-; apply rtc_refl.
  - injection E as <- <-. apply rtc_refl.
Qed.

Definition past_end (range : option BlockRange) (expected : Z) : bool :=
  match range with Some r => bool_decide (End_ r < expected) | None => false end.

Lemma loop_alone tip range items expected rest v r v' :
  sync_loop (handle tip) (End_ <$> range) expected items v = (Some r, v') →
  ∃ expected' items', rtc (alone tip) (mkQueue range expected items rest AtLoop, v) (mkQueue range expected' items' rest (AtEnd r), v').
Proof.
  revert expected v. induction items as [|item items IH]; intros expected v H; cbn [sync_loop] in H;
    (replace (match End_ <$> range with Some e => bool_decide (e < expected) | None => false end) with (past_end range expected) in H by (by destruct range));
    destruct (past_end range expected) eqn:Hend.
  1,3: injection H as <- <-; eexists _, _; apply alone_once; unfold queue_step, loop_step; cbn [q_at q_range q_expected]; fold (past_end range expected); rewrite Hend; reflexivity.
  { done. }
  assert (match range with Some r => expected ≤ End_ r | None => True end) as Hle
    by (destruct range; [unfold past_end in Hend; apply bool_decide_eq_false in Hend; lia|done]).
  assert (∀ q' v1, queue_step tip (mkQueue range expected (item :: items) rest AtLoop) v = Some (q', v1) →
    (∃ e i, rtc (alone tip) (q', v1) (mkQueue range e i rest (AtEnd r), v')) →
    ∃ e i, rtc (alone tip) (mkQueue range expected (item :: items) rest AtLoop, v) (mkQueue range e i rest (AtEnd r), v')) as Hstep.
  { intros q' v1 Hq (e & i & Hrun). exists e, i. by eapply alone_step. }
  unfold queue_step, loop_step in Hstep. cbn [q_at q_range q_expected q_items] in Hstep. fold (past_end range expected) in Hstep. rewrite Hend in Hstep.
  destruct item as [nb| |err]; [|injection H as <- <-; eapply Hstep; [done|]; eexists _, _; apply rtc_refl..].
  case_bool_decide as Hn; [injection H as <- <-; eapply Hstep; [done|]; eexists _, _; apply rtc_refl|].
  assert (nb_Height nb = expected) as Heq by (by destruct (decide (nb_Height nb = expected))).
  destruct (nb_Skipped nb) eqn:Hs; [eapply Hstep; [done|]; by apply IH|]. clear Hstep.
  destruct (handle tip nb v) as [[[]|err|m] v1] eqn:Eh; pose proof (handle_alone tip range expected nb items rest v _ _ Heq Hs Hle Eh) as Hrun; cbn in Hrun.
  - destruct (IH _ _ H) as (e & i & H'). exists e, i. by etrans.
  - injection H as <- <-. by eexists _, _.
  - injection H as <- <-. by eexists _, _.
Qed.

(** The gap queue alone does what syncGaps does, and the tip queue what runForwardSync
    does. *)
Lemma gap_queue_alone gaps v r v' :
  syncGaps cfg tipPublisher clock gaps true v = (Some r, v') →
  ∃ q, rtc (alone false) (next_gap gaps, v) (q, v') ∧ q_at q = Returned r.
Proof.
  revert v. induction gaps as [|[gap items] gaps IH]; intros v H; cbn [syncGaps] in H.
  { injection H as <- <-. eexists. split; [apply rtc_refl|done]. }
  assert (∀ r1 v1, SyncRange (handle false) (Start gap) (End_ gap) items v = (Some r1, v1) → ∃ e i,
    rtc (alone false) (next_gap ((gap, items) :: gaps), v) (mkQueue (Some gap) e i gaps (AtEnd r1), v1)) as Hrange.
  { intros r1 v1. unfold SyncRange, next_gap. case_bool_decide; [intros [= <- <-]; eexists _, _; apply rtc_refl|].
    case_bool_decide; [intros [= <- <-]; eexists _, _; apply rtc_refl|]. apply (loop_alone false (Some gap)). }
  destruct (SyncRange _ _ _ _ v) as [[r1|] v1]; [|done]. destruct (Hrange _ _ eq_refl) as (e & i & Hrun).
  destruct r1 as [[]|err|m].
  - destruct (IH _ H) as (q & Hq & Hr). exists q. split; [|done]. etrans; [exact Hrun|]. eapply alone_step; [reflexivity|exact Hq].
  - destruct (errors_Is err context_Canceled) eqn:Ec.
    + injection H as <- <-. eexists. split; [etrans; [exact Hrun|]; apply alone_once; unfold queue_step, end_step; cbn [q_at]; rewrite Ec; reflexivity|done].
    + destruct (IH _ H) as (q & Hq & Hr). exists q. split; [|done]. etrans; [exact Hrun|].
      eapply alone_step; [unfold queue_step, end_step; cbn [q_at]; rewrite Ec; reflexivity|exact Hq].
  - injection H as <- <-. eexists. split; [etrans; [exact Hrun|]; by apply alone_once|done].
Qed.

Lemma tip_queue_alone start items v r v' :
  runForwardSync cfg tipPublisher clock start false items v = (Some r, v') →
  ∃ q, rtc (alone true) (tip_queue start items, v) (q, v') ∧ q_at q = Returned r.
Proof.
  unfold runForwardSync. intros H.
  assert (∀ r1 v1, SyncForward (handle true) start items v = (Some r1, v1) → ∃ e i,
    rtc (alone true) (tip_queue start items, v) (mkQueue None e i [] (AtEnd r1), v1)) as Hrange.
  { intros r1 v1. unfold SyncForward, tip_queue. case_bool_decide; [intros [= <- <-]; eexists _, _; apply rtc_refl|]. apply (loop_alone true None). }
  destruct (SyncForward _ _ _ v) as [[r1|] v1]; [|done]. destruct (Hrange _ _ eq_refl) as (e & i & Hrun). destruct r1 as [[]|err|m].
  - injection H as <- <-. eexists. split; [etrans; [exact Hrun|]; by apply alone_once|done].
  - destruct (errors_Is err context_Canceled) eqn:Ec; injection H as <- <-; eexists;
      (split; [etrans; [exact Hrun|]; apply alone_once; unfold queue_step, end_step; cbn [q_at]; rewrite Ec; reflexivity|done]).
  - injection H as <- <-. eexists. split; [etrans; [exact Hrun|]; by apply alone_once|done].
Qed.

(** A run of the gap queue while the tip queue waits. *)
Lemma gap_alone_parallel g v g' v' t : rtc (alone false) (g, v) (g', v') → rtc par_step (mkParallel g t v) (mkParallel g' t v').
Proof.
  intros H. change (rtc par_step (mkParallel (g, v).1 t (g, v).2) (mkParallel (g', v').1 t (g', v').2)).
  induction H as [|a b c H _ IH]; [apply rtc_refl|]. eapply rtc_l; [|exact IH]. apply par_gap. unfold alone in H. by rewrite <- surjective_pairing.
Qed.
End queues.

(** ** Both queues *)

Section interleaving.
Context {X : Type} {TI : TxIndexer X} {TL : TxIndexerLaws X} {Validator : Type}.
Notation NewBlockData := (@NewBlockData Validator).
Notation stream_item := (@stream_item Validator).
Notation feed := (@Service.feed Validator).
Notation queue := (@queue Validator).
Notation svc := (svc X).
Context (cfg : Config) (tipPublisher : bool) (clock : nat → Z).
(** The head of the chain, the store before the queues start, the gaps below the head. *)
Context (head : Z) (x0 : X) (gaps : list BlockRange).
Context (Hcan : canonical gaps) (Hlow : ∀ n, in_ranges n gaps → is_int64 n ∧ n ≤ head).

(** The blocks the getters of the gaps yield. *)
Context (known : NewBlockData → Prop).

(** What the tip getter yields: skipped blocks only when gaps are allowed. *)
Definition items_ok (items : list stream_item) : Prop :=
  ∀ nb : NewBlockData, SBlock nb ∈ items →
    if nb_Skipped nb then AllowGaps cfg = true ∧ 0 ≤ nb_Height nb < 2 ^ 63 - 1 else valid_block nb.

(** *** The tip queue leaves the heights up to the head and the count of gaps alone *)

Definition low_kept (v v' : svc) : Prop :=
  ix_wf (v_indexer v') ∧ (∀ n, is_int64 n → n ≤ head → ix_indexed (v_indexer v') n ↔ ix_indexed (v_indexer v) n) ∧
  ∀ g kind, tracker_at v g kind → ∃ kind', tracker_at v' g kind'.

Definition tip_inv (q : queue) : Prop :=
  q_range q = None ∧ items_ok (q_items q) ∧ head < q_expected q ∧
  match q_at q with
  | AtCleanup nb _ => nb_Height nb = q_expected q ∧ valid_block nb
  | AtMark nb _ _ | AtPublish nb => nb_Height nb = q_expected q ∧ valid_block nb
  | _ => True
  end.

Lemma low_kept_refl v : ix_wf (v_indexer v) → low_kept v v.
Proof. intros Hw. split_and!; [done..|]. intros g kind H. by exists kind. Qed.

Lemma tracker_set_indexer (v : svc) x g kind : tracker_at v g kind → tracker_at (set_indexer v x) g kind.
Proof. done. Qed.

(** A write of the indexer above the head. *)
Lemma low_kept_write v x h : head < h → others_kept (v_indexer v) x h → low_kept v (set_indexer v x).
Proof. intros Hh [Hw Hk]. split_and!; [done| |]; [intros n Hn Hl; apply Hk; [done|lia]|]. intros g kind H. by exists kind. Qed.

(** A call of the tracker that does not close a gap. *)
Lemma low_kept_status (v : svc) (f : Tracker.Tracker → Z → Tracker.Tracker) :
  ix_wf (v_indexer v) → (∀ t now, Tracker.gapsRemaining (f t now) = Tracker.gapsRemaining t) → low_kept v (with_status clock v f).
Proof.
  intros Hw Hf. split_and!; [by rewrite with_status_indexer|by intros; rewrite with_status_indexer|].
  intros g kind (t & Ht & Hg & _). destruct v as [x st n p l]. cbn in Ht. subst st. eexists. eexists. split; [reflexivity|].
  split; [by rewrite Hf|reflexivity].
Qed.

Lemma low_kept_same v v' w : v_indexer w = v_indexer v' → v_status w = v_status v' → low_kept v v' → low_kept v w.
Proof.
  intros Hi Hs (Hw & Hk & Ht). split_and!; [by rewrite Hi|by intros; rewrite Hi; apply Hk|]. intros g kind (kind' & t & H)%Ht.
  exists kind', t. by rewrite Hs.
Qed.

Lemma tip_step q v q' v' :
  tip_inv q → ix_wf (v_indexer v) → queue_step cfg tipPublisher clock true q v = Some (q', v') → tip_inv q' ∧ low_kept v v'.
Proof.
  intros (Hr & Hi & He & Hp) Hw. unfold queue_step. destruct (q_at q) as [|nb err|nb ind res|nb|res|res] eqn:Ep.
  - unfold loop_step. rewrite Hr. destruct (q_items q) as [|[nb| |err] items] eqn:Eq; [done| |intros [= <- <-]; split; [by rewrite <- Eq in Hi|by apply low_kept_refl]..].
    case_bool_decide as Hn; [intros [= <- <-]; split; [by rewrite <- Eq in Hi|by apply low_kept_refl]|].
    assert (nb_Height nb = q_expected q) as Heq by (by destruct (decide (nb_Height nb = q_expected q))).
    pose proof (Hi nb ltac:(left)) as Hv. destruct (nb_Skipped nb).
    { destruct Hv as [_ Hv]. intros [= <- <-]. split; [|by apply low_kept_refl].
      split_and!; [done| | |done]; cbn; [intros nb' Hin; apply Hi; by right|]. rewrite int64_small; [lia|gate_ints; lia]. }
    destruct (indexBlock _ _ _) as [[[]|err|m] x] eqn:Ei; pose proof (index_law _ _ _ _ Hv Hw Ei) as Hl; cbn in Hl; [| |done];
      intros [= <- <-]; (split; [split_and!; cbn; try done; by rewrite Eq|]).
    + apply (low_kept_write v x (nb_Height nb)); [lia|by eapply height_set_others].
    + apply (low_kept_write v x (nb_Height nb)); [lia|done].
  - destruct Hp as [Hh Hv]. pose proof (valid_height _ Hv). unfold cleanup_step.
    destruct (cleanupFailedBlock _ _) as [o x] eqn:Ec. pose proof (cleanup_law (v_indexer v) _ (nb_Height nb) _ _ (conj Hw (λ n _ _, iff_refl _)) ltac:(lia) Ec) as Hl.
    destruct o as [[]|c|m]; cbn in Hl; intros [= <- <-]; (split; [by split_and!|]); apply (low_kept_write v x (nb_Height nb)); try lia; [by eapply height_set_others|done..].
  - destruct Hp as [Hh Hv]. pose proof (valid_height _ Hv). unfold mark_step. set (w := mark clock v (nb_Height nb) ind).
    assert (low_kept v w) as Hk by (apply low_kept_status; [done|intros; apply MarkBlock_tracker]).
    assert (tip_inv (advance q (tail (q_items q)))) as Hadv.
    { split_and!; [done| | |done]; cbn; [intros nb' Hin; apply Hi; destruct (q_items q); [done|by right]|]. rewrite int64_small; [lia|gate_ints; lia]. }
    destruct res as [[]|err|m]; [|by intros [= <- <-]..]. destruct (ind && _); intros [= <- <-]; (split; [by try (by split_and!)|by eapply low_kept_same]).
  - destruct Hp as [Hh Hv]. pose proof (valid_height _ Hv). intros [= <- <-]. split.
    + split_and!; [done| | |done]; cbn; [intros nb' Hin; apply Hi; destruct (q_items q); [done|by right]|]. rewrite int64_small; [lia|gate_ints; lia].
    + apply (low_kept_same v v); [done..|]. by apply low_kept_refl.
  - unfold end_step. destruct res as [[]|err|m]; [intros [= <- <-]; split; [by split_and!|by apply low_kept_refl]| |intros [= <- <-]; split; [by split_and!|by apply low_kept_refl]].
    destruct (errors_Is _ _); intros [= <- <-]; (split; [by split_and!|]); [by apply low_kept_refl|]. apply low_kept_status; [done|]. by intros [].
  - done.
Qed.

(** *** The gap queue *)

(** The gaps that are over, each with whether it was completed. *)
Definition closed (past : list (BlockRange * bool)) : nat := length (base.filter (λ p, p.2 = true) past).

(** A height is settled when it is indexed, or when it was passed over: its block
    was skipped by the getter or could not be parsed, gaps being allowed. *)
Definition excused (n : Z) : Prop :=
  AllowGaps cfg = true ∧ ∃ nb : NewBlockData, known nb ∧ nb_Height nb = n ∧
    (nb_Skipped nb = true ∨
     ∃ (x : X) err x', indexBlock x (nb_Block nb) (nb_BlockResults nb) = (Err err, x') ∧ errors_Is err ErrBlockParse = true).
Definition settled (x : X) (n : Z) : Prop := ix_indexed x n ∨ excused n.

Lemma settled_kept x x' n : (ix_indexed x n → ix_indexed x' n) → settled x n → settled x' n.
Proof. intros H [?|?]; [left; auto|by right]. Qed.

Definition gap_items (items : list stream_item) : Prop :=
  ∀ nb : NewBlockData, SBlock nb ∈ items → known nb ∧ if nb_Skipped nb then AllowGaps cfg = true else valid_block nb.

Definition gap_feed (f : feed) : Prop := 0 ≤ Start f.1 ≤ End_ f.1 ∧ End_ f.1 < 2 ^ 63 - 1 ∧ gap_items f.2.

(** Up to the head only the gaps that were begun may have changed, and the completed
    ones are settled. *)
Definition store_ok (past : list (BlockRange * bool)) (range : option BlockRange) (x : X) : Prop :=
  ix_wf x ∧
  (∀ n, is_int64 n → n ≤ head → ¬ in_ranges n (past.*1 ++ option_list range) → ix_indexed x n ↔ ix_indexed x0 n) ∧
  (∀ r n, (r, true) ∈ past → covers r n → settled x n).

(** What the place of the queue says of its range. *)
Definition place_ok (q : queue) (x : X) : Prop :=
  match q_range q with
  | None => q_rest q = [] ∧ q_at q = Returned (Ok tt)
  | Some r =>
      let done_to h := ∀ n, Start r ≤ n < h → settled x n in
      match q_at q with
      | AtLoop => Start r ≤ q_expected q ≤ End_ r + 1 ∧ done_to (q_expected q)
      | AtCleanup nb err =>
          nb_Height nb = q_expected q ∧ valid_block nb ∧ covers r (q_expected q) ∧ done_to (q_expected q) ∧
          known nb ∧ ∃ x x' : X, indexBlock x (nb_Block nb) (nb_BlockResults nb) = (Err err, x')
      | AtMark nb _ res =>
          nb_Height nb = q_expected q ∧ valid_block nb ∧ covers r (q_expected q) ∧ done_to (q_expected q) ∧
          (∀ u, res = Ok u → settled x (q_expected q))
      | AtPublish _ => False
      | AtEnd (Ok _) => done_to (End_ r + 1)
      | AtEnd _ => True
      | Returned (Ok _) => False
      | Returned _ => True
      end
  end.

Record gap_inv (q : queue) (v : svc) (past : list (BlockRange * bool)) : Prop := {
  gi_split : gaps = past.*1 ++ option_list (q_range q) ++ (q_rest q).*1;
  gi_rest : Forall gap_feed (q_rest q);
  gi_items : gap_items (q_items q);
  gi_range r : q_range q = Some r → 0 ≤ Start r ≤ End_ r ∧ End_ r < 2 ^ 63 - 1;
  gi_store : store_ok past (q_range q) (v_indexer v);
  gi_tracker : ∃ kind, tracker_at v (Z.of_nat (length gaps) - Z.of_nat (closed past)) kind;
  gi_place : place_ok q (v_indexer v);
}.

Lemma canonical_apart (l k : list BlockRange) r h : canonical (l ++ r :: k) → covers r h → ¬ in_ranges h l.
Proof.
  intros Hc%canonical_heights_NoDup Hr Hl. unfold heights_of in Hc. rewrite bind_app, bind_cons in Hc.
  apply NoDup_app in Hc as (_ & Hd & _). apply (Hd h); [by apply elem_of_heights|]. apply elem_of_app. left.
  apply elem_of_seqZ. unfold covers in Hr. lia.
Qed.

(** A write inside the current range. *)
Lemma store_write past r k x x' h :
  gaps = past.*1 ++ r :: k → covers r h → store_ok past (Some r) x → others_kept x x' h → store_ok past (Some r) x'.
Proof.
  intros Hs Hr (Hw & Ho & Hc) [Hw' Hk]. assert (¬ in_ranges h past.*1) as Hd by (eapply canonical_apart; [rewrite <- Hs; exact Hcan|done]).
  split_and!; [done| |].
  - intros n Hn Hl Hni. rewrite Hk; [by apply Ho|done|]. intros ->. apply Hni. apply in_ranges_app. right. exists r. split; [by left|done].
  - intros r' n Hin Hcov. assert (in_ranges n past.*1) as Hn by (exists r'; split; [apply list_elem_of_fmap; by exists (r', true)|done]).
    apply (settled_kept x); [|by eapply Hc]. apply Hk; [apply Hlow; rewrite Hs; apply in_ranges_app; by left|by intros ->].
Qed.

Lemma range_write r x x' h : covers r h → (∀ n, covers r n → is_int64 n) → others_kept x x' h →
  (∀ n, Start r ≤ n < h → settled x n) → ∀ n, Start r ≤ n < h → settled x' n.
Proof.
  intros Hr Hi [_ Hk] Hd n Hn. unfold covers in *. apply (settled_kept x); [apply Hk; [apply Hi; lia|lia]|by apply Hd].
Qed.

(** The store may change above the head under the gap queue. *)
Lemma gap_inv_frame q v v' past : gap_inv q v past → low_kept v v' → gap_inv q v' past.
Proof.
  intros [H1 H2 H3 H4 (Hw & Ho & Hc) (kind & Ht) Hp] (Hw' & Hk & Htr).
  assert (∀ n, in_ranges n gaps → ix_indexed (v_indexer v') n ↔ ix_indexed (v_indexer v) n) as Hg by (intros n [? ?]%Hlow; by apply Hk).
  split; [done..| |by eapply Htr|].
  - split_and!; [done| |].
    + intros n Hn Hl Hni. rewrite Hk by done. by apply Ho.
    + intros r n Hin Hcov. apply (settled_kept (v_indexer v)); [|by eapply Hc]. apply Hg. rewrite H1. apply in_ranges_app. left. exists r. split; [|done].
      apply list_elem_of_fmap. by exists (r, true).
  - unfold place_ok in *. destruct (q_range q) as [r|] eqn:Er; [|done].
    assert (∀ n, covers r n → settled (v_indexer v) n → settled (v_indexer v') n) as Hr.
    { intros n Hcov. apply settled_kept. rewrite Hg; [done|]. exists r. split; [|done]. rewrite H1. cbn. apply elem_of_app. right. by left. }
    unfold covers in Hr. destruct (q_at q) as [|nb err|nb ind res|nb|[[]|err|m]|res].
    + destruct Hp as [He Hd]. split; [done|]. intros n Hn. apply Hr; [lia|by apply Hd].
    + destruct Hp as (Hh & Hv & He & Hd & Hkn). unfold covers in *. split_and!; [done|done|lia|lia| |apply Hkn..]. intros n Hn. apply Hr; [lia|by apply Hd].
    + destruct Hp as (Hh & Hv & He & Hd & Hr'). unfold covers in *. split_and!; [done|done|lia|lia| |].
      * intros n Hn. apply Hr; [lia|by apply Hd].
      * intros u Hu. apply Hr; [lia|by eapply Hr'].
    + done.
    + intros n Hn. apply Hr; [lia|by apply Hp].
    + done.
    + done.
    + done.
Qed.

Lemma closed_snoc past r b : closed (past ++ [(r, b)]) = (closed past + if b then 1 else 0)%nat.
Proof.
  unfold closed. rewrite filter_app, length_app. f_equal. rewrite filter_cons, filter_nil. cbn. destruct b; [by rewrite decide_True|by rewrite decide_False].
Qed.

Lemma closed_le past : (closed past ≤ length past)%nat.
Proof. apply length_filter. Qed.

(** The range of the queue is over. *)
Lemma gap_inv_next q v v' r past b :
  gap_inv q v past → q_range q = Some r → v_indexer v' = v_indexer v →
  (∃ kind, tracker_at v' (Z.of_nat (length gaps) - Z.of_nat (closed (past ++ [(r, b)]))) kind) →
  (b = true → ∀ n, covers r n → settled (v_indexer v) n) → gap_inv (next_gap (q_rest q)) v' (past ++ [(r, b)]).
Proof.
  intros [H1 H2 H3 H4 (Hw & Ho & Hc) _ _] Er Hx Ht Hb. rewrite Er in *. cbn in H1.
  assert (store_ok (past ++ [(r, b)]) None (v_indexer v')) as Hst.
  { rewrite Hx. split_and!; [done| |].
    - intros n Hn Hl Hni. apply Ho; [done..|]. cbn. by rewrite fmap_app, app_nil_r in Hni.
    - intros r' n [Hin|[= -> <-]%list_elem_of_singleton]%elem_of_app Hcov; [by eapply Hc|by apply Hb]. }
  destruct (q_rest q) as [|[g items] rest].
  { split; cbn; try done; [by rewrite fmap_app, H1, app_nil_r|]. intros nb Hin. by apply elem_of_nil in Hin. }
  apply Forall_cons in H2 as [(Hg1 & Hg2 & Hg3) H2]. cbn in Hg1, Hg2, Hg3. unfold next_gap. rewrite !bool_decide_eq_false_2 by lia.
  split; cbn; try done.
  - rewrite fmap_app, H1, <- app_assoc. done.
  - intros ? [= <-]. lia.
  - destruct Hst as (Hw' & Ho' & Hc'). split_and!; [done| |done]. intros n Hn Hl Hni. apply Ho'; [done..|]. cbn. rewrite app_nil_r.
    intros Hin. apply Hni. apply in_ranges_app. by left.
  - unfold place_ok. cbn. split; [lia|]. intros n Hn. lia.
Qed.

Lemma range_int64 q v past r n : gap_inv q v past → q_range q = Some r → covers r n → is_int64 n.
Proof. intros Hi Hr Hc. destruct (gi_range _ _ _ Hi r Hr). unfold covers in Hc. gate_ints. lia. Qed.

(** A step that only moves the queue inside its range. *)
Lemma gap_inv_at q v v' q' past r :
  gap_inv q v past → q_range q = Some r → q_range q' = Some r → q_rest q' = q_rest q → gap_items (q_items q') →
  store_ok past (Some r) (v_indexer v') → (∀ g kind, tracker_at v g kind → ∃ kind', tracker_at v' g kind') →
  place_ok q' (v_indexer v') → gap_inv q' v' past.
Proof.
  intros [H1 H2 H3 H4 H5 (kind & H6) H7] Er Er' Hrest Hit Hst Ht Hp. rewrite Er in *. split; rewrite ?Er', ?Hrest; try done. by eapply Ht.
Qed.

Lemma tail_gap_items items : gap_items items → gap_items (tail items).
Proof. intros H nb Hin. apply H. destruct items; [done|by right]. Qed.

Lemma tracker_same (v v' : svc) : v_status v' = v_status v → ∀ g kind, tracker_at v g kind → ∃ kind', tracker_at v' g kind'.
Proof. intros Hs g kind (t & H). exists kind, t. by rewrite Hs. Qed.

Lemma loop_step_inv q v past q' v' :
  gap_inv q v past → q_at q = AtLoop → loop_step q v = Some (q', v') → gap_inv q' v' past.
Proof.
  intros Hi Ep E. pose proof (gi_place _ _ _ Hi) as Hp. unfold place_ok in Hp. rewrite Ep in Hp.
  destruct (q_range q) as [r|] eqn:Er; [|by destruct Hp]. destruct Hp as [He Hd].
  pose proof (gi_store _ _ _ Hi) as Hst. rewrite Er in Hst. pose proof (gi_items _ _ _ Hi) as Hit.
  assert (∀ p, place_ok (at_ q p) (v_indexer v) → gap_inv (at_ q p) v past) as Hat.
  { intros p Hp. by apply (gap_inv_at q v v _ past r Hi Er); [..|apply tracker_same|]. }
  unfold place_ok in Hat. cbn [q_range at_ q_at q_expected] in Hat. rewrite Er in Hat. unfold loop_step in E. rewrite Er in E. case_bool_decide as Hend.
  { injection E as <- <-. apply Hat. intros n Hn. apply Hd. lia. }
  destruct (q_items q) as [|[nb| |err] items] eqn:Eq; [done| |injection E as <- <-; by apply Hat..].
  case_bool_decide as Hn; [injection E as <- <-; by apply Hat|].
  assert (nb_Height nb = q_expected q) as Heq by (by destruct (decide (nb_Height nb = q_expected q))).
  assert (covers r (nb_Height nb)) as Hcov by (unfold covers; lia). destruct (gi_range _ _ _ Hi r Er) as [Hb1 Hb2].
  destruct (Hit nb ltac:(left)) as [Hkn Hv]. destruct (nb_Skipped nb) eqn:Hs.
  { injection E as <- <-. apply (gap_inv_at q v _ _ past r Hi Er); [done|done|intros nb' Hin; apply Hit; by right|done|by apply tracker_same|].
    unfold place_ok. cbn. rewrite Er, int64_small by (gate_ints; lia). split; [lia|]. intros n Hn'.
    destruct (decide (n = q_expected q)) as [->|]; [|apply Hd; lia]. right. split; [done|]. exists nb. split_and!; [done..|]. by left. }
  destruct (indexBlock _ _ _) as [o x] eqn:Ei. pose proof (index_law _ _ _ _ Hv (proj1 Hst) Ei) as Hl.
  assert (others_kept (v_indexer v) x (nb_Height nb) ∧ (∀ u, o = Ok u → ix_indexed x (nb_Height nb))) as [Hk Hok].
  { destruct o as [u|err|m]; cbn in Hl; [|done..]. split; [by eapply height_set_others|]. intros _ _. destruct Hl as [_ Hl].
    apply Hl; [by eapply range_int64|by left]. }
  assert (store_ok past (Some r) x) as Hst' by (eapply store_write; [rewrite (gi_split _ _ _ Hi), Er; done|done..]).
  rewrite <- Heq in Hd. pose proof (range_write r _ x _ Hcov (λ n, range_int64 _ _ _ _ _ Hi Er) Hk Hd) as Hd'. rewrite Heq in Hd'.
  destruct o as [[]|err|m]; [| |done]; injection E as <- <-;
    apply (gap_inv_at q v _ _ past r Hi Er); [done|done|by cbn; rewrite Eq|done|by apply tracker_same| |done|done|by cbn; rewrite Eq|done|by apply tracker_same|];
    unfold place_ok; cbn; rewrite Er; rewrite Heq in Hcov.
  - split_and!; try done; try apply Hcov. intros u _. rewrite <- Heq. left. by eapply Hok.
  - split_and!; try done; try apply Hcov. by exists (v_indexer v), x.
Qed.

Lemma cleanup_step_inv q v past nb err :
  gap_inv q v past → q_at q = AtCleanup nb err → gap_inv (cleanup_step cfg q nb err v).1 (cleanup_step cfg q nb err v).2 past.
Proof.
  intros Hi Ep. pose proof (gi_place _ _ _ Hi) as Hp. unfold place_ok in Hp. rewrite Ep in Hp.
  destruct (q_range q) as [r|] eqn:Er; [|by destruct Hp]. destruct Hp as (Hh & Hv & Hcov & Hd & Hkn & y & y' & Hy). pose proof (valid_height _ Hv).
  pose proof (gi_store _ _ _ Hi) as Hst. rewrite Er in Hst. pose proof (gi_items _ _ _ Hi) as Hit.
  unfold cleanup_step. destruct (cleanupFailedBlock _ _) as [o x] eqn:Ec.
  pose proof (cleanup_law (v_indexer v) _ (nb_Height nb) _ _ (conj (proj1 Hst) (λ n _ _, iff_refl _)) ltac:(lia) Ec) as Hl.
  assert (others_kept (v_indexer v) x (nb_Height nb)) as Hk by (destruct o; cbn in Hl; [by eapply height_set_others|done..]).
  rewrite <- Hh in Hd, Hcov.
  assert (store_ok past (Some r) x) as Hst' by (eapply store_write; [rewrite (gi_split _ _ _ Hi), Er; done|done..]).
  pose proof (range_write r _ x _ Hcov (λ n, range_int64 _ _ _ _ _ Hi Er) Hk Hd) as Hd'. rewrite Hh in Hcov, Hd'.
  destruct o as [[]|c|m]; apply (gap_inv_at q v _ _ past r Hi Er); try done; try by apply tracker_same.
  all: unfold place_ok; cbn; rewrite Er; try done.
  split_and!; try done; try apply Hcov. intros u Hu. right. destruct (errors_Is err ErrBlockParse && AllowGaps cfg) eqn:Eg; [|done].
  apply andb_prop in Eg as [Eg1 Eg2]. split; [done|]. exists nb. split_and!; [done..|]. right. by exists y, err, y'.
Qed.

Lemma mark_step_inv q v past nb ind res :
  gap_inv q v past → q_at q = AtMark nb ind res →
  gap_inv (mark_step tipPublisher clock false q nb ind res v).1 (mark_step tipPublisher clock false q nb ind res v).2 past.
Proof.
  intros Hi Ep. pose proof (gi_place _ _ _ Hi) as Hp. unfold place_ok in Hp. rewrite Ep in Hp.
  destruct (q_range q) as [r|] eqn:Er; [|by destruct Hp]. destruct Hp as (Hh & Hv & Hcov & Hd & Hok).
  pose proof (gi_store _ _ _ Hi) as Hst. rewrite Er in Hst. pose proof (gi_items _ _ _ Hi) as Hit.
  unfold mark_step. set (w := mark clock v (nb_Height nb) ind).
  assert (v_indexer w = v_indexer v) as Ew by apply mark_indexer.
  assert (∀ g kind, tracker_at v g kind → ∃ kind', tracker_at w g kind') as Hw.
  { intros g kind H. exists kind. eapply marked_tracker; [apply mark_marked|done]. }
  destruct (gi_range _ _ _ Hi r Er) as [Hb1 Hb2]. unfold covers in Hcov.
  destruct res as [[]|err|m]; cbn [andb]; rewrite ?andb_false_r.
  - apply (gap_inv_at q v _ _ past r Hi Er); [done|done|by apply tail_gap_items|cbn; by rewrite Ew|done|]. unfold place_ok. cbn. rewrite Er, Ew.
    rewrite int64_small by (gate_ints; lia). split; [lia|]. intros n Hn. destruct (decide (n = q_expected q)) as [->|]; [by eapply Hok|apply Hd; lia].
  - apply (gap_inv_at q v _ _ past r Hi Er); [done|done|done|cbn; by rewrite Ew|done|]. unfold place_ok. cbn. by rewrite Er.
  - apply (gap_inv_at q v _ _ past r Hi Er); [done|done|done|cbn; by rewrite Ew|done|]. unfold place_ok. cbn. by rewrite Er.
Qed.

Lemma end_step_inv q v past res :
  gap_inv q v past → q_at q = AtEnd res →
  ∃ past', gap_inv (end_step clock false q res v).1 (end_step clock false q res v).2 past'.
Proof.
  intros Hi Ep. pose proof (gi_place _ _ _ Hi) as Hp. unfold place_ok in Hp. rewrite Ep in Hp.
  destruct (q_range q) as [r|] eqn:Er; [|by destruct Hp]. pose proof (gi_store _ _ _ Hi) as Hst. rewrite Er in Hst.
  pose proof (gi_items _ _ _ Hi) as Hit. destruct (gi_tracker _ _ _ Hi) as [kind Ht].
  assert (∀ p, match p with Returned (Err _) | Returned (Panic _) => True | _ => False end → gap_inv (at_ q p) v past) as Hret.
  { intros p Hp'. apply (gap_inv_at q v _ _ past r Hi Er); try done; [by apply tracker_same|]. unfold place_ok. cbn. rewrite Er.
    by destruct p as [| | | | |[]]. }
  unfold end_step. destruct res as [[]|err|m].
  - rewrite Er. exists (past ++ [(r, true)]). apply (gap_inv_next q v); try done; [cbn [snd]; by rewrite with_status_indexer| |].
    + exists kind. rewrite closed_snoc. pose proof (gap_completed clock v _ _ r Ht) as H. unfold dec in H.
      pose proof (f_equal length (gi_split _ _ _ Hi)) as Hlen. rewrite Er, !length_app, !length_fmap in Hlen. cbn in Hlen. pose proof (closed_le past).
      rewrite bool_decide_eq_true_2 in H by lia. by replace (Z.of_nat (length gaps) - Z.of_nat (closed past + 1)) with (Z.of_nat (length gaps) - Z.of_nat (closed past) - 1) by lia.
    + intros _ n Hn. apply Hp. unfold covers in Hn. lia.
  - destruct (errors_Is _ _); [exists past; by apply Hret|]. exists (past ++ [(r, false)]). apply (gap_inv_next q v); try done.
    exists kind. by rewrite closed_snoc, Nat.add_0_r.
  - exists past. by apply Hret.
Qed.

Lemma gap_step q v past q' v' :
  gap_inv q v past → queue_step cfg tipPublisher clock false q v = Some (q', v') → ∃ past', gap_inv q' v' past'.
Proof.
  intros Hi. unfold queue_step. destruct (q_at q) as [|nb err|nb ind res|nb|res|res] eqn:Ep.
  - intros E. exists past. by eapply loop_step_inv.
  - intros [= E]. pose proof (cleanup_step_inv q v past nb err Hi Ep) as H. rewrite E in H. by exists past.
  - intros [= E]. pose proof (mark_step_inv q v past nb ind res Hi Ep) as H. rewrite E in H. by exists past.
  - pose proof (gi_place _ _ _ Hi) as Hp. unfold place_ok in Hp. rewrite Ep in Hp. by destruct (q_range q); [|destruct Hp].
  - intros [= E]. destruct (end_step_inv q v past res Hi Ep) as [past' H]. rewrite E in H. by exists past'.
  - done.
Qed.

(** *** The interleaving *)

Definition par_inv (p : parallel) : Prop := (∃ past, gap_inv (gapQ p) (shared p) past) ∧ tip_inv (tipQ p).

Lemma par_step_inv p p' : par_step cfg tipPublisher clock p p' → par_inv p → par_inv p'.
Proof.
  intros [g t v g' v' E|g t v t' v' E] [[past Hg] Ht]; cbn in *.
  - split; [by eapply gap_step|done].
  - destruct (tip_step t v t' v' Ht (proj1 (gi_store _ _ _ Hg)) E) as [Ht' Hk]. split; [exists past; by eapply gap_inv_frame|done].
Qed.

Lemma par_inv_start (feeds : list feed) tip v :
  feeds.*1 = gaps → Forall gap_feed feeds → items_ok tip → v_indexer v = x0 → ix_wf x0 → is_int64 head → head < 2 ^ 63 - 1 →
  (∃ kind, tracker_at v (Z.of_nat (length gaps)) kind) → par_inv (runParallelTipAndGaps clock feeds head tip v).
Proof.
  intros Hf Hok Htip Hx Hw Hh Hh2 [kind Ht]. unfold runParallelTipAndGaps. set (v2 := with_status clock (with_status clock v _) _).
  assert (low_kept v v2) as (Hw2 & Hk2 & Ht2).
  { unfold v2. set (v1 := with_status clock v _). assert (low_kept v v1) as (Hw1 & Hk1 & Ht1) by (apply low_kept_status; [by rewrite Hx|by intros []]).
    assert (low_kept v1 (with_status clock v1 (λ t now, Tracker.StartSegment t "forward" (int64 (head + 1)) None now))) as (Hw2 & Hk2 & Ht2)
      by (apply low_kept_status; [done|by intros []]).
    split_and!; [done| |]; [intros n Hn Hl; by rewrite Hk2, Hk1|]. intros g k (k' & H)%Ht1. by eapply Ht2. }
  assert (v_indexer v2 = x0) as Hx2 by (unfold v2; by rewrite !with_status_indexer). split; cbn.
  - exists []. assert (store_ok [] None (v_indexer v2)) as Hst.
    { rewrite Hx2. split_and!; [done|done|]. intros r n Hin. by apply elem_of_nil in Hin. }
    assert (∃ kind, tracker_at v2 (Z.of_nat (length gaps) - Z.of_nat (closed [])) kind) as Htr.
    { replace (Z.of_nat (length gaps) - Z.of_nat (closed [])) with (Z.of_nat (length gaps)) by (cbn; lia). exact (Ht2 _ _ Ht). }
    destruct feeds as [|[g items] feeds].
    { split; cbn; try done. intros nb Hin. by apply elem_of_nil in Hin. }
    apply Forall_cons in Hok as [(Hg1 & Hg2 & Hg3) Hok]. cbn in Hg1, Hg2, Hg3. unfold next_gap. rewrite !bool_decide_eq_false_2 by lia.
    split; cbn; try done; [intros ? [= <-]; lia| |unfold place_ok; cbn; split; [lia|]; intros n Hn; lia].
    destruct Hst as (Hw' & Ho' & Hc'). split_and!; [done| |done]. intros n Hn Hl _. apply Ho'; [done..|]. cbn. by intros ?%in_ranges_nil.
  - unfold tip_queue. rewrite int64_small by (gate_ints; lia). split_and!; cbn; [done|done|lia|]. by case_bool_decide.
Qed.

Lemma par_inv_reachable p p' : rtc (par_step cfg tipPublisher clock) p p' → par_inv p → par_inv p'.
Proof. induction 1 as [|a b c H _ IH]; [done|]. intros Hp. by eapply IH, par_step_inv. Qed.

(** The gap queue has returned without an error. *)
Lemma par_inv_returned p :
  par_inv p → q_at (gapQ p) = Returned (Ok tt) →
  ix_wf (v_indexer (shared p)) ∧
  (∀ n, is_int64 n → n ≤ head → ¬ in_ranges n gaps → ix_indexed (v_indexer (shared p)) n ↔ ix_indexed x0 n) ∧
  ∃ t, v_status (shared p) = Some t ∧ (Tracker.gapsRemaining t = 0 → ∀ n, in_ranges n gaps → settled (v_indexer (shared p)) n).
Proof.
  intros [[past [H1 H2 H3 H4 (Hw & Ho & Hc) (kind & t & Ht & Hg & _) Hp]] _] Hr. unfold place_ok in Hp.
  destruct (q_range (gapQ p)) as [r|]; [by rewrite Hr in Hp|]. destruct Hp as [Hrest _]. rewrite Hrest in H1. cbn in *. rewrite app_nil_r in *.
  split; [done|]. split; [intros n Hn Hl Hni; apply Ho; [done..|by rewrite <- H1]|]. exists t. split; [done|]. intros E n Hn.
  assert (closed past = length past) as Hall. { pose proof (f_equal length H1) as Hl. rewrite length_fmap in Hl. lia. }
  rewrite H1 in Hn. destruct Hn as (r & Hin & Hcov). apply list_elem_of_fmap in Hin as ([r' b] & -> & Hin).
  destruct b; [by eapply Hc|]. exfalso. unfold closed in Hall.
  pose proof (length_filter_lt (λ p : BlockRange * bool, p.2 = true) past (r', false) Hin ltac:(done)). lia.
Qed.
End interleaving.

Section property.
Context {X : Type} {TI : TxIndexer X} {TL : TxIndexerLaws X} {Validator : Type}.
Notation stream_item := (@stream_item Validator).
Context (cfg : Config) (tipPublisher : bool) (clock : nat → Z).

End property.
End ServiceParallel.
