(* ===== verification/ServiceKV.v ===== *)
(** * The KV indexer keeps the service's promises

    The key-value indexer as the TxIndexer of the service, and the proof of its
    laws: the heights of the service are the block metadata records of the store. *)

From Stdlib Require Import Ascii String.
From S2P Require Import Prelude Bytes Instances GoLib EthTypes EthInstances Keys ParsedTx Normalize Virtual.
From S2P Require Import VirtualBank VirtualIbc CodecInstances.
From S2P Require Import Codec Ranges Tracker Indexer IndexerQuery IndexerStore IndexerLoop IndexerBatch.
From S2P Require Import IndexerSample IndexerProps IndexerScan Blocksync Service ServiceProps ServiceParallel.
From stdpp Require Import strings list.
#[local] Open Scope Z_scope.

Module ServiceKV.
Import GoLib EthTypes Keys ParsedTx Normalize Virtual Codec Ranges Indexer IndexerQuery IndexerStore IndexerLoop IndexerBatch.
Import IndexerProps IndexerScan Blocksync Service ServiceProps ServiceParallel.

Section kv.
Context {D : Type} {DB : KVDB D} {DBL : KVDBLaws D} {DBR : KVDBReliable D} {SD : SDK} {SDL : SDKLaws} {EL : EthLib}
        {ELL : EthLibLaws} {CL : ChainLib} {LJ : LogJSON} {PB : Proto} {BL : Bank.BankLib} {IL : Ibc.IbcLib}
        {CP : CapnpLib} {CPL : CapnpLaws} {LG : LegacyLib}.
Context (caller : string) (kv : KVIndexer).

(** A nil block: the panic of its first use is recovered by
    indexBlockWithStats, but not by the callers that read its height. *)
Definition nil_block {A} (d : D) : res error A * D := (Err (New "nil pointer dereference"), d).
Definition nil_panic {A} (d : D) : res error A * D := (Panic "nil pointer dereference", d).

Definition kv_TxIndexer : TxIndexer D := {|
  ix_IndexBlock d block results :=
    match block with Some b => IndexBlock caller kv d b results | None => nil_panic d end;
  ix_DeleteBlock := DeleteBlock;
  ix_withResults := Some (λ d block results,
    match block with Some b => IndexBlockWithResults caller kv d b results | None => nil_block d end);
  ix_withStats := Some (λ d block results,
    match block with Some b => IndexBlockWithStats caller kv d b results | None => nil_panic d end);
  ix_withStatsAndResults := Some (λ d block results,
    match block with Some b => IndexBlockWithStatsAndResults caller kv d b results | None => nil_block d end);
  ix_LoadIndexedRanges := LoadIndexedRanges;
|}.

(** ** The laws *)

Context (Hdec : ∀ bz tx, TxDecoder bz = Ok tx → tx_hashes_wf tx).

(** Heights are real, and every height with transactions has metadata. *)
Record kv_wf (d : D) : Prop := mkKvWf {
  kw_store : wf_store (contents d);
  kw_heights : ∀ h, is_int64 h → has_meta (contents d) h → 0 ≤ h < 2 ^ 63 - 1;
  kw_metas : ∀ h, is_int64 h → has_txs (contents d) h → has_meta (contents d) h;
}.

Definition kv_block_ok (b : Block) : Prop := 0 ≤ blk_Height b < 2 ^ 63 - 1 ∧ wf_bytes (blk_Hash b).

(** A change of the store that sets or clears the records of one height. *)
Lemma kv_wf_change d d' h (flag : bool) :
  kv_wf d → 0 ≤ h < 2 ^ 63 → (flag = true → h < 2 ^ 63 - 1) → wf_store (contents d') →
  (∀ k n, wf_key k → height_key k = Some n → n ≠ h → contents d' !! encode k = contents d !! encode k) →
  (if flag then has_meta (contents d') h
   else ∀ k, wf_key k → height_key k = Some h → contents d' !! encode k = None) →
  kv_wf d' ∧ ∀ n, is_int64 n → has_meta (contents d') n ↔ (n = h ∧ flag = true) ∨ (n ≠ h ∧ has_meta (contents d) n).
Proof.
  intros Hw Hh Hf Hs Hother Hown.
  assert (∀ n, is_int64 n → n ≠ h → contents d' !! BlockMetaKey n = contents d !! BlockMetaKey n) as Hm.
  { intros n Hn Hne. by apply (Hother (KBlockMeta n) n). }
  assert (∀ n i, is_int64 n → is_int32 i → n ≠ h → contents d' !! TxIndexKey n i = contents d !! TxIndexKey n i) as Ht.
  { intros n i Hn Hi Hne. by apply (Hother (KTxIndex n i) n). }
  assert (is_int64 h) as H64 by (gate_ints; lia).
  assert (∀ n, is_int64 n → has_meta (contents d') n ↔ (n = h ∧ flag = true) ∨ (n ≠ h ∧ has_meta (contents d) n)) as Hiff.
  { intros n Hn. destruct (decide (n = h)) as [->|Hne]; [|unfold has_meta; rewrite Hm by done; tauto].
    destruct flag; [tauto|]. unfold has_meta. pose proof (Hown (KBlockMeta h) H64 eq_refl) as Hnone.
    change (contents d' !! BlockMetaKey h = None) in Hnone. rewrite Hnone. split; [by intros [? ?]|]. intros [[_ ?]|[? _]]; done. }
  split; [|done]. split; [done| |].
  - intros n Hn [[-> Hfl]|[_ ?]]%Hiff; [specialize (Hf Hfl); lia| |done]. by apply Hw.
  - intros n Hn (i & Hi & Hsome). destruct (decide (n = h)) as [->|Hne].
    + destruct flag; [done|]. pose proof (Hown (KTxIndex h i) (conj H64 Hi) eq_refl) as Hnone.
      change (contents d' !! TxIndexKey h i = None) in Hnone. rewrite Hnone in Hsome. by destruct Hsome.
    + rewrite Ht in Hsome by done. apply Hiff; [done|]. right. split; [done|]. apply Hw; [done|]. by exists i.
Qed.

Lemma kv_indexed d b results r d' :
  kv_wf d → kv_block_ok b → indexBlockWithStats caller kv d b results = (r, d') →
  kv_wf d' ∧ ∀ n, is_int64 n →
    match r with
    | Ok _ => has_meta (contents d') n ↔ n = blk_Height b ∨ has_meta (contents d) n
    | Err _ => n ≠ blk_Height b → has_meta (contents d') n ↔ has_meta (contents d) n
    | Panic _ => False
    end.
Proof.
  intros Hw [Hh Hb] E. assert (0 ≤ blk_Height b < 2 ^ 63) as Hh' by lia. destruct r as [stats|e|m].
  - destruct (indexBlock_built caller kv d b results stats d' Hh' Hdec E) as (ops & s & hs & meta & metaBz & logsBz & Hbu & Ec).
    destruct (kv_wf_change d d' (blk_Height b) true) as [Hw' Hi]; [done|done|lia|..].
    + rewrite Ec. by eapply (final_wf kv d b Hh' (kw_store _ Hw)).
    + intros k n. rewrite Ec. by eapply (final_other kv d b Hh' (kw_store _ Hw)).
    + cbn. unfold has_meta. rewrite Ec.
      destruct (final_block kv d b results ops s hs meta metaBz logsBz Hbu) as (-> & _). by eexists.
    + split; [done|]. intros n Hn. rewrite Hi by done. destruct (decide (n = blk_Height b)); tauto.
  - enough (d' = d) as -> by done. unfold indexBlockWithStats in E.
    destruct (build_batch _ _ _ _ _) as [[ops st]| |]; [|by injection E as _ <-..].
    unfold batch_Write in E. pose proof (db_write_total d ops) as Ht. by destruct (db_write d ops) as [[err|] dw].
  - exfalso. unfold indexBlockWithStats in E. destruct (build_batch _ _ _ _ _) as [[ops st]| |]; [|done..].
    unfold batch_Write in E. by destruct (db_write d ops) as [[err|] dw].
Qed.

Lemma kv_deleted d h r d' :
  kv_wf d → 0 ≤ h < 2 ^ 63 → DeleteBlock d h = (r, d') →
  kv_wf d' ∧ ∀ n, is_int64 n →
    match r with
    | Ok _ => has_meta (contents d') n ↔ n ≠ h ∧ has_meta (contents d) n
    | _ => n ≠ h → has_meta (contents d') n ↔ has_meta (contents d) n
    end.
Proof.
  intros Hw Hh E. destruct r as [[]|e|m].
  - destruct (deleted_records d h d' Hh (kw_store _ Hw) E) as [Hs Hk].
    destruct (kv_wf_change d d' h false) as [Hw' Hi]; [done|done|done|done|..].
    + intros k n Hwk Hn Hne. apply Hk; [done|]. by destruct k; simplify_eq/=.
    + intros k Hwk Hn. apply Hk; [done|]. by destruct k; simplify_eq/=.
    + split; [done|]. intros n Hn. rewrite Hi by done. split; [by intros [[_ ?]|?]|by right].
  - enough (d' = d) as -> by done. unfold DeleteBlock in E. destruct (resetBlock _ _ _) as [ops| |]; [|by injection E as _ <-..].
    unfold batch_Write in E. pose proof (db_write_total d ops) as Ht. by destruct (db_write d ops) as [[err|] dw].
  - enough (d' = d) as -> by done. unfold DeleteBlock in E. destruct (resetBlock _ _ _) as [ops| |]; [|by injection E as _ <-..].
    unfold batch_Write in E. by destruct (db_write d ops) as [[err|] dw].
Qed.

Lemma kv_loaded d : kv_wf d →
  ∃ ranges, LoadIndexedRanges d = Ok ranges ∧ Forall wf_range ranges ∧
            ∀ n, is_int64 n → in_ranges n ranges ↔ has_meta (contents d) n.
Proof.
  intros Hw.
  assert (heights_wf (contents d)) as Hpos.
  { intros h Hh [Hm|Hm%(kw_metas _ Hw)]; [|by apply (kw_heights _ Hw)|done]. by apply (kw_heights _ Hw). }
  assert (∀ h, is_int64 h → indexed_height (contents d) h ↔ has_meta (contents d) h) as Hix.
  { intros h Hh. split; [|by left]. intros [?|[_ ?]]; [done|by apply (kw_metas _ Hw)]. }
  destruct (ranges_loaded d (kw_store _ Hw) Hpos) as (ranges & Hl & [Hle _] & Hin). exists ranges. split_and!; [done| |].
  - apply Forall_forall. intros r Hr. rewrite Forall_forall in Hle. specialize (Hle r Hr).
    assert (∀ h, covers r h → 0 ≤ h < 2 ^ 63 - 1) as Hc.
    { intros h Hh. assert (in_ranges h ranges) as [Hb Hi]%Hin by (by exists r).
      apply Hix in Hi; [|gate_ints; lia]. apply (kw_heights _ Hw); [gate_ints; lia|done]. }
    pose proof (Hc (Start r) ltac:(unfold covers; lia)). pose proof (Hc (End_ r) ltac:(unfold covers; lia)).
    unfold wf_range. lia.
  - intros n Hn. rewrite Hin, Hix by done. split; [by intros [_ ?]|]. intros Hm. split; [|done].
    pose proof (kw_heights _ Hw n Hn Hm). lia.
Qed.

Definition kv_TxIndexerLaws : @TxIndexerLaws D kv_TxIndexer.
Proof.
  refine (@Build_TxIndexerLaws D kv_TxIndexer kv_wf kv_block_ok (λ d, has_meta (contents d)) _ _ _ _ _).
  - by intros b [? _].
  - intros d b results o d' Hw Hb. unfold indexBlock. cbn. unfold IndexBlockWithResults.
    destruct (indexBlockWithStats caller kv d b results) as [r d1] eqn:E.
    pose proof (kv_indexed d b results r d1 Hw Hb E) as H. by destruct r; intros [= <- <-].
  - intros d b results o d' Hw Hb. unfold indexBlockForResync. cbn. unfold IndexBlockWithStatsAndResults. by apply kv_indexed.
  - intros d h o d' Hw Hh E. pose proof (kv_deleted d h o d' Hw Hh E) as H. by destruct o.
  - exact kv_loaded.
Defined.
End kv.

(** ** A run of the service *)

Import EthInstances CodecInstances IndexerSample.

Notation sample_X := (gmap bytes bytes).
#[local] Instance sample_TI : TxIndexer sample_X := kv_TxIndexer "0x01" sample_indexer.
#[local] Instance sample_TL : TxIndexerLaws sample_X := kv_TxIndexerLaws "0x01" sample_indexer sample_decodes.

Definition sample_nb : @NewBlockData unit := mkNewBlockData 12 (Some sample_block) (Some sample_results) [] false.
Definition sample_cfg : Config := mkConfig true 12 false false.
Definition sample_clock (n : nat) : Z := Z.of_nat n.
Definition sample_svc : svc sample_X := mkSvc ∅ (Some (Tracker.NewTracker 0 1 12)) 0 0 [].
Definition sample_feed (_ : BlockRange) : list (@stream_item unit) := [SBlock sample_nb].

Lemma sample_valid : valid_block sample_nb.
Proof. exists sample_block. split_and!; [done|done|]. split; [cbn; lia|apply sample_block_wf]. Qed.

Lemma sample_empty_wf : ix_wf (v_indexer sample_svc).
Proof.
  split; [apply empty_store_wf|..].
  - intros h _ [v Hv]. done.
  - intros h _ (i & _ & [v Hv]). done.
Qed.

Lemma sample_feed_ok : feed_ok (mkRange 12 12, sample_feed (mkRange 12 12)).
Proof.
  split_and!; [cbn; lia|cbn; lia|cbn; lia|]. intros nb [= ->]%list_elem_of_singleton. split; [apply sample_valid|done].
Qed.

Definition sample_handled : res error unit * svc sample_X :=
  handleSyncedBlock sample_cfg true sample_clock true sample_nb sample_svc.

Lemma handleSyncedBlock_exact_witness :
  ix_indexed (v_indexer sample_handled.2) 12 ∧ v_published sample_handled.2 = [12].
Proof.
  assert (sample_handled = (Ok tt, sample_handled.2)) as E.
  { rewrite (surjective_pairing sample_handled) at 1. apply (f_equal2 pair); reflexivity. }
  destruct (handleSyncedBlock_exact sample_cfg true sample_clock true sample_nb sample_svc (Ok tt) sample_handled.2
              sample_valid eq_refl sample_empty_wf E) as (flag & [_ Hi] & _ & Hp & Hf).
  destruct flag; [|by specialize (Hf eq_refl)]. split; [|exact Hp].
  exact (proj2 (Hi 12 ltac:(gate_ints; lia)) (or_introl (conj eq_refl eq_refl))).
Defined.

Definition sample_gap_run : option (res error unit) * svc sample_X :=
  syncGaps sample_cfg true sample_clock ((λ g, (g, sample_feed g)) <$> ComputeGaps 12 12 []) false
    (with_status sample_clock sample_svc
       (λ t now, Tracker.SetGaps t (toStatusRanges (ComputeGaps 12 12 [])) now)).


Definition sample_tip_start : svc sample_X :=
  shared (runParallelTipAndGaps sample_clock ((λ g, (g, sample_feed g)) <$> ComputeGaps 12 12 []) 12 []
    (with_status sample_clock sample_svc (λ t now, Tracker.SetGaps t (toStatusRanges (ComputeGaps 12 12 [])) now))).

Definition sample_parallel_run : option (res error unit) * svc sample_X :=
  syncGaps sample_cfg true sample_clock ((λ g, (g, sample_feed g)) <$> ComputeGaps 12 12 []) true sample_tip_start.

Notation sample_gaps := ((λ g, (g, sample_feed g)) <$> ComputeGaps 12 12 []).

Lemma sample_parallel_ok : sample_parallel_run = (Some (Ok tt), sample_parallel_run.2).
Proof. rewrite (surjective_pairing sample_parallel_run) at 1. apply (f_equal2 pair); reflexivity. Qed.

Lemma sample_parallel_reach :
  ∃ q, rtc (par_step sample_cfg true sample_clock)
         (mkParallel (next_gap sample_gaps) (tip_queue (int64 (12 + 1)) []) sample_tip_start)
         (mkParallel q (tip_queue (int64 (12 + 1)) []) sample_parallel_run.2) ∧ q_at q = Returned (Ok tt).
Proof.
  destruct (gap_queue_alone _ _ _ _ _ _ _ sample_parallel_ok) as (q & Hrun & Hq). exists q. split; [|exact Hq].
  exact (gap_alone_parallel _ _ _ _ _ _ _ (tip_queue (int64 (12 + 1)) []) Hrun).
Qed.

Lemma sample_parallel_closed : Tracker.gapsRemaining <$> v_status sample_parallel_run.2 = Some 0.
Proof. reflexivity. Qed.


Definition sample_resync : option (res error unit) * (ResyncStats * svc sample_X) :=
  Resync [mkRange 12 12] sample_feed sample_svc.

Lemma Resync_exact_witness :
  ix_indexed (v_indexer sample_resync.2.2) 12 ∧ BlocksSynced sample_resync.2.1 = 1.
Proof.
  assert (sample_resync = (Some (Ok tt), (sample_resync.2.1, sample_resync.2.2))) as E.
  { rewrite (surjective_pairing sample_resync) at 1. apply (f_equal2 pair); [reflexivity|apply surjective_pairing]. }
  destruct (Resync_exact [mkRange 12 12] sample_feed sample_svc sample_resync.2.1 sample_resync.2.2
              (Forall_cons_2 wf_range (mkRange 12 12) [] ltac:(unfold wf_range; cbn; lia) (Forall_nil_2 _))
              sample_empty_wf (Forall_cons_2 _ _ _ sample_feed_ok (Forall_nil_2 _)) E) as [Hi Hc].
  split; [|exact Hc]. apply (proj2 (Hi 12 ltac:(gate_ints; lia))). left.
  exists (mkRange 12 12). split; [by left|]. unfold covers. cbn. lia.
Defined.
End ServiceKV.
