(* ===== verification/RpcTypes.v ===== *)
(** * RPC request types

    src/internal/evm/rpc/types/block.go (block numbers and block references),
    tx_args.go (call arguments), addrlock.go (one mutex per address) and
    FormatBlock and BlockMaxGasFromConsensusParams of utils.go.  Hexadecimal and
    JSON decoding (go-ethereum, cast, sonic) are parameters. *)

From Stdlib Require Import Ascii String.
From S2P Require Import Prelude Bytes GoLib EthTypes EthInstances Virtual RpcUtils Keys Indexer.
From stdpp Require Import strings list.
#[local] Open Scope Z_scope.

Module RpcTypes.
Import GoLib EthTypes Virtual RpcUtils.

(** ** Block numbers *)

Notation BlockNumber := Z (only parsing).

Definition EthPendingBlockNumber : BlockNumber := -2.
Definition EthLatestBlockNumber : BlockNumber := -1.
Definition EthEarliestBlockNumber : BlockNumber := 0.

Definition BlockParamEarliest : string := "earliest".
Definition BlockParamLatest : string := "latest".
Definition BlockParamFinalized : string := "finalized".
Definition BlockParamSafe : string := "safe".
Definition BlockParamPending : string := "pending".

Record BlockNumberOrHash := mkBNH { bnh_Number : option BlockNumber; bnh_Hash : option Hash }.

(** The decoders of go-ethereum (hexutil, common.Hash), cast and sonic.  The
    JSON decoder of a struct calls the decoder of its block number field. *)
Definition ErrMissingPrefix : string := "hex string without 0x prefix".

Class NumberLib := {
  hexutil_DecodeUint64 : string → res error Z;
  cast_ToUint64 : string → Z;
  Hash_UnmarshalText : string → res error Hash;
  SafeInt64 : Z → res error Z;
  sonic_Unmarshal_BlockNumberOrHash : (bytes → res error Z) → bytes → res error BlockNumberOrHash;
  sonic_Unmarshal_string : bytes → res error string;
}.

(** Text that no decimal or prefixed number starts with. *)
Definition not_a_number (s : string) : Prop :=
  match s with
  | EmptyString => True
  | String c _ => digit_value c = None ∧ c ≠ "+"%char ∧ c ≠ "-"%char
  end.

(** DecodeUint64 returns a uint64, and ErrMissingPrefix for a non-empty text without
    0x; ToUint64 returns a uint64, zero for what it cannot convert; SafeInt64 is the
    conversion with an overflow check. *)
Class NumberLibLaws `{NumberLib} : Prop := {
  DecodeUint64_range s n : hexutil_DecodeUint64 s = Ok n → is_uint64 n;
  DecodeUint64_prefix s :
    s ≠ EmptyString → String.prefix "0x" s = false → String.prefix "0X" s = false →
    hexutil_DecodeUint64 s = Err (Sentinel ErrMissingPrefix);
  ToUint64_range s : is_uint64 (cast_ToUint64 s);
  ToUint64_fails s : not_a_number s → cast_ToUint64 s = 0;
  SafeInt64_ok z n : SafeInt64 z = Ok n → n = z ∧ z < 2 ^ 63;
}.

Definition NewBlockNumber (n : Z) : BlockNumber :=
  if bool_decide (is_int64 n) then n else EthLatestBlockNumber.

(** A pair of surrounding quotes (byte 34) is removed. *)
Definition unquote (input : string) : string :=
  let l := string_bytes input in
  if bool_decide (2 ≤ length l)%nat && bool_decide (head l = Some 34) && bool_decide (last l = Some 34)
  then bytes_string (take (length l - 2) (drop 1 l)) else input.

Definition Int64 (bn : BlockNumber) : Z :=
  if bool_decide (bn < 0) then 0 else if bool_decide (bn = 0) then 1 else bn.

Definition TmHeight (bn : BlockNumber) : option Z :=
  if bool_decide (bn < 0) then None else Some (Int64 bn).

(** The height sent with a gRPC query, if any (ContextWithHeightFrom). *)
Definition ContextWithHeightFrom (height : Z) : option string :=
  if bool_decide (height = 0) then None else Some (strconv_Itoa height).

Section numbers.
Context {NL : NumberLib}.

Definition BlockNumber_UnmarshalJSON (data : bytes) : res error BlockNumber :=
  let input := unquote (strings_TrimSpace (bytes_string data)) in
  if bool_decide (input = BlockParamEarliest) then Ok EthEarliestBlockNumber
  else if bool_decide (input = BlockParamLatest ∨ input = BlockParamFinalized ∨ input = BlockParamSafe) then
    Ok EthLatestBlockNumber
  else if bool_decide (input = BlockParamPending) then Ok EthPendingBlockNumber
  else
    let! blckNum :=
      match hexutil_DecodeUint64 input with
      | Ok n => Ok n
      | Err err => if Indexer.errors_Is err ErrMissingPrefix then Ok (cast_ToUint64 input) else Err err
      | Panic m => Panic m
      end in
    if bool_decide (2 ^ 63 - 1 < blckNum) then Err (Errorf "block number larger than int64")
    else Ok blckNum.

Definition checkUnmarshal (e : BlockNumberOrHash) : res error BlockNumberOrHash :=
  match bnh_Number e, bnh_Hash e with
  | Some _, Some _ => Err (Errorf "cannot specify both BlockHash and BlockNumber, choose one or the other")
  | n, h => Ok (mkBNH n h)
  end.

Definition decodeFromString (bnh : BlockNumberOrHash) (input : string) : res error BlockNumberOrHash :=
  let number n := mkBNH (Some n) (bnh_Hash bnh) in
  if bool_decide (input = BlockParamEarliest) then Ok (number EthEarliestBlockNumber)
  else if bool_decide (input = BlockParamLatest ∨ input = BlockParamFinalized) then Ok (number EthLatestBlockNumber)
  else if bool_decide (input = BlockParamPending) then Ok (number EthPendingBlockNumber)
  else if bool_decide (String.length input = 66%nat) then
    let! hash := Hash_UnmarshalText input in Ok (mkBNH (bnh_Number bnh) (Some hash))
  else
    let! blockNumber := hexutil_DecodeUint64 input in
    let! bnInt := SafeInt64 blockNumber in
    Ok (number bnInt).

Definition BlockNumberOrHash_UnmarshalJSON (bnh : BlockNumberOrHash) (data : bytes) : res error BlockNumberOrHash :=
  match sonic_Unmarshal_BlockNumberOrHash BlockNumber_UnmarshalJSON data with
  | Ok e => checkUnmarshal e
  | Err _ => let! input := sonic_Unmarshal_string data in decodeFromString bnh input
  | Panic m => Panic m
  end.
End numbers.

(** ** Call arguments *)

Record TransactionArgs := mkArgs {
  a_From : option Address;
  a_To : option Address;
  a_Gas : option Z;
  a_GasPrice : option Z;
  a_MaxFeePerGas : option Z;
  a_MaxPriorityFeePerGas : option Z;
  a_Value : option Z;
  a_Nonce : option Z;
  a_Data : option bytes;
  a_Input : option bytes;
  a_AccessList : option (list AccessTuple);
  a_ChainID : option Z;
}.

Definition GetFrom (args : TransactionArgs) : Address := default zero_address (a_From args).

Definition GetData (args : TransactionArgs) : bytes :=
  match a_Input args with
  | Some input => input
  | None => default [] (a_Data args)
  end.

(** ethtypes.TxData, and the message built from it with its sender. *)
Inductive TxData :=
| DynamicFeeTx (to : option Address) (chainID : option Z) (nonce gas : Z) (gasFeeCap gasTipCap value : option Z)
    (data : bytes) (accessList : list AccessTuple)
| AccessListTx (to : option Address) (chainID : option Z) (nonce gas : Z) (gasPrice value : option Z)
    (data : bytes) (accessList : list AccessTuple)
| LegacyTx (to : option Address) (nonce gas : Z) (gasPrice value : option Z) (data : bytes).

Record TxMsg := mkTxMsg { tm_Data : TxData; tm_From : option bytes }.

Definition ToTransaction (args : TransactionArgs) : TxMsg :=
  let nonce := default 0 (a_Nonce args) in
  let gas := default 0 (a_Gas args) in
  let txData :=
    match a_MaxFeePerGas args, a_AccessList args with
    | Some _, accessList =>
        DynamicFeeTx (a_To args) (a_ChainID args) nonce gas (a_MaxFeePerGas args) (a_MaxPriorityFeePerGas args)
          (a_Value args) (GetData args) (default [] accessList)
    | None, Some accessList =>
        AccessListTx (a_To args) (a_ChainID args) nonce gas (a_GasPrice args) (a_Value args) (GetData args) accessList
    | None, None => LegacyTx (a_To args) nonce gas (a_GasPrice args) (a_Value args) (GetData args)
    end in
  mkTxMsg txData (a_From args).

(** core.Message *)
Record Message := mkMessage {
  cm_From : Address;
  cm_To : option Address;
  cm_Nonce : Z;
  cm_Value : Z;
  cm_GasLimit : Z;
  cm_GasPrice : Z;
  cm_GasFeeCap : Z;
  cm_GasTipCap : Z;
  cm_Data : bytes;
  cm_AccessList : list AccessTuple;
  cm_SkipNonceChecks : bool;
  cm_SkipFromEOACheck : bool;
}.

Definition ToMessage (args : TransactionArgs) (globalGasCap : Z) : res error Message :=
  if bool_decide (is_Some (a_GasPrice args) ∧ (is_Some (a_MaxFeePerGas args) ∨ is_Some (a_MaxPriorityFeePerGas args))) then
    Err (New "both gasPrice and (maxFeePerGas or maxPriorityFeePerGas) specified")
  else
    let gas := if bool_decide (globalGasCap = 0) then (2 ^ 64 - 1) / 2 else globalGasCap in
    let gas := default gas (a_Gas args) in
    let gas := if bool_decide (globalGasCap ≠ 0 ∧ globalGasCap < gas) then globalGasCap else gas in
    let gasPrice := default 0 (a_GasPrice args) in
    Ok (mkMessage (GetFrom args) (a_To args) (default 0 (a_Nonce args)) (default 0 (a_Value args)) gas gasPrice gasPrice
          gasPrice (GetData args) (default [] (a_AccessList args)) true true).

(** ** Address locks: the mutex of an address is a location *)

Record AddrLocker := mkLocker { locks : gmap Address nat; next_mutex : nat; held : gset nat }.

Definition lock (l : AddrLocker) (address : Address) : nat * AddrLocker :=
  match locks l !! address with
  | Some mu => (mu, l)
  | None => (next_mutex l, mkLocker (<[address := next_mutex l]> (locks l)) (S (next_mutex l)) (held l))
  end.

(** Lock waits while the mutex is held: the call completes only when it is
    free. Unlock of a free mutex is a fatal error. *)
Definition LockAddr (l : AddrLocker) (address : Address) : option AddrLocker :=
  let '(mu, l) := lock l address in
  if bool_decide (mu ∈ held l) then None else Some (mkLocker (locks l) (next_mutex l) ({[mu]} ∪ held l)).

Definition UnlockAddr (l : AddrLocker) (address : Address) : res string AddrLocker :=
  let '(mu, l) := lock l address in
  if bool_decide (mu ∈ held l) then Ok (mkLocker (locks l) (next_mutex l) (held l ∖ {[mu]}))
  else Panic "sync: unlock of unlocked mutex".

(** ** Blocks as JSON objects *)

Inductive BlockTx :=
| TxHash_ (h : Hash)
| TxObject (tx : RPCTransaction).

Inductive BlockValue :=
| BUint64 (n : Z)
| BBytes (b : bytes)
| BHash (h : Hash)
| BNonce
| BBloom (b : bytes)
| BAddress (a : Address)
| BBig (n : Z)
| BString (s : string)
| BUncles
| BTransactions (txs : list BlockTx).

(** cmtypes.Header of a block *)
Definition block_header (block : Block) : CmHeader :=
  mkCmHeader (blk_Height block) (blk_LastBlockID_Hash block) (blk_AppHash block) (blk_DataHash block)
    (blk_ProposerAddress block) (blk_Time_Unix block).

Section blocks.
Context {EL : EthLib}.

(** [hash] is the result of the header's Hash method. *)
Definition FormatBlock (header : CmHeader) (hash : bytes) (size gasLimit gasUsed : Z) (transactions : list BlockTx)
    (bloom : bytes) (validatorAddr : Address) (baseFee : option Z) : gmap string BlockValue :=
  let transactionsRoot :=
    match transactions with [] => EmptyRootHash | _ => BytesToHash (ch_DataHash header) end in
  let result : gmap string BlockValue := list_to_map [
    ("number"%string, BUint64 (uint64 (ch_Height header)));
    ("hash"%string, BBytes hash);
    ("parentHash"%string, BHash (BytesToHash (ch_LastBlockID_Hash header)));
    ("nonce"%string, BNonce);
    ("sha3Uncles"%string, BHash EmptyUncleHash);
    ("logsBloom"%string, BBloom bloom);
    ("stateRoot"%string, BBytes (ch_AppHash header));
    ("miner"%string, BAddress validatorAddr);
    ("mixHash"%string, BHash zero_hash);
    ("difficulty"%string, BBig 0);
    ("extraData"%string, BString "0x");
    ("size"%string, BUint64 (uint64 size));
    ("gasLimit"%string, BUint64 (uint64 gasLimit));
    ("gasUsed"%string, BBig gasUsed);
    ("timestamp"%string, BUint64 (uint64 (ch_Time_Unix header)));
    ("transactionsRoot"%string, BHash transactionsRoot);
    ("receiptsRoot"%string, BHash EmptyRootHash);
    ("uncles"%string, BUncles);
    ("transactions"%string, BTransactions transactions);
    ("totalDifficulty"%string, BBig 0)] in
  match baseFee with
  | Some fee => <["baseFeePerGas"%string := BBig fee]> result
  | None => result
  end.

(** The consensus parameters of the node, [None] for a client that is not a
    cometbft client. *)
Definition BlockMaxGasFromConsensusParams (params : option (Z → res string Z)) (blockHeight : Z) :
    res string (Z * option string) :=
  match params with
  | None => Panic "incorrect tm rpc client"
  | Some params =>
      match params blockHeight with
      | Err err => Ok (2 ^ 32 - 1, Some err)
      | Panic m => Panic m
      | Ok maxGas => Ok (if bool_decide (maxGas = -1) then 2 ^ 32 - 1 else maxGas, None)
      end
  end.
End blocks.

(** ** Block numbers: properties *)

Section number_props.
Context {NL : NumberLib} {NLL : NumberLibLaws}.

(** The numbers the API works with. *)
Definition wf_block_number (bn : BlockNumber) : Prop :=
  bn = EthPendingBlockNumber ∨ bn = EthLatestBlockNumber ∨ 0 ≤ bn < 2 ^ 63.

Lemma UnmarshalJSON_wf data bn : BlockNumber_UnmarshalJSON data = Ok bn → wf_block_number bn.
Proof.
  unfold BlockNumber_UnmarshalJSON, wf_block_number. set (input := unquote _). clearbody input.
  case_bool_decide; [intros [= <-]; right; right; vm_compute; split; congruence|].
  case_bool_decide; [intros [= <-]; auto|]. case_bool_decide; [intros [= <-]; auto|].
  intros (n & Hn & Hres)%res_bind_ok. case_bool_decide; [done|]. injection Hres as <-.
  assert (is_uint64 n) as Hr.
  { destruct (hexutil_DecodeUint64 input) as [k|err|] eqn:E; [|destruct (Indexer.errors_Is err _)|]; try done.
    - injection Hn as <-. by eapply DecodeUint64_range.
    - injection Hn as <-. apply ToUint64_range. }
  right; right. gate_ints. lia.
Qed.

Lemma decodeFromString_wf bnh input bnh' :
  (∀ bn, bnh_Number bnh = Some bn → wf_block_number bn) → decodeFromString bnh input = Ok bnh' →
  ∀ bn, bnh_Number bnh' = Some bn → wf_block_number bn.
Proof.
  intros Hb. unfold decodeFromString. cbv zeta.
  case_bool_decide; [intros [= <-] bn [= <-]; right; right; vm_compute; split; congruence|].
  case_bool_decide; [intros [= <-] bn [= <-]; right; by left|].
  case_bool_decide; [intros [= <-] bn [= <-]; by left|].
  case_bool_decide; [by intros (h & _ & [= <-])%res_bind_ok|].
  intros (n & Hn%DecodeUint64_range & Hres)%res_bind_ok. apply res_bind_ok in Hres as (k & [-> Hk]%SafeInt64_ok & [= <-]).
  intros bn [= <-]. right; right. gate_ints. lia.
Qed.

Lemma Int64_range bn : wf_block_number bn → 0 ≤ Int64 bn < 2 ^ 63 ∧ (Int64 bn = 0 ↔ bn < 0).
Proof.
  unfold wf_block_number, Int64, EthPendingBlockNumber, EthLatestBlockNumber. intros H.
  repeat case_bool_decide; lia.
Qed.

(** C37. A block number accepted from a request is pending (-2), latest (-1) or a
    height that fits int64; the height it stands for is a non-negative int64, is 0
    exactly for the two tags, and the height passed to the node is absent for the tags
    and at least 1 otherwise.  The same holds for the number of a block reference read
    from text. *)
Theorem block_number_type data bnh input bnh' bn :
  BlockNumber_UnmarshalJSON data = Ok bn ∨
  (bnh_Number bnh = None ∧ decodeFromString bnh input = Ok bnh' ∧ bnh_Number bnh' = Some bn) →
  wf_block_number bn ∧ is_int64 (Int64 bn) ∧ 0 ≤ Int64 bn ∧ (Int64 bn = 0 ↔ bn < 0) ∧
  match TmHeight bn with None => bn < 0 | Some h => 1 ≤ h ∧ h = Z.max 1 bn end.
Proof.
  intros H. assert (wf_block_number bn) as Hw.
  { destruct H as [H|(Hn & Hd & Hb)]; [by eapply UnmarshalJSON_wf|].
    eapply decodeFromString_wf; [|exact Hd|exact Hb]. by rewrite Hn. }
  destruct (Int64_range _ Hw) as [Hr Hz]. split_and!; [done|gate_ints; lia|lia|done|].
  unfold TmHeight, Int64. repeat case_bool_decide; lia.
Qed.

(** Text that is no number and no tag is read as block 0, although the
    comment of UnmarshalJSON promises an error for it. *)
Lemma garbage_is_block_zero data :
  let input := unquote (strings_TrimSpace (bytes_string data)) in
  input ∉ [EmptyString; BlockParamEarliest; BlockParamLatest; BlockParamFinalized; BlockParamSafe; BlockParamPending] →
  not_a_number input → BlockNumber_UnmarshalJSON data = Ok EthEarliestBlockNumber.
Proof.
  intros input Hin Hn. unfold BlockNumber_UnmarshalJSON. fold input. clearbody input.
  rewrite !bool_decide_false by set_solver.
  assert (∀ p, String.prefix (String "0" p) input = false) as Hp.
  { intros p. destruct input as [|c s]; [done|]. destruct Hn as [Hd _]. cbn.
    case_match; [subst|done]. vm_compute in Hd. done. }
  rewrite DecodeUint64_prefix by (apply Hp || set_solver). cbn.
  by rewrite ToUint64_fails.
Qed.

(** The tag "safe" is a block number on its own but not in a block reference. *)
Lemma safe_routes bnh :
  BlockNumber_UnmarshalJSON (string_bytes "safe") = Ok EthLatestBlockNumber ∧
  decodeFromString bnh "safe" = Err (Sentinel ErrMissingPrefix).
Proof.
  split; [reflexivity|]. unfold decodeFromString. rewrite !bool_decide_false by (vm_compute; naive_solver).
  by rewrite DecodeUint64_prefix.
Qed.
End number_props.

(** ** Call arguments: properties *)

(** The gas of a call: a request is refused exactly when it mixes the
    legacy and the dynamic fee fields; otherwise the gas limit is the requested gas
    capped by the node's gas cap, the cap itself when none is requested, and without
    a cap the requested gas or the largest int64. *)
Theorem ToMessage_gas args cap :
  match ToMessage args cap with
  | Err _ => is_Some (a_GasPrice args) ∧ (is_Some (a_MaxFeePerGas args) ∨ is_Some (a_MaxPriorityFeePerGas args))
  | Panic _ => False
  | Ok msg =>
      (a_GasPrice args = None ∨ (a_MaxFeePerGas args = None ∧ a_MaxPriorityFeePerGas args = None)) ∧
      cm_GasLimit msg = match a_Gas args with
                        | Some gas => if bool_decide (cap = 0) then gas else Z.min gas cap
                        | None => if bool_decide (cap = 0) then 2 ^ 63 - 1 else cap
                        end ∧
      cm_Data msg = GetData args ∧ cm_From msg = GetFrom args
  end.
Proof.
  unfold ToMessage. change ((2 ^ 64 - 1) / 2) with (2 ^ 63 - 1).
  case_bool_decide as Hb; [done|]. cbn. split_and!; [|destruct (a_Gas args); cbn; repeat case_bool_decide; lia|done..].
  destruct (a_GasPrice args) as [p|]; [right|by left].
  destruct (a_MaxFeePerGas args), (a_MaxPriorityFeePerGas args); (done || (exfalso; apply Hb; eauto)).
Qed.

(** ** Address locks: properties *)

Definition locker_inv (l : AddrLocker) : Prop :=
  (∀ a mu, locks l !! a = Some mu → (mu < next_mutex l)%nat) ∧
  (∀ a b mu, locks l !! a = Some mu → locks l !! b = Some mu → a = b) ∧
  (∀ mu, mu ∈ held l → ∃ a, locks l !! a = Some mu).

Lemma lock_inv l a mu l' :
  locker_inv l → lock l a = (mu, l') →
  locker_inv l' ∧ locks l' !! a = Some mu ∧ (∀ b nu, locks l !! b = Some nu → locks l' !! b = Some nu) ∧ held l' = held l.
Proof.
  intros (I1 & I2 & I3). unfold lock. destruct (locks l !! a) as [nu|] eqn:E; intros [= <- <-]; [done|].
  assert (∀ b nu, locks l !! b = Some nu → <[a:=next_mutex l]> (locks l) !! b = Some nu) as Hk.
  { intros b nu Hb. rewrite lookup_insert_ne; [done|congruence]. }
  split; [|split_and!; [by cbn; rewrite lookup_insert_eq|done|done]]. split_and!; cbn.
  - intros b nu. rewrite lookup_insert. case_decide; [intros [= <-]; lia|intros ?%I1; lia].
  - intros b c nu. rewrite !lookup_insert. repeat case_decide; subst; try done.
    + by intros [= <-] ?%I1%Nat.lt_irrefl.
    + by intros Hb%I1 [= <-]; apply Nat.lt_irrefl in Hb.
    + apply I2.
  - intros nu (b & Hb)%I3. exists b. by apply Hk.
Qed.

(** The holders: addresses whose mutex is held. *)
Definition locked (l : AddrLocker) (a : Address) : Prop := ∃ mu, locks l !! a = Some mu ∧ mu ∈ held l.

(** Address locks exclude per address: LockAddr completes exactly when
    the address is not locked, locks it and nothing else; UnlockAddr fails exactly when
    it is not locked, and releases it and nothing else; every step keeps one mutex per
    address. *)
Theorem addr_locks_exclusive l a :
  locker_inv l →
  (match LockAddr l a with
   | Some l' => ¬ locked l a ∧ locker_inv l' ∧ ∀ b, locked l' b ↔ b = a ∨ locked l b
   | None => locked l a
   end) ∧
  (match UnlockAddr l a with
   | Ok l' => locked l a ∧ locker_inv l' ∧ ∀ b, locked l' b ↔ b ≠ a ∧ locked l b
   | Err _ => False
   | Panic _ => ¬ locked l a
   end).
Proof.
  intros Hi. unfold LockAddr, UnlockAddr. destruct (lock l a) as [mu l1] eqn:E.
  destruct (lock_inv _ _ _ _ Hi E) as ((J1 & J2 & J3) & Ha & Hold & Hheld).
  assert (∀ b, locked l1 b ↔ locked l b) as Hl.
  { intros b. split; intros (nu & Hb & Hh).
    - rewrite Hheld in Hh. destruct Hi as (_ & _ & I3). destruct (I3 _ Hh) as (c & Hc). exists nu. split; [|done].
      by rewrite (J2 b c nu Hb (Hold _ _ Hc)).
    - exists nu. split; [by apply Hold|by rewrite Hheld]. }
  assert (mu ∈ held l1 ↔ locked l a) as Hm.
  { rewrite <- Hl. split; [by exists mu|]. intros (nu & Hb & Hh). by simplify_eq. }
  split; case_bool_decide as Hin.
  - by apply Hm.
  - split_and!; [by rewrite <- Hm| |].
    + split_and!; cbn; [done..|]. intros nu [->%elem_of_singleton|Hn]%elem_of_union; [by exists a|by apply J3].
    + intros b. rewrite <- Hl. split.
      * intros (nu & Hb & Hh). cbn in *. apply elem_of_union in Hh as [->%elem_of_singleton|Hn]; [left; by eapply J2|right; by exists nu].
      * intros [->|(nu & Hb & Hh)]; [exists mu|exists nu]; cbn; set_solver.
  - split_and!; [by apply Hm| |].
    + split_and!; cbn; [done..|]. intros nu [Hn _]%elem_of_difference. by apply J3.
    + intros b. rewrite <- Hl. split.
      * intros (nu & Hb & Hh). cbn in *. apply elem_of_difference in Hh as [Hh Hne]. split; [|by exists nu].
        intros ->. apply Hne. apply elem_of_singleton. congruence.
      * intros [Hne (nu & Hb & Hh)]. exists nu. cbn. split; [done|]. apply elem_of_difference. split; [done|].
        intros ->%elem_of_singleton. apply Hne. by eapply J2.
  - by rewrite <- Hm.
Qed.

(** ** Witnesses *)

Fixpoint hex_number (acc : Z) (l : list ascii) : option Z :=
  match l with
  | [] => Some acc
  | c :: l => match EthInstances.hex_value c with Some d => hex_number (acc * 16 + d) l | None => None end
  end.

Definition checked_uint64 (o : option Z) : res error Z :=
  match o with
  | Some n => if bool_decide (is_uint64 n) then Ok n else Err (New "hex number > 64 bits")
  | None => Err (New "invalid hex string")
  end.

#[export] Instance sample_NumberLib : NumberLib := {|
  hexutil_DecodeUint64 s :=
    if bool_decide (s = EmptyString) then Err (Sentinel "empty hex string")
    else if String.prefix "0x" s || String.prefix "0X" s then
      checked_uint64 (hex_number 0 (drop 2 (list_ascii_of_string s)))
    else Err (Sentinel ErrMissingPrefix);
  cast_ToUint64 s := match strconv_ParseUint s 64 with Ok n => uint64 n | _ => 0 end;
  Hash_UnmarshalText s := Ok (EthInstances.fit 32 (EthInstances.hex_or_empty s));
  SafeInt64 z := if bool_decide (z < 2 ^ 63) then Ok z else Err (New "uint64 overflow");
  sonic_Unmarshal_BlockNumberOrHash _ _ := Err (New "mismatched type");
  sonic_Unmarshal_string b := Ok (unquote (bytes_string b));
|}.

#[export] Instance sample_NumberLibLaws : NumberLibLaws.
Proof.
  split; cbn.
  - intros s n. case_bool_decide; [done|]. destruct (_ || _); [|done].
    unfold checked_uint64. destruct (hex_number _ _); [|done]. case_bool_decide; [|done]. by intros [= <-].
  - intros s Hs H1 H2. rewrite bool_decide_false by done. by rewrite H1, H2.
  - intros s. destruct (strconv_ParseUint s 64); [apply uint64_range|vm_compute; split; congruence..].
  - intros s Hs. unfold strconv_ParseUint, parse_digits. destruct s as [|c s]; [done|]. cbn.
    destruct Hs as [-> _]. done.
  - intros z n. case_bool_decide; [|done]. by intros [= <-].
Qed.

Lemma block_number_type_witness :
  BlockNumber_UnmarshalJSON (string_bytes "0x1f4") = Ok 500 ∧ wf_block_number 500 ∧ TmHeight 500 = Some 500.
Proof.
  split; [reflexivity|]. split; [|reflexivity].
  apply (block_number_type (string_bytes "0x1f4") (mkBNH None None) "" (mkBNH None None) 500). left. reflexivity.
Defined.

Definition empty_locker : AddrLocker := mkLocker ∅ 0 ∅.

Lemma addr_locks_exclusive_witness :
  locker_inv empty_locker ∧ is_Some (LockAddr empty_locker zero_address) ∧
  match LockAddr empty_locker zero_address with
  | Some l' => ¬ locked empty_locker zero_address ∧ locker_inv l' ∧
               ∀ b, locked l' b ↔ b = zero_address ∨ locked empty_locker b
  | None => locked empty_locker zero_address
  end.
Proof.
  assert (locker_inv empty_locker) as Hi by (split_and!; done). split; [exact Hi|]. split.
  - eexists. reflexivity.
  - exact (proj1 (addr_locks_exclusive empty_locker zero_address Hi)).
Defined.
End RpcTypes.
