(* ===== verification/Backend.v ===== *)
(** * The RPC backend: state, node access and cached lookups

    src/internal/evm/rpc/backend: the Backend struct, the materialized cache
    (materialized_cache.go), the requests to the node (Tendermint*, BlockNumber and
    BaseFee of blocks.go and chain_info.go) and the lookups that decide whether
    indexed data may be served (virtual.go, blocks.go).

    The node (CometBFT client and gRPC queries), the index and the LRU caches
    are parameters: a record of answers, a record of lookups and a class.  The
    answers are functions of the request, so the node does not change during
    one call.  A nil pointer is [None]; a nil dereference is a [Panic].  What a
    call changes (the materialized caches and the cache counters of the sync status) is
    the state of the monad [M].  Logging, tracing and contexts are left out. *)

From Stdlib Require Import Ascii String.
From S2P Require Import Prelude Bytes Instances GoLib EthTypes EthInstances Keys Tracker ParsedTx Normalize.
From S2P Require Import Virtual VirtualBank VirtualIbc VirtualResponse RpcUtils Cached Codec Indexer IndexerQuery.
From S2P Require Import RpcTypes.
From stdpp Require Import strings list.
#[local] Open Scope Z_scope.

Module Backend.
Import GoLib EthTypes Keys ParsedTx Virtual RpcUtils Cached Codec Indexer RpcTypes.

(** ** LRU caches (hashicorp/golang-lru) *)

Class LRU (K V C : Type) := {
  lru_New : Z → res string C;
  lru_Get : C → K → option V * C;
  lru_Add : C → K → V → C;
}.

(** [lru_view] is what a Get would return: Get changes only the recency, Add
    sets its key and may evict others, a new cache is empty. *)
Class LRULaws (K V C : Type) `{LRU K V C} := {
  lru_view : C → K → option V;
  lru_New_empty n c k : lru_New n = Ok c → lru_view c k = None;
  lru_Get_view c k : (lru_Get c k).1 = lru_view c k;
  lru_Get_keeps c k k' : lru_view (lru_Get c k).2 k' = lru_view c k';
  lru_Add_view c k v k' v' :
    lru_view (lru_Add c k v) k' = Some v' → (k' = k ∧ v' = v) ∨ (k' ≠ k ∧ lru_view c k' = Some v');
}.

(** ** The node *)

(** cmrpctypes.ResultBlock *)
Record ResultBlock := mkResultBlock { rb_BlockID_Hash : bytes; rb_Block : option Block }.

(** cmrpctypes.ResultTx of a search, with the transaction bytes *)
Record FoundTx := mkFoundTx { ft_Tx : bytes; ft_Result : ResultTx }.

(** SyncInfo of the node status *)
Record SyncInfo := mkSyncInfo { si_CatchingUp : bool; si_Earliest : Z; si_Latest : Z }.

Record Client := mkClient {
  cl_Block : Z → res string (option ResultBlock);
  cl_BlockByHash : bytes → res string (option ResultBlock);
  cl_BlockResults : Z → res string (option ResultBlockResults);
  cl_TxSearch : string → res string (list FoundTx);
  cl_UnconfirmedTxs : res string (list bytes);
  cl_ConsensusParams : Z → res string Z;
  cl_Status : res string SyncInfo;
}.

Record QueryClient := mkQueryClient {
  q_Params_header : res string (list string);
  q_EipBaseFee : Z → res string (option Z);
  q_ValidatorAccount : Z → string → res string string;
  q_TxFeesParams : res string (Z * Z);
}.

(** ** The index, as the backend reads it (txindexer.TxIndexer, filteredLogIndexer
    and virtualRPCTransactionLookup) *)

Record IndexReader := mkReader {
  ir_LastIndexedBlock : res error Z;
  ir_GetByTxHash : Hash → res error TxResult;
  ir_GetByBlockAndIndex : Z → Z → res error TxResult;
  ir_GetRPCTransactionByHash : Hash → res error RPCTransaction;
  ir_GetRPCTransactionByBlockAndIndex : Z → Z → res error RPCTransaction;
  ir_GetRPCTransactionHashesByBlockHeight : Z → res error (list Hash);
  ir_GetReceiptByTxHash : Hash → res error (gmap string Value);
  ir_IsVirtualRPCTransaction : Hash → res error bool;
  ir_GetBlockMetaByHeight : Z → res error CachedBlockMeta;
  ir_GetBlockMetaByHash : Hash → res error CachedBlockMeta;
  ir_GetLogsByBlockHeight : Z → res error (list (list (option RPCLog)));
  ir_GetLogsByBlockHash : Hash → res error (list (list (option RPCLog)));
  ir_GetFilteredLogsByBlockHeight : Z → list Address → list (list Hash) → res error (list (option RPCLog));
  ir_GetFilteredLogsByBlockHash : Hash → list Address → list (list Hash) → res error (list (option RPCLog));
}.

(** The key-value indexer behind this interface. *)
Definition kv_reader {D : Type} {DB : KVDB D} {SD : SDK} {EL : EthLib} {CP : CapnpLib} {LG : LegacyLib}
    (d : D) : IndexReader :=
  mkReader (IndexerQuery.LastIndexedBlock d) (IndexerQuery.GetByTxHash d) (IndexerQuery.GetByBlockAndIndex d)
    (IndexerQuery.GetRPCTransactionByHash d) (IndexerQuery.GetRPCTransactionByBlockAndIndex d)
    (IndexerQuery.GetRPCTransactionHashesByBlockHeight d) (IndexerQuery.GetReceiptByTxHash d)
    (IndexerQuery.IsVirtualRPCTransaction d) (IndexerQuery.GetBlockMetaByHeight d)
    (IndexerQuery.GetBlockMetaByHash d) (IndexerQuery.GetLogsByBlockHeight d) (IndexerQuery.GetLogsByBlockHash d)
    (IndexerQuery.GetFilteredLogsByBlockHeight d) (IndexerQuery.GetFilteredLogsByBlockHash d).

(** ** The backend *)

Record Config := mkConfig {
  OfflineRPCOnly : bool;
  VirtualizeCosmosEvents : bool;
  GasCap : Z;
  FeeHistoryCap : Z;
  FilterCap : Z;
  LogsCap : Z;
  BlockRangeCap : Z;
}.

Record Backend := mkBackend {
  cfg : Config;
  chainID : option Z;
  client : option Client;
  queryClient : QueryClient;
  indexer : option IndexReader;
}.

Definition RPCGasCap (b : Backend) : Z := GasCap (cfg b).
Definition RPCFilterCap (b : Backend) : Z := FilterCap (cfg b).
Definition RPCFeeHistoryCap (b : Backend) : Z := FeeHistoryCap (cfg b).
Definition RPCLogsCap (b : Backend) : Z := LogsCap (cfg b).
Definition RPCBlockRangeCap (b : Backend) : Z := BlockRangeCap (cfg b).
Definition BloomStatus : Z * Z := (4096, 0).

(** The chain id parsed by NewBackend, which panics without one. *)
Definition backendChainID (EVMChainID : string) : res string Z :=
  match big_SetString (strings_TrimSpace EVMChainID) with
  | Some id => if bool_decide (id ≤ 0) then Panic "parse backend evm chain id: " else Ok id
  | None => Panic "parse backend evm chain id: "
  end.

(** A copy of the id; zero when the field is nil. *)
Definition ChainID (b : Backend) : Z := default 0 (chainID b).

Definition virtualizationEnabled (b : Backend) : bool := VirtualizeCosmosEvents (cfg b).

Definition isIndexerCacheMiss (err : error) : bool := errors_Is err ErrCacheMiss.

Definition deref {A} (p : option A) : res error A :=
  match p with Some a => Ok a | None => Panic "nil pointer dereference" end.

(** Calls whose error is logged and replaced by a nil result. *)
Definition or_nil {A} (m : res error (option A)) : res error (option A) :=
  match m with Ok a => Ok a | Err _ => Ok None | Panic p => Panic p end.

(** ** State of a call *)

Section state.
Context {RC LC : Type}.

Record materializedCache := mkCache { receipts : RC; blockLogs : LC }.

Record bstate := mkBState { materialized : option materializedCache; syncStatus : option Tracker.Tracker }.

Definition M (A : Type) : Type := bstate → res error A * bstate.

Definition ret {A} (a : A) : M A := λ s, (Ok a, s).
Definition lift {A} (m : res error A) : M A := λ s, (m, s).
Definition bind {A B} (m : M A) (f : A → M B) : M B := λ s,
  match m s with
  | (Ok a, s) => f a s
  | (Err e, s) => (Err e, s)
  | (Panic p, s) => (Panic p, s)
  end.

(** [res, err := call(...)]: a returned error is inspected, a panic is not. *)
Definition call {A B} (m : M A) (ok : A → M B) (err : error → M B) : M B := λ s,
  match m s with
  | (Ok a, s) => ok a s
  | (Err e, s) => err e s
  | (Panic p, s) => (Panic p, s)
  end.

(** [if b.syncStatus != nil { b.syncStatus.Record...() }] *)
Definition count (f : Tracker.Tracker → Tracker.Tracker) : M unit := λ s,
  (Ok tt, mkBState (materialized s) (f <$> syncStatus s)).

Context `{LRU Hash (gmap string Value) RC} `{LRU Z (list (option RPCLog)) LC}.

Definition materializedReceiptCacheSize : Z := 8192.
Definition materializedBlockLogsCacheSize : Z := 512.

Definition newMaterializedCache : res string materializedCache :=
  match lru_New materializedReceiptCacheSize with
  | Ok receipts =>
      match lru_New materializedBlockLogsCacheSize with
      | Ok blockLogs => Ok (mkCache receipts blockLogs)
      | Err e => Panic e
      | Panic p => Panic p
      end
  | Err e => Panic e
  | Panic p => Panic p
  end.

Definition getReceipt (hash : Hash) : M (option (gmap string Value)) := λ s,
  match materialized s with
  | None => (Ok None, s)
  | Some c => let '(v, rc) := lru_Get (receipts c) hash in
              (Ok v, mkBState (Some (mkCache rc (blockLogs c))) (syncStatus s))
  end.

Definition addReceipt (hash : Hash) (receipt : gmap string Value) : M unit := λ s,
  match materialized s with
  | None => (Ok tt, s)
  | Some c => (Ok tt, mkBState (Some (mkCache (lru_Add (receipts c) hash receipt) (blockLogs c))) (syncStatus s))
  end.

Definition getBlockLogs (height : Z) : M (option (list (option RPCLog))) := λ s,
  match materialized s with
  | None => (Ok None, s)
  | Some c => let '(v, lc) := lru_Get (blockLogs c) height in
              (Ok v, mkBState (Some (mkCache (receipts c) lc)) (syncStatus s))
  end.

Definition addBlockLogs (height : Z) (logs : list (option RPCLog)) : M unit := λ s,
  match materialized s with
  | None => (Ok tt, s)
  | Some c => (Ok tt, mkBState (Some (mkCache (receipts c) (lru_Add (blockLogs c) height logs))) (syncStatus s))
  end.
End state.
#[global] Arguments materializedCache : clear implicits.
#[global] Arguments bstate : clear implicits.
#[global] Arguments M : clear implicits.

Declare Scope backend_scope.
Delimit Scope backend_scope with backend.
Notation "'do!' x ':=' m 'in' k" := (bind m (λ x, k))
  (at level 10, x pattern, m at level 100, k at level 200,
   format "'[v' 'do!'  x  ':='  m  'in' '/' k ']'") : backend_scope.
Notation "m ';;' k" := (bind m (λ _ : unit, k)) (at level 100, k at level 200, right associativity) : backend_scope.

(** ** Requests to the node *)

(** Constants and functions of the chain's modules used only by the backend. *)
Class BackendLib := {
  EventTypeBlockBloom : string;
  AttributeKeyEthereumBloom : string;
  TypeMsgEthereumTx : string;
  DecodeTxLogs : bytes → Z → res string (list (option EthLog));
  ConsAddress_String : bytes → string;
  AccAddressFromBech32 : string → res string bytes;
  UnwrapEthereumMsg : sdk_Tx → Hash → res string MsgEthereumTx;
  BloomLookup : bytes → bytes → bool;
}.

Section node.
Context {EL : EthLib} {CL : ChainLib}.

Definition BlockNumber (b : Backend) : res error Z :=
  match indexer b with
  | Some ix => let! last := ir_LastIndexedBlock ix in Ok (if bool_decide (0 ≤ last) then uint64 last else 0)
  | None =>
      let! header := lib (q_Params_header (queryClient b)) in
      match header with
      | [value] => wrap "failed to parse block height" (strconv_ParseUint value 64)
      | _ => Err (Errorf "unexpected '%s' gRPC header length; got %d, expected: %d")
      end
  end.

Definition TendermintBlockByNumber (b : Backend) (blockNum : Z) : res error (option ResultBlock) :=
  let! height :=
    if bool_decide (Int64 blockNum ≤ 0) then let! n := BlockNumber b in Ok (int64 n) else Ok (Int64 blockNum) in
  match client b with
  | None => Err (New "rpc client is nil")
  | Some c =>
      let! resBlock := lib (cl_Block c height) in
      let! resBlock := deref resBlock in
      match rb_Block resBlock with None => Ok None | Some _ => Ok (Some resBlock) end
  end.

Definition TendermintBlockResultByNumber (b : Backend) (height : Z) : res error (option ResultBlockResults) :=
  match client b with
  | None => Err (New "invalid rpc client")
  | Some c => lib (cl_BlockResults c height)
  end.

Definition TendermintBlockByHash (b : Backend) (blockHash : Hash) : res error (option ResultBlock) :=
  match client b with
  | None => Err (New "invalid rpc client")
  | Some c =>
      let! resBlock := lib (cl_BlockByHash c blockHash) in
      match resBlock with
      | None => Ok None
      | Some rb => match rb_Block rb with None => Ok None | Some _ => Ok (Some rb) end
      end
  end.

(** Status of a nil client is a nil dereference. *)
Definition Syncing (b : Backend) : res error (option (Z * Z)) :=
  let! c := deref (client b) in
  let! info := lib (cl_Status c) in
  if si_CatchingUp info then Ok (Some (uint64 (si_Earliest info), uint64 (si_Latest info))) else Ok None.

Definition PendingTransactions (b : Backend) : res error (list sdk_Tx) :=
  match client b with
  | None => Err (New "invalid rpc client")
  | Some c => let! txs := lib (cl_UnconfirmedTxs c) in res_mapM (λ txBz, lib (TxDecoder txBz)) txs
  end.

Definition BaseFee (b : Backend) (blockRes : option ResultBlockResults) : res error (option Z) :=
  let! r := deref blockRes in
  match BaseFeeFromEvents (br_FinalizeBlockEvents r) with
  | Some fee => Ok (Some fee)
  | None => lib (q_EipBaseFee (queryClient b) (br_Height r))
  end.

(** Transactions that do not decode are skipped. *)
Definition eth_msgs (msgs : list Msg) : list MsgEthereumTx :=
  omap (λ msg, match msg with EthMsg m => Some m | OtherMsg _ => None end) msgs.

Definition EthMsgsFromTendermintBlock (resBlock : option ResultBlock) : res error (list MsgEthereumTx) :=
  match resBlock ≫= rb_Block with
  | None => Ok []
  | Some block =>
      res_foldl (λ result tx,
        match TxDecoder tx with
        | Ok decodedTx => Ok (result ++ eth_msgs (GetMsgs decodedTx))
        | Err _ => Ok result
        | Panic p => Panic p
        end) [] (blk_Txs block)
  end.

Definition effectiveGasPrice (tx : Transaction) (baseFee : option Z) : Z :=
  match baseFee with
  | Some baseFee =>
      if bool_decide (tx_Type tx ≠ DynamicFeeTxType) then tx_GasPrice tx
      else evm_EffectiveGasPrice baseFee (tx_GasFeeCap tx) (tx_GasTipCap tx)
  | None => tx_GasPrice tx
  end.
End node.

(** ** Which indexed data may be served *)

Definition indexedBlockHeight (b : Backend) (blockNum : Z) : res error Z :=
  match indexer b with
  | None => Ok (-1)
  | Some ix => if bool_decide (blockNum < 0) then ir_LastIndexedBlock ix else Ok (Int64 blockNum)
  end.

Definition cachedBlockMetaByNumber (b : Backend) (blockNum : Z) : res error (option CachedBlockMeta) :=
  match indexer b with
  | None => Ok None
  | Some ix =>
      let! height := indexedBlockHeight b blockNum in
      if bool_decide (height < 1) then Ok None
      else let! meta := ir_GetBlockMetaByHeight ix height in Ok (Some meta)
  end.

Definition cachedBlockMetaByHash (b : Backend) (hash : Hash) : res error (option CachedBlockMeta) :=
  match indexer b with
  | None => Ok None
  | Some ix => let! meta := ir_GetBlockMetaByHash ix hash in Ok (Some meta)
  end.

Definition cacheOnlyDynamicBlockNumber (b : Backend) (blockNum : Z) : bool :=
  bool_decide (is_Some (indexer b)) && bool_decide (blockNum < 0).

Definition cachedMetaMatchesVirtualization (b : Backend) (meta : option CachedBlockMeta) : bool :=
  match meta with
  | None => false
  | Some meta => Bool.eqb (m_VirtualizedCosmosEvents meta) (VirtualizeCosmosEvents (cfg b))
  end.

Definition cachedTransactionVisible (b : Backend) (hash : Hash) : res error bool :=
  if virtualizationEnabled b then Ok true
  else match indexer b with
       | None => Ok true
       | Some ix => let! isVirtual := ir_IsVirtualRPCTransaction ix hash in Ok (negb isVirtual)
       end.

(** The mode of the block at [height], when it is indexed. *)
Definition heightMatchesVirtualization (b : Backend) (ix : IndexReader) (height : Z) : res error bool :=
  match ir_GetBlockMetaByHeight ix height with
  | Ok meta => Ok (cachedMetaMatchesVirtualization b (Some meta))
  | Err err => if isIndexerCacheMiss err then Ok true else Err err
  | Panic p => Panic p
  end.

Definition cachedRPCTransactionMatchesVirtualization (b : Backend) (tx : RPCTransaction) : res error bool :=
  match t_BlockNumber tx, indexer b with
  | Some number, Some ix => heightMatchesVirtualization b ix (int64 number)
  | _, _ => Ok true
  end.

Definition cachedReceiptMatchesVirtualization (b : Backend) (receipt : gmap string Value) : res error bool :=
  match indexer b with
  | None => Ok true
  | Some ix =>
      match receipt !! "blockNumber"%string with
      | Some (VUint64 v) | Some (VBig v) => heightMatchesVirtualization b ix (int64 v)
      | _ => Ok true
      end
  end.
End Backend.
