(* ===== verification/BackendLive.v ===== *)
(** * The RPC backend: blocks built from the node's answers

    The live paths of src/internal/evm/rpc/backend: liveVirtualBlockView and
    liveReceiptMap (virtual.go), GetLogsFromBlockResults (utils.go), BlockBloom,
    RPCBlockFromTendermintBlock and EthBlockFromTendermintBlock (blocks.go), and the
    non-virtualized receipts of block_receipts.go. *)

From Stdlib Require Import Ascii String.
From S2P Require Import Prelude Bytes Instances GoLib EthTypes EthInstances Keys ParsedTx Normalize.
From S2P Require Import Virtual VirtualBank VirtualIbc VirtualResponse RpcUtils Cached Codec Indexer.
From S2P Require Import RpcTypes Backend.
From stdpp Require Import strings list.
#[local] Open Scope Z_scope.

Module BackendLive.
Import GoLib EthTypes Keys ParsedTx Normalize Virtual RpcUtils Cached Codec RpcTypes Backend.

Record liveView := mkView {
  Transactions : list RPCTransaction;
  Receipts : list (gmap string Value);
  Logs : list (list (option RPCLog));
}.

(** The view being built with the counters of the loop. *)
Record vstate := mkV {
  v_view : liveView;
  v_logIndex : Z;
  v_rpcTxIndex : Z;
  v_gasBefore : Z;
}.

Section ops.
Context {EL : EthLib} {CL : ChainLib} {LJ : LogJSON} {PB : Proto} {BL : Bank.BankLib} {IL : Ibc.IbcLib} {BB : BackendLib}.
Context (IBCHookCallerAddressHex : string).

Definition to_value (to : option Address) : Value := match to with Some a => VAddress a | None => VNil end.

Definition liveReceiptMap (status cumulativeGasUsed gasUsed : Z) (logs : list (option RPCLog)) (txHash : Hash)
    (contractAddress : option Address) (blockHash : string) (blockNumber transactionIndex effectiveGasPrice : Z)
    (from : Address) (to : option Address) (txType : Z) : gmap string Value :=
  let receipt : gmap string Value := list_to_map [
    ("status"%string, VUint status);
    ("cumulativeGasUsed"%string, VUint64 cumulativeGasUsed);
    ("logsBloom"%string, VBloom (BytesToBloom (LogsBloom (EthLogs logs))));
    ("logs"%string, VLogs logs);
    ("transactionHash"%string, VHash txHash);
    ("contractAddress"%string, VNil);
    ("gasUsed"%string, VUint64 gasUsed);
    ("blockHash"%string, VString blockHash);
    ("blockNumber"%string, VUint64 blockNumber);
    ("transactionIndex"%string, VUint64 transactionIndex);
    ("effectiveGasPrice"%string, VBig effectiveGasPrice);
    ("from"%string, VAddress from);
    ("to"%string, to_value to);
    ("type"%string, VUint txType)] in
  match contractAddress with
  | Some a => <["contractAddress"%string := VAddress a]> receipt
  | None => receipt
  end.

Section view.
Context (b : Backend) (block : Block).

Definition live_hash : Hash := BytesToHash (blk_Hash block).
Definition live_number : Z := uint64 (blk_Height block).

Definition live_context (txHash : Hash) (txIndex logIndex : Z) : LogContext :=
  mkLogContext live_hash live_number txHash txIndex logIndex None.

Definition append_entry (view : liveView) (tx : RPCTransaction) (receipt : gmap string Value)
    (logs : list (option RPCLog)) : liveView :=
  mkView (Transactions view ++ [tx]) (Receipts view ++ [receipt]) (Logs view ++ [logs]).

(** logIndex += len(logs); appendVirtualTx; rpcTxIndex++ *)
Definition append_virtual (v : vstate) (tx : Tx) : vstate :=
  let logs := r_Logs (Receipt_ tx) in
  mkV (append_entry (v_view v) (Transaction_ tx) (Receipt_ToMap (Receipt_ tx)) logs)
    (uint64 (v_logIndex v + Z.of_nat (length logs))) (uint64 (v_rpcTxIndex v + 1)) (v_gasBefore v).

(** The hash, gas and status of a message in the live view. *)
Definition live_msg_result (txResult : ExecTxResult) (parsedTxs : option ParsedTxs) (msgIndex : nat)
    (ethMsg : MsgEthereumTx) : Hash * Z * bool :=
  if bool_decide (res_Code txResult ≠ CodeTypeOK ∧ res_Codespace txResult ≠ ModuleName) then
    (msg_Hash ethMsg, msg_GetGas ethMsg, true)
  else
    match parsedTxs with
    | None => (msg_Hash ethMsg, msg_GetGas ethMsg, false)
    | Some txs =>
        match GetTxByMsgIndex txs (Z.of_nat msgIndex) with
        | None => (msg_Hash ethMsg, msg_GetGas ethMsg, bool_decide (res_Code txResult ≠ CodeTypeOK))
        | Some parsedTx => (Hash_ parsedTx, GasUsed parsedTx, Failed parsedTx)
        end
    end.

(** Errors of DecodeMsgLogs are logged and leave no logs. *)
Definition live_evm_logs (txResult : ExecTxResult) (msgIndex : nat) (height : Z) : res error (list (option EthLog)) :=
  match DecodeMsgLogs (res_Data txResult) (Z.of_nat msgIndex) height with
  | Ok logs => Ok logs
  | Err _ => Ok []
  | Panic p => Panic p
  end.

Definition live_msg (baseFee : option Z) (txResult : ExecTxResult) (parsedTxs : option ParsedTxs)
    (vr : VirtualResponse.Response) (total : nat) (acc : vstate * Z) (m : nat * Msg) : res error (vstate * Z) :=
  let '(v, cumulative) := acc in
  match m with
  | (_, OtherMsg _) => Ok (v, cumulative)
  | (msgIndex, EthMsg ethMsg) =>
      match msg_AsTransaction ethMsg with
      | None => Err (Errorf "failed to unpack tx data")
      | Some txData =>
          let '(txHash, txGasUsed, txFailed) := live_msg_result txResult parsedTxs msgIndex ethMsg in
          let cumulative := uint64 (cumulative + txGasUsed) in
          let! evmLogs := live_evm_logs txResult msgIndex live_number in
          let logs := SetLogMetadata (WrapLogs evmLogs false None)
                        (live_context txHash (v_rpcTxIndex v) (v_logIndex v)) in
          let logIndex := uint64 (v_logIndex v + Z.of_nat (length logs)) in
          let! virtualLogs := VirtualResponse.LogsForMessage vr (Z.of_nat msgIndex) (Z.of_nat total)
                                (live_context txHash (v_rpcTxIndex v) logIndex) in
          let logIndex := uint64 (logIndex + Z.of_nat (length virtualLogs)) in
          let logs := logs ++ virtualLogs in
          let status := if txFailed then ReceiptStatusFailed else ReceiptStatusSuccessful in
          let! from := lib (msg_GetSenderLegacy ethMsg (signer_for txData)) in
          let contractAddress := match tx_To txData with
                                 | None => Some (CreateAddress from (tx_Nonce txData))
                                 | Some _ => None
                                 end in
          let! rpcTx := NewRPCTransaction ethMsg live_hash live_number (v_rpcTxIndex v) baseFee (Some (ChainID b)) in
          let receipt := liveReceiptMap status (uint64 (v_gasBefore v + cumulative)) txGasUsed logs txHash contractAddress
            (Hash_Hex live_hash) live_number (v_rpcTxIndex v) (effectiveGasPrice txData baseFee) from (tx_To txData)
            (tx_Type txData) in
          Ok (mkV (append_entry (v_view v) (Indexer.set_hash rpcTx txHash) receipt logs) logIndex
                (uint64 (v_rpcTxIndex v + 1)) (v_gasBefore v), cumulative)
      end
  end.

Definition live_gas (v : vstate) (gas : Z) : vstate :=
  mkV (v_view v) (v_logIndex v) (v_rpcTxIndex v) (uint64 (v_gasBefore v + gas)).

Definition parsed_or_nil (m : res error ParsedTxs) : res error (option ParsedTxs) :=
  match m with Ok p => Ok (Some p) | Err _ => Ok None | Panic p => Panic p end.

Definition live_tx (baseFee : option Z) (results : list (option ExecTxResult)) (v : vstate) (t : nat * bytes) :
    res error vstate :=
  let '(txIndex, txBz) := t in
  match results !! txIndex with
  | None => Err (Errorf "block results shorter than tx list at height %d")
  | Some None => Err (Errorf "missing tx result at height %d index %d")
  | Some (Some txResult) =>
      let resultGasUsed := uint64 (res_GasUsed txResult) in
      match TxDecoder txBz with
      | Panic p => Panic p
      | Err _ => Ok (live_gas v resultGasUsed)
      | Ok tx =>
          let msgs := GetMsgs tx in
          let! vr := VirtualResponse.ParseResponse (Some txResult) in
          let! parsedTxs := parsed_or_nil (ParseTxResult txResult (Some tx)) in
          let! (v, cumulative) :=
            res_foldl (live_msg baseFee txResult parsedTxs vr (length msgs)) (v, 0) (imap pair msgs) in
          let! virtualTxs := VirtualResponse.SyntheticTxs IBCHookCallerAddressHex vr
            (VirtualResponse.mkTxContext txBz (Indexer.eth_indexes msgs) cumulative (Z.of_nat (length msgs)) live_hash
               live_number (v_rpcTxIndex v) (v_logIndex v) (v_gasBefore v) (Some (ChainID b))) in
          Ok (live_gas (foldl append_virtual v virtualTxs) resultGasUsed)
      end
  end.

Definition live_block_tx (v : vstate) (hash : Hash) (events : list (option EthLog)) (cumulative : Z) : vstate :=
  match events with
  | [] => v
  | _ => append_virtual v (VirtualResponse.NewBlockTx hash events
           (live_context hash (v_rpcTxIndex v) (v_logIndex v)) (Some (ChainID b)) cumulative)
  end.
End view.

Definition empty_view : vstate := mkV (mkView [] [] []) 0 0 0.

Definition liveVirtualBlockView (b : Backend) (resBlock : option ResultBlock)
    (blockRes : option ResultBlockResults) : res error liveView :=
  match resBlock ≫= rb_Block, blockRes with
  | None, _ => Err (Errorf "tendermint block is nil")
  | Some _, None => Err (Errorf "tendermint block result is nil")
  | Some block, Some r =>
      let! baseFee := or_nil (BaseFee b (Some r)) in
      let! results := NormalizeTxResponseIndexes (br_TxResults r) in
      let! (beginEvents, endEvents) := VirtualResponse.SplitBlockEvents (br_FinalizeBlockEvents r) in
      let v := live_block_tx b block empty_view (BeginBlockHash (blk_Height block)) beginEvents 0 in
      let! v := res_foldl (live_tx b block baseFee results) v (imap pair (blk_Txs block)) in
      let v := live_block_tx b block v (EndBlockHash (blk_Height block)) endEvents (v_gasBefore v) in
      Ok (v_view v)
  end.

(** Native logs only; a nil result is dereferenced. *)
Definition GetLogsFromBlockResults (blockRes : option ResultBlockResults) : res error (list (list (option RPCLog))) :=
  let! r := deref blockRes in
  let! results := NormalizeTxResponseIndexes (br_TxResults r) in
  res_mapM (λ txResult,
    let! txResult := deref txResult in
    let! logs := lib (DecodeTxLogs (res_Data txResult) (uint64 (br_Height r))) in
    Ok (WrapLogs logs false None)) results.

(** The first block-bloom event with a bloom attribute of the right length. *)
Fixpoint bloom_attr (attrs : list EventAttribute) : option bytes :=
  match attrs with
  | [] => None
  | attr :: attrs =>
      if bool_decide (attr_Key attr = AttributeKeyEthereumBloom) then
        let bz := string_bytes (attr_Value attr) in
        if bool_decide (length bz = BloomByteLength) then Some (BytesToBloom bz) else None
      else bloom_attr attrs
  end.

Fixpoint bloom_event (events : list Event) : option bytes :=
  match events with
  | [] => None
  | event :: events =>
      if bool_decide (ev_Type event ≠ EventTypeBlockBloom) then bloom_event events
      else match bloom_attr (ev_Attributes event) with
           | Some bloom => Some bloom
           | None => bloom_event events
           end
  end.

(** The bloom cached with a block, when its mode matches. *)
Definition cached_bloom (b : Backend) (height : Z) : res error (option bytes) :=
  match indexer b with
  | None => Ok None
  | Some ix =>
      match ir_GetBlockMetaByHeight ix height with
      | Ok meta => if cachedMetaMatchesVirtualization b (Some meta) then Ok (Some (BytesToBloom (FromHex (m_Bloom meta)))) else Ok None
      | Err _ => Ok None
      | Panic p => Panic p
      end
  end.

(** The bloom of the live view, when it can be built. *)
Definition live_bloom (b : Backend) (r : ResultBlockResults) : res error (option bytes) :=
  if virtualizationEnabled b then
    let! resBlock := or_nil (TendermintBlockByNumber b (br_Height r)) in
    match resBlock ≫= rb_Block with
    | None => Ok None
    | Some _ =>
        match liveVirtualBlockView b resBlock (Some r) with
        | Ok view => Ok (Some (BytesToBloom (LogsBloom (FlattenEthLogs (Logs view)))))
        | Err _ => Ok None
        | Panic p => Panic p
        end
    end
  else Ok None.

Definition BlockBloom (b : Backend) (blockRes : option ResultBlockResults) : res error bytes :=
  match blockRes with
  | None => Err (New "block results are nil")
  | Some r =>
      let! cached := cached_bloom b (br_Height r) in
      match cached with
      | Some bloom => Ok bloom
      | None =>
          let! live := live_bloom b r in
          match live with
          | Some bloom => Ok bloom
          | None =>
              match bloom_event (br_FinalizeBlockEvents r) with
              | Some bloom => Ok bloom
              | None =>
                  match GetLogsFromBlockResults (Some r) with
                  | Ok groups => Ok (BytesToBloom (LogsBloom (FlattenEthLogs groups)))
                  | Err _ => Err (New "block bloom event is not found")
                  | Panic p => Panic p
                  end
              end
          end
      end
  end.

(** A failed bloom is logged; the zero bloom is used. *)
Definition zero_bloom : bytes := replicate BloomByteLength 0.
Definition bloom_or_zero (b : Backend) (blockRes : option ResultBlockResults) : res error bytes :=
  match BlockBloom b blockRes with Ok bloom => Ok bloom | Err _ => Ok zero_bloom | Panic p => Panic p end.

(** ** A block as JSON *)

Definition select_tx (fullTx : bool) (tx : RPCTransaction) : BlockTx := if fullTx then TxObject tx else TxHash_ (t_Hash tx).

(** The transactions of a non-virtualized block; a message whose transaction
    cannot be built is left out. *)
Definition live_txs (b : Backend) (block : Block) (baseFee : option Z) (fullTx : bool) (msgs : list MsgEthereumTx) :
    res error (list BlockTx) :=
  let! txs := res_mapM (λ m : nat * MsgEthereumTx,
    let '(txIndex, ethMsg) := m in
    if negb fullTx then Ok [TxHash_ (msg_Hash ethMsg)]
    else match NewRPCTransaction ethMsg (BytesToHash (blk_Hash block)) (uint64 (blk_Height block)) (Z.of_nat txIndex) baseFee
                 (Some (ChainID b)) with
         | Ok rpcTx => Ok [TxObject rpcTx]
         | Err _ => Ok []
         | Panic p => Panic p
         end) (imap pair msgs) in
  Ok (mjoin txs).

Definition zero_acc_address : bytes := zero_address.

Definition live_validator (b : Backend) (block : Block) : res error Address :=
  match q_ValidatorAccount (queryClient b) (blk_Height block) (ConsAddress_String (blk_ProposerAddress block)) with
  | Ok account => let! addr := lib (AccAddressFromBech32 account) in Ok (BytesToAddress addr)
  | Err _ => Ok (BytesToAddress zero_acc_address)
  | Panic p => Panic p
  end.

(** The sum of the results' gas; GetGasUsed of a nil result is 0. *)
Definition results_gas (results : list (option ExecTxResult)) : Z :=
  foldl (λ gas r, uint64 (gas + match r with Some r => uint64 (res_GasUsed r) | None => 0 end)) 0 results.

Definition RPCBlockFromTendermintBlock (b : Backend) (resBlock : option ResultBlock)
    (blockRes : option ResultBlockResults) (fullTx : bool) : res error (gmap string BlockValue) :=
  match resBlock ≫= rb_Block, blockRes with
  | None, _ => Err (Errorf "tendermint block is nil")
  | Some _, None => Err (Errorf "tendermint block result is nil")
  | Some block, Some r =>
      let! baseFee := or_nil (BaseFee b blockRes) in
      let! transactions :=
        if virtualizationEnabled b then
          let! view := liveVirtualBlockView b resBlock blockRes in Ok (select_tx fullTx <$> Transactions view)
        else
          let! msgs := EthMsgsFromTendermintBlock resBlock in live_txs b block baseFee fullTx msgs in
      let! bloom := bloom_or_zero b blockRes in
      let! validatorAddr := live_validator b block in
      let! (gasLimit, _) := lib (BlockMaxGasFromConsensusParams (cl_ConsensusParams <$> client b) (blk_Height block)) in
      Ok (FormatBlock (block_header block) (blk_Hash block) (blk_Size block) gasLimit (results_gas (br_TxResults r))
            transactions bloom validatorAddr baseFee)
  end.

(** ethtypes.Block: the header and the transactions; AsTransaction may be nil. *)
Definition EthBlockFromTendermintBlock (b : Backend) (resBlock : option ResultBlock)
    (blockRes : option ResultBlockResults) : res error (Header * list (option Transaction)) :=
  match resBlock ≫= rb_Block, blockRes with
  | None, _ => Err (Errorf "tendermint block is nil")
  | Some _, None => Err (Errorf "tendermint block result is nil")
  | Some block, Some r =>
      let! bloom := bloom_or_zero b blockRes in
      let! baseFee := or_nil (BaseFee b blockRes) in
      let! msgs := EthMsgsFromTendermintBlock resBlock in
      Ok (EthHeaderFromTendermint (block_header block) bloom baseFee, msg_AsTransaction <$> msgs)
  end.

(** ** Receipts of a non-virtualized block *)

Definition ethReceiptMap (status cumulativeGasUsed gasUsed : Z) (logs : list (option EthLog)) (txHash : Hash)
    (blockHash : string) (blockNumber transactionIndex : Z) (txData : Transaction) (baseFee : option Z) (from : Address) :
    gmap string Value :=
  let receipt : gmap string Value := list_to_map [
    ("status"%string, VUint status);
    ("cumulativeGasUsed"%string, VUint64 cumulativeGasUsed);
    ("logsBloom"%string, VBloom (BytesToBloom (LogsBloom logs)));
    ("logs"%string, VEthLogs logs);
    ("transactionHash"%string, VHash txHash);
    ("contractAddress"%string, VNil);
    ("gasUsed"%string, VUint64 gasUsed);
    ("blockHash"%string, VString blockHash);
    ("blockNumber"%string, VUint64 blockNumber);
    ("transactionIndex"%string, VUint64 transactionIndex);
    ("effectiveGasPrice"%string, VBig (effectiveGasPrice txData baseFee));
    ("from"%string, VAddress from);
    ("to"%string, to_value (tx_To txData));
    ("type"%string, VUint (tx_Type txData))] in
  match tx_To txData with
  | None => <["contractAddress"%string := VAddress (CreateAddress from (tx_Nonce txData))]> receipt
  | Some _ => receipt
  end.

(** The loop state of liveBlockReceipts: the receipts, the gas of the results so far
    and the base fee once a dynamic-fee transaction asked for it. *)
Record rstate := mkR { rs_receipts : list (gmap string Value); rs_gas : Z; rs_baseFee : option (option Z) }.

Definition receipt_msg_result (txResult : ExecTxResult) (parsedTxs : option ParsedTxs) (msgIndex : nat)
    (ethMsg : MsgEthereumTx) (position : Z) : Hash * Z * bool * Z :=
  if bool_decide (res_Code txResult ≠ CodeTypeOK ∧ res_Codespace txResult ≠ ModuleName) then
    (msg_Hash ethMsg, msg_GetGas ethMsg, true, position)
  else
    let failed := bool_decide (res_Code txResult ≠ CodeTypeOK) in
    match parsedTxs with
    | None => (msg_Hash ethMsg, msg_GetGas ethMsg, failed, position)
    | Some txs =>
        match GetTxByMsgIndex txs (Z.of_nat msgIndex) with
        | None => (msg_Hash ethMsg, msg_GetGas ethMsg, failed, position)
        | Some parsedTx =>
            (Hash_ parsedTx, GasUsed parsedTx, Failed parsedTx,
             if bool_decide (0 ≤ EthTxIndex parsedTx) then EthTxIndex parsedTx else position)
        end
    end.

Definition receipt_msg (b : Backend) (block : Block) (r : ResultBlockResults) (txResult : ExecTxResult)
    (parsedTxs : option ParsedTxs) (acc : rstate * Z) (m : nat * Msg) : res error (rstate * Z) :=
  let '(s, cumulative) := acc in
  match m with
  | (_, OtherMsg _) => Ok (s, cumulative)
  | (msgIndex, EthMsg ethMsg) =>
      match msg_AsTransaction ethMsg with
      | None => Err (Errorf "failed to unpack tx data")
      | Some txData =>
          let '(txHash, txGasUsed, txFailed, txPosition) :=
            receipt_msg_result txResult parsedTxs msgIndex ethMsg (Z.of_nat (length (rs_receipts s))) in
          let cumulative := uint64 (cumulative + txGasUsed) in
          let status := if txFailed then ReceiptStatusFailed else ReceiptStatusSuccessful in
          let! from := lib (msg_GetSenderLegacy ethMsg (LatestSignerForChainID (ChainID b))) in
          let! logs := live_evm_logs txResult msgIndex (uint64 (br_Height r)) in
          let! loaded :=
            match rs_baseFee s with
            | Some fee => Ok (Some fee)
            | None => if bool_decide (tx_Type txData = DynamicFeeTxType) then
                        let! fee := or_nil (BaseFee b (Some r)) in Ok (Some fee)
                      else Ok None
            end in
          let receipt := ethReceiptMap status (uint64 (rs_gas s + cumulative)) txGasUsed logs txHash
            (Hash_Hex (BytesToHash (blk_Hash block))) (uint64 (blk_Height block)) (uint64 txPosition) txData
            (default None loaded) from in
          Ok (mkR (rs_receipts s ++ [receipt]) (rs_gas s) loaded, cumulative)
      end
  end.

(** One transaction; the outer [option] is the break when the results are too
    short. *)
Definition receipt_tx (b : Backend) (block : Block) (r : ResultBlockResults) (results : list (option ExecTxResult))
    (s : rstate) (txIndex : nat) (txBz : bytes) : res error (option rstate) :=
  match results !! txIndex with
  | None => Ok None
  | Some None => Ok (Some s)
  | Some (Some txResult) =>
      let add_gas s := mkR (rs_receipts s) (uint64 (rs_gas s + uint64 (res_GasUsed txResult))) (rs_baseFee s) in
      match TxDecoder txBz with
      | Panic p => Panic p
      | Err _ => Ok (Some (add_gas s))
      | Ok tx =>
          let! parsedTxs := parsed_or_nil (ParseTxResult txResult (Some tx)) in
          let! (s, _) := res_foldl (receipt_msg b block r txResult parsedTxs) (s, 0) (imap pair (GetMsgs tx)) in
          Ok (Some (add_gas s))
      end
  end.

Fixpoint receipt_txs (b : Backend) (block : Block) (r : ResultBlockResults) (results : list (option ExecTxResult))
    (s : rstate) (txIndex : nat) (txs : list bytes) : res error rstate :=
  match txs with
  | [] => Ok s
  | txBz :: txs =>
      let! next := receipt_tx b block r results s txIndex txBz in
      match next with
      | None => Ok s
      | Some s => receipt_txs b block r results s (S txIndex) txs
      end
  end.

(** A nil slice is returned when the results cannot be fetched. *)
Definition liveBlockReceipts (b : Backend) (resBlock : option ResultBlock) :
    res error (option (list (gmap string Value))) :=
  match resBlock ≫= rb_Block with
  | None => Ok None
  | Some block =>
      let! blockRes := or_nil (TendermintBlockResultByNumber b (blk_Height block)) in
      match blockRes with
      | None => Ok None
      | Some r =>
          if virtualizationEnabled b then
            let! view := liveVirtualBlockView b resBlock (Some r) in Ok (Some (Receipts view))
          else
            let! results :=
              match NormalizeTxResponseIndexes (br_TxResults r) with
              | Ok results => Ok results
              | Err _ => Ok (br_TxResults r)
              | Panic p => Panic p
              end in
            let! s := receipt_txs b block r results (mkR [] 0 None) 0 (blk_Txs block) in
            Ok (Some (rs_receipts s))
      end
  end.
End ops.
End BackendLive.
