(* ===== verification/BackendBlocks.v ===== *)
(** * The RPC backend: blocks and headers

    src/internal/evm/rpc/backend/blocks.go: blocks by number and by hash, from
    the index when the cached block may be served and from the node otherwise,
    transaction counts, headers and block references. *)

From Stdlib Require Import Ascii String.
From S2P Require Import Prelude Bytes Instances GoLib EthTypes EthInstances Keys ParsedTx Normalize.
From S2P Require Import Virtual VirtualBank VirtualIbc VirtualResponse RpcUtils Cached Codec Indexer.
From S2P Require Import RpcTypes Backend BackendLive.
From stdpp Require Import strings list.
#[local] Open Scope Z_scope.

Module BackendBlocks.
Import GoLib EthTypes Keys ParsedTx Normalize Virtual RpcUtils Cached Codec RpcTypes Backend BackendLive.

Section ops.
Context {EL : EthLib} {CL : ChainLib} {LJ : LogJSON} {PB : Proto} {BL : Bank.BankLib} {IL : Ibc.IbcLib} {BB : BackendLib}.
Context (IBCHookCallerAddressHex : string).

(** ** Cached blocks *)

(** One transaction of a cached block: the checks on the stored object. *)
Definition cached_tx (ix : IndexReader) (meta : CachedBlockMeta) (fullTx : bool) (t : nat * Hash) : res error BlockTx :=
  let '(idx, hash) := t in
  if bool_decide (hash = zero_hash) then Err (Errorf "cached block tx hash missing for height %d")
  else if negb fullTx then Ok (TxHash_ hash)
  else
    let! rpcTx := ir_GetRPCTransactionByHash ix hash in
    if bool_decide (t_BlockHash rpcTx ≠ Some (HexToHash (m_Hash meta))) then
      Err (Errorf "cached block tx has invalid block hash for height %d hash %s")
    else if bool_decide (int64 <$> t_BlockNumber rpcTx ≠ Some (m_Height meta)) then
      Err (Errorf "cached block tx has invalid block number for height %d hash %s")
    else match t_TransactionIndex rpcTx with
         | None => Err (Errorf "cached block tx has nil transaction index for height %d hash %s")
         | Some index =>
             if bool_decide (index ≠ Z.of_nat idx) then
               Err (Errorf "cached block tx has unexpected transaction index for height %d hash %s: expected %d got %d")
             else Ok (TxObject rpcTx)
         end.

Definition cachedBlockTransactions (b : Backend) (meta : CachedBlockMeta) (fullTx : bool) : res error (list BlockTx) :=
  if bool_decide (m_EthTxCount meta < 0) then
    Err (Errorf "cached block meta has invalid eth tx count for height %d: %d")
  else if bool_decide (m_EthTxCount meta = 0) then Ok []
  else match indexer b with
       | None => Err (Errorf "cached block transactions unavailable without indexer for height %d")
       | Some ix =>
           let! hashes := ir_GetRPCTransactionHashesByBlockHeight ix (m_Height meta) in
           if bool_decide (Z.of_nat (length hashes) ≠ m_EthTxCount meta) then
             Err (Errorf "cached block tx count mismatch at height %d: expected %d got %d")
           else res_mapM (cached_tx ix meta fullTx) (imap pair hashes)
       end.

Definition rpcBlockFromCachedMeta (b : Backend) (meta : CachedBlockMeta) (fullTx : bool) :
    res error (gmap string BlockValue) :=
  let! _ := ValidateCachedBlockMeta (Some meta) in
  let! transactions := cachedBlockTransactions b meta fullTx in
  let bloom := if bool_decide (m_Bloom meta ≠ ""%string) then BytesToBloom (FromHex (m_Bloom meta)) else zero_bloom in
  let hasTransactions := match transactions with [] => false | _ => true end in
  let block : gmap string BlockValue := list_to_map [
    ("number"%string, BUint64 (uint64 (m_Height meta)));
    ("hash"%string, BBytes (HexToHash (m_Hash meta)));
    ("parentHash"%string, BHash (HexToHash (m_ParentHash meta)));
    ("nonce"%string, BNonce);
    ("sha3Uncles"%string, BHash EmptyUncleHash);
    ("logsBloom"%string, BBloom bloom);
    ("stateRoot"%string, BBytes (CachedStateRoot (Some meta)));
    ("miner"%string, BAddress (CachedMiner (Some meta)));
    ("mixHash"%string, BHash zero_hash);
    ("difficulty"%string, BBig 0);
    ("extraData"%string, BString "0x");
    ("size"%string, BUint64 (m_Size meta));
    ("gasLimit"%string, BUint64 (m_GasLimit meta));
    ("gasUsed"%string, BBig (m_GasUsed meta));
    ("timestamp"%string, BUint64 (uint64 (m_Timestamp meta)));
    ("transactionsRoot"%string, BHash (CachedTransactionsRoot (Some meta) hasTransactions));
    ("receiptsRoot"%string, BHash EmptyRootHash);
    ("uncles"%string, BUncles);
    ("transactions"%string, BTransactions transactions);
    ("totalDifficulty"%string, BBig 0)] in
  if bool_decide (m_BaseFee meta ≠ ""%string) then
    let! baseFee := Indexer.wrap "cached block meta has invalid base fee for height %d" (hexutil_DecodeBig (m_BaseFee meta)) in
    Ok (<["baseFeePerGas"%string := BBig baseFee]> block)
  else Ok block.

(** ** Blocks *)

(** The cache-first part of GetBlockByNumber and GetBlockByHash: [Some r] is
    the answer, [None] asks the node. [cacheOnly] forbids the node. *)
Definition cached_block (b : Backend) (lookup : res error (option CachedBlockMeta)) (cacheOnly fullTx : bool) :
    res error (option (option (gmap string BlockValue))) :=
  match lookup with
  | Panic p => Panic p
  | Ok (Some meta) =>
      if cachedMetaMatchesVirtualization b (Some meta) then
        match rpcBlockFromCachedMeta b meta fullTx with
        | Ok block => Ok (Some (Some block))
        | Err cacheErr => if cacheOnly then Err cacheErr else Ok None
        | Panic p => Panic p
        end
      else if cacheOnly then Err (Errorf "cached block virtualization mode mismatch at height %d")
      else Ok None
  | Ok None => if cacheOnly then Ok (Some None) else Ok None
  | Err err =>
      if negb (isIndexerCacheMiss err) then if cacheOnly then Err err else Ok None
      else if cacheOnly then Ok (Some None) else Ok None
  end.

(** The block of a non-nil reference; its results, nil when they cannot be
    fetched. *)
Definition block_of (resBlock : ResultBlock) : res error Block := deref (rb_Block resBlock).

Definition live_block (b : Backend) (resBlock : ResultBlock) (fullTx : bool) : res error (option (gmap string BlockValue)) :=
  let! block := block_of resBlock in
  match TendermintBlockResultByNumber b (blk_Height block) with
  | Err _ => Ok None
  | Panic p => Panic p
  | Ok blockRes =>
      let! r := RPCBlockFromTendermintBlock IBCHookCallerAddressHex b (Some resBlock) blockRes fullTx in Ok (Some r)
  end.

Definition GetBlockByNumber (b : Backend) (blockNum : Z) (fullTx : bool) : res error (option (gmap string BlockValue)) :=
  let! cached := cached_block b (cachedBlockMetaByNumber b blockNum)
                   (OfflineRPCOnly (cfg b) || cacheOnlyDynamicBlockNumber b blockNum) fullTx in
  match cached with
  | Some answer => Ok answer
  | None =>
      let! resBlock := or_nil (TendermintBlockByNumber b blockNum) in
      match resBlock with
      | None => Ok None
      | Some rb => match rb_Block rb with None => Ok None | Some _ => live_block b rb fullTx end
      end
  end.

Definition GetBlockByHash (b : Backend) (hash : Hash) (fullTx : bool) : res error (option (gmap string BlockValue)) :=
  let! cached := cached_block b (cachedBlockMetaByHash b hash) (OfflineRPCOnly (cfg b)) fullTx in
  match cached with
  | Some answer => Ok answer
  | None =>
      let! resBlock := TendermintBlockByHash b hash in
      match resBlock with
      | None => Ok None
      | Some rb => live_block b rb fullTx
      end
  end.

(** ** Transaction counts: nil when the block is not found *)

Definition GetBlockTransactionCount (resBlock : option ResultBlock) : res error (option Z) :=
  let! ethMsgs := EthMsgsFromTendermintBlock resBlock in Ok (Some (Z.of_nat (length ethMsgs))).

Definition cached_count (b : Backend) (lookup : res error (option CachedBlockMeta)) : res error (option Z) :=
  match lookup with
  | Ok (Some meta) => if cachedMetaMatchesVirtualization b (Some meta) then Ok (Some (uint64 (m_EthTxCount meta))) else Ok None
  | Ok None | Err _ => Ok None
  | Panic p => Panic p
  end.

Definition live_count (b : Backend) (resBlock : option ResultBlock) : res error (option Z) :=
  match resBlock ≫= rb_Block with
  | None => Ok None
  | Some block =>
      if virtualizationEnabled b then
        match TendermintBlockResultByNumber b (blk_Height block) with
        | Err _ => Ok None
        | Panic p => Panic p
        | Ok blockRes =>
            match liveVirtualBlockView IBCHookCallerAddressHex b resBlock blockRes with
            | Ok view => Ok (Some (Z.of_nat (length (Transactions view))))
            | Err _ => Ok None
            | Panic p => Panic p
            end
        end
      else GetBlockTransactionCount resBlock
  end.

Definition GetBlockTransactionCountByHash (b : Backend) (hash : Hash) : res error (option Z) :=
  let! cached := cached_count b (cachedBlockMetaByHash b hash) in
  match cached with
  | Some n => Ok (Some n)
  | None =>
      match client b with
      | None => Ok None
      | Some c =>
          match cl_BlockByHash c hash with
          | Err _ => Ok None
          | Panic p => Panic p
          | Ok resBlock => live_count b resBlock
          end
      end
  end.

Definition GetBlockTransactionCountByNumber (b : Backend) (blockNum : Z) : res error (option Z) :=
  let! cached := cached_count b (cachedBlockMetaByNumber b blockNum) in
  match cached with
  | Some n => Ok (Some n)
  | None => let! resBlock := or_nil (TendermintBlockByNumber b blockNum) in live_count b resBlock
  end.

(** ** Block references *)

Definition BlockNumberFromTendermintByHash (b : Backend) (blockHash : Hash) : res error Z :=
  let live :=
    if OfflineRPCOnly (cfg b) then Err (Errorf "block not found for hash %s")
    else
      let! resBlock := TendermintBlockByHash b blockHash in
      match resBlock with
      | None => Err (Errorf "block not found for hash %s")
      | Some rb => let! block := block_of rb in Ok (blk_Height block)
      end in
  match cachedBlockMetaByHash b blockHash with
  | Ok (Some meta) => Ok (m_Height meta)
  | Ok None => live
  | Err err => if negb (isIndexerCacheMiss err) && OfflineRPCOnly (cfg b) then Err err else live
  | Panic p => Panic p
  end.

Definition BlockNumberFromTendermint (b : Backend) (blockNrOrHash : BlockNumberOrHash) : res error Z :=
  match bnh_Hash blockNrOrHash, bnh_Number blockNrOrHash with
  | None, None => Err (Errorf "types BlockHash and BlockNumber cannot be both nil")
  | Some hash, _ => let! n := BlockNumberFromTendermintByHash b hash in Ok (NewBlockNumber n)
  | None, Some n => Ok n
  end.

(** ** Headers *)

Definition live_header (b : Backend) (resBlock : ResultBlock) : res error Header :=
  let! block := block_of resBlock in
  let! blockRes := res_map_err (λ _, Errorf "block result not found for height %d")
                     (TendermintBlockResultByNumber b (blk_Height block)) in
  let! bloom := bloom_or_zero IBCHookCallerAddressHex b blockRes in
  let! baseFee := or_nil (BaseFee b blockRes) in
  Ok (EthHeaderFromTendermint (block_header block) bloom baseFee).

(** The cached part of both header lookups: [None] asks the node. *)
Definition cached_header (b : Backend) (lookup : res error (option CachedBlockMeta)) (absent : error) :
    res error (option Header) :=
  match lookup with
  | Panic p => Panic p
  | Ok meta =>
      if cachedMetaMatchesVirtualization b meta then let! header := HeaderFromCachedBlockMeta meta in Ok (Some header)
      else if OfflineRPCOnly (cfg b) then Err absent else Ok None
  | Err err =>
      if OfflineRPCOnly (cfg b) then Err (if isIndexerCacheMiss err then absent else err) else Ok None
  end.

Definition HeaderByNumber (b : Backend) (blockNum : Z) : res error Header :=
  let! cached := cached_header b (cachedBlockMetaByNumber b blockNum) (Errorf "block not found for height %d") in
  match cached with
  | Some header => Ok header
  | None =>
      let! resBlock := TendermintBlockByNumber b blockNum in
      match resBlock with
      | None => Err (Errorf "block not found for height %d")
      | Some rb => live_header b rb
      end
  end.

Definition HeaderByHash (b : Backend) (blockHash : Hash) : res error Header :=
  let! cached := cached_header b (cachedBlockMetaByHash b blockHash) (Errorf "block not found for hash %s") in
  match cached with
  | Some header => Ok header
  | None =>
      let! resBlock := TendermintBlockByHash b blockHash in
      match resBlock with
      | None => Err (Errorf "block not found for hash %s")
      | Some rb => live_header b rb
      end
  end.

Definition CurrentHeader (b : Backend) : res error Header := HeaderByNumber b EthLatestBlockNumber.

Definition EthBlockByNumber (b : Backend) (blockNum : Z) : res error (Header * list (option Transaction)) :=
  let! resBlock := TendermintBlockByNumber b blockNum in
  match resBlock with
  | None => Err (Errorf "block not found for height %d")
  | Some rb =>
      let! block := block_of rb in
      let! blockRes := res_map_err (λ _, Errorf "block result not found for height %d")
                         (TendermintBlockResultByNumber b (blk_Height block)) in
      EthBlockFromTendermintBlock IBCHookCallerAddressHex b (Some rb) blockRes
  end.
End ops.
End BackendBlocks.
