(* ===== verification/BackendTx.v ===== *)
(** * The RPC backend: transactions and receipts

    src/internal/evm/rpc/backend/tx_info.go and block_receipts.go: transactions by
    hash and by position, receipts of a transaction and of a block.  Receipts read from
    the index pass through the materialized cache; every lookup counts hits, misses
    and live fallbacks in the sync status. *)

From Stdlib Require Import Ascii String.
From S2P Require Import Prelude Bytes Instances GoLib EthTypes EthInstances Keys Tracker ParsedTx Normalize.
From S2P Require Import Virtual VirtualBank VirtualIbc VirtualResponse RpcUtils Cached Codec Indexer.
From S2P Require Import RpcTypes Backend BackendLive BackendBlocks.
From stdpp Require Import strings list.
#[local] Open Scope Z_scope.

Module BackendTx.
Import GoLib EthTypes Keys ParsedTx Normalize Virtual RpcUtils Cached Codec RpcTypes Backend BackendLive BackendBlocks.
#[local] Open Scope backend_scope.

Section ops.
Context {EL : EthLib} {CL : ChainLib} {LJ : LogJSON} {PB : Proto} {BL : Bank.BankLib} {IL : Ibc.IbcLib} {BB : BackendLib}.
Context (IBCHookCallerAddressHex : string).
Context {RC LC : Type} `{!LRU Hash (gmap string Value) RC} `{!LRU Z (list (option RPCLog)) LC}.
Notation M := (Backend.M RC LC).

(** block.Block.Txs[i] and tx.GetMsgs()[i] *)
Definition at_index {A} (l : list A) (i : Z) : res error A :=
  if bool_decide (i < 0) then Panic "index out of range"
  else match l !! Z.to_nat i with Some a => Ok a | None => Panic "index out of range" end.

(** ** Lookups by the tx indexer *)

Definition queryTendermintTxIndexer (b : Backend) (query : string)
    (txGetter : ParsedTxs → res error (option ParsedTx)) : res error TxResult :=
  match client b with
  | None => Err (New "tendermint tx indexer unavailable without rpc client")
  | Some c =>
      let! resTxs := lib (cl_TxSearch c query) in
      match resTxs with
      | [] => Err (New "ethereum tx not found")
      | txResult :: _ =>
          let result := rt_TxResult (ft_Result txResult) in
          let! tx :=
            if TxSuccessOrExceedsBlockGasLimit result &&
               bool_decide (res_Code result ≠ CodeTypeOK ∧ res_Codespace result ≠ ModuleName) then
              match TxDecoder (ft_Tx txResult) with
              | Ok tx => Ok (Some tx)
              | Err _ => Err (Errorf "invalid ethereum tx")
              | Panic p => Panic p
              end
            else Ok None in
          ParseTxIndexerResult (ft_Result txResult) tx txGetter
      end
  end.

Definition hash_query (hash : Hash) : string :=
  TypeMsgEthereumTx +:+ "." +:+ AttributeKeyEthereumTxHash +:+ "='" +:+ Hash_Hex hash +:+ "'".

Definition index_query (height index : Z) : string :=
  "tx.height=" +:+ strconv_Itoa height +:+ " AND " +:+ TypeMsgEthereumTx +:+ "." +:+ AttributeKeyTxIndex +:+ "=" +:+ strconv_Itoa index.

Definition GetTxByEthHash (b : Backend) (hash : Hash) : M TxResult :=
  let fallback :=
    count Tracker.RecordTxByHashLiveFallback ;;
    if OfflineRPCOnly (cfg b) then lift (Err (New "ethereum tx not found in offline cache"))
    else lift (Indexer.wrap_err "GetTxByEthHash %s" (queryTendermintTxIndexer b (hash_query hash) (λ txs, GetTxByHash txs hash))) in
  match indexer b with
  | Some ix =>
      call (lift (ir_GetByTxHash ix hash))
        (λ res, count Tracker.RecordTxByHashCacheHit ;; ret res)
        (λ _, count Tracker.RecordTxByHashCacheMiss ;; fallback)
  | None => fallback
  end.

Definition GetTxByTxIndex (b : Backend) (height index : Z) : M TxResult :=
  let fallback :=
    count Tracker.RecordTxByIndexLiveFallback ;;
    if OfflineRPCOnly (cfg b) then lift (Err (New "ethereum tx not found in offline cache"))
    else lift (Indexer.wrap_err "GetTxByTxIndex %d %d" (queryTendermintTxIndexer b (index_query height index)
                 (λ txs, Ok (GetTxByTxIndex txs (int64 index))))) in
  match indexer b with
  | Some ix =>
      call (lift (ir_GetByBlockAndIndex ix height (int32 index)))
        (λ res, count Tracker.RecordTxByIndexCacheHit ;; ret res)
        (λ _, count Tracker.RecordTxByIndexCacheMiss ;; fallback)
  | None => fallback
  end.

Definition GetTxHashByEthHash (b : Backend) (ethHash : Hash) : M Hash :=
  do! res := GetTxByEthHash b ethHash in
  lift (let! block := Indexer.wrap_err "block not found" (TendermintBlockByNumber b (txr_Height res)) in
        match block with
        | None => Err (New "block not found")
        | Some rb => let! blk := block_of rb in let! tx := at_index (blk_Txs blk) (txr_TxIndex res) in Ok (Tx_Hash tx)
        end).

(** ** Transactions *)

(** The first pending transaction with this hash. *)
Fixpoint find_pending (b : Backend) (txHash : Hash) (txs : list sdk_Tx) : res error (option RPCTransaction) :=
  match txs with
  | [] => Ok None
  | tx :: txs =>
      match UnwrapEthereumMsg tx txHash with
      | Panic p => Panic p
      | Err _ => find_pending b txHash txs
      | Ok msg =>
          if bool_decide (msg_Hash msg = txHash) then
            let! rpctx := NewTransactionFromMsg msg zero_hash 0 0 None (Some (ChainID b)) in Ok (Some rpctx)
          else find_pending b txHash txs
      end
  end.

Definition getTransactionByHashPending (b : Backend) (txHash : Hash) : res error (option RPCTransaction) :=
  match PendingTransactions b with
  | Err _ => Ok None
  | Panic p => Panic p
  | Ok txs => find_pending b txHash txs
  end.

(** The position of the hash among the Ethereum messages, when the record has
    none. *)
Definition eth_tx_index (resBlock : ResultBlock) (tr : TxResult) (hash : Hash) : res error Z :=
  let! index :=
    if bool_decide (txr_EthTxIndex tr = -1) then
      let! msgs := EthMsgsFromTendermintBlock (Some resBlock) in
      Ok match list_find (λ m, msg_Hash m = hash) msgs with Some (i, _) => int32 (Z.of_nat i) | None => -1 end
    else Ok (txr_EthTxIndex tr) in
  if bool_decide (index = -1) then Err (New "can't find index of ethereum tx") else Ok index.

(** The message a tx result points to. *)
Definition eth_msg_at (block : Block) (tr : TxResult) : res error Msg :=
  let! txBz := at_index (blk_Txs block) (txr_TxIndex tr) in
  let! tx := lib (TxDecoder txBz) in
  at_index (GetMsgs tx) (txr_MsgIndex tr).

Definition live_transaction (b : Backend) (txHash : Hash) (tr : TxResult) : res error (option RPCTransaction) :=
  let! resBlock := TendermintBlockByNumber b (txr_Height tr) in
  match resBlock with
  | None => Ok None
  | Some rb =>
      let! block := block_of rb in
      let! msg := eth_msg_at block tr in
      match msg with
      | OtherMsg _ => Err (New "invalid ethereum tx")
      | EthMsg msg =>
          match TendermintBlockResultByNumber b (blk_Height block) with
          | Err _ => Ok None
          | Panic p => Panic p
          | Ok blockRes =>
              if virtualizationEnabled b then
                let! view := liveVirtualBlockView IBCHookCallerAddressHex b (Some rb) blockRes in
                Ok (snd <$> list_find (λ tx, t_Hash tx = txHash) (Transactions view))
              else
                let! index := eth_tx_index rb tr txHash in
                let! baseFee := or_nil (BaseFee b blockRes) in
                let! tx := NewTransactionFromMsg msg (BytesToHash (rb_BlockID_Hash rb)) (uint64 (txr_Height tr))
                             (uint64 index) baseFee (Some (ChainID b)) in
                Ok (Some tx)
          end
      end
  end.

(** The cache-first part: [Some answer], or [None] to go on. *)
Definition cached_transaction (b : Backend) (txHash : Hash) : M (option (option RPCTransaction)) :=
  match indexer b with
  | None => ret None
  | Some ix =>
      call (lift (ir_GetRPCTransactionByHash ix txHash))
        (λ rpcTx,
          do! visible := lift (cachedTransactionVisible b txHash) in
          if negb visible then ret (Some None)
          else
            do! matches := lift (cachedRPCTransactionMatchesVirtualization b rpcTx) in
            if negb matches then ret (if OfflineRPCOnly (cfg b) then Some None else None)
            else count Tracker.RecordTxByHashCacheHit ;; ret (Some (Some rpcTx)))
        (λ _, ret None)
  end.

Definition GetTransactionByHash (b : Backend) (txHash : Hash) : M (option RPCTransaction) :=
  do! cached := cached_transaction b txHash in
  match cached with
  | Some answer => ret answer
  | None =>
      call (GetTxByEthHash b txHash)
        (λ res, lift (live_transaction b txHash res))
        (λ _, if OfflineRPCOnly (cfg b) then ret None else lift (getTransactionByHashPending b txHash))
  end.

(** ** Transactions by position *)

(** Shared by the two lookups by position; it reads the index again, without
    looking at the virtualization mode. *)
Definition GetTransactionByBlockAndIndex (b : Backend) (resBlock : ResultBlock) (idx : Z) : M (option RPCTransaction) :=
  do! block := lift (block_of resBlock) in
  let live : M (option RPCTransaction) :=
    match TendermintBlockResultByNumber b (blk_Height block) with
    | Err _ => ret None
    | Panic p => lift (Panic p)
    | Ok blockRes =>
        if virtualizationEnabled b then
          do! view := lift (liveVirtualBlockView IBCHookCallerAddressHex b (Some resBlock) blockRes) in
          ret (if bool_decide (int64 idx < 0) then None else Transactions view !! Z.to_nat (int64 idx))
        else
          let answer (msg : MsgEthereumTx) : M (option RPCTransaction) :=
            lift (let! baseFee := or_nil (BaseFee b blockRes) in
                  let! tx := NewTransactionFromMsg msg (BytesToHash (blk_Hash block)) (uint64 (blk_Height block)) idx
                               baseFee (Some (ChainID b)) in
                  Ok (Some tx)) in
          call (GetTxByTxIndex b (blk_Height block) idx)
            (λ res,
              do! txBz := lift (at_index (blk_Txs block) (txr_TxIndex res)) in
              match TxDecoder txBz with
              | Err _ => ret None
              | Panic p => lift (Panic p)
              | Ok tx =>
                  do! msg := lift (at_index (GetMsgs tx) (txr_MsgIndex res)) in
                  match msg with EthMsg msg => answer msg | OtherMsg _ => ret None end
              end)
            (λ _,
              let i := if bool_decide (int64 idx < 0) then 0 else int64 idx in
              do! ethMsgs := lift (EthMsgsFromTendermintBlock (Some resBlock)) in
              match ethMsgs !! Z.to_nat i with
              | None => ret None
              | Some msg => answer msg
              end)
    end in
  match indexer b with
  | None => live
  | Some ix =>
      call (lift (ir_GetRPCTransactionByBlockAndIndex ix (blk_Height block) (int32 idx)))
        (λ rpcTx, count Tracker.RecordTxByIndexCacheHit ;; ret (Some rpcTx))
        (λ _, live)
  end.

(** The lookup in the index at a height whose mode matches; [go_on] asks the
    node. *)
Definition cached_at (b : Backend) (ix : IndexReader) (height idx : Z) (go_on : M (option RPCTransaction)) :
    M (option RPCTransaction) :=
  call (lift (ir_GetRPCTransactionByBlockAndIndex ix height (int32 idx)))
    (λ rpcTx, count Tracker.RecordTxByIndexCacheHit ;; ret (Some rpcTx))
    (λ err,
      count Tracker.RecordTxByIndexCacheMiss ;;
      if OfflineRPCOnly (cfg b) then if isIndexerCacheMiss err then ret None else lift (Err err)
      else go_on).

Definition GetTransactionByBlockHashAndIndex (b : Backend) (hash : Hash) (idx : Z) : M (option RPCTransaction) :=
  let live : M (option RPCTransaction) :=
    match client b with
    | None => lift (Err (New "invalid rpc client"))
    | Some c =>
        match cl_BlockByHash c hash with
        | Err _ => ret None
        | Panic p => lift (Panic p)
        | Ok block =>
            do! rb := lift (deref block) in
            match rb_Block rb with
            | None => ret None
            | Some _ => GetTransactionByBlockAndIndex b rb idx
            end
        end
    end in
  match indexer b with
  | None => live
  | Some ix =>
      call (lift (ir_GetBlockMetaByHash ix hash))
        (λ meta,
          if negb (cachedMetaMatchesVirtualization b (Some meta)) then
            if OfflineRPCOnly (cfg b) then lift (Err (Errorf "cached block virtualization mode mismatch at height %d"))
            else live
          else cached_at b ix (m_Height meta) idx live)
        (λ err, if OfflineRPCOnly (cfg b) then if isIndexerCacheMiss err then ret None else lift (Err err) else live)
  end.

Definition GetTransactionByBlockNumberAndIndex (b : Backend) (blockNum idx : Z) : M (option RPCTransaction) :=
  let live : M (option RPCTransaction) :=
    do! block := lift (TendermintBlockByNumber b blockNum) in
    match block with
    | None => ret None
    | Some rb => match rb_Block rb with None => ret None | Some _ => GetTransactionByBlockAndIndex b rb idx end
    end in
  match indexer b with
  | None => live
  | Some ix =>
      let refuse err := if OfflineRPCOnly (cfg b) then
                          if isIndexerCacheMiss err then ret None else lift (Err err)
                        else live in
      call (lift (indexedBlockHeight b blockNum))
        (λ height,
          if bool_decide (1 ≤ height) then
            let serve := cached_at b ix height idx live in
            call (lift (ir_GetBlockMetaByHeight ix height))
              (λ meta,
                if cachedMetaMatchesVirtualization b (Some meta) then serve
                else if OfflineRPCOnly (cfg b) then
                  lift (Err (Errorf "cached block virtualization mode mismatch at height %d"))
                else live)
              (λ _, serve)
          else if OfflineRPCOnly (cfg b) then ret None else live)
        refuse
  end.

(** ** Receipts *)

Definition materializedReceiptByHash (b : Backend) (hash : Hash) : M (gmap string Value) :=
  do! cached := getReceipt hash in
  match cached with
  | Some receipt => ret receipt
  | None =>
      do! ix := lift (deref (indexer b)) in
      do! receipt := lift (ir_GetReceiptByTxHash ix hash) in
      addReceipt hash receipt ;; ret receipt
  end.

Definition GetGasUsed (tr : TxResult) (gas : Z) : Z := txr_GasUsed tr.

(** blockRes.TxResults[0:n] with the gas of every result *)
Definition results_gas_before (results : list (option ExecTxResult)) (n : Z) : res error Z :=
  if bool_decide (0 ≤ n ≤ Z.of_nat (length results)) then
    res_foldl (λ gas r, let! r := deref r in Ok (uint64 (gas + uint64 (res_GasUsed r)))) 0 (take (Z.to_nat n) results)
  else Panic "slice bounds out of range".

Definition is_receipt_of (hash : Hash) (receipt : gmap string Value) : bool :=
  match receipt !! "transactionHash"%string with Some (VHash h) => bool_decide (h = hash) | _ => false end.

Definition live_receipt (b : Backend) (hash : Hash) (tr : TxResult) : res error (option (gmap string Value)) :=
  let! resBlock := TendermintBlockByNumber b (txr_Height tr) in
  match resBlock with
  | None => Ok None
  | Some rb =>
      let! block := block_of rb in
      let! txBz := at_index (blk_Txs block) (txr_TxIndex tr) in
      let! tx := Indexer.wrap "failed to decode tx" (TxDecoder txBz) in
      let! msg := at_index (GetMsgs tx) (txr_MsgIndex tr) in
      match msg with
      | OtherMsg _ => Panic "interface conversion"
      | EthMsg ethMsg =>
          match msg_AsTransaction ethMsg with
          | None => Ok None
          | Some txData =>
              match TendermintBlockResultByNumber b (txr_Height tr) with
              | Err _ => Ok None
              | Panic p => Panic p
              | Ok blockRes =>
                  if virtualizationEnabled b then
                    let! view := liveVirtualBlockView IBCHookCallerAddressHex b (Some rb) blockRes in
                    Ok (snd <$> list_find (λ receipt, is_receipt_of hash receipt = true) (Receipts view))
                  else
                    let! r := deref blockRes in
                    let! results := match NormalizeTxResponseIndexes (br_TxResults r) with
                                    | Ok results => Ok results
                                    | Err _ => Ok (br_TxResults r)
                                    | Panic p => Panic p
                                    end in
                    let! before := results_gas_before (br_TxResults r) (txr_TxIndex tr) in
                    let cumulativeGasUsed := uint64 (before + txr_CumulativeGasUsed tr) in
                    let status := if txr_Failed tr then ReceiptStatusFailed else ReceiptStatusSuccessful in
                    let! from := lib (msg_GetSenderLegacy ethMsg (LatestSignerForChainID (ChainID b))) in
                    let! txResult := at_index results (txr_TxIndex tr) in
                    let! txResult := deref txResult in
                    let! logs := live_evm_logs txResult (Z.to_nat (txr_MsgIndex tr)) (uint64 (br_Height r)) in
                    let! index := eth_tx_index rb tr hash in
                    let! baseFee := if bool_decide (tx_Type txData = DynamicFeeTxType)
                                    then or_nil (BaseFee b blockRes) else Ok None in
                    Ok (Some (ethReceiptMap status cumulativeGasUsed (GetGasUsed tr (tx_Gas txData)) logs hash
                          (Hash_Hex (BytesToHash (blk_Hash block))) (uint64 (txr_Height tr)) (uint64 index) txData baseFee from))
              end
          end
      end
  end.

(** The cache-first part of GetTransactionReceipt: misses and mismatches are
    counted as live fallbacks. *)
Definition cached_receipt (b : Backend) (hash : Hash) : M (option (option (gmap string Value))) :=
  match indexer b with
  | None => ret None
  | Some ix =>
      let miss := count Tracker.RecordReceiptCacheMiss ;; count Tracker.RecordReceiptLiveFallback ;; ret None in
      call (materializedReceiptByHash b hash)
        (λ receipt,
          do! visible := lift (cachedTransactionVisible b hash) in
          if negb visible then ret (Some None)
          else
            do! matches := lift (cachedReceiptMatchesVirtualization b receipt) in
            if negb matches then if OfflineRPCOnly (cfg b) then ret (Some None) else miss
            else count Tracker.RecordReceiptCacheHit ;; ret (Some (Some receipt)))
        (λ _, miss)
  end.

Definition GetTransactionReceipt (b : Backend) (hash : Hash) : M (option (gmap string Value)) :=
  do! cached := cached_receipt b hash in
  match cached with
  | Some answer => ret answer
  | None => call (GetTxByEthHash b hash) (λ res, lift (live_receipt b hash res)) (λ _, ret None)
  end.

(** ** Receipts of a block *)

Fixpoint receipts_of (b : Backend) (hashes : list Hash) : M (list (gmap string Value)) :=
  match hashes with
  | [] => ret []
  | hash :: hashes =>
      if bool_decide (hash = zero_hash) then lift (Err (Errorf "cached block tx hash missing for height %d"))
      else
        do! receipt := materializedReceiptByHash b hash in
        do! receipts := receipts_of b hashes in
        ret (receipt :: receipts)
  end.

Definition cachedBlockReceipts (b : Backend) (blockNrOrHash : BlockNumberOrHash) : M (option (list (gmap string Value))) :=
  do! meta := lift match bnh_Hash blockNrOrHash, bnh_Number blockNrOrHash with
                   | Some hash, _ => cachedBlockMetaByHash b hash
                   | None, Some number => cachedBlockMetaByNumber b number
                   | None, None => Err (Errorf "types BlockHash and BlockNumber cannot be both nil")
                   end in
  match meta with
  | None => ret None
  | Some meta =>
      if negb (cachedMetaMatchesVirtualization b (Some meta)) then lift (Err (Sentinel Indexer.ErrCacheMiss))
      else
        do! _ := lift (ValidateCachedBlockMeta (Some meta)) in
        if bool_decide (m_EthTxCount meta = 0) then ret (Some [])
        else match indexer b with
             | None => lift (Err (Errorf "cached block receipts unavailable without indexer for height %d"))
             | Some ix =>
                 do! hashes := lift (ir_GetRPCTransactionHashesByBlockHeight ix (m_Height meta)) in
                 if bool_decide (Z.of_nat (length hashes) ≠ m_EthTxCount meta) then
                   lift (Err (Errorf "cached block receipt count mismatch at height %d: expected %d got %d"))
                 else do! receipts := receipts_of b hashes in ret (Some receipts)
             end
  end.

Definition liveReceiptsBlock (b : Backend) (blockNrOrHash : BlockNumberOrHash) : res error (option ResultBlock) :=
  match bnh_Hash blockNrOrHash, bnh_Number blockNrOrHash with
  | Some hash, _ => TendermintBlockByHash b hash
  | None, Some number => TendermintBlockByNumber b number
  | None, None => Err (Errorf "types BlockHash and BlockNumber cannot be both nil")
  end.

Definition GetBlockReceipts (b : Backend) (blockNrOrHash : BlockNumberOrHash) : M (option (list (gmap string Value))) :=
  let live : M (option (list (gmap string Value))) :=
    if OfflineRPCOnly (cfg b) then ret None
    else lift (let! resBlock := liveReceiptsBlock b blockNrOrHash in
               match resBlock ≫= rb_Block with
               | None => Ok None
               | Some _ => liveBlockReceipts IBCHookCallerAddressHex b resBlock
               end) in
  match bnh_Hash blockNrOrHash, bnh_Number blockNrOrHash with
  | Some _, Some _ => lift (Err (Errorf "types BlockHash and BlockNumber cannot be both set"))
  | None, None => lift (Err (Errorf "types BlockHash and BlockNumber cannot be both nil"))
  | _, _ =>
      match indexer b with
      | None => live
      | Some _ =>
          call (cachedBlockReceipts b blockNrOrHash)
            (λ receipts, match receipts with Some receipts => ret (Some receipts) | None => live end)
            (λ err, if negb (isIndexerCacheMiss err) && OfflineRPCOnly (cfg b) then lift (Err err) else live)
      end
  end.
End ops.
End BackendTx.
