(* ===== verification/BackendLogs.v ===== *)
(** * The RPC backend: logs

    src/internal/evm/rpc/backend/filters.go: the logs of a block, filtered or
    not, from the index, the materialized cache or the node. *)

From Stdlib Require Import Ascii String.
From S2P Require Import Prelude Bytes Instances GoLib EthTypes EthInstances Keys Tracker ParsedTx Normalize.
From S2P Require Import Virtual VirtualBank VirtualIbc VirtualResponse RpcUtils Cached Codec Indexer.
From S2P Require Import RpcTypes Backend BackendLive BackendBlocks.
From stdpp Require Import strings list.
#[local] Open Scope Z_scope.

Module BackendLogs.
Import GoLib EthTypes Keys ParsedTx Normalize Virtual RpcUtils Cached Codec RpcTypes Backend BackendLive BackendBlocks.
#[local] Open Scope backend_scope.

(** No address and no topic is asked for, whatever the number of positions. *)
Definition broadLogFilter (addresses : list Address) (topics : list (list Hash)) : bool :=
  match addresses with
  | [] => forallb (λ group, match group with [] => true | _ => false end) topics
  | _ => false
  end.

Definition filterGroupedLogs (logsList : list (list (option RPCLog))) (addresses : list Address)
    (topics : list (list Hash)) : list (option RPCLog) :=
  filter (λ log, LogMatches log addresses topics = true) (mjoin logsList).

Section ops.
Context {EL : EthLib} {CL : ChainLib} {LJ : LogJSON} {PB : Proto} {BL : Bank.BankLib} {IL : Ibc.IbcLib} {BB : BackendLib}.
Context (IBCHookCallerAddressHex : string).
Context {RC LC : Type} `{!LRU Hash (gmap string Value) RC} `{!LRU Z (list (option RPCLog)) LC}.
Notation M := (Backend.M RC LC).

Definition logs_missed : M unit :=
  count Tracker.RecordBlockLogsCacheMiss ;; count Tracker.RecordBlockLogsLiveFallback.

(** The pattern of the four lookups: the metadata decides whether the index
    may answer; otherwise [live] does. *)
Definition cached_logs {A} (b : Backend) (meta : IndexReader → res error CachedBlockMeta)
    (read : IndexReader → CachedBlockMeta → M A → M A) (live : M A) : M A :=
  match indexer b with
  | None => live
  | Some ix =>
      call (lift (meta ix))
        (λ meta,
          if cachedMetaMatchesVirtualization b (Some meta) then read ix meta live
          else if OfflineRPCOnly (cfg b) then lift (Err (Errorf "cached block virtualization mode mismatch at height %d"))
          else logs_missed ;; live)
        (λ _, live)
  end.

(** Read the index; an error is counted and falls through. *)
Definition read_logs {A} (read : res error A) (live : M A) : M A :=
  call (lift read)
    (λ logs, count Tracker.RecordBlockLogsCacheHit ;; ret logs)
    (λ _, logs_missed ;; live).

(** Broad filters go through the materialized cache. *)
Definition read_filtered (addresses : list Address) (topics : list (list Hash)) (height : Z)
    (read : res error (list (option RPCLog))) (live : M (list (option RPCLog))) : M (list (option RPCLog)) :=
  if broadLogFilter addresses topics then
    do! cached := getBlockLogs height in
    match cached with
    | Some logs => count Tracker.RecordBlockLogsCacheHit ;; ret logs
    | None =>
        call (lift read)
          (λ logs, addBlockLogs height logs ;; count Tracker.RecordBlockLogsCacheHit ;; ret logs)
          (λ _, logs_missed ;; live)
    end
  else read_logs read live.

Definition GetLogsByHeight (b : Backend) (height : Z) : M (list (list (option RPCLog))) :=
  cached_logs b (λ ix, ir_GetBlockMetaByHeight ix height)
    (λ ix _ live, read_logs (ir_GetLogsByBlockHeight ix height) live)
    (lift (let! blockRes := TendermintBlockResultByNumber b height in
           if virtualizationEnabled b then
             let! resBlock := TendermintBlockByNumber b height in
             match resBlock ≫= rb_Block with
             | None => Err (Errorf "block not found for height %d")
             | Some _ =>
                 let! view := liveVirtualBlockView IBCHookCallerAddressHex b resBlock blockRes in Ok (Logs view)
             end
           else GetLogsFromBlockResults blockRes)).

Definition GetLogs (b : Backend) (hash : Hash) : M (list (list (option RPCLog))) :=
  cached_logs b (λ ix, ir_GetBlockMetaByHash ix hash)
    (λ ix _ live, read_logs (ir_GetLogsByBlockHash ix hash) live)
    (do! height := lift (let! resBlock := TendermintBlockByHash b hash in
                         match resBlock with
                         | None => Err (Errorf "block not found for hash %s")
                         | Some rb => let! block := block_of rb in Ok (blk_Height block)
                         end) in
     GetLogsByHeight b height).

Definition GetFilteredLogsByHeight (b : Backend) (height : Z) (addresses : list Address) (topics : list (list Hash)) :
    M (list (option RPCLog)) :=
  cached_logs b (λ ix, ir_GetBlockMetaByHeight ix height)
    (λ ix _ live, read_filtered addresses topics height (ir_GetFilteredLogsByBlockHeight ix height addresses topics) live)
    (do! logsList := GetLogsByHeight b height in ret (filterGroupedLogs logsList addresses topics)).

Definition GetFilteredLogs (b : Backend) (hash : Hash) (addresses : list Address) (topics : list (list Hash)) :
    M (list (option RPCLog)) :=
  cached_logs b (λ ix, ir_GetBlockMetaByHash ix hash)
    (λ ix meta live,
       read_filtered addresses topics (m_Height meta) (ir_GetFilteredLogsByBlockHash ix hash addresses topics) live)
    (do! logsList := GetLogs b hash in ret (filterGroupedLogs logsList addresses topics)).

Definition GetBlockBloomByHeight (b : Backend) (height : Z) : res error bytes :=
  let! cached := cached_bloom b height in
  match cached with
  | Some bloom => Ok bloom
  | None =>
      let! blockRes := TendermintBlockResultByNumber b height in
      match blockRes with
      | None => Err (Errorf "block result not found for height %d")
      | Some _ => BlockBloom IBCHookCallerAddressHex b blockRes
      end
  end.
End ops.

End BackendLogs.
