(* ===== verification/BackendSample.v ===== *)
(** * A concrete backend

    A bounded cache with least-recently-used eviction as an instance of the
    LRU interface, and a backend over the concrete block of IndexerSample. *)

From Stdlib Require Import Ascii String.
From S2P Require Import Prelude Ranges Bytes Instances GoLib EthTypes EthInstances Keys Tracker ParsedTx.
From S2P Require Import Normalize Virtual VirtualBank VirtualIbc VirtualResponse RpcUtils Cached Codec.
From S2P Require Import CodecInstances Indexer IndexerQuery IndexerStore IndexerLoop IndexerSample.
From S2P Require Import RpcTypes Backend.
From stdpp Require Import strings list.
#[local] Open Scope Z_scope.

Module BackendSample.
Import GoLib EthTypes EthInstances Keys ParsedTx Virtual Codec CodecInstances Indexer IndexerStore IndexerSample Backend.

(** ** Least recently used entries are dropped *)

Section lru.
Context {K V : Type} `{EqDecision K}.

Record lru_cache := mkLRU { capacity : nat; entries : list (K * V) }.

Fixpoint entry (k : K) (l : list (K * V)) : option V :=
  match l with
  | [] => None
  | (k', v) :: l => if bool_decide (k' = k) then Some v else entry k l
  end.

Definition without (k : K) (l : list (K * V)) : list (K * V) := filter (λ e, e.1 ≠ k) l.

#[export] Instance list_LRU : LRU K V lru_cache := {|
  lru_New n := if bool_decide (n ≤ 0) then Err "must provide a positive size"%string else Ok (mkLRU (Z.to_nat n) []);
  lru_Get c k :=
    match entry k (entries c) with
    | Some v => (Some v, mkLRU (capacity c) ((k, v) :: without k (entries c)))
    | None => (None, c)
    end;
  lru_Add c k v := mkLRU (capacity c) (take (capacity c) ((k, v) :: without k (entries c)));
|}.

Lemma entry_without k k' l : k' ≠ k → entry k' (without k l) = entry k' l.
Proof.
  intros Hne. induction l as [|[a v] l IH]; [done|]. unfold without. rewrite filter_cons. cbn.
  case_decide as Ha; cbn; repeat case_bool_decide; subst; try done.
Qed.

Lemma entry_take k n l v : entry k (take n l) = Some v → entry k l = Some v.
Proof.
  revert n. induction l as [|[a w] l IH]; intros [|n]; cbn; try done. case_bool_decide; [done|]. apply IH.
Qed.

#[export] Instance list_LRULaws : LRULaws K V lru_cache.
Proof.
  refine {| lru_view c k := entry k (entries c) |}.
  - intros n c k. cbn. case_bool_decide; [done|]. by intros [= <-].
  - intros c k. cbn. by destruct (entry k (entries c)).
  - intros c k k'. cbn. destruct (entry k (entries c)) as [v|] eqn:E; cbn; [|done].
    case_bool_decide as Hk; subst; [done|]. by rewrite entry_without.
  - intros c k v k' v'. cbn. intros H%entry_take. cbn in H. case_bool_decide as Hk.
    + left. subst. by injection H as <-.
    + right. rewrite entry_without in H by congruence. auto.
Defined.
End lru.
#[global] Arguments lru_cache : clear implicits.

(** ** The backend *)

#[export] Instance sample_ChainLibLaws : ChainLibLaws := model_ChainLibLaws _ _.

#[export] Instance sample_BackendLib : BackendLib := {|
  EventTypeBlockBloom := "block_bloom";
  AttributeKeyEthereumBloom := "bloom";
  TypeMsgEthereumTx := "ethereum_tx";
  DecodeTxLogs _ _ := Ok [];
  ConsAddress_String _ := "injvalcons1";
  AccAddressFromBech32 _ := Ok (be_bytes 20 5);
  UnwrapEthereumMsg tx hash :=
    match GetMsgs tx with
    | [EthMsg m] => if bool_decide (msg_Hash m = hash) then Ok m else Err "eth tx not found"%string
    | _ => Err "eth tx not found"%string
    end;
  BloomLookup := model_BloomLookup;
|}.

Definition sample_config : Config := mkConfig false true 0 100 10 1000 100.

Definition silent_queries : QueryClient :=
  mkQueryClient (Err "unavailable"%string) (λ _, Err "unavailable"%string) (λ _ _, Err "unavailable"%string)
    (Err "unavailable"%string).

(** The node has the sample block only. *)
Definition sample_client : Client :=
  mkClient (λ h, if bool_decide (h = 12) then Ok (Some (mkResultBlock (be_bytes 32 1000) (Some sample_block))) else Err "not found"%string)
    (λ x, Ok (if bool_decide (x = be_bytes 32 1000) then Some (mkResultBlock (be_bytes 32 1000) (Some sample_block)) else None))
    (λ h, if bool_decide (h = 12) then Ok (Some sample_results) else Err "not found"%string)
    (λ _, Ok []) (Ok []) (λ _, Ok 50000000) (Ok (mkSyncInfo false 1 12)).

Definition sample_backend : Backend :=
  mkBackend sample_config (Some 1776) (Some sample_client) silent_queries (Some (kv_reader sample_store)).
End BackendSample.
