(* ===== verification/BackendParity.v ===== *)
(** * Live and cached views agree

    A block that was indexed with virtualization is served from the index; the
    same block can be rebuilt from the node's answers by liveVirtualBlockView.  A
    simulation between the loop of IndexBlock and the loop of the live view shows
    that both give the same transactions, logs and receipts. *)

From Stdlib Require Import Ascii String.
From S2P Require Import Prelude Bytes Instances GoLib EthTypes EthInstances Keys ParsedTx Normalize.
From S2P Require Import Virtual VirtualBank VirtualIbc VirtualResponse RpcUtils Cached Codec CodecInstances.
From S2P Require Import CodecProps Indexer IndexerQuery IndexerStore IndexerLoop IndexerBatch IndexerSample IndexerProps.
From S2P Require Import RpcTypes Backend BackendLive BackendSample.
From stdpp Require Import strings list.
#[local] Open Scope Z_scope.

Module BackendParity.
Import GoLib EthTypes Keys ParsedTx Normalize Virtual RpcUtils Cached Codec CodecProps Indexer IndexerQuery IndexerStore IndexerLoop IndexerBatch Backend BackendLive.

(** Receipts agree field for field, except that the indexed one may have the
    failure texts in addition, which the live receipt of an Ethereum transaction lacks. *)
Definition same_receipt (live cached : gmap string Value) : Prop :=
  ∀ k, live !! k = cached !! k ∨ (k = "reason"%string ∨ k = "vmError"%string) ∧ live !! k = None.

Lemma same_receipt_field live cached k :
  same_receipt live cached → k ≠ "reason"%string → k ≠ "vmError"%string → live !! k = cached !! k.
Proof. intros H K1 K2. by destruct (H k) as [|[[|] _]]. Qed.

Definition prefixed (p : Z) (ops : batch) : batch := filter (λ op, head (op_key op) = Some p) ops.

Lemma prefixed_app p a b : prefixed p (a ++ b) = prefixed p a ++ prefixed p b.
Proof. apply filter_app. Qed.

Section receipts.
Context {EL : EthLib} {CL : ChainLib} {ELL : EthLibLaws} {CLL : ChainLibLaws}.

Lemma eth_receipt_parity status cum gas reason vmError logs x contract bh number index price from to ty :
  is_hash x → is_address from → (∀ a, to = Some a → is_address a) → (∀ a, contract = Some a → is_address a) →
  0 ≤ price < 2 ^ 256 →
  same_receipt (liveReceiptMap status cum gas logs x contract (Hash_Hex bh) number index price from to ty)
    (CachedReceipt_ToMap
       (buildCachedReceipt status cum gas reason vmError logs x contract bh number index price from to ty)).
Proof.
  intros Hx Hf Hto Hc Hp k.
  destruct (decide (k = "reason"%string ∨ k = "vmError"%string)) as [K|K].
  { right. split; [done|]. destruct K as [-> | ->]; unfold liveReceiptMap; destruct contract; reflexivity. }
  left. apply Decidable.not_or in K as [K1 K2]. unfold liveReceiptMap, CachedReceipt_ToMap, buildCachedReceipt.
  cbn [cr_Status cr_CumulativeGasUsed cr_GasUsed cr_Reason cr_VMError cr_LogsBloom cr_Logs cr_TransactionHash
       cr_ContractAddress cr_BlockHash cr_BlockNumber cr_TransactionIndex cr_EffectiveGasPrice cr_From cr_To cr_Type].
  rewrite FromHex_Encode by apply LogsBloom_wf.
  rewrite HexToHash_Hex, HexToAddress_Hex, DecodeBig_EncodeBig by done.
  rewrite (bool_decide_true (hexutil_EncodeBig price ≠ _)) by apply EncodeBig_nonempty.
  change (evmLogsBloom logs) with (LogsBloom (EthLogs logs)). unfold opt_string, to_value.
  assert (match to with Some a => HexToAddress (Address_Hex a) = a | None => True end) as Ha.
  { destruct to; [|done]. by apply HexToAddress_Hex, Hto. }
  assert (match contract with Some a => HexToAddress (Address_Hex a) = a | None => True end) as Hca.
  { destruct contract; [|done]. by apply HexToAddress_Hex, Hc. }
  cbn [list_to_map foldr fst snd].
  destruct to as [a|], contract as [c|]; cbn [fmap option_fmap option_map]; rewrite ?Ha, ?Hca;
    repeat case_bool_decide; rewrite !lookup_insert;
    repeat match goal with
    | |- context [decide (?i = k)] => destruct (decide (i = k)) as [<-|]; [first [reflexivity|congruence]|]
    end; reflexivity.
Qed.

Lemma built_receipt_wf status cum gas reason vmError logs x contract bh number index price from to ty :
  is_hash x → is_hash bh → is_address from → (∀ a, to = Some a → is_address a) → (∀ a, contract = Some a → is_address a) →
  0 ≤ price < 2 ^ 256 → wf_logs logs →
  wf_receipt (buildCachedReceipt status cum gas reason vmError logs x contract bh number index price from to ty).
Proof.
  intros Hx Hb Hf Hto Hc Hp Hl. destruct (LogsBloom_wf (EthLogs logs)) as [L1 L2].
  split; [done|]. split.
  { exists (evmLogsBloom logs). split; [done|]. split; [done|]. intros E. unfold evmLogsBloom in E. by rewrite E in L1. }
  split; [by exists x|]. split; [destruct contract as [a|]; cbn; [exists a; auto|done]|]. split; [by exists bh|].
  split; [by exists price|]. split; [by exists from|]. destruct to as [a|]; cbn; [exists a; auto|done].
Qed.
End receipts.

(** ** Synthetic transactions: the parties of a synthetic receipt are addresses *)

Section synthetic.
Context {EL : EthLib} {ELL : EthLibLaws} {CL : ChainLib} {BL : Bank.BankLib} {IL : Ibc.IbcLib}.
Context (caller : string).

(** What virtual_receipt_map needs, and the block of the receipt. *)
Definition virtual_wf (bh : Hash) (number : Z) (tx : Tx) : Prop :=
  (r_BlockHash (Receipt_ tx) = bh ∧ r_BlockNumber (Receipt_ tx) = number) ∧ t_Hash (Transaction_ tx) = r_TransactionHash (Receipt_ tx) ∧
  is_hash (r_TransactionHash (Receipt_ tx)) ∧ is_address (r_From (Receipt_ tx)) ∧
  (∀ a, r_To (Receipt_ tx) = Some a → is_address a) ∧ default 0 (r_EffectiveGasPrice (Receipt_ tx)) = 0.

Definition hook_wf (e : VirtualResponse.entry) : Prop :=
  ∀ h, VirtualResponse.e_hook e = Some h → is_address (Ibc.Contract h).

Lemma ParseEvent_hook_wf ev h : Ibc.ParseEvent ev = Ok (Some h) → is_address (Ibc.Contract h).
Proof.
  unfold Ibc.ParseEvent. destruct (Ibc.normalizeEvent ev) as [ev'|]; [|done].
  intros (mi & _ & H)%res_bind_ok. apply res_bind_ok in H as ([typed|] & _ & H); [|done].
  destruct (IsHexAddress _); [|done]. apply res_bind_ok in H as (logs & _ & [= <-]). apply HexToAddress_wf.
Qed.

Lemma parse_event_hook_wf ev e : VirtualResponse.parse_event ev = Ok (Some e) → hook_wf e.
Proof.
  unfold VirtualResponse.parse_event. intros ([es|] & _ & H)%res_bind_ok.
  - apply res_bind_ok in H as (logs & _ & [= <-]). by intros h.
  - apply res_bind_ok in H as ([h|] & Hh & H); [|done]. apply ParseEvent_hook_wf in Hh.
    apply res_bind_ok in H as (logs & _ & [= <-]). by intros h' [= <-].
Qed.

Lemma ParseResponse_hooks_wf r vr :
  VirtualResponse.ParseResponse (Some r) = Ok vr → Forall hook_wf (VirtualResponse.entries vr).
Proof.
  intros (es & He & [= <-])%res_bind_ok. cbn.
  refine (res_foldl_inv _ (Forall hook_wf) _ _ _ _ _ He); [|constructor].
  intros acc ev acc' Ha _ ([e|] & Hp & Hr)%res_bind_ok; injection Hr as <-; [|done].
  apply Forall_app_2; [done|]. apply Forall_singleton. by eapply parse_event_hook_wf.
Qed.

Lemma syntheticTx_wf r ctx es hook hash gas tx :
  is_hash hash → (∀ h, hook = Some h → is_address (Ibc.Contract h)) →
  VirtualResponse.syntheticTx caller r ctx es hook hash gas = Ok tx → virtual_wf (VirtualResponse.c_BlockHash ctx) (VirtualResponse.c_BlockNumber ctx) tx.
Proof.
  intros Hh Hk (logs & _ & H)%res_bind_ok. destruct hook as [h|]; injection H as <-.
  - refine (conj _ (conj _ (conj _ (conj _ (conj _ _))))); cbn; [done|done|done|apply HexToAddress_wf|by intros a [= <-]; apply Hk|done].
  - refine (conj _ (conj _ (conj _ (conj _ (conj _ _))))); cbn; [done|done|done|apply zero_address_wf|intros a [= <-]; apply HexToAddress_wf|done].
Qed.

Lemma hook_txs_wf r counts ctx prev ordinal hooks txs :
  Forall hook_wf hooks → VirtualResponse.hook_txs caller r counts ctx prev ordinal hooks = Ok txs →
  Forall (virtual_wf (VirtualResponse.c_BlockHash ctx) (VirtualResponse.c_BlockNumber ctx)) txs.
Proof.
  intros Hw. revert ctx prev ordinal txs. induction Hw as [|e hooks He _ IH]; intros ctx prev ordinal txs; cbn [VirtualResponse.hook_txs].
  - by intros [= <-].
  - intros (tx & Ht & (txs' & Hs%IH & [= <-])%res_bind_ok)%res_bind_ok. constructor; [|done].
    eapply syntheticTx_wf; [|exact He|exact Ht]. unfold VirtualResponse.hook_hash. case_bool_decide; apply Keccak256Hash_wf.
Qed.

Lemma SyntheticTxs_wf r ctx txs :
  Forall hook_wf (VirtualResponse.entries r) → VirtualResponse.SyntheticTxs caller r ctx = Ok txs →
  Forall (virtual_wf (VirtualResponse.c_BlockHash ctx) (VirtualResponse.c_BlockNumber ctx)) txs.
Proof.
  intros Hw. assert (Forall hook_wf (VirtualResponse.sort_hooks VirtualResponse.hook_index
    (VirtualResponse.hook_entries (VirtualResponse.selected r ctx)))) as Hs.
  { rewrite VirtualResponse.sort_hooks_perm. apply Forall_forall. intros e He. rewrite Forall_forall in Hw. apply Hw.
    unfold VirtualResponse.hook_entries, VirtualResponse.selected in He. apply list_elem_of_filter in He as [_ He]. by apply list_elem_of_filter in He as [_ He]. }
  assert (∀ r ctx es gas tx,
    VirtualResponse.syntheticTx caller r ctx es None (CosmosTxHash (VirtualResponse.c_Tx ctx)) gas = Ok tx → virtual_wf (VirtualResponse.c_BlockHash ctx) (VirtualResponse.c_BlockNumber ctx) tx) as Hb.
  { intros ????? Ht. refine (syntheticTx_wf _ _ _ None _ _ _ _ _ Ht); [apply Keccak256Hash_wf|by intros h ?]. }
  unfold VirtualResponse.SyntheticTxs. revert Hs.
  destruct (VirtualResponse.bank_entries _) as [|e es], (VirtualResponse.hook_entries _) as [|h hs]; intros Hs.
  - by intros [= <-].
  - by intros (counts & _ & ?%hook_txs_wf)%res_bind_ok.
  - intros (tx & Ht%Hb & [= <-])%res_bind_ok. by constructor.
  - intros (counts & _ & H)%res_bind_ok. apply res_bind_ok in H as (tx & Ht%Hb & H).
    apply res_bind_ok in H as (txs' & Ht'%hook_txs_wf & [= <-]); [|done]. by constructor.
Qed.

Lemma NewBlockTx_wf hash events ctx chain gas : is_hash hash → virtual_wf (ctx_BlockHash ctx) (ctx_BlockNumber ctx) (VirtualResponse.NewBlockTx hash events ctx chain gas).
Proof.
  intros Hh. refine (conj _ (conj _ (conj _ (conj _ (conj _ _))))); cbn; [done|done|done|apply zero_address_wf|intros a [= <-]; apply HexToAddress_wf|done].
Qed.
End synthetic.

(** ** The simulation *)

Section sim.
Context {D : Type} {DB : KVDB D} {DBL : KVDBLaws D} {SD : SDK} {EL : EthLib} {ELL : EthLibLaws}
        {CL : ChainLib} {CLL : ChainLibLaws} {LJ : LogJSON} {PB : Proto} {BL : Bank.BankLib} {IL : Ibc.IbcLib}
        {CP : CapnpLib} {LG : LegacyLib} {BB : BackendLib}.
Context (caller : string) (kv : KVIndexer) (d : D) (block : Block) (b : Backend.Backend) (dels : batch).
Context (Hv : Indexer.virtualizationEnabled kv = true) (Hchain : virtualChainID kv = Some (ChainID b)).
Context (Hblk : wf_bytes (blk_Hash block)).

Definition tx_record (tx : RPCTransaction) (op : batch_op) : Prop :=
  ∃ bz, op = OpSet (RPCtxHashKey (t_Hash tx)) bz ∧ mustMarshalRPCTransaction tx = Ok bz.

Definition receipt_record (p : RPCTransaction * gmap string Value) (op : batch_op) : Prop :=
  ∃ cr bz, op = OpSet (ReceiptKey (t_Hash p.1)) bz ∧ mustMarshalReceipt cr = Ok bz ∧
           same_receipt p.2 (CachedReceipt_ToMap cr) ∧ (wf_logs (cr_Logs cr) → wf_receipt cr).

(** A receipt carries the logs of its group and the number of the block. *)
Definition receipt_of_group (receipt : gmap string Value) (logs : list (option RPCLog)) : Prop :=
  receipt !! "logs"%string = Some (VLogs logs) ∧ receipt !! "blockNumber"%string = Some (VUint64 (live_number block)).

Lemma virtual_receipt_group tx :
  r_BlockNumber (Receipt_ tx) = live_number block → receipt_of_group (Receipt_ToMap (Receipt_ tx)) (r_Logs (Receipt_ tx)).
Proof. unfold receipt_of_group, Receipt_ToMap. intros <-. by repeat case_bool_decide. Qed.

Lemma live_receipt_group status cum gas logs x contract bh index price from to ty :
  receipt_of_group (liveReceiptMap status cum gas logs x contract bh (live_number block) index price from to ty) logs.
Proof. unfold receipt_of_group, liveReceiptMap. by destruct contract. Qed.

Record sim (s : index_state) (v : vstate) : Prop := mkSim {
  sim_logs : s_blockLogs s = Logs (v_view v);
  sim_hashes : s_hashes s = t_Hash <$> Transactions (v_view v);
  sim_logIndex : s_logIndex s = v_logIndex v;
  sim_gas : s_gasBefore s = v_gasBefore v;
  sim_rpc : s_rpcTxIndex s = int32 (Z.of_nat (length (s_hashes s)));
  sim_index : v_rpcTxIndex v = Z.of_nat (length (s_hashes s));
  sim_len : length (Receipts (v_view v)) = length (Transactions (v_view v));
  sim_groups : Forall2 receipt_of_group (Receipts (v_view v)) (Logs (v_view v));
  sim_txs : ∃ ops, prefixed KeyPrefixRPCtxHash (s_batch s) = prefixed KeyPrefixRPCtxHash dels ++ ops ∧
                   Forall2 tx_record (Transactions (v_view v)) ops;
  sim_receipts : ∃ ops, prefixed KeyPrefixReceipt (s_batch s) = prefixed KeyPrefixReceipt dels ++ ops ∧
                   Forall2 receipt_record (zip (Transactions (v_view v)) (Receipts (v_view v))) ops;
}.

Definition bounded (s : index_state) : Prop := Z.of_nat (length (s_hashes s)) < 2 ^ 31.

(** The index both sides give to the next transaction. *)
Lemma sim_position s v : sim s v → bounded s → uint64 (s_rpcTxIndex s) = v_rpcTxIndex v ∧ s_rpcTxIndex s = v_rpcTxIndex v ∧
  v_rpcTxIndex v = uint64 (v_rpcTxIndex v).
Proof.
  unfold bounded. intros Hs Hb. rewrite (sim_rpc _ _ Hs), (sim_index _ _ Hs), int32_small by (gate_ints; lia).
  rewrite uint64_small by (gate_ints; lia). done.
Qed.

(** One entry on both sides. *)
Lemma sim_push s v s' ops tx receipt logs logIndex top rop :
  sim s v → bounded s →
  s_batch s' = s_batch s ++ ops → s_hashes s' = s_hashes s ++ [t_Hash tx] → s_blockLogs s' = s_blockLogs s ++ [logs] →
  s_logIndex s' = logIndex → s_gasBefore s' = s_gasBefore s → s_rpcTxIndex s' = int32 (s_rpcTxIndex s + 1) →
  prefixed KeyPrefixRPCtxHash ops = [top] → tx_record tx top →
  prefixed KeyPrefixReceipt ops = [rop] → receipt_record (tx, receipt) rop → receipt_of_group receipt logs →
  sim s' (mkV (append_entry (v_view v) tx receipt logs) logIndex (uint64 (v_rpcTxIndex v + 1)) (v_gasBefore v)).
Proof.
  unfold bounded. intros [S1 S2 S3 S4 S5 S6 S7 S12 (o1 & S8 & S9) (o2 & S10 & S11)] Hb B1 B2 B3 B4 B5 B6 B7 B8 B9 B10 B11.
  constructor; cbn.
  - by rewrite B3, S1.
  - by rewrite B2, S2, fmap_app.
  - done.
  - by rewrite B5.
  - rewrite B6, B2, S5, int32_add_idemp, length_app. f_equal. simpl. lia.
  - rewrite B2, length_app. simpl. rewrite S6, uint64_small by (gate_ints; lia). lia.
  - by rewrite !length_app, S7.
  - apply Forall2_app; [done|]. by apply Forall2_cons; split.
  - exists (o1 ++ [top]). rewrite B1, prefixed_app, S8, B7, app_assoc. split; [done|].
    apply Forall2_app; [done|]. by repeat constructor.
  - exists (o2 ++ [rop]). rewrite B1, prefixed_app, S10, B9, app_assoc. split; [done|].
    rewrite zip_with_app by done. apply Forall2_app; [done|]. by repeat constructor.
Qed.

Lemma store_virtual_sim s v tx s' :
  sim s v → bounded s → virtual_wf (live_hash block) (live_number block) tx → store_virtual kv d block s tx = Ok s' → sim s' (append_virtual v tx).
Proof.
  intros Hs Hb ((W0 & Wn) & W1 & W2 & W3 & W4 & W5) H. unfold store_virtual, saveVirtualTx in H. cbv zeta in H.
  apply res_bind_ok in H as (b' & Hb' & [= <-]). unfold wrap_err in Hb'. rewrite res_map_err_ok in Hb'.
  apply res_bind_ok in Hb' as (rbz & Hr & Hb'). apply res_bind_ok in Hb' as (b1 & Hb1%batch_Set_ok & Hb').
  apply res_bind_ok in Hb' as (tbz & Ht & Hb'). emit. rewrite (sim_logIndex _ _ Hs). unfold append_virtual. rewrite Hv.
  set (x := t_Hash (Transaction_ tx)) in *.
  eapply (sim_push _ _ _ [OpSet (ReceiptKey x) rbz; OpSet (RPCtxHashKey x) tbz; OpSet (VirtualRPCtxKey x) [1];
     OpSet (RPCtxIndexKey (blk_Height block) (int32 (r_TransactionIndex (Receipt_ tx)))) x]); try done.
  - cbn. by rewrite <- !app_assoc.
  - by exists tbz.
  - exists (cachedVirtualReceipt (Receipt_ tx)), rbz. split; [done|]. split; [done|]. split.
    + intros k. left. cbn. by rewrite virtual_receipt_map.
    + apply built_receipt_wf; try done; by rewrite W0; apply BytesToHash_wf.
  - by apply virtual_receipt_group.
Qed.

(** The lists only grow. *)
Lemma store_virtual_grows s tx s' : store_virtual kv d block s tx = Ok s' → (length (s_hashes s) ≤ length (s_hashes s'))%nat.
Proof. intros (b' & _ & [= <-])%res_bind_ok. cbn. rewrite Hv, length_app. lia. Qed.

Lemma store_virtuals_grow txs s s' :
  res_foldl (store_virtual kv d block) s txs = Ok s' → (length (s_hashes s) ≤ length (s_hashes s'))%nat.
Proof.
  revert s. induction txs as [|tx txs IH]; intros s; cbn [res_foldl]; [by intros [= <-]|].
  intros (s1 & H1%store_virtual_grows & H2%IH)%res_bind_ok. lia.
Qed.

Lemma store_virtuals_sim txs s v s' :
  sim s v → bounded s' → Forall (virtual_wf (live_hash block) (live_number block)) txs → res_foldl (store_virtual kv d block) s txs = Ok s' →
  sim s' (foldl append_virtual v txs).
Proof.
  intros Hs Hb Hw. revert s v Hs. induction Hw as [|tx txs Hx _ IH]; intros s v Hs; cbn [res_foldl foldl]; [by intros [= <-]|].
  intros (s1 & H1 & H2)%res_bind_ok. eapply IH; [|exact H2].
  pose proof (store_virtual_grows _ _ _ H1). pose proof (store_virtuals_grow _ _ _ H2). unfold bounded in *.
  eapply store_virtual_sim; [done|unfold bounded; lia|done|done].
Qed.

Lemma store_synthetic_sim s v txBz vr idx gas total s' :
  sim s v → bounded s' → Forall hook_wf (VirtualResponse.entries vr) →
  store_synthetic caller kv d block s txBz vr idx gas total = Ok s' →
  ∃ txs, VirtualResponse.SyntheticTxs caller vr
           (VirtualResponse.mkTxContext txBz idx gas total (live_hash block) (live_number block) (v_rpcTxIndex v)
              (v_logIndex v) (v_gasBefore v) (Some (ChainID b))) = Ok txs ∧
         sim s' (foldl append_virtual v txs).
Proof.
  intros Hs Hb Hw (txs & Ht%res_map_err_ok & Hf)%res_bind_ok. exists txs.
  assert (bounded s) as Hb0 by (pose proof (store_virtuals_grow _ _ _ Hf); unfold bounded in *; lia).
  destruct (sim_position _ _ Hs Hb0) as (P1 & _). rewrite P1, (sim_logIndex _ _ Hs), (sim_gas _ _ Hs), Hchain in Ht.
  split; [exact Ht|]. eapply store_virtuals_sim; [done|done| |done].
  exact (SyntheticTxs_wf _ _ _ _ Hw Ht).
Qed.

Lemma store_block_tx_sim s v hash events gas s' :
  sim s v → bounded s' → is_hash hash → store_block_tx kv d block s hash events gas = Ok s' →
  sim s' (live_block_tx b block v hash events gas).
Proof.
  intros Hs Hb Hh. destruct events as [|e es]; [by intros [= <-]|]. unfold store_block_tx, live_block_tx. intros H.
  assert (bounded s) as Hb0 by (pose proof (store_virtual_grows _ _ _ H); unfold bounded in *; lia).
  destruct (sim_position _ _ Hs Hb0) as (P1 & _).
  unfold virtualLogContext in H. rewrite P1, (sim_logIndex _ _ Hs), Hchain in H.
  eapply store_virtual_sim; [done|done|by apply NewBlockTx_wf|exact H].
Qed.

(** ** Ethereum messages *)

(** Messages of the block: hashes and addresses have their lengths, the gas price is a
    256-bit number, and a legacy transaction carries the backend's chain id. *)
Definition wf_live_msg (baseFee : option Z) (m : MsgEthereumTx) : Prop :=
  is_hash (msg_Hash m) ∧ (∀ signer a, msg_GetSenderLegacy m signer = Ok a → is_address a) ∧
  ∀ txData, msg_AsTransaction m = Some txData →
    (∀ a, tx_To txData = Some a → is_address a) ∧ 0 ≤ effectiveGasPrice txData baseFee < 2 ^ 256 ∧
    (tx_Type txData ≠ AccessListTxType → tx_Type txData ≠ DynamicFeeTxType → tx_ChainId txData = ChainID b).

(** Documented behaviour of the libraries: no logs are decoded from an empty
    result, and CreateAddress returns an address. *)
Context (Hempty : ∀ i h, (∃ e, DecodeMsgLogs [] i h = Err e) ∨ DecodeMsgLogs [] i h = Ok []).
Context (Hcreate : ∀ a n, is_address (CreateAddress a n)).

Lemma NewRPCTransaction_chain m txData bh n i baseFee :
  msg_AsTransaction m = Some txData →
  (tx_Type txData ≠ AccessListTxType → tx_Type txData ≠ DynamicFeeTxType → tx_ChainId txData = ChainID b) →
  NewRPCTransaction m bh n i baseFee (Some (tx_ChainId txData)) = NewRPCTransaction m bh n i baseFee (Some (ChainID b)).
Proof.
  intros Htx Hc. unfold NewRPCTransaction. rewrite Htx. destruct (lib _) as [from| |]; [|done..]. cbn [res_bind].
  case_bool_decide; [done|]. case_bool_decide; [done|]. by rewrite Hc.
Qed.

Lemma eth_tx_result_live ethTxIndex result txs txIndex msgIndex m cum r x reason vmError :
  eth_tx_result block ethTxIndex result txs txIndex msgIndex m cum = Ok (r, x, reason, vmError) →
  live_msg_result result (Some txs) msgIndex m = (x, txr_GasUsed r, txr_Failed r) ∧
  txr_CumulativeGasUsed r = uint64 (cum + txr_GasUsed r).
Proof.
  unfold eth_tx_result, live_msg_result. case_bool_decide; [by intros [= <- <- _ _]|].
  destruct (GetTxByMsgIndex txs (Z.of_nat msgIndex)) as [t|]; [|done]. case_bool_decide; [done|].
  by intros [= <- <- _ _].
Qed.

Lemma eth_msg_logs_live s result vr msgIndex total failed x visible logs logIndex :
  eth_msg_logs block s result (Some vr) msgIndex total failed x visible = Ok (logs, logIndex) →
  ∃ evm vl,
    live_evm_logs result msgIndex (live_number block) = Ok evm ∧
    let own := SetLogMetadata (WrapLogs evm false None) (live_context block x (uint64 visible) (s_logIndex s)) in
    let next := uint64 (s_logIndex s + Z.of_nat (length own)) in
    VirtualResponse.LogsForMessage vr (Z.of_nat msgIndex) (Z.of_nat total) (live_context block x (uint64 visible) next) = Ok vl ∧
    logs = own ++ vl ∧ logIndex = uint64 (next + Z.of_nat (length vl)).
Proof.
  unfold eth_msg_logs. intros (l0 & Hl & H)%res_bind_ok. apply res_bind_ok in H as (vl & Hvl & [= <- <-]).
  assert (∃ evm, live_evm_logs result msgIndex (live_number block) = Ok evm ∧ l0 = WrapLogs evm false None) as (evm & He & ->).
  { unfold live_evm_logs. case_bool_decide as Hd.
    - apply res_bind_ok in Hl as (evm & Hm%res_map_err_ok & [= <-]). exists evm. unfold live_number. by rewrite Hm.
    - rewrite Hd. destruct failed; [|done]. injection Hl as <-.
      destruct (Hempty (Z.of_nat msgIndex) (live_number block)) as [[e ->]| ->]; by exists []. }
  exists evm, vl. done.
Qed.

Lemma store_eth_records_live ba baseFee m txData r x reason vmError logs gas visible b' :
  store_eth_records d block ba baseFee m txData r x reason vmError logs gas visible = Ok b' →
  ∃ from rbz tbz rpcTx, let contract := match tx_To txData with
                                        | None => Some (CreateAddress from (tx_Nonce txData)) | Some _ => None end in
    msg_GetSenderLegacy m (signer_for txData) = Ok from ∧
    mustMarshalReceipt (buildCachedReceipt (if txr_Failed r then ReceiptStatusFailed else ReceiptStatusSuccessful) gas
      (txr_GasUsed r) reason vmError logs x contract (blockHash block) (uint64 (blk_Height block)) (uint64 visible)
      (receiptEffectiveGasPrice txData baseFee) from (tx_To txData) (tx_Type txData)) = Ok rbz ∧
    NewRPCTransaction m (blockHash block) (uint64 (blk_Height block)) (uint64 visible) baseFee (Some (tx_ChainId txData)) = Ok rpcTx ∧
    mustMarshalRPCTransaction (set_hash rpcTx x) = Ok tbz ∧
    b' = ba ++ [OpSet (ReceiptKey x) rbz; OpSet (RPCtxHashKey x) tbz; OpSet (RPCtxIndexKey (blk_Height block) visible) x].
Proof.
  unfold store_eth_records. cbv zeta. intros (from & Hf%res_map_err_ok & H)%res_bind_ok.
  apply res_bind_ok in H as (rbz & Hr & H). apply res_bind_ok in H as (b1 & H1%batch_Set_ok & H).
  apply res_bind_ok in H as (rt & Ht%res_map_err_ok & H). apply res_bind_ok in H as (tbz & Hm & H). emit.
  exists from, rbz, tbz, rt. by rewrite <- !app_assoc.
Qed.

Lemma index_msg_sim baseFee result txs vr txIndex total s v gas m s' gas' :
  sim s v → bounded s → Forall hash_wf (Txs txs) → (∀ e, m.2 = EthMsg e → wf_live_msg baseFee e) →
  index_msg kv d block baseFee result txs (Some vr) txIndex total (s, gas) m = Ok (s', gas') →
  ∃ v', live_msg b block baseFee result (Some txs) vr total (v, gas) m = Ok (v', gas') ∧ sim s' v'.
Proof.
  intros Hs Hb Hw Hm. destruct m as [msgIndex [e|?]]; [|intros [= <- <-]; by exists v].
  destruct (Hm e eq_refl) as (M1 & M2 & M3). unfold index_msg, live_msg. cbv beta iota zeta. rewrite Hv.
  intros ([[[r x] reason] vmError] & Hres & H)%res_bind_ok.
  destruct (eth_tx_result_ok _ _ _ _ _ _ _ _ _ _ _ _ Hw M1 Hres) as (Hx & _). apply eth_tx_result_live in Hres as (Hlive & Hcum).
  apply res_bind_ok in H as (ba & Hba%res_map_err_ok & H). destruct (msg_AsTransaction e) as [txData|] eqn:Etx; [|done].
  destruct (M3 _ eq_refl) as (T1 & T2 & T3).
  apply res_bind_ok in H as ([logs logIndex] & Hlogs & H). apply res_bind_ok in H as (b' & Hb' & [= <- <-]).
  apply eth_msg_logs_live in Hlogs as (evm & vl & L1 & L2 & L3 & L4).
  apply store_eth_records_live in Hb' as (from & rbz & tbz & rpcTx & R1 & R2 & R3 & R4 & ->).
  unfold saveTxResult in Hba. apply res_bind_ok in Hba as (bz & _ & Hba). emit.
  destruct (sim_position _ _ Hs Hb) as (P1 & _). rewrite P1, (sim_logIndex _ _ Hs) in *.
  rewrite Hlive. rewrite L1. cbn [res_bind]. rewrite L2. cbn [res_bind]. rewrite R1. cbn [lib res_map_err res_bind].
  rewrite (NewRPCTransaction_chain e txData) in R3 by done.
  change (blockHash block) with (live_hash block) in *. change (uint64 (blk_Height block)) with (live_number block) in *.
  rewrite R3. cbn [res_bind]. rewrite Hcum. eexists. split; [reflexivity|].
  eapply (sim_push _ _ _ [_; _; _; _; _]); [exact Hs|exact Hb|cbn; by rewrite <- !app_assoc|..].
  all: try done.
  - by exists tbz.
  - rewrite Hcum, (sim_gas _ _ Hs) in R2. eexists _, rbz. split; [done|]. split; [exact R2|].
    assert (∀ a, match tx_To txData with
      | None => Some (CreateAddress from (tx_Nonce txData)) | Some _ => None end = Some a → is_address a) as Hca.
    { intros a. destruct (tx_To txData); [done|]. intros [= <-]. apply Hcreate. }
    cbn [fst snd]. split.
    + apply eth_receipt_parity; [done|by eapply M2|done..].
    + apply built_receipt_wf; [done|by apply BytesToHash_wf|by eapply M2|done..].
  - apply live_receipt_group.
Qed.

Lemma index_msg_grows baseFee result txs vr txIndex total s gas m s' gas' :
  index_msg kv d block baseFee result txs vr txIndex total (s, gas) m = Ok (s', gas') →
  (length (s_hashes s) ≤ length (s_hashes s'))%nat.
Proof.
  destruct m as [msgIndex [e|?]]; [|by intros [= <- _]]. unfold index_msg. cbv beta iota zeta. rewrite Hv.
  intros ([[[r x] reason] vmError] & _ & H)%res_bind_ok. apply res_bind_ok in H as (ba & _ & H).
  destruct (msg_AsTransaction e); [|done]. apply res_bind_ok in H as ([logs li] & _ & H).
  apply res_bind_ok in H as (b' & _ & [= <- _]). cbn. rewrite length_app. lia.
Qed.

Lemma index_msgs_grow baseFee result txs vr txIndex total l s gas s' gas' :
  res_foldl (index_msg kv d block baseFee result txs vr txIndex total) (s, gas) l = Ok (s', gas') →
  (length (s_hashes s) ≤ length (s_hashes s'))%nat.
Proof.
  revert s gas. induction l as [|m l IH]; intros s gas; cbn [res_foldl]; [by intros [= <- _]|].
  intros ([s1 g1] & H1%index_msg_grows & H2%IH)%res_bind_ok. lia.
Qed.

Lemma index_msgs_sim baseFee result txs vr txIndex total l s v gas s' gas' :
  sim s v → bounded s' → Forall hash_wf (Txs txs) → (∀ i e, (i, EthMsg e) ∈ l → wf_live_msg baseFee e) →
  res_foldl (index_msg kv d block baseFee result txs (Some vr) txIndex total) (s, gas) l = Ok (s', gas') →
  ∃ v', res_foldl (live_msg b block baseFee result (Some txs) vr total) (v, gas) l = Ok (v', gas') ∧ sim s' v'.
Proof.
  intros Hs Hb Hw. revert s v gas Hs. induction l as [|[i m] l IH]; intros s v gas Hs Hm; cbn [res_foldl].
  - intros [= <- <-]. by exists v.
  - intros ([s1 g1] & H1 & H2)%res_bind_ok.
    pose proof (index_msg_grows _ _ _ _ _ _ _ _ _ _ _ H1). pose proof (index_msgs_grow _ _ _ _ _ _ _ _ _ _ _ H2).
    apply (index_msg_sim _ _ _ _ _ _ _ v) in H1 as (v1 & -> & Hs1); [|done|unfold bounded in *; lia|done|].
    + cbn [res_bind]. eapply IH; [exact Hs1| |exact H2]. intros j e Hj. eapply Hm. by right.
    + intros e E. cbn in E. subst m. eapply Hm. by left.
Qed.

(** ** Transactions and the block *)

Lemma live_msgs_none baseFee result parsed vr total l v gas :
  (∀ i e, (i, EthMsg e) ∉ l) → res_foldl (live_msg b block baseFee result parsed vr total) (v, gas) l = Ok (v, gas).
Proof.
  induction l as [|[i [e|?]] l IH]; intros Hn; cbn [res_foldl]; [done|destruct (Hn i e); by left|].
  apply IH. intros j e Hj. apply (Hn j e). by right.
Qed.

Lemma sim_gas_step s v gas : sim s v → sim (add_gas s gas) (live_gas v gas).
Proof. intros [S1 S2 S3 S4 S5 S6 S7 S8 S9 S10]. constructor; cbn; try done. by rewrite S4. Qed.

(** A transaction of the block: its messages are well formed, Ethereum messages come in
    transactions with the Ethereum extension option, and the result of another
    transaction can be parsed or refused. *)
Definition wf_live_tx (baseFee : option Z) (results : list (option ExecTxResult)) (t : nat * bytes) : Prop :=
  ∀ result tx, results !! t.1 = Some (Some result) → TxDecoder t.2 = Ok tx →
    (∀ e, EthMsg e ∈ GetMsgs tx → isEthTx tx = true ∧ wf_live_msg baseFee e) ∧
    (isEthTx tx = false → ∀ p, ParseTxResult result (Some tx) ≠ Panic p).

Lemma imap_msg msgs i (e : MsgEthereumTx) : (i, EthMsg e) ∈ imap pair msgs → EthMsg e ∈ msgs.
Proof. intros (j & m & [= -> ->] & Hj)%elem_of_lookup_imap. by eapply list_elem_of_lookup_2. Qed.

Lemma store_synthetic_grows s txBz vr idx gas total s' :
  store_synthetic caller kv d block s txBz vr idx gas total = Ok s' → (length (s_hashes s) ≤ length (s_hashes s'))%nat.
Proof. by intros (txs & _ & Hf%store_virtuals_grow)%res_bind_ok. Qed.

Lemma index_tx_grows baseFee results s t s' :
  index_tx caller kv d block baseFee results s t = Ok s' → (length (s_hashes s) ≤ length (s_hashes s'))%nat.
Proof.
  destruct t as [txIndex txBz]. unfold index_tx. cbv beta iota zeta. rewrite Hv.
  destruct (results !! txIndex) as [[result|]|]; [|done..].
  intros (tx & _ & H)%res_bind_ok. apply res_bind_ok in H as (ovr & Hvr & H).
  apply res_bind_ok in Hvr as (vr & _ & [= <-]). destruct (negb (isEthTx tx)).
  - by apply res_bind_ok in H as (s2 & H2%store_synthetic_grows & [= <-]).
  - apply res_bind_ok in H as (txs & _ & H). apply res_bind_ok in H as ([s1 gas] & H1%index_msgs_grow & H).
    apply res_bind_ok in H as (s2 & H2%store_synthetic_grows & [= <-]). cbn. lia.
Qed.

Lemma index_txs_grow baseFee results l s s' :
  res_foldl (index_tx caller kv d block baseFee results) s l = Ok s' → (length (s_hashes s) ≤ length (s_hashes s'))%nat.
Proof.
  revert s. induction l as [|t l IH]; intros s; cbn [res_foldl]; [by intros [= <-]|].
  intros (s1 & H1%index_tx_grows & H2%IH)%res_bind_ok. lia.
Qed.

Lemma index_tx_sim baseFee results s v t s' :
  sim s v → bounded s' → wf_live_tx baseFee results t → index_tx caller kv d block baseFee results s t = Ok s' →
  ∃ v', live_tx caller b block baseFee results v t = Ok v' ∧ sim s' v'.
Proof.
  intros Hs Hb Hw. destruct t as [txIndex txBz]. unfold index_tx, live_tx. cbv beta iota zeta. rewrite Hv.
  destruct (results !! txIndex) as [[result|]|] eqn:Er; [|done..].
  intros (tx & Htx%res_map_err_ok & H)%res_bind_ok. rewrite Htx. destruct (Hw _ _ Er Htx) as [W1 W2].
  apply res_bind_ok in H as (ovr & Hvr & H). apply res_bind_ok in Hvr as (vr & Hvr%res_map_err_ok & [= <-]).
  rewrite Hvr. cbn [res_bind]. apply ParseResponse_hooks_wf in Hvr. destruct (isEthTx tx) eqn:Ee; cbn [negb] in H.
  - apply res_bind_ok in H as (txs & Hp%res_map_err_ok & H). rewrite Hp. cbn [parsed_or_nil res_bind].
    apply ParseTxResult_hashes in Hp; [|intros m Hm; by destruct (W1 _ Hm) as [_ [? _]]].
    apply res_bind_ok in H as ([s1 gas] & H1 & H). apply res_bind_ok in H as (s2 & H2 & [= <-]).
    pose proof (store_synthetic_grows _ _ _ _ _ _ _ H2).
    assert (bounded s1) as Hb1 by (unfold bounded in *; cbn in Hb; lia).
    eapply index_msgs_sim in H1 as (v1 & -> & Hs1); [|exact Hs|done|done|].
    2: { intros i e Hin%imap_msg. by apply W1. }
    cbn [res_bind]. eapply store_synthetic_sim in H2 as (vtxs & -> & Hs2); [|exact Hs1|exact Hb|done].
    cbn [res_bind]. eexists. split; [done|]. by apply sim_gas_step.
  - apply res_bind_ok in H as (s2 & H2 & [= <-]).
    assert (∃ parsed, parsed_or_nil (ParseTxResult result (Some tx)) = Ok parsed) as [parsed ->].
    { destruct (ParseTxResult result (Some tx)) as [p|e|p] eqn:Ep; cbn; [by eexists..|]. by destruct (W2 eq_refl p). }
    cbn [res_bind]. rewrite live_msgs_none.
    2: { intros i e Hin%imap_msg. by destruct (W1 _ Hin). }
    cbn [res_bind]. eapply store_synthetic_sim in H2 as (vtxs & -> & Hs2); [|exact Hs|exact Hb|done].
    cbn [res_bind]. eexists. split; [done|]. by apply sim_gas_step.
Qed.

Lemma index_txs_sim baseFee results l s v s' :
  sim s v → bounded s' → Forall (wf_live_tx baseFee results) l →
  res_foldl (index_tx caller kv d block baseFee results) s l = Ok s' →
  ∃ v', res_foldl (live_tx caller b block baseFee results) v l = Ok v' ∧ sim s' v'.
Proof.
  intros Hs Hb Hw. revert s v Hs. induction Hw as [|t l Ht _ IH]; intros s v Hs; cbn [res_foldl].
  - intros [= <-]. by exists v.
  - intros (s1 & H1 & H2)%res_bind_ok. pose proof (index_txs_grow _ _ _ _ _ H2).
    eapply index_tx_sim in H1 as (v1 & -> & Hs1); [|exact Hs|unfold bounded in *; lia|done].
    cbn [res_bind]. by eapply IH.
Qed.

(** A whole block. *)
Lemma run_loop_sim (r : ResultBlockResults) s resBlock :
  dels = reset_ops d (blk_Height block) → rb_Block resBlock = Some block →
  or_nil (BaseFee b (Some r)) = Ok (BaseFeeFromEvents (br_FinalizeBlockEvents r)) →
  (∀ results, NormalizeTxResponseIndexes (br_TxResults r) = Ok results →
     Forall (wf_live_tx (BaseFeeFromEvents (br_FinalizeBlockEvents r)) results) (imap pair (blk_Txs block))) →
  IndexerBatch.run_loop caller kv d block (Some r) = Ok s → bounded s →
  ∃ v, liveVirtualBlockView caller b (Some resBlock) (Some r) = Ok (v_view v) ∧ sim s v.
Proof.
  intros Hdels Hres Hfee Hw (results & Hn & H)%res_bind_ok Hb. apply res_bind_ok in H as ([bev eev] & Hev & H).
  unfold IndexerBatch.block_events in Hev. rewrite Hv in Hev. apply res_map_err_ok in Hev.
  apply res_bind_ok in H as (s1 & H1 & H). apply res_bind_ok in H as (s2 & H2 & H3). change (blockTxResults (Some r)) with (br_TxResults r) in Hn.
  change (blockBaseFeeFromResults (Some r)) with (BaseFeeFromEvents (br_FinalizeBlockEvents r)) in H2.
  assert (∀ s s' hash events gas, store_block_tx kv d block s hash events gas = Ok s' →
    (length (s_hashes s) ≤ length (s_hashes s'))%nat) as Hgrow.
  { intros ???[|??]?; [by intros [= <-]|]. apply store_virtual_grows. }
  pose proof (Hgrow _ _ _ _ _ H3). pose proof (index_txs_grow _ _ _ _ _ H2).
  eapply (store_block_tx_sim _ empty_view) in H1; [| |unfold bounded in *; lia|apply Keccak256Hash_wf].
  2: { constructor; cbn; try done; exists []; rewrite app_nil_r, Hdels; done. }
  eapply index_txs_sim in H2 as (v2 & H2 & Hs2); [|exact H1|unfold bounded in *; lia|by apply Hw].
  eapply store_block_tx_sim in H3; [|exact Hs2|done|apply Keccak256Hash_wf].
  eexists. split; [|exact H3]. unfold liveVirtualBlockView. cbn [mbind option_bind]. rewrite Hres, Hfee.
  cbn [res_bind]. rewrite Hn. cbn [res_bind]. rewrite Hev. cbn [res_bind]. rewrite H2. cbn [res_bind].
  by rewrite (sim_gas _ _ Hs2).
Qed.
End sim.

(** ** Reading the records back *)

(** Records with distinct keys, written by assignments. *)
Lemma records_lookup {A} (R : A → batch_op → Prop) (key : A → bytes) xs ops m x :
  (∀ a op, R a op → ∃ v, op = OpSet (key a) v) → NoDup (key <$> xs) → Forall2 R xs ops → x ∈ xs →
  ∃ v, R x (OpSet (key x) v) ∧ apply_ops m ops !! key x = Some v.
Proof.
  intros HR Hnd Hf. revert m Hnd. induction Hf as [|a op xs ops Ha Hf IH]; intros m Hnd Hin; [set_solver|].
  rewrite fmap_cons in Hnd. apply NoDup_cons in Hnd as [Hn Hnd]. destruct (HR _ _ Ha) as [v ->].
  apply elem_of_cons in Hin as [->|Hin]; [|exact (IH _ Hnd Hin)].
  exists v. split; [done|]. cbn. rewrite apply_ops_other; [by rewrite lookup_insert_eq|].
  intros (op & E & Hop)%list_elem_of_fmap. apply Hn. apply list_elem_of_lookup_1 in Hop as [i Hi].
  destruct (Forall2_lookup_r _ _ _ _ _ Hf Hi) as (y & Hy & [w ->]%HR). cbn in E. rewrite E.
  apply list_elem_of_fmap. exists y. split; [done|]. by eapply list_elem_of_lookup_2.
Qed.

Section read.
Context {D : Type} {DB : KVDB D} {DBL : KVDBLaws D} {DBR : KVDBReliable D} {SD : SDK} {SDL : SDKLaws} {EL : EthLib}
        {ELL : EthLibLaws} {CL : ChainLib} {CLL : ChainLibLaws} {LJ : LogJSON} {PB : Proto} {BL : Bank.BankLib}
        {IL : Ibc.IbcLib} {CP : CapnpLib} {CPL : CapnpLaws} {LG : LegacyLib} {BB : BackendLib}.

(** The record of a live transaction, in the store after the batch. *)
Lemma stored_record {A} (R : A → batch_op → Prop) (p : Z) (x : A → Hash) (d d' : D) dels block_ops xs ops batch a :
  (∀ a op, R a op → ∃ v, op = OpSet (p :: x a) v) → NoDup (x <$> xs) → Forall2 R xs ops → a ∈ xs →
  contents d' = apply_ops (contents d) (batch ++ block_ops) → prefixed p block_ops = [] → prefixed p batch = dels ++ ops →
  ∃ v, R a (OpSet (p :: x a) v) ∧ contents d' !! (p :: x a) = Some v.
Proof.
  intros HR Hnd Hf Ha Hd Hp Hb.
  destruct (records_lookup R (λ a, p :: x a) xs ops (apply_ops (contents d) dels) a) as (v & Hv & Hl); [done| |done|done|].
  { change (NoDup ((λ a, p :: x a) <$> xs)). rewrite (list_fmap_compose x (cons p)).
    by apply (NoDup_fmap_2 (cons p)). }
  exists v. split; [done|]. rewrite Hd, (apply_ops_filter (λ k, head k = Some p) _ (contents d)) by done.
  change (filter _ (batch ++ block_ops)) with (prefixed p (batch ++ block_ops)).
  by rewrite prefixed_app, Hp, Hb, app_nil_r, apply_ops_app.
Qed.

Lemma CachedReceipt_logs cr : CachedReceipt_ToMap cr !! "logs"%string = Some (VLogs (cr_Logs cr)).
Proof.
  unfold CachedReceipt_ToMap. destruct (cr_Reason cr), (cr_VMError cr), (cr_ContractAddress cr), (cr_To cr);
    (case_bool_decide; [destruct (hexutil_DecodeBig _)|]); rewrite ?lookup_insert_ne by done; reflexivity.
Qed.

Lemma stored_receipt_id cr : Forall is_Some (cr_Logs cr) → stored_receipt cr = cr.
Proof.
  intros Hl. unfold stored_receipt. assert (stored_log <$> cr_Logs cr = cr_Logs cr) as ->; [|by destruct cr].
  induction Hl as [|[l|] ls [? ?] _ IH]; [done| |done]. cbn. by f_equal.
Qed.

Lemma read_tx (d : D) tx bz : wf_rpc_tx tx → mustMarshalRPCTransaction tx = Ok bz →
  contents d !! RPCtxHashKey (t_Hash tx) = Some bz → GetRPCTransactionByHash d (t_Hash tx) = Ok tx.
Proof.
  intros Hw Hm Hl. unfold GetRPCTransactionByHash.
  rewrite (IndexerProps.get_record_present _ _ bz) by (done || by eapply IndexerProps.payload_nonempty).
  cbn. by rewrite (RPCTransaction_roundtrip _ _ Hw Hm).
Qed.

Lemma read_receipt (d : D) x cr bz : wf_receipt cr → Forall is_Some (cr_Logs cr) → mustMarshalReceipt cr = Ok bz →
  contents d !! ReceiptKey x = Some bz → GetReceiptByTxHash d x = Ok (CachedReceipt_ToMap cr).
Proof.
  intros Hw Hs Hm Hl. unfold GetReceiptByTxHash. assert (bz ≠ []) as Hne.
  { unfold mustMarshalReceipt in Hm. case_bool_decide; [destruct (hexutil_DecodeBig _); [|done..]|];
      by eapply IndexerProps.payload_nonempty. }
  rewrite (IndexerProps.get_record_present _ _ bz) by done.
  cbn [res_bind]. rewrite (Receipt_roundtrip _ _ Hw Hm). cbn. by rewrite stored_receipt_id.
Qed.

(** The store holds what a view of the block shows. *)
Record view_stored (d' : D) (block : Block) (view : liveView) : Prop := {
  vs_hashes : GetRPCTransactionHashesByBlockHeight d' (blk_Height block) = Ok (t_Hash <$> Transactions view);
  vs_logs : Forall wf_logs (Logs view) → GetLogsByBlockHeight d' (blk_Height block) = Ok (stored_group <$> Logs view);
  vs_txs tx : NoDup (t_Hash <$> Transactions view) → tx ∈ Transactions view → wf_rpc_tx tx → GetRPCTransactionByHash d' (t_Hash tx) = Ok tx;
  vs_receipts i tx receipt logs :
    NoDup (t_Hash <$> Transactions view) → Transactions view !! i = Some tx → Receipts view !! i = Some receipt →
    Logs view !! i = Some logs → wf_logs logs → Forall is_Some logs →
    ∃ cached, GetReceiptByTxHash d' (t_Hash tx) = Ok cached ∧ same_receipt receipt cached;
  vs_groups : Forall2 (receipt_of_group block) (Receipts view) (Logs view);
  vs_length : length (Receipts view) = length (Transactions view);
}.

Lemma live_view_stored caller kv (d : D) block r stats d' b resBlock :
  0 ≤ blk_Height block < 2 ^ 63 → (∀ bz tx, TxDecoder bz = Ok tx → tx_hashes_wf tx) →
  wf_store (contents d) → wf_bytes (blk_Hash block) → rb_Block resBlock = Some block →
  (∀ i h, (∃ e, DecodeMsgLogs [] i h = Err e) ∨ DecodeMsgLogs [] i h = Ok []) →
  (∀ a n, is_address (CreateAddress a n)) →
  Indexer.virtualizationEnabled kv = true → virtualChainID kv = Some (ChainID b) →
  or_nil (BaseFee b (Some r)) = Ok (BaseFeeFromEvents (br_FinalizeBlockEvents r)) →
  (∀ results, NormalizeTxResponseIndexes (br_TxResults r) = Ok results →
     Forall (wf_live_tx b (BaseFeeFromEvents (br_FinalizeBlockEvents r)) results) (imap pair (blk_Txs block))) →
  (∀ s, run_loop caller kv d block (Some r) = Ok s → bounded s) →
  indexBlockWithStats caller kv d block (Some r) = (Ok stats, d') →
  ∃ view, liveVirtualBlockView caller b (Some resBlock) (Some r) = Ok view ∧ view_stored d' block view.
Proof.
  intros Hh Hdec Hwf Hblk Hres Hempty Hcreate Hv Hchain Hfee Hw Hbound Hrun.
  destruct (IndexerProps.indexBlock_ran _ _ _ _ _ _ _ Hh Hdec Hrun) as (ba & s & hs & meta & metaBz & logsBz & [Hb Hl] & Hd').
  pose proof (Hbound _ Hl) as Hbs. eapply run_loop_sim in Hl as (v & Hview & Hs); try done.
  pose proof (bu_inv _ _ _ _ _ _ _ _ _ _ Hb) as Hi. exists (v_view v). split; [done|].
  pose proof (sim_groups _ _ _ _ Hs) as Hgroups.
  rewrite (bu_batch _ _ _ _ _ _ _ _ _ _ Hb) in Hd'. split; [| | | |done|by rewrite (sim_len _ _ _ _ Hs)].
  - rewrite <- (sim_hashes _ _ _ _ Hs), (li_visible _ _ _ _ _ Hi Hv). unfold bounded in Hbs. rewrite (li_visible _ _ _ _ _ Hi Hv) in Hbs.
    rewrite <- (bu_batch _ _ _ _ _ _ _ _ _ _ Hb) in Hd'.
    apply IndexerProps.rpc_index_listed; [done| |lia|apply (li_hashes _ _ _ _ _ Hi)|]; rewrite Hd'.
    + by eapply final_wf.
    + intros j Hj. eapply final_rpc; try eassumption; lia.
  - rewrite <- (sim_logs _ _ _ _ Hs). intros Hwl. unfold GetLogsByBlockHeight.
    destruct (final_block kv d block _ _ _ _ _ _ _ Hb) as (_ & F2 & _). pose proof (bu_logsBz _ _ _ _ _ _ _ _ _ _ Hb) as Hlz.
    rewrite (bu_batch _ _ _ _ _ _ _ _ _ _ Hb), <- Hd' in F2.
    rewrite (IndexerProps.get_record_present _ _ logsBz) by (done || by eapply IndexerProps.payload_nonempty).
    by apply BlockLogs_roundtrip.
  - destruct (sim_txs _ _ _ _ Hs) as (ops & Ho & Hf). intros tx Hnd Hin Htx.
    destruct (stored_record tx_record KeyPrefixRPCtxHash t_Hash d d' _ _ _ _ _ tx
      ltac:(by intros a op (bz & -> & _); eexists) Hnd Hf Hin Hd' eq_refl Ho) as (bz & (bz' & [= <-] & Hm) & Hlk).
    by eapply read_tx.
  - destruct (sim_receipts _ _ _ _ Hs) as (ops & Ho & Hf). intros i tx receipt logs Hnd Hit Hir Hil Hwl Hsome.
    assert ((tx, receipt) ∈ zip (Transactions (v_view v)) (Receipts (v_view v))) as Hin.
    { eapply list_elem_of_lookup_2. apply lookup_zip_with_Some. by exists tx, receipt. }
    rewrite <- (fst_zip (Transactions (v_view v)) (Receipts (v_view v))), <- list_fmap_compose in Hnd
      by (by rewrite (sim_len _ _ _ _ Hs)).
    destruct (stored_record receipt_record KeyPrefixReceipt (t_Hash ∘ fst) d d' _ _ _ _ _ _
      ltac:(by intros a op (cr & bz & -> & _); eexists) Hnd Hf Hin Hd' eq_refl Ho)
      as (bz & (cr & bz' & [= <-] & Hm & Hsame & Hcr) & Hlk).
    assert (cr_Logs cr = logs) as Hcl.
    { destruct (Forall2_lookup_lr _ _ _ _ _ _ Hgroups Hir Hil) as [Hlogs _]. cbn in Hsame.
      rewrite (same_receipt_field _ _ _ Hsame), CachedReceipt_logs in Hlogs by done. by injection Hlogs. }
    rewrite <- Hcl in Hwl, Hsome. exists (CachedReceipt_ToMap cr). split; [|exact Hsame].
    eapply read_receipt; eauto.
Qed.

End read.

(** The chain ids agree when both come from the same setting. *)
Lemma chain_ids_agree `{EthLib} s id kv :
  backendChainID s = Ok id → virtualChainID (WithVirtualCosmosEvents true s kv) = Some id.
Proof.
  unfold backendChainID, WithVirtualCosmosEvents. destruct (big_SetString _) as [z|]; [|done].
  case_bool_decide; [done|]. intros [= <-]. by rewrite bool_decide_true by lia.
Qed.

(** ** The concrete block *)

Module Witness.
Import EthInstances IndexerSample BackendSample CodecInstances.

Lemma sample_txs_wf results :
  NormalizeTxResponseIndexes (br_TxResults sample_results) = Ok results →
  Forall (wf_live_tx sample_backend None results) (imap pair (blk_Txs sample_block)).
Proof.
  intros H. vm_compute in H. injection H as <-.
  change (imap pair (blk_Txs sample_block)) with [(0%nat, [1]); (1%nat, [2])].
  apply Forall_cons; split; [|apply Forall_singleton]; intros result tx [= <-] [= <-].
  - split; [|done]. intros e [= ->]%list_elem_of_singleton. split; [done|]. split.
    { split; [apply be_bytes_length|apply be_bytes_wf]. }
    split; [intros _ a [= <-]; apply (bool_decide_unpack _); by vm_compute|].
    intros txData [= <-]. split; [intros a [= <-]; apply (bool_decide_unpack _); by vm_compute|].
    split; [vm_compute; intuition congruence|done].
  - split; [intros e Hin; cbn in Hin; set_solver|]. intros _ p. by vm_compute.
Qed.

Lemma sample_bounded s : run_loop "0x01" sample_indexer (∅ : gmap bytes bytes) sample_block (Some sample_results) = Ok s → bounded s.
Proof.
  intros H. assert (length (s_hashes s) = 3%nat) as Hl; [|unfold bounded; rewrite Hl; lia].
  assert ((let! s := run_loop "0x01" sample_indexer (∅ : gmap bytes bytes) sample_block (Some sample_results) in
           Ok (length (s_hashes s))) = Ok 3%nat) as Hr by reflexivity.
  rewrite H in Hr. by injection Hr.
Qed.

End Witness.
End BackendParity.
