(* ===== verification/BackendCache.v ===== *)
(** * The materialized caches of the backend are transparent

    Decoded receipts and whole-block logs are kept in two LRU caches in front
    of the index.  A computation is [transparent] when, started with caches that agree
    with the index, it gives the answer and the counters it would give without
    caches and leaves caches that agree with the index.  Transparency is closed
    under the operations of the monad, so it holds for the receipt and log lookups of
    the backend whatever entries the caches keep or evict. *)

From Stdlib Require Import Ascii String.
From S2P Require Import Prelude Bytes Instances GoLib EthTypes EthInstances Keys Tracker ParsedTx Normalize.
From S2P Require Import Virtual VirtualBank VirtualIbc VirtualResponse RpcUtils Cached Codec Indexer IndexerQuery.
From S2P Require Import CodecInstances CodecProps IndexerStore IndexerLoop IndexerBatch IndexerSample IndexerProps.
From S2P Require Import RpcTypes Backend BackendLive BackendBlocks BackendTx BackendLogs BackendSample.
From stdpp Require Import strings list.
#[local] Open Scope Z_scope.

Module BackendCache.
Import GoLib EthTypes Keys ParsedTx Normalize Virtual RpcUtils Cached Codec CodecProps IndexerStore IndexerLoop IndexerBatch RpcTypes Backend BackendLive BackendBlocks BackendTx BackendLogs.
#[local] Open Scope backend_scope.

Create HintDb transparent discriminated.

(** What the log lookups rely on: reading by hash is reading at the height the
    hash is indexed under. *)
Record hash_reads (ix : IndexReader) : Prop := {
  logs_by_hash hash meta addresses topics :
    ir_GetBlockMetaByHash ix hash = Ok meta →
    ir_GetFilteredLogsByBlockHash ix hash addresses topics =
    ir_GetFilteredLogsByBlockHeight ix (m_Height meta) addresses topics;
}.

Section cache.
Context {RC LC : Type} `{!LRU Hash (gmap string Value) RC} `{!LRULaws Hash (gmap string Value) RC}
        `{!LRU Z (list (option RPCLog)) LC} `{!LRULaws Z (list (option RPCLog)) LC}.
Context (b : Backend).

(** Cached entries are what the index would answer. *)
Definition coherent (s : bstate RC LC) : Prop :=
  ∀ c, materialized s = Some c →
    (∀ hash receipt, lru_view (receipts c) hash = Some receipt →
       ∃ ix, indexer b = Some ix ∧ ir_GetReceiptByTxHash ix hash = Ok receipt) ∧
    (∀ height logs, lru_view (blockLogs c) height = Some logs →
       ∃ ix, indexer b = Some ix ∧ ir_GetFilteredLogsByBlockHeight ix height [] [] = Ok logs).

(** The same state without caches. *)
Definition forget (s : bstate RC LC) : bstate RC LC := mkBState None (syncStatus s).

Definition transparent {A} (m : M RC LC A) : Prop :=
  ∀ s, coherent s → coherent (m s).2 ∧ m (forget s) = ((m s).1, forget (m s).2).

Lemma transparent_lift {A} (m : res error A) : transparent (lift m).
Proof. by intros s Hs. Qed.

Lemma transparent_ret {A} (a : A) : transparent (ret a).
Proof. by intros s Hs. Qed.

Lemma transparent_count f : transparent (count f).
Proof. intros s Hs. split; [exact Hs|done]. Qed.

Lemma transparent_bind {A B} (m : M RC LC A) (f : A → M RC LC B) :
  transparent m → (∀ a, transparent (f a)) → transparent (bind m f).
Proof.
  intros Hm Hf s Hs. destruct (Hm s Hs) as [H1 H2]. unfold bind. rewrite H2.
  destruct (m s) as [[a|e|p] s']; cbn in *; [by apply Hf|done..].
Qed.

Lemma transparent_call {A B} (m : M RC LC A) (f : A → M RC LC B) (g : error → M RC LC B) :
  transparent m → (∀ a, transparent (f a)) → (∀ e, transparent (g e)) → transparent (call m f g).
Proof.
  intros Hm Hf Hg s Hs. destruct (Hm s Hs) as [H1 H2]. unfold call. rewrite H2.
  destruct (m s) as [[a|e|p] s']; cbn in *; [by apply Hf|by apply Hg|done].
Qed.

#[local] Hint Resolve transparent_lift transparent_ret transparent_count : transparent.

(** Compositions: sequence, then cases on data. *)
Ltac transparent_tac :=
  repeat first
    [ assumption
    | solve [auto 2 with transparent nocore]
    | match goal with
      | |- transparent (bind _ _) => apply transparent_bind; [|intros ?]
      | |- transparent (call _ _ _) => apply transparent_call; [|intros ?|intros ?]
      | |- transparent (match ?x with _ => _ end) => destruct x
      | |- transparent (let _ := _ in _) => cbv zeta
      end ].

(** ** Receipts *)

(** Looking a receipt up in the cache first. *)
Lemma transparent_receipt hash : transparent (materializedReceiptByHash b hash).
Proof.
  intros [[c|] sync] Hs; unfold materializedReceiptByHash, bind, getReceipt, addReceipt, lift, ret, coherent, forget in *; cbn in *.
  - destruct (Hs c eq_refl) as [Hr Hl]. pose proof (lru_Get_view (receipts c) hash) as Hv.
    pose proof (λ k, lru_Get_keeps (receipts c) hash k) as Hk. destruct (lru_Get (receipts c) hash) as [v rc]; cbn in *.
    destruct v as [receipt|]; cbn.
    + destruct (Hr hash receipt) as (ix & Hi & Hx); [exact (eq_sym Hv)|]. split.
      * intros c' [= <-]; cbn. split; [|done]. intros h r. rewrite Hk. apply Hr.
      * rewrite Hi; cbn. by rewrite Hx.
    + destruct (indexer b) as [ix|] eqn:Hi; cbn.
      * destruct (ir_GetReceiptByTxHash ix hash) as [receipt|e|p] eqn:Hx; cbn; (split; [|done]);
          intros c' [= <-]; cbn; (split; [|done]); intros h r; [|by rewrite Hk; apply Hr..].
        intros [[-> ->]|[_ Hh]]%lru_Add_view; [by exists ix|]. rewrite Hk in Hh. by apply Hr.
      * split; [|done]. intros c' [= <-]; cbn. split; [|done]. intros h r. rewrite Hk. apply Hr.
  - destruct (indexer b) as [ix|]; cbn; [destruct (ir_GetReceiptByTxHash ix hash); cbn|]; by split.
Qed.
#[local] Hint Resolve transparent_receipt : transparent.

Context {EL : EthLib} {CL : ChainLib} {LJ : LogJSON} {PB : Proto} {BL : Bank.BankLib} {IL : Ibc.IbcLib} {BB : BackendLib}.
Context (caller : string).

Lemma transparent_eth_hash hash : transparent (GetTxByEthHash b hash).
Proof. unfold GetTxByEthHash. transparent_tac. Qed.
#[local] Hint Resolve transparent_eth_hash : transparent.

Lemma transparent_receipts_of hashes : transparent (receipts_of b hashes).
Proof. induction hashes as [|x hashes IH]; cbn [receipts_of]; transparent_tac. Qed.
#[local] Hint Resolve transparent_receipts_of : transparent.

Lemma transparent_GetTransactionReceipt hash : transparent (GetTransactionReceipt caller b hash).
Proof. unfold GetTransactionReceipt, cached_receipt. transparent_tac. Qed.

Lemma transparent_GetBlockReceipts r : transparent (GetBlockReceipts caller b r).
Proof. unfold GetBlockReceipts, cachedBlockReceipts. transparent_tac. Qed.

(** ** Transactions *)

Lemma transparent_GetTransactionByHash hash : transparent (GetTransactionByHash caller b hash).
Proof. unfold GetTransactionByHash, cached_transaction. transparent_tac. Qed.

Lemma transparent_tx_index height idx : transparent (GetTxByTxIndex b height idx).
Proof. unfold GetTxByTxIndex. transparent_tac. Qed.
#[local] Hint Resolve transparent_tx_index : transparent.

Lemma transparent_block_and_index rb idx : transparent (GetTransactionByBlockAndIndex caller b rb idx).
Proof. unfold GetTransactionByBlockAndIndex. transparent_tac. Qed.
#[local] Hint Resolve transparent_block_and_index : transparent.

Lemma transparent_cached_at ix height idx go_on : transparent go_on → transparent (cached_at b ix height idx go_on).
Proof. intros Hg. unfold cached_at. transparent_tac. Qed.

Lemma transparent_GetTransactionByBlockHashAndIndex hash idx : transparent (GetTransactionByBlockHashAndIndex caller b hash idx).
Proof.
  unfold GetTransactionByBlockHashAndIndex. set (live := match client b with None => _ | Some c => _ end).
  assert (transparent live) as Hl by (unfold live; transparent_tac). clearbody live.
  pose proof (λ ix h, transparent_cached_at ix h idx live Hl). transparent_tac.
Qed.

Lemma transparent_GetTransactionByBlockNumberAndIndex number idx : transparent (GetTransactionByBlockNumberAndIndex caller b number idx).
Proof.
  unfold GetTransactionByBlockNumberAndIndex. cbv zeta. set (live := bind _ _).
  assert (transparent live) as Hl by (unfold live; transparent_tac). clearbody live.
  pose proof (λ ix h, transparent_cached_at ix h idx live Hl). transparent_tac.
Qed.

(** ** Logs *)

Lemma transparent_logs_missed : transparent logs_missed.
Proof. unfold logs_missed. transparent_tac. Qed.
#[local] Hint Resolve transparent_logs_missed : transparent.

Lemma transparent_read_logs {A} (read : res error A) (live : M RC LC A) : transparent live → transparent (read_logs read live).
Proof. intros Hl. unfold read_logs. transparent_tac. Qed.

Lemma transparent_cached_logs {A} meta (read : IndexReader → CachedBlockMeta → M RC LC A → M RC LC A) live :
  transparent live →
  (∀ ix m, indexer b = Some ix → meta ix = Ok m → transparent (read ix m live)) →
  transparent (cached_logs b meta read live).
Proof.
  intros Hl Hr. unfold cached_logs. destruct (indexer b) as [ix|] eqn:Ei; [|done].
  destruct (meta ix) as [m|e|p] eqn:Em.
  - change (transparent (if cachedMetaMatchesVirtualization b (Some m) then read ix m live
      else if OfflineRPCOnly (cfg b) then lift (Err (Errorf "cached block virtualization mode mismatch at height %d"))
      else logs_missed ;; live)). specialize (Hr ix m eq_refl Em). transparent_tac.
  - exact Hl.
  - by intros s Hs.
Qed.

(** A whole-block request looks in the cache first. *)
Lemma transparent_read_filtered ix addresses topics height live :
  indexer b = Some ix → (broadLogFilter addresses topics = true → topics = []) → transparent live →
  transparent (read_filtered addresses topics height (ir_GetFilteredLogsByBlockHeight ix height addresses topics) live).
Proof.
  intros Hix Ht Hl. unfold read_filtered. destruct (broadLogFilter addresses topics) eqn:Eb; [|by apply transparent_read_logs].
  rewrite (Ht eq_refl) in *. destruct addresses; [|done]. clear Eb Ht.
  match goal with |- transparent (bind _ ?g) => set (f := g) end.
  assert (∀ s, coherent s → coherent (f None s).2 ∧ f None (forget s) = ((f None s).1, forget (f None s).2)) as Hnone.
  { intros s Hs. unfold f, call, lift. destruct (ir_GetFilteredLogsByBlockHeight ix height [] []) as [logs|e|p] eqn:Hx;
      [|apply (transparent_bind logs_missed (λ _, live)); auto with transparent|by split].
    destruct s as [[c|] sync]; [|by split]. split; [|done]. destruct (Hs c eq_refl) as [Hr Hc].
    intros c' [= <-]; cbn. split; [done|]. intros h l [[-> ->]|[_ Hh]]%lru_Add_view; [by exists ix|]. by apply Hc. }
  intros [[c|] sync] Hs; [|exact (Hnone _ Hs)]. destruct (Hs c eq_refl) as [Hr Hc].
  pose proof (lru_Get_view (blockLogs c) height) as Hv. pose proof (λ k, lru_Get_keeps (blockLogs c) height k) as Hk.
  unfold bind, getBlockLogs. cbn [materialized blockLogs receipts forget syncStatus].
  destruct (lru_Get (blockLogs c) height) as [v lc]; cbn [fst snd] in *.
  assert (coherent (mkBState (Some (mkCache (receipts c) lc)) sync)) as Hs'.
  { intros c' [= <-]; cbn. split; [done|]. intros h l. rewrite Hk. apply Hc. }
  destruct v as [logs|]; [|exact (Hnone _ Hs')].
  destruct (Hc height logs) as (ix' & Hi & Hx); [exact (eq_sym Hv)|]. replace ix' with ix in Hx by congruence.
  split; [exact Hs'|]. unfold f, call, lift. rewrite Hx. reflexivity.
Qed.

Lemma transparent_GetLogsByHeight height : transparent (GetLogsByHeight caller b height).
Proof.
  apply transparent_cached_logs; [transparent_tac|]. intros. apply transparent_read_logs. transparent_tac.
Qed.
#[local] Hint Resolve transparent_GetLogsByHeight : transparent.

Lemma transparent_GetLogs hash : transparent (GetLogs caller b hash).
Proof.
  apply transparent_cached_logs; [transparent_tac|]. intros. apply transparent_read_logs. transparent_tac.
Qed.
#[local] Hint Resolve transparent_GetLogs : transparent.

Lemma transparent_GetFilteredLogsByHeight height addresses topics :
  (broadLogFilter addresses topics = true → topics = []) →
  transparent (GetFilteredLogsByHeight caller b height addresses topics).
Proof.
  intros Ht. apply transparent_cached_logs; [transparent_tac|]. intros ix m Hi _.
  apply transparent_read_filtered; [done..|transparent_tac].
Qed.

Lemma transparent_GetFilteredLogs hash addresses topics :
  (∀ ix, indexer b = Some ix → hash_reads ix) → (broadLogFilter addresses topics = true → topics = []) →
  transparent (GetFilteredLogs caller b hash addresses topics).
Proof.
  intros Hh Ht. apply transparent_cached_logs; [transparent_tac|]. intros ix m Hi Hm.
  rewrite (logs_by_hash _ (Hh _ Hi) _ _ _ _ Hm). apply transparent_read_filtered; [done..|transparent_tac].
Qed.
End cache.

(** ** Sequences of requests *)

Inductive request :=
  | ReqReceipt (hash : Hash)
  | ReqBlockReceipts (ref : BlockNumberOrHash)
  | ReqLogs (hash : Hash)
  | ReqLogsByHeight (height : Z)
  | ReqFilteredLogs (hash : Hash) (addresses : list Address) (topics : list (list Hash))
  | ReqFilteredLogsByHeight (height : Z) (addresses : list Address) (topics : list (list Hash)).

Inductive answer :=
  | AnsReceipt (r : option (gmap string Value))
  | AnsReceipts (rs : option (list (gmap string Value)))
  | AnsGroups (groups : list (list (option RPCLog)))
  | AnsLogs (logs : list (option RPCLog)).

(** A filter without addresses has no topic positions either. *)
Definition plain (r : request) : Prop :=
  match r with
  | ReqFilteredLogs _ addresses topics | ReqFilteredLogsByHeight _ addresses topics =>
      broadLogFilter addresses topics = true → topics = []
  | _ => True
  end.

Section requests.
Context {EL : EthLib} {CL : ChainLib} {LJ : LogJSON} {PB : Proto} {BL : Bank.BankLib} {IL : Ibc.IbcLib} {BB : BackendLib}.
Context {RC LC : Type} `{!LRU Hash (gmap string Value) RC} `{!LRULaws Hash (gmap string Value) RC}
        `{!LRU Z (list (option RPCLog)) LC} `{!LRULaws Z (list (option RPCLog)) LC}.
Context (caller : string) (b : Backend).

Definition serve (r : request) : M RC LC answer :=
  match r with
  | ReqReceipt hash => do! x := GetTransactionReceipt caller b hash in ret (AnsReceipt x)
  | ReqBlockReceipts ref => do! x := GetBlockReceipts caller b ref in ret (AnsReceipts x)
  | ReqLogs hash => do! x := GetLogs caller b hash in ret (AnsGroups x)
  | ReqLogsByHeight height => do! x := GetLogsByHeight caller b height in ret (AnsGroups x)
  | ReqFilteredLogs hash addresses topics => do! x := GetFilteredLogs caller b hash addresses topics in ret (AnsLogs x)
  | ReqFilteredLogsByHeight height addresses topics =>
      do! x := GetFilteredLogsByHeight caller b height addresses topics in ret (AnsLogs x)
  end.

(** The answers, errors included, one after the other. *)
Fixpoint serve_all (rs : list request) (s : bstate RC LC) : list (res error answer) :=
  match rs with
  | [] => []
  | r :: rs => let '(a, s) := serve r s in a :: serve_all rs s
  end.

Lemma transparent_serve r : (∀ ix, indexer b = Some ix → hash_reads ix) → plain r → transparent b (serve r).
Proof.
  intros Hh Hp. destruct r; (apply transparent_bind; [|intros ?; apply transparent_ret]).
  - apply transparent_GetTransactionReceipt.
  - apply transparent_GetBlockReceipts.
  - apply transparent_GetLogs.
  - apply transparent_GetLogsByHeight.
  - by apply transparent_GetFilteredLogs.
  - by apply transparent_GetFilteredLogsByHeight.
Qed.

Lemma serve_all_transparent rs s :
  (∀ ix, indexer b = Some ix → hash_reads ix) → Forall plain rs → coherent b s →
  serve_all rs s = serve_all rs (forget s).
Proof.
  intros Hh Hp. revert s. induction Hp as [|r rs Hr _ IH]; intros s Hs; [done|]. cbn.
  destruct (transparent_serve r Hh Hr s Hs) as [H1 H2]. rewrite H2. destruct (serve r s) as [a s']. cbn. by rewrite IH.
Qed.

Lemma new_cache_coherent c sync : newMaterializedCache = Ok c → coherent b (mkBState (Some c) sync).
Proof.
  unfold newMaterializedCache. destruct (lru_New materializedReceiptCacheSize) as [rc| |] eqn:E1; [|done..].
  destruct (lru_New materializedBlockLogsCacheSize) as [lc| |] eqn:E2; [|done..]. intros [= <-] c' [= <-]. cbn.
  split; intros k v; [by rewrite (lru_New_empty _ _ _ E1)|by rewrite (lru_New_empty _ _ _ E2)].
Qed.

End requests.

(** ** The key-value index *)

Section kv.
Context {D : Type} {DB : KVDB D} {SD : SDK} {EL : EthLib} {CP : CapnpLib} {LG : LegacyLib}.

(** Metadata is stored under its own height. *)
Definition metas_placed (d : D) : Prop :=
  ∀ h meta, is_int64 h → IndexerQuery.GetBlockMetaByHeight d h = Ok meta → m_Height meta = h.

Lemma int64_in_range z : is_int64 (int64 z).
Proof. gate_ints. pose proof (Z.mod_pos_bound (z + 2 ^ 63) (2 ^ 64)). lia. Qed.

Lemma kv_hash_reads d : metas_placed d → hash_reads (kv_reader d).
Proof.
  intros Hd. constructor. intros hash meta addresses topics. cbn. unfold IndexerQuery.GetBlockMetaByHash, IndexerQuery.GetFilteredLogsByBlockHash.
  unfold IndexerQuery.get_record at 1 2. destruct (db_get d (BlockHashKey hash)) as [[|x bz]| |]; [done| |done..].
  cbn [Indexer.wrap res_map_err res_bind]. intros H. by rewrite (Hd _ _ (int64_in_range _) H).
Qed.
End kv.

Section placed.
Context {D : Type} {DB : KVDB D} {DBL : KVDBLaws D} {DBR : KVDBReliable D} {SD : SDK} {SDL : SDKLaws} {EL : EthLib}
        {ELL : EthLibLaws} {CL : ChainLib} {LJ : LogJSON} {PB : Proto} {BL : Bank.BankLib} {IL : Ibc.IbcLib}
        {CP : CapnpLib} {CPL : CapnpLaws} {LG : LegacyLib}.

Lemma meta_read_same (d d' : D) h :
  contents d' !! BlockMetaKey h = contents d !! BlockMetaKey h →
  IndexerQuery.GetBlockMetaByHeight d' h = IndexerQuery.GetBlockMetaByHeight d h.
Proof.
  intros E. unfold IndexerQuery.GetBlockMetaByHeight, IndexerQuery.get_record. by rewrite !IndexerProps.db_get_reliable, E.
Qed.

Lemma indexed_placed caller kv (d : D) block results stats d' :
  0 ≤ blk_Height block < 2 ^ 63 → (∀ bz tx, TxDecoder bz = Ok tx → tx_hashes_wf tx) →
  wf_store (contents d) → wf_bytes (blk_Hash block) → metas_placed d →
  Indexer.indexBlockWithStats caller kv d block results = (Ok stats, d') → metas_placed d'.
Proof.
  intros Hh Hdec Hwf Hblk Hp Hrun h meta Hi Hm.
  destruct (IndexerProps.indexBlock_built _ _ _ _ _ _ _ Hh Hdec Hrun) as (ba & s & hs & meta' & metaBz & logsBz & Hb & Hd').
  destruct (decide (h = blk_Height block)) as [->|Hne].
  - destruct (final_block kv d block _ _ _ _ _ _ _ Hb) as (F1 & _). rewrite <- Hd' in F1.
    pose proof (bu_metaBz _ _ _ _ _ _ _ _ _ _ Hb) as Hz. unfold IndexerQuery.GetBlockMetaByHeight in Hm.
    rewrite (IndexerProps.get_record_present _ _ metaBz) in Hm by (done || by eapply IndexerProps.payload_nonempty).
    cbn in Hm. rewrite (BlockMeta_roundtrip _ _ Hz) in Hm. injection Hm as <-.
    by destruct (bu_meta _ _ _ _ _ _ _ _ _ _ Hb) as (root & _ & ->).
  - apply (Hp h meta Hi). rewrite <- Hm. symmetry. apply meta_read_same. rewrite Hd'.
    by apply (final_other kv d block Hh Hwf _ _ _ _ _ _ _ Hb Hblk (KBlockMeta h) h).
Qed.

Lemma deleted_placed (d : D) h d' :
  0 ≤ h < 2 ^ 63 → wf_store (contents d) → metas_placed d → Indexer.DeleteBlock d h = (Ok tt, d') → metas_placed d'.
Proof.
  intros Hh Hwf Hp Hrun n meta Hn Hm. destruct (IndexerProps.deleted_records d h d' Hh Hwf Hrun) as [_ Hr].
  destruct (Hr (KBlockMeta n) Hn) as [H1 H2]. destruct (decide (n = h)) as [->|Hne].
  - cbn [encode] in H1. unfold IndexerQuery.GetBlockMetaByHeight in Hm.
    rewrite IndexerProps.get_record_absent in Hm by (by apply H1). done.
  - apply (Hp n meta Hn). rewrite <- Hm. symmetry. apply meta_read_same. apply H2. by intros E.
Qed.
End placed.

(** ** Concrete requests *)

Module Witness.
Import EthInstances IndexerSample BackendSample CodecInstances.

Notation RC := (lru_cache Hash (gmap string Value)).
Notation LC := (lru_cache Z (list (option RPCLog))).

Definition new_caches : materializedCache RC LC := mkCache (mkLRU 8192 []) (mkLRU 512 []).

Lemma new_caches_ok : newMaterializedCache = Ok new_caches.
Proof. reflexivity. Qed.

Lemma sample_placed : metas_placed (sample_store : gmap bytes bytes).
Proof.
  eapply (indexed_placed (D := gmap bytes bytes) "0x01" sample_indexer ∅ sample_block (Some sample_results) (Indexer.mkStats 1)).
  - exact (proj1 sample_block_wf).
  - exact sample_decodes.
  - exact empty_store_wf.
  - exact (proj2 sample_block_wf).
  - intros h meta _ H. vm_compute in H. discriminate H.
  - exact sample_run_ok.
Qed.

Definition sample_requests : list request :=
  [ReqReceipt eth_hash; ReqFilteredLogsByHeight 12 [] []; ReqReceipt eth_hash; ReqFilteredLogs (be_bytes 32 1000) [] []].


(** ** Filters with empty topic positions

    One log without topics.  The filter with one empty topic position counts as
    a whole-block request, but it does not match the log; its empty answer is
    then served to requests for all logs of the block. *)
Definition bare_log : RPCLog := mkRPCLog (be_bytes 20 1) [] [] 5 (be_bytes 32 2) 0 (be_bytes 32 3) 0 false false None None.
Definition bare_meta : CachedBlockMeta := mkMeta 5 EmptyString EmptyString EmptyString EmptyString 0 0 0 0 1 1 EmptyString EmptyString EmptyString true.

Definition bare_reader : IndexReader :=
  mkReader (Ok 5) (λ _, Err (New "none")) (λ _ _, Err (New "none")) (λ _, Err (New "none")) (λ _ _, Err (New "none")) (λ _, Ok [])
    (λ _, Err (New "none")) (λ _, Ok false) (λ _, Ok bare_meta) (λ _, Ok bare_meta) (λ _, Ok [[Some bare_log]])
    (λ _, Ok [[Some bare_log]]) (λ _ a t, Ok (filterGroupedLogs [[Some bare_log]] a t))
    (λ _ a t, Ok (filterGroupedLogs [[Some bare_log]] a t)).

Definition bare_backend : Backend := mkBackend sample_config (Some 1776) None silent_queries (Some bare_reader).

Lemma broad_topics_order :
  broadLogFilter [] [[]] = true ∧
  serve_all "0x01" bare_backend [ReqFilteredLogsByHeight 5 [] []; ReqFilteredLogsByHeight 5 [] [[]]]
    (mkBState (Some new_caches) None) = [Ok (AnsLogs [Some bare_log]); Ok (AnsLogs [Some bare_log])] ∧
  serve_all "0x01" bare_backend [ReqFilteredLogsByHeight 5 [] [[]]; ReqFilteredLogsByHeight 5 [] []]
    (mkBState (Some new_caches) None) = [Ok (AnsLogs []); Ok (AnsLogs [])] ∧
  serve_all "0x01" bare_backend [ReqFilteredLogsByHeight 5 [] [[]]; ReqFilteredLogsByHeight 5 [] []]
    (mkBState None None) = [Ok (AnsLogs []); Ok (AnsLogs [Some bare_log])].
Proof. split_and!; vm_compute; reflexivity. Qed.
End Witness.
End BackendCache.
