(* ===== verification/BackendProps.v ===== *)
(** * Which answers come from the index

    In offline mode the read paths do not consult the node, and an indexed
    block is served from the index when its virtualization mode is the
    backend's; a lookup by position does not check the mode the second time. *)

From Stdlib Require Import Ascii String.
From S2P Require Import Prelude Bytes Instances GoLib EthTypes EthInstances Keys Tracker ParsedTx Normalize.
From S2P Require Import Virtual VirtualBank VirtualIbc VirtualResponse RpcUtils Cached Codec Indexer IndexerQuery.
From S2P Require Import CodecInstances CodecProps IndexerStore IndexerLoop IndexerBatch IndexerSample IndexerProps.
From S2P Require Import RpcTypes Backend BackendLive BackendBlocks BackendTx BackendLogs BackendSample.
From stdpp Require Import strings list.
#[local] Open Scope Z_scope.

Module BackendProps.
Import GoLib EthTypes Keys ParsedTx Normalize Virtual RpcUtils Cached Codec CodecProps Indexer IndexerStore IndexerLoop IndexerBatch.
Import RpcTypes Backend BackendLive BackendBlocks BackendTx.
#[local] Open Scope backend_scope.

(** The same backend over another node. *)
Definition with_node (b : Backend) (c : option Client) (q : QueryClient) : Backend :=
  mkBackend (cfg b) (chainID b) c q (indexer b).

Section offline.
Context {EL : EthLib} {CL : ChainLib} {LJ : LogJSON} {PB : Proto} {BL : Bank.BankLib} {IL : Ibc.IbcLib} {BB : BackendLib}.
Context {RC LC : Type} `{!LRU Hash (gmap string Value) RC} `{!LRU Z (list (option RPCLog)) LC}.
Context (caller : string) (b : Backend) (c : option Client) (q : QueryClient).
Context (Hoff : OfflineRPCOnly (cfg b) = true).
Notation b' := (with_node b c q).

(** With the node forbidden the cache always decides. *)
Lemma cached_block_decides lookup fullTx : cached_block b lookup true fullTx ≠ Ok None.
Proof.
  unfold cached_block. destruct lookup as [[meta|]|e|p]; [|done| |done].
  - case_match; [|done]. by case_match.
  - by case_match.
Qed.

Lemma cached_header_decides lookup absent : cached_header b lookup absent ≠ Ok None.
Proof.
  unfold cached_header. destruct lookup as [meta|e|p]; [|by rewrite Hoff|done].
  destruct (cachedMetaMatchesVirtualization b meta); [|by rewrite Hoff].
  by destruct (HeaderFromCachedBlockMeta meta).
Qed.

Lemma block_by_number_offline n fullTx : GetBlockByNumber caller b' n fullTx = GetBlockByNumber caller b n fullTx.
Proof.
  unfold GetBlockByNumber. rewrite Hoff. change (OfflineRPCOnly (cfg b')) with (OfflineRPCOnly (cfg b)). rewrite Hoff.
  change (cached_block b' _ _ _) with (cached_block b (cachedBlockMetaByNumber b n) true fullTx). cbn [orb].
  pose proof (cached_block_decides (cachedBlockMetaByNumber b n) fullTx). by destruct (cached_block _ _ _ _) as [[|]| |].
Qed.

Lemma block_by_hash_offline x fullTx : GetBlockByHash caller b' x fullTx = GetBlockByHash caller b x fullTx.
Proof.
  unfold GetBlockByHash. rewrite Hoff. change (OfflineRPCOnly (cfg b')) with (OfflineRPCOnly (cfg b)). rewrite Hoff.
  change (cached_block b' _ _ _) with (cached_block b (cachedBlockMetaByHash b x) true fullTx).
  pose proof (cached_block_decides (cachedBlockMetaByHash b x) fullTx). by destruct (cached_block _ _ _ _) as [[|]| |].
Qed.

Lemma header_by_number_offline n : HeaderByNumber caller b' n = HeaderByNumber caller b n.
Proof.
  unfold HeaderByNumber. change (cached_header b' _ _) with (cached_header b (cachedBlockMetaByNumber b n) (Errorf "block not found for height %d")).
  pose proof (cached_header_decides (cachedBlockMetaByNumber b n) (Errorf "block not found for height %d")).
  by destruct (cached_header _ _ _) as [[|]| |].
Qed.

Lemma header_by_hash_offline x : HeaderByHash caller b' x = HeaderByHash caller b x.
Proof.
  unfold HeaderByHash. change (cached_header b' _ _) with (cached_header b (cachedBlockMetaByHash b x) (Errorf "block not found for hash %s")).
  pose proof (cached_header_decides (cachedBlockMetaByHash b x) (Errorf "block not found for hash %s")).
  by destruct (cached_header _ _ _) as [[|]| |].
Qed.

Lemma block_reference_offline r : BlockNumberFromTendermint b' r = BlockNumberFromTendermint b r.
Proof.
  unfold BlockNumberFromTendermint, BlockNumberFromTendermintByHash. cbv zeta.
  change (OfflineRPCOnly (cfg b')) with (OfflineRPCOnly (cfg b)). by rewrite Hoff.
Qed.

Lemma bind_same {A B} (m : M RC LC A) (f g : A → M RC LC B) s : (∀ a s, f a s = g a s) → bind m f s = bind m g s.
Proof. intros H. unfold bind. destruct (m s) as [[a| |] s']; [apply H|done..]. Qed.

Lemma call_same {A B} (m : M RC LC A) (f f' : A → M RC LC B) (g g' : error → M RC LC B) s :
  (∀ a s, f a s = f' a s) → (∀ e s, g e s = g' e s) → call m f g s = call m f' g' s.
Proof. intros H1 H2. unfold call. destruct (m s) as [[a|e|] s']; [apply H1|apply H2|done]. Qed.

Lemma receipts_of_offline hashes : receipts_of (RC := RC) (LC := LC) b' hashes = receipts_of b hashes.
Proof. induction hashes as [|x hashes IH]; [done|]. cbn [receipts_of]. by rewrite IH. Qed.

Lemma block_receipts_offline r (s : bstate RC LC) : GetBlockReceipts caller b' r s = GetBlockReceipts caller b r s.
Proof.
  assert (cachedBlockReceipts b' r s = cachedBlockReceipts b r s) as Hc.
  { unfold cachedBlockReceipts. apply bind_same. intros [meta|] s1; [|done].
    change (cachedMetaMatchesVirtualization b') with (cachedMetaMatchesVirtualization b).
    change (indexer b') with (indexer b). case_match; [done|]. apply bind_same. intros _ s2. case_bool_decide; [done|].
    destruct (indexer b) as [ix|]; [|done]. apply bind_same. intros hashes s3. by rewrite receipts_of_offline. }
  unfold GetBlockReceipts. cbv zeta. change (OfflineRPCOnly (cfg b')) with (OfflineRPCOnly (cfg b)).
  change (indexer b') with (indexer b). rewrite Hoff.
  destruct (bnh_Hash r), (bnh_Number r), (indexer b); try done; unfold call; by rewrite Hc.
Qed.

Lemma cached_at_offline (ix : IndexReader) h i (go go' : M RC LC (option RPCTransaction)) s :
  cached_at b' ix h i go' s = cached_at b ix h i go s.
Proof.
  unfold cached_at, call, lift. destruct (ir_GetRPCTransactionByBlockAndIndex ix h (int32 i)); [done| |done].
  change (OfflineRPCOnly (cfg b')) with (OfflineRPCOnly (cfg b)). by rewrite Hoff.
Qed.

Lemma tx_by_position_offline n x i (s : bstate RC LC) :
  is_Some (indexer b) →
  GetTransactionByBlockHashAndIndex caller b' x i s = GetTransactionByBlockHashAndIndex caller b x i s ∧
  GetTransactionByBlockNumberAndIndex caller b' n i s = GetTransactionByBlockNumberAndIndex caller b n i s.
Proof.
  intros [ix Hix]. unfold GetTransactionByBlockHashAndIndex, GetTransactionByBlockNumberAndIndex. cbv zeta.
  change (indexer b') with (indexer b). change (OfflineRPCOnly (cfg b')) with (OfflineRPCOnly (cfg b)).
  change (cachedMetaMatchesVirtualization b') with (cachedMetaMatchesVirtualization b).
  change (indexedBlockHeight b') with (indexedBlockHeight b). rewrite Hix, Hoff. split.
  - apply call_same; [|done]. intros meta s1. case_match; [done|]. apply cached_at_offline.
  - apply call_same; [|done]. intros h s1. case_bool_decide; [|done].
    apply call_same; [|intros _ s2; apply cached_at_offline]. intros meta s2. case_match; [apply cached_at_offline|done].
Qed.
End offline.


(** ** Indexed blocks are served from the index *)

(** Texts of hashes and addresses (go-ethereum's common package). *)
Class TextLaws `{EthLib} : Prop := {
  Hash_Hex_Encode h : Hash_Hex h = hexutil_Encode h;
  IsHexAddress_Hex a : is_address a → IsHexAddress (Address_Hex a) = true;
  Encode_nonempty bz : hexutil_Encode bz ≠ EmptyString;
}.

Section served.
Context {D : Type} {DB : KVDB D} {DBL : KVDBLaws D} {DBR : KVDBReliable D} {SD : SDK} {SDL : SDKLaws} {EL : EthLib}
        {ELL : EthLibLaws} {TL : TextLaws} {CL : ChainLib} {CLL : ChainLibLaws} {LJ : LogJSON} {PB : Proto}
        {BL : Bank.BankLib} {IL : Ibc.IbcLib} {CP : CapnpLib} {CPL : CapnpLaws} {LG : LegacyLib} {BB : BackendLib}.
Context (caller : string).

Lemma hash_text h : is_hash h → isHexHashString (Hash_Hex h) = true.
Proof.
  intros [Hl Hw]. unfold isHexHashString. rewrite Hash_Hex_Encode, Decode_Encode by done. by apply bool_decide_eq_true_2.
Qed.

(** Header fields of a block have the lengths the chain gives them. *)
Definition wf_header (block : Block) : Prop :=
  1 ≤ blk_Height block < 2 ^ 63 ∧ wf_bytes (blk_Hash block) ∧ wf_bytes (blk_LastBlockID_Hash block) ∧
  is_hash (blk_AppHash block) ∧ wf_bytes (blk_DataHash block) ∧ wf_bytes (blk_ProposerAddress block) ∧
  Z.of_nat (length (blk_Txs block)) < 2 ^ 31.

Lemma block_meta_valid kv block s root baseFee :
  wf_header block → transactions_root kv block s = Ok root → 0 ≤ visible_count kv s →
  (∀ fee, baseFee = Some fee → 0 ≤ fee < 2 ^ 256) →
  ValidateCachedBlockMeta (Some (block_meta kv block s root baseFee)) = Ok tt.
Proof.
  intros (H1 & H2 & H3 & H4 & H5 & H6 & H7) Hroot Hcount Hfee. unfold ValidateCachedBlockMeta, block_meta.
  cbn [m_Height m_EthTxCount m_TxCount m_Hash m_ParentHash m_StateRoot m_Miner m_TransactionsRoot m_Bloom m_BaseFee].
  rewrite bool_decide_eq_false_2 by lia. rewrite bool_decide_eq_false_2 by lia.
  rewrite int32_small, bool_decide_eq_false_2 by (gate_ints; lia).
  rewrite !hash_text by (by apply BytesToHash_wf). rewrite <- Hash_Hex_Encode, hash_text by done.
  rewrite IsHexAddress_Hex by (by apply BytesToAddress_wf). rewrite !andb_false_r. cbn [negb].
  assert (isHexHashString root = true) as ->.
  { unfold transactions_root in Hroot. case_bool_decide; [|injection Hroot as <-; apply hash_text, EmptyRootHash_wf].
    destruct (Indexer.virtualizationEnabled kv); [case_bool_decide; [done|]|]; injection Hroot as <-; apply hash_text; [|by apply BytesToHash_wf].
    unfold visibleRPCTxsRoot. destruct (s_hashes s); [apply EmptyRootHash_wf|]. apply BytesToHash_wf, merkle_wf. }
  destruct (LogsBloom_wf (EthLogs (s_flatLogs s))) as [L1 L2]. unfold valid_bloom. rewrite Decode_Encode by done.
  rewrite (bool_decide_eq_true_2 (_ = BloomByteLength)) by done. cbn [negb]. rewrite !andb_false_r.
  case_bool_decide; [|done]. destruct baseFee as [fee|]; [|done]. cbn. by rewrite DecodeBig_EncodeBig by auto.
Qed.

(** What the backend needs of an indexed block: valid metadata, found by height and by hash,
    and as many listed hashes as it says. *)
Lemma indexed_meta kv (d : D) block results stats d' :
  wf_header block → (∀ bz tx, TxDecoder bz = Ok tx → tx_hashes_wf tx) → wf_store (contents d) →
  (∀ fee, blockBaseFeeFromResults results = Some fee → 0 ≤ fee < 2 ^ 256) →
  (∀ s, run_loop caller kv d block results = Ok s → Z.of_nat (length (s_blockLogs s)) < 2 ^ 31) →
  indexBlockWithStats caller kv d block results = (Ok stats, d') →
  ∃ meta hs,
    IndexerQuery.GetBlockMetaByHeight d' (blk_Height block) = Ok meta ∧
    IndexerQuery.GetBlockMetaByHash d' (blockHash block) = Ok meta ∧
    IndexerQuery.GetRPCTransactionHashesByBlockHeight d' (blk_Height block) = Ok hs ∧
    ValidateCachedBlockMeta (Some meta) = Ok tt ∧ m_EthTxCount meta = Z.of_nat (length hs) ∧
    hs = visible_hashes kv block results ∧
    ∃ s root bz, meta = block_meta kv block s root (blockBaseFeeFromResults results) ∧ s_flatLogs s = mjoin (s_blockLogs s) ∧
      contents d' !! BlockLogsKey (blk_Height block) = Some bz ∧ mustMarshalBlockLogs (s_blockLogs s) = Ok bz.
Proof.
  intros Hw Hdec Hwf Hfee Hcount Hrun. destruct (id Hw) as (Hh1 & Hblk & _).
  assert (0 ≤ blk_Height block < 2 ^ 63) as Hh by lia.
  destruct (IndexerProps.indexBlock_ran _ _ _ _ _ _ _ Hh Hdec Hrun) as (ba & s & hs & meta & metaBz & logsBz & [Hb Hl] & Hd').
  destruct (final_block kv d block _ _ _ _ _ _ _ Hb) as (F1 & F2 & F3). rewrite <- Hd' in F1, F2, F3.
  pose proof (bu_inv _ _ _ _ _ _ _ _ _ _ Hb) as Hi. specialize (Hcount s Hl). rewrite (li_groups _ _ _ _ _ Hi) in Hcount.
  destruct (bu_meta _ _ _ _ _ _ _ _ _ _ Hb) as (root & Hroot & Em). pose proof (bu_metaBz _ _ _ _ _ _ _ _ _ _ Hb) as Hm.
  assert (visible_count kv s = Z.of_nat (length hs)) as Hvis.
  { rewrite <- (int32_small (Z.of_nat (length hs))) by (gate_ints; lia). unfold visible_count.
    rewrite <- (li_rpc _ _ _ _ _ Hi). destruct (Indexer.virtualizationEnabled kv) eqn:Ev; [done|]. by apply (li_eth _ _ _ _ _ Hi). }
  assert (IndexerQuery.GetBlockMetaByHeight d' (blk_Height block) = Ok meta) as Hmeta.
  { unfold IndexerQuery.GetBlockMetaByHeight.
    rewrite (IndexerProps.get_record_present _ _ metaBz) by (done || by eapply IndexerProps.payload_nonempty).
    cbn. by rewrite (BlockMeta_roundtrip _ _ Hm). }
  exists meta, hs. split; [done|]. split.
  { unfold IndexerQuery.GetBlockMetaByHash.
    rewrite (IndexerProps.get_record_present _ _ _ _ _ F3) by (intros E; pose proof (be_length (uint64 (blk_Height block))) as L; by rewrite E in L).
    cbn [res_bind]. rewrite be_roundtrip by apply uint64_range. by rewrite int64_uint64 by (gate_ints; lia). }
  split.
  { apply IndexerProps.rpc_index_listed; [done| |lia|apply (li_hashes _ _ _ _ _ Hi)|]; rewrite Hd'; [by eapply final_wf|].
    intros j Hj. eapply final_rpc; try eassumption; lia. }
  rewrite Em. split; [apply block_meta_valid; [done..|lia|done]|]. split; [exact Hvis|]. split; [apply (bu_visible _ _ _ _ _ _ _ _ _ _ Hb)|].
  exists s, root, logsBz. split_and!; [done|apply (li_flat _ _ _ _ _ Hi)|done|apply (bu_logsBz _ _ _ _ _ _ _ _ _ _ Hb)].
Qed.

Lemma cached_hashes (ix : IndexReader) meta i hs :
  zero_hash ∉ hs → res_mapM (cached_tx ix meta false) (imap (λ j, pair (i + j)%nat) hs) = Ok (TxHash_ <$> hs).
Proof.
  revert i. induction hs as [|x hs IH]; intros i Hz; [done|]. cbn. apply not_elem_of_cons in Hz as [Hx Hz].
  rewrite bool_decide_eq_false_2 by done. cbn. change (imap _ hs) with (imap (λ j, pair (i + S j)%nat) hs).
  rewrite (imap_ext _ (λ j, pair (S i + j)%nat)) by (intros; f_equal; lia). by rewrite IH.
Qed.

(** The block built from valid metadata, with the listed hashes. *)
Lemma block_from_meta b d meta hs :
  indexer b = Some (kv_reader (D := D) d) → ValidateCachedBlockMeta (Some meta) = Ok tt → m_EthTxCount meta = Z.of_nat (length hs) →
  IndexerQuery.GetRPCTransactionHashesByBlockHeight d (m_Height meta) = Ok hs → zero_hash ∉ hs →
  (m_BaseFee meta = ""%string ∨ ∃ fee, hexutil_DecodeBig (m_BaseFee meta) = Ok fee) →
  ∃ blk, rpcBlockFromCachedMeta b meta false = Ok blk ∧
    blk !! "number"%string = Some (BUint64 (uint64 (m_Height meta))) ∧
    blk !! "hash"%string = Some (BBytes (HexToHash (m_Hash meta))) ∧
    blk !! "parentHash"%string = Some (BHash (HexToHash (m_ParentHash meta))) ∧
    blk !! "logsBloom"%string =
      Some (BBloom (if bool_decide (m_Bloom meta ≠ ""%string) then BytesToBloom (FromHex (m_Bloom meta)) else zero_bloom)) ∧
    blk !! "timestamp"%string = Some (BUint64 (uint64 (m_Timestamp meta))) ∧
    blk !! "transactions"%string = Some (BTransactions (TxHash_ <$> hs)).
Proof.
  intros Hix Hv Hc Hh Hz Hfee. unfold rpcBlockFromCachedMeta. rewrite Hv. cbn [res_bind].
  assert (cachedBlockTransactions b meta false = Ok (TxHash_ <$> hs)) as ->.
  { unfold cachedBlockTransactions. rewrite bool_decide_eq_false_2 by lia. case_bool_decide as H0.
    - destruct hs; [done|]. cbn in Hc. lia.
    - rewrite Hix. cbn [ir_GetRPCTransactionHashesByBlockHeight kv_reader]. rewrite Hh. cbn [res_bind].
      rewrite bool_decide_eq_false_2 by (intros E; by apply E). exact (cached_hashes _ _ 0 _ Hz). }
  cbn [res_bind]. destruct Hfee as [->|[fee Hfee]].
  - rewrite bool_decide_eq_false_2 by auto. eexists. split; [reflexivity|]. by split_and!.
  - case_bool_decide; [|eexists; split; [reflexivity|]; by split_and!]. rewrite Hfee. cbn [Indexer.wrap res_map_err res_bind].
    eexists. split; [reflexivity|]. rewrite !lookup_insert_ne by done. by split_and!.
Qed.

(** C3. An indexed block is served from the index: after a block was indexed, a
    backend in the same virtualization mode answers GetBlockByNumber and GetBlockByHash
    (without full transactions) with the block's number, hash, parent and time, the bloom of
    the logs stored for it, and the hashes of its visible transactions in order, whichever node it
    has; and HeaderByNumber and HeaderByHash answer with a header of that number, parent, time
    and bloom.  The base fee must be a 256-bit number and, for the block itself, no visible
    transaction may have the zero hash, which the serving path takes for a missing one. *)
Theorem indexed_block_served kv (d : D) block results stats d' b :
  wf_header block → (∀ bz tx, TxDecoder bz = Ok tx → tx_hashes_wf tx) → wf_store (contents d) →
  (∀ fee, blockBaseFeeFromResults results = Some fee → 0 ≤ fee < 2 ^ 256) →
  (∀ s, run_loop caller kv d block results = Ok s → Z.of_nat (length (s_blockLogs s)) < 2 ^ 31) →
  indexBlockWithStats caller kv d block results = (Ok stats, d') →
  indexer b = Some (kv_reader d') → VirtualizeCosmosEvents (cfg b) = Indexer.virtualizationEnabled kv →
  let hs := visible_hashes kv block results in
  ∃ groups bz,
    contents d' !! BlockLogsKey (blk_Height block) = Some bz ∧ mustMarshalBlockLogs groups = Ok bz ∧
    let bloom := BytesToBloom (LogsBloom (EthLogs (mjoin groups))) in
    (∃ header, HeaderByNumber caller b (blk_Height block) = Ok header ∧ HeaderByHash caller b (blockHash block) = Ok header ∧
       (h_Number header, h_ParentHash header, h_Time header, h_Bloom header) =
         (blk_Height block, BytesToHash (blk_LastBlockID_Hash block), uint64 (blk_Time_Unix block), bloom)) ∧
    (zero_hash ∉ hs → ∃ blk,
       GetBlockByNumber caller b (blk_Height block) false = Ok (Some blk) ∧
       GetBlockByHash caller b (blockHash block) false = Ok (Some blk) ∧
       blk !! "number"%string = Some (BUint64 (blk_Height block)) ∧
       blk !! "hash"%string = Some (BBytes (blockHash block)) ∧
       blk !! "parentHash"%string = Some (BHash (BytesToHash (blk_LastBlockID_Hash block))) ∧
       blk !! "logsBloom"%string = Some (BBloom bloom) ∧
       blk !! "timestamp"%string = Some (BUint64 (uint64 (blk_Time_Unix block))) ∧
       blk !! "transactions"%string = Some (BTransactions (TxHash_ <$> hs))).
Proof.
  intros Hw Hdec Hwf Hfee Hcount Hrun Hix Hmode hs.
  destruct (indexed_meta kv d block results stats d' Hw Hdec Hwf Hfee Hcount Hrun)
    as (meta & hs0 & M1 & M2 & M3 & M4 & M5 & -> & s & root & bz & Em & Hflat & L1 & L2). fold hs in M3, M5.
  destruct Hw as (Hh & Hblk & Hlast & _). exists (s_blockLogs s), bz. split; [done|]. split; [done|]. intros bloom.
  assert (cachedBlockMetaByNumber b (blk_Height block) = Ok (Some meta)) as C1.
  { unfold cachedBlockMetaByNumber, indexedBlockHeight. rewrite Hix. rewrite bool_decide_eq_false_2 by lia. cbn [res_bind].
    assert (Int64 (blk_Height block) = blk_Height block) as -> by (unfold Int64; do 2 (case_bool_decide; [lia|]); done).
    rewrite bool_decide_eq_false_2 by lia. cbn. by rewrite M1. }
  assert (cachedBlockMetaByHash b (blockHash block) = Ok (Some meta)) as C2.
  { unfold cachedBlockMetaByHash. rewrite Hix. cbn. by rewrite M2. }
  assert (cachedMetaMatchesVirtualization b (Some meta) = true) as C3.
  { unfold cachedMetaMatchesVirtualization. rewrite Hmode, Em. cbn. by destruct (Indexer.virtualizationEnabled kv). }
  assert (m_BaseFee meta = ""%string ∨ ∃ fee, hexutil_DecodeBig (m_BaseFee meta) = Ok fee) as C4.
  { rewrite Em. cbn. destruct (blockBaseFeeFromResults results) as [fee|]; [|by left]. right. exists fee. cbn.
    by rewrite DecodeBig_EncodeBig by auto. }
  assert (m_Bloom meta ≠ ""%string ∧ BytesToBloom (FromHex (m_Bloom meta)) = bloom) as [C5 C6].
  { rewrite Em. cbn. split; [apply Encode_nonempty|]. by rewrite FromHex_Encode, Hflat by apply LogsBloom_wf. }
  split.
  - assert (∃ header, HeaderFromCachedBlockMeta (Some meta) = Ok header ∧
      (h_Number header, h_ParentHash header, h_Time header, h_Bloom header) =
      (m_Height meta, HexToHash (m_ParentHash meta), uint64 (m_Timestamp meta), bloom)) as (header & Hhead & Hf).
    { unfold HeaderFromCachedBlockMeta. rewrite M4, C6. cbn [res_bind]. destruct C4 as [->|[fee Hf]].
      - rewrite bool_decide_eq_false_2 by auto. by eexists.
      - case_bool_decide; [rewrite Hf|]; by eexists. }
    exists header. rewrite Hf. unfold HeaderByNumber, HeaderByHash, cached_header. rewrite C1, C2, C3, Hhead.
    split_and!; [done..|]. rewrite Em. cbn. by rewrite HexToHash_Hex by (by apply BytesToHash_wf).
  - intros Hz. destruct (block_from_meta b d' meta hs Hix M4 M5) as (blk & B1 & B2 & B3 & B4 & B5 & B6 & B7); [by rewrite Em|done|done|].
    exists blk. unfold GetBlockByNumber, GetBlockByHash, cached_block. rewrite C1, C2, C3, B1. split; [done|]. split; [done|].
    rewrite bool_decide_eq_true_2, C6 in B5 by done. rewrite B5, B6, B7.
    rewrite Em in B2, B3, B4 |- *. cbn in B2, B3, B4. rewrite uint64_small in B2 by (gate_ints; lia).
    rewrite !HexToHash_Hex in B3, B4 by (by apply BytesToHash_wf). done.
Qed.
End served.

(** ** Lookups by position and the virtualization mode *)

Section mismatch.
Context {EL : EthLib} {CL : ChainLib} {LJ : LogJSON} {PB : Proto} {BL : Bank.BankLib} {IL : Ibc.IbcLib} {BB : BackendLib}.
Context {RC LC : Type} `{!LRU Hash (gmap string Value) RC} `{!LRU Z (list (option RPCLog)) LC}.

(** A block indexed in the other mode: the lookup goes to the node for the
    block and then takes the transaction from the index all the same. *)
Lemma mismatch_served_by_position caller b ix n i meta rb blk rpcTx (s : bstate RC LC) :
  indexer b = Some ix → OfflineRPCOnly (cfg b) = false → 1 ≤ n →
  ir_GetBlockMetaByHeight ix n = Ok meta → cachedMetaMatchesVirtualization b (Some meta) = false →
  TendermintBlockByNumber b n = Ok (Some rb) → rb_Block rb = Some blk → blk_Height blk = n →
  ir_GetRPCTransactionByBlockAndIndex ix n (int32 i) = Ok rpcTx →
  (GetTransactionByBlockNumberAndIndex caller b n i s).1 = Ok (Some rpcTx).
Proof.
  intros Hix Hoff Hn Hmeta Hmis Hblk Hrb Hh Htx.
  assert (Int64 n = n) as Hi by (unfold Int64; do 2 (case_bool_decide; [lia|]); done).
  unfold GetTransactionByBlockNumberAndIndex, indexedBlockHeight. rewrite Hix. unfold call, lift.
  rewrite bool_decide_eq_false_2 by lia. rewrite Hi, bool_decide_eq_true_2, Hmeta, Hmis, Hoff by lia.
  unfold bind. rewrite Hblk, Hrb. unfold GetTransactionByBlockAndIndex, block_of, bind, lift, call. rewrite Hrb, Hix. cbn.
  by rewrite Hh, Htx.
Qed.
End mismatch.

(** ** The concrete block *)

Module Witness.
Import EthInstances IndexerSample BackendSample CodecInstances.

#[export] Instance model_TextLaws : TextLaws.
Proof.
  split; [done| |done]. intros a [Hl Hw]. cbn. apply bool_decide_eq_true_2. by rewrite hex_or_empty_encode.
Qed.

Lemma sample_header_wf : wf_header sample_block.
Proof.
  refine (conj _ (conj _ (conj _ (conj (conj _ _) (conj _ (conj _ _)))))); try apply be_bytes_wf; try apply be_bytes_length; by vm_compute.
Qed.

Lemma sample_groups s : run_loop "0x01" sample_indexer (∅ : gmap bytes bytes) sample_block (Some sample_results) = Ok s →
  Z.of_nat (length (s_blockLogs s)) < 2 ^ 31.
Proof.
  intros H. assert (length (s_blockLogs s) = 3%nat) as Hl; [|rewrite Hl; lia].
  assert ((let! s := run_loop "0x01" sample_indexer (∅ : gmap bytes bytes) sample_block (Some sample_results) in
           Ok (length (s_blockLogs s))) = Ok 3%nat) as Hr by reflexivity.
  rewrite H in Hr. by injection Hr.
Qed.

Lemma indexed_block_served_witness :
  (∃ header, HeaderByNumber "0x01" sample_backend 12 = Ok header ∧ h_Number header = 12) ∧
  ∃ blk, GetBlockByHash "0x01" sample_backend (be_bytes 32 1000) false = Ok (Some blk) ∧
    blk !! "transactions"%string = Some (BTransactions (TxHash_ <$> [BeginBlockHash 12; eth_hash; CosmosTxHash [2]])).
Proof.
  destruct (indexed_block_served (D := gmap bytes bytes) "0x01" sample_indexer ∅ sample_block (Some sample_results) (mkStats 1) sample_store
              sample_backend sample_header_wf sample_decodes empty_store_wf) as (groups & bz & _ & _ & (header & H1 & _ & H2) & H3).
  - intros fee Hf. vm_compute in Hf. discriminate Hf.
  - exact sample_groups.
  - exact sample_run_ok.
  - reflexivity.
  - reflexivity.
  - split; [exists header; split; [exact H1|injection H2; intros _ _ _ E; exact E]|].
    assert (visible_hashes sample_indexer sample_block (Some sample_results) = [BeginBlockHash 12; eth_hash; CosmosTxHash [2]])
      as Hv by (vm_compute; reflexivity). rewrite Hv in H3.
    destruct H3 as (blk & _ & B1 & _ & _ & _ & _ & _ & B2).
    + apply (bool_decide_unpack _). vm_compute. exact I.
    + exists blk. split; [exact B1|exact B2].
Defined.

(** The sample index, served offline. *)
Definition offline_backend : Backend :=
  mkBackend (mkConfig true true 0 100 10 1000 100) (Some 1776) None silent_queries (Some (kv_reader sample_store)).


(** The sample block was indexed with virtualization; a gateway without it still
    serves its begin-block transaction by position. *)
Definition plain_backend : Backend :=
  mkBackend (mkConfig false false 0 100 10 1000 100) (Some 1776) (Some sample_client) silent_queries (Some (kv_reader sample_store)).

Lemma virtual_transaction_served_unvirtualized (s : bstate (lru_cache Hash (gmap string Value)) (lru_cache Z (list (option RPCLog)))) :
  ∃ tx, (GetTransactionByBlockNumberAndIndex "0x01" plain_backend 12 0 s).1 = Ok (Some tx) ∧ t_Virtual tx = true.
Proof.
  assert ((let! t := IndexerQuery.GetRPCTransactionByBlockAndIndex sample_store 12 0 in Ok (t_Virtual t)) = Ok true) as Ht by reflexivity.
  apply res_bind_ok in Ht as (tx & Htx & [= Hv]). exists tx. split; [|done].
  assert ((let! m := IndexerQuery.GetBlockMetaByHeight sample_store 12 in Ok (m_VirtualizedCosmosEvents m)) = Ok true) as Hm by reflexivity.
  apply res_bind_ok in Hm as (meta & Hmeta & [= Hmode]).
  eapply mismatch_served_by_position; [reflexivity|reflexivity|done|exact Hmeta| |reflexivity|reflexivity|reflexivity|exact Htx].
  unfold cachedMetaMatchesVirtualization. by rewrite Hmode.
Qed.

(** The receipt of a single transaction is not one of these reads: when the index has
    the record of a transaction and not its receipt, the node is asked in offline mode too. *)
Definition no_receipt_backend (c : option Client) : Backend :=
  mkBackend (mkConfig true true 0 100 10 1000 100) (Some 1776) c silent_queries
    (Some (kv_reader (delete (ReceiptKey eth_hash) sample_store))).

Definition failing_client : Client :=
  mkClient (λ _, Err "not found"%string) (λ _, Ok None) (λ _, Err "not found"%string) (λ _, Ok []) (Ok []) (λ _, Ok 50000000)
    (Ok (mkSyncInfo false 1 12)).

Lemma offline_receipt_asks_node :
  let s := mkBState (RC := lru_cache Hash (gmap string Value)) (LC := lru_cache Z (list (option RPCLog))) None None in
  (GetTransactionReceipt "0x01" (no_receipt_backend None) eth_hash s).1 = Err (New "rpc client is nil") ∧
  (GetTransactionReceipt "0x01" (no_receipt_backend (Some failing_client)) eth_hash s).1 = Err (New "not found").
Proof. split; reflexivity. Qed.

(** Status is called on a nil client. *)
Lemma offline_syncing_panics : Syncing offline_backend = Panic "nil pointer dereference".
Proof. reflexivity. Qed.
End Witness.
End BackendProps.
