(* ===== verification/BackendFees.v ===== *)
(** * The RPC backend: fees

    FeeHistory and SuggestGasTipCap of src/internal/evm/rpc/backend/chain_info.go and
    processBlock of utils.go.  Float64 is the specification of binary64 of the
    Standard Library.  The goroutines of a window write to disjoint positions; a
    window with failures returns the failure that is received first, which the
    parameter [pick] chooses. *)

From Stdlib Require Import Ascii String SpecFloat.
From S2P Require Import Prelude Bytes Instances GoLib EthTypes EthInstances Keys ParsedTx Normalize.
From S2P Require Import Virtual VirtualBank VirtualIbc VirtualResponse RpcUtils Cached Codec Indexer.
From S2P Require Import CodecInstances IndexerStore IndexerSample RpcTypes Backend BackendLive BackendBlocks BackendSample.
From stdpp Require Import strings list sorting.
#[local] Open Scope Z_scope.

Module BackendFees.
Import GoLib EthTypes Keys ParsedTx Normalize Virtual RpcUtils Cached Codec RpcTypes Backend BackendLive BackendBlocks.

(** ** float64 *)

Definition float64 : Type := spec_float.
Definition f_prec : Z := 53.
Definition f_emax : Z := 1024.

(** The nearest float of an integer, ties to even. *)
Definition float_of_int (z : Z) : float64 := binary_normalize f_prec f_emax z 0 false.
Definition f_mul : float64 → float64 → float64 := SFmul f_prec f_emax.
Definition f_div : float64 → float64 → float64 := SFdiv f_prec f_emax.

(** sdk.FeeTx: the coins of the fee and the gas limit. *)
Record FeeTx := mkFeeTx { GetFee : list (string * Z); GetGas : Z }.

(** Transactions as fee transactions, and the conversion of floats outside the
    range of uint64, which Go leaves to the implementation. *)
Class FeeLib := {
  AsFeeTx : sdk_Tx → option FeeTx;
  uint64_out_of_range : float64 → Z;
}.

Section ops.
Context {EL : EthLib} {CL : ChainLib} {LJ : LogJSON} {PB : Proto} {BL : Bank.BankLib} {IL : Ibc.IbcLib} {BB : BackendLib}.
Context {FL : FeeLib} (IBCHookCallerAddressHex : string).

(** uint64(f): truncation. *)
Definition uint64_of_float (f : float64) : Z :=
  match f with
  | S754_zero _ => 0
  | S754_finite false m e =>
      let z := Z.shiftl (Z.pos m) e in
      if bool_decide (z < 2 ^ 64) then z else uint64_out_of_range f
  | _ => uint64_out_of_range f
  end.

(** ** One block *)

Record txGasAndReward := mkGR { gasUsed : Z; reward : Z }.

Record OneFeeHistory := mkOne {
  o_BaseFee : Z; o_NextBaseFee : Z; o_Reward : list Z; o_GasUsedRatio : float64;
}.

(** The denomination of the first coin and its amount; big.Int.Quo by zero and
    an empty fee panic. *)
Definition tx_reward (feeTx : FeeTx) (blockBaseFee : Z) : res error Z :=
  match GetFee feeTx with
  | [] => Panic "index out of range"
  | (feeDenom, _) :: _ =>
      let fee := match list_find (λ coin, coin.1 = feeDenom) (GetFee feeTx) with Some (_, coin) => coin.2 | None => 0 end in
      if bool_decide (GetGas feeTx = 0) then Panic "division by zero"
      else
        let reward := Z.quot fee (GetGas feeTx) - blockBaseFee in
        Ok (if bool_decide (reward < 0) then 0 else reward)
  end.

(** The gas and reward of every fee transaction of the block. *)
Definition block_rewards (blockBaseFee : Z) (results : list (option ExecTxResult)) (txs : list bytes) :
    res error (list txGasAndReward) :=
  let! entries := res_mapM (λ t : nat * bytes,
    let '(i, txBz) := t in
    match results !! i with
    | None => Panic "index out of range"
    | Some result =>
        match TxDecoder txBz with
        | Panic p => Panic p
        | Err _ => Ok []
        | Ok tx =>
            match AsFeeTx tx with
            | None => Ok []
            | Some feeTx =>
                let! result := deref result in
                let! reward := tx_reward feeTx blockBaseFee in
                Ok [mkGR (uint64 (res_GasUsed result)) reward]
            end
        end
    end) (imap pair txs) in
  Ok (mjoin entries).

(** for sumGasUsed < threshold && txIndex < ethTxCount-1 { txIndex++; ... } *)
Fixpoint advance (threshold sum : Z) (cur : txGasAndReward) (rest : list txGasAndReward) :
    Z * txGasAndReward * list txGasAndReward :=
  match rest with
  | [] => (sum, cur, [])
  | t :: rest' =>
      if bool_decide (sum < threshold) then advance threshold (uint64 (sum + gasUsed t)) t rest'
      else (sum, cur, rest)
  end.

Fixpoint percentile_rewards (thresholds : list Z) (sum : Z) (cur : txGasAndReward) (rest : list txGasAndReward) : list Z :=
  match thresholds with
  | [] => []
  | threshold :: thresholds =>
      let '(sum, cur, rest) := advance threshold sum cur rest in
      reward cur :: percentile_rewards thresholds sum cur rest
  end.

(** [sort] is sort.Sort, which may reorder transactions with equal rewards. *)
Definition processBlock (sort : list txGasAndReward → list txGasAndReward) (b : Backend) (cometBlock : ResultBlock)
    (ethBlock : gmap string BlockValue) (rewardPercentiles : list float64) (cometBlockResult : ResultBlockResults) :
    res error OneFeeHistory :=
  let! block := block_of cometBlock in
  let! blockBaseFee := or_nil (BaseFee b (Some cometBlockResult)) in
  let blockBaseFee := default 0 blockBaseFee in
  match ethBlock !! "gasLimit"%string with
  | Some (BUint64 gasLimit) =>
      match ethBlock !! "gasUsed"%string with
      | Some (BBig gasUsedBig) =>
          let gasusedfloat := float_of_int gasUsedBig in
          if bool_decide (gasLimit ≤ 0) then
            Err (Errorf "gasLimit of block height %d should be bigger than 0 , current gaslimit %d")
          else
            let gasUsedRatio := f_div gasusedfloat (float_of_int gasLimit) in
            let! entries := block_rewards blockBaseFee (br_TxResults cometBlockResult) (blk_Txs block) in
            let rewards :=
              match sort entries with
              | [] => replicate (length rewardPercentiles) 0
              | first :: rest =>
                  percentile_rewards
                    ((λ p, uint64_of_float (f_div (f_mul gasusedfloat p) (float_of_int 100))) <$> rewardPercentiles)
                    (gasUsed first) first rest
              end in
            Ok (mkOne blockBaseFee blockBaseFee rewards gasUsedRatio)
      | _ => Err (Errorf "invalid gas used type: %T")
      end
  | _ => Err (Errorf "invalid gas limit type: %T")
  end.

(** ** The history *)

Inductive outcome := Done (o : OneFeeHistory) | Failed (e : option error).

Definition recovered (p : string) : outcome := Failed (Some (Wrap p (New "panic"))).

(** One goroutine: nil results are sent with whatever error came with them. *)
Definition fetch_block (sort : list txGasAndReward → list txGasAndReward) (b : Backend) (rewardPercentiles : list float64)
    (blockNum : Z) : outcome :=
  match TendermintBlockByNumber b blockNum with
  | Panic p => recovered p
  | Err e => Failed (Some e)
  | Ok None => Failed None
  | Ok (Some tendermintblock) =>
      match GetBlockByNumber IBCHookCallerAddressHex b blockNum true with
      | Panic p => recovered p
      | Err e => Failed (Some e)
      | Ok None => Failed None
      | Ok (Some ethBlock) =>
          match block_of tendermintblock with
          | Panic p => recovered p
          | Err e => Failed (Some e)
          | Ok block =>
              match TendermintBlockResultByNumber b (blk_Height block) with
              | Panic p => recovered p
              | Err e => Failed (Some e)
              | Ok None => recovered "nil pointer dereference"
              | Ok (Some r) =>
                  match processBlock sort b tendermintblock ethBlock rewardPercentiles r with
                  | Ok o => Done o
                  | Err e => Failed (Some e)
                  | Panic p => recovered p
                  end
              end
          end
      end
  end.

Record FeeHistoryResult := mkFeeHistory {
  fh_OldestBlock : Z;
  fh_BaseFee : list (option Z);
  fh_GasUsedRatio : list float64;
  fh_Reward : option (list (list Z));
}.

(** The percentiles are within [0, 100] and increase. *)
Fixpoint valid_percentiles (prev : option float64) (l : list float64) : bool :=
  match l with
  | [] => true
  | p :: l =>
      negb (SFltb p (float_of_int 0) || SFltb (float_of_int 100) p) &&
      negb (match prev with Some q => SFleb p q | None => false end) && valid_percentiles (Some p) l
  end.

(** The range of blocks: first, last and their number; a negative number makes
    the allocation panic. *)
Definition feeHistoryRange (b : Backend) (head userBlockCount lastBlock : Z) : res error (Z * Z * Z) :=
  let! blockEnd :=
    if bool_decide (lastBlock < 0) then Ok (int64 head)
    else if bool_decide (int64 head < lastBlock) then Err (Wrap "requested %d, head %d" (New "request beyond head block"))
    else Ok lastBlock in
  let blocks := int64 userBlockCount in
  if bool_decide (FeeHistoryCap (cfg b) < blocks) then Err (Errorf "FeeHistory user block count %d higher than %d")
  else
    let blocks := if bool_decide (blockEnd < 2 ^ 63 - 1 ∧ blockEnd + 1 < blocks) then blockEnd + 1 else blocks in
    let blockStart := int64 (int64 (blockEnd + 1) - blocks) in
    if bool_decide (blocks < 0) then Panic "makeslice: len out of range" else Ok (blockStart, blockEnd, blocks).

Definition maxBlockFetchers : Z := 4.

(** for blockID := blockStart; blockID <= blockEnd; blockID += maxBlockFetchers *)
Fixpoint fee_windows (fuel : nat) (blockID blockEnd : Z) : list (list Z) :=
  match fuel with
  | O => []
  | S fuel =>
      if bool_decide (blockID ≤ blockEnd) then
        filter (λ h, h < blockEnd + 1) (seqZ blockID maxBlockFetchers) :: fee_windows fuel (blockID + maxBlockFetchers) blockEnd
      else []
  end.

Definition failures (os : list outcome) : list (option error) :=
  omap (λ o, match o with Failed e => Some e | Done _ => None end) os.
Definition successes (os : list outcome) : list OneFeeHistory :=
  omap (λ o, match o with Done o => Some o | Failed _ => None end) os.

(** Windows in order; the first window with a failure ends the loop. *)
Fixpoint run_windows (fetch : Z → outcome) (pick : list Z → nat) (windows : list (list Z)) :
    list OneFeeHistory + option error :=
  match windows with
  | [] => inl []
  | w :: windows =>
      let os := fetch <$> w in
      match failures os with
      | [] => match run_windows fetch pick windows with
              | inl rest => inl (successes os ++ rest)
              | inr e => inr e
              end
      | e :: es => inr (default e ((e :: es) !! (pick w mod length (e :: es))%nat))
      end
  end.

(** A nil result without an error is [Ok None]. *)
Definition FeeHistory (sort : list txGasAndReward → list txGasAndReward) (pick : list Z → nat) (b : Backend)
    (userBlockCount lastBlock : Z) (rewardPercentiles : list float64) : res error (option FeeHistoryResult) :=
  if bool_decide (100 < length rewardPercentiles)%nat then Err (Wrap "exceed max length" (New "invalid reward percentile"))
  else if negb (valid_percentiles None rewardPercentiles) then Err (Wrap "%f" (New "invalid reward percentile"))
  else
    let! head := BlockNumber b in
    let! (blockStart, blockEnd, blocks) := feeHistoryRange b head userBlockCount lastBlock in
    match run_windows (fetch_block sort b rewardPercentiles) pick (fee_windows (Z.to_nat (blockEnd - blockStart + 1)) blockStart blockEnd) with
    | inr None => Ok None
    | inr (Some e) => Err e
    | inl os =>
        Ok (Some (mkFeeHistory blockStart ((Some ∘ o_BaseFee <$> os) ++ [o_NextBaseFee <$> last os]) (o_GasUsedRatio <$> os)
              (match rewardPercentiles with [] => None | _ => Some (o_Reward <$> os) end)))
    end.

(** ** The suggested tip *)

(** big.Int.Quo truncates and panics on zero.  The parameters are the integers
    behind two decimals, scaled by 10^18. *)
Definition SuggestGasTipCap (b : Backend) (baseFee : option Z) : res error Z :=
  match baseFee with
  | None => Ok 0
  | Some baseFee =>
      let! (maxBlockChangeRate, targetBlockSpacePercentRate) := lib (q_TxFeesParams (queryClient b)) in
      if bool_decide (targetBlockSpacePercentRate = 0) then Panic "division by zero"
      else
        let maxDelta := baseFee * maxBlockChangeRate * (Z.quot 1 targetBlockSpacePercentRate - 1) in
        Ok (if bool_decide (maxDelta < 0) then 0 else maxDelta)
  end.
End ops.

(** ** The windows cover the range *)

Lemma list_filter_all {A} (P : A → Prop) `{∀ x, Decision (P x)} (l : list A) : (∀ x, x ∈ l → P x) → filter P l = l.
Proof.
  induction l as [|x l IH]; intros Hl; [done|]. rewrite filter_cons, decide_True by (apply Hl; by left).
  f_equal. apply IH. intros y Hy. apply Hl. by right.
Qed.

Lemma list_filter_nil {A} (P : A → Prop) `{∀ x, Decision (P x)} (l : list A) : (∀ x, x ∈ l → ¬ P x) → filter P l = [].
Proof.
  induction l as [|x l IH]; intros Hl; [done|]. rewrite filter_cons, decide_False by (apply Hl; by left).
  apply IH. intros y Hy. apply Hl. by right.
Qed.

Lemma filter_seqZ start n bound :
  0 ≤ n → start ≤ bound → filter (λ h, h < bound) (seqZ start n) = seqZ start (Z.min n (bound - start)).
Proof.
  intros Hn Hb. destruct (decide (n ≤ bound - start)).
  - rewrite Z.min_l by lia. apply list_filter_all. intros h [k Hk]%list_elem_of_lookup. apply lookup_seqZ in Hk. lia.
  - rewrite Z.min_r by lia. replace n with ((bound - start) + (n - (bound - start))) at 1 by lia.
    rewrite seqZ_app, filter_app by lia. rewrite list_filter_all.
    + rewrite list_filter_nil; [by rewrite app_nil_r|]. intros h [k Hk]%list_elem_of_lookup. apply lookup_seqZ in Hk. lia.
    + intros h [k Hk]%list_elem_of_lookup. apply lookup_seqZ in Hk. lia.
Qed.

Lemma fee_windows_cover fuel blockID blockEnd :
  blockEnd - blockID + 1 ≤ Z.of_nat fuel →
  mjoin (fee_windows fuel blockID blockEnd) = seqZ blockID (blockEnd - blockID + 1).
Proof.
  revert blockID. induction fuel as [|fuel IH]; intros blockID Hf; cbn [fee_windows].
  - by rewrite seqZ_nil by lia.
  - case_bool_decide; [|by rewrite seqZ_nil by lia]. cbn [mjoin list_join]. unfold maxBlockFetchers.
    rewrite filter_seqZ by lia. destruct (decide (blockID + 4 ≤ blockEnd)).
    + rewrite IH by lia. rewrite Z.min_l by lia. rewrite <- seqZ_app by lia. f_equal. lia.
    + destruct fuel as [|fuel]; cbn [fee_windows]; [|rewrite bool_decide_eq_false_2 by lia]; cbn; rewrite app_nil_r; f_equal; lia.
Qed.

Lemma run_windows_done fetch pick ws (f : Z → OneFeeHistory) :
  (∀ h, h ∈ mjoin ws → fetch h = Done (f h)) → run_windows fetch pick ws = inl (f <$> mjoin ws).
Proof.
  induction ws as [|w ws IH]; intros Hd; [done|]. cbn [run_windows mjoin list_join].
  assert (fetch <$> w = Done ∘ f <$> w) as ->.
  { apply list_fmap_ext. intros i h Hi. apply Hd. cbn. apply elem_of_app. left. by eapply list_elem_of_lookup_2. }
  assert (∀ l, failures (Done ∘ f <$> l) = []) as ->; [intros l; by induction l|].
  rewrite IH by (intros h Hh; apply Hd; cbn; apply elem_of_app; by right).
  rewrite fmap_app. do 2 f_equal. clear. induction w as [|h w IH]; [done|]. cbn. by f_equal.
Qed.

Lemma run_windows_failed fetch pick ws h e :
  h ∈ mjoin ws → fetch h = Failed e → ∃ h' e', h' ∈ mjoin ws ∧ fetch h' = Failed e' ∧ run_windows fetch pick ws = inr e'.
Proof.
  assert (∀ w e', e' ∈ failures (fetch <$> w) → ∃ h', h' ∈ w ∧ fetch h' = Failed e') as Hf.
  { intros w e' (o & (h' & -> & Hh)%list_elem_of_fmap & Ho)%list_elem_of_omap. exists h'. split; [done|].
    destruct (fetch h') as [o|e1]; [done|]. by injection Ho as ->. }
  induction ws as [|w ws IH]; [set_solver|]. cbn [mjoin list_join]. intros Hin He. cbn [run_windows].
  destruct (failures (fetch <$> w)) as [|e0 es] eqn:Ef.
  - apply elem_of_app in Hin as [Hin|Hin].
    + assert (e ∈ failures (fetch <$> w)) as Hbad; [|by rewrite Ef in Hbad; apply not_elem_of_nil in Hbad].
      apply list_elem_of_omap. exists (Failed e). split; [|done]. apply list_elem_of_fmap. by exists h.
    + destruct (IH Hin He) as (h' & e' & H1 & H2 & H3). exists h', e'. rewrite H3. split; [apply elem_of_app; by right|done].
  - assert (default e0 ((e0 :: es) !! (pick w mod length (e0 :: es))%nat) ∈ e0 :: es) as Hd.
    { destruct ((e0 :: es) !! _) as [x|] eqn:Ex; cbn; [by eapply list_elem_of_lookup_2|by left]. }
    destruct (Hf w (default e0 ((e0 :: es) !! (pick w mod length (e0 :: es))%nat))) as (h' & H1 & H2); [by rewrite Ef|]. eexists h', _. split; [apply elem_of_app; by left|done].
Qed.

(** The range of a request: its last block is the requested one or the head; it has
    the requested number of blocks unless the chain is shorter. *)
Lemma feeHistoryRange_ok b head count lastBlock :
  0 ≤ head < 2 ^ 63 - 1 → lastBlock ≤ head → 0 ≤ count ≤ FeeHistoryCap (cfg b) → FeeHistoryCap (cfg b) < 2 ^ 31 →
  let blockEnd := if bool_decide (lastBlock < 0) then head else lastBlock in
  feeHistoryRange b head count lastBlock = Ok (blockEnd + 1 - Z.min count (blockEnd + 1), blockEnd, Z.min count (blockEnd + 1)).
Proof.
  intros Hh Hl Hc Hcap. unfold feeHistoryRange. rewrite !int64_small by (gate_ints; lia).
  assert ((if bool_decide (lastBlock < 0) then Ok head
           else if bool_decide (head < lastBlock) then Err (Wrap "requested %d, head %d" (New "request beyond head block"))
                else Ok lastBlock) = Ok (E := error) (if bool_decide (lastBlock < 0) then head else lastBlock)) as ->.
  { case_bool_decide; [done|]. by rewrite bool_decide_eq_false_2 by lia. }
  cbn [res_bind]. set (e := if bool_decide (lastBlock < 0) then head else lastBlock).
  assert (0 ≤ e ≤ head) by (unfold e; case_bool_decide; lia). rewrite (bool_decide_eq_false_2 (FeeHistoryCap _ < _)) by lia.
  assert ((if bool_decide (e < 2 ^ 63 - 1 ∧ e + 1 < count) then e + 1 else count) = Z.min count (e + 1)) as ->
    by (case_bool_decide; lia).
  rewrite bool_decide_eq_false_2 by lia. rewrite (int64_small (e + 1)) by (gate_ints; lia). by rewrite int64_small by (gate_ints; lia).
Qed.

(** A count of 2^63 or more is negative as int64, passes the cap and panics. *)
Lemma feeHistoryRange_negative b head count lastBlock :
  0 ≤ head < 2 ^ 63 - 1 → lastBlock ≤ head → 0 ≤ FeeHistoryCap (cfg b) → 2 ^ 63 ≤ count < 2 ^ 64 →
  feeHistoryRange b head count lastBlock = Panic "makeslice: len out of range".
Proof.
  intros Hh Hl Hcap Hc. unfold feeHistoryRange. rewrite (int64_small head) by (gate_ints; lia).
  assert (int64 count < 0) as Hn.
  { gate_ints. replace (count + 2 ^ 63) with ((count - 2 ^ 63) + 1 * 2 ^ 64) by lia. rewrite Z.mod_add, Z.mod_small by lia. lia. }
  assert (∀ e, 0 ≤ e → (if bool_decide (e < 2 ^ 63 - 1 ∧ e + 1 < int64 count) then e + 1 else int64 count) = int64 count) as Hb
    by (intros e He; case_bool_decide; lia).
  destruct (bool_decide (lastBlock < 0)) eqn:E; [|apply bool_decide_eq_false_1 in E; rewrite (bool_decide_eq_false_2 (head < _)) by lia];
    cbn [res_bind]; rewrite (bool_decide_eq_false_2 (FeeHistoryCap _ < _)), Hb by lia; by rewrite bool_decide_eq_true_2 by lia.
Qed.

(** ** Rewards *)

Fixpoint total (l : list txGasAndReward) : Z := match l with [] => 0 | t :: l => gasUsed t + total l end.

Lemma total_app l l' : total (l ++ l') = total l + total l'.
Proof. induction l; cbn; lia. Qed.

(** Where the loop stops: the first transaction at which the gas so far reaches the
    threshold, or the last one. *)
Lemma advance_spec threshold before cur rest :
  Forall (λ t, 0 ≤ gasUsed t) (cur :: rest) → 0 ≤ total before → total (before ++ cur :: rest) < 2 ^ 64 →
  ∃ skipped cur' rest', advance threshold (total (before ++ [cur])) cur rest = (total (before ++ skipped ++ [cur']), cur', rest') ∧
    cur :: rest = skipped ++ cur' :: rest' ∧
    (skipped ≠ [] → total (before ++ skipped) < threshold) ∧
    (rest' = [] ∨ threshold ≤ total (before ++ skipped ++ [cur'])).
Proof.
  revert before cur. induction rest as [|t rest IH]; intros before cur Hg Hb Ht; cbn [advance].
  - exists [], cur, []. by split_and!; [| |by intros|left].
  - apply Forall_cons in Hg as [Hc Hg]. case_bool_decide as Hs.
    + assert (uint64 (total (before ++ [cur]) + gasUsed t) = total ((before ++ [cur]) ++ [t])) as ->.
      { assert (0 ≤ total rest) as Hr.
        { apply Forall_cons in Hg as [_ Hg]. clear - Hg. induction Hg; cbn in *; lia. }
        apply Forall_cons in Hg as [Hg0 _]. rewrite !total_app in *. cbn in *. rewrite uint64_small by (gate_ints; lia). lia. }
      destruct (IH (before ++ [cur]) t) as (sk & cur' & rest' & E1 & E2 & E3 & E4); [done|rewrite total_app; cbn; lia|by rewrite <- app_assoc|].
      exists (cur :: sk), cur', rest'. rewrite E1, E2, <- !app_assoc. cbn [app]. split; [done|]. split; [done|]. split.
      * intros _. destruct sk as [|s sk]; [done|]. rewrite <- app_assoc in E3. by apply E3.
      * by rewrite <- app_assoc in E4.
    + exists [], cur, (t :: rest). split; [done|]. split; [done|]. split; [done|]. right. cbn. lia.
Qed.

(** The reference: the reward of the first transaction at which the cumulative gas
    reaches the threshold, or of the last one. *)
Fixpoint reward_at (acc : Z) (l : list txGasAndReward) (threshold : Z) : Z :=
  match l with
  | [] => 0
  | [t] => reward t
  | t :: l => if bool_decide (threshold ≤ acc + gasUsed t) then reward t else reward_at (acc + gasUsed t) l threshold
  end.

Lemma total_nonneg l : Forall (λ t, 0 ≤ gasUsed t) l → 0 ≤ total l.
Proof. induction 1; cbn; lia. Qed.

Lemma reward_at_skip acc skipped t l threshold :
  Forall (λ t, 0 ≤ gasUsed t) skipped → (skipped ≠ [] → acc + total skipped < threshold) →
  reward_at acc (skipped ++ t :: l) threshold = reward_at (acc + total skipped) (t :: l) threshold.
Proof.
  intros Hg. revert acc. induction Hg as [|u sk Hu Hg IH]; intros acc Hs.
  - by rewrite Z.add_0_r.
  - specialize (Hs ltac:(done)). pose proof (total_nonneg _ Hg). cbn [total] in Hs. cbn [app].
    assert (sk ++ t :: l ≠ []) as Hne by (by destruct sk).
    assert (reward_at acc (u :: sk ++ t :: l) threshold = reward_at (acc + gasUsed u) (sk ++ t :: l) threshold) as ->.
    { destruct (sk ++ t :: l) as [|x r] eqn:E; [done|]. cbn [reward_at]. by rewrite bool_decide_eq_false_2 by lia. }
    rewrite IH by lia. cbn [total]. f_equal. lia.
Qed.

Lemma percentile_rewards_ref thresholds before cur rest :
  Sorted Z.le thresholds → Forall (λ t, 0 ≤ gasUsed t) (before ++ cur :: rest) → total (before ++ cur :: rest) < 2 ^ 64 →
  percentile_rewards thresholds (total (before ++ [cur])) cur rest = reward_at (total before) (cur :: rest) <$> thresholds.
Proof.
  intros Hs%Sorted_StronglySorted; [|apply _]. revert before cur rest.
  induction Hs as [|th ths _ IH Hle]; intros before cur rest Hg Ht; [done|]. cbn [percentile_rewards fmap list_fmap].
  apply Forall_app in Hg as [Hgb Hg]. pose proof (total_nonneg _ Hgb) as Hb.
  destruct (advance_spec th before cur rest Hg Hb Ht) as (sk & cur' & rest' & -> & E & S1 & S2). rewrite E in *.
  apply Forall_app in Hg as [Hgs Hg]. rewrite total_app in S1. f_equal.
  - rewrite (reward_at_skip _ sk) by done. cbn [reward_at]. destruct rest' as [|t r]; [done|].
    rewrite bool_decide_eq_true_2; [done|]. destruct S2 as [|S2]; [done|]. rewrite !total_app in S2. cbn in S2. lia.
  - rewrite (app_assoc before sk [cur']), IH.
    + apply list_fmap_ext. intros i th' Hi. rewrite (reward_at_skip _ sk), total_app; [done|done|].
      intros Hne. specialize (S1 Hne). pose proof (Forall_lookup_1 _ _ _ _ Hle Hi). cbn in *. lia.
    + rewrite <- app_assoc. by apply Forall_app_2; [|apply Forall_app_2].
    + by rewrite <- app_assoc.
Qed.

Section props.
Context {EL : EthLib} {CL : ChainLib} {LJ : LogJSON} {PB : Proto} {BL : Bank.BankLib} {IL : Ibc.IbcLib} {BB : BackendLib}.
Context {FL : FeeLib} (caller : string) (sort : list txGasAndReward → list txGasAndReward).

Lemma block_rewards_wf baseFee results txs entries :
  block_rewards baseFee results txs = Ok entries → Forall (λ t, 0 ≤ gasUsed t ∧ 0 ≤ reward t) entries.
Proof.
  intros (gs & Hg & [= <-])%res_bind_ok. revert gs Hg. generalize (imap pair txs). intros l.
  induction l as [|[i bz] l IH]; cbn [res_mapM]; intros gs; [by intros [= <-]; constructor|].
  intros (g & H1 & (gs' & H2%IH & [= <-])%res_bind_ok)%res_bind_ok. cbn. apply Forall_app_2; [|done].
  destruct (results !! i) as [result|]; [|done]. destruct (TxDecoder bz) as [tx| |]; [|by injection H1 as <-; constructor|done].
  destruct (AsFeeTx tx) as [feeTx|]; [|by injection H1 as <-; constructor].
  apply res_bind_ok in H1 as (r & _ & H1). apply res_bind_ok in H1 as (w & Hw & [= <-]). repeat constructor; cbn.
  - apply uint64_range.
  - unfold tx_reward in Hw. destruct (GetFee feeTx) as [|[dn ?] ?]; [done|]. case_bool_decide; [done|].
    injection Hw as <-. case_bool_decide; lia.
Qed.

(** The reward of a percentile: when the gas thresholds of the percentiles increase,
    the single pass of processBlock over the transactions sorted by reward gives, for each
    percentile, the reward of the first transaction at which the cumulative gas reaches
    its threshold, or of the last; the block's base fee is used for the next
    block, and a block without fee transactions gives zeros. *)
Theorem processBlock_percentiles b cometBlock block ethBlock percentiles r entries o :
  rb_Block cometBlock = Some block → (∀ l, sort l ≡ₚ l) →
  block_rewards (o_BaseFee o) (br_TxResults r) (blk_Txs block) = Ok entries → total entries < 2 ^ 64 →
  (∀ gasUsed, ethBlock !! "gasUsed"%string = Some (BBig gasUsed) →
     Sorted Z.le ((λ p, uint64_of_float (f_div (f_mul (float_of_int gasUsed) p) (float_of_int 100))) <$> percentiles)) →
  processBlock sort b cometBlock ethBlock percentiles r = Ok o →
  o_NextBaseFee o = o_BaseFee o ∧
  ∃ gasUsed, ethBlock !! "gasUsed"%string = Some (BBig gasUsed) ∧
    o_Reward o = (λ p, reward_at 0 (sort entries) (uint64_of_float (f_div (f_mul (float_of_int gasUsed) p) (float_of_int 100)))) <$> percentiles.
Proof.
  intros Hb Hsort He Ht Hth (block' & Hb' & H)%res_bind_ok. unfold block_of in Hb'. rewrite Hb in Hb'. injection Hb' as <-.
  apply res_bind_ok in H as (fee & _ & H). destruct (ethBlock !! "gasLimit"%string) as [[]|]; try done.
  destruct (ethBlock !! "gasUsed"%string) as [[| | | | | |gas| | |]|] eqn:Eg; try done. case_bool_decide; [done|].
  apply res_bind_ok in H as (entries' & He' & [= <-]). cbn [o_BaseFee o_NextBaseFee o_Reward] in *. rewrite He in He'. injection He' as <-. split; [done|].
  exists gas. split; [done|]. pose proof (block_rewards_wf _ _ _ _ He) as Hw. rewrite <- (Hsort entries) in Hw.
  assert (total (sort entries) < 2 ^ 64) as Ht'.
  { assert (∀ l l', l ≡ₚ l' → total l = total l') as Hp by (induction 1; cbn; lia). by rewrite (Hp _ _ (Hsort entries)). }
  specialize (Hth _ eq_refl). destruct (sort entries) as [|first rest] eqn:Es.
  - clear. induction percentiles as [|p ps IH]; [done|]. cbn. by f_equal.
  - replace (gasUsed first) with (total ([] ++ [first])) by (cbn; lia).
    etrans; [apply (percentile_rewards_ref _ [] first rest Hth); [|done]|by rewrite <- list_fmap_compose].
    eapply Forall_impl; [exact Hw|]. by intros t [? _].
Qed.

(** C29. FeeHistory returns exactly the requested range: with valid percentiles and a
    count within the cap, the blocks from [last - n + 1] to [last] are fetched in windows
    of four, once each; when every fetch succeeds the answer lists their base fees in
    order followed by the next base fee of the last, their gas ratios and their rewards;
    when one fails, the answer is the failure of one of these blocks, which can be
    a nil answer without an error. *)
Theorem FeeHistory_exact pick b head count lastBlock percentiles :
  (length percentiles ≤ 100)%nat → valid_percentiles None percentiles = true →
  BlockNumber b = Ok head → 0 ≤ head < 2 ^ 63 - 1 → lastBlock ≤ head →
  0 < count ≤ FeeHistoryCap (cfg b) → FeeHistoryCap (cfg b) < 2 ^ 31 →
  let last := if bool_decide (lastBlock < 0) then head else lastBlock in
  let n := Z.min count (last + 1) in
  let fetch := fetch_block caller sort b percentiles in
  (∀ f, (∀ h, last - n < h ≤ last → fetch h = Done (f h)) →
     FeeHistory caller sort pick b count lastBlock percentiles =
     Ok (Some (mkFeeHistory (last + 1 - n)
       (((λ h, Some (o_BaseFee (f h))) <$> seqZ (last + 1 - n) n) ++ [Some (o_NextBaseFee (f last))])
       ((λ h, o_GasUsedRatio (f h)) <$> seqZ (last + 1 - n) n)
       (match percentiles with [] => None | _ => Some ((λ h, o_Reward (f h)) <$> seqZ (last + 1 - n) n) end)))) ∧
  (∀ h e, last - n < h ≤ last → fetch h = Failed e →
     ∃ h' e', last - n < h' ≤ last ∧ fetch h' = Failed e' ∧
       FeeHistory caller sort pick b count lastBlock percentiles = match e' with Some e => Err e | None => Ok None end).
Proof.
  intros Hlen Hval Hhead Hh Hl Hc Hcap last n fetch.
  assert (0 ≤ last ≤ head) as Hlast by (unfold last; case_bool_decide; lia).
  assert (1 ≤ n) as Hn by lia.
  assert (mjoin (fee_windows (Z.to_nat (last - (last + 1 - n) + 1)) (last + 1 - n) last) = seqZ (last + 1 - n) n) as Hw.
  { rewrite fee_windows_cover by lia. f_equal. lia. }
  assert (∀ h, h ∈ seqZ (last + 1 - n) n ↔ last - n < h ≤ last) as Hin by (intros h; rewrite elem_of_seqZ; lia).
  unfold FeeHistory. rewrite bool_decide_eq_false_2, Hval, Hhead by lia. cbn [negb res_bind].
  rewrite feeHistoryRange_ok by lia. cbn [res_bind]. change (if bool_decide (lastBlock < 0) then head else lastBlock) with last.
  change (Z.min count (last + 1)) with n. fold fetch. split.
  - intros f Hf. rewrite (run_windows_done _ _ _ f); rewrite Hw; [|intros h; rewrite Hin; apply Hf].
    assert (list.last (f <$> seqZ (last + 1 - n) n) = Some (f last)) as ->.
    { rewrite fmap_last. replace n with ((n - 1) + 1) at 2 by lia. rewrite seqZ_app, last_app by lia.
      replace (last + 1 - n + (n - 1)) with last by lia. done. }
    rewrite <- !list_fmap_compose. by destruct percentiles.
  - intros h e Hh' He. apply Hin in Hh'. rewrite <- Hw in Hh'.
    destruct (run_windows_failed fetch pick _ h e Hh' He) as (h' & e' & H1 & H2 & ->).
    rewrite Hw, Hin in H1. exists h', e'. split; [done|]. split; [done|]. by destruct e'.
Qed.

(** The quotient of 1 by a scaled decimal is an integer of magnitude at most one,
    so the suggested tip is never positive. *)
Lemma suggested_tip_zero b baseFee tip rate target :
  q_TxFeesParams (queryClient b) = Ok (rate, target) → 0 ≤ rate → 0 < target → (∀ fee, baseFee = Some fee → 0 ≤ fee) →
  SuggestGasTipCap b baseFee = Ok tip → tip = 0.
Proof.
  intros Hq Hr Ht Hf. unfold SuggestGasTipCap. destruct baseFee as [fee|]; [|by intros [= <-]].
  specialize (Hf _ eq_refl). rewrite Hq. cbn [lib res_map_err res_bind]. rewrite bool_decide_eq_false_2 by lia.
  intros [= <-]. case_bool_decide as Hn; [done|]. assert (Z.quot 1 target ≤ 1) by (destruct (decide (target = 1)) as [->|]; [done|rewrite Z.quot_small by lia; lia]).
  assert (0 ≤ fee * rate) by nia. nia.
Qed.
End props.

(** ** A block with two fee transactions *)

Module Witness.
Import EthInstances IndexerSample BackendSample CodecInstances.

(** Fees of 2100000 for 21000 gas and of 600 for 300 gas. *)
#[local] Instance sample_FeeLib : FeeLib := {|
  AsFeeTx tx := match GetMsgs tx with
                | [EthMsg _] => Some (mkFeeTx [("inj"%string, 2100000)] 21000)
                | _ => Some (mkFeeTx [("inj"%string, 600)] 300)
                end;
  uint64_out_of_range _ := 0;
|}.

Definition reward_le (a b : txGasAndReward) : Prop := reward a ≤ reward b.
#[local] Instance reward_le_dec a b : Decision (reward_le a b).
Proof. unfold reward_le. apply _. Defined.

Definition insert_sort (l : list txGasAndReward) : list txGasAndReward := merge_sort reward_le l.

Definition fee_block : gmap string BlockValue :=
  list_to_map [("gasLimit"%string, BUint64 50000); ("gasUsed"%string, BBig 21900)].

Definition ratio : float64 := Eval vm_compute in f_div (float_of_int 21900) (float_of_int 50000).

Lemma processBlock_percentiles_witness :
  processBlock insert_sort sample_backend (mkResultBlock [] (Some sample_block)) fee_block [float_of_int 1; float_of_int 50] sample_results
    = Ok (mkOne 0 0 [2; 100] ratio) ∧
  o_NextBaseFee (mkOne 0 0 [2; 100] ratio) = o_BaseFee (mkOne 0 0 [2; 100] ratio).
Proof.
  assert (processBlock insert_sort sample_backend (mkResultBlock [] (Some sample_block)) fee_block [float_of_int 1; float_of_int 50] sample_results
    = Ok (mkOne 0 0 [2; 100] ratio)) as H by (vm_compute; reflexivity).
  split; [exact H|].
  refine (proj1 (processBlock_percentiles insert_sort sample_backend (mkResultBlock [] (Some sample_block)) sample_block fee_block
    [float_of_int 1; float_of_int 50] sample_results [mkGR 21000 100; mkGR 900 2] _ eq_refl _ _ _ _ H)).
  - intros l. apply merge_sort_Permutation.
  - vm_compute. reflexivity.
  - vm_compute. reflexivity.
  - intros gas [= <-]. vm_compute. repeat constructor; discriminate.
Defined.

Lemma FeeHistory_exact_witness :
  ∃ o, FeeHistory "0x01" insert_sort (λ _, 0%nat) sample_backend 1 12 [] =
         Ok (Some (mkFeeHistory 12 [Some (o_BaseFee o); Some (o_NextBaseFee o)] [o_GasUsedRatio o] None)).
Proof.
  assert (match fetch_block "0x01" insert_sort sample_backend [] 12 with Done _ => true | Failed _ => false end = true) as Hd by reflexivity.
  destruct (fetch_block "0x01" insert_sort sample_backend [] 12) as [o|e] eqn:Ho; [|discriminate Hd]. exists o.
  refine (proj1 (FeeHistory_exact "0x01" insert_sort (λ _, 0%nat) sample_backend 12 1 12 [] _ _ _ _ _ _ _) (λ _, o) _).
  - cbn. lia.
  - reflexivity.
  - reflexivity.
  - lia.
  - lia.
  - cbn. lia.
  - cbn. lia.
  - intros h Hh. change (12 - 1 < h ≤ 12) in Hh. assert (h = 12) as -> by lia. exact Ho.
Defined.
End Witness.
End BackendFees.
