(* ===== verification/RpcStream.v ===== *)
(** * Event publication (src/internal/evm/rpc/stream/rpc.go)

    The streams of headers, transaction hashes and logs that subscriptions and
    polling filters read.  A block is published only after it can be read
    from the index; either its header, hashes and logs are all added or none is. *)

From Stdlib Require Import Ascii String.
From S2P Require Import Prelude Queue Stream Bytes Instances GoLib EthTypes EthInstances Keys ParsedTx Normalize.
From S2P Require Import Virtual VirtualBank VirtualIbc VirtualResponse RpcUtils Cached Codec Indexer IndexerQuery.
From stdpp Require Import strings list.
#[local] Open Scope Z_scope.

Module RpcStream.
Import GoLib EthTypes Keys Virtual RpcUtils Cached Indexer Stream.

Definition headerStreamSegmentSize : Z := 128.
Definition headerStreamCapacity : Z := 128 * 32.
Definition txStreamSegmentSize : Z := 1024.
Definition txStreamCapacity : Z := 1024 * 32.
Definition logStreamSegmentSize : Z := 2048.
Definition logStreamCapacity : Z := 2048 * 32.

(** IndexedBlockReader *)
Record IndexedBlockReader := mkBlockReader {
  br_GetBlockMetaByHeight : Z → res error CachedBlockMeta;
  br_GetLogsByBlockHeight : Z → res error (list (list (option RPCLog)));
  br_GetRPCTransactionHashesByBlockHeight : Z → res error (list Hash);
}.

Record RPCHeader := mkRPCHeader { EthHeader : Header; rh_Hash : Hash }.
#[export] Instance RPCHeader_inhabited : Inhabited RPCHeader :=
  populate (mkRPCHeader (mkHeader [] [] [] [] [] [] [] 0 0 0 0 0 None) []).

Record RPCStream := mkRPCStream {
  reader : option IndexedBlockReader;
  headerStream : Stream (V := RPCHeader);
  pendingTxStream : Stream (V := Hash);
  logStream : Stream (V := option RPCLog);
}.

Section ops.
Context {EL : EthLib}.

(** A panic of the streams is a panic of the caller. *)
Definition no_err {A} (m : res string A) : res error A := lib m.

Definition NewRPCStream (reader : option IndexedBlockReader) : res error RPCStream :=
  let! h := no_err (NewStream headerStreamSegmentSize headerStreamCapacity) in
  let! t := no_err (NewStream txStreamSegmentSize txStreamCapacity) in
  let! l := no_err (NewStream logStreamSegmentSize logStreamCapacity) in
  Ok (mkRPCStream reader h t l).

(** A nil receiver does nothing. *)
Definition ListenPendingTx (s : option RPCStream) (hash : Hash) : res error (option RPCStream) :=
  match s with
  | None => Ok None
  | Some s =>
      let! r := no_err (Add (pendingTxStream s) [hash]) in
      Ok (Some (mkRPCStream (reader s) (headerStream s) r.2 (logStream s)))
  end.

Definition flattenRPCLogs (groups : list (list (option RPCLog))) : list (option RPCLog) := mjoin groups.

(** The reads that come before anything is published. *)
Definition read_block (r : IndexedBlockReader) (height : Z) : res error (RPCHeader * list Hash * list (option RPCLog)) :=
  let! meta := wrap_err "load indexed block meta %d" (br_GetBlockMetaByHeight r height) in
  let! header := HeaderFromCachedBlockMeta (Some meta) in
  let! logGroups := wrap_err "load indexed block logs %d" (br_GetLogsByBlockHeight r height) in
  let! txHashes := wrap_err "load indexed block tx hashes %d" (br_GetRPCTransactionHashesByBlockHeight r height) in
  Ok (mkRPCHeader header (HexToHash (m_Hash meta)), txHashes, flattenRPCLogs logGroups).

(** The error, if any, and the streams after the call. *)
Definition PublishIndexedBlock (s : RPCStream) (height : Z) : res error unit * RPCStream :=
  match reader s with
  | None => (Ok tt, s)
  | Some r =>
      match read_block r height with
      | Err e => (Err e, s)
      | Panic p => (Panic p, s)
      | Ok (header, txHashes, logs) =>
          match Add (headerStream s) [header] with
          | Ok (_, h) =>
              let s := mkRPCStream (reader s) h (pendingTxStream s) (logStream s) in
              match Add (pendingTxStream s) txHashes with
              | Ok (_, t) =>
                  let s := mkRPCStream (reader s) (headerStream s) t (logStream s) in
                  match Add (logStream s) logs with
                  | Ok (_, l) => (Ok tt, mkRPCStream (reader s) (headerStream s) (pendingTxStream s) l)
                  | Err e => (Err (New e), s)
                  | Panic p => (Panic p, s)
                  end
              | Err e => (Err (New e), s)
              | Panic p => (Panic p, s)
              end
          | Err e => (Err (New e), s)
          | Panic p => (Panic p, s)
          end
      end
  end.

(** The key-value index as the reader of the streams. *)
Definition kv_block_reader {D : Type} {DB : KVDB D} {SD : SDK} {CP : Codec.CapnpLib} {LG : Codec.LegacyLib} (d : D) : IndexedBlockReader :=
  mkBlockReader (IndexerQuery.GetBlockMetaByHeight d) (IndexerQuery.GetLogsByBlockHeight d)
    (IndexerQuery.GetRPCTransactionHashesByBlockHeight d).

(** ** What the streams hold *)

(** Everything ever published. *)
Record history := mkHistory { headers : list RPCHeader; hashes : list Hash; logs : list (option RPCLog) }.

Definition streams_inv (s : RPCStream) (h : history) : Prop :=
  Stream.inv (headerStream s) (headers h) ∧ Stream.inv (pendingTxStream s) (hashes h) ∧ Stream.inv (logStream s) (logs h).

(** Adding nothing changes nothing. *)
Lemma Add_ok {V} `{!Inhabited V} (s : Stream (V := V)) hist vs :
  Stream.inv s hist → ∃ id s', Add s vs = Ok (id, s') ∧ Stream.inv s' (hist ++ vs) ∧
    segmentSize s' = segmentSize s ∧ maxSegments s' = maxSegments s.
Proof.
  intros Hi. destruct vs as [|v vs]; [exists 0, s; by rewrite app_nil_r|].
  destruct (add_all_spec (v :: vs) s hist Hi) as (s' & E & Hi' & E1 & E2).
  eexists _, s'. unfold Add. rewrite E. cbn [res_bind]. by rewrite (lastID_spec _ _ Hi').
Qed.

Definition extend (h : history) (b : RPCHeader * list Hash * list (option RPCLog)) : history :=
  mkHistory (headers h ++ [b.1.1]) (hashes h ++ b.1.2) (logs h ++ b.2).

(** Publishing a readable block appends it to the three streams; otherwise
    nothing is published. *)
Lemma publish_spec s h r height :
  streams_inv s h → reader s = Some r →
  match read_block r height with
  | Ok b => ∃ s', PublishIndexedBlock s height = (Ok tt, s') ∧ streams_inv s' (extend h b) ∧ reader s' = reader s ∧
                  segmentSize (logStream s') = segmentSize (logStream s) ∧ maxSegments (logStream s') = maxSegments (logStream s)
  | Err e => PublishIndexedBlock s height = (Err e, s)
  | Panic p => PublishIndexedBlock s height = (Panic p, s)
  end.
Proof.
  intros (H1 & H2 & H3) Hr. unfold PublishIndexedBlock. rewrite Hr. cbv zeta.
  destruct (read_block r height) as [[[header txHashes] ls]|e|p]; [|done..].
  destruct (Add_ok _ _ [header] H1) as (i1 & h' & E1 & I1 & _). rewrite E1. cbn.
  destruct (Add_ok _ _ txHashes H2) as (i2 & t' & E2 & I2 & _). rewrite E2. cbn.
  destruct (Add_ok _ _ ls H3) as (i3 & l' & E3 & I3 & S1 & S2). rewrite E3.
  eexists. split; [done|]. done.
Qed.

Lemma NewRPCStream_ok r : ∃ s, NewRPCStream r = Ok s ∧ streams_inv s (mkHistory [] [] []) ∧ reader s = r ∧
  logStreamCapacity ≤ Z.of_nat (maxSegments (logStream s) * segmentSize (logStream s)).
Proof.
  destruct (NewStream_spec (V := RPCHeader) headerStreamSegmentSize headerStreamCapacity) as (h & E1 & I1 & _); [done..|].
  destruct (NewStream_spec (V := Hash) txStreamSegmentSize txStreamCapacity) as (t & E2 & I2 & _); [done..|].
  destruct (NewStream_spec (V := option RPCLog) logStreamSegmentSize logStreamCapacity) as (l & E3 & I3 & S1 & S2); [done..|].
  unfold NewRPCStream. rewrite E1, E2, E3. cbn. eexists. split; [done|]. split; [done|]. split; [done|]. cbn. rewrite S1. lia.
Qed.
End ops.
End RpcStream.
