(* ===== verification/FilterApi.v ===== *)
(** * Log filters (src/internal/evm/rpc/namespaces/ethereum/eth/filters)

    The polling filters of api.go over the event streams, the range and block
    queries of filters.go over the backend, and the helpers of utils.go.  The filters
    are a map from ids; an id is given by the caller (rpc.NewID is random).  A
    timer is [expired] once it has fired and its value has not been received.  All
    methods hold filtersMu, so they are atomic; a poll reads the streams between
    two publications. *)

From Stdlib Require Import Ascii String.
From S2P Require Import Prelude Queue Stream Bytes Instances GoLib EthTypes EthInstances Keys Tracker ParsedTx Normalize.
From S2P Require Import Virtual VirtualBank VirtualIbc VirtualResponse RpcUtils Cached Codec Indexer IndexerQuery.
From S2P Require Import RpcTypes Backend BackendLive BackendBlocks BackendLogs RpcStream.
From stdpp Require Import strings list gmap.
#[local] Open Scope Z_scope.

Module FilterApi.
Import GoLib EthTypes Keys ParsedTx Normalize Virtual RpcUtils Cached Codec RpcTypes Backend BackendLive BackendBlocks BackendLogs RpcStream.
#[local] Open Scope backend_scope.

(** filters.FilterCriteria; block numbers are big integers or nil. *)
Record FilterCriteria := mkCriteria {
  fc_BlockHash : option Hash;
  FromBlock : option Z;
  ToBlock : option Z;
  Addresses : list Address;
  Topics : list (list Hash);
}.

(** ** utils.go *)

Definition maxAddresses : nat := 32.
Definition maxTopics : nat := 4.

Definition ValidateFilterCriteria (criteria : FilterCriteria) : res error unit :=
  if bool_decide (maxAddresses < length (Addresses criteria))%nat then Err (Errorf "max filter addresses exceeded: %d > %d")
  else if bool_decide (maxTopics < length (Topics criteria))%nat then Err (Errorf "max filter topics exceeded: %d > %d")
  else Ok tt.

(** big.Int.Int64 and Uint64 keep the low 64 bits; the number of a nil log is a
    nil dereference. *)
Definition out_of_range (fromBlock toBlock : option Z) (log : option RPCLog) : res error bool :=
  let! below :=
    match fromBlock with
    | Some from => if bool_decide (0 ≤ int64 from) then let! log := deref log in Ok (bool_decide (l_BlockNumber log < uint64 from))
                   else Ok false
    | None => Ok false
    end in
  if below : bool then Ok true
  else match toBlock with
       | Some to => if bool_decide (0 ≤ int64 to) then let! log := deref log in Ok (bool_decide (uint64 to < l_BlockNumber log))
                    else Ok false
       | None => Ok false
       end.

Fixpoint FilterLogs (logs : list (option RPCLog)) (fromBlock toBlock : option Z) (addresses : list Address)
    (topics : list (list Hash)) : res error (list (option RPCLog)) :=
  match logs with
  | [] => Ok []
  | log :: logs =>
      let! skip := out_of_range fromBlock toBlock log in
      let! rest := FilterLogs logs fromBlock toBlock addresses topics in
      Ok (if skip || negb (LogMatches log addresses topics) then rest else log :: rest)
  end.

Section ops.
Context {EL : EthLib} {CL : ChainLib} {LJ : LogJSON} {PB : Proto} {BL : Bank.BankLib} {IL : Ibc.IbcLib} {BB : BackendLib}.
Context (IBCHookCallerAddressHex : string).

Definition bloomFilter (bloom : bytes) (addresses : list Address) (topics : list (list Hash)) : bool :=
  (match addresses with [] => true | _ => existsb (BloomLookup bloom) addresses end) &&
  forallb (λ sub, match sub with [] => true | _ => existsb (BloomLookup bloom) sub end) topics.

(** ** filters.go *)

Record BloomIV := mkBloomIV { biv_I : Z * Z * Z; biv_V : Z * Z * Z }.

(** The first six bytes of the digest; binary.BigEndian.Uint16 of two of them. *)
Definition calcBloomIVs (data : bytes) : BloomIV :=
  let hashbuf := take 6 (Keccak256Hash [data]) in
  let at_ i := nth i hashbuf 0 in
  let bit i := Z.shiftl 1 (Z.land (at_ i) 7) mod 256 in
  let index i := uint64 (uint64 (Z.of_nat BloomByteLength - Z.shiftr (Z.land (at_ i * 256 + at_ (S i)) 2047) 3) - 1) in
  mkBloomIV (index 0%nat, index 2%nat, index 4%nat) (bit 1%nat, bit 3%nat, bit 5%nat).

(** Rules without clauses are dropped; clauses of addresses and topics are not nil. *)
Definition createBloomFilters (filters : list (list bytes)) : list (list BloomIV) :=
  (λ rule : list bytes, calcBloomIVs <$> rule) <$> filter (λ f, f ≠ []) filters.

Record Filter := mkLogFilter { criteria : FilterCriteria; bloomFilters : list (list BloomIV) }.

Definition NewBlockFilter (crit : FilterCriteria) : Filter := mkLogFilter crit [].

Definition NewRangeFilter (begin_ end_ : Z) (addresses : list Address) (topics : list (list Hash)) : Filter :=
  let filtersBz := (match addresses with [] => [] | _ => [addresses] end) ++ topics in
  mkLogFilter (mkCriteria None (Some begin_) (Some end_) addresses topics) (createBloomFilters filtersBz).

Definition maxToOverhang : Z := 600.

Context {RC LC : Type} `{!LRU Hash (gmap string Value) RC} `{!LRU Z (list (option RPCLog)) LC}.
Notation M := (Backend.M RC LC).

Definition blockLogsByHash (b : Backend) (f : Filter) (hash : Hash) : M (list (option RPCLog)) :=
  GetFilteredLogs IBCHookCallerAddressHex b hash (Addresses (criteria f)) (Topics (criteria f)).

Definition blockLogsByHeight (b : Backend) (f : Filter) (height : Z) : M (list (option RPCLog)) :=
  GetFilteredLogsByHeight IBCHookCallerAddressHex b height (Addresses (criteria f)) (Topics (criteria f)).

(** The loop over the heights of the range. *)
Fixpoint range_logs (b : Backend) (f : Filter) (logLimit : Z) (heights : list Z) (logs : list (option RPCLog)) :
    M (list (option RPCLog)) :=
  match heights with
  | [] => ret logs
  | height :: heights =>
      call (lift (GetBlockBloomByHeight IBCHookCallerAddressHex b height))
        (λ bloom,
          if negb (bloomFilter bloom (Addresses (criteria f)) (Topics (criteria f))) then range_logs b f logLimit heights logs
          else
            call (blockLogsByHeight b f height)
              (λ filtered,
                if bool_decide (logLimit < Z.of_nat (length logs) + Z.of_nat (length filtered)) then
                  lift (Err (Errorf "query returned more than %d results"))
                else range_logs b f logLimit heights (logs ++ filtered))
              (λ err, lift (Err (Wrap "failed to fetch block logs at height %d" err))))
        (λ err, lift (Err (Wrap "failed to fetch block bloom at height %d" err)))
  end.

(** Negative numbers stand for the head, zero for the first block. *)
Definition block_bound (n head : Z) : Z :=
  if bool_decide (int64 n < 0) then head else if bool_decide (int64 n = 0) then 1 else int64 n.

(** The heights from [from] to [to]. *)
Definition heights_between (from to : Z) : list Z := seqZ from (to - from + 1).

Definition range_query (b : Backend) (f : Filter) (logLimit blockLimit : Z) : M (list (option RPCLog)) :=
  do! header := lift (Indexer.wrap_err "failed to fetch header by number (latest)"
                  (HeaderByNumber IBCHookCallerAddressHex b EthLatestBlockNumber)) in
  let head := int64 (h_Number header) in
  do! fromBlock := lift (deref (FromBlock (criteria f))) in
  let from := block_bound fromBlock head in
  do! toBlock := lift (deref (ToBlock (criteria f))) in
  let to := block_bound toBlock head in
  if bool_decide (blockLimit < int64 (to - from)) then lift (Err (Errorf "maximum [from, to] blocks distance: %d"))
  else if bool_decide (head < from) then ret []
  else
    let to := if bool_decide (int64 (head + maxToOverhang) < to) then int64 (head + maxToOverhang) else to in
    range_logs b f logLimit (heights_between from to) [].

(** A nil list and an empty one are not told apart. *)
Definition Logs (b : Backend) (f : Filter) (logLimit blockLimit : Z) : M (list (option RPCLog)) :=
  match fc_BlockHash (criteria f) with
  | Some hash =>
      if bool_decide (hash ≠ zero_hash) then
        do! header := lift (Indexer.wrap_err "failed to fetch header by hash %s" (HeaderByHash IBCHookCallerAddressHex b hash)) in
        call (lift (GetBlockBloomByHeight IBCHookCallerAddressHex b (int64 (h_Number header))))
          (λ bloom,
            if negb (bloomFilter bloom (Addresses (criteria f)) (Topics (criteria f))) then ret []
            else blockLogsByHash b f hash)
          (λ _, ret [])
      else range_query b f logLimit blockLimit
  | None => range_query b f logLimit blockLimit
  end.

(** ** api.go: queries *)

(** rpc.LatestBlockNumber *)
Definition LatestBlockNumber : Z := -2.

Definition criteria_filter (crit : FilterCriteria) : Filter :=
  match fc_BlockHash crit with
  | Some _ => NewBlockFilter crit
  | None => NewRangeFilter (default LatestBlockNumber (int64 <$> FromBlock crit))
              (default LatestBlockNumber (int64 <$> ToBlock crit)) (Addresses crit) (Topics crit)
  end.

Definition api_GetLogs (b : Backend) (crit : FilterCriteria) : M (list (option RPCLog)) :=
  do! _ := lift (Indexer.wrap_err "invalid criteria" (ValidateFilterCriteria crit)) in
  Logs b (criteria_filter crit) (RPCLogsCap b) (RPCBlockRangeCap b).

(** ** api.go: polling filters *)

Inductive FilterType := PendingTransactionsSubscription | BlocksSubscription | LogsSubscription.
#[export] Instance FilterType_eq_dec : EqDecision FilterType.
Proof. solve_decision. Defined.

Record filter := mkFilter { typ : FilterType; expired : bool; crit : FilterCriteria; offset : Z }.

Record PublicFilterAPI := mkAPI { events : option RPCStream; filters : gmap string filter }.

Definition no_criteria : FilterCriteria := mkCriteria None None None [] [].

(** The ids that report a refusal instead of naming a filter. *)
Definition refused (what : string) : string := "error creating " +:+ what.

Definition NewPendingTransactionFilter (cap : Z) (api : PublicFilterAPI) (newID : string) : res error (string * PublicFilterAPI) :=
  match events api with
  | None => Ok (refused "pending tx filter: live filters unavailable in polling-only mode", api)
  | Some ev =>
      if bool_decide (cap ≤ Z.of_nat (size (filters api))) then Ok (refused "pending tx filter: max limit reached", api)
      else
        let! r := no_err (Stream.ReadNonBlocking (pendingTxStream ev) (-1)) in
        Ok (newID, mkAPI (events api) (<[newID := mkFilter PendingTransactionsSubscription false no_criteria r.2]> (filters api)))
  end.

Definition NewBlockFilter_ (cap : Z) (api : PublicFilterAPI) (newID : string) : res error (string * PublicFilterAPI) :=
  match events api with
  | None => Ok (refused "block filter: live filters unavailable in polling-only mode", api)
  | Some ev =>
      if bool_decide (cap ≤ Z.of_nat (size (filters api))) then Ok (refused "block filter: max limit reached", api)
      else
        let! r := no_err (Stream.ReadNonBlocking (headerStream ev) (-1)) in
        Ok (newID, mkAPI (events api) (<[newID := mkFilter BlocksSubscription false no_criteria r.2]> (filters api)))
  end.

Definition NewFilter (cap : Z) (api : PublicFilterAPI) (newID : string) (crit : FilterCriteria) : res error (string * PublicFilterAPI) :=
  match events api with
  | None => Err (Errorf "error creating filter: live filters unavailable in polling-only mode")
  | Some ev =>
      let! _ := Indexer.wrap_err "error creating filter: invalid criteria" (ValidateFilterCriteria crit) in
      if bool_decide (cap ≤ Z.of_nat (size (filters api))) then Err (Errorf "error creating filter: max limit reached")
      else
        let! r := no_err (Stream.ReadNonBlocking (logStream ev) (-1)) in
        Ok (newID, mkAPI (events api) (<[newID := mkFilter LogsSubscription false crit r.2]> (filters api)))
  end.

Definition UninstallFilter (api : PublicFilterAPI) (id : string) : bool * PublicFilterAPI :=
  match filters api !! id with
  | Some _ => (true, mkAPI (events api) (delete id (filters api)))
  | None => (false, api)
  end.

(** One tick of timeoutLoop: filters whose timer has fired are deleted. *)
Definition timeoutLoop_tick (api : PublicFilterAPI) : PublicFilterAPI :=
  mkAPI (events api) (base.filter (λ p, expired p.2 = false) (filters api)).

Definition GetFilterLogs (b : Backend) (api : PublicFilterAPI) (id : string) : M (list (option RPCLog)) :=
  match filters api !! id with
  | None => lift (Err (Errorf "filter %s not found"))
  | Some f =>
      if bool_decide (typ f ≠ LogsSubscription) then lift (Err (Errorf "filter %s doesn't have a LogsSubscription type: got %d"))
      else Logs b (criteria_filter (crit f)) (RPCLogsCap b) (RPCBlockRangeCap b)
  end.

Inductive changes := Hashes (hs : list Hash) | LogChanges (logs : list (option RPCLog)).

(** for { chunk, f.offset = ReadNonBlocking(f.offset); ... } *)
Fixpoint poll_logs (fuel : nat) (s : Stream.Stream (V := option RPCLog)) (crit : FilterCriteria) (offset : Z)
    (logs : list (option RPCLog)) : res error (list (option RPCLog) * Z) :=
  match fuel with
  | O => Err (New "out of fuel")
  | S fuel =>
      let! r := no_err (Stream.ReadNonBlocking s offset) in
      match r.1 with
      | [] => Ok (logs, r.2)
      | chunk =>
          let! filtered := FilterLogs chunk (FromBlock crit) (ToBlock crit) (Addresses crit) (Topics crit) in
          poll_logs fuel s crit r.2 (logs ++ filtered)
      end
  end.

(** The timer is stopped, drained and started again before the streams are
    read; the offset is stored in the filter. *)
Definition GetFilterChanges (api : PublicFilterAPI) (id : string) : res error (changes * PublicFilterAPI) :=
  match events api with
  | None => Err (Errorf "filter changes unavailable in polling-only mode")
  | Some ev =>
      match filters api !! id with
      | None => Err (Errorf "filter %s not found")
      | Some f =>
          let at_ offset := mkAPI (events api) (<[id := mkFilter (typ f) false (crit f) offset]> (filters api)) in
          match typ f with
          | PendingTransactionsSubscription =>
              let! r := no_err (Stream.ReadAllNonBlocking (pendingTxStream ev) (offset f)) in
              Ok (Hashes r.1, at_ r.2)
          | BlocksSubscription =>
              let! r := no_err (Stream.ReadAllNonBlocking (headerStream ev) (offset f)) in
              Ok (Hashes (rh_Hash <$> r.1), at_ r.2)
          | LogsSubscription =>
              let! r := poll_logs (S (S (Queue.Length (Stream.segments (logStream ev))))) (logStream ev) (crit f) (offset f) [] in
              Ok (LogChanges r.1, at_ r.2)
          end
      end
  end.
End ops.
End FilterApi.
