(* ===== verification/FilterQuery.v ===== *)
(** * Range queries are exact

    eth_getLogs over an indexed range: the bloom test never skips a block with a
    matching log, so the answer is the concatenation of the matching logs of every
    block of the range, or the error of the result limit. *)

From Stdlib Require Import Ascii String.
From S2P Require Import Prelude Queue Stream Bytes Instances GoLib EthTypes EthInstances Keys Tracker ParsedTx Normalize.
From S2P Require Import Virtual VirtualBank VirtualIbc VirtualResponse RpcUtils Cached Codec Indexer IndexerQuery.
From S2P Require Import CodecInstances CodecProps IndexerStore IndexerLoop IndexerBatch IndexerSample IndexerProps.
From S2P Require Import RpcTypes Backend BackendLive BackendBlocks BackendTx BackendLogs BackendSample BackendCache BackendFees RpcStream FilterApi.
From stdpp Require Import strings list gmap.
#[local] Open Scope Z_scope.

Module FilterQuery.
Import GoLib EthTypes Keys ParsedTx Normalize Virtual RpcUtils Cached Codec CodecProps IndexerStore IndexerLoop IndexerBatch RpcTypes Backend BackendLive BackendBlocks BackendLogs BackendCache FilterApi.
#[local] Open Scope backend_scope.

(** Blooms have no false negatives (go-ethereum's core/types). *)
Class BloomLaws `{EthLib} `{ChainLib} `{BackendLib} : Prop := {
  bloom_address logs log : Some log ∈ logs → BloomLookup (BytesToBloom (LogsBloom logs)) (log_Address log) = true;
  bloom_topic logs log t : Some log ∈ logs → t ∈ log_Topics log → BloomLookup (BytesToBloom (LogsBloom logs)) t = true;
}.

Definition matching (addresses : list Address) (topics : list (list Hash)) (logs : list (option RPCLog)) : list (option RPCLog) :=
  base.filter (λ log, LogMatches log addresses topics = true) logs.

Section query.
Context {EL : EthLib} {ELL : EthLibLaws} {CL : ChainLib} {CLL : ChainLibLaws} {LJ : LogJSON} {PB : Proto}
        {BL : Bank.BankLib} {IL : Ibc.IbcLib} {BB : BackendLib} {BLL : BloomLaws}.
Context {RC LC : Type} `{!LRU Hash (gmap string Value) RC} `{!LRULaws Hash (gmap string Value) RC}
        `{!LRU Z (list (option RPCLog)) LC} `{!LRULaws Z (list (option RPCLog)) LC}.
Context (caller : string).

(** A block with a matching log passes the bloom test. *)
Lemma bloomFilter_sound addresses topics logs log :
  Some log ∈ logs → LogMatches (Some log) addresses topics = true →
  bloomFilter (BytesToBloom (LogsBloom (EthLogs logs))) addresses topics = true.
Proof.
  intros Hin (Ha & Hl & Ht)%LogMatches_spec. unfold bloomFilter.
  assert (∃ el, Some el ∈ EthLogs logs ∧ log_Address el = l_Address log ∧ log_Topics el = l_Topics log) as (el & Hel & E1 & E2).
  { eexists. split; [apply list_elem_of_omap; exists (Some log); split; [done|reflexivity]|]. done. }
  apply andb_true_iff. split.
  - destruct addresses as [|a addresses]; [done|]. destruct Ha as [|Ha]; [done|]. apply existsb_exists.
    exists (l_Address log). split; [by apply list_elem_of_In|]. rewrite <- E1. by apply bloom_address.
  - apply forallb_forall. intros sub Hsub%list_elem_of_In. apply list_elem_of_lookup_1 in Hsub as [i Hi].
    destruct sub as [|x sub]; [done|]. pose proof (lookup_lt_Some _ _ _ Hi).
    destruct (lookup_lt_is_Some_2 (l_Topics log) i) as [t Hti]; [lia|].
    destruct (Ht i (x :: sub) t Hi Hti) as [|Hs]; [done|]. apply existsb_exists. exists t.
    split; [by apply list_elem_of_In|]. apply (bloom_topic _ el); [done|]. rewrite E2. by eapply list_elem_of_lookup_2.
Qed.

(** What the index promises about one block: metadata in the backend's mode, with the
    bloom of its logs, and filtered reads. *)
Definition block_served (b : Backend) (h : Z) (logs : list (option RPCLog)) : Prop :=
  ∃ ix meta, indexer b = Some ix ∧ ir_GetBlockMetaByHeight ix h = Ok meta ∧
    cachedMetaMatchesVirtualization b (Some meta) = true ∧
    m_Bloom meta = hexutil_Encode (LogsBloom (EthLogs logs)) ∧
    ∀ addresses topics, zero_address ∉ addresses →
      ir_GetFilteredLogsByBlockHeight ix h addresses topics = Ok (matching addresses topics logs).

Lemma served_bloom b h logs :
  block_served b h logs → GetBlockBloomByHeight caller b h = Ok (BytesToBloom (LogsBloom (EthLogs logs))).
Proof.
  intros (ix & meta & Hi & Hm & Hv & Hb & _). unfold GetBlockBloomByHeight, cached_bloom. rewrite Hi, Hm, Hv, Hb.
  by rewrite FromHex_Encode by apply LogsBloom_wf.
Qed.

(** Without caches a filtered read is the index's. *)
Lemma served_filtered b h logs addresses topics (s : bstate RC LC) :
  block_served b h logs → zero_address ∉ addresses → materialized s = None →
  ∃ s', GetFilteredLogsByHeight caller b h addresses topics s = (Ok (matching addresses topics logs), s') ∧ materialized s' = None.
Proof.
  intros (ix & meta & Hi & Hm & Hv & _ & Hl) Hz Hs. unfold GetFilteredLogsByHeight, cached_logs, call, lift. rewrite Hi, Hm, Hv.
  unfold read_filtered, read_logs, getBlockLogs, addBlockLogs, bind, call, lift.
  destruct (broadLogFilter addresses topics); cbn; rewrite ?Hs; cbn; rewrite Hl by done; cbn; rewrite ?Hs; by eexists.
Qed.

Definition range_answer (limit : Z) (all : list (option RPCLog)) : res error (list (option RPCLog)) :=
  if bool_decide (limit < Z.of_nat (length all)) then Err (Errorf "query returned more than %d results") else Ok all.

Lemma range_logs_exact b f limit heights logs_at acc (s : bstate RC LC) :
  zero_address ∉ Addresses (criteria f) → (∀ h, h ∈ heights → block_served b h (logs_at h)) → materialized s = None → Z.of_nat (length acc) ≤ limit →
  (range_logs caller b f limit heights acc s).1 =
  range_answer limit (acc ++ mjoin ((λ h, matching (Addresses (criteria f)) (Topics (criteria f)) (logs_at h)) <$> heights)).
Proof.
  intros Hz. revert acc s. induction heights as [|h heights IH]; intros acc s Hserved Hs Hacc; cbn [range_logs fmap list_fmap mjoin list_join].
  - rewrite app_nil_r. unfold range_answer. by rewrite bool_decide_eq_false_2 by lia.
  - assert (block_served b h (logs_at h)) as Hh by (apply Hserved; by left).
    assert (∀ h', h' ∈ heights → block_served b h' (logs_at h')) as Hrest by (intros h' ?; apply Hserved; by right).
    unfold call at 1, lift at 1. rewrite (served_bloom _ _ _ Hh).
    set (m := matching (Addresses (criteria f)) (Topics (criteria f)) (logs_at h)).
    destruct (bloomFilter _ _ _) eqn:Eb; cbn [negb].
    + unfold call, blockLogsByHeight. destruct (served_filtered b h (logs_at h) (Addresses (criteria f)) (Topics (criteria f)) s Hh Hz Hs) as (s' & -> & Hs').
      fold m. rewrite app_assoc. case_bool_decide as Hlim.
      * unfold range_answer, lift. rewrite bool_decide_eq_true_2; [done|]. rewrite !length_app. lia.
      * apply IH; [done|done|]. rewrite length_app. lia.
    + assert (m = []) as ->; [|by apply IH].
      unfold m, matching. apply BackendFees.list_filter_nil. intros [log|] Hin Hm; [|done].
      by rewrite (bloomFilter_sound _ _ _ _ Hin Hm) in Eb.
Qed.

Lemma transparent_range_logs b f limit heights acc :
  (broadLogFilter (Addresses (criteria f)) (Topics (criteria f)) = true → Topics (criteria f) = []) →
  transparent (RC := RC) (LC := LC) b (range_logs caller b f limit heights acc).
Proof.
  intros Hp. revert acc. induction heights as [|h heights IH]; intros acc; cbn [range_logs]; [apply transparent_ret|].
  apply transparent_call; [apply transparent_lift| |intros; apply transparent_lift]. intros bloom. case_match; [apply IH|].
  apply transparent_call; [by apply transparent_GetFilteredLogsByHeight| |intros; apply transparent_lift].
  intros filtered. case_bool_decide; [apply transparent_lift|apply IH].
Qed.

End query.

(** ** Indexed blocks keep the promise *)

Section indexed.
Context {D : Type} {DB : KVDB D} {DBL : KVDBLaws D} {DBR : KVDBReliable D} {SD : SDK} {SDL : SDKLaws} {EL : EthLib}
        {ELL : EthLibLaws} {CL : ChainLib} {CLL : ChainLibLaws} {LJ : LogJSON} {PB : Proto} {BL : Bank.BankLib}
        {IL : Ibc.IbcLib} {CP : CapnpLib} {CPL : CapnpLaws} {LG : LegacyLib}.

Lemma stored_groups_id groups : Forall (Forall is_Some) groups → stored_group <$> groups = groups.
Proof.
  induction 1 as [|g groups Hg _ IH]; [done|]. cbn. f_equal; [|done]. unfold stored_group.
  induction Hg as [|[l|] ls [? ?] _ IHg]; [done| |done]. cbn. by f_equal.
Qed.

Lemma indexed_block_logs_served caller kv (d : D) block results stats d' b :
  0 ≤ blk_Height block < 2 ^ 63 → (∀ bz tx, TxDecoder bz = Ok tx → tx_hashes_wf tx) →
  wf_store (contents d) → wf_bytes (blk_Hash block) →
  Indexer.indexBlockWithStats caller kv d block results = (Ok stats, d') →
  indexer b = Some (kv_reader d') → VirtualizeCosmosEvents (cfg b) = Indexer.virtualizationEnabled kv →
  (∀ s, run_loop caller kv d block results = Ok s → Forall wf_logs (Indexer.s_blockLogs s) ∧ Forall (Forall is_Some) (Indexer.s_blockLogs s)) →
  ∃ s, run_loop caller kv d block results = Ok s ∧ block_served b (blk_Height block) (mjoin (Indexer.s_blockLogs s)).
Proof.
  intros Hh Hdec Hwf Hblk Hrun Hix Hmode Hlogs.
  destruct (IndexerProps.indexBlock_ran _ _ _ _ _ _ _ Hh Hdec Hrun) as (ba & s & hs & meta & metaBz & logsBz & [Hb Hl] & Hd').
  destruct (Hlogs s Hl) as [Hw Hsome]. exists s. split; [done|].
  destruct (final_block kv d block _ _ _ _ _ _ _ Hb) as (F1 & F2 & _). rewrite <- Hd' in F1, F2.
  pose proof (bu_metaBz _ _ _ _ _ _ _ _ _ _ Hb) as Hm. pose proof (bu_logsBz _ _ _ _ _ _ _ _ _ _ Hb) as Hlz.
  pose proof (bu_inv _ _ _ _ _ _ _ _ _ _ Hb) as Hi. destruct (bu_meta _ _ _ _ _ _ _ _ _ _ Hb) as (root & _ & Em).
  exists (kv_reader d'), meta. split; [done|]. split; [|split; [|split]].
  - cbn. unfold IndexerQuery.GetBlockMetaByHeight.
    rewrite (IndexerProps.get_record_present _ _ metaBz) by (done || by eapply IndexerProps.payload_nonempty).
    cbn. by rewrite (BlockMeta_roundtrip _ _ Hm).
  - unfold cachedMetaMatchesVirtualization. rewrite Hmode, Em. cbn. by destruct (Indexer.virtualizationEnabled kv).
  - rewrite Em. cbn. by rewrite (li_flat _ _ _ _ _ Hi).
  - intros addresses topics Hz. cbn. unfold IndexerQuery.GetFilteredLogsByBlockHeight.
    rewrite (IndexerProps.get_record_present _ _ logsBz) by (done || by eapply IndexerProps.payload_nonempty).
    cbn [res_bind]. rewrite (filtered_decode _ (Indexer.s_blockLogs s)); [done| |done].
    pose proof (BlockLogs_roundtrip _ _ Hw Hlz) as Hr. by rewrite stored_groups_id in Hr.
Qed.
End indexed.

(** ** The zero block hash *)

(** A query for the zero block hash has no block numbers and is treated as a
    range: the nil number is dereferenced. *)
Lemma zero_block_hash_panics {EL : EthLib} {CL : ChainLib} {LJ : LogJSON} {PB : Proto} {BL : Bank.BankLib} {IL : Ibc.IbcLib}
    {BB : BackendLib} {RC LC : Type} `{!LRU Hash (gmap string Value) RC} `{!LRU Z (list (option RPCLog)) LC}
    caller b addresses topics header (s : bstate RC LC) :
  (length addresses ≤ 32)%nat → (length topics ≤ 4)%nat →
  HeaderByNumber caller b EthLatestBlockNumber = Ok header →
  (api_GetLogs caller b (mkCriteria (Some zero_hash) None None addresses topics) s).1 = Panic "nil pointer dereference".
Proof.
  intros Ha Ht Hh. unfold api_GetLogs, ValidateFilterCriteria, maxAddresses, maxTopics. cbn [Addresses Topics].
  rewrite !bool_decide_eq_false_2 by lia. unfold Logs. cbn [criteria_filter fc_BlockHash NewBlockFilter criteria].
  unfold bind at 1. cbn. rewrite bool_decide_eq_false_2 by auto. unfold range_query, bind, lift. by rewrite Hh.
Qed.

(** ** The concrete block *)

Module Witness.
Import EthInstances IndexerSample BackendSample CodecInstances.

#[export] Instance sample_BloomLaws : BloomLaws.
Proof.
  assert (∀ logs, BytesToBloom (LogsBloom logs) = model_bloom logs) as Hb by (intros logs; apply (fit_id 256), model_bloom_wf).
  split; intros logs log; [intros Hl|intros t Hl Ht]; rewrite Hb; apply (model_bloom_found _ log); done || set_solver.
Qed.

Definition sample_groups : list (list (option RPCLog)) :=
  match run_loop "0x01" sample_indexer (∅ : gmap bytes bytes) sample_block (Some sample_results) with
  | Ok s => Indexer.s_blockLogs s
  | _ => []
  end.

Lemma sample_logs_wf : Forall wf_logs sample_groups ∧ Forall (Forall is_Some) sample_groups.
Proof. split; apply (bool_decide_unpack _); vm_compute; exact I. Qed.

Lemma sample_served : block_served sample_backend 12 (mjoin sample_groups).
Proof.
  destruct (indexed_block_logs_served (D := gmap bytes bytes) "0x01" sample_indexer ∅ sample_block (Some sample_results) (Indexer.mkStats 1)
    sample_store sample_backend (proj1 sample_block_wf) sample_decodes empty_store_wf (proj2 sample_block_wf) sample_run_ok
    eq_refl eq_refl) as (s & Hs & Hserved).
  - intros s Hs. pose proof sample_logs_wf as H. unfold sample_groups in H. rewrite Hs in H. exact H.
  - unfold sample_groups. rewrite Hs. exact Hserved.
Qed.

(** Transfers by one sender, of which the block has three, and by another, which its
    bloom excludes. *)
Definition transfers_by (sender : Z) : Filter :=
  NewRangeFilter 12 (-1) [be_bytes 20 2048] [[]; [be_bytes 32 sender; be_bytes 32 200]].

Definition no_caches : bstate (lru_cache Hash (gmap string Value)) (lru_cache Z (list (option RPCLog))) := mkBState None None.

End Witness.
End FilterQuery.
