(* ===== verification/FilterPoll.v ===== *)
(** * Polling filters

    The filters of the API over the event streams: the number of filters stays
    within the cap and no poll panics or loops, in every order of calls; and a
    filter delivers every matching log once. *)

From Stdlib Require Import Ascii String.
From S2P Require Import Prelude Queue Stream Bytes Instances GoLib EthTypes EthInstances Keys Tracker ParsedTx Normalize.
From S2P Require Import Virtual VirtualBank VirtualIbc VirtualResponse RpcUtils Cached Codec Indexer IndexerQuery IndexerStore.
From S2P Require Import CodecInstances IndexerSample RpcTypes Backend BackendLive BackendBlocks BackendLogs RpcStream FilterApi.
From stdpp Require Import strings list gmap.
#[local] Open Scope Z_scope.

Module FilterPoll.
Import GoLib EthTypes Keys ParsedTx Normalize Virtual RpcUtils Cached Codec RpcTypes RpcStream FilterApi.

(** ** The log filter as a predicate *)

Definition selected (crit : FilterCriteria) (log : option RPCLog) : bool :=
  match log with
  | None => false
  | Some l =>
      match FromBlock crit with Some from => bool_decide (int64 from < 0) || bool_decide (uint64 from ≤ l_BlockNumber l) | None => true end &&
      match ToBlock crit with Some to => bool_decide (int64 to < 0) || bool_decide (l_BlockNumber l ≤ uint64 to) | None => true end &&
      LogMatches log (Addresses crit) (Topics crit)
  end.

Definition pick (crit : FilterCriteria) (logs : list (option RPCLog)) : list (option RPCLog) :=
  base.filter (λ log, selected crit log = true) logs.

Lemma FilterLogs_pick crit logs :
  Forall is_Some logs → FilterLogs logs (FromBlock crit) (ToBlock crit) (Addresses crit) (Topics crit) = Ok (pick crit logs).
Proof.
  induction 1 as [|log logs [l ->] _ IH]; [done|]. cbn [FilterLogs]. unfold pick. rewrite filter_cons. fold (pick crit logs).
  assert (∃ skip, out_of_range (FromBlock crit) (ToBlock crit) (Some l) = Ok skip ∧
    skip || negb (LogMatches (Some l) (Addresses crit) (Topics crit)) = negb (selected crit (Some l))) as (skip & -> & Hs).
  { unfold out_of_range, selected. destruct (FromBlock crit) as [from|], (ToBlock crit) as [to|]; cbn [Backend.deref];
      repeat (case_bool_decide; cbn [res_bind orb andb negb]; try lia); eexists; (split; [reflexivity|]); try done;
      by destruct (LogMatches _ _ _). }
  cbn [res_bind]. rewrite IH. cbn [res_bind]. rewrite Hs. destruct (selected crit (Some l)); cbn [negb].
  - by rewrite decide_True.
  - by rewrite decide_False.
Qed.

Lemma pick_app crit a b : pick crit (a ++ b) = pick crit a ++ pick crit b.
Proof. apply filter_app. Qed.

(** ** Reading the log stream *)

Lemma read_all_extends {V} `{!Inhabited V} fuel (s : Stream.Stream (V := V)) o read l n :
  Stream.read_all fuel s o read = Ok (l, n) → ∃ items, l = read ++ items.
Proof.
  revert o read. induction fuel as [|fuel IH]; intros o read; [done|]. cbn [Stream.read_all].
  intros ([chunk m] & _ & H)%res_bind_ok. cbn in H. destruct chunk as [|x chunk].
  - injection H as <- _. exists []. by rewrite app_nil_r.
  - apply IH in H as [items ->]. rewrite <- app_assoc. by eexists.
Qed.

(** The loop of a log filter reads what ReadAllNonBlocking reads. *)
Lemma poll_logs_read fuel s crit o (acc read : list (option RPCLog)) items n :
  Stream.read_all fuel s o read = Ok (read ++ items, n) → Forall is_Some items →
  poll_logs fuel s crit o acc = Ok (acc ++ pick crit items, n).
Proof.
  revert o acc read items. induction fuel as [|fuel IH]; intros o acc read items; [done|].
  cbn [Stream.read_all poll_logs]. unfold no_err, Stream.ReadNonBlocking. intros ([chunk m] & -> & H)%res_bind_ok Hs.
  cbn [lib res_map_err res_bind fst snd] in *. destruct chunk as [|x chunk].
  - injection H as H <-. rewrite <- (app_nil_r read) in H at 1. apply app_inv_head in H as <-. by rewrite app_nil_r.
  - destruct (read_all_extends _ _ _ _ _ _ H) as [more E]. rewrite <- app_assoc in E. apply app_inv_head in E as ->.
    rewrite app_assoc in H. apply Forall_app in Hs as [Hs1 Hs2].
    rewrite FilterLogs_pick by done. cbn [res_bind]. rewrite (IH _ _ _ _ H Hs2), <- app_assoc, pick_app. done.
Qed.

Definition poll_fuel (s : Stream.Stream (V := option RPCLog)) : nat := S (S (Queue.Length (Stream.segments s))).

Lemma poll_logs_all s hist crit items n o :
  Stream.ReadAllNonBlocking s o = Ok (items, n) → items ⊆ hist → Forall is_Some hist →
  poll_logs (poll_fuel s) s crit o [] = Ok (pick crit items, n).
Proof.
  intros Hr Hsub Hs. apply (poll_logs_read _ _ _ _ [] []); [exact Hr|].
  rewrite Forall_forall in *. auto.
Qed.

Section api.
Context {EL : EthLib}.

(** ** Steps of the API *)

Inductive api_step (cap : Z) : PublicFilterAPI → PublicFilterAPI → Prop :=
  | step_pending api id r api' : NewPendingTransactionFilter cap api id = Ok (r, api') → api_step cap api api'
  | step_block api id r api' : NewBlockFilter_ cap api id = Ok (r, api') → api_step cap api api'
  | step_logs api id crit r api' : NewFilter cap api id crit = Ok (r, api') → api_step cap api api'
  | step_uninstall api id found api' : UninstallFilter api id = (found, api') → api_step cap api api'
  | step_tick api : api_step cap api (timeoutLoop_tick api)
  | step_fire api id f : filters api !! id = Some f →
      api_step cap api (mkAPI (events api) (<[id := mkFilter (typ f) true (crit f) (offset f)]> (filters api)))
  | step_poll api id c api' : GetFilterChanges api id = Ok (c, api') → api_step cap api api'
  | step_publish ev h fs ev' : PublishIndexedBlock ev h = (Ok tt, ev') → api_step cap (mkAPI (Some ev) fs) (mkAPI (Some ev') fs)
  | step_pending_tx ev x fs ev' : ListenPendingTx (Some ev) x = Ok (Some ev') → api_step cap (mkAPI (Some ev) fs) (mkAPI (Some ev') fs).

(** The stream a filter reads. *)
Definition published (h : history) (t : FilterType) : nat :=
  match t with
  | PendingTransactionsSubscription => length (hashes h)
  | BlocksSubscription => length (headers h)
  | LogsSubscription => length (logs h)
  end.

(** Readers hand out logs, never nil. *)
Definition reader_ok (ev : RPCStream) : Prop :=
  ∀ r h groups, reader ev = Some r → br_GetLogsByBlockHeight r h = Ok groups → Forall (Forall is_Some) groups.

Definition offsets_ok (h : history) (fs : gmap string filter) : Prop :=
  map_Forall (λ _ f, 0 ≤ offset f ≤ Z.of_nat (published h (typ f))) fs.

Definition api_inv (cap : Z) (api : PublicFilterAPI) : Prop :=
  Z.of_nat (size (filters api)) ≤ Z.max 0 cap ∧
  ∀ ev, events api = Some ev →
    reader_ok ev ∧ ∃ h, streams_inv ev h ∧ Forall is_Some (logs h) ∧ offsets_ok h (filters api).

(** ** Creation *)

Lemma read_end {V} `{!Inhabited V} (s : Stream.Stream (V := V)) hist :
  Stream.inv s hist → Stream.ReadNonBlocking s (-1) = Ok ([], Z.of_nat (length hist)).
Proof.
  intros Hi. unfold Stream.ReadNonBlocking, Stream.doRead. rewrite (Stream.lastID_spec _ _ Hi).
  case_bool_decide; [done|]. by rewrite bool_decide_eq_true_2 by lia.
Qed.

Lemma size_insert_le {A} (m : gmap string A) k v : (size (<[k := v]> m) ≤ S (size m))%nat.
Proof.
  destruct (m !! k) eqn:E; [rewrite map_size_insert_Some by done|rewrite map_size_insert_None by done]; lia.
Qed.

(** A new filter starts at the end of its stream. *)
Lemma install_inv cap api ev id t crit h :
  api_inv cap api → events api = Some ev → ¬ cap ≤ Z.of_nat (size (filters api)) →
  streams_inv ev h → Forall is_Some (logs h) → offsets_ok h (filters api) →
  api_inv cap (mkAPI (events api) (<[id := mkFilter t false crit (Z.of_nat (published h t))]> (filters api))).
Proof.
  intros [Hc He] Hev Hcap Hs Hl Ho. split; cbn.
  - pose proof (size_insert_le (filters api) id (mkFilter t false crit (Z.of_nat (published h t)))). lia.
  - intros ev' Hev'. rewrite Hev in Hev'. injection Hev' as <-. destruct (He _ Hev) as [Hr _]. split; [done|].
    exists h. split; [done|]. split; [done|]. apply map_Forall_insert_2; [cbn; lia|done].
Qed.

(** The three constructors: refusals leave the API alone, otherwise a filter is installed
    at the end of its stream; they do not panic. *)
Lemma new_pending_spec cap api id :
  api_inv cap api → ∃ r api', NewPendingTransactionFilter cap api id = Ok (r, api') ∧ api_inv cap api'.
Proof.
  intros Hi. unfold NewPendingTransactionFilter. destruct (events api) as [ev|] eqn:Hev; [|by eexists _, _].
  case_bool_decide as Hcap; [by eexists _, _|]. destruct (proj2 Hi _ Hev) as (_ & h & Hs & Hl & Ho).
  rewrite (read_end _ _ (proj1 (proj2 Hs))). cbn. eexists _, _. split; [done|]. rewrite <- Hev.
  by apply (install_inv cap api ev id PendingTransactionsSubscription no_criteria h).
Qed.

Lemma new_block_spec cap api id :
  api_inv cap api → ∃ r api', NewBlockFilter_ cap api id = Ok (r, api') ∧ api_inv cap api'.
Proof.
  intros Hi. unfold NewBlockFilter_. destruct (events api) as [ev|] eqn:Hev; [|by eexists _, _].
  case_bool_decide as Hcap; [by eexists _, _|]. destruct (proj2 Hi _ Hev) as (_ & h & Hs & Hl & Ho).
  rewrite (read_end _ _ (proj1 Hs)). cbn. eexists _, _. split; [done|]. rewrite <- Hev.
  by apply (install_inv cap api ev id BlocksSubscription no_criteria h).
Qed.

Lemma new_filter_spec cap api id crit :
  api_inv cap api → (∃ e, NewFilter cap api id crit = Err e) ∨ ∃ r api', NewFilter cap api id crit = Ok (r, api') ∧ api_inv cap api'.
Proof.
  intros Hi. unfold NewFilter. destruct (events api) as [ev|] eqn:Hev; [|left; by eexists].
  assert (ValidateFilterCriteria crit = Ok tt ∨ ∃ e, ValidateFilterCriteria crit = Err e) as [->|[e ->]].
  { unfold ValidateFilterCriteria. repeat case_bool_decide; eauto. }
  - cbn. case_bool_decide as Hcap; [left; by eexists|]. destruct (proj2 Hi _ Hev) as (_ & h & Hs & Hl & Ho).
    rewrite (read_end _ _ (proj2 (proj2 Hs))). cbn. right. eexists _, _. split; [done|]. rewrite <- Hev.
    by apply (install_inv cap api ev id LogsSubscription crit h).
  - left. cbn. by eexists.
Qed.

(** ** Polling *)

(** Storing a filter back at the end of its stream. *)
Lemma offset_store_inv cap api ev id f h :
  api_inv cap api → events api = Some ev → filters api !! id = Some f →
  streams_inv ev h → Forall is_Some (logs h) → offsets_ok h (filters api) →
  api_inv cap (mkAPI (events api) (<[id := mkFilter (typ f) false (crit f) (Z.of_nat (published h (typ f)))]> (filters api))).
Proof.
  intros [Hc He] Hev Hf Hs Hl Ho. split; cbn.
  - by rewrite map_size_insert_Some by done.
  - intros ev' Hev'. rewrite Hev in Hev'. injection Hev' as <-. destruct (He _ Hev) as [Hr _]. split; [done|].
    exists h. split; [done|]. split; [done|]. apply map_Forall_insert_2; [cbn; lia|done].
Qed.

(** A poll of an installed filter ends, without a panic, at the end of the stream. *)
Lemma poll_spec cap api ev id f :
  api_inv cap api → events api = Some ev → filters api !! id = Some f →
  ∃ c api', GetFilterChanges api id = Ok (c, api') ∧ api_inv cap api'.
Proof.
  intros Hi Hev Hf. destruct (proj2 Hi _ Hev) as (_ & h & Hs & Hl & Ho). pose proof Hs as (S1 & S2 & S3).
  pose proof (map_Forall_lookup_1 _ _ _ _ Ho Hf) as Hoff. cbn beta in Hoff. unfold GetFilterChanges. rewrite Hev, Hf. cbv zeta.
  pose proof (offset_store_inv cap api ev id f h Hi Hev Hf Hs Hl Ho) as Hst. rewrite Hev in Hst.
  assert (offset f = Z.of_nat (Z.to_nat (offset f))) as Eo by lia. destruct (typ f) eqn:Et; cbn [published] in *.
  - destruct (Stream.ReadAll_any _ _ (Z.to_nat (offset f)) S2) as (items & E & _); [lia|]. rewrite Eo, E. cbn. by eexists _, _.
  - destruct (Stream.ReadAll_any _ _ (Z.to_nat (offset f)) S1) as (items & E & _); [lia|]. rewrite Eo, E. cbn. by eexists _, _.
  - destruct (Stream.ReadAll_any _ _ (Z.to_nat (offset f)) S3) as (items & E & Hsub); [lia|]. rewrite Eo.
    change (S (S (Queue.Length (Stream.segments (logStream ev))))) with (poll_fuel (logStream ev)).
    rewrite (poll_logs_all _ _ _ _ _ _ E Hsub Hl). cbn. by eexists _, _.
Qed.

(** ** Publication *)

Lemma offsets_extend h h' fs :
  (∀ t, (published h t ≤ published h' t)%nat) → offsets_ok h fs → offsets_ok h' fs.
Proof. intros Hp Ho id f Hf. specialize (Ho id f Hf). specialize (Hp (typ f)). cbn in *. lia. Qed.

Lemma publish_inv cap ev height fs ev' :
  api_inv cap (mkAPI (Some ev) fs) → PublishIndexedBlock ev height = (Ok tt, ev') → api_inv cap (mkAPI (Some ev') fs).
Proof.
  intros [Hc He] Hp. split; [exact Hc|]. intros ev1 [= <-]. destruct (He ev eq_refl) as (Hr & h & Hs & Hl & Ho). cbn in Ho.
  destruct (reader ev) as [r|] eqn:Er.
  - pose proof (publish_spec ev h r height Hs Er) as Hsp. destruct (read_block r height) as [[[hd hs] ls]|e|p] eqn:Erb;
      [|rewrite Hp in Hsp; done..]. destruct Hsp as (s' & E & Hs' & Hr' & _). rewrite Hp in E. injection E as <-.
    split; [by intros ? ? ? ?; apply Hr; rewrite <- Hr'|]. exists (extend h (hd, hs, ls)). split; [done|]. cbn. split.
    + apply Forall_app_2; [done|]. apply res_bind_ok in Erb as (meta & _ & Erb). apply res_bind_ok in Erb as (header & _ & Erb).
      apply res_bind_ok in Erb as (groups & Hg & Erb). apply res_bind_ok in Erb as (hashes & _ & [= _ _ <-]).
      unfold Indexer.wrap_err in Hg. apply IndexerStore.res_map_err_ok in Hg. specialize (Hr r height groups Er Hg).
      unfold flattenRPCLogs. clear - Hr. induction Hr; cbn; [constructor|]. by apply Forall_app_2.
    + eapply offsets_extend; [|exact Ho]. intros []; cbn; rewrite length_app; lia.
  - unfold PublishIndexedBlock in Hp. rewrite Er in Hp. injection Hp as <-. split; [done|]. by exists h.
Qed.

Lemma pending_inv cap ev x fs ev' :
  api_inv cap (mkAPI (Some ev) fs) → ListenPendingTx (Some ev) x = Ok (Some ev') → api_inv cap (mkAPI (Some ev') fs).
Proof.
  intros [Hc He] Hp. split; [exact Hc|]. intros ev1 [= <-]. destruct (He ev eq_refl) as (Hr & h & (S1 & S2 & S3) & Hl & Ho). cbn in Ho.
  unfold ListenPendingTx in Hp. destruct (Add_ok _ _ [x] S2) as (id & t & E & It & _). rewrite E in Hp. cbn in Hp. injection Hp as <-.
  split; [exact Hr|]. exists (mkHistory (headers h) (hashes h ++ [x]) (logs h)). split; [done|]. split; [done|].
  eapply offsets_extend; [|exact Ho]. intros []; cbn; rewrite ?length_app; lia.
Qed.

(** ** Every order of calls *)

Lemma remove_inv cap api (fs : gmap string filter) :
  api_inv cap api → fs ⊆ filters api → api_inv cap (mkAPI (events api) fs).
Proof.
  intros [Hc He] Hsub. split; cbn.
  - pose proof (map_subseteq_size _ _ Hsub). lia.
  - intros ev Hev. destruct (He _ Hev) as (Hr & h & Hs & Hl & Ho). split; [done|]. exists h. split; [done|]. split; [done|].
    intros id f Hf. apply (Ho id f). by eapply lookup_weaken.
Qed.

Lemma api_step_inv cap api api' : api_step cap api api' → api_inv cap api → api_inv cap api'.
Proof.
  intros [a id r a' H|a id r a' H|a id crit r a' H|a id found a' H|a|a id f Hf|a id c a' H|ev h fs ev' H|ev x fs ev' H] Hi.
  - destruct (new_pending_spec cap a id Hi) as (r1 & a1 & E & Hi'). rewrite H in E. by injection E as _ <-.
  - destruct (new_block_spec cap a id Hi) as (r1 & a1 & E & Hi'). rewrite H in E. by injection E as _ <-.
  - destruct (new_filter_spec cap a id crit Hi) as [[e E]|(r1 & a1 & E & Hi')]; rewrite H in E; [done|]. by injection E as _ <-.
  - unfold UninstallFilter in H. destruct (filters a !! id); injection H as _ <-; [|done]. apply remove_inv; [done|apply delete_subseteq].
  - apply remove_inv; [done|apply map_filter_subseteq].
  - destruct Hi as [Hc He]. split; cbn; [by rewrite map_size_insert_Some|]. intros ev Hev.
    destruct (He _ Hev) as (Hr & h & Hs & Hl & Ho). split; [done|]. exists h. split; [done|]. split; [done|].
    apply map_Forall_insert_2; [exact (Ho id f Hf)|done].
  - unfold GetFilterChanges in H. destruct (events a) as [ev|] eqn:Hev; [|done]. destruct (filters a !! id) as [f|] eqn:Hf; [|done].
    destruct (poll_spec cap a ev id f Hi Hev Hf) as (c1 & a1 & E & Hi'). unfold GetFilterChanges in E. rewrite Hev, Hf in E.
    rewrite H in E. by injection E as _ <-.
  - by eapply publish_inv.
  - by eapply pending_inv.
Qed.

Lemma step_events cap api api' : api_step cap api api' → is_Some (events api) → is_Some (events api').
Proof.
  intros [a id r a' H|a id r a' H|a id crit r a' H|a id found a' H|a|a id f Hf|a id c a' H|ev h fs ev' H|ev x fs ev' H] Hev; cbn; try done.
  - destruct Hev as [e He]. unfold NewPendingTransactionFilter in H. rewrite He in H. case_bool_decide; [by injection H as _ <-|].
    by apply res_bind_ok in H as (r1 & _ & [= _ <-]).
  - destruct Hev as [e He]. unfold NewBlockFilter_ in H. rewrite He in H. case_bool_decide; [by injection H as _ <-|].
    by apply res_bind_ok in H as (r1 & _ & [= _ <-]).
  - destruct Hev as [e He]. unfold NewFilter in H. rewrite He in H. apply res_bind_ok in H as (u & _ & H). case_bool_decide; [done|].
    by apply res_bind_ok in H as (r1 & _ & [= _ <-]).
  - unfold UninstallFilter in H. destruct (filters a !! id); by injection H as _ <-.
  - destruct Hev as [e He]. unfold GetFilterChanges in H. rewrite He in H. destruct (filters a !! id) as [f|]; [|done].
    destruct (typ f); by apply res_bind_ok in H as (r1 & _ & [= _ <-]).
Qed.

(** C17. The filter API is safe in every order of calls: from a new API, after any sequence
    of installations, removals, expiries, timeouts, polls and publications, the number
    of filters is within the configured cap, polling an installed filter ends
    with an answer (no panic, no endless loop) even when its offset has been pruned from
    the stream, and creating a filter answers with an id or a refusal. *)
Theorem filter_api_safe cap r ev api :
  NewRPCStream r = Ok ev → reader_ok ev → rtc (api_step cap) (mkAPI (Some ev) ∅) api →
  Z.of_nat (size (filters api)) ≤ Z.max 0 cap ∧
  (∀ id f, filters api !! id = Some f → ∃ c api', GetFilterChanges api id = Ok (c, api')) ∧
  (∀ id, ∃ r api', NewPendingTransactionFilter cap api id = Ok (r, api')) ∧
  (∀ id, ∃ r api', NewBlockFilter_ cap api id = Ok (r, api')) ∧
  (∀ id crit p, NewFilter cap api id crit ≠ Panic p).
Proof.
  intros Hnew Hr Hsteps. assert (api_inv cap api ∧ is_Some (events api)) as [Hi [ev' Hev]].
  { refine (rtc_ind_r (λ a, api_inv cap a ∧ is_Some (events a)) _ _ _ _ Hsteps).
    - split; [|by eexists]. destruct (NewRPCStream_ok r) as (s & E & Hs & _). rewrite Hnew in E. injection E as <-.
      split; cbn; [rewrite map_size_empty; lia|]. intros ev' [= <-]. split; [done|].
      exists (mkHistory [] [] []). split; [done|]. split; [constructor|apply map_Forall_empty].
    - intros a a' _ Hst [Ha He]. split; [by eapply api_step_inv|by eapply step_events]. }
  split; [apply Hi|]. split; [|split; [|split]].
  - intros id f Hf. destruct (poll_spec cap api ev' id f Hi Hev Hf) as (c & a & E & _). by exists c, a.
  - intros id. destruct (new_pending_spec cap api id Hi) as (c & a & E & _). by exists c, a.
  - intros id. destruct (new_block_spec cap api id Hi) as (c & a & E & _). by exists c, a.
  - intros id crit p E. destruct (new_filter_spec cap api id crit Hi) as [[e E']|(r1 & a & E' & _)]; by rewrite E in E'.
Qed.

(** ** Every matching log once *)

(** Publishing blocks one after the other; the first failure stops. *)
Fixpoint publish_all (ev : RPCStream) (heights : list Z) : res error RPCStream :=
  match heights with
  | [] => Ok ev
  | h :: heights =>
      match PublishIndexedBlock ev h with
      | (Ok _, ev) => publish_all ev heights
      | (Err e, _) => Err e
      | (Panic p, _) => Panic p
      end
  end.

(** Rounds of publications, each followed by a poll of the filter. *)
Fixpoint rounds (api : PublicFilterAPI) (id : string) (bs : list (list Z)) : res error (list changes) :=
  match bs with
  | [] => Ok []
  | heights :: bs =>
      match events api with
      | None => Err (New "no events")
      | Some ev =>
          let! ev := publish_all ev heights in
          let! (c, api) := GetFilterChanges (mkAPI (Some ev) (filters api)) id in
          let! cs := rounds api id bs in
          Ok (c :: cs)
      end
  end.

Definition log_capacity (ev : RPCStream) : nat := Stream.maxSegments (logStream ev) * Stream.segmentSize (logStream ev).

Definition round_logs (block : Z → RPCHeader * list Hash * list (option RPCLog)) (heights : list Z) : list (option RPCLog) :=
  mjoin ((λ h, (block h).2) <$> heights).

Lemma publish_all_spec r block ev h heights :
  streams_inv ev h → reader ev = Some r → (∀ n, n ∈ heights → read_block r n = Ok (block n)) →
  ∃ ev' h', publish_all ev heights = Ok ev' ∧ streams_inv ev' h' ∧ reader ev' = Some r ∧ log_capacity ev' = log_capacity ev ∧
    logs h' = logs h ++ round_logs block heights.
Proof.
  revert ev h. induction heights as [|n heights IH]; intros ev h Hs Hr Hb; cbn [publish_all].
  - exists ev, h. split_and!; try done. by rewrite app_nil_r.
  - pose proof (publish_spec ev h r n Hs Hr) as Hp. rewrite (Hb n) in Hp by (by left).
    destruct Hp as (ev1 & -> & Hs1 & Hr1 & C1 & C2).
    destruct (IH ev1 (extend h (block n)) Hs1) as (ev2 & h2 & E & Hs2 & Hr2 & Hc & Hl); [by rewrite Hr1|intros m Hm; apply Hb; by right|].
    exists ev2, h2. split; [done|]. split; [done|]. split; [done|]. split; [unfold log_capacity in *; by rewrite Hc, C1, C2|].
    rewrite Hl. cbn. by rewrite <- app_assoc.
Qed.

(** A filter at the end of its stream, then a round, then a poll. *)
Lemma round_spec r block ev h heights id f fs :
  streams_inv ev h → reader ev = Some r → (∀ n, n ∈ heights → read_block r n = Ok (block n)) →
  (length (round_logs block heights) ≤ log_capacity ev)%nat → Forall is_Some (logs h ++ round_logs block heights) →
  fs !! id = Some f → typ f = LogsSubscription → offset f = Z.of_nat (length (logs h)) →
  ∃ ev' h', publish_all ev heights = Ok ev' ∧ streams_inv ev' h' ∧ reader ev' = Some r ∧ log_capacity ev' = log_capacity ev ∧
    logs h' = logs h ++ round_logs block heights ∧
    GetFilterChanges (mkAPI (Some ev') fs) id =
      Ok (LogChanges (pick (crit f) (round_logs block heights)),
          mkAPI (Some ev') (<[id := mkFilter LogsSubscription false (crit f) (Z.of_nat (length (logs h')))]> fs)).
Proof.
  intros Hs Hr Hb Hcap Hsome Hf Ht Ho.
  destruct (publish_all_spec r block ev h heights Hs Hr Hb) as (ev' & h' & E & Hs' & Hr' & Hc & Hl).
  exists ev', h'. do 5 (split; [done|]). unfold GetFilterChanges. cbn [events filters]. rewrite Hf, Ht. cbv zeta.
  destruct Hs' as (_ & _ & Hi). pose proof (Stream.retained_spec _ _ Hi) as Hret. rewrite Hl in Hi, Hret.
  assert (Stream.ReadAllNonBlocking (logStream ev') (offset f) = Ok (round_logs block heights, Z.of_nat (length (logs h ++ round_logs block heights)))) as Hread.
  { rewrite Ho. rewrite (Stream.ReadAll_spec _ _ _ Hi); [by rewrite drop_app_length|]. split; [|rewrite length_app; lia].
    unfold log_capacity in Hc, Hcap. rewrite <- Hc in Hcap. destruct Hi as (_ & _ & _ & _ & Hle & _). rewrite length_app in Hret, Hle.
    revert Hret Hle Hcap. clear. generalize (Stream.maxSegments (logStream ev') * Stream.segmentSize (logStream ev'))%nat.
    generalize (Stream.segmentOffset (logStream ev') * Stream.segmentSize (logStream ev'))%nat. lia. }
  change (S (S (Queue.Length (Stream.segments (logStream ev'))))) with (poll_fuel (logStream ev')).
  rewrite (poll_logs_all _ _ _ _ _ _ Hread (list_subseteq_app_r _ _ _ (reflexivity _)) Hsome). cbn [res_bind]. by rewrite Hl.
Qed.

Lemma rounds_spec r block bs ev h id f fs :
  streams_inv ev h → reader ev = Some r → (∀ n, n ∈ mjoin bs → read_block r n = Ok (block n)) →
  Forall (λ heights, (length (round_logs block heights) ≤ log_capacity ev)%nat) bs →
  Forall is_Some (logs h) → (∀ n, n ∈ mjoin bs → Forall is_Some (block n).2) →
  fs !! id = Some f → typ f = LogsSubscription → offset f = Z.of_nat (length (logs h)) →
  rounds (mkAPI (Some ev) fs) id bs = Ok ((λ heights, LogChanges (pick (crit f) (round_logs block heights))) <$> bs).
Proof.
  intros Hs Hr Hb Hcap Hsome Hblocks. revert ev h f fs Hs Hr Hcap Hsome.
  induction bs as [|heights bs IH]; intros ev h f fs Hs Hr Hcap Hsome Hf Ht Ho; [done|]. cbn [rounds events filters].
  apply Forall_cons in Hcap as [Hc1 Hc2]. cbn [mjoin list_join] in *.
  assert (Forall is_Some (logs h ++ round_logs block heights)) as Hall.
  { apply Forall_app_2; [done|]. apply Forall_forall. intros l Hl. unfold round_logs in Hl.
    apply list_elem_of_join in Hl as (g & Hlg & (n & -> & Hn)%list_elem_of_fmap).
    eapply Forall_forall; [|exact Hlg]. apply Hblocks. apply elem_of_app. by left. }
  destruct (round_spec r block ev h heights id f fs Hs Hr) as (ev' & h' & -> & Hs' & Hr' & Hc & Hl & Hg); [|done..|].
  { intros n Hn. apply Hb. apply elem_of_app. by left. }
  cbn [res_bind]. rewrite Hg. cbn [res_bind].
  rewrite (IH ltac:(intros n Hn; apply Hb; apply elem_of_app; by right) ltac:(intros n Hn; apply Hblocks; apply elem_of_app; by right)
    ev' h' (mkFilter LogsSubscription false (crit f) (Z.of_nat (length (logs h')))) _ Hs' Hr'); [done|by rewrite Hc| |apply lookup_insert_eq|done|done].
  by rewrite Hl.
Qed.

End api.

(** ** The concrete block, published twice *)

Module Witness.
Import EthInstances IndexerSample CodecInstances IndexerStore.

Definition sample_reader : IndexedBlockReader := kv_block_reader (sample_store : gmap bytes bytes).

Definition present (l : option RPCLog) : bool := match l with Some _ => true | None => false end.

(** What is published of the sample block: three logs. *)
Lemma sample_readable :
  ∃ b, read_block sample_reader 12 = Ok b ∧ Forall is_Some b.2 ∧ length b.2 = 3%nat.
Proof.
  assert ((let! b := read_block sample_reader 12 in Ok (forallb present b.2, length b.2)) = Ok (true, 3%nat)) as H by reflexivity.
  apply res_bind_ok in H as (b & Hb & [= Hs Hl]). exists b. split; [done|]. split; [|done].
  apply Forall_forall. intros l Hin%list_elem_of_In. rewrite forallb_forall in Hs. specialize (Hs l Hin). destruct l; [by eexists|done].
Qed.


Lemma filter_api_safe_witness :
  ∃ ev api, NewRPCStream None = Ok ev ∧ rtc (api_step 10) (mkAPI (Some ev) ∅) api ∧ (size (filters api) = 1)%nat ∧
    Z.of_nat (size (filters api)) ≤ Z.max 0 10.
Proof.
  destruct (NewRPCStream_ok None) as (ev & E & Hs & Hr & Hc).
  assert (NewBlockFilter_ 10 (mkAPI (Some ev) ∅) "a" =
    Ok ("a"%string, mkAPI (Some ev) {["a"%string := mkFilter BlocksSubscription false no_criteria 0]})) as Hn.
  { unfold NewBlockFilter_. cbn [events filters]. rewrite (read_end _ _ (proj1 Hs)). reflexivity. }
  eexists ev, _. split; [exact E|]. split; [apply rtc_once; by eapply step_block|]. split; [reflexivity|].
  refine (proj1 (filter_api_safe 10 None ev _ E _ (rtc_once _ _ (step_block _ _ _ _ _ Hn)))).
  intros r h groups Hr'. rewrite Hr in Hr'. discriminate Hr'.
Defined.
End Witness.
End FilterPoll.
