(* ===== verification/BackendTrace.v ===== *)
(** * The RPC backend: traces

    Trace requests of src/internal/evm/rpc/backend: tracing.go, trace_ante_failed.go and
    traceChainID of trace_helpers.go.  Traces are computed by the node and kept in
    the trace cache of the indexer, which is part of the state here.  A trace is
    JSON: the type [J] of decoded values and their encoding are parameters. *)

From Stdlib Require Import Ascii String.
From S2P Require Import Prelude Bytes Instances GoLib EthTypes EthInstances Keys Tracker ParsedTx Normalize.
From S2P Require Import Virtual VirtualBank VirtualIbc VirtualResponse RpcUtils Cached Codec Indexer IndexerQuery.
From S2P Require Import RpcTypes Backend BackendLive BackendBlocks BackendTx.
From stdpp Require Import strings list gmap.
#[local] Open Scope Z_scope.

Module BackendTrace.
Import GoLib EthTypes Keys ParsedTx Normalize Virtual RpcUtils Cached Codec RpcTypes Backend BackendLive BackendBlocks BackendTx.

(** ** Requests and configurations *)

(** evmtypes.TraceConfig by the fields the gateway touches; [etc_Rest] stands
    for the encoding of the others, which are forwarded (empty: all zero). *)
Record EvmTraceConfig := mkEvmTraceConfig {
  etc_Tracer : string;
  etc_Timeout : string;
  etc_TracerJsonConfig : bytes;
  etc_StateOverrides : bytes;
  etc_BlockOverrides : bytes;
  etc_Rest : bytes;
}.
#[export] Instance EvmTraceConfig_eq_dec : EqDecision EvmTraceConfig.
Proof. solve_decision. Defined.

Definition no_trace_config : EvmTraceConfig := mkEvmTraceConfig "" "" [] [] [] [].

(** rpctypes.TraceConfig embeds evmtypes.TraceConfig. *)
Record TraceConfig := mkTraceConfig {
  tc_Trace : EvmTraceConfig;
  tc_TracerConfig : bytes;
  tc_StateOverrides : bytes;
  tc_BlockOverrides : bytes;
}.
#[export] Instance TraceConfig_eq_dec : EqDecision TraceConfig.
Proof. solve_decision. Defined.

Definition with_timeout (config : TraceConfig) (timeout : string) : TraceConfig :=
  let t := tc_Trace config in
  mkTraceConfig (mkEvmTraceConfig (etc_Tracer t) timeout (etc_TracerJsonConfig t) (etc_StateOverrides t)
                   (etc_BlockOverrides t) (etc_Rest t))
    (tc_TracerConfig config) (tc_StateOverrides config) (tc_BlockOverrides config).

(** evmtypes.QueryTraceTxRequest, QueryTraceBlockRequest and QueryTraceCallRequest *)
Record TraceTxRequest := mkTraceTxRequest {
  ttx_Msg : MsgEthereumTx;
  ttx_Predecessors : list MsgEthereumTx;
  ttx_TraceConfig : option EvmTraceConfig;
  ttx_BlockNumber : Z;
  ttx_BlockTime : Z;
  ttx_BlockHash : string;
  ttx_ProposerAddress : bytes;
  ttx_ChainId : Z;
}.

Record TraceBlockRequest := mkTraceBlockRequest {
  tbl_Txs : list MsgEthereumTx;
  tbl_TraceConfig : EvmTraceConfig;
  tbl_BlockNumber : Z;
  tbl_BlockTime : Z;
  tbl_BlockHash : string;
  tbl_ProposerAddress : bytes;
  tbl_ChainId : Z;
}.

Record TraceCallRequest := mkTraceCallRequest {
  tca_Args : bytes;
  tca_GasCap : Z;
  tca_ProposerAddress : bytes;
  tca_BlockNumber : Z;
  tca_BlockHash : string;
  tca_BlockTime : Z;
  tca_ChainId : Z;
  tca_TraceConfig : option EvmTraceConfig;
}.

(** The node's trace queries; the first argument is the height header of the
    call's context. *)
Record TraceQueries := mkTraceQueries {
  q_TraceTx : option string → TraceTxRequest → res string bytes;
  q_TraceBlock : option string → TraceBlockRequest → res string bytes;
  q_TraceCall : option string → TraceCallRequest → res string bytes;
}.

(** ** Trace results *)

Definition tracerCall : string := "callTracer".
Definition tracerStructLogger : string := EmptyString.

Record anteFailedCallFrame := mkCallFrame {
  cf_Type : string;
  cf_From : Address;
  cf_To : option Address;
  cf_Value : Z;
  cf_Gas : Z;
  cf_GasUsed : Z;
  cf_Input : bytes;
  cf_Error : string;
}.

Record anteFailedStructLog := mkStructLog {
  sl_Gas : Z;
  sl_Failed : bool;
  sl_ReturnValue : string;
}.

Section values.
Context {J : Type}.

(** An interface{}: decoded JSON, the entry of a transaction that the node did
    not trace ([type 0]), or a trace made for a failed transaction. *)
Inductive trace_value :=
| Decoded (j : J)
| NotTraced
| CallFrame (f : anteFailedCallFrame)
| StructLog (l : anteFailedStructLog).

Record TxTraceResult := mkTxTrace {
  TxHash : Hash;
  Result : option trace_value;
  Error : string;
}.

Definition empty_trace : TxTraceResult := mkTxTrace zero_hash None EmptyString.
Definition set_TxHash (r : TxTraceResult) (hash : Hash) : TxTraceResult := mkTxTrace hash (Result r) (Error r).
End values.
#[global] Arguments trace_value : clear implicits.
#[global] Arguments TxTraceResult : clear implicits.

(** time.ParseDuration, Duration.String, sonic and the sender of a message. *)
Class TraceLib (J : Type) := {
  ParseDuration : string → res string Z;
  Duration_String : Z → string;
  Bytes2Hex : bytes → string;
  unmarshal_any : bytes → res string J;
  unmarshal_results : bytes → res string (list (option (TxTraceResult J)));
  marshal_results : list (option (TxTraceResult J)) → res string bytes;
  marshal_args : TransactionArgs → res string bytes;
  msg_From : MsgEthereumTx → bytes;
}.

(** The trace cache of the indexer. *)
Class TraceCache (T : Type) := {
  tc_GetTransaction : T → Hash → option TraceConfig → res error bytes;
  tc_SetTransaction : T → Hash → option TraceConfig → bytes → res error unit * T;
  tc_GetBlock : T → Z → option TraceConfig → res error bytes;
  tc_SetBlock : T → Z → option TraceConfig → bytes → res error unit * T;
}.

#[export] Instance kv_TraceCache {D : Type} {DB : KVDB D} {SD : SDK} {CP : CapnpLib} {TK : TraceKey TraceConfig} :
    TraceCache D := {|
  tc_GetTransaction := IndexerQuery.GetTraceTransaction;
  tc_SetTransaction := IndexerQuery.SetTraceTransaction;
  tc_GetBlock := IndexerQuery.GetTraceBlockByHeight;
  tc_SetBlock := IndexerQuery.SetTraceBlockByHeight;
|}.

(** ** Aligning traces with the visible transactions *)

Section align.
Context {J : Type}.

Definition traced (r : option (TxTraceResult J)) : option (TxTraceResult J) :=
  match r with
  | Some r => if bool_decide (TxHash r = zero_hash) then None else Some r
  | None => None
  end.

Definition attachTraceBlockTransactionHashes (results : list (option (TxTraceResult J))) (hashes : list Hash) :
    res error (list (option (TxTraceResult J))) :=
  if bool_decide (length results ≠ length hashes) then
    Err (Errorf "trace result count %d does not match Ethereum transaction count %d")
  else Ok (zip_with (λ r hash, Some (set_TxHash (default empty_trace r) hash)) results hashes).

(** The results by hash; a later one replaces an earlier one. *)
Definition results_by_hash (results : list (TxTraceResult J)) : gmap Hash (TxTraceResult J) :=
  foldl (λ m r, <[TxHash r := r]> m) ∅ results.

Definition aligned_entry (byHash : gmap Hash (TxTraceResult J)) (hash : Hash) : TxTraceResult J :=
  default (mkTxTrace hash (Some NotTraced) EmptyString) (byHash !! hash).

Definition alignTraceBlockResults (results : list (option (TxTraceResult J))) (visibleHashes : list Hash) :
    list (option (TxTraceResult J)) :=
  match visibleHashes with
  | [] => results
  | _ =>
      match mapM traced results with
      | None => results
      | Some rs =>
          let byHash := results_by_hash rs in
          let matched := length (filter (λ hash, is_Some (byHash !! hash)) visibleHashes) in
          if bool_decide (matched ≠ length results) then results
          else (λ hash, Some (aligned_entry byHash hash)) <$> visibleHashes
      end
  end.

Definition hasTraceErrors (results : list (option (TxTraceResult J))) : bool :=
  existsb (λ r, match r with Some r => bool_decide (Error r ≠ EmptyString) | None => false end) results.
End align.

(** ** The chain id and heights of a request *)

Definition traceChainID (fallback : option Z) (msgs : list MsgEthereumTx) : Z :=
  match list_find (λ id, 0 < id) (omap (λ m, tx_ChainId <$> msg_AsTransaction m) msgs) with
  | Some (_, id) => int64 id
  | None => match fallback with Some id => int64 id | None => 0 end
  end.

(** The state before the block; height 0 would mean the latest state. *)
Definition context_before (height : Z) : Z := if bool_decide (int64 (height - 1) < 1) then 1 else int64 (height - 1).

Definition traceBlockContextHeight (height : Z) (block : option ResultBlock) : Z :=
  context_before (match block ≫= rb_Block with
                  | Some blk => if bool_decide (0 < blk_Height blk) then blk_Height blk else height
                  | None => height
                  end).

Definition convertConfig (config : option TraceConfig) : EvmTraceConfig :=
  match config with
  | None => no_trace_config
  | Some config =>
      let t := tc_Trace config in
      mkEvmTraceConfig (etc_Tracer t) (etc_Timeout t) (tc_TracerConfig config) (tc_StateOverrides config)
        (tc_BlockOverrides config) (etc_Rest t)
  end.

(** DefaultTraceTimeoutCap, in nanoseconds *)
Definition DefaultTraceTimeoutCap : Z := 30 * 10 ^ 9.

Section ops.
Context {EL : EthLib} {CL : ChainLib} {LJ : LogJSON} {PB : Proto} {BB : BackendLib}.
Context {J : Type} {TL : TraceLib J} {T : Type} {TC : TraceCache T} {RC LC : Type}.
Context (TraceTimeoutCap : Z) (queries : TraceQueries).

(** ** State: the trace cache and the state of the backend *)

Definition TM (A : Type) : Type := T * bstate RC LC → res error A * (T * bstate RC LC).

Definition tret {A} (a : A) : TM A := λ s, (Ok a, s).
Definition tlift {A} (m : res error A) : TM A := λ s, (m, s).
Definition tbind {A B} (m : TM A) (f : A → TM B) : TM B := λ s,
  match m s with
  | (Ok a, s) => f a s
  | (Err e, s) => (Err e, s)
  | (Panic p, s) => (Panic p, s)
  end.
Definition tcall {A B} (m : TM A) (ok : A → TM B) (err : error → TM B) : TM B := λ s,
  match m s with
  | (Ok a, s) => ok a s
  | (Err e, s) => err e s
  | (Panic p, s) => (Panic p, s)
  end.
Definition tM {A} (m : M RC LC A) : TM A := λ s, let '(r, bs) := m s.2 in (r, (s.1, bs)).
Definition tget {A} (f : T → res error A) : TM A := λ s, (f s.1, s).
Definition tset (f : T → res error unit * T) : TM unit := λ s, let '(r, t) := f s.1 in (r, (t, s.2)).

#[local] Notation "'tr!' x ':=' m 'in' k" := (tbind m (λ x, k))
  (at level 10, x pattern, m at level 100, k at level 200).

(** A failed write of the cache is logged. *)
Definition cache_write (b : Backend) (f : T → res error unit * T) : TM unit :=
  match indexer b with
  | None => tret tt
  | Some _ => tcall (tset f) (λ _, tret tt) (λ _, tret tt)
  end.

(** ** Timeouts *)

Definition trace_cap : Z := if bool_decide (TraceTimeoutCap ≤ 0) then DefaultTraceTimeoutCap else TraceTimeoutCap.

Definition normalizeTraceTimeout (config : option TraceConfig) : option TraceConfig :=
  let capped := Duration_String trace_cap in
  match config with
  | None =>
      if bool_decide (trace_cap = DefaultTraceTimeoutCap) then None
      else Some (with_timeout (mkTraceConfig no_trace_config [] [] []) capped)
  | Some config =>
      if bool_decide (etc_Timeout (tc_Trace config) = EmptyString) then
        if bool_decide (trace_cap = DefaultTraceTimeoutCap) then Some config else Some (with_timeout config capped)
      else match ParseDuration (etc_Timeout (tc_Trace config)) with
           | Ok timeout => if bool_decide (timeout ≤ trace_cap) then Some config else Some (with_timeout config capped)
           | _ => Some config
           end
  end.

(** ** Transactions that failed before execution *)

Definition anteFailedSender (msg : MsgEthereumTx) (txData : Transaction) : res error (option Address) :=
  match msg_From msg with
  | [] => match msg_GetSenderLegacy msg (signer_for txData) with
          | Ok from => Ok (Some from)
          | Err _ => Ok None
          | Panic p => Panic p
          end
  | from => Ok (Some (BytesToAddress from))
  end.

Definition anteFailedTraceResult (msg : MsgEthereumTx) (r : option ExecTxResult) (config : option TraceConfig) :
    res error (option (trace_value J)) :=
  match r, msg_AsTransaction msg with
  | Some r, Some txData =>
      let tracer := match config with Some config => etc_Tracer (tc_Trace config) | None => tracerStructLogger end in
      if bool_decide (tracer = tracerCall) then
        let! from := anteFailedSender msg txData in
        match from with
        | None => Ok None
        | Some from =>
            let kind := match tx_To txData with Some _ => "CALL"%string | None => "CREATE"%string end in
            Ok (Some (CallFrame (mkCallFrame kind from (tx_To txData) (tx_Value txData) (tx_Gas txData) (tx_Gas txData)
                                   (tx_Data txData) (res_Log r))))
        end
      else if bool_decide (tracer = tracerStructLogger) then
        Ok (Some (StructLog (mkStructLog (tx_Gas txData) true EmptyString)))
      else Ok None
  | _, _ => Ok None
  end.

(** Failures of the lookups are answered with [None], whatever they are. *)
Definition anteFailedTxTrace (b : Backend) (hash : Hash) (config : option TraceConfig) : TM (option (trace_value J)) :=
  if OfflineRPCOnly (cfg b) then tret None
  else
    tcall (tM (GetTxByEthHash b hash))
      (λ tx,
        if bool_decide (txr_Height tx ≤ 0) then tret None
        else tlift (
          let! blockRes := or_nil (TendermintBlockResultByNumber b (txr_Height tx)) in
          match blockRes with
          | None => Ok None
          | Some r =>
              match br_TxResults r !! Z.to_nat (txr_TxIndex tx) with
              | None => Ok None
              | Some txResult =>
                  if negb (TxAnteFailed txResult) then Ok None
                  else
                    let! block := or_nil (TendermintBlockByNumber b (txr_Height tx)) in
                    match (block ≫= rb_Block) ≫= (λ blk, blk_Txs blk !! Z.to_nat (txr_TxIndex tx)) with
                    | None => Ok None
                    | Some txBz =>
                        match TxDecoder txBz with
                        | Panic p => Panic p
                        | Err _ => Ok None
                        | Ok decodedTx =>
                            match GetMsgs decodedTx !! Z.to_nat (txr_MsgIndex tx) with
                            | Some (EthMsg msg) =>
                                if bool_decide (msg_Hash msg ≠ hash) then Ok None
                                else anteFailedTraceResult msg txResult config
                            | _ => Ok None
                            end
                        end
                    end
              end
          end))
      (λ _, tret None).

(** The Ethereum messages of the block with the result of their transaction. *)
Definition ante_positions (block : Block) (r : ResultBlockResults) : res error (list (MsgEthereumTx * option ExecTxResult)) :=
  let! groups := res_mapM (λ t : nat * bytes,
    let '(txIndex, txBz) := t in
    match TxDecoder txBz with
    | Panic p => Panic p
    | Err _ => Ok []
    | Ok decodedTx => Ok ((λ m, (m, default None (br_TxResults r !! txIndex))) <$> eth_msgs (GetMsgs decodedTx))
    end) (imap pair (blk_Txs block)) in
  Ok (mjoin groups).

(** A failed entry of a transaction that failed before execution is replaced
    by its trace. *)
Definition fill_entry (config : option TraceConfig) (e : option (TxTraceResult J))
    (position : MsgEthereumTx * option ExecTxResult) : res error (option (TxTraceResult J)) :=
  match e with
  | None => Ok None
  | Some result =>
      if bool_decide (Error result = EmptyString) || negb (TxAnteFailed position.2) then Ok (Some result)
      else
        let! trace := anteFailedTraceResult position.1 position.2 config in
        match trace with
        | None => Ok (Some result)
        | Some trace => Ok (Some (mkTxTrace zero_hash (Some trace) EmptyString))
        end
  end.

Definition fillAnteFailedBlockTraces (b : Backend) (results : list (option (TxTraceResult J))) (height : Z)
    (block : option ResultBlock) (config : option TraceConfig) : res error (list (option (TxTraceResult J))) :=
  if OfflineRPCOnly (cfg b) || negb (hasTraceErrors results) then Ok results
  else
    let! block := match block ≫= rb_Block with
                  | Some blk => Ok (Some blk)
                  | None => let! rb := or_nil (TendermintBlockByNumber b height) in Ok (rb ≫= rb_Block)
                  end in
    match block with
    | None => Ok results
    | Some blk =>
        let! blockRes := or_nil (TendermintBlockResultByNumber b (blk_Height blk)) in
        match blockRes with
        | None => Ok results
        | Some r =>
            let! positions := ante_positions blk r in
            if bool_decide (length positions ≠ length results) then Ok results
            else res_mapM (λ p, fill_entry config p.1 p.2) (zip results positions)
        end
    end.

(** ** Blocks *)

(** The Ethereum messages of the block, with their hashes. *)
Definition traceBlockEthereumTransactions (block : ResultBlock) : res error (list MsgEthereumTx * list Hash) :=
  let! _ := block_of block in
  let! messages := EthMsgsFromTendermintBlock (Some block) in
  Ok (messages, msg_Hash <$> messages).

Definition populateTraceBlockTransactionHashes (b : Backend) (results : list (option (TxTraceResult J))) (height : Z)
    (block : option ResultBlock) : res error (list (option (TxTraceResult J))) :=
  if forallb (λ r, bool_decide (is_Some (traced r))) results then Ok results
  else
    let! block :=
      match block with
      | Some rb => Ok rb
      | None =>
          let! rb := Indexer.wrap_err "block not found while populating trace transaction hashes"
                       (TendermintBlockByNumber b height) in
          match rb with
          | None => Err (New "block not found while populating trace transaction hashes")
          | Some rb => match rb_Block rb with
                       | None => Err (New "block not found while populating trace transaction hashes")
                       | Some _ => Ok rb
                       end
          end
      end in
    let! (_, hashes) := traceBlockEthereumTransactions block in
    attachTraceBlockTransactionHashes results hashes.

Definition alignTraceBlockResultsWithVisibleTransactions (b : Backend) (results : list (option (TxTraceResult J)))
    (height : Z) : res error (list (option (TxTraceResult J))) :=
  match indexer b with
  | None => Ok results
  | Some ix =>
      match ir_GetRPCTransactionHashesByBlockHeight ix height with
      | Ok visibleHashes => Ok (alignTraceBlockResults results visibleHashes)
      | Err _ => Ok results
      | Panic p => Panic p
      end
  end.

(** The height a block trace is cached under, when it is known beforehand. *)
Definition traceCacheHeight (b : Backend) (height : Z) (block : option ResultBlock) : res error (option Z) :=
  match block ≫= rb_Block with
  | Some blk => Ok (Some (blk_Height blk))
  | None =>
      if bool_decide (0 < height) then Ok (Some (Int64 height))
      else if negb (OfflineRPCOnly (cfg b)) then Ok None
      else match indexedBlockHeight b height with
           | Ok h => Ok (if bool_decide (h < 1) then None else Some h)
           | Err _ => Ok None
           | Panic p => Panic p
           end
  end.

(** The cached trace of a block, completed and aligned. *)
Definition cached_block_trace (b : Backend) (raw : bytes) (height : Z) (block : option ResultBlock) :
    res error (list (option (TxTraceResult J))) :=
  let! decoded := lib (unmarshal_results raw) in
  let! decoded := populateTraceBlockTransactionHashes b decoded height block in
  alignTraceBlockResultsWithVisibleTransactions b decoded height.

(** The trace asked from the node and stored under [cacheHeight]; without
    Ethereum transactions the node is not asked. *)
Definition live_block_trace (b : Backend) (height cacheHeight : Z) (config : option TraceConfig) (block : ResultBlock) :
    TM (list (option (TxTraceResult J))) :=
  tr! (txsMessages, txHashes) := tlift (traceBlockEthereumTransactions block) in
  tr! decoded :=
    match txsMessages with
    | [] => tret []
    | _ =>
        tlift (
          let! blk := block_of block in
          let request := mkTraceBlockRequest txsMessages (convertConfig config) (blk_Height blk) (blk_Time_Unix blk)
            (Bytes2Hex (rb_BlockID_Hash block)) (blk_ProposerAddress blk) (traceChainID (Some (ChainID b)) txsMessages) in
          let! data := lib (q_TraceBlock queries (ContextWithHeightFrom (traceBlockContextHeight height (Some block))) request) in
          let! decoded := lib (unmarshal_results data) in
          attachTraceBlockTransactionHashes decoded txHashes)
    end in
  tr! aligned := tlift (alignTraceBlockResultsWithVisibleTransactions b decoded cacheHeight) in
  tr! _ :=
    match indexer b with
    | None => tret tt
    | Some _ =>
        tr! data := tlift (lib (marshal_results aligned)) in
        cache_write b (λ t, tc_SetBlock t cacheHeight config data)
    end in
  tret aligned.

Definition fetch_trace_block (b : Backend) (height : Z) : res error ResultBlock :=
  let! rb := Indexer.wrap_err "block not found" (TendermintBlockByNumber b height) in
  match rb with
  | Some rb => match rb_Block rb with Some _ => Ok rb | None => Err (New "block not found") end
  | None => Err (New "block not found")
  end.

(** The block given by the caller is cached under its height; a fetched one
    under its own. *)
Definition trace_block_uncached (b : Backend) (height : Z) (cacheHeight : option Z) (config : option TraceConfig)
    (block : option ResultBlock) : TM (list (option (TxTraceResult J))) :=
  if OfflineRPCOnly (cfg b) then tlift (Err (New "block trace not available in offline rpc-only mode"))
  else
    match block with
    | Some rb =>
        tr! blk := tlift (block_of rb) in
        live_block_trace b height (default (blk_Height blk) cacheHeight) config rb
    | None =>
        tr! rb := tlift (fetch_trace_block b height) in
        tr! blk := tlift (block_of rb) in
        live_block_trace b height (blk_Height blk) config rb
    end.

Definition traceBlock (b : Backend) (height : Z) (config : option TraceConfig) (block : option ResultBlock) :
    TM (list (option (TxTraceResult J))) :=
  tr! cacheHeight := tlift (traceCacheHeight b height block) in
  let live := trace_block_uncached b height cacheHeight config block in
  match indexer b, cacheHeight with
  | Some _, Some h =>
      tcall (tget (λ t, tc_GetBlock t h config))
        (λ raw, tlift (cached_block_trace b raw h block))
        (λ err, if negb (isIndexerCacheMiss err) && OfflineRPCOnly (cfg b) then tlift (Err err) else live)
  | _, _ => live
  end.

Definition TraceBlock (b : Backend) (height : Z) (config : option TraceConfig) (block : option ResultBlock) :
    TM (list (option (TxTraceResult J))) :=
  let config := normalizeTraceTimeout config in
  tr! results := traceBlock b height config block in
  tlift (fillAnteFailedBlockTraces b results height block config).

(** ** Transactions *)

(** The trace of a transaction as an entry of its block's cached trace. *)
Definition traceTransactionFromCachedBlock (b : Backend) (hash : Hash) (config : option TraceConfig) :
    TM (option (trace_value J)) :=
  match indexer b with
  | None => tlift (Err (New "trace cache unavailable"))
  | Some ix =>
      tr! tx := tM (GetTxByEthHash b hash) in
      tr! raw := tget (λ t, tc_GetBlock t (txr_Height tx) config) in
      tlift (
        let! blockTrace := cached_block_trace b raw (txr_Height tx) None in
        let! txIndex :=
          if bool_decide (txr_EthTxIndex tx < 0) then
            let! hashes := ir_GetRPCTransactionHashesByBlockHeight ix (txr_Height tx) in
            Ok (match list_find (λ candidate, candidate = hash) hashes with
                | Some (i, _) => Z.of_nat i
                | None => txr_EthTxIndex tx
                end)
          else Ok (txr_EthTxIndex tx) in
        if bool_decide (txIndex < 0) then Err (New "transaction trace not found in cached block trace")
        else match blockTrace !! Z.to_nat txIndex with
             | None => Err (New "transaction trace not found in cached block trace")
             | Some None => Err (New "transaction trace entry missing from cached block trace")
             | Some (Some entry) =>
                 if bool_decide (Error entry ≠ EmptyString) then Err (New (Error entry)) else Ok (Result entry)
             end)
  end.

(** The Ethereum messages of the transactions before [txIndex]. *)
Definition predecessors_before (txs : list bytes) : res error (list MsgEthereumTx) :=
  res_foldl (λ acc txBz,
    match TxDecoder txBz with
    | Panic p => Panic p
    | Err _ => Ok acc
    | Ok tx => Ok (acc ++ eth_msgs (GetMsgs tx))
    end) [] txs.

(** tx.GetMsgs()[0..n): an index out of range panics. *)
Definition messages_before (msgs : list Msg) (n : Z) : res error (list MsgEthereumTx) :=
  if bool_decide (Z.of_nat (length msgs) < n) then Panic "index out of range" else Ok (eth_msgs (take (Z.to_nat n) msgs)).

Definition trace_request (b : Backend) (tr : TxResult) (config : option TraceConfig) : res error TraceTxRequest :=
  if bool_decide (txr_Height tr = 0) then Err (New "genesis is not traceable")
  else
    let! rb := Indexer.wrap_err "block not found" (TendermintBlockByNumber b (txr_Height tr)) in
    match rb with
    | None => Err (New "block not found")
    | Some rb =>
        let! blk := block_of rb in
        if bool_decide (uint32 (Z.of_nat (length (blk_Txs blk))) < txr_TxIndex tr) then
          Err (Errorf "transaction not included in block %v")
        else
          let! before := predecessors_before (take (Z.to_nat (txr_TxIndex tr)) (blk_Txs blk)) in
          let! txBz := at_index (blk_Txs blk) (txr_TxIndex tr) in
          let! tx := lib (TxDecoder txBz) in
          let! own := messages_before (GetMsgs tx) (txr_MsgIndex tr) in
          let! msg := at_index (GetMsgs tx) (txr_MsgIndex tr) in
          match msg with
          | OtherMsg _ => Err (Errorf "invalid transaction type %T")
          | EthMsg ethMessage =>
              Ok (mkTraceTxRequest ethMessage (before ++ own)
                    (match config with Some _ => Some (convertConfig config) | None => None end)
                    (blk_Height blk) (blk_Time_Unix blk) (Bytes2Hex (rb_BlockID_Hash rb)) (blk_ProposerAddress blk)
                    (traceChainID (Some (ChainID b)) [ethMessage]))
          end
    end.

Definition live_transaction_trace (b : Backend) (hash : Hash) (config : option TraceConfig) : TM (option (trace_value J)) :=
  tr! tr := tM (GetTxByEthHash b hash) in
  tr! request := tlift (trace_request b tr config) in
  tr! data := tlift (lib (q_TraceTx queries (ContextWithHeightFrom (context_before (txr_Height tr))) request)) in
  tr! decoded := tlift (lib (unmarshal_any data)) in
  tr! _ := cache_write b (λ t, tc_SetTransaction t hash config data) in
  tret (Some (Decoded decoded)).

Definition traceTransaction (b : Backend) (hash : Hash) (config : option TraceConfig) : TM (option (trace_value J)) :=
  let live := if OfflineRPCOnly (cfg b) then tlift (Err (New "transaction trace not available in offline rpc-only mode"))
              else live_transaction_trace b hash config in
  match indexer b with
  | None => live
  | Some _ =>
      tcall (tget (λ t, tc_GetTransaction t hash config))
        (λ cached, tlift (let! decoded := lib (unmarshal_any cached) in Ok (Some (Decoded decoded))))
        (λ err,
          if negb (isIndexerCacheMiss err) && OfflineRPCOnly (cfg b) then tlift (Err err)
          else tcall (traceTransactionFromCachedBlock b hash config) tret (λ _, live))
  end.

Definition TraceTransaction (b : Backend) (hash : Hash) (config : option TraceConfig) : TM (option (trace_value J)) :=
  let config := normalizeTraceTimeout config in
  tcall (traceTransaction b hash config) tret
    (λ err, tr! trace := anteFailedTxTrace b hash config in
            match trace with Some trace => tret (Some trace) | None => tlift (Err err) end).

(** ** Calls *)

Definition TraceCall (b : Backend) (args : TransactionArgs) (blockNrOrHash : BlockNumberOrHash)
    (config : option TraceConfig) : res error (option (trace_value J)) :=
  let config := normalizeTraceTimeout config in
  let! bz := lib (marshal_args args) in
  let! blockNr := BlockNumberFromTendermint b blockNrOrHash in
  let! block := or_nil (TendermintBlockByNumber b blockNr) in
  match block with
  | None => Err (New "header not found")
  | Some rb =>
      let! blk := block_of rb in
      let request := mkTraceCallRequest bz (RPCGasCap b) (blk_ProposerAddress blk) (blk_Height blk)
        (Bytes2Hex (rb_BlockID_Hash rb)) (blk_Time_Unix blk) (int64 (ChainID b))
        (match config with Some _ => Some (convertConfig config) | None => None end) in
      let contextHeight := if bool_decide (blk_Height blk < 1) then 1 else blk_Height blk in
      let! data := lib (q_TraceCall queries (ContextWithHeightFrom contextHeight) request) in
      let! decoded := lib (unmarshal_any data) in
      Ok (Some (Decoded decoded))
  end.
End ops.
End BackendTrace.
