(* ===== verification/BackendTraceProps.v ===== *)
(** * The RPC backend: properties of traces

    Alignment with the visible transactions, replay of a cached block trace, the
    messages a transaction trace replays, and the timeout of a request. *)

From Stdlib Require Import Ascii String.
From S2P Require Import Prelude Bytes Instances GoLib EthTypes EthInstances Keys Tracker ParsedTx Normalize.
From S2P Require Import Virtual VirtualBank VirtualIbc VirtualResponse RpcUtils Cached Codec Indexer IndexerQuery.
From S2P Require Import CodecInstances CodecProps IndexerStore IndexerSample IndexerProps.
From S2P Require Import RpcTypes Backend BackendLive BackendBlocks BackendTx BackendSample BackendProps BackendTrace.
From stdpp Require Import strings list gmap.
#[local] Open Scope Z_scope.

Module BackendTraceProps.
Import GoLib EthTypes Keys ParsedTx Normalize Virtual RpcUtils Cached Codec RpcTypes Backend BackendLive BackendBlocks BackendTx BackendTrace.
Import BackendProps.

(** ** Alignment *)

Section align.
Context {J : Type}.
Implicit Types (rs : list (TxTraceResult J)) (results : list (option (TxTraceResult J))) (visible : list Hash).

Definition named rs : Prop := Forall (λ r, TxHash r ≠ zero_hash) rs.

Lemma mapM_traced results rs : mapM traced results = Some rs ↔ results = Some <$> rs ∧ named rs.
Proof.
  rewrite mapM_Some. split.
  - induction 1 as [|r r' results rs H _ [-> Hn]]; [by split; [|constructor]|].
    destruct r as [r|]; cbn in H; [|done]. case_bool_decide; [done|]. injection H as <-. split; [done|by constructor].
  - intros [-> Hn]. induction Hn as [|r rs Hr _ IH]; constructor; [|done]. cbn. by rewrite bool_decide_false.
Qed.

Lemma by_hash_app rs r : results_by_hash (rs ++ [r]) = <[TxHash r := r]> (results_by_hash rs).
Proof. unfold results_by_hash. by rewrite foldl_app. Qed.

Lemma by_hash_lookup rs h r : results_by_hash rs !! h = Some r → r ∈ rs ∧ TxHash r = h.
Proof.
  induction rs as [|r' rs IH] using rev_ind; [done|]. rewrite by_hash_app. intros [[<- ->]|[_ H]]%lookup_insert_Some.
  - split; [apply elem_of_app; right; by left|done].
  - destruct (IH H). split; [apply elem_of_app; by left|done].
Qed.

Lemma by_hash_present rs r : r ∈ rs → is_Some (results_by_hash rs !! TxHash r).
Proof.
  induction rs as [|r' rs IH] using rev_ind; [by intros ?%elem_of_nil|]. rewrite by_hash_app.
  intros [H| ->%list_elem_of_singleton]%elem_of_app; [|rewrite lookup_insert_eq; by eexists].
  apply lookup_insert_is_Some. destruct (decide (TxHash r' = TxHash r)); [by left|right; split; [done|by apply IH]].
Qed.

(** With distinct hashes every result is found. *)
Lemma by_hash_unique rs r : NoDup (TxHash <$> rs) → r ∈ rs → results_by_hash rs !! TxHash r = Some r.
Proof.
  intros Hnd Hr. destruct (by_hash_present rs r Hr) as [r' Hr']. rewrite Hr'. f_equal.
  apply by_hash_lookup in Hr' as [Hin Hh]. apply list_elem_of_lookup in Hr as [i Hi], Hin as [j Hj].
  assert (i = j) as ->; [|congruence].
  eapply NoDup_lookup; [exact Hnd|by rewrite list_lookup_fmap, Hi|by rewrite list_lookup_fmap, Hj; cbn; rewrite Hh].
Qed.

Definition align rs visible : list (TxTraceResult J) := aligned_entry (results_by_hash rs) <$> visible.

Lemma aligned_entry_hash rs h : TxHash (aligned_entry (results_by_hash rs) h) = h.
Proof. unfold aligned_entry. destruct (_ !! h) eqn:E; cbn; [|done]. by apply by_hash_lookup in E as [_ ?]. Qed.

Lemma align_hashes rs visible : TxHash <$> align rs visible = visible.
Proof.
  unfold align. rewrite <- list_fmap_compose. rewrite <- (list_fmap_id visible) at 2. apply list_fmap_ext.
  intros i h _. apply aligned_entry_hash.
Qed.

(** Every result has its place among the visible transactions. *)
Definition aligns rs visible : Prop :=
  visible ≠ [] ∧ length (filter (λ h, is_Some (results_by_hash rs !! h)) visible) = length rs.

(** What the function does: it aligns named results that have their places and
    leaves all others as they are. *)
Lemma align_yes rs visible : named rs → aligns rs visible → alignTraceBlockResults (Some <$> rs) visible = Some <$> align rs visible.
Proof.
  intros Hn [Hv Hm]. unfold alignTraceBlockResults. destruct visible as [|v visible]; [done|].
  rewrite (proj2 (mapM_traced _ rs)) by done. rewrite bool_decide_false by (rewrite length_fmap; intros H; by apply H).
  unfold align. by rewrite <- list_fmap_compose.
Qed.

Lemma align_no results visible :
  (∀ rs, results = Some <$> rs → named rs → ¬ aligns rs visible) → alignTraceBlockResults results visible = results.
Proof.
  intros Hno. unfold alignTraceBlockResults. destruct visible as [|v visible]; [done|].
  destruct (mapM traced results) as [rs|] eqn:E; [|done]. apply mapM_traced in E as [-> Hn].
  case_bool_decide as Hm; [done|]. rewrite length_fmap in Hm. by destruct (Hno rs).
Qed.

Lemma align_dec results visible :
  (∃ rs, results = Some <$> rs ∧ named rs ∧ aligns rs visible) ∨ alignTraceBlockResults results visible = results.
Proof.
  destruct (mapM traced results) as [rs|] eqn:E.
  - apply mapM_traced in E as [-> Hn]. destruct (decide (visible = [])) as [->|Hv]; [by right|].
    destruct (decide (length (filter (λ h, is_Some (results_by_hash rs !! h)) visible) = length rs)); [left; by exists rs|right].
    apply align_no. intros rs' <-%(inj (fmap Some)) _ [_ ?]. done.
  - right. apply align_no. intros rs -> Hn _. rewrite (proj2 (mapM_traced _ rs)) in E; by split || done.
Qed.

(** Traces re-encoded by an [f] that keeps their hashes. *)
Definition reencode (f : TxTraceResult J → TxTraceResult J) results : list (option (TxTraceResult J)) :=
  (λ r : option (TxTraceResult J), f <$> r) <$> results.

Section reencode.
Context (f : TxTraceResult J → TxTraceResult J) (Hf : ∀ r, TxHash (f r) = TxHash r).

Lemma named_f rs : named (f <$> rs) ↔ named rs.
Proof. unfold named. rewrite Forall_fmap. apply Forall_iff. intros r. cbn. by rewrite Hf. Qed.

Lemma by_hash_f rs h : results_by_hash (f <$> rs) !! h = f <$> (results_by_hash rs !! h).
Proof.
  induction rs as [|r rs IH] using rev_ind; [done|]. rewrite fmap_app. cbn. rewrite !by_hash_app, Hf.
  destruct (decide (TxHash r = h)) as [->|]; [by rewrite !lookup_insert_eq|by rewrite !lookup_insert_ne].
Qed.

Lemma aligns_f rs visible : aligns (f <$> rs) visible ↔ aligns rs visible.
Proof.
  unfold aligns. rewrite length_fmap.
  rewrite (list_filter_iff (λ h, is_Some (results_by_hash (f <$> rs) !! h)) (λ h, is_Some (results_by_hash rs !! h)) visible); [done|].
  intros h. by rewrite by_hash_f, fmap_is_Some.
Qed.

Lemma reencode_some rs : reencode f (Some <$> rs) = Some <$> (f <$> rs).
Proof. unfold reencode. by rewrite <- !list_fmap_compose. Qed.

Lemma reencode_inv results rs' : reencode f results = Some <$> rs' → ∃ rs, results = Some <$> rs ∧ rs' = f <$> rs.
Proof.
  revert rs'. induction results as [|[r|] results IH]; intros [|r' rs'] Hr; try done; [by exists []|].
  injection Hr as <- Hr. destruct (IH _ Hr) as (rs & -> & ->). by exists (r :: rs).
Qed.

(** An aligned list, re-encoded, is aligned with itself. *)
Lemma align_self rs visible : align (f <$> align rs visible) visible = f <$> align rs visible.
Proof.
  unfold align at 1 3. rewrite <- list_fmap_compose. apply list_fmap_ext. intros i h Hi. unfold aligned_entry at 1, compose.
  assert (aligned_entry (results_by_hash rs) h ∈ align rs visible) as Hin
    by (apply list_elem_of_fmap; exists h; split; [done|by eapply list_elem_of_lookup_2]).
  destruct (by_hash_present _ _ Hin) as [r Hr]. rewrite aligned_entry_hash in Hr. rewrite by_hash_f, Hr. cbn. f_equal.
  apply by_hash_lookup in Hr as [Hr Hh]. apply list_elem_of_fmap in Hr as (h' & -> & _). rewrite aligned_entry_hash in Hh. by subst.
Qed.

Lemma align_again results visible :
  alignTraceBlockResults (reencode f (alignTraceBlockResults results visible)) visible =
  reencode f (alignTraceBlockResults results visible).
Proof.
  destruct (align_dec results visible) as [(rs & -> & Hn & Ha)|E].
  - rewrite align_yes, reencode_some by done.
    destruct (align_dec (Some <$> (f <$> align rs visible)) visible) as [(rs' & <-%(inj (fmap Some)) & Hn' & Ha')|E]; [|done].
    by rewrite align_yes, align_self by done.
  - rewrite E. destruct (align_dec (reencode f results) visible) as [(rs' & Hr & Hn & Ha)|E']; [|done].
    destruct (reencode_inv _ _ Hr) as (rs & -> & ->). rewrite named_f in Hn. rewrite aligns_f in Ha.
    (* the results had their places: they were aligned and did not change *)
    rewrite align_yes in E by done. apply (inj (fmap Some)) in E. rewrite Hr, align_yes by (by apply named_f || by apply aligns_f).
    f_equal. rewrite <- E at 1 2. apply align_self.
Qed.
End reencode.

(** C22. The traces of a block are aligned with its visible transactions: when every
    trace belongs to one visible transaction, the answer has one entry per visible
    transaction in block order, each trace at the place of its transaction, and the
    entries of transactions the node did not trace (virtual ones) are marked. *)
Theorem trace_alignment_exact rs visible :
  NoDup (TxHash <$> rs) → NoDup visible → visible ≠ [] → named rs → (∀ r, r ∈ rs → TxHash r ∈ visible) →
  ∃ out, alignTraceBlockResults (Some <$> rs) visible = Some <$> out ∧ TxHash <$> out = visible ∧
    (∀ r, r ∈ rs → r ∈ out) ∧
    (∀ e, e ∈ out → e ∈ rs ∨ (TxHash e ∉ TxHash <$> rs ∧ Result e = Some NotTraced ∧ Error e = EmptyString)).
Proof.
  intros Hnd Hv Hne Hn Hvis. exists (align rs visible). split_and!.
  - apply align_yes; [done|]. split; [done|]. rewrite <- (length_fmap TxHash rs). apply Permutation_length, NoDup_Permutation; [by apply NoDup_filter|done|].
    intros h. rewrite list_elem_of_filter, list_elem_of_fmap. split.
    + intros [[r Hr] _]. apply by_hash_lookup in Hr as [? <-]. eauto.
    + intros (r & -> & Hr). split; [by apply by_hash_present|by apply Hvis].
  - apply align_hashes.
  - intros r Hr. apply list_elem_of_fmap. exists (TxHash r). split; [|by apply Hvis]. unfold aligned_entry. by rewrite by_hash_unique.
  - intros e (h & -> & _)%list_elem_of_fmap. rewrite aligned_entry_hash. unfold aligned_entry. destruct (results_by_hash rs !! h) as [r|] eqn:E; cbn.
    + left. by apply by_hash_lookup in E as [? _].
    + right. split; [|done]. intros (r & -> & Hr)%list_elem_of_fmap. destruct (by_hash_present _ _ Hr). congruence.
Qed.
End align.

(** ** A cached block trace is replayed *)

(** JSON keeps hashes and errors, and a result as the JSON value it stands for. *)
Definition json_entry {J} (to_json : trace_value J → J) (r : TxTraceResult J) : TxTraceResult J :=
  mkTxTrace (TxHash r) (Decoded ∘ to_json <$> Result r) (Error r).

Class TraceJSONLaws (J : Type) `{TraceLib J} := {
  to_json : trace_value J → J;
  marshal_nonempty rs bz : marshal_results rs = Ok bz → bz ≠ [];
  unmarshal_marshal rs bz : marshal_results rs = Ok bz → unmarshal_results bz = Ok (reencode (json_entry to_json) rs);
}.

Class TraceCacheLaws (T : Type) `{TraceCache T} : Prop := {
  block_stored t h config bz t' :
    is_int64 h → bz ≠ [] → tc_SetBlock t h config bz = (Ok tt, t') → tc_GetBlock t' h config = Ok bz;
  transaction_stored t hash config bz t' :
    is_hash hash → bz ≠ [] → tc_SetTransaction t hash config bz = (Ok tt, t') → tc_GetTransaction t' hash config = Ok bz;
}.

Section replay.
Context {EL : EthLib} {CL : ChainLib} {LJ : LogJSON} {PB : Proto} {BB : BackendLib}.
Context {J : Type} {TL : TraceLib J} {TJ : TraceJSONLaws J} {T : Type} {TC : TraceCache T} {TCL : TraceCacheLaws T}.
Context {RC LC : Type}.

Lemma align_visible_again b results h out :
  alignTraceBlockResultsWithVisibleTransactions b results h = Ok out →
  alignTraceBlockResultsWithVisibleTransactions b (reencode (json_entry to_json) out) h = Ok (reencode (json_entry to_json) out).
Proof.
  unfold alignTraceBlockResultsWithVisibleTransactions. destruct (indexer b) as [ix|]; [|done].
  destruct (ir_GetRPCTransactionHashesByBlockHeight ix h); [|done..]. intros [= <-]. f_equal. by apply align_again.
Qed.

(** Entries that all carry a hash need no block to be completed. *)
Lemma populate_named b rs h block : named rs → populateTraceBlockTransactionHashes (J := J) b (Some <$> rs) h block = Ok (Some <$> rs).
Proof.
  intros Hn. unfold populateTraceBlockTransactionHashes.
  replace (forallb _ _) with true; [done|]. symmetry. apply forallb_forall. intros r Hr.
  apply list_elem_of_In, list_elem_of_fmap in Hr as (x & -> & Hx). apply bool_decide_eq_true. cbn.
  rewrite bool_decide_false; [by eexists|]. by eapply Forall_forall in Hn.
Qed.

(** Attaching hashes that are not zero names every entry. *)
Lemma attach_named (results out : list (option (TxTraceResult J))) hashes :
  Forall (λ h, h ≠ zero_hash) hashes → attachTraceBlockTransactionHashes results hashes = Ok out →
  ∃ rs, out = Some <$> rs ∧ named rs.
Proof.
  unfold attachTraceBlockTransactionHashes. intros Hh. case_bool_decide; [done|]. intros [= <-]. clear H.
  revert results. induction Hh as [|h hashes Hh _ IH]; intros [|r results]; try by exists []; split; [|constructor].
  destruct (IH results) as (rs & E & Hn). exists (set_TxHash (default empty_trace r) h :: rs). cbn. rewrite E. split; [done|by constructor].
Qed.

Lemma align_named b (rs : list (TxTraceResult J)) h out :
  named rs → (∀ ix hs, indexer b = Some ix → ir_GetRPCTransactionHashesByBlockHeight ix h = Ok hs → Forall (λ x, x ≠ zero_hash) hs) →
  alignTraceBlockResultsWithVisibleTransactions b (Some <$> rs) h = Ok out → ∃ rs', out = Some <$> rs' ∧ named rs'.
Proof.
  intros Hn Hv. unfold alignTraceBlockResultsWithVisibleTransactions. destruct (indexer b) as [ix|]; [|intros [= <-]; eauto].
  destruct (ir_GetRPCTransactionHashesByBlockHeight ix h) as [hs| |] eqn:E; [|intros [= <-]; eauto|done].
  intros [= <-]. destruct (align_dec (Some <$> rs) hs) as [(rs' & <-%(inj (fmap Some)) & _ & Ha)| ->]; [|eauto].
  rewrite align_yes by done. eexists. split; [done|]. unfold named. rewrite <- (Forall_fmap TxHash (λ x, x ≠ zero_hash)), align_hashes.
  by eapply Hv.
Qed.

Lemma tbind_ok {A B} (m : TM A) (f : A → TM B) (st : T * bstate RC LC) r st' :
  tbind m f st = (Ok r, st') → ∃ a st1, m st = (Ok a, st1) ∧ f a st1 = (Ok r, st').
Proof. unfold tbind. destruct (m st) as [[a|e|p] st1]; [eauto|done..]. Qed.

(** The messages and the visible transactions of the block have hashes. *)
Definition hashes_known (b : Backend) (rb : ResultBlock) (h : Z) : Prop :=
  (∀ ms, EthMsgsFromTendermintBlock (Some rb) = Ok ms → Forall (λ m, msg_Hash m ≠ zero_hash) ms) ∧
  (∀ ix hs, indexer b = Some ix → ir_GetRPCTransactionHashesByBlockHeight ix h = Ok hs → Forall (λ x, x ≠ zero_hash) hs).

Lemma live_block_trace_spec queries b ix height h config rb (t t' : T) (s s' : bstate RC LC) rs :
  indexer b = Some ix → hashes_known b rb h →
  live_block_trace queries b height h config rb (t, s) = (Ok rs, (t', s')) →
  ∃ rs0 results data, rs = Some <$> rs0 ∧ named rs0 ∧
    alignTraceBlockResultsWithVisibleTransactions b results h = Ok rs ∧
    marshal_results rs = Ok data ∧ t' = (tc_SetBlock t h config data).2.
Proof.
  intros Hix [Hms Hvis] H. unfold live_block_trace in H.
  apply tbind_ok in H as ([msgs hashes] & st1 & [= Hm <-] & H).
  apply res_bind_ok in Hm as (blk & Hblk & Hm). apply res_bind_ok in Hm as (msgs' & Hm & [= <- <-]).
  assert (Forall (λ x, x ≠ zero_hash) (msg_Hash <$> msgs')) as Hn by (apply Forall_fmap; by apply Hms).
  apply tbind_ok in H as (decoded & st2 & Hd & H).
  assert ((∃ ds, decoded = Some <$> ds ∧ named ds) ∧ st2 = (t, s)) as [(ds & -> & Hds) ->].
  { destruct msgs' as [|m msgs']; [injection Hd as <- <-; split; [by exists []; split; [|constructor]|done]|].
    injection Hd as Hd <-. split; [|done]. apply res_bind_ok in Hd as (blk' & _ & Hd). apply res_bind_ok in Hd as (data & _ & Hd).
    apply res_bind_ok in Hd as (dec & _ & Hd). by eapply attach_named. }
  apply tbind_ok in H as (aligned & st3 & [= Ha <-] & H). rewrite Hix in H.
  destruct (align_named _ _ _ _ Hds Hvis Ha) as (rs0 & -> & Hrs0).
  apply tbind_ok in H as ([] & st4 & Hw & [= <- ->]). apply tbind_ok in Hw as (data & st5 & [= Hdata <-] & Hw).
  exists rs0, (Some <$> ds), data. split_and!; [done|done|done| |].
  - revert Hdata. unfold lib. destruct (marshal_results (Some <$> rs0)); by try intros [= <-].
  - unfold cache_write in Hw. rewrite Hix in Hw. unfold tcall, tset in Hw. cbn in Hw.
    destruct (tc_SetBlock t h config data) as [[u|e|p] t1]; cbn in Hw; [by injection Hw as ->|by injection Hw as ->|done].
Qed.

(** C21. A block trace is computed once: when a trace of a block comes from the node
    and its write to the cache succeeds, every later request for that block with the
    same configuration, whatever the node would answer by then, returns the same
    entries as JSON, aligned with the same visible transactions.  The hashes of the
    block's transactions are not zero. *)
Theorem block_trace_replayed queries b ix rb blk height config (t t' : T) (s s' : bstate RC LC) rs e :
  indexer b = Some ix → rb_Block rb = Some blk → is_int64 (blk_Height blk) → hashes_known b rb (blk_Height blk) →
  tc_GetBlock t (blk_Height blk) config = Err e → isIndexerCacheMiss e = true →
  (∀ data, (tc_SetBlock t (blk_Height blk) config data).1 = Ok tt) →
  traceBlock queries b height config (Some rb) (t, s) = (Ok rs, (t', s')) →
  ∀ queries' c q height' block',
    traceCacheHeight (with_node b c q) height' block' = Ok (Some (blk_Height blk)) →
    traceBlock queries' (with_node b c q) height' config block' (t', s') =
    (Ok (reencode (json_entry to_json) rs), (t', s')).
Proof.
  intros Hix Hrb Hh Hknown Hmiss He Hset H queries' c q height' block' Hheight.
  unfold traceBlock in H. apply tbind_ok in H as (h & st & [= Hch <-] & H). unfold traceCacheHeight in Hch. cbn in Hch.
  rewrite Hrb in Hch. injection Hch as <-. rewrite Hix in H. unfold tcall, tget in H. cbn [fst] in H. rewrite Hmiss, He in H. cbn in H.
  unfold trace_block_uncached in H. destruct (OfflineRPCOnly (cfg b)); [done|].
  apply tbind_ok in H as (blk' & st & [= Hb <-] & H). unfold block_of in Hb. rewrite Hrb in Hb. injection Hb as <-.
  destruct (live_block_trace_spec _ _ _ _ _ _ _ _ _ _ _ _ Hix Hknown H) as (rs0 & results & data & -> & Hn & Ha & Hm & ->).
  pose proof (Hset data) as Hok. destruct (tc_SetBlock t (blk_Height blk) config data) as [u t1] eqn:Hs. cbn in Hok. subst u.
  assert (tc_GetBlock t1 (blk_Height blk) config = Ok data) as Hget by (eapply block_stored; [done|by eapply marshal_nonempty|exact Hs]).
  unfold traceBlock, tbind, tlift. rewrite Hheight. cbn [indexer with_node]. rewrite Hix. unfold tcall, tget. cbn [fst snd]. rewrite Hget.
  f_equal. unfold cached_block_trace. rewrite (unmarshal_marshal _ _ Hm). cbn [lib res_map_err res_bind].
  rewrite reencode_some, populate_named by (by apply named_f). cbn [res_bind]. rewrite <- reencode_some.
  by apply (align_visible_again b results).
Qed.

(** The trace of a transaction is kept likewise. *)
Lemma transaction_trace_replayed cap queries b ix hash config (t t' : T) (s s' : bstate RC LC) v data :
  indexer b = Some ix → is_hash hash → data ≠ [] →
  (∀ ctx request, q_TraceTx queries ctx request = Ok data) →
  (tc_SetTransaction t hash (normalizeTraceTimeout cap config) data).1 = Ok tt →
  live_transaction_trace queries b hash (normalizeTraceTimeout cap config) (t, s) = (Ok v, (t', s')) →
  ∀ queries' c q, TraceTransaction cap queries' (with_node b c q) hash config (t', s') = (Ok v, (t', s')).
Proof.
  intros Hix Hh Hne Hq Hset H queries' c q. set (config' := normalizeTraceTimeout cap config) in *.
  unfold live_transaction_trace in H. apply tbind_ok in H as (tr & st & Htr & H).
  assert (st.1 = t) as Ht by (unfold tM in Htr; destruct (GetTxByEthHash b hash _) as [r1 b1]; by injection Htr as _ <-).
  apply tbind_ok in H as (request & st1 & [= Hr <-] & H). apply tbind_ok in H as (data' & st2 & [= Hd <-] & H).
  rewrite Hq in Hd. injection Hd as <-. apply tbind_ok in H as (decoded & st3 & [= Hdec <-] & H).
  apply tbind_ok in H as ([] & st4 & Hw & [= <- ->]). unfold cache_write in Hw. rewrite Hix in Hw. unfold tcall, tset in Hw.
  rewrite Ht in Hw. destruct (tc_SetTransaction t hash config' data) as [u t1] eqn:E. cbn in Hset. subst u. injection Hw as <- <-.
  unfold TraceTransaction. fold config'. unfold tcall at 1, traceTransaction. cbn [indexer with_node]. rewrite Hix. unfold tcall, tget. cbn [fst].
  rewrite (transaction_stored _ _ _ _ _ Hh Hne E). unfold tlift. rewrite Hdec. done.
Qed.

(** ** What a transaction trace replays *)

Lemma predecessors_grow txs acc out :
  res_foldl (λ acc txBz,
    match TxDecoder txBz with
    | Panic p => Panic p
    | Err _ => Ok acc
    | Ok tx => Ok (acc ++ eth_msgs (GetMsgs tx))
    end) acc txs = Ok out (E := error) → ∃ new, out = acc ++ new.
Proof.
  revert acc. induction txs as [|txBz txs IH]; intros acc H; cbn in H; [injection H as <-; exists []; by rewrite app_nil_r|].
  apply res_bind_ok in H as (acc' & Ha & H). destruct (IH _ H) as [new ->]. destruct (TxDecoder txBz); [|injection Ha as <-; by eexists|done].
  injection Ha as <-. rewrite <- app_assoc. by eexists.
Qed.

Lemma eth_msgs_app l l' : eth_msgs (l ++ l') = eth_msgs l ++ eth_msgs l'.
Proof. apply omap_app. Qed.

Lemma at_index_ok {A} (l : list A) i a : at_index l i = Ok a → 0 ≤ i ∧ l !! Z.to_nat i = Some a.
Proof. unfold at_index. case_bool_decide; [done|]. destruct (l !! Z.to_nat i); [intros [= <-]; split; [lia|done]|done]. Qed.

(** The request for a transaction at a known place: its block, and as predecessors the
    Ethereum messages before it. *)
Lemma trace_request_spec b tr config request :
  trace_request b tr config = Ok request →
  ∃ rb blk, TendermintBlockByNumber b (txr_Height tr) = Ok (Some rb) ∧ rb_Block rb = Some blk ∧
    ttx_BlockNumber request = blk_Height blk ∧
    ∀ all, EthMsgsFromTendermintBlock (Some rb) = Ok all → ∃ rest, all = ttx_Predecessors request ++ ttx_Msg request :: rest.
Proof.
  intros H. unfold trace_request in H. case_bool_decide; [done|].
  destruct (TendermintBlockByNumber b (txr_Height tr)) as [[rb|]|?|?] eqn:Hrb; [|done..].
  cbn in H. apply res_bind_ok in H as (blk & Hblk & H). case_bool_decide; [done|].
  apply res_bind_ok in H as (before & Hbefore & H). apply res_bind_ok in H as (txBz & Htx & H).
  apply res_bind_ok in H as (tx & Hdec & H). apply res_bind_ok in H as (own & Hown & H). apply res_bind_ok in H as (msg & Hmsg & H).
  destruct msg as [m|]; [|done]. injection H as <-. exists rb, blk. cbn [ttx_BlockNumber ttx_Predecessors ttx_Msg].
  unfold block_of, deref in Hblk. destruct (rb_Block rb) as [blk'|] eqn:Hb; [|done]. injection Hblk as ->.
  apply at_index_ok in Htx as [_ Htx], Hmsg as [Hi Hmsg].
  assert (TxDecoder txBz = Ok tx) as Hdec' by (revert Hdec; unfold lib; destruct (TxDecoder txBz); by try intros [= <-]).
  unfold messages_before in Hown. case_bool_decide; [done|]. injection Hown as <-. split_and!; [done..|]. intros all Hall.
  unfold EthMsgsFromTendermintBlock in Hall. cbn in Hall. rewrite Hb in Hall.
  rewrite <- (take_drop_middle _ _ _ Htx), res_foldl_app in Hall. unfold predecessors_before in Hbefore. cbn in Hall.
  setoid_rewrite Hbefore in Hall. cbn in Hall. rewrite Hdec' in Hall. cbn in Hall. apply predecessors_grow in Hall as [new ->].
  assert (eth_msgs (GetMsgs tx) = eth_msgs (take (Z.to_nat (txr_MsgIndex tr)) (GetMsgs tx)) ++
            m :: eth_msgs (drop (S (Z.to_nat (txr_MsgIndex tr))) (GetMsgs tx))) as ->
    by (rewrite <- (take_drop_middle _ _ _ Hmsg) at 1; by rewrite eth_msgs_app).
  eexists. by rewrite <- !app_assoc.
Qed.

Lemma context_before_max h : 0 < h < 2 ^ 63 → context_before h = Z.max 1 (h - 1).
Proof. intros H. unfold context_before. rewrite int64_small by (unfold is_int64; lia). case_bool_decide; lia. Qed.


(** The guard on the transaction's position lets the length of the block
    through, and the position is then out of range. *)
Lemma trace_request_index_panics b tr config rb blk before :
  txr_Height tr ≠ 0 → TendermintBlockByNumber b (txr_Height tr) = Ok (Some rb) → rb_Block rb = Some blk →
  txr_TxIndex tr = Z.of_nat (length (blk_Txs blk)) → Z.of_nat (length (blk_Txs blk)) < 2 ^ 32 →
  predecessors_before (blk_Txs blk) = Ok before → trace_request b tr config = Panic "index out of range".
Proof.
  intros Hh Hrb Hb Hi Hl Hbefore. unfold trace_request. rewrite bool_decide_false by done. rewrite Hrb. cbn. unfold block_of. rewrite Hb. cbn.
  rewrite bool_decide_false by (unfold uint32; rewrite Z.mod_small; lia). rewrite Hi, Nat2Z.id, take_ge, Hbefore by lia. cbn.
  unfold at_index. rewrite bool_decide_false by lia. by rewrite Nat2Z.id, lookup_ge_None_2 by lia.
Qed.
End replay.

(** ** Timeouts *)

Class DurationLaws (J : Type) `{TraceLib J} : Prop := {
  ParseDuration_String d : 0 < d → ParseDuration (Duration_String d) = Ok d;
  Duration_String_nonempty d : Duration_String d ≠ EmptyString;
}.

Section timeout.
Context {J : Type} {TL : TraceLib J} {DL : DurationLaws J} (cap : Z).
Notation normalize := (normalizeTraceTimeout (J := J) cap).
Notation timeout_of c := (etc_Timeout (tc_Trace c)).

Lemma trace_cap_positive : 0 < trace_cap cap.
Proof. unfold trace_cap, DefaultTraceTimeoutCap. case_bool_decide; lia. Qed.

Lemma normalize_cases config :
  (normalize config = config ∧
   match config with
   | None => trace_cap cap = DefaultTraceTimeoutCap
   | Some c => if decide (timeout_of c = EmptyString) then trace_cap cap = DefaultTraceTimeoutCap
               else ∀ t, ParseDuration (timeout_of c) = Ok t → t ≤ trace_cap cap
   end) ∨
  normalize config = Some (with_timeout (default (mkTraceConfig no_trace_config [] [] []) config) (Duration_String (trace_cap cap))).
Proof.
  unfold normalizeTraceTimeout. destruct config as [c|]; [|case_bool_decide; [by left|by right]]. cbn.
  case_bool_decide as He; [rewrite decide_True by done; case_bool_decide; [by left|by right]|]. rewrite decide_False by done.
  destruct (ParseDuration (timeout_of c)) as [t| |]; [case_bool_decide; [left|by right]|left..]; split; try done. by intros t' [= <-].
Qed.

(** Which requests are passed on as they are. *)
Definition within_cap (config : option TraceConfig) : Prop :=
  match config with
  | None => trace_cap cap = DefaultTraceTimeoutCap
  | Some c => if decide (timeout_of c = EmptyString) then trace_cap cap = DefaultTraceTimeoutCap
              else ∀ t, ParseDuration (timeout_of c) = Ok t → t ≤ trace_cap cap
  end.

Lemma normalize_within config : within_cap config → normalize config = config.
Proof.
  unfold within_cap, normalizeTraceTimeout. destruct config as [c|]; [|intros ->; by rewrite bool_decide_true].
  case_decide as He; intros H; [by rewrite !bool_decide_true|]. rewrite bool_decide_false by done.
  destruct (ParseDuration _) as [t| |]; [|done..]. by rewrite bool_decide_true by auto.
Qed.

Lemma normalize_beyond config : ¬ within_cap config →
  normalize config = Some (with_timeout (default (mkTraceConfig no_trace_config [] [] []) config) (Duration_String (trace_cap cap))).
Proof. intros H. by destruct (normalize_cases config) as [[_ ?]|?]. Qed.

Lemma normalize_bounds config :
  (∀ c t, normalize config = Some c → timeout_of c ≠ EmptyString → ParseDuration (timeout_of c) = Ok t → t ≤ trace_cap cap) ∧
  (∀ c, normalize config = Some c → timeout_of c = EmptyString → trace_cap cap = DefaultTraceTimeoutCap) ∧
  (normalize config = None → trace_cap cap = DefaultTraceTimeoutCap) ∧
  (∀ c, config = Some c → ∃ t, normalize config = Some (with_timeout c t)) ∧
  normalize (normalize config) = normalize config.
Proof.
  pose proof trace_cap_positive as Hpos. pose proof (Duration_String_nonempty (trace_cap cap)) as Hne.
  assert (∀ c : TraceConfig, c = with_timeout c (timeout_of c)) as Hsame by (by intros [[] ? ? ?]).
  destruct (normalize_cases config) as [[-> H]| ->].
  - split_and!.
    + intros c t -> He. rewrite decide_False in H by done. apply H.
    + intros c -> He. by rewrite decide_True in H.
    + by intros ->.
    + intros c ->. eexists. f_equal. apply Hsame.
    + destruct (normalize_cases config) as [[-> _]|E]; [done|]. revert E. unfold normalizeTraceTimeout. destruct config as [c|].
      * destruct (decide (timeout_of c = EmptyString)) as [He|He].
        -- by rewrite !bool_decide_true by done.
        -- rewrite bool_decide_false by done. destruct (ParseDuration _) as [t| |] eqn:E; [|done..]. by rewrite bool_decide_true by auto.
      * by rewrite bool_decide_true.
  - split_and!.
    + intros c t [= <-] _. cbn. rewrite ParseDuration_String by done. by intros [= <-].
    + intros c [= <-]. done.
    + done.
    + intros c ->. by eexists.
    + unfold normalizeTraceTimeout. cbn. rewrite bool_decide_false by done. rewrite ParseDuration_String, bool_decide_true by done. done.
Qed.

End timeout.

(** ** The trace cache of the indexer keeps the laws *)

Section kv.
Context {D : Type} {DB : KVDB D} {DBL : KVDBLaws D} {DBR : KVDBReliable D} {SD : SDK} {SDL : SDKLaws}.
Context {CP : CapnpLib} {CPL : CapnpLaws} {TK : TraceKey TraceConfig}.

Lemma trace_default_id raw text : raw ≠ [] → IndexerQuery.trace_default raw text = raw.
Proof. by destruct raw. Qed.

#[export] Instance kv_TraceCacheLaws : TraceCacheLaws D.
Proof.
  split; intros t k config bz t' Hk Hne Hset; cbn in *;
    unfold IndexerQuery.SetTraceBlockByHeight, IndexerQuery.SetTraceTransaction in Hset; rewrite trace_default_id in Hset by done;
    apply IndexerProps.set_trace_ok in Hset as (pay & Hm & Hc).
  all: eapply IndexerProps.read_trace; [exact Hm|rewrite Hc; apply lookup_insert_eq].
Qed.
End kv.

(** ** The concrete block *)

Module Witness.
Import EthInstances IndexerSample BackendSample CodecInstances.

(** Durations are written in binary, traces are numbers. *)
Fixpoint pos_string (p : positive) : string :=
  match p with
  | xH => "h"
  | xO p => String "o" (pos_string p)
  | xI p => String "i" (pos_string p)
  end.

Fixpoint parse_pos (s : string) : option positive :=
  match s with
  | EmptyString => None
  | String "h" EmptyString => Some xH
  | String "o" s => xO <$> parse_pos s
  | String "i" s => xI <$> parse_pos s
  | _ => None
  end.

Lemma parse_pos_string p : parse_pos (pos_string p) = Some p.
Proof. induction p as [p IH|p IH|]; cbn; rewrite ?IH; done. Qed.

Definition json_number (v : trace_value nat) : nat :=
  match v with Decoded j => j | NotTraced => 0 | CallFrame _ => 1 | StructLog _ => 2 end.

Definition plain_entry (r : TxTraceResult nat) : bytes * option nat * string := (TxHash r, json_number <$> Result r, Error r).
Definition entry_of (e : bytes * option nat * string) : TxTraceResult nat := mkTxTrace e.1.1 (Decoded <$> e.1.2) e.2.

#[export] Instance sample_TraceLib : TraceLib nat := {|
  ParseDuration s := match parse_pos s with Some p => Ok (Z.pos p) | None => Err "invalid duration"%string end;
  Duration_String d := pos_string (Z.to_pos d);
  Bytes2Hex _ := EmptyString;
  unmarshal_any := countable_unmarshal;
  unmarshal_results bz := match countable_unmarshal bz with
                          | Ok l => Ok ((λ e : option (bytes * option nat * string), entry_of <$> e) <$> l)
                          | Err e => Err e
                          | Panic p => Panic p
                          end;
  marshal_results rs := Ok (countable_marshal ((λ r : option (TxTraceResult nat), plain_entry <$> r) <$> rs));
  marshal_args _ := Ok [];
  msg_From _ := [];
|}.

#[export] Instance sample_DurationLaws : DurationLaws nat.
Proof.
  split; intros d.
  - intros Hd. cbn. rewrite parse_pos_string. f_equal. lia.
  - cbn. by destruct (Z.to_pos d).
Qed.

#[export] Instance sample_TraceJSONLaws : TraceJSONLaws nat.
Proof.
  refine {| to_json := json_number |}.
  - by intros rs bz [= <-].
  - intros rs bz [= <-]. cbn [unmarshal_results marshal_results sample_TraceLib]. rewrite countable_roundtrip. f_equal. unfold reencode. rewrite <- list_fmap_compose.
    apply list_fmap_ext. intros i r _. destruct r as [r|]; [|done]. cbn. f_equal. unfold entry_of, json_entry, plain_entry. cbn.
    f_equal. by destruct (Result r).
Defined.

#[export] Instance config_TraceKey : TraceKey TraceConfig := {|
  sonic_marshal_config _ := Ok [];
  sha256 _ := be_bytes 32 0;
  marshal_error_text _ := [];
|}.

(** The node traces the Ethereum transaction of the block as 7. *)
Definition sample_queries : TraceQueries :=
  mkTraceQueries (λ _ _, Ok (countable_marshal 7%nat))
    (λ _ _, marshal_results [Some (mkTxTrace zero_hash (Some (Decoded 7%nat)) EmptyString)])
    (λ _ _, Err "unavailable"%string).

Definition silent_trace : TraceQueries :=
  mkTraceQueries (λ _ _, Err "unavailable"%string) (λ _ _, Err "unavailable"%string) (λ _ _, Err "unavailable"%string).

Definition sample_rb : ResultBlock := mkResultBlock (be_bytes 32 1000) (Some sample_block).

Definition start : gmap bytes bytes * bstate unit unit := (sample_store, mkBState None None).

Definition after_block := (TraceBlock 0 sample_queries sample_backend 12 None (Some sample_rb) start).2.

(** The index of a transaction among the Ethereum transactions is used as its
    index among the visible ones: with a block trace in the cache the trace of the
    sample transaction is the entry of the begin-block transaction before it. *)
Lemma cached_trace_of_another_transaction :
  (TraceTransaction 0 sample_queries sample_backend eth_hash None start).1 = Ok (Some (Decoded 7%nat)) ∧
  (TraceTransaction 0 sample_queries sample_backend eth_hash None after_block).1 = Ok (Some (Decoded 0%nat)).
Proof. split; vm_compute; reflexivity. Qed.

Definition traced_store : gmap bytes bytes := (traceBlock sample_queries sample_backend 12 None (Some sample_rb) start).2.1.

Definition sample_trace : list (option (TxTraceResult nat)) :=
  match (traceBlock sample_queries sample_backend 12 None (Some sample_rb) start).1 with Ok rs => rs | _ => [] end.

Lemma sample_hashes_known : hashes_known sample_backend sample_rb 12.
Proof.
  split.
  - intros ms H. vm_compute in H. injection H as <-. repeat constructor. by vm_compute.
  - intros ix hs [= <-] H. vm_compute in H. injection H as <-. repeat constructor; by vm_compute.
Qed.

(** The second request asks a node that is gone. *)
Lemma block_trace_replayed_witness :
  traceBlock silent_trace (with_node sample_backend None silent_queries) 12 None None (traced_store, mkBState None None) =
  (Ok (reencode (json_entry json_number) sample_trace), (traced_store, mkBState (RC := unit) (LC := unit) None None)).
Proof.
  assert (indexer sample_backend = Some (kv_reader sample_store)) as H1 by reflexivity.
  assert (rb_Block sample_rb = Some sample_block) as H2 by reflexivity.
  assert (is_int64 (blk_Height sample_block)) as H3 by (gate_ints; cbn; lia).
  assert (tc_GetBlock sample_store (blk_Height sample_block) None = Err (Indexer.newCacheMiss "trace block not found, height: %d")) as H4
    by (by vm_compute).
  assert (isIndexerCacheMiss (Indexer.newCacheMiss "trace block not found, height: %d") = true) as H5 by reflexivity.
  assert (∀ data, (tc_SetBlock sample_store (blk_Height sample_block) None data).1 = Ok tt) as H6 by (intros data; reflexivity).
  assert (is_ok (traceBlock sample_queries sample_backend 12 None (Some sample_rb) start).1 = true) as Hok by (vm_compute; reflexivity).
  assert ((traceBlock sample_queries sample_backend 12 None (Some sample_rb) start).2.2 = mkBState None None) as Hs by (vm_compute; reflexivity).
  assert (traceBlock sample_queries sample_backend 12 None (Some sample_rb) start =
          (Ok sample_trace, (traced_store, mkBState None None))) as H7.
  { unfold sample_trace, traced_store. destruct (traceBlock _ _ _ _ _ _) as [[rs|e|m] [t s]]; cbn in Hok, Hs |- *; [by subst|done..]. }
  assert (traceCacheHeight (with_node sample_backend None silent_queries) 12 None = Ok (Some (blk_Height sample_block))) as H8 by reflexivity.
  unfold start in H7.
  pose proof (block_trace_replayed (T := gmap bytes bytes) (RC := unit) (LC := unit) (TJ := sample_TraceJSONLaws) sample_queries sample_backend (kv_reader sample_store)
    sample_rb sample_block 12 None sample_store traced_store (mkBState None None) (mkBState None None) sample_trace
    (Indexer.newCacheMiss "trace block not found, height: %d") H1 H2 H3) as H.
  specialize (H sample_hashes_known). specialize (H H4 H5).
  specialize (H H6). specialize (H H7).
  exact (H silent_trace None silent_queries 12 None H8).
Defined.

Definition sample_record : TxResult := mkTxResult 12 0 0 0 true 21000 21000.

Lemma ok_result {E A T S} (r : res E A * (T * S)) : is_ok r.1 = true → ∃ a t s, r = (Ok a, (t, s)).
Proof. destruct r as [[a|e|p] [t s]]; [|done..]. by exists a, t, s. Qed.


Definition short_cap : Z := 10.
Definition timed (timeout : Z) : option TraceConfig := Some (with_timeout (mkTraceConfig no_trace_config [] [] []) (pos_string (Z.to_pos timeout))).


Lemma trace_alignment_exact_witness :
  ∃ out, alignTraceBlockResults [Some (mkTxTrace eth_hash (Some (Decoded 7%nat)) EmptyString)] [be_bytes 32 3; eth_hash] = Some <$> out ∧
         TxHash <$> out = [be_bytes 32 3; eth_hash].
Proof.
  destruct (trace_alignment_exact [mkTxTrace eth_hash (Some (Decoded 7%nat)) EmptyString] [be_bytes 32 3; eth_hash]) as (out & H1 & H2 & _).
  - apply (bool_decide_unpack _). by vm_compute.
  - apply (bool_decide_unpack _). by vm_compute.
  - done.
  - repeat constructor. by vm_compute.
  - intros r ->%list_elem_of_singleton. cbn. apply (bool_decide_unpack _). by vm_compute.
  - by exists out.
Defined.
End Witness.
End BackendTraceProps.
