(* ===== verification/BackendCall.v ===== *)
(** * The RPC backend: calls, accounts and storage

    src/internal/evm/rpc/backend: call_tx.go, sign_tx.go, account_info.go,
    storage_range.go, getAccountNonce and GetHexProofs of utils.go, CheckTxFee of
    types/utils.go and GetProof of types/query_client.go.  The node's queries are functions of the height header of their
    context; deadlines of contexts are left out. *)

From Stdlib Require Import Ascii String SpecFloat.
From S2P Require Import Prelude Bytes Instances GoLib EthTypes EthInstances Keys Tracker ParsedTx Normalize.
From S2P Require Import Virtual VirtualBank VirtualIbc VirtualResponse RpcUtils Cached Codec Indexer IndexerQuery.
From S2P Require Import RpcTypes Backend BackendLive BackendBlocks BackendTx BackendFees.
From stdpp Require Import strings list gmap sorting.
#[local] Open Scope Z_scope.

Module BackendCall.
Import GoLib EthTypes Keys ParsedTx Normalize Virtual RpcUtils Cached Codec RpcTypes Backend BackendLive BackendBlocks BackendTx BackendFees.

(** ** The node *)

Inductive grpc_error := NotFound | OtherStatus (msg : string).

(** evmtypes.EthCallRequest and the answers of calls and estimates *)
Record EthCallRequest := mkCallRequest {
  cr_Args : bytes;
  cr_GasCap : Z;
  cr_ProposerAddress : bytes;
  cr_ChainId : Z;
  cr_Overrides : bytes;
}.
Record CallResponse := mkCallResponse { cres_Gas : Z; cres_VmError : string; cres_Ret : bytes }.

(** evmtypes.QueryAccountResponse *)
Record AccountResponse := mkAccountResponse { ar_Balance : string; ar_CodeHash : string; ar_Nonce : Z }.

(** sdk.TxResponse of a broadcast; the error of the client is told apart. *)
Record TxResponse := mkTxResponse { tr_Codespace : string; tr_Code : Z; tr_RawLog : string }.
Inductive broadcast_error := RPCError (data message : string) | OtherError (msg : string).

Record CallQueries := mkCallQueries {
  q_AuthAccount : option string → string → res grpc_error (res string Z);
  q_EnsureExists : bytes → res string unit;
  q_EstimateGas : option string → EthCallRequest → res string CallResponse;
  q_EthCall : option string → EthCallRequest → res string CallResponse;
  q_Code : option string → string → res string bytes;
  q_Storage : option string → string → string → res string string;
  q_Balance : option string → string → res string string;
  q_Account : option string → string → res string AccountResponse;
  q_QueryABCI : string → bytes → Z → res string (bytes * option (list bytes));
  q_EvmDenom : res string string;
  q_MinGasPrice : res string Z;
  q_Subspace : Z → bytes → res string bytes;
  q_Broadcast : bytes → option TxResponse * option broadcast_error;
}.

(** Functions of the chain, of go-ethereum and of the JSON library. *)
Class CallLib := {
  args_JSON : TransactionArgs → res string bytes;
  AccAddress_String : bytes → string;
  NewIntFromString : string → option Z;
  ErrExecutionReverted : string;
  NewExecErrorWithReason : bytes → error;
  Transaction_UnmarshalBinary : bytes → res string Transaction;
  FromSignedEthereumTx : Transaction → Signer → res string MsgEthereumTx;
  ValidateBasic : MsgEthereumTx → res string unit;
  BuildTx : MsgEthereumTx → string → res string sdk_Tx;
  TxEncoder : sdk_Tx → res string bytes;
  ABCIError : string → Z → string → error;
  evm_StoreKey : string;
  auth_StoreKey : string;
  StateKey : Address → bytes → bytes;
  AddressStoreKeyPrefix : bytes;
  AddressStoragePrefix : Address → bytes;
  MinGasPrices_AmountOf : string → res string Z;
  DefaultGasPrice : Z;
  unmarshal_pairs : bytes → res string (list (bytes * bytes));
  LatestSigner_Sender : Transaction → res string Address;
  LatestSigner_Hash : Transaction → Hash;
  TxData_Transaction : TxMsg → Transaction;
}.

(** ** The fee cap *)

(** big.Float values with the precision of their integers, at least 64 bits;
    their exponents are not bounded here. *)
Definition big_prec (z : Z) : Z := Z.max 64 (Z.log2 (Z.abs z) + 1).
Definition big_emax : Z := 2 ^ 31.

Definition float64_of (f : spec_float) : float64 :=
  match f with
  | S754_finite s m e => binary_normalize f_prec f_emax (if s then Z.neg m else Z.pos m) e s
  | f => f
  end.

Definition Ether : Z := 10 ^ 18.

Definition CheckTxFee (gasPrice gas : Z) (feeCap : float64) : res error unit :=
  if SFeqb feeCap (S754_zero false) then Ok tt
  else
    let total := gasPrice * gas in
    let prec := big_prec total in
    let feeEth := SFdiv prec big_emax (binary_normalize prec big_emax total 0 false) (binary_normalize prec big_emax Ether 0 false) in
    if SFltb feeCap (float64_of feeEth) then Err (Errorf "tx fee (%.2f inj) exceeds the configured cap (%.2f inj)") else Ok tt.

(** ** Storage ranges *)

Record StorageRangeResult := mkStorageRange { sr_Storage : gmap Hash Hash; sr_NextKey : option Hash }.

Record storageItem := mkItem { si_key : Hash; si_value : Hash }.

Definition item_le (a b : storageItem) : Prop := bytes_le (si_key a) (si_key b).
#[export] Instance item_le_dec a b : Decision (item_le a b).
Proof. unfold item_le. apply _. Defined.
#[export] Instance item_le_total : Total item_le.
Proof. intros a b. unfold item_le. apply (base.total bytes_le). Qed.
#[export] Instance item_le_trans : Transitive item_le.
Proof. intros a b c. unfold item_le. apply (transitivity (R := bytes_le)). Qed.

Section ops.
Context {EL : EthLib} {CL : ChainLib} {LJ : LogJSON} {PB : Proto} {BL : Bank.BankLib} {IL : Ibc.IbcLib} {BB : BackendLib}.
Context {FL : FeeLib} {KL : CallLib} (IBCHookCallerAddressHex : string) (q : CallQueries).
Context (TxFeeCap : float64) (ReturnDataLimit : Z) (allowUnprotectedTxs : bool).

(** The slots of the pairs; keys shorter than the prefix are skipped. *)
Definition storage_items (prefix : bytes) (pairs : list (bytes * bytes)) : list storageItem :=
  omap (λ pair : bytes * bytes,
    if bool_decide (length pair.1 < length prefix)%nat then None
    else Some (mkItem (BytesToHash (drop (length prefix) pair.1)) (BytesToHash pair.2))) pairs.

(** One page of the sorted slots. *)
Definition storage_page (items : list storageItem) (keyStart : bytes) (maxResult : Z) : StorageRangeResult :=
  let startKey := BytesToHash keyStart in
  let filtered := match keyStart with [] => items | _ => filter (λ item, bytes_le startKey (si_key item)) items end in
  let next := if bool_decide (maxResult < Z.of_nat (length filtered)) then filtered !! Z.to_nat maxResult else None in
  let page := if bool_decide (maxResult < Z.of_nat (length filtered)) then take (Z.to_nat maxResult) filtered else filtered in
  mkStorageRange (foldl (λ m item, <[si_key item := si_value item]> m) ∅ page) (si_key <$> next).

Definition StorageRangeAt (sort : list storageItem → list storageItem) (b : Backend) (blockNrOrHash : BlockNumberOrHash)
    (contractAddress : Address) (keyStart : bytes) (maxResult : Z) : res error StorageRangeResult :=
  let! blockNum := BlockNumberFromTendermint b blockNrOrHash in
  let prefix := AddressStoragePrefix contractAddress in
  let! _ := deref (client b) in
  let! value := lib (q_Subspace q (Int64 blockNum) prefix) in
  if bool_decide (value = [] ∨ maxResult ≤ 0) then Ok (mkStorageRange ∅ None)
  else
    let! pairs := lib (unmarshal_pairs value) in
    Ok (storage_page (sort (storage_items prefix pairs)) keyStart maxResult).

(** ** Nonces *)

(** The Ethereum messages before the first other message of a transaction. *)
Fixpoint leading_eth (msgs : list Msg) : list MsgEthereumTx :=
  match msgs with
  | EthMsg m :: msgs => m :: leading_eth msgs
  | _ => []
  end.

(** for _, tx := range pendingTxs { for _, msg := range msgs { ... break / continue / nonce++ } } *)
Fixpoint count_sender (chain : Z) (accAddr : Address) (msgs : list Msg) (nonce : Z) : res error Z :=
  match msgs with
  | EthMsg m :: msgs =>
      match msg_GetSenderLegacy m (LatestSignerForChainID chain) with
      | Panic p => Panic p
      | Err _ => count_sender chain accAddr msgs nonce
      | Ok sender => count_sender chain accAddr msgs (if bool_decide (sender = accAddr) then uint64 (nonce + 1) else nonce)
      end
  | _ => Ok nonce
  end.

Definition getAccountNonce (b : Backend) (accAddr : Address) (pending : bool) (height : Z) : res error Z :=
  match q_AuthAccount q (ContextWithHeightFrom height) (AccAddress_String accAddr) with
  | Panic p => Panic p
  | Err NotFound => Ok 0
  | Err (OtherStatus msg) => Err (New msg)
  | Ok account =>
      let! nonce := lib account in
      if negb pending then Ok nonce
      else match PendingTransactions b with
           | Err _ => Ok nonce
           | Panic p => Panic p
           | Ok pendingTxs => res_foldl (λ nonce tx, count_sender (ChainID b) accAddr (GetMsgs tx) nonce) nonce pendingTxs
           end
  end.

Definition GetTransactionCount (b : Backend) (address : Address) (blockNum : Z) : res error Z :=
  let! bn := BlockNumber b in
  if bool_decide (int64 bn < Int64 blockNum) then
    Err (Wrap "cannot query with height in the future (current: %d, queried: %d); please provide a valid height" (New "invalid height"))
  else
    match q_EnsureExists q address with
    | Panic p => Panic p
    | Err _ => Ok 0
    | Ok _ => getAccountNonce b address (bool_decide (blockNum = EthPendingBlockNumber)) (Int64 blockNum)
    end.

(** ** Calls *)

Definition handleRevertError (vmError : string) (ret : bytes) : option error :=
  if bool_decide (vmError = EmptyString) then None
  else if bool_decide (vmError ≠ ErrExecutionReverted) then Some (New vmError)
  else match ret with [] => Some (New vmError) | _ => Some (NewExecErrorWithReason ret) end.

Definition checked_response (r : CallResponse) : res error CallResponse :=
  match handleRevertError (cres_VmError r) (cres_Ret r) with Some err => Err err | None => Ok r end.

(** The block whose state is used; geth's message when it is missing. *)
Definition call_block (b : Backend) (blockNr : Z) : res error Block :=
  let! header := or_nil (TendermintBlockByNumber b blockNr) in
  match header with None => Err (New "header not found") | Some rb => block_of rb end.

Definition call_request (b : Backend) (args bzOverrides : bytes) (blk : Block) : EthCallRequest :=
  mkCallRequest args (RPCGasCap b) (blk_ProposerAddress blk) (int64 (ChainID b)) bzOverrides.

Definition EstimateGas (b : Backend) (args : TransactionArgs) (blockNrOptional : option Z) : res error Z :=
  let blockNr := default EthPendingBlockNumber blockNrOptional in
  let! bz := lib (args_JSON args) in
  let! blk := call_block b blockNr in
  let! r := lib (q_EstimateGas q (ContextWithHeightFrom (Int64 blockNr)) (call_request b bz [] blk)) in
  let! r := checked_response r in
  Ok (cres_Gas r).

Definition DoCall (b : Backend) (args : TransactionArgs) (blockNr : Z) (overrides : option bytes) : res error CallResponse :=
  let! bz := lib (args_JSON args) in
  let! blk := call_block b blockNr in
  let! r := lib (q_EthCall q (ContextWithHeightFrom (Int64 blockNr)) (call_request b bz (default [] overrides) blk)) in
  if bool_decide (ReturnDataLimit < Z.of_nat (length (cres_Ret r)) ∧ ReturnDataLimit ≠ 0) then
    Err (Errorf "call retuned result on length %d exceeding limit %d")
  else checked_response r.

(** ** Defaults of a transaction *)

Definition both_fees : error := New "both gasPrice and (maxFeePerGas or maxPriorityFeePerGas) specified".
Definition fee_below_tip : error := Errorf "maxFeePerGas (%v) < maxPriorityFeePerGas (%v)".

Definition set_fees (args : TransactionArgs) (gasPrice maxFee maxTip : option Z) : TransactionArgs :=
  mkArgs (a_From args) (a_To args) (a_Gas args) gasPrice maxFee maxTip (a_Value args) (a_Nonce args) (a_Data args)
    (a_Input args) (a_AccessList args) (a_ChainID args).

(** The fee fields: the caller's, or what the latest header suggests. *)
Definition default_fees (b : Backend) (head : Header) (args : TransactionArgs) : res error TransactionArgs :=
  match a_MaxPriorityFeePerGas args, a_MaxFeePerGas args with
  | Some tip, Some fee => if bool_decide (fee < tip) then Err fee_below_tip else Ok args
  | tip, fee =>
      match h_BaseFee head, a_GasPrice args with
      | Some baseFee, None =>
          let! tip := match tip with Some tip => Ok tip | None => SuggestGasTipCap b (Some baseFee) end in
          let fee := default (tip + baseFee * 2) fee in
          if bool_decide (fee < tip) then Err fee_below_tip else Ok (set_fees args None (Some fee) (Some tip))
      | baseFee, gasPrice =>
          if bool_decide (is_Some fee ∨ is_Some tip) then
            Err (New "maxFeePerGas or maxPriorityFeePerGas specified but london is not active yet")
          else match gasPrice with
               | Some _ => Ok args
               | None =>
                   let! price := SuggestGasTipCap b baseFee in
                   Ok (set_fees args (Some (price + default 0 baseFee)) None None)
               end
      end
  end.

Definition set_value_nonce (args : TransactionArgs) (value nonce : Z) : TransactionArgs :=
  mkArgs (a_From args) (a_To args) (a_Gas args) (a_GasPrice args) (a_MaxFeePerGas args) (a_MaxPriorityFeePerGas args)
    (Some value) (Some nonce) (a_Data args) (a_Input args) (a_AccessList args) (a_ChainID args).

(** The nonce of the sender; an error of the lookup counts as nonce 0. *)
Definition default_nonce (b : Backend) (args : TransactionArgs) : res error Z :=
  match a_Nonce args with
  | Some nonce => Ok nonce
  | None =>
      let! from := deref (a_From args) in
      match getAccountNonce b from true 0 with
      | Ok nonce => Ok nonce
      | Err _ => Ok 0
      | Panic p => Panic p
      end
  end.

(** The arguments of the estimate: input is preferred to data. *)
Definition estimate_args (args : TransactionArgs) : TransactionArgs :=
  mkArgs (a_From args) (a_To args) (a_Gas args) (a_GasPrice args) (a_MaxFeePerGas args) (a_MaxPriorityFeePerGas args)
    (a_Value args) (a_Nonce args) (match a_Input args with Some input => Some input | None => a_Data args end) None
    (a_AccessList args) (a_ChainID args).

Definition set_gas_chain (args : TransactionArgs) (gas chain : Z) : TransactionArgs :=
  mkArgs (a_From args) (a_To args) (Some gas) (a_GasPrice args) (a_MaxFeePerGas args) (a_MaxPriorityFeePerGas args)
    (a_Value args) (a_Nonce args) (a_Data args) (a_Input args) (a_AccessList args) (Some chain).

Definition creation_data (args : TransactionArgs) : bytes :=
  match a_Data args with Some data => data | None => default [] (a_Input args) end.

Definition SetTxDefaults (b : Backend) (args : TransactionArgs) : res error TransactionArgs :=
  if bool_decide (is_Some (a_GasPrice args) ∧ (is_Some (a_MaxFeePerGas args) ∨ is_Some (a_MaxPriorityFeePerGas args))) then
    Err both_fees
  else
    let! head := CurrentHeader IBCHookCallerAddressHex b in
    let! args := default_fees b head args in
    let! nonce := default_nonce b args in
    let args := set_value_nonce args (default 0 (a_Value args)) nonce in
    if match a_Data args, a_Input args with Some data, Some input => bool_decide (data ≠ input) | _, _ => false end then
      Err (New "both 'data' and 'input' are set and not equal. Please use 'input' to pass transaction call data")
    else if bool_decide (a_To args = None ∧ creation_data args = []) then
      Err (New "contract creation without any data provided")
    else
      let! gas := match a_Gas args with
                  | Some gas => Ok gas
                  | None => EstimateGas b (estimate_args args) (Some (NewBlockNumber 0))
                  end in
      Ok (set_gas_chain args gas (default (ChainID b) (a_ChainID args))).

(** ** Gas price *)

(** LegacyDec.TruncateInt of a decimal scaled by 10^18 *)
Definition TruncateInt (dec : Z) : Z := Z.quot dec (10 ^ 18).

Definition RPCMinGasPrice : res error Z :=
  match q_EvmDenom q with
  | Panic p => Panic p
  | Err _ => Ok DefaultGasPrice
  | Ok denom => let! amt := lib (MinGasPrices_AmountOf denom) in
                Ok (if bool_decide (TruncateInt amt = 0) then DefaultGasPrice else TruncateInt amt)
  end.

Definition GasPrice (b : Backend) : res error Z :=
  let! head := CurrentHeader IBCHookCallerAddressHex b in
  let! result := match h_BaseFee head with
                 | Some baseFee => let! tip := SuggestGasTipCap b (Some baseFee) in Ok (tip + baseFee)
                 | None => RPCMinGasPrice
                 end in
  let! minGasPrice := lib (q_MinGasPrice q) in
  Ok (if bool_decide (result < TruncateInt minGasPrice) then TruncateInt minGasPrice else result).

(** ** Sending *)

(** The data of an RPC error, its message, or the error as it is. *)
Definition unwrapBroadcastTxError (err : broadcast_error) : error :=
  match err with
  | RPCError data message =>
      if bool_decide (data ≠ EmptyString) then Errorf data
      else if bool_decide (message ≠ EmptyString) then Errorf message
      else New "rpc error"
  | OtherError msg => New msg
  end.

(** The hash is returned with an error of the broadcast. *)
Definition SendRawTransaction (b : Backend) (data : bytes) : res error (Hash * option error) :=
  let! tx := lib (Transaction_UnmarshalBinary data) in
  if negb allowUnprotectedTxs && negb (tx_Protected tx) then
    Err (New "only replay-protected (EIP-155) transactions allowed over RPC")
  else
    let! _ := CheckTxFee (tx_GasPrice tx) (tx_Gas tx) TxFeeCap in
    let! ethereumTx := lib (FromSignedEthereumTx tx (LatestSignerForChainID (ChainID b))) in
    let! _ := lib (ValidateBasic ethereumTx) in
    let! denom := lib (q_EvmDenom q) in
    let! cosmosTx := lib (BuildTx ethereumTx denom) in
    let! txBytes := lib (TxEncoder cosmosTx) in
    let '(rsp, err) := q_Broadcast q txBytes in
    Ok (msg_Hash ethereumTx,
        match rsp with
        | Some rsp => if bool_decide (tr_Code rsp ≠ 0) then Some (ABCIError (tr_Codespace rsp) (tr_Code rsp) (tr_RawLog rsp))
                      else unwrapBroadcastTxError <$> err
        | None => unwrapBroadcastTxError <$> err
        end).

(** sign_tx.go: keys are not held by the gateway. *)
Definition SendTransaction (args : TransactionArgs) : res error Hash :=
  Err (New "eth_sendTransaction is disabled: keyring-backed signing APIs are not supported").

(** The pending transaction that the arguments repeat, if any. *)
Fixpoint find_resend (matchTx : Transaction) (from : option Address) (pending : list sdk_Tx) : res error bool :=
  match pending with
  | [] => Ok false
  | tx :: pending =>
      match UnwrapEthereumMsg tx zero_hash with
      | Panic p => Panic p
      | Err _ => find_resend matchTx from pending
      | Ok p =>
          let! pTx := deref (msg_AsTransaction p) in
          match LatestSigner_Sender pTx with
          | Panic p => Panic p
          | Err _ => find_resend matchTx from pending
          | Ok pFrom =>
              let! from' := deref from in
              if bool_decide (pFrom = from' ∧ LatestSigner_Hash pTx = LatestSigner_Hash matchTx) then Ok true
              else find_resend matchTx from pending
          end
      end
  end.

Definition set_price_gas (args : TransactionArgs) (gasPrice gas : option Z) : TransactionArgs :=
  mkArgs (a_From args) (a_To args) gas gasPrice (a_MaxFeePerGas args) (a_MaxPriorityFeePerGas args) (a_Value args)
    (a_Nonce args) (a_Data args) (a_Input args) (a_AccessList args) (a_ChainID args).

Definition Resend (b : Backend) (args : TransactionArgs) (gasPrice gasLimit : option Z) : res error Hash :=
  match a_Nonce args with
  | None => Err (Errorf "missing transaction nonce in transaction spec")
  | Some _ =>
      let! args := SetTxDefaults b args in
      let matchTx := TxData_Transaction (ToTransaction args) in
      let! _ := CheckTxFee (default (tx_GasPrice matchTx) gasPrice) (default (tx_Gas matchTx) gasLimit) TxFeeCap in
      let! pending := PendingTransactions b in
      let! found := find_resend matchTx (a_From args) pending in
      if found : bool then
        let keep_nonzero (new : option Z) (old : option Z) := match new with Some n => if bool_decide (n ≠ 0) then Some n else old | None => old end in
        SendTransaction (set_price_gas args (keep_nonzero gasPrice (a_GasPrice args)) (keep_nonzero gasLimit (a_Gas args)))
      else Err (Errorf "transaction %#x not found")
  end.

(** ** Accounts *)

Definition GetCode (b : Backend) (address : Address) (blockNrOrHash : BlockNumberOrHash) : res error bytes :=
  let! blockNum := BlockNumberFromTendermint b blockNrOrHash in
  lib (q_Code q (ContextWithHeightFrom (Int64 blockNum)) (Address_Hex address)).

Definition GetStorageAt (b : Backend) (address : Address) (key : string) (blockNrOrHash : BlockNumberOrHash) : res error bytes :=
  let! blockNum := BlockNumberFromTendermint b blockNrOrHash in
  let! value := lib (q_Storage q (ContextWithHeightFrom (Int64 blockNum)) (Address_Hex address) key) in
  Ok (HexToHash value).

Definition GetBalance (b : Backend) (address : Address) (blockNrOrHash : BlockNumberOrHash) : res error Z :=
  let! blockNum := BlockNumberFromTendermint b blockNrOrHash in
  let! _ := TendermintBlockByNumber b blockNum in
  let! balance := lib (q_Balance q (ContextWithHeightFrom (Int64 blockNum)) (Address_Hex address)) in
  match NewIntFromString balance with
  | None => Err (New "invalid balance")
  | Some val => if bool_decide (val < 0) then Err (New "couldn't fetch balance. Node state is pruned") else Ok val
  end.

Definition GetHexProofs (proof : option (list bytes)) : list string :=
  match proof with
  | None => [EmptyString]
  | Some ops => (λ data : bytes, match data with [] => EmptyString | _ => hexutil_Encode data end) <$> ops
  end.

Record StorageResult := mkStorageResult { st_Key : string; st_Value : Z; st_Proof : list string }.
Record AccountResult := mkAccountResult {
  acr_Address : Address;
  acr_AccountProof : list string;
  acr_Balance : Z;
  acr_CodeHash : Hash;
  acr_Nonce : Z;
  acr_StorageHash : Hash;
  acr_StorageProof : list StorageResult;
}.

(** The height of the proofs: the latest block for the tags. *)
Definition proof_height (b : Backend) (height : Z) : res error Z :=
  if bool_decide (height = 0) then
    let! bn := BlockNumber b in
    if bool_decide (2 ^ 63 - 1 < bn) then Err (Errorf "not able to query block number greater than MaxInt64") else Ok (int64 bn)
  else Ok height.

(** QueryClient.GetProof: a proof query of a store at a height. *)
Definition query_GetProof (height : Z) (storeKey : string) (key : bytes) : res error (bytes * option (list bytes)) :=
  if bool_decide (height ≤ 2) then Err (Errorf "proof queries at height <= 2 are not supported")
  else lib (q_QueryABCI q ("store/" +:+ storeKey +:+ "/key") key height).

Definition GetProof (b : Backend) (address : Address) (storageKeys : list string) (blockNrOrHash : BlockNumberOrHash) :
    res error AccountResult :=
  let! blockNum := BlockNumberFromTendermint b blockNrOrHash in
  let! _ := res_map_err (λ _, New "header not found") (TendermintBlockByNumber b blockNum) in
  let! height := proof_height b (Int64 blockNum) in
  let! storageProofs := res_mapM (λ key,
    let! (valueBz, proof) := query_GetProof height evm_StoreKey (StateKey address (HexToHash key)) in
    Ok (mkStorageResult key (be_value valueBz) (GetHexProofs proof))) storageKeys in
  let! account := lib (q_Account q (ContextWithHeightFrom (Int64 blockNum)) (Address_Hex address)) in
  let! (_, proof) := query_GetProof height auth_StoreKey (AddressStoreKeyPrefix ++ address) in
  match NewIntFromString (ar_Balance account) with
  | None => Err (New "invalid balance")
  | Some balance =>
      Ok (mkAccountResult address (GetHexProofs proof) balance (HexToHash (ar_CodeHash account)) (ar_Nonce account) zero_hash storageProofs)
  end.
End ops.
End BackendCall.
