(* ===== verification/BackendCallProps.v ===== *)
(** * The RPC backend: properties of calls, accounts and storage *)

From Stdlib Require Import Ascii String SpecFloat.
From S2P Require Import Prelude Bytes Instances GoLib EthTypes EthInstances Keys Tracker ParsedTx Normalize.
From S2P Require Import Virtual VirtualBank VirtualIbc VirtualResponse RpcUtils Cached Codec Indexer IndexerQuery.
From S2P Require Import CodecInstances IndexerStore IndexerSample.
From S2P Require Import RpcTypes Backend BackendLive BackendBlocks BackendTx BackendSample BackendFees BackendCall.
From stdpp Require Import strings list gmap sorting.
#[local] Open Scope Z_scope.

Module BackendCallProps.
Import GoLib EthTypes Keys ParsedTx Normalize Virtual RpcUtils Cached Codec RpcTypes Backend BackendLive BackendBlocks BackendTx BackendFees BackendCall.

Section props.
Context {EL : EthLib} {ELL : EthLibLaws} {CL : ChainLib} {LJ : LogJSON} {PB : Proto} {BL : Bank.BankLib} {IL : Ibc.IbcLib}.
Context {BB : BackendLib} {FL : FeeLib} {KL : CallLib} (caller : string) (q : CallQueries).

(** ** Defaults of a transaction *)

#[local] Arguments SuggestGasTipCap : simpl never.

(** A field the caller gave is kept. *)
Definition kept {A} (old new : option A) : Prop := ∀ a, old = Some a → new = Some a.

(** One of the two fee regimes, complete. *)
Definition one_regime (args : TransactionArgs) : Prop :=
  (∃ price, a_GasPrice args = Some price ∧ a_MaxFeePerGas args = None ∧ a_MaxPriorityFeePerGas args = None) ∨
  (∃ fee tip, a_GasPrice args = None ∧ a_MaxFeePerGas args = Some fee ∧ a_MaxPriorityFeePerGas args = Some tip ∧ tip ≤ fee).

Lemma default_fees_regime b head args args' :
  ¬ (is_Some (a_GasPrice args) ∧ (is_Some (a_MaxFeePerGas args) ∨ is_Some (a_MaxPriorityFeePerGas args))) →
  default_fees b head args = Ok args' →
  one_regime args' ∧ kept (a_GasPrice args) (a_GasPrice args') ∧ kept (a_MaxFeePerGas args) (a_MaxFeePerGas args') ∧
  kept (a_MaxPriorityFeePerGas args) (a_MaxPriorityFeePerGas args') ∧
  args' = set_fees args (a_GasPrice args') (a_MaxFeePerGas args') (a_MaxPriorityFeePerGas args').
Proof.
  destruct args as [from to gas price fee tip value nonce data input al chain]. cbn. intros Hno. unfold default_fees, kept, one_regime. cbn.
  intros H. assert (price = None ∨ (fee = None ∧ tip = None)) as Hp.
  { destruct price as [p|]; [right|by left]. destruct fee, tip; try done; exfalso; apply Hno; (split; [by eexists|]); eauto. }
  destruct tip as [tip|], fee as [fee|], (h_BaseFee head) as [base|], price as [price|]; cbn in H;
    repeat case_bool_decide; try done;
    try (destruct Hp as [[=]|[[=] [=]]]; done);
    try (destruct (SuggestGasTipCap b _) as [t|e|e] eqn:Es; cbn in H; try done);
    repeat case_bool_decide; simplify_eq/=; try naive_solver lia.
Qed.

(** Every field that is left open is filled. *)
Definition complete (args : TransactionArgs) : Prop :=
  is_Some (a_Value args) ∧ is_Some (a_Nonce args) ∧ is_Some (a_Gas args) ∧ is_Some (a_ChainID args) ∧ one_regime args.

(** What the caller gave is kept. *)
Definition extends (args args' : TransactionArgs) : Prop :=
  kept (a_GasPrice args) (a_GasPrice args') ∧ kept (a_MaxFeePerGas args) (a_MaxFeePerGas args') ∧
  kept (a_MaxPriorityFeePerGas args) (a_MaxPriorityFeePerGas args') ∧ kept (a_Value args) (a_Value args') ∧
  kept (a_Nonce args) (a_Nonce args') ∧ kept (a_Gas args) (a_Gas args') ∧ kept (a_ChainID args) (a_ChainID args') ∧
  a_From args' = a_From args ∧ a_To args' = a_To args ∧ a_Data args' = a_Data args ∧ a_Input args' = a_Input args ∧
  a_AccessList args' = a_AccessList args.

Lemma default_nonce_kept b args nonce : default_nonce q b args = Ok nonce → kept (a_Nonce args) (Some nonce).
Proof. unfold default_nonce. intros H n E. rewrite E in H. by injection H as <-. Qed.

Lemma kept_default {A} (o : option A) d : kept o (Some (default d o)).
Proof. by intros a ->. Qed.

Lemma gas_kept {A} (o : option A) (m : res error A) gas :
  match o with Some gas => Ok gas | None => m end = Ok gas → kept o (Some gas) ∧ (o = None → m = Ok gas).
Proof. destruct o; [intros [= <-]; by split; [intros ? [= <-]|]|by split; [intros ? [=]|]]. Qed.

(** Data and input agree when both are given, so a creation carries its code
    wherever it was given. *)
Lemma creation_has_code args :
  match a_Data args, a_Input args with Some data, Some input => bool_decide (data ≠ input) | _, _ => false end = false →
  ¬ (a_To args = None ∧ creation_data args = []) → a_To args = None → GetData args ≠ [].
Proof.
  intros Heq Hno Hto Hd. apply Hno. split; [done|]. unfold creation_data, GetData in *.
  destruct (a_Data args) as [data|], (a_Input args) as [input|]; cbn in *; try done.
  apply bool_decide_eq_false in Heq. destruct (decide (data = input)); [congruence|by destruct Heq].
Qed.

(** C30. SetTxDefaults completes a transaction: value, nonce, gas and chain id are
    set, and the fees are of exactly one regime, a gas price alone, or a fee cap that
    is at least the tip.  What the caller gave is kept, a creation carries code, the
    missing gas is what the node estimates for the completed arguments, and the
    result is never refused as a message; the transaction built from it has the type
    of its fees. *)
Theorem SetTxDefaults_complete b args args' :
  SetTxDefaults caller q b args = Ok args' →
  complete args' ∧ extends args args' ∧ (a_To args' = None → GetData args' ≠ []) ∧
  (a_Gas args = None → ∃ args0, extends args args0 ∧ a_Gas args0 = None ∧ one_regime args0 ∧
    EstimateGas q b (estimate_args args0) (Some (NewBlockNumber 0)) = (Ok (default 0 (a_Gas args')))) ∧
  (∀ cap, is_ok (ToMessage args' cap) = true) ∧
  match tm_Data (ToTransaction args') with
  | DynamicFeeTx _ _ _ _ fee tip _ _ _ => fee = a_MaxFeePerGas args' ∧ tip = a_MaxPriorityFeePerGas args' ∧ is_Some fee ∧ is_Some tip
  | AccessListTx _ _ _ _ price _ _ _ | LegacyTx _ _ _ price _ _ => price = a_GasPrice args' ∧ is_Some price
  end.
Proof.
  unfold SetTxDefaults. case_bool_decide as Hno; [done|].
  intros (head & _ & (args1 & Hf & (nonce & Hn & H)%res_bind_ok)%res_bind_ok)%res_bind_ok.
  destruct (default_fees_regime _ _ _ _ Hno Hf) as (Hreg & K1 & K2 & K3 & Hset). apply default_nonce_kept in Hn.
  destruct (match a_Data _, a_Input _ with Some _, Some _ => _ | _, _ => _ end) eqn:Hd in H; [done|].
  case_bool_decide as Hc; [done|]. apply res_bind_ok in H as (gas & [Hg He]%gas_kept & [= <-]).
  pose proof (creation_has_code _ Hd Hc) as Hcode. rewrite Hset in *. destruct args, args1; cbn in *.
  split; [|split; [|split; [done|split; [|split]]]].
  - split_and!; cbn; eauto.
  - split_and!; cbn; try done; by intros ? ->.
  - intros Hgas. eexists. split_and!; [| | |by apply He]; cbn; try done. split_and!; cbn; try done; by intros ? ->.
  - intros cap. unfold ToMessage. cbn. rewrite bool_decide_eq_false_2; [done|]. unfold one_regime in Hreg. cbn in Hreg.
    intros [[? Hp] [[? Hm]|[? Hm]]]; naive_solver.
  - unfold one_regime in Hreg. cbn in Hreg. destruct Hreg as [(p & -> & -> & ->)|(fee & tip & -> & -> & -> & _)]; cbn; [|by eauto].
    by destruct a_AccessList0.
Qed.

(** ** Nonces *)

Definition sent_by b (addr : Address) (m : MsgEthereumTx) : Prop :=
  msg_GetSenderLegacy m (LatestSignerForChainID (ChainID b)) = Ok addr.
#[local] Instance sent_by_dec b addr m : Decision (sent_by b addr m).
Proof.
  unfold sent_by. destruct (msg_GetSenderLegacy _ _) as [a|e|p]; [destruct (decide (a = addr)); [left|right]; congruence|right..]; done.
Defined.

(** The pending messages of a sender: those of the Ethereum messages that open a
    transaction. *)
Definition pending_of b addr (txs : list sdk_Tx) : list MsgEthereumTx :=
  filter (sent_by b addr) (mjoin ((λ tx, leading_eth (GetMsgs tx)) <$> txs)).

Lemma uint64_add a c : uint64 (uint64 a + c) = uint64 (a + c).
Proof. unfold uint64. by rewrite Zplus_mod_idemp_l. Qed.

(** Recovering the sender of a message does not panic. *)
Definition recoverable b (m : MsgEthereumTx) : Prop := ∀ p, msg_GetSenderLegacy m (LatestSignerForChainID (ChainID b)) ≠ Panic p.

Lemma count_sender_spec b addr msgs n :
  Forall (recoverable b) (leading_eth msgs) → uint64 n = n →
  count_sender (ChainID b) addr msgs n = Ok (uint64 (n + Z.of_nat (length (filter (sent_by b addr) (leading_eth msgs))))).
Proof.
  revert n. induction msgs as [|msg msgs IH]; intros n Hp Hn; cbn; [by rewrite Z.add_0_r, Hn|].
  destruct msg as [m|o]; [|cbn; by rewrite Z.add_0_r, Hn]. rewrite filter_cons. apply Forall_cons in Hp as [Hm Hp].
  destruct (msg_GetSenderLegacy m (LatestSignerForChainID (ChainID b))) as [a|e|p] eqn:E; [| |by apply Hm in E].
  - case_bool_decide as Ha.
    + subst a. rewrite decide_True by done. rewrite IH by (done || unfold uint64; by rewrite Zmod_mod). rewrite uint64_add. cbn. do 2 f_equal. lia.
    + rewrite decide_False by (unfold sent_by; congruence). by apply IH.
  - rewrite decide_False by (unfold sent_by; congruence). by apply IH.
Qed.

Lemma count_pending b addr txs n :
  Forall (recoverable b) (mjoin ((λ tx, leading_eth (GetMsgs tx)) <$> txs)) → uint64 n = n →
  res_foldl (λ nonce tx, count_sender (ChainID b) addr (GetMsgs tx) nonce) n txs =
  Ok (uint64 (n + Z.of_nat (length (pending_of b addr txs)))).
Proof.
  revert n. induction txs as [|tx txs IH]; intros n Hp Hn; cbn [res_foldl]; [cbn; by rewrite Z.add_0_r, Hn|].
  cbn in Hp. apply Forall_app in Hp as [Hm Hp].
  rewrite count_sender_spec by done. cbn. rewrite IH by (done || unfold uint64; by rewrite Zmod_mod). rewrite uint64_add.
  unfold pending_of. cbn. rewrite filter_app, length_app. f_equal. f_equal. rewrite Nat2Z.inj_add. symmetry. apply Z.add_assoc.
Qed.

(** The nonce of an account: 0 for an account the chain does not know; its
    sequence; and for the pending block the sequence plus the number of messages of
    the sender among the Ethereum messages that open a pending transaction, in 64
    bits, or the sequence alone when the mempool cannot be read. *)
Theorem account_nonce_exact b addr pending height :
  (∀ txs, PendingTransactions b = Ok txs → Forall (recoverable b) (mjoin ((λ tx, leading_eth (GetMsgs tx)) <$> txs))) →
  match q_AuthAccount q (ContextWithHeightFrom height) (AccAddress_String addr) with
  | Err NotFound => getAccountNonce q b addr pending height = Ok 0
  | Ok (Ok seq) =>
      uint64 seq = seq →
      getAccountNonce q b addr pending height =
        Ok (match pending, PendingTransactions b with
            | true, Ok txs => uint64 (seq + Z.of_nat (length (pending_of b addr txs)))
            | _, _ => seq
            end) ∨ (pending = true ∧ ∃ p, PendingTransactions b = Panic p)
  | _ => is_ok (getAccountNonce q b addr pending height) = false
  end.
Proof.
  intros Hp. unfold getAccountNonce.
  destruct (q_AuthAccount _ _ _) as [[seq|e|p]|[|e]|p]; try done. cbn. intros Hs. destruct pending; cbn; [|by left].
  destruct (PendingTransactions b) as [txs|e|p]; [left|by left|right; eauto]. rewrite count_pending; auto.
Qed.

(** ** Prices *)

(** The suggested price is never below the minimum the chain asks for. *)
Theorem GasPrice_minimum b price :
  GasPrice caller q b = Ok price → ∃ minimum, q_MinGasPrice q = Ok minimum ∧ TruncateInt minimum ≤ price.
Proof.
  unfold GasPrice. intros (head & _ & (result & _ & (minimum & Hm & H)%res_bind_ok)%res_bind_ok)%res_bind_ok.
  exists minimum. unfold lib in Hm. destruct (q_MinGasPrice q) as [m|e|p]; try done. cbn in Hm. injection Hm as ->. split; [done|].
  injection H as <-. case_bool_decide; lia.
Qed.

(** The height that the default estimate asks for: the number 0 stands for the first
    block, not for the latest one. *)
Lemma default_estimate_block : Int64 (NewBlockNumber 0) = 1 ∧ Int64 EthLatestBlockNumber = 0.
Proof. done. Qed.

(** ** Pages of storage *)

(** The slots from a key on, in the order of their keys. *)
Definition slots_from (start : bytes) (items : list storageItem) : list storageItem :=
  match start with [] => items | _ => filter (λ item, bytes_le (BytesToHash start) (si_key item)) items end.

Definition slot_lt (a b : storageItem) : Prop := bytes_lt (si_key a) (si_key b).

Definition slot_map (items : list storageItem) : gmap Hash Hash := list_to_map ((λ item, (si_key item, si_value item)) <$> items).

Lemma slots_from_hash h items : is_hash h → slots_from h items = filter (λ x, bytes_le h (si_key x)) items.
Proof. intros Hh. unfold slots_from. rewrite BytesToHash_id by done. destruct h; [by destruct Hh|done]. Qed.

Lemma sorted_from_drop (items : list storageItem) k item h :
  StronglySorted slot_lt items → items !! k = Some item → si_key item = h →
  filter (λ x, bytes_le h (si_key x)) items = drop k items.
Proof.
  intros Hs Hk <-. revert k Hk. induction Hs as [|x items Hs IH Hx]; intros k; [done|]. rewrite Forall_forall in Hx.
  rewrite filter_cons. destruct k as [|k]; cbn.
  - intros [= ->]. rewrite decide_True by reflexivity. f_equal. apply list_filter_all.
    intros y Hy. by apply bytes_lt_le, Hx.
  - intros Hk. pose proof (Hx _ (list_elem_of_lookup_2 _ _ _ Hk)) as Hlt. rewrite decide_False; [by apply IH|].
    rewrite bytes_le_lt. intros Hn. by apply Hn.
Qed.

Lemma sorted_filter (P : storageItem → Prop) `{∀ x, Decision (P x)} items : StronglySorted slot_lt items → StronglySorted slot_lt (filter P items).
Proof.
  induction 1 as [|x items Hs IH Hx]; [constructor|]. rewrite filter_cons. case_decide; [|done]. constructor; [done|].
  rewrite Forall_forall in Hx |- *. intros y [_ Hy]%list_elem_of_filter. by apply Hx.
Qed.

Lemma sort_strict (sort : list storageItem → list storageItem) items :
  sort items ≡ₚ items → StronglySorted item_le (sort items) → NoDup (si_key <$> items) → StronglySorted slot_lt (sort items).
Proof.
  intros Hp Hs Hnd. assert (NoDup (si_key <$> sort items)) as Hn by by rewrite Hp.
  clear Hp Hnd. induction Hs as [|x l Hs IH Hx]; [constructor|]. rewrite fmap_cons, NoDup_cons in Hn. destruct Hn as [Hnin Hn].
  constructor; [by apply IH|]. rewrite Forall_forall in Hx |- *. intros y Hy.
  destruct (bytes_lt_total (si_key x) (si_key y)) as [?|[E|L]]; [done| |by specialize (Hx _ Hy); apply bytes_le_lt in Hx].
  exfalso. apply Hnin. rewrite E. by apply list_elem_of_fmap_2.
Qed.

Lemma fold_slots page : NoDup (si_key <$> page) →
  foldl (λ m item, <[si_key item := si_value item]> m) ∅ page = slot_map page.
Proof.
  intros Hnd. unfold slot_map. assert (NoDup ((λ item, (si_key item, si_value item)) <$> page).*1) as Hnd'.
  { by rewrite <- list_fmap_compose. }
  induction page as [|x page IH] using rev_ind; [done|].
  rewrite foldl_app. cbn. rewrite fmap_app, list_to_map_app. cbn. rewrite !fmap_app in Hnd'. rewrite fmap_app in Hnd.
  apply NoDup_app in Hnd as (H1 & H2 & _). apply NoDup_app in Hnd' as (H1' & _). rewrite IH by done. symmetry.
  rewrite <- insert_union_r; [by rewrite map_union_empty|].
  apply not_elem_of_list_to_map_1. rewrite <- list_fmap_compose. intros Hin. eapply H2; [exact Hin|]. by left.
Qed.

Section paging.
Context (sort : list storageItem → list storageItem) (b : Backend) (blk : BlockNumberOrHash) (addr : Address) (maxResult : Z).

(** A client that follows the next keys. *)
Fixpoint read_pages (fuel : nat) (keyStart : bytes) : res error (list StorageRangeResult) :=
  match fuel with
  | O => Err (New "out of fuel")
  | S fuel =>
      let! page := StorageRangeAt q sort b blk addr keyStart maxResult in
      match sr_NextKey page with
      | None => Ok [page]
      | Some key => let! pages := read_pages fuel key in Ok (page :: pages)
      end
  end.

Context (num : Z) (value : bytes) (pairs : list (bytes * bytes)).
Let items := storage_items (AddressStoragePrefix addr) pairs.
Let sorted := sort items.

Hypothesis Hclient : is_Some (client b).
Hypothesis Hnum : BlockNumberFromTendermint b blk = Ok num.
Hypothesis Hvalue : q_Subspace q (Int64 num) (AddressStoragePrefix addr) = Ok value.
Hypothesis Hpairs : unmarshal_pairs value = Ok pairs.
Hypothesis Hwf : ∀ pair, pair ∈ pairs → wf_bytes pair.1.
Hypothesis Hslots : NoDup (si_key <$> items).
Hypothesis Hperm : sort items ≡ₚ items.
Hypothesis Hsort : StronglySorted item_le (sort items).
Hypothesis Hmax : 0 < maxResult.
Hypothesis Hnonempty : value ≠ [].

Lemma range_page keyStart : StorageRangeAt q sort b blk addr keyStart maxResult = Ok (storage_page sorted keyStart maxResult).
Proof.
  destruct Hclient as [c Hc]. unfold StorageRangeAt. rewrite Hnum. cbn. rewrite Hc. cbn. rewrite Hvalue. cbn.
  rewrite bool_decide_eq_false_2 by (intros [?|?]; [done|lia]). by rewrite Hpairs.
Qed.

Lemma slot_key_hash item : item ∈ sorted → is_hash (si_key item).
Proof.
  unfold sorted. rewrite Hperm. unfold items, storage_items. intros (pair & Hin & H)%list_elem_of_omap.
  case_bool_decide; [done|]. injection H as <-. cbn. apply BytesToHash_wf. unfold wf_bytes. apply Forall_drop, Hwf. done.
Qed.

Lemma slots_sorted : StronglySorted slot_lt sorted.
Proof. by apply sort_strict. Qed.

Lemma sorted_keys (l : list storageItem) : StronglySorted slot_lt l → NoDup (si_key <$> l).
Proof.
  intros Hs. apply bytes_sorted_NoDup. induction Hs as [|x l Hs IH Hx]; [constructor|]. constructor; [done|]. by apply Forall_fmap.
Qed.

(** The slots after a page are the slots from its next key on. *)
Lemma next_slots keyStart k item :
  slots_from keyStart sorted !! k = Some item → slots_from (si_key item) sorted = drop k (slots_from keyStart sorted).
Proof.
  intros Hk. assert (item ∈ slots_from keyStart sorted) as Hin by by eapply list_elem_of_lookup_2.
  assert (item ∈ sorted) as Hin' by (destruct keyStart; [done|]; by apply list_elem_of_filter in Hin as [_ Hin]).
  pose proof (slot_key_hash _ Hin') as Hh.
  rewrite slots_from_hash by done. remember (si_key item) as h eqn:Eh.
  pose proof slots_sorted as Hs. destruct keyStart as [|z s]; cbn in *; [by eapply sorted_from_drop|].
  rewrite <- (sorted_from_drop _ _ _ h (sorted_filter _ _ Hs) Hk) by done. symmetry. apply list_filter_filter_l.
  intros x Hx. apply list_elem_of_filter in Hin as [Hle _]. subst h. by trans (si_key item).
Qed.

Lemma slots_from_sorted keyStart : StronglySorted slot_lt (slots_from keyStart sorted).
Proof. destruct keyStart; [apply slots_sorted|apply sorted_filter, slots_sorted]. Qed.

Lemma page_cases keyStart :
  let F := slots_from keyStart sorted in
  storage_page sorted keyStart maxResult =
    if bool_decide (maxResult < Z.of_nat (length F)) then mkStorageRange (slot_map (take (Z.to_nat maxResult) F)) (si_key <$> F !! Z.to_nat maxResult)
    else mkStorageRange (slot_map F) None.
Proof.
  intros F. pose proof (sorted_keys _ (slots_from_sorted keyStart)) as Hn. fold F in Hn.
  assert (storage_page sorted keyStart maxResult =
    let next := if bool_decide (maxResult < Z.of_nat (length F)) then F !! Z.to_nat maxResult else None in
    let page := if bool_decide (maxResult < Z.of_nat (length F)) then take (Z.to_nat maxResult) F else F in
    mkStorageRange (foldl (λ m item, <[si_key item := si_value item]> m) ∅ page) (si_key <$> next)) as -> by done.
  case_bool_decide; cbn; rewrite fold_slots; try done. rewrite <- (take_drop (Z.to_nat maxResult) F), fmap_app in Hn.
  by apply NoDup_app in Hn as (? & _).
Qed.

Lemma size_slot_map l : NoDup (si_key <$> l) → size (slot_map l) = length l.
Proof.
  intros Hn. unfold slot_map. assert (NoDup ((λ item, (si_key item, si_value item)) <$> l).*1) by by rewrite <- list_fmap_compose.
  rewrite <- length_map_to_list, map_to_list_to_map, length_fmap; done.
Qed.

Lemma slot_map_app l k : slot_map (l ++ k) = slot_map l ∪ slot_map k.
Proof. unfold slot_map. by rewrite fmap_app, list_to_map_app. Qed.

Definition exact_pages (pages : list StorageRangeResult) (F : list storageItem) : Prop :=
  foldr (λ page m, sr_Storage page ∪ m) ∅ pages = slot_map F ∧
  sum_list (size ∘ sr_Storage <$> pages) = length F ∧
  Forall (λ page, Z.of_nat (size (sr_Storage page)) ≤ maxResult) pages.

Lemma read_pages_exact fuel keyStart :
  (length (slots_from keyStart sorted) < fuel)%nat →
  ∃ pages, read_pages fuel keyStart = Ok pages ∧ exact_pages pages (slots_from keyStart sorted).
Proof.
  revert keyStart. induction fuel as [|fuel IH]; intros keyStart Hf; [lia|]. cbn [read_pages].
  pose proof (sorted_keys _ (slots_from_sorted keyStart)) as Hn.
  rewrite range_page, page_cases. set (F := slots_from keyStart sorted) in *. cbn [res_bind].
  case_bool_decide as Hlt; cbn [sr_NextKey].
  - destruct (F !! Z.to_nat maxResult) as [item|] eqn:Hi; [|apply lookup_ge_None_1 in Hi; lia]. cbn.
    pose proof (next_slots keyStart _ _ Hi) as Hd. fold F in Hd.
    destruct (IH (si_key item)) as (pages & -> & H1 & H2 & H3). { rewrite Hd, length_drop. lia. }
    cbn. eexists. split; [done|]. rewrite Hd in H1, H2. assert (NoDup (si_key <$> take (Z.to_nat maxResult) F)) as Hn'.
    { rewrite <- (take_drop (Z.to_nat maxResult) F), fmap_app in Hn. by apply NoDup_app in Hn as (? & _). }
    split_and!; cbn.
    + rewrite H1, <- slot_map_app. by rewrite take_drop.
    + rewrite H2, size_slot_map by done. rewrite length_take, length_drop. lia.
    + constructor; [|done]. cbn. rewrite size_slot_map by done. rewrite length_take. lia.
  - eexists. split; [done|]. split_and!; cbn; [by rewrite map_union_empty| |].
    + rewrite size_slot_map by done. lia.
    + constructor; [|constructor]. cbn. rewrite size_slot_map by done. lia.
Qed.

Lemma slot_map_lookup l k v : NoDup (si_key <$> l) → slot_map l !! k = Some v ↔ mkItem k v ∈ l.
Proof.
  intros Hn. unfold slot_map. rewrite <- elem_of_list_to_map by by rewrite <- list_fmap_compose.
  rewrite list_elem_of_fmap. split; [|intros H; by exists (mkItem k v)]. by intros ([] & [= -> ->] & H).
Qed.

(** C31. A client that follows the next keys of debug_storageRangeAt reads every
    slot of the contract from the start key on exactly once: as many requests as
    there are slots, plus one, are enough; the pages together hold exactly the pairs
    of the node whose slot is not before the start; the sizes of the pages add up to
    their number, so no slot is in two pages; and no page exceeds the limit of the
    caller. *)
Theorem storage_pages_exact keyStart :
  ∃ pages, read_pages (S (length sorted)) keyStart = Ok pages ∧
    (∀ slot v, foldr (λ page m, sr_Storage page ∪ m) ∅ pages !! slot = Some v ↔
               mkItem slot v ∈ items ∧ (keyStart = [] ∨ bytes_le (BytesToHash keyStart) slot)) ∧
    sum_list (size ∘ sr_Storage <$> pages) = length (slots_from keyStart items) ∧
    Forall (λ page, Z.of_nat (size (sr_Storage page)) ≤ maxResult) pages.
Proof.
  assert (slots_from keyStart sorted ≡ₚ slots_from keyStart items) as Hp.
  { unfold slots_from. destruct keyStart; [done|]. unfold sorted; by rewrite Hperm. }
  destruct (read_pages_exact (S (length sorted)) keyStart) as (pages & H & H1 & H2 & H3).
  { unfold slots_from. destruct keyStart; [lia|]. pose proof (length_filter (λ item, bytes_le (BytesToHash (z :: keyStart)) (si_key item)) sorted). lia. }
  exists pages. split_and!; [done| |by rewrite H2, Hp|done]. intros slot v. rewrite H1.
  rewrite slot_map_lookup by apply sorted_keys, slots_from_sorted. rewrite Hp. unfold slots_from.
  destruct keyStart; [naive_solver|]. rewrite list_elem_of_filter. cbn. naive_solver.
Qed.
End paging.
End props.

Module Witness.
Import EthInstances IndexerSample BackendSample CodecInstances.

#[local] Instance sample_FeeLib : FeeLib := {| AsFeeTx _ := None; uint64_out_of_range _ := 0 |}.

(** The storage of a contract is answered as pairs of a slot and a value in two bytes. *)
Fixpoint byte_pairs (l : bytes) : list (bytes * bytes) :=
  match l with k :: v :: l => ([7; k], [v]) :: byte_pairs l | _ => [] end.

#[local] Instance sample_CallLib : CallLib := {|
  args_JSON _ := Ok [];
  AccAddress_String _ := "inj1"%string;
  NewIntFromString _ := None;
  ErrExecutionReverted := "execution reverted"%string;
  NewExecErrorWithReason _ := New "execution reverted";
  Transaction_UnmarshalBinary _ := Err "not a transaction"%string;
  FromSignedEthereumTx _ _ := Err "not a transaction"%string;
  ValidateBasic _ := Ok tt;
  BuildTx _ _ := Err "not built"%string;
  TxEncoder _ := Ok [];
  ABCIError _ _ log := New log;
  evm_StoreKey := "evm"%string;
  auth_StoreKey := "acc"%string;
  StateKey a k := a ++ k;
  AddressStoreKeyPrefix := [1];
  AddressStoragePrefix _ := [7];
  MinGasPrices_AmountOf _ := Ok 0;
  DefaultGasPrice := 160000000;
  unmarshal_pairs l := Ok (byte_pairs l);
  LatestSigner_Sender _ := Err "no signature"%string;
  LatestSigner_Hash _ := zero_hash;
  TxData_Transaction _ := sample_eth_tx;
|}.

Definition sample_queries : CallQueries :=
  mkCallQueries (λ _ _, Ok (Ok 5)) (λ _, Ok tt) (λ _ _, Ok (mkCallResponse 21000 EmptyString [])) (λ _ _, Ok (mkCallResponse 21000 EmptyString []))
    (λ _ _, Ok []) (λ _ _ _, Ok EmptyString) (λ _ _, Ok EmptyString) (λ _ _, Err "no account"%string) (λ _ _ _, Err "no proof"%string)
    (Ok "inj"%string) (Ok (2 * 10 ^ 26)) (λ _ _, Ok [3; 30; 1; 10; 2; 20]) (λ _, (None, None)).

Definition transfer : TransactionArgs :=
  mkArgs (Some (be_bytes 20 5)) (Some (be_bytes 20 6)) (Some 21000) None None None None None None None None None.

Definition completed : TransactionArgs :=
  Eval vm_compute in match SetTxDefaults "0x01" sample_queries sample_backend transfer with Ok args => args | _ => transfer end.

Lemma SetTxDefaults_complete_witness : complete completed ∧ extends transfer completed ∧ a_Nonce completed = Some 5.
Proof.
  assert (SetTxDefaults "0x01" sample_queries sample_backend transfer = Ok completed) as H by (vm_compute; reflexivity).
  destruct (SetTxDefaults_complete "0x01" sample_queries sample_backend transfer completed H) as (Hc & He & _).
  split; [exact Hc|]. split; [exact He|reflexivity].
Defined.

(** The sample transaction waits twice in the mempool. *)
Definition busy_backend : Backend :=
  mkBackend sample_config (Some 1776)
    (Some (mkClient (λ _, Err "not found"%string) (λ _, Ok None) (λ _, Err "not found"%string) (λ _, Ok []) (Ok [[1]; [2]; [1]])
      (λ _, Ok 50000000) (Ok (mkSyncInfo false 1 12)))) silent_queries None.

Lemma account_nonce_exact_witness : getAccountNonce sample_queries busy_backend (be_bytes 20 8) true 0 = Ok 7.
Proof.
  assert (∀ txs, PendingTransactions busy_backend = Ok txs →
    Forall (recoverable busy_backend) (mjoin ((λ tx, leading_eth (GetMsgs tx)) <$> txs))) as Hp.
  { intros txs H. vm_compute in H. injection H as <-. repeat constructor; intros p Hx; vm_compute in Hx; discriminate. }
  pose proof (account_nonce_exact sample_queries busy_backend (be_bytes 20 8) true 0 Hp eq_refl) as H.
  destruct H as [H|[_ [p H]]]; [rewrite H; vm_compute; reflexivity|vm_compute in H; discriminate].
Defined.

Lemma GasPrice_minimum_witness : TruncateInt (2 * 10 ^ 26) ≤ 200000000.
Proof.
  assert (GasPrice "0x01" sample_queries sample_backend = Ok 200000000) as H by (vm_compute; reflexivity).
  destruct (GasPrice_minimum "0x01" sample_queries sample_backend 200000000 H) as (m & [= <-] & Hm). exact Hm.
Defined.

(** Three slots in pages of two. *)
Lemma storage_pages_exact_witness :
  ∃ pages, read_pages sample_queries (merge_sort item_le) sample_backend (mkBNH (Some 12) None) (be_bytes 20 5) 2 4 [] = Ok pages ∧
    sum_list (size ∘ sr_Storage <$> pages) = 3%nat.
Proof.
  destruct (storage_pages_exact sample_queries (merge_sort item_le) sample_backend (mkBNH (Some 12) None) (be_bytes 20 5) 2 12
    [3; 30; 1; 10; 2; 20] [([7; 3], [30]); ([7; 1], [10]); ([7; 2], [20])]) with (keyStart := @nil Z) as (pages & H1 & _ & H2 & _).
  - eexists. reflexivity.
  - reflexivity.
  - reflexivity.
  - reflexivity.
  - intros pair Hin. repeat (apply elem_of_cons in Hin as [->|Hin]; [repeat constructor; lia|]). by apply elem_of_nil in Hin.
  - apply (bool_decide_unpack _). vm_compute. exact I.
  - apply merge_sort_Permutation.
  - apply StronglySorted_merge_sort; apply _.
  - lia.
  - done.
  - exists pages. split; [exact H1|exact H2].
Defined.
End Witness.
End BackendCallProps.
