(* ===== verification/Decimals.v ===== *)
(** * Decimal numbers as text

    Printing with strconv.Itoa and reading back with strconv and math/big, and texts
    that strings.TrimSpace leaves alone. *)

From Stdlib Require Import Ascii String.
From S2P Require Import Prelude Bytes GoLib Indexer.
From stdpp Require Import strings list pretty.
#[local] Open Scope Z_scope.

Module Decimals.
Import GoLib Indexer.

(** ** Text without white space *)

Definition is_graphic (b : Z) : Prop := 33 ≤ b ≤ 127.
Definition graphic (s : string) : Prop := Forall is_graphic (string_bytes s).

(** The first byte is graphic. *)
Definition starts_graphic (l : bytes) : Prop := match l with [] => True | b :: _ => is_graphic b end.

Lemma graphic_starts l : Forall is_graphic l → starts_graphic l.
Proof. by destruct 1. Qed.

Lemma strip_one_graphic pre l :
  Forall (λ w : bytes, match w with [] => False | b :: _ => ¬ is_graphic b end) pre → starts_graphic l → strip_one pre l = None.
Proof.
  intros Hp Hl. unfold strip_one. destruct (filter _ pre) as [|w ws] eqn:E; [done|]. exfalso.
  assert (w ∈ filter (λ w, bool_decide (take (length w) l = w) = true) pre) as [Ht Hw]%list_elem_of_filter by (rewrite E; by left).
  apply bool_decide_eq_true in Ht. rewrite Forall_forall in Hp. specialize (Hp _ Hw). revert Ht.
  destruct w as [|b w]; [done|]. destruct l as [|x l]; cbn; [done|]. by intros [= -> _].
Qed.

Lemma strip_graphic n pre l :
  Forall (λ w : bytes, match w with [] => False | b :: _ => ¬ is_graphic b end) pre → starts_graphic l → strip n pre l = l.
Proof. intros Hp Hl. destruct n; [done|]. cbn. by rewrite strip_one_graphic. Qed.

Lemma white_space_heads : Forall (λ w : bytes, match w with [] => False | b :: _ => ¬ is_graphic b end) white_space.
Proof. repeat constructor; unfold is_graphic; lia. Qed.

Lemma white_space_lasts : Forall (λ w : bytes, match w with [] => False | b :: _ => ¬ is_graphic b end) (reverse <$> white_space).
Proof. repeat constructor; unfold is_graphic; cbn; lia. Qed.

Lemma TrimSpace_ends s : starts_graphic (string_bytes s) → starts_graphic (reverse (string_bytes s)) → strings_TrimSpace s = s.
Proof.
  intros Hs Hr. unfold strings_TrimSpace. cbn zeta. rewrite (strip_graphic _ white_space) by (done || apply white_space_heads).
  rewrite strip_graphic; [by rewrite reverse_involutive, bytes_string_bytes|apply white_space_lasts|done].
Qed.

Lemma TrimSpace_graphic s : graphic s → strings_TrimSpace s = s.
Proof. intros Hs. apply TrimSpace_ends; apply graphic_starts; [done|by apply Forall_reverse]. Qed.

(** ** Digits *)

Lemma digit_char d : (d < 10)%N → digit_value (pretty.pretty_N_char d) = Some (Z.of_N d).
Proof. intros Hd. destruct d as [|p]; [done|]. do 4 (destruct p as [p|p|]; try done; try lia). Qed.

Lemma digits_go x s : digits_value 0 (list_ascii_of_string (pretty.pretty_N_go x s)) = digits_value (Z.of_N x) (list_ascii_of_string s).
Proof.
  revert s. induction (N.lt_wf_0 x) as [x _ IH]; intros s.
  assert (x = 0 ∨ 0 < x)%N as [->|Hx] by lia; [by rewrite pretty.pretty_N_go_0|].
  rewrite pretty.pretty_N_go_step by done. rewrite IH by by apply N.div_lt. cbn [list_ascii_of_string digits_value].
  rewrite digit_char by by apply N.mod_lt. f_equal. pose proof (N.div_mod x 10). lia.
Qed.

Lemma graphic_go x s : graphic s → graphic (pretty.pretty_N_go x s).
Proof.
  revert s. induction (N.lt_wf_0 x) as [x _ IH]; intros s Hs.
  assert (x = 0 ∨ 0 < x)%N as [->|Hx] by lia; [by rewrite pretty.pretty_N_go_0|].
  rewrite pretty.pretty_N_go_step by done. apply IH; [by apply N.div_lt|]. unfold graphic.
  change (string_bytes (String ?c s)) with (byte_of_ascii c :: string_bytes s). apply Forall_cons. split; [|done].
  unfold pretty.pretty_N_char, is_graphic. repeat case_match; vm_compute; split; discriminate.
Qed.

Lemma Itoa_N n : strconv_Itoa (Z.of_N n) = pretty.pretty_N n.
Proof. by destruct n. Qed.

Lemma Itoa_nonneg z : 0 ≤ z → strconv_Itoa z = pretty.pretty_N (Z.to_N z).
Proof. intros Hz. rewrite <- Itoa_N. by rewrite Z2N.id. Qed.

Lemma pretty_go_nonempty x s : s ≠ EmptyString → pretty.pretty_N_go x s ≠ EmptyString.
Proof.
  revert s. induction (N.lt_wf_0 x) as [x _ IH]; intros s Hs.
  assert (x = 0 ∨ 0 < x)%N as [->|Hx] by lia; [by rewrite pretty.pretty_N_go_0|].
  rewrite pretty.pretty_N_go_step by done. apply IH; [by apply N.div_lt|done].
Qed.

Lemma pretty_N_nonempty n : pretty.pretty_N n ≠ EmptyString.
Proof. unfold pretty.pretty_N. case_decide; [done|]. rewrite pretty.pretty_N_go_step by lia. by apply pretty_go_nonempty. Qed.

Lemma Itoa_nonempty z : strconv_Itoa z ≠ EmptyString.
Proof. unfold strconv_Itoa. destruct z as [|p|p]; [done|apply pretty_N_nonempty|done]. Qed.

Lemma graphic_pretty_N n : graphic (pretty.pretty_N n).
Proof.
  unfold pretty.pretty_N. case_decide; [|by apply graphic_go; constructor].
  repeat constructor; vm_compute; discriminate.
Qed.

Lemma Itoa_graphic z : graphic (strconv_Itoa z).
Proof.
  destruct z as [|p|p]; [|apply graphic_pretty_N|].
  - repeat constructor; vm_compute; discriminate.
  - unfold graphic, strconv_Itoa. change (pretty (Z.neg p)) with (String "-" (pretty.pretty_N (N.pos p))).
    change (string_bytes (String ?c ?s)) with (byte_of_ascii c :: string_bytes s). apply Forall_cons.
    split; [vm_compute; split; discriminate|apply graphic_pretty_N].
Qed.

Lemma parse_Itoa z : 0 ≤ z → parse_digits (strconv_Itoa z) = Some z.
Proof.
  intros Hz. rewrite Itoa_nonneg by done. unfold parse_digits.
  destruct (pretty.pretty_N (Z.to_N z)) eqn:E; [by apply pretty_N_nonempty in E|]. rewrite <- E.
  unfold pretty.pretty_N. case_decide as H0; [vm_compute; f_equal; lia|]. rewrite digits_go. cbn. f_equal. lia.
Qed.

(** The first character of a number that is not negative is a digit. *)
Lemma Itoa_unsigned z : 0 ≤ z → ∃ c s, strconv_Itoa z = String c s ∧ c ≠ "-"%char ∧ c ≠ "+"%char.
Proof.
  intros Hz. pose proof (parse_Itoa z Hz) as Hp. destruct (strconv_Itoa z) as [|c s]; [done|]. exists c, s.
  split; [done|]. cbn in Hp. destruct (digit_value c) as [d|] eqn:Ed; [|done]. split; intros ->; done.
Qed.

Lemma big_SetString_Itoa z : 0 ≤ z → big_SetString (strconv_Itoa z) = Some z.
Proof.
  intros Hz. destruct (Itoa_unsigned z Hz) as (c & s & E & H1 & H2). pose proof (parse_Itoa z Hz) as Hp. rewrite E in Hp |- *.
  unfold big_SetString. by rewrite !bool_decide_eq_false_2.
Qed.

Lemma Atoi_Itoa z : 0 ≤ z < 2 ^ 63 → strconv_Atoi (strconv_Itoa z) = Ok z.
Proof.
  intros Hz. destruct (Itoa_unsigned z ltac:(lia)) as (c & s & E & H1 & H2). pose proof (parse_Itoa z ltac:(lia)) as Hp.
  rewrite E in Hp |- *. unfold strconv_Atoi. rewrite !bool_decide_eq_false_2 by done. rewrite Hp.
  rewrite bool_decide_eq_true_2; [done|]. unfold is_int64. lia.
Qed.

(** A number has only digits: any other byte is absent. *)
Lemma digits_value_bytes acc l n c : digits_value acc l = Some n → c ∈ l → is_Some (digit_value c).
Proof.
  revert acc. induction l as [|x l IH]; intros acc; cbn; [by rewrite elem_of_nil|].
  destruct (digit_value x) eqn:E; [|done]. intros H [->|Hin]%elem_of_cons; [by eexists|by eapply IH].
Qed.

Lemma Itoa_no_byte z c : 0 ≤ z → digit_value c = None → c ∉ list_ascii_of_string (strconv_Itoa z).
Proof.
  intros Hz Hc Hin. pose proof (parse_Itoa z Hz) as Hp. unfold parse_digits in Hp.
  destruct (strconv_Itoa z) eqn:E; [done|]. rewrite <- E in *. destruct (digits_value_bytes _ _ _ _ Hp Hin). congruence.
Qed.
End Decimals.
