(* ===== verification/AppConfig.v ===== *)
(** * Configuration

    src/internal/config/config.go: the configuration of the gateway, the .env file, the
    overrides of the environment, normalization and validation.  The environment of
    the process is part of the state.  A file is the list of lines bufio.Scanner
    yields with the error that ended the scan; the parsers of durations, floats and
    coins, the home directory and filepath.Join are parameters. *)

From Stdlib Require Import Ascii String SpecFloat.
From S2P Require Import Prelude Bytes GoLib Indexer BackendFees.
From stdpp Require Import strings list gmap.
#[local] Open Scope Z_scope.

Module AppConfig.
Import GoLib Indexer BackendFees.

(** ** Strings *)

(** strings.Cut: the text before the first separator and the text after it. *)
Fixpoint cut_at (sep : ascii) (s : string) : option (string * string) :=
  match s with
  | EmptyString => None
  | String c s' =>
      if bool_decide (c = sep) then Some (EmptyString, s')
      else match cut_at sep s' with Some (a, b) => Some (String c a, b) | None => None end
  end.

(** strings.Split with a one-byte separator. *)
Fixpoint split_at (sep : ascii) (s : string) : list string :=
  match s with
  | EmptyString => [EmptyString]
  | String c s' =>
      if bool_decide (c = sep) then EmptyString :: split_at sep s'
      else match split_at sep s' with
           | part :: parts => String c part :: parts
           | [] => [String c EmptyString]
           end
  end.

(** strings.Trim with a cutset of one byte. *)
Fixpoint trim_left (c : ascii) (l : list ascii) : list ascii :=
  match l with
  | c' :: l' => if bool_decide (c' = c) then trim_left c l' else l
  | [] => []
  end.
Definition trim_byte (c : ascii) (s : string) : string :=
  string_of_list_ascii (reverse (trim_left c (reverse (trim_left c (list_ascii_of_string s))))).

Definition quote : ascii := "034".
Definition nul : ascii := "000".

Definition lower_ascii (c : ascii) : ascii :=
  let n := nat_of_ascii c in if bool_decide (65 ≤ n ≤ 90)%nat then ascii_of_nat (n + 32) else c.

(** strings.ToLower on ASCII letters; other bytes are kept. *)
Fixpoint strings_ToLower (s : string) : string :=
  match s with EmptyString => EmptyString | String c s' => String (lower_ascii c) (strings_ToLower s') end.

Definition has_byte (c : ascii) (s : string) : bool := bool_decide (c ∈ list_ascii_of_string s).

(** ** Data *)

Definition seconds (n : Z) : Z := n * 10 ^ 9.
Definition DefaultTraceTimeoutCap : Z := seconds 30.
Definition envPrefix : string := "WEB3INJ_".

Record JSONRPCConfig := mkJSONRPC {
  j_Enable : bool;
  j_API : list string;
  j_Address : string;
  j_WsAddress : string;
  j_EnableUnsafeCors : bool;
  j_GasCap : Z;
  j_EVMTimeout : Z;
  j_TraceTimeoutCap : Z;
  j_TxFeeCap : float64;
  j_FilterCap : Z;
  j_FeeHistoryCap : Z;
  j_LogsCap : Z;
  j_BlockRangeCap : Z;
  j_HTTPTimeout : Z;
  j_HTTPIdleTimeout : Z;
  j_AllowUnprotectedTx : bool;
  j_MaxOpenConnections : Z;
  j_ReturnDataLimit : Z;
}.

Record TracingConfig := mkTracing {
  t_Enabled : bool;
  t_CollectorDSN : string;
  t_CollectorAuthorization : string;
  t_CollectorAuthorizationField : string;
  t_CollectorEnableTLS : bool;
  t_ClusterID : string;
}.

Record Config := mkConfig {
  c_Env : string;
  c_LogFormat : string;
  c_LogVerbose : bool;
  c_ChainID : string;
  c_EVMChainID : string;
  c_CometRPC : string;
  c_CometBroadcastRPC : string;
  c_GRPCAddr : string;
  c_Earliest : Z;
  c_FetchJobs : Z;
  c_RPCMaxIdleConnsPerHost : Z;
  c_DataDir : string;
  c_DBBackend : string;
  c_AllowGaps : bool;
  c_EnableSync : bool;
  c_ParallelSyncTipAndGaps : bool;
  c_VirtualizeCosmosEvents : bool;
  c_OfflineRPCOnly : bool;
  c_MinGasPrices : string;
  c_JSONRPC : JSONRPCConfig;
  c_Tracing : TracingConfig;
  c_ShutdownTimeout : Z;
}.

Definition DefaultConfig : Config :=
  mkConfig "local" "json" false "" "" "http://localhost:26657" "" "localhost:9090" 1 4 0 "~/.evm-gateway" "goleveldb"
    true true true false false "160000000inj"
    (mkJSONRPC true ["eth"; "net"; "web3"] "0.0.0.0:8545" "0.0.0.0:8546" false 25000000 (seconds 5) DefaultTraceTimeoutCap
       (float_of_int 1) 200 100 10000 10000 (seconds 30) (seconds 120) false 0 512000)
    (mkTracing false "" "" "" true "inj") (seconds 10).

(** ** The environment *)

Definition environment : Type := gmap string string.

(** os.Getenv: a variable that is not set reads as empty. *)
Definition Getenv (env : environment) (key : string) : string := default EmptyString (env !! key).

(** os.Setenv: EINVAL for an empty name, an equals sign or a zero byte. *)
Definition Setenv (env : environment) (key value : string) : option environment :=
  if bool_decide (key = EmptyString) || has_byte "=" key || has_byte nul key || has_byte nul value then None
  else Some (<[key := value]> env).

(** The files of the process: what the scanner yields and the error that ended it. *)
Definition files : Type := string → option (list string * option string).

(** The assignment of a line, if it has one. *)
Definition env_assignment (text : string) : option (string * string) :=
  let line := strings_TrimSpace text in
  if bool_decide (line = EmptyString) || strings_HasPrefix line "#" then None
  else match cut_at "=" line with
       | None => None
       | Some (key, value) =>
           let key := strings_TrimSpace key in
           let value := trim_byte quote (strings_TrimSpace value) in
           if bool_decide (key = EmptyString) then None else Some (key, value)
       end.

(** The assignments made before an error stay. *)
Fixpoint env_lines (env : environment) (lines : list string) : environment * option error :=
  match lines with
  | [] => (env, None)
  | line :: lines =>
      match env_assignment line with
      | None => env_lines env lines
      | Some (key, value) =>
          match Setenv env key value with
          | Some env => env_lines env lines
          | None => (env, Some (Wrap "set env %s" (New "invalid argument")))
          end
      end
  end.

Definition loadEnvFile (fs : files) (env : environment) (path : string) : environment * option error :=
  match fs path with
  | None => (env, Some (Wrap "read env file" (New "open")))
  | Some (lines, scanErr) =>
      match env_lines env lines with
      | (env, Some e) => (env, Some e)
      | (env, None) => (env, (λ e, Wrap "scan env file" (New e)) <$> scanErr)
      end
  end.

(** A file that cannot be examined is skipped. *)
Definition loadEnvFileIfExists (fs : files) (env : environment) (path : string) : environment * option error :=
  match fs path with None => (env, None) | Some _ => loadEnvFile fs env path end.

Section overrides.
Context (ParseDuration : string → res string Z) (ParseFloat : string → res string float64) (env : environment).

Definition env_value (key : string) : string := Getenv env (envPrefix ++ key).

Definition getEnvString (key fallback : string) : string :=
  let value := env_value key in if bool_decide (value ≠ EmptyString) then value else fallback.

Definition non_blank (parts : list string) : list string :=
  filter (λ part, part ≠ EmptyString) (strings_TrimSpace <$> parts).

Definition csv (value : string) (fallback : list string) : list string :=
  if bool_decide (value = EmptyString) then fallback
  else match non_blank (split_at "," value) with [] => fallback | out => out end.

Definition getEnvCSV (key : string) (fallback : list string) : list string := csv (env_value key) fallback.

Definition getEnvBool (key : string) (fallback : bool) : bool :=
  let value := strings_ToLower (env_value key) in
  if bool_decide (value ∈ ["true"; "1"; "t"; "yes"; "y"]%string) then true
  else if bool_decide (value ∈ ["false"; "0"; "f"; "no"; "n"]%string) then false
  else fallback.

(** strconv.Atoi and ParseInt(value, 10, 64) accept the same texts. *)
Definition getEnvInt (key : string) (fallback : Z) : Z :=
  match strconv_Atoi (env_value key) with Ok parsed => parsed | _ => fallback end.
Definition getEnvInt64 (key : string) (fallback : Z) : Z := getEnvInt key fallback.

Definition getEnvFloat (key : string) (fallback : float64) : float64 :=
  if bool_decide (env_value key = EmptyString) then fallback
  else match ParseFloat (env_value key) with Ok parsed => parsed | _ => fallback end.

Definition getEnvDuration (key : string) (fallback : Z) : Z :=
  if bool_decide (env_value key = EmptyString) then fallback
  else match ParseDuration (env_value key) with Ok parsed => parsed | _ => fallback end.

Definition applyJSONRPC (j : JSONRPCConfig) : res error JSONRPCConfig :=
  let! cap :=
    if bool_decide (env_value "JSONRPC_TRACE_TIMEOUT_CAP" = EmptyString) then Ok (j_TraceTimeoutCap j)
    else res_map_err (λ e, Wrap "invalid jsonrpc trace-timeout-cap" (New e)) (ParseDuration (env_value "JSONRPC_TRACE_TIMEOUT_CAP")) in
  Ok (mkJSONRPC
    (getEnvBool "JSONRPC_ENABLE" (j_Enable j))
    (getEnvCSV "JSONRPC_API" (j_API j))
    (getEnvString "JSONRPC_ADDRESS" (j_Address j))
    (getEnvString "JSONRPC_WS_ADDRESS" (j_WsAddress j))
    (getEnvBool "JSONRPC_ENABLE_UNSAFE_CORS" (j_EnableUnsafeCors j))
    (uint64 (getEnvInt64 "JSONRPC_GAS_CAP" (int64 (j_GasCap j))))
    (getEnvDuration "JSONRPC_EVM_TIMEOUT" (j_EVMTimeout j))
    cap
    (getEnvFloat "JSONRPC_TXFEE_CAP" (j_TxFeeCap j))
    (int32 (getEnvInt "JSONRPC_FILTER_CAP" (j_FilterCap j)))
    (int32 (getEnvInt "JSONRPC_FEEHISTORY_CAP" (j_FeeHistoryCap j)))
    (int32 (getEnvInt "JSONRPC_LOGS_CAP" (j_LogsCap j)))
    (int32 (getEnvInt "JSONRPC_BLOCK_RANGE_CAP" (j_BlockRangeCap j)))
    (getEnvDuration "JSONRPC_HTTP_TIMEOUT" (j_HTTPTimeout j))
    (getEnvDuration "JSONRPC_HTTP_IDLE_TIMEOUT" (j_HTTPIdleTimeout j))
    (getEnvBool "JSONRPC_ALLOW_UNPROTECTED_TXS" (j_AllowUnprotectedTx j))
    (getEnvInt "JSONRPC_MAX_OPEN_CONNECTIONS" (j_MaxOpenConnections j))
    (getEnvInt64 "JSONRPC_RETURN_DATA_LIMIT" (j_ReturnDataLimit j))).

Definition applyTracing (t : TracingConfig) : TracingConfig :=
  mkTracing (getEnvBool "GOTRACER_ENABLED" (t_Enabled t)) (getEnvString "GOTRACER_COLLECTOR_DSN" (t_CollectorDSN t))
    (getEnvString "GOTRACER_COLLECTOR_AUTHORIZATION" (t_CollectorAuthorization t))
    (getEnvString "GOTRACER_COLLECTOR_AUTHORIZATION_HEADER" (t_CollectorAuthorizationField t))
    (getEnvBool "GOTRACER_COLLECTOR_ENABLE_TLS" (t_CollectorEnableTLS t)) (getEnvString "GOTRACER_CLUSTER_ID" (t_ClusterID t)).

Definition applyEnvOverrides (cfg : Config) : res error Config :=
  let! jsonrpc := applyJSONRPC (c_JSONRPC cfg) in
  Ok (mkConfig
    (getEnvString "ENV" (c_Env cfg))
    (getEnvString "LOG_FORMAT" (c_LogFormat cfg))
    (getEnvBool "LOG_VERBOSE" (c_LogVerbose cfg))
    (getEnvString "CHAIN_ID" (c_ChainID cfg))
    (getEnvString "EVM_CHAIN_ID" (c_EVMChainID cfg))
    (getEnvString "COMET_RPC" (c_CometRPC cfg))
    (getEnvString "COMET_BROADCAST_RPC" EmptyString)
    (getEnvString "GRPC_ADDR" (c_GRPCAddr cfg))
    (getEnvInt64 "EARLIEST_BLOCK" (c_Earliest cfg))
    (getEnvInt "FETCH_JOBS" (c_FetchJobs cfg))
    (getEnvInt "RPC_MAX_IDLE_CONNS_PER_HOST" (c_RPCMaxIdleConnsPerHost cfg))
    (getEnvString "DATA_DIR" (c_DataDir cfg))
    (getEnvString "DB_BACKEND" (c_DBBackend cfg))
    (getEnvBool "ALLOW_GAPS" (c_AllowGaps cfg))
    (getEnvBool "ENABLE_SYNC" (c_EnableSync cfg))
    (getEnvBool "PARALLEL_SYNC_TIP_AND_GAPS" (c_ParallelSyncTipAndGaps cfg))
    (getEnvBool "VIRTUALIZE_COSMOS_EVENTS" (c_VirtualizeCosmosEvents cfg))
    (getEnvBool "OFFLINE_RPC_ONLY" (c_OfflineRPCOnly cfg))
    (getEnvString "MIN_GAS_PRICES" (c_MinGasPrices cfg))
    jsonrpc
    (applyTracing (c_Tracing cfg))
    (getEnvDuration "SHUTDOWN_TIMEOUT" (c_ShutdownTimeout cfg))).
End overrides.

(** ** Normalization and validation *)

Definition with_broadcast (c : Config) (rpc : string) : Config :=
  mkConfig (c_Env c) (c_LogFormat c) (c_LogVerbose c) (c_ChainID c) (c_EVMChainID c) (c_CometRPC c) rpc (c_GRPCAddr c)
    (c_Earliest c) (c_FetchJobs c) (c_RPCMaxIdleConnsPerHost c) (c_DataDir c) (c_DBBackend c) (c_AllowGaps c)
    (c_EnableSync c) (c_ParallelSyncTipAndGaps c) (c_VirtualizeCosmosEvents c) (c_OfflineRPCOnly c) (c_MinGasPrices c)
    (c_JSONRPC c) (c_Tracing c) (c_ShutdownTimeout c).

Definition Normalize (c : Config) : Config :=
  let broadcast := strings_TrimSpace (c_CometBroadcastRPC c) in
  with_broadcast c (if bool_decide (broadcast = EmptyString) then c_CometRPC c else broadcast).

Definition check (bad : bool) (msg : string) : res error unit := if bad then Err (New msg) else Ok tt.

Definition valid_evm_chain_id (id : string) : bool :=
  match big_SetString (strings_TrimSpace id) with Some n => bool_decide (0 < n) | None => false end.

Definition Validate (c : Config) : res error unit :=
  let j := c_JSONRPC c in
  let! _ := check (bool_decide (c_FetchJobs c ≤ 0)) "fetch-jobs must be greater than 0" in
  let! _ := check (bool_decide (c_Earliest c < 0)) "earliest block cannot be negative" in
  let! _ := check (j_Enable j && bool_decide (j_API j = [])) "jsonrpc api list cannot be empty when enabled" in
  let! _ := check (bool_decide (j_FilterCap j < 0) || bool_decide (j_FeeHistoryCap j ≤ 0)) "jsonrpc filter-cap or feehistory-cap invalid" in
  let! _ := check (SFltb (j_TxFeeCap j) (S754_zero false)) "jsonrpc txfee-cap cannot be negative" in
  let! _ := check (bool_decide (j_LogsCap j < 0) || bool_decide (j_BlockRangeCap j < 0)) "jsonrpc logs-cap or block-range-cap invalid" in
  let! _ := check (bool_decide (j_HTTPTimeout j < 0) || bool_decide (j_HTTPIdleTimeout j < 0)) "jsonrpc http timeouts cannot be negative" in
  let! _ := check (bool_decide (j_TraceTimeoutCap j ≤ 0)) "jsonrpc trace-timeout-cap must be positive" in
  let! _ := check (bool_decide (c_ShutdownTimeout c ≤ 0)) "shutdown timeout must be positive" in
  let! _ := check (bool_decide (strings_TrimSpace (c_EVMChainID c) ≠ EmptyString) && negb (valid_evm_chain_id (c_EVMChainID c)))
              "evm-chain-id must be a positive base-10 integer" in
  if c_OfflineRPCOnly c then
    let! _ := check (c_EnableSync c) "offline-rpc-only mode requires enable-sync=false" in
    check (bool_decide (strings_TrimSpace (c_ChainID c) = EmptyString)) "offline-rpc-only mode requires chain-id"
  else Ok tt.

(** The configuration is read over the environment that the file leaves. *)
Definition Load (ParseDuration : string → res string Z) (ParseFloat : string → res string float64)
    (fs : files) (env : environment) (envFile : string) : res error Config * environment :=
  let '(env, err) :=
    if bool_decide (envFile ≠ EmptyString) then loadEnvFile fs env envFile
    else ((loadEnvFileIfExists fs env ".env").1, None) in
  match err with
  | Some e => (Err e, env)
  | None =>
      (let! cfg := applyEnvOverrides ParseDuration ParseFloat env DefaultConfig in
       let cfg := Normalize cfg in
       let! _ := Validate cfg in
       Ok cfg, env)
  end.

(** ** Gas prices and paths *)

Section coins.
Context {DecCoins : Type} (ParseDecCoins : string → res string DecCoins) (DecCoins_String : DecCoins → string) (no_coins : DecCoins).

Definition GetMinGasPrices (c : Config) : res error DecCoins :=
  if bool_decide (c_MinGasPrices c = EmptyString) then Ok no_coins
  else match ParseDecCoins (c_MinGasPrices c) with
       | Ok prices => Ok prices
       | _ => Panic "invalid minimum gas prices: %v"
       end.

Definition SetMinGasPrices (c : Config) (prices : DecCoins) : Config :=
  mkConfig (c_Env c) (c_LogFormat c) (c_LogVerbose c) (c_ChainID c) (c_EVMChainID c) (c_CometRPC c) (c_CometBroadcastRPC c)
    (c_GRPCAddr c) (c_Earliest c) (c_FetchJobs c) (c_RPCMaxIdleConnsPerHost c) (c_DataDir c) (c_DBBackend c) (c_AllowGaps c)
    (c_EnableSync c) (c_ParallelSyncTipAndGaps c) (c_VirtualizeCosmosEvents c) (c_OfflineRPCOnly c) (DecCoins_String prices)
    (c_JSONRPC c) (c_Tracing c) (c_ShutdownTimeout c).
End coins.

Section paths.
Context (UserHomeDir : res string string) (filepath_Join : string → string → string).

Definition expandPath (path : string) : string :=
  if strings_HasPrefix path "~" then
    match UserHomeDir with Ok home => filepath_Join home (strings_TrimPrefix path "~") | _ => path end
  else path.

Definition Expand (c : Config) : Config :=
  mkConfig (c_Env c) (c_LogFormat c) (c_LogVerbose c) (c_ChainID c) (c_EVMChainID c) (c_CometRPC c) (c_CometBroadcastRPC c)
    (c_GRPCAddr c) (c_Earliest c) (c_FetchJobs c) (c_RPCMaxIdleConnsPerHost c) (expandPath (c_DataDir c)) (c_DBBackend c)
    (c_AllowGaps c) (c_EnableSync c) (c_ParallelSyncTipAndGaps c) (c_VirtualizeCosmosEvents c) (c_OfflineRPCOnly c)
    (c_MinGasPrices c) (c_JSONRPC c) (c_Tracing c) (c_ShutdownTimeout c).
End paths.
End AppConfig.
