(* ===== verification/AppStart.v ===== *)
(** * Start of the application

    src/internal/app/app.go, internal/evm/rpc/apis.go and Start of
    internal/jsonrpc/json_rpc.go: addresses of endpoints, the chain ids, the client
    contexts, the options of the indexer, the registration of the namespaces, and
    [Run] with the resources it opens and releases.  Dialing, listening, the node's
    answers at start and url.Parse are parameters. *)

From Stdlib Require Import Ascii String.
From S2P Require Import Prelude Bytes Instances GoLib EthTypes Keys ParsedTx Virtual VirtualBank VirtualIbc Codec Indexer RpcTypes Backend AppConfig.
From stdpp Require Import strings list gmap.
#[local] Open Scope Z_scope.

Module AppStart.
Import GoLib Indexer AppConfig.

(** ** Addresses *)

Fixpoint index_byte (c : ascii) (l : list ascii) : option nat :=
  match l with
  | [] => None
  | c' :: l => if bool_decide (c' = c) then Some O else S <$> index_byte c l
  end.

Definition last_index_byte (c : ascii) (l : list ascii) : option nat :=
  (λ i, (length l - S i)%nat) <$> index_byte c (reverse l).

Definition contains_byte (c : ascii) (l : list ascii) : bool := bool_decide (is_Some (index_byte c l)).

(** net.SplitHostPort: the host and the port, if the address has this form. *)
Definition split_host_port (l : list ascii) : option (list ascii * list ascii) :=
  match last_index_byte ":" l with
  | None => None
  | Some i =>
      let port := drop (S i) l in
      match l with
      | "["%char :: _ =>
          match index_byte "]" l with
          | None => None
          | Some e =>
              if bool_decide (S e = i) then
                if contains_byte "[" (drop 1 l) || contains_byte "]" (drop (S e) l) then None
                else Some (drop 1 (take e l), port)
              else None
          end
      | _ =>
          let host := take i l in
          if contains_byte ":" host || contains_byte "[" l || contains_byte "]" l then None else Some (host, port)
      end
  end.

(** net.JoinHostPort *)
Definition join_host_port (host port : list ascii) : list ascii :=
  if contains_byte ":" host then "["%char :: host ++ "]"%char :: ":"%char :: port else host ++ ":"%char :: port.

Definition SplitHostPort (s : string) : option (string * string) :=
  (λ p : list ascii * list ascii, (string_of_list_ascii p.1, string_of_list_ascii p.2)) <$> split_host_port (list_ascii_of_string s).
Definition JoinHostPort (host port : string) : string :=
  string_of_list_ascii (join_host_port (list_ascii_of_string host) (list_ascii_of_string port)).

(** strings.SplitN(s, "://", 2) when it has two parts. *)
Fixpoint split_scheme (l : list ascii) : option (list ascii * list ascii) :=
  match l with
  | ":"%char :: "/"%char :: "/"%char :: rest => Some ([], rest)
  | c :: l => match split_scheme l with Some (a, b) => Some (c :: a, b) | None => None end
  | [] => None
  end.

Section addresses.
(** The host name of url.Parse("scheme://" + address), when that succeeds. *)
Context (url_Hostname : string → option string).

Definition hostWithoutPort (address : string) : string :=
  match SplitHostPort address with
  | Some (host, _) => host
  | None =>
      let l := list_ascii_of_string address in
      if bool_decide (head l = Some "["%char ∧ last l = Some "]"%char) then
        let l := drop 1 l in
        string_of_list_ascii (if bool_decide (last l = Some "]"%char) then take (length l - 1) l else l)
      else match url_Hostname address with
           | Some host => if bool_decide (host ≠ EmptyString) then host else address
           | None => address
           end
  end.

Definition withDefaultPort (protocol address : string) : string :=
  if bool_decide (address = EmptyString) then address
  else match SplitHostPort address with
       | Some _ => address
       | None =>
           let host := hostWithoutPort address in
           if bool_decide (host = EmptyString) then address
           else if bool_decide (protocol = "https"%string ∨ protocol = "grpcs"%string) then JoinHostPort host "443"
           else if bool_decide (protocol = "http"%string) then JoinHostPort host "80"
           else address
       end.

Definition protocolAndAddress (listenAddr : string) : string * string :=
  let '(protocol, address) :=
    match split_scheme (list_ascii_of_string listenAddr) with
    | Some (p, a) => (string_of_list_ascii p, string_of_list_ascii a)
    | None => ("tcp"%string, listenAddr)
    end in
  (protocol, withDefaultPort protocol address).

Definition normalizedGRPCTarget (addr : string) : string := (protocolAndAddress addr).2.

(** The server name of TLS credentials; [None] for a connection without TLS. *)
Definition grpcTransportCredentials (addr : string) : option string :=
  let '(proto, address) := protocolAndAddress addr in
  if bool_decide (proto = "https"%string ∨ proto = "grpcs"%string) then
    Some (match SplitHostPort address with Some (host, _) => host | None => hostWithoutPort address end)
  else None.
End addresses.

(** ** Chain ids *)

Definition with_ids (c : Config) (chainID evmChainID : string) : Config :=
  mkConfig (c_Env c) (c_LogFormat c) (c_LogVerbose c) chainID evmChainID (c_CometRPC c) (c_CometBroadcastRPC c)
    (c_GRPCAddr c) (c_Earliest c) (c_FetchJobs c) (c_RPCMaxIdleConnsPerHost c) (c_DataDir c) (c_DBBackend c) (c_AllowGaps c)
    (c_EnableSync c) (c_ParallelSyncTipAndGaps c) (c_VirtualizeCosmosEvents c) (c_OfflineRPCOnly c) (c_MinGasPrices c)
    (c_JSONRPC c) (c_Tracing c) (c_ShutdownTimeout c).

(** The answers of the node and of libraries at start. The error of the parameter
    query carries its gRPC code; the chain id of the parameters may be nil. *)
Record StartLib := mkStart {
  sl_NewClientContext : res string unit;
  sl_NewRPC : string → Z → res string unit;
  sl_Network : res string string;
  sl_Dial : string → res string unit;
  sl_Params : res (Z * string) (option (option Z));
  sl_ParseChainID : string → res string Z;
  sl_UserHomeDir : res string string;
  sl_Join : string → string → string;
  sl_CPUProfile : res error unit;
  sl_LatestHeight : res string Z;
  sl_MaxGas : Z → res string Z;
  sl_OpenDB : string → string → res string unit;
  sl_RegisterName : string → res string unit;
  sl_Listen : string → Z → res string unit;
  sl_Wait : option error;
}.

Definition codes_Unimplemented : Z := 12.
Definition codes_Unknown : Z := 2.

Section chain.
Context (L : StartLib) (DefaultEIP155ChainID : Z) (url_Hostname : string → option string).

Definition cometChainID : res error string :=
  let! network := res_map_err (λ e, Wrap "fetch node status" (New e)) (sl_Network L) in
  let chainID := strings_TrimSpace network in
  if bool_decide (chainID = EmptyString) then Err (New "empty chain id from comet status") else Ok chainID.

Definition validateCometChainID (cfg : Config) (cometChainID : string) : res error Config :=
  if bool_decide (c_ChainID cfg ≠ EmptyString ∧ c_ChainID cfg ≠ cometChainID) then Err (Errorf "chain id mismatch: expected %s, got %s")
  else Ok (with_ids cfg cometChainID (c_EVMChainID cfg)).

(** The error of the query keeps its code under the wrapping. *)
Definition fetchEVMChainID : res (Z * error) string :=
  match sl_Params L with
  | Panic p => Panic p
  | Err (code, msg) => Err (code, Wrap "fetch evm params" (New msg))
  | Ok (Some (Some id)) =>
      let chainID := strings_TrimSpace (strconv_Itoa id) in
      if bool_decide (chainID = EmptyString ∨ chainID = "0"%string) then Err (codes_Unknown, New "empty evm chain id from params")
      else Ok chainID
  | Ok _ => Err (codes_Unknown, New "empty evm chain id from params")
  end.

Definition validateEVMChainID (cfg : Config) (evmChainID : string) : res error Config :=
  let evmChainID := strings_TrimSpace evmChainID in
  if bool_decide (c_EVMChainID cfg ≠ EmptyString ∧ c_EVMChainID cfg ≠ evmChainID) then
    Err (Errorf "evm chain id mismatch: expected %s, got %s")
  else Ok (with_ids cfg (c_ChainID cfg) evmChainID).

Definition canUseVirtualBackfillEVMChainID (cfg : Config) (code : Z) : bool :=
  c_VirtualizeCosmosEvents cfg && bool_decide (code = codes_Unimplemented).

Definition resolveEVMChainID (cfg : Config) : res error Config :=
  match fetchEVMChainID with
  | Panic p => Panic p
  | Ok evmChainID => validateEVMChainID cfg evmChainID
  | Err (code, err) =>
      if negb (canUseVirtualBackfillEVMChainID cfg code) then Err err
      else if bool_decide (strings_TrimSpace (c_EVMChainID cfg) ≠ EmptyString) then Ok cfg
      else Ok (with_ids cfg (c_ChainID cfg) (strconv_Itoa DefaultEIP155ChainID))
  end.

Definition inferEVMChainIDFromCosmosChainID (chainID : string) : res error string :=
  let! parsed := res_map_err (λ e, Wrap "derive evm chain id from cosmos chain id" (New e)) (sl_ParseChainID L (strings_TrimSpace chainID)) in
  Ok (strconv_Itoa parsed).

(** ** Clients *)

(** newCometHTTPClient: the size of the pool of idle connections. *)
Definition maxIdleConns (fetchJobs idleConnsPerHost : Z) : Z :=
  if bool_decide (idleConnsPerHost ≤ 0) then
    let maxIdle := int64 (fetchJobs * 4) in if bool_decide (maxIdle < 32) then 32 else maxIdle
  else idleConnsPerHost.

(** client.Context by the fields that are set at start. *)
Record ClientContext := mkClientContext { cc_ChainID : string; cc_NodeURI : string; cc_Client : bool; cc_GRPC : bool }.

(** What the start of the process does to the world, in order. *)
Inductive action :=
| OpenRPC | StopRPC
| OpenGRPC | CloseGRPC
| OpenBroadcast | StopBroadcast
| OpenDB | CloseDB
| StartSyncer | Listen | StartWebsocket
| WaitGroup | Shutdown | CloseTimings | StopProfile | CancelContext.
#[export] Instance action_eq_dec : EqDecision action.
Proof. solve_decision. Defined.

Definition W (A : Type) : Type := res error A * list action.
Definition wret {A} (a : A) : W A := (Ok a, []).
Definition wfail {A} (e : error) : W A := (Err e, []).
Definition wlift {A} (m : res error A) : W A := (m, []).
Definition wdo (a : action) : W unit := (Ok tt, [a]).
Definition wbind {A B} (m : W A) (f : A → W B) : W B :=
  match m with
  | (Ok a, l) => let '(r, l') := f a in (r, l ++ l')
  | (Err e, l) => (Err e, l)
  | (Panic p, l) => (Panic p, l)
  end.
(** defer: the actions happen when the rest is over, whatever its outcome. *)
Definition deferred {A} (acts : list action) (m : W A) : W A := (m.1, m.2 ++ acts).

#[local] Notation "'do!' x ':=' m 'in' k" := (wbind m (λ x, k))
  (at level 10, x pattern, m at level 100, k at level 200).

Definition opening {A} (m : res error A) (a : action) : W A := match m with Ok x => (Ok x, [a]) | Err e => (Err e, []) | Panic p => (Panic p, []) end.

Definition buildClientContext (cfg : Config) : W (Config * ClientContext) :=
  let cfg := Normalize cfg in
  do! _ := wlift (res_map_err (λ e, Wrap "init injective client context" (New e)) (sl_NewClientContext L)) in
  if c_OfflineRPCOnly cfg then
    do! cfg :=
      if bool_decide (strings_TrimSpace (c_EVMChainID cfg) = EmptyString) then
        do! id := wlift (inferEVMChainIDFromCosmosChainID (c_ChainID cfg)) in
        wret (with_ids cfg (c_ChainID cfg) id)
      else wret cfg in
    wret (cfg, mkClientContext (c_ChainID cfg) EmptyString false false)
  else
    do! _ := opening (res_map_err (λ e, Wrap "init comet rpc client" (New e))
                 (sl_NewRPC L (c_CometRPC cfg) (maxIdleConns (c_FetchJobs cfg) (c_RPCMaxIdleConnsPerHost cfg)))) OpenRPC in
    do! chainID := wlift cometChainID in
    do! cfg := wlift (validateCometChainID cfg chainID) in
    do! _ := opening (res_map_err New (sl_Dial L (normalizedGRPCTarget url_Hostname (c_GRPCAddr cfg)))) OpenGRPC in
    match resolveEVMChainID cfg with
    | Ok cfg => wret (cfg, mkClientContext (c_ChainID cfg) (c_CometRPC cfg) true true)
    | Err e => do! _ := wdo CloseGRPC in wfail e
    | Panic p => wlift (Panic p)
    end.

(** The context for broadcasts, and whether it has a client of its own. *)
Definition buildBroadcastClientContext (cfg : Config) (clientCtx : ClientContext) : W (ClientContext * bool) :=
  let cfg := Normalize cfg in
  if c_OfflineRPCOnly cfg || bool_decide (c_CometBroadcastRPC cfg = c_CometRPC cfg) then wret (clientCtx, false)
  else
    do! _ := opening (res_map_err (λ e, Wrap "init comet broadcast rpc client" (New e))
                 (sl_NewRPC L (c_CometBroadcastRPC cfg) (maxIdleConns 1 (c_RPCMaxIdleConnsPerHost cfg)))) OpenBroadcast in
    wret (mkClientContext (cc_ChainID clientCtx) (c_CometBroadcastRPC cfg) true (cc_GRPC clientCtx), true).

(** ** Options of the indexer *)

Definition fetchStartupBlockGasLimit (clientCtx : ClientContext) : res error (option Z) :=
  if negb (cc_Client clientCtx) then Ok None
  else
    let! height := res_map_err (λ e, Wrap "fetch latest block height" (New e)) (sl_LatestHeight L) in
    if bool_decide (height ≤ 0) then Ok None
    else
      let! (gasLimit, err) := lib (RpcTypes.BlockMaxGasFromConsensusParams (Some (sl_MaxGas L)) height) in
      match err with
      | Some e => Err (Wrap "fetch consensus params" (New e))
      | None => Ok (if bool_decide (gasLimit < 0) then None else Some (uint64 gasLimit))
      end.

(** A failure is logged and leaves the gas limit uncached. *)
Definition buildKVIndexerOptions (cfg : Config) (clientCtx : ClientContext) : res error (list (KVIndexer → KVIndexer)) :=
  let opts := [WithVirtualCosmosEvents (c_VirtualizeCosmosEvents cfg) (c_EVMChainID cfg)] in
  match fetchStartupBlockGasLimit clientCtx with
  | Ok (Some gasLimit) => Ok (opts ++ [WithCachedBlockGasLimit gasLimit])
  | Ok None | Err _ => Ok opts
  | Panic p => Panic p
  end.

(** ** Namespaces *)

(** The namespaces with the number of services, and whether they build a backend. *)
Definition apiCreators : gmap string (bool * nat) :=
  list_to_map [("eth", (true, 2%nat)); ("web3", (false, 1%nat)); ("net", (false, 1%nat)); ("txpool", (false, 1%nat));
               ("debug", (true, 1%nat)); ("miner", (true, 1%nat)); ("inj", (true, 1%nat))]%string.

(** A namespace that is not known is logged and skipped; NewBackend parses the chain
    id and panics on an invalid one. *)
Fixpoint GetRPCAPIs (EVMChainID : string) (selectedAPIs : list string) : res error (list string) :=
  match selectedAPIs with
  | [] => Ok []
  | ns :: selected =>
      match apiCreators !! ns with
      | None => GetRPCAPIs EVMChainID selected
      | Some (needsBackend, services) =>
          let! _ := if needsBackend : bool then let! _ := lib (Backend.backendChainID EVMChainID) in Ok tt else Ok tt in
          let! apis := GetRPCAPIs EVMChainID selected in
          Ok (replicate services ns ++ apis)
      end
  end.

(** The address and limit of the listener: LimitListener applies for a positive one. *)
Definition listenWithMaxOpenConnections (addr : string) (maxOpenConnections : Z) : res error unit :=
  lib (sl_Listen L (if bool_decide (addr = EmptyString) then ":http"%string else addr) (Z.max 0 maxOpenConnections)).

(** jsonrpc.Start: services are registered and the listener opened before anything
    runs. *)
Definition Start (cfg : Config) : W unit :=
  let j := c_JSONRPC cfg in
  do! apis := wlift (GetRPCAPIs (c_EVMChainID cfg) (j_API j)) in
  do! _ := wlift (let! _ := res_mapM (λ ns, lib (sl_RegisterName L ns)) apis in Ok tt) in
  do! _ := opening (listenWithMaxOpenConnections (j_Address j) (j_MaxOpenConnections j)) Listen in
  if bool_decide (j_WsAddress j ≠ EmptyString) then wdo StartWebsocket else wret tt.

(** ** Run *)

Definition expandHome (path : string) : res error string :=
  if bool_decide (path = EmptyString) || negb (strings_HasPrefix path "~") then Ok path
  else if bool_decide (path = "~"%string) then lib (sl_UserHomeDir L)
  else if strings_HasPrefix path "~/" then
    let! home := lib (sl_UserHomeDir L) in Ok (sl_Join L home (strings_TrimPrefix path "~/"))
  else Ok path.

Definition openIndexerDB (rootDir backend : string) : res error unit := lib (sl_OpenDB L (sl_Join L rootDir "data") backend).

(** The services, the wait for them, and the shutdown of the server. *)
Definition run_services (cfg : Config) : W unit :=
  do! _ := if c_EnableSync cfg then wdo StartSyncer else wret tt in
  do! _ := if j_Enable (c_JSONRPC cfg) then Start cfg else wret tt in
  do! _ := wdo WaitGroup in
  do! _ := wdo Shutdown in
  match sl_Wait L with
  | None => wret tt
  | Some err => if errors_Is err "context canceled" || errors_Is err "http: Server closed" then wret tt else wfail err
  end.

Definition release_clients (clientCtx : ClientContext) (broadcast : bool) : list action :=
  (if broadcast then [StopBroadcast] else []) ++ (if cc_Client clientCtx then [StopRPC] else []) ++
  (if cc_GRPC clientCtx then [CloseGRPC] else []).

(** startCPUProfileFromEnv succeeds without a profile when none is asked for; its function
    of the end then does nothing. *)
Definition Run (cfg : Config) : W unit :=
  let cfg := Normalize cfg in
  deferred [CancelContext] (
  do! dataDir := wlift (expandHome (c_DataDir cfg)) in
  do! _ := wlift (sl_CPUProfile L) in
  deferred [CloseTimings; StopProfile] (
  do! (cfg, clientCtx) := buildClientContext cfg in
  do! (_, broadcast) := if j_Enable (c_JSONRPC cfg) then buildBroadcastClientContext cfg clientCtx else wret (clientCtx, false) in
  deferred (release_clients clientCtx broadcast) (
  if j_Enable (c_JSONRPC cfg) || c_EnableSync cfg then
    do! _ := opening (openIndexerDB dataDir (c_DBBackend cfg)) OpenDB in
    deferred [CloseDB] (
    do! _ := wlift (let! _ := buildKVIndexerOptions cfg clientCtx in Ok tt) in
    run_services cfg)
  else run_services cfg))).

(** RunResync: the resync itself is [resync]. *)
Definition RunResync (cfg : Config) (resync : res error unit) : W unit :=
  let cfg := Normalize cfg in
  deferred [CancelContext] (
  do! dataDir := wlift (expandHome (c_DataDir cfg)) in
  do! _ := wlift (sl_CPUProfile L) in
  deferred [CloseTimings; StopProfile] (
  do! (cfg, clientCtx) := buildClientContext cfg in
  deferred (release_clients clientCtx false) (
  do! _ := opening (openIndexerDB dataDir (c_DBBackend cfg)) OpenDB in
  deferred [CloseDB] (
  do! _ := wlift (let! _ := buildKVIndexerOptions cfg clientCtx in Ok tt) in
  wlift resync)))).
End chain.
End AppStart.
