(* ===== verification/AppProps.v ===== *)
(** * Start of the application: properties *)

From Stdlib Require Import Ascii String SpecFloat.
From S2P Require Import Prelude Bytes Instances GoLib EthTypes Keys ParsedTx Virtual VirtualBank VirtualIbc Codec Indexer RpcTypes Backend.
From S2P Require Import BackendFees Decimals AppConfig AppStart.
From stdpp Require Import strings list gmap.
#[local] Open Scope Z_scope.

Module AppProps.
Import GoLib Indexer Decimals BackendFees AppConfig AppStart.

#[local] Arguments String.append !_ _ / : simpl nomatch.

(** ** The .env file *)

Lemma list_of_append s t : list_ascii_of_string (s ++ t) = list_ascii_of_string s ++ list_ascii_of_string t.
Proof. induction s as [|c s IH]; [done|]. cbn. by rewrite IH. Qed.

Lemma bytes_of_append s t : string_bytes (s ++ t) = string_bytes s ++ string_bytes t.
Proof. unfold string_bytes. by rewrite list_of_append, fmap_app. Qed.

Lemma cut_at_append sep s t : sep ∉ list_ascii_of_string s → cut_at sep (s ++ String sep t) = Some (s, t).
Proof.
  induction s as [|c s IH]; cbn.
  - by rewrite bool_decide_eq_true_2.
  - intros [Hc Hs]%not_elem_of_cons. rewrite bool_decide_eq_false_2 by done. by rewrite IH.
Qed.

Lemma trim_left_head c l : head l ≠ Some c → trim_left c l = l.
Proof. destruct l as [|x l]; [done|]. cbn. intros H. rewrite bool_decide_eq_false_2; [done|congruence]. Qed.

Definition quoted (v : string) : string := (String quote v ++ String quote "")%string.

Lemma trim_quoted v :
  head (list_ascii_of_string v) ≠ Some quote → last (list_ascii_of_string v) ≠ Some quote → trim_byte quote (quoted v) = v.
Proof.
  intros Hh Hl. unfold trim_byte, quoted. set (l := list_ascii_of_string v) in *.
  assert (list_ascii_of_string (String quote v ++ String quote "") = quote :: l ++ [quote]) as ->.
  { cbn. f_equal. by rewrite list_of_append. }
  assert (string_of_list_ascii l = v) as Hv by apply string_of_list_ascii_of_string. clearbody l. subst v.
  cbn [trim_left]. rewrite bool_decide_eq_true_2 by done. destruct l as [|x l]; [done|].
  rewrite (trim_left_head _ ((x :: l) ++ [quote])) by exact Hh. rewrite reverse_app.
  change (reverse [quote] ++ ?k) with (quote :: k). cbn [trim_left]. rewrite bool_decide_eq_true_2 by done.
  rewrite trim_left_head; [by rewrite reverse_involutive|]. by rewrite <- last_reverse, reverse_involutive.
Qed.

(** An assignment as a line of the file; the value may hold spaces. *)
Definition entry_line (kv : string * string) : string := (kv.1 ++ String "=" (quoted kv.2))%string.

Definition plain_entry (kv : string * string) : Prop :=
  kv.1 ≠ EmptyString ∧ graphic kv.1 ∧ "="%char ∉ list_ascii_of_string kv.1 ∧ head (list_ascii_of_string kv.1) ≠ Some "#"%char ∧
  nul ∉ list_ascii_of_string kv.2 ∧ head (list_ascii_of_string kv.2) ≠ Some quote ∧ last (list_ascii_of_string kv.2) ≠ Some quote.

Lemma quoted_trims v : strings_TrimSpace (quoted v) = quoted v.
Proof.
  unfold quoted. apply TrimSpace_ends; [cbn; vm_compute; split; discriminate|].
  rewrite bytes_of_append, reverse_app. cbn. vm_compute. split; discriminate.
Qed.

Lemma entry_trims kv : plain_entry kv → strings_TrimSpace (entry_line kv) = entry_line kv.
Proof.
  intros (Hne & Hg & _). unfold entry_line. apply TrimSpace_ends.
  - rewrite bytes_of_append. unfold graphic in Hg. destruct kv.1 as [|c k]; [done|]. by apply Forall_cons in Hg as [? _].
  - rewrite bytes_of_append, reverse_app.
    change (string_bytes (String "=" (quoted kv.2))) with (byte_of_ascii "=" :: string_bytes (quoted kv.2)).
    unfold quoted. rewrite bytes_of_append, reverse_cons, reverse_app. cbn. vm_compute. split; discriminate.
Qed.

Lemma entry_assignment kv : plain_entry kv → env_assignment (entry_line kv) = Some kv.
Proof.
  intros Hp. pose proof (entry_trims kv Hp) as Ht. destruct Hp as (Hne & Hg & Heq & Hh & Hnul & Hq1 & Hq2).
  unfold env_assignment. rewrite Ht. destruct kv as [k v]. unfold entry_line. cbn [fst snd] in *.
  destruct k as [|c k]; [done|]. cbn [String.append]. rewrite bool_decide_eq_false_2 by done. cbn [orb].
  assert (strings_HasPrefix (String c (k ++ String "=" (quoted v))) "#" = false) as ->.
  { unfold strings_HasPrefix. cbn [String.prefix]. cbn in Hh. destruct (ascii_dec "#" c) as [<-|]; done. }
  change (String c (k ++ String "=" (quoted v))) with (String c k ++ String "=" (quoted v))%string.
  rewrite cut_at_append by done. rewrite TrimSpace_graphic by done. rewrite quoted_trims, trim_quoted by done.
  by rewrite bool_decide_eq_false_2.
Qed.

Lemma graphic_no_nul s : graphic s → nul ∉ list_ascii_of_string s.
Proof.
  intros Hg Hin. unfold graphic, string_bytes in Hg. rewrite Forall_fmap, Forall_forall in Hg. apply Hg in Hin.
  vm_compute in Hin. by destruct Hin.
Qed.

Lemma plain_Setenv env kv : plain_entry kv → Setenv env kv.1 kv.2 = Some (<[kv.1 := kv.2]> env).
Proof.
  intros (Hne & Hg & Heq & _ & Hnul & _). unfold Setenv, has_byte.
  rewrite !bool_decide_eq_false_2; try done. by apply graphic_no_nul.
Qed.

(** A file of assignments NAME="value" sets exactly those variables, the later of two
    for the same name, over the environment of the process; the values may hold spaces,
    equals signs and inner quotes. *)
Theorem env_file_roundtrip (fs : files) env path entries :
  Forall plain_entry entries → fs path = Some (entry_line <$> entries, None) →
  loadEnvFile fs env path = (foldl (λ e kv, <[kv.1 := kv.2]> e) env entries, None).
Proof.
  intros He Hf. unfold loadEnvFile. rewrite Hf.
  assert (env_lines env (entry_line <$> entries) = (foldl (λ e kv, <[kv.1 := kv.2]> e) env entries, None)) as ->; [|done].
  clear Hf. revert env. induction He as [|kv entries Hkv He IH]; intros env; [done|]. cbn.
  rewrite entry_assignment by done. destruct kv as [k v]. pose proof (plain_Setenv env _ Hkv) as Hset. cbn [fst snd] in Hset.
  rewrite Hset. apply IH.
Qed.

(** ** Validation *)

Definition valid (c : Config) : Prop :=
  let j := c_JSONRPC c in
  0 < c_FetchJobs c ∧ 0 ≤ c_Earliest c ∧ (j_Enable j = true → j_API j ≠ []) ∧ 0 ≤ j_FilterCap j ∧ 0 < j_FeeHistoryCap j ∧
  SFltb (j_TxFeeCap j) (S754_zero false) = false ∧ 0 ≤ j_LogsCap j ∧ 0 ≤ j_BlockRangeCap j ∧ 0 ≤ j_HTTPTimeout j ∧
  0 ≤ j_HTTPIdleTimeout j ∧ 0 < j_TraceTimeoutCap j ∧ 0 < c_ShutdownTimeout c ∧
  (strings_TrimSpace (c_EVMChainID c) ≠ EmptyString → ∃ id, big_SetString (strings_TrimSpace (c_EVMChainID c)) = Some id ∧ 0 < id) ∧
  (c_OfflineRPCOnly c = true → c_EnableSync c = false ∧ strings_TrimSpace (c_ChainID c) ≠ EmptyString).

Lemma check_ok bad msg : check bad msg = Ok tt ↔ bad = false.
Proof. by destruct bad. Qed.

Lemma check_bind bad msg (k : res error unit) : (let! _ := check bad msg in k) = Ok tt ↔ bad = false ∧ k = Ok tt.
Proof. destruct bad; cbn; naive_solver. Qed.

Lemma valid_id_spec id : valid_evm_chain_id id = true ↔ ∃ n, big_SetString (strings_TrimSpace id) = Some n ∧ 0 < n.
Proof. unfold valid_evm_chain_id. destruct (big_SetString _) as [n|]; [rewrite bool_decide_eq_true|]; naive_solver. Qed.

Lemma Validate_spec c : Validate c = Ok tt ↔ valid c.
Proof.
  unfold Validate, valid. cbn zeta. rewrite !check_bind. rewrite !orb_false_iff, !andb_false_iff, negb_false_iff, valid_id_spec.
  rewrite !bool_decide_eq_false.
  assert ((if c_OfflineRPCOnly c then
             let! _ := check (c_EnableSync c) "offline-rpc-only mode requires enable-sync=false" in
             check (bool_decide (strings_TrimSpace (c_ChainID c) = EmptyString)) "offline-rpc-only mode requires chain-id"
           else Ok tt) = Ok tt ↔
          (c_OfflineRPCOnly c = true → c_EnableSync c = false ∧ strings_TrimSpace (c_ChainID c) ≠ EmptyString)) as ->.
  { destruct (c_OfflineRPCOnly c); [rewrite check_bind, check_ok, bool_decide_eq_false|]; naive_solver. }
  destruct (decide (strings_TrimSpace (c_EVMChainID c) = EmptyString)), (j_Enable (c_JSONRPC c)); naive_solver lia.
Qed.

(** ** The start does not panic *)

Create HintDb calm.

Definition calm {E A} (m : res E A) : Prop := match m with Panic _ => False | _ => True end.

Lemma calm_bind {E A B} (m : res E A) (f : A → res E B) : calm m → (∀ a, m = Ok a → calm (f a)) → calm (res_bind m f).
Proof. destruct m; cbn; auto. Qed.
Lemma calm_map_err {E F A} (f : E → F) (m : res E A) : calm m → calm (res_map_err f m).
Proof. by destruct m. Qed.
Lemma calm_wbind {A B} (m : W A) (f : A → W B) : calm m.1 → (∀ a, m.1 = Ok a → calm (f a).1) → calm (wbind m f).1.
Proof. destruct m as [[a|e|p] l]; cbn; try done. intros _ H. specialize (H a eq_refl). by destruct (f a). Qed.
Lemma calm_opening {A} (m : res error A) a : calm m → calm (opening m a).1.
Proof. by destruct m. Qed.
Lemma calm_mapM {E A B} (f : A → res E B) l : (∀ x, calm (f x)) → calm (res_mapM f l).
Proof. intros Hf. induction l; cbn; [done|]. apply calm_bind; [done|]. intros. by apply calm_bind. Qed.
#[local] Hint Resolve calm_map_err calm_mapM : calm.

(** Inversion of a result of the writer. *)
Lemma wbind_ok {A B} (m : W A) (f : A → W B) b : (wbind m f).1 = Ok b ↔ ∃ a, m.1 = Ok a ∧ (f a).1 = Ok b.
Proof.
  destruct m as [[a|e|p] l]; cbn; [|naive_solver..]. destruct (f a) as [r l'] eqn:E. cbn. split.
  - intros ->. exists a. by rewrite E.
  - intros (a' & [= <-] & H). by rewrite E in H.
Qed.

Lemma opening_ok {A} (m : res error A) act : (opening m act).1 = m.
Proof. by destruct m. Qed.

(** The answers at start are values or errors. *)
Definition calm_start (L : StartLib) : Prop :=
  calm (sl_NewClientContext L) ∧ (∀ s n, calm (sl_NewRPC L s n)) ∧ calm (sl_Network L) ∧ (∀ s, calm (sl_Dial L s)) ∧
  calm (sl_Params L) ∧ (∀ s, calm (sl_ParseChainID L s)) ∧ calm (sl_UserHomeDir L) ∧ calm (sl_CPUProfile L) ∧
  calm (sl_LatestHeight L) ∧ (∀ h, calm (sl_MaxGas L h)) ∧ (∀ p b, calm (sl_OpenDB L p b)) ∧ (∀ s, calm (sl_RegisterName L s)) ∧
  (∀ s n, calm (sl_Listen L s n)).

(** Chain ids of the node and of the chain's name are not negative. *)
Definition sound_ids (L : StartLib) : Prop :=
  (∀ id, sl_Params L = Ok (Some (Some id)) → 0 ≤ id) ∧ (∀ s id, sl_ParseChainID L s = Ok id → 0 < id).

Definition good_id (c : Config) : Prop := ∃ id, big_SetString (strings_TrimSpace (c_EVMChainID c)) = Some id ∧ 0 < id.

Section start.
Context (L : StartLib) (def : Z) (url : string → option string).
Hypothesis Hcalm : calm_start L.
Hypothesis Hids : sound_ids L.
Hypothesis Hdef : 0 < def.

Lemma good_Itoa c n id : 0 < n → id = strconv_Itoa n → good_id (with_ids c (c_ChainID c) id).
Proof.
  intros Hn ->. exists n. cbn [with_ids c_EVMChainID]. rewrite TrimSpace_graphic by apply Itoa_graphic. by rewrite big_SetString_Itoa by lia.
Qed.

Lemma fetch_good id : fetchEVMChainID L = Ok id → ∃ n, 0 < n ∧ id = strconv_Itoa n.
Proof.
  unfold fetchEVMChainID. destruct (sl_Params L) as [[[n|]|]|[]|] eqn:E; try done.
  rewrite TrimSpace_graphic by apply Itoa_graphic. case_bool_decide as H0; [done|]. intros [= <-]. exists n. split; [|done].
  pose proof (proj1 Hids _ E). assert (n ≠ 0); [|lia]. intros ->. by apply H0; right.
Qed.

Lemma resolve_good c c' :
  (strings_TrimSpace (c_EVMChainID c) ≠ EmptyString → good_id c) → resolveEVMChainID L def c = Ok c' → good_id c'.
Proof.
  intros Hid.
  unfold resolveEVMChainID. destruct (fetchEVMChainID L) as [id|[code e]|p] eqn:E; [| |done].
  - apply fetch_good in E as (n & Hn & ->). unfold validateEVMChainID. rewrite TrimSpace_graphic by apply Itoa_graphic.
    case_bool_decide; [done|]. intros [= <-]. by eapply good_Itoa.
  - destruct (negb _); [done|]. case_bool_decide as Ht; intros [= <-]; [by apply Hid|by eapply good_Itoa].
Qed.

Lemma resolve_calm c : calm (resolveEVMChainID L def c).
Proof.
  unfold resolveEVMChainID, fetchEVMChainID. assert (calm (sl_Params L)) by apply Hcalm.
  destruct (sl_Params L) as [[[n|]|]|[]|]; try done; cbn; repeat case_bool_decide; unfold validateEVMChainID;
    repeat case_bool_decide; try done; destruct (negb _); done.
Qed.

Lemma build_good c c' ctx : valid c → (buildClientContext L def url c).1 = Ok (c', ctx) → good_id c'.
Proof.
  intros Hv. assert (strings_TrimSpace (c_EVMChainID (Normalize c)) ≠ EmptyString → good_id (Normalize c)) as Hid by apply Hv.
  unfold buildClientContext. intros (u & _ & H)%wbind_ok. clear Hv. revert H. generalize dependent (Normalize c). clear c u. intros c Hid.
  destruct (c_OfflineRPCOnly c).
  - intros (c1 & H1 & [= -> _])%wbind_ok. revert H1. case_bool_decide as Ht; [|intros [= <-]; by apply Hid].
    intros (id & H2 & [= <-])%wbind_ok. apply res_bind_ok in H2 as (n & Hn & [= <-]).
    destruct (sl_ParseChainID L _) as [m| |] eqn:E; try done. injection Hn as <-. eapply good_Itoa; [by eapply Hids|done].
  - intros (? & _ & (id & _ & (c1 & H1 & (? & _ & H2)%wbind_ok)%wbind_ok)%wbind_ok)%wbind_ok.
    unfold wlift, validateCometChainID in H1. cbn in H1. case_bool_decide; [done|]. injection H1 as <-.
    destruct (resolveEVMChainID L def _) as [c2|e|p] eqn:E; cbn in H2; try done. injection H2 as <- _.
    by eapply resolve_good in E.
Qed.

Lemma build_calm c : calm (buildClientContext L def url c).1.
Proof.
  destruct Hcalm as (H1 & H2 & H3 & H4 & H5 & H6 & _). unfold buildClientContext.
  apply calm_wbind; [by apply calm_map_err|]. intros _ _. destruct (c_OfflineRPCOnly _).
  - apply calm_wbind; [|done]. case_bool_decide; [|done]. apply calm_wbind; [|done]. apply calm_bind; [by apply calm_map_err|done].
  - apply calm_wbind; [rewrite opening_ok; by apply calm_map_err|]. intros _ _.
    apply calm_wbind. { apply calm_bind; [by apply calm_map_err|]. intros ? _. cbn zeta. by case_bool_decide. } intros id _.
    apply calm_wbind. { cbn. unfold validateCometChainID. by case_bool_decide. } intros c1 _.
    apply calm_wbind; [rewrite opening_ok; by apply calm_map_err|]. intros _ _.
    pose proof (resolve_calm c1) as Hr. by destruct (resolveEVMChainID L def c1).
Qed.

Lemma broadcast_calm c ctx : calm (buildBroadcastClientContext L c ctx).1.
Proof.
  destruct Hcalm as (_ & H2 & _). unfold buildBroadcastClientContext. destruct (_ || _); [done|].
  apply calm_wbind; [rewrite opening_ok; by apply calm_map_err|done].
Qed.

Lemma options_calm c ctx : calm (buildKVIndexerOptions L c ctx).
Proof.
  destruct Hcalm as (_ & _ & _ & _ & _ & _ & _ & _ & H9 & H10 & _). unfold buildKVIndexerOptions.
  assert (calm (fetchStartupBlockGasLimit L ctx)) as Hf; [|by destruct (fetchStartupBlockGasLimit L ctx) as [[]| |]].
  unfold fetchStartupBlockGasLimit. destruct (negb _); [done|]. apply calm_bind; [by apply calm_map_err|]. intros h _.
  case_bool_decide; [done|]. apply calm_bind; [|intros [g [e|]] _; done].
  unfold RpcTypes.BlockMaxGasFromConsensusParams. specialize (H10 h). by destruct (sl_MaxGas L h).
Qed.

Lemma apis_calm c apis : good_id c → calm (GetRPCAPIs (c_EVMChainID c) apis).
Proof.
  intros (id & Hid & Hpos). induction apis as [|ns apis IH]; [done|]. cbn [GetRPCAPIs].
  destruct (apiCreators !! ns) as [[b n]|]; [|done]. apply calm_bind; [|intros; by apply calm_bind].
  destruct b; [|done]. unfold Backend.backendChainID. rewrite Hid. by rewrite bool_decide_eq_false_2 by lia.
Qed.

Lemma services_calm c : good_id c → calm (run_services L c).1.
Proof.
  intros Hid. destruct Hcalm as (_ & _ & _ & _ & _ & _ & _ & _ & _ & _ & _ & H12 & H13). unfold run_services.
  apply calm_wbind; [by destruct (c_EnableSync c)|]. intros _ _. apply calm_wbind.
  - destruct (j_Enable _); [|done]. unfold Start. apply calm_wbind; [by apply apis_calm|]. intros apis _.
    apply calm_wbind. { apply calm_bind; [|done]. apply calm_mapM. intros. by apply calm_map_err. } intros _ _.
    apply calm_wbind; [rewrite opening_ok; by apply calm_map_err|]. intros _ _. by case_bool_decide.
  - intros _ _. do 2 (apply calm_wbind; [done|intros _ _]). destruct (sl_Wait L) as [e|]; [|done]. by destruct (_ || _).
Qed.

Lemma home_calm path : calm (expandHome L path).
Proof.
  destruct Hcalm as (_ & _ & _ & _ & _ & _ & H7 & _). unfold expandHome. destruct (_ || _); [done|].
  case_bool_decide; [by apply calm_map_err|]. destruct (strings_HasPrefix _ _); [|done].
  apply calm_bind; [by apply calm_map_err|done].
Qed.

(** The run of a validated configuration does not panic. *)
Lemma Run_calm c : Validate c = Ok tt → calm (Run L def url c).1.
Proof.
  intros Hv%Validate_spec. destruct Hcalm as (_ & _ & _ & _ & _ & _ & _ & H8 & _ & _ & H11 & _). unfold Run. cbn [deferred fst].
  apply calm_wbind; [apply home_calm|]. intros dir _. apply calm_wbind; [done|]. intros _ _.
  apply calm_wbind; [apply build_calm|]. intros [c' ctx] Hb. apply build_good in Hb; [|apply Hv].
  apply calm_wbind. { destruct (j_Enable _); [apply broadcast_calm|done]. } intros [? bc] _. cbn [deferred fst].
  destruct (_ || _); [|by apply services_calm].
  apply calm_wbind; [rewrite opening_ok; by apply calm_map_err|]. intros _ _. cbn [deferred fst].
  apply calm_wbind; [|intros; by apply services_calm]. apply calm_bind; [apply options_calm|done].
Qed.
End start.

(** ** Resources *)

Definition count (a : action) (l : list action) : nat := length (filter (a =.) l).

Lemma count_app a l k : count a (l ++ k) = (count a l + count a k)%nat.
Proof. unfold count. by rewrite filter_app, length_app. Qed.

Lemma count_none a l : a ∉ l → count a l = 0%nat.
Proof.
  intros H. unfold count. induction l as [|x l IH]; [done|]. apply not_elem_of_cons in H as [Hx H]. rewrite filter_cons.
  rewrite decide_False by done. by apply IH.
Qed.

Lemma wbind_trace {A B} (m : W A) (f : A → W B) :
  (wbind m f).2 = m.2 ++ match m.1 with Ok a => (f a).2 | _ => [] end.
Proof. destruct m as [[a|e|p] l]; cbn; [by destruct (f a)|by rewrite app_nil_r..]. Qed.

Lemma opening_trace {A} (m : res error A) a : (opening m a).2 = match m with Ok _ => [a] | _ => [] end.
Proof. by destruct m. Qed.

#[local] Arguments wbind : simpl never.
#[local] Arguments strings_TrimSpace : simpl never.

Section traces.
Context (L : StartLib) (def : Z) (url : string → option string).

(** The actions of a stage are among the listed ones. *)
Lemma build_actions c a : a ∈ (buildClientContext L def url c).2 → a ∈ [OpenRPC; OpenGRPC; CloseGRPC].
Proof.
  unfold buildClientContext. rewrite wbind_trace. cbn [wlift snd app].
  destruct (res_map_err _ _); cbn; [|by rewrite elem_of_nil..]. destruct (c_OfflineRPCOnly c).
  - rewrite wbind_trace. case_bool_decide; cbn; rewrite ?wbind_trace; cbn; repeat case_match; cbn; set_solver.
  - rewrite wbind_trace, opening_trace, opening_ok. destruct (res_map_err _ _); cbn; [|by rewrite elem_of_nil..].
    rewrite wbind_trace. cbn. destruct (cometChainID L); cbn; [|set_solver..].
    rewrite wbind_trace. cbn. destruct (validateCometChainID _ _); cbn; [|set_solver..].
    rewrite wbind_trace, opening_trace, opening_ok. destruct (res_map_err _ _); cbn; [|set_solver..].
    destruct (resolveEVMChainID L def _); cbn; set_solver.
Qed.

Lemma build_trace c c' ctx :
  (buildClientContext L def url c).1 = Ok (c', ctx) →
  (buildClientContext L def url c).2 = (if c_OfflineRPCOnly c then [] else [OpenRPC; OpenGRPC]) ∧
  cc_Client ctx = negb (c_OfflineRPCOnly c) ∧ cc_GRPC ctx = negb (c_OfflineRPCOnly c).
Proof.
  unfold buildClientContext. rewrite wbind_trace. intros (u & -> & H)%wbind_ok. cbn [wlift snd app]. revert H.
  change (c_OfflineRPCOnly (Normalize c)) with (c_OfflineRPCOnly c). destruct (c_OfflineRPCOnly c).
  - intros (c1 & H1 & [= -> <-])%wbind_ok. rewrite wbind_trace, H1. cbn [wret snd]. rewrite app_nil_r. split_and!; try done.
    revert H1. case_bool_decide; [|done]. intros (id & H1 & _)%wbind_ok. rewrite wbind_trace. by rewrite H1.
  - intros (? & H1 & H)%wbind_ok. rewrite wbind_trace, H1. rewrite opening_ok in H1. rewrite opening_trace, H1.
    apply wbind_ok in H as (id & H2 & (c1 & H3 & (? & H4 & H)%wbind_ok)%wbind_ok).
    rewrite wbind_trace, H2, wbind_trace, H3, wbind_trace, H4. rewrite opening_ok in H4. rewrite opening_trace, H4.
    destruct (resolveEVMChainID L def c1); cbn in *; try done. injection H as <- <-. done.
Qed.

Lemma broadcast_trace c ctx :
  (buildBroadcastClientContext L c ctx).2 =
  match (buildBroadcastClientContext L c ctx).1 with Ok (_, true) => [OpenBroadcast] | _ => [] end.
Proof.
  unfold buildBroadcastClientContext. destruct (_ || _); [done|]. rewrite wbind_trace, opening_trace, opening_ok.
  by destruct (res_map_err _ _).
Qed.

Lemma start_actions c a : a ∈ (Start L c).2 → a ∈ [Listen; StartWebsocket].
Proof.
  unfold Start. rewrite wbind_trace. cbn. destruct (GetRPCAPIs _ _); cbn; [|by rewrite elem_of_nil..].
  rewrite wbind_trace. cbn. destruct (res_bind _ _); cbn; [|by rewrite elem_of_nil..].
  rewrite wbind_trace, opening_trace, opening_ok. destruct (listenWithMaxOpenConnections _ _ _); cbn; [|by rewrite elem_of_nil..].
  case_bool_decide; cbn; set_solver.
Qed.

(** The services end with the wait and the shutdown, unless the server did not start. *)
Lemma services_trace c :
  ∃ l, (run_services L c).2 = (if c_EnableSync c then [StartSyncer] else []) ++ l ++
         (if j_Enable (c_JSONRPC c) && negb (is_ok (Start L c).1) then [] else [WaitGroup; Shutdown]) ∧
       ∀ a, a ∈ l → a ∈ [Listen; StartWebsocket].
Proof.
  exists (if j_Enable (c_JSONRPC c) then (Start L c).2 else []). split.
  - unfold run_services. rewrite wbind_trace. destruct (c_EnableSync c); cbn [wdo wret fst snd app];
      rewrite wbind_trace; destruct (j_Enable _); cbn [wret fst snd andb app];
      (destruct (is_ok (Start L c).1) eqn:E || idtac); try (destruct (Start L c) as [[]]; cbn in E |- *; try done);
      rewrite ?wbind_trace; cbn; repeat case_match; done.
  - intros a. destruct (j_Enable _); [apply start_actions|by rewrite elem_of_nil].
Qed.

Lemma count_sub a l (allowed : list action) : (∀ x, x ∈ l → x ∈ allowed) → bool_decide (a ∈ allowed) = false → count a l = 0%nat.
Proof. intros H Ha%bool_decide_eq_false. apply count_none. intros Hin. by apply Ha, H. Qed.

(** The part of a run that follows the clients: the database is opened around the services. *)
Definition run_body (dir : string) (c : Config) (ctx : ClientContext) : W unit :=
  if j_Enable (c_JSONRPC c) || c_EnableSync c then
    wbind (opening (openIndexerDB L dir (c_DBBackend c)) OpenDB) (λ _,
    deferred [CloseDB] (wbind (wlift (let! _ := buildKVIndexerOptions L c ctx in Ok tt)) (λ _, run_services L c)))
  else run_services L c.

Lemma body_trace dir c ctx :
  ∃ (db : bool) s, (run_body dir c ctx).2 = (if db then [OpenDB] else []) ++ s ++ (if db then [CloseDB] else []) ∧
    (s = [] ∨ s = (run_services L c).2).
Proof.
  unfold run_body. destruct (_ || _); [|exists false, (run_services L c).2; rewrite app_nil_r; eauto].
  rewrite wbind_trace, opening_trace, opening_ok. destruct (openIndexerDB _ _ _) as [[]| |]; [|by exists false, []; eauto..].
  exists true. cbn [deferred snd]. rewrite wbind_trace. cbn [wlift fst snd app]. destruct (res_bind _ _); eauto.
Qed.

Lemma body_counts dir c ctx l :
  l = (run_body dir c ctx).2 → count OpenDB l = count CloseDB l ∧
  Forall (λ a, count a l = 0%nat) [OpenRPC; StopRPC; OpenGRPC; CloseGRPC; OpenBroadcast; StopBroadcast; CloseTimings; StopProfile] ∧
  (StartSyncer ∈ l → (j_Enable (c_JSONRPC c) = true → is_ok (Start L c).1 = true) → ∃ l1 l2, l = l1 ++ WaitGroup :: l2 ∧ CloseDB ∉ l1).
Proof.
  intros ->. destruct (body_trace dir c ctx) as (db & s & -> & Hs). destruct (services_trace c) as (k & Ek & Hk).
  assert (∀ x, x ∈ s → x ∈ [StartSyncer; Listen; StartWebsocket; WaitGroup; Shutdown]) as Hsub.
  { intros x Hx. destruct Hs as [->| ->]; [by rewrite elem_of_nil in Hx|]. rewrite Ek, !elem_of_app in Hx.
    destruct Hx as [Hx|[Hx|Hx]]; [destruct (c_EnableSync c)|apply Hk in Hx|destruct (_ && _)]; set_solver. }
  split_and!.
  - rewrite !count_app, !(count_sub _ s _ Hsub) by done. by destruct db.
  - repeat constructor; rewrite !count_app, (count_sub _ s _ Hsub) by done; by destruct db.
  - intros Hin Hok. assert (s = (run_services L c).2) as ->. { destruct Hs as [->|]; [|done]. exfalso. destruct db; set_solver. }
    rewrite Ek. assert (j_Enable (c_JSONRPC c) && negb (is_ok (Start L c).1) = false) as ->.
    { destruct (j_Enable _); [|done]. by rewrite Hok. }
    exists ((if db then [OpenDB] else []) ++ (if c_EnableSync c then [StartSyncer] else []) ++ k), (Shutdown :: if db then [CloseDB] else []).
    split; [by rewrite <- !app_assoc|]. rewrite !not_elem_of_app. split_and!; [by destruct db; set_solver|by destruct (c_EnableSync c); set_solver|].
    intros Hc%Hk. set_solver.
Qed.

Definition run_clients (c : Config) (dir : string) : W unit :=
  wbind (buildClientContext L def url c) (λ '(c', ctx),
  wbind (if j_Enable (c_JSONRPC c') then buildBroadcastClientContext L c' ctx else wret (ctx, false)) (λ '(_, bc),
  deferred (release_clients ctx bc) (run_body dir c' ctx))).

Lemma Run_shape c :
  ∃ l, (Run L def url c).2 = l ++ [CancelContext] ∧
    if is_ok (expandHome L (c_DataDir (Normalize c))) && is_ok (sl_CPUProfile L)
    then ∃ dir, l = (run_clients (Normalize c) dir).2 ++ [CloseTimings; StopProfile] else l = [].
Proof.
  unfold Run. cbn [deferred snd]. eexists. split; [done|]. rewrite wbind_trace. cbn [wlift fst snd app].
  destruct (expandHome L _) as [dir| |]; [|done..]. rewrite wbind_trace. cbn [wlift fst snd app].
  destruct (sl_CPUProfile L); [|done..]. by exists dir.
Qed.

(** What holds of the clients when they could be built. *)
Definition clients_released (c : Config) (l : list action) : Prop :=
  ∀ c' ctx, (buildClientContext L def url (Normalize c)).1 = Ok (c', ctx) →
    (j_Enable (c_JSONRPC c') = true → is_ok (buildBroadcastClientContext L c' ctx).1 = true) →
    count OpenRPC l = count StopRPC l ∧ count OpenGRPC l = count CloseGRPC l ∧
    (StartSyncer ∈ l → (j_Enable (c_JSONRPC c') = true → is_ok (Start L c').1 = true) →
      ∃ l1 l2, l = l1 ++ WaitGroup :: l2 ∧ CloseDB ∉ l1).

Lemma broadcast_stage c' ctx :
  let m := if j_Enable (c_JSONRPC c') then buildBroadcastClientContext L c' ctx else wret (ctx, false) in
  m.2 = match m.1 with Ok (_, true) => [OpenBroadcast] | _ => [] end.
Proof. cbn zeta. destruct (j_Enable _); [apply broadcast_trace|done]. Qed.

Lemma clients_counts c dir l :
  l = (run_clients (Normalize c) dir).2 →
  count OpenDB l = count CloseDB l ∧ count OpenBroadcast l = count StopBroadcast l ∧ clients_released c l.
Proof.
  intros ->. unfold run_clients, clients_released. rewrite wbind_trace. set (m := buildClientContext L def url (Normalize c)).
  assert (∀ x, x ∈ m.2 → x ∈ [OpenRPC; OpenGRPC; CloseGRPC]) as Hm by apply build_actions.
  destruct m.1 as [[c' ctx]|e|p] eqn:Em; cycle 1.
  1,2: rewrite app_nil_r, !(count_sub _ _ _ Hm) by done; split_and!; [done..|intros ??; congruence].
  rewrite wbind_trace. pose proof (broadcast_stage c' ctx) as Hb. cbn zeta in Hb.
  set (bm := if j_Enable (c_JSONRPC c') then _ else _) in *. rewrite Hb.
  apply build_trace in Em as Et. fold m in Et. destruct Et as (Et & E1 & E2).
  assert (clients_ok : (j_Enable (c_JSONRPC c') = true → is_ok (buildBroadcastClientContext L c' ctx).1 = true) → is_ok bm.1 = true).
  { unfold bm. destruct (j_Enable _); [auto|done]. }
  destruct bm.1 as [[ctx2 bc]|e|p] eqn:Eb; cycle 1.
  1,2: rewrite !count_app, !(count_sub _ m.2 _ Hm) by done; split_and!; [done..|]; intros ?? [= <- <-] H; by apply clients_ok in H.
  cbn [deferred snd]. remember (run_body dir c' ctx).2 as k eqn:Ek. destruct (body_counts dir c' ctx k Ek) as (Hdb & Hz & Hw).
  rewrite !Forall_cons in Hz. destruct Hz as (Z1 & Z2 & Z3 & Z4 & Z5 & Z6 & _ & _ & _). unfold release_clients. rewrite Et, E1, E2.
  rewrite !count_app, Z5, Z6. split_and!.
  - rewrite Hdb. generalize (count CloseDB k). intros n. destruct (c_OfflineRPCOnly _), bc; reflexivity.
  - destruct (c_OfflineRPCOnly _), bc; reflexivity.
  - intros c2 ctx2' [= <- <-] _. rewrite ?count_app, Z1, Z2, Z3, Z4. split_and!; [destruct (c_OfflineRPCOnly _), bc; reflexivity..|].
    intros Hin Hok. assert (StartSyncer ∈ k) as Hk.
    { rewrite !elem_of_app in Hin. destruct (c_OfflineRPCOnly _), bc; set_solver. }
    destruct (Hw Hk Hok) as (l1 & l2 & -> & Hn).
    exists ((if c_OfflineRPCOnly (Normalize c) then [] else [OpenRPC; OpenGRPC]) ++ (if bc then [OpenBroadcast] else []) ++ l1),
      (l2 ++ release_clients ctx bc). unfold release_clients. rewrite E1, E2. split; [by rewrite <- !app_assoc|].
    rewrite !not_elem_of_app. split_and!; [by destruct (c_OfflineRPCOnly _); set_solver|by destruct bc; set_solver|done].
Qed.

(** Releases in the order of the deferred functions: the database before the clients. *)
Definition db_before_clients (l : list action) : Prop :=
  ∀ l1 l2, l = l1 ++ CloseDB :: l2 → ∀ a, a ∈ [StopBroadcast; StopRPC; CloseGRPC] → a ∉ l1.

Lemma ordered_app x y :
  (∀ a, a ∈ [StopBroadcast; StopRPC; CloseGRPC] → a ∉ x) → CloseDB ∉ y → db_before_clients (x ++ y).
Proof.
  intros Hx Hy l1 l2 E a Ha Hin. apply app_eq_app in E as [k [[-> _]|[_ ->]]]; [apply (Hx a Ha)|apply Hy]; set_solver.
Qed.

Lemma count_elem a l : count a l = 0%nat → a ∉ l.
Proof.
  unfold count. intros H Hin. apply length_zero_iff_nil in H. assert (a ∈ filter (a =.) l) as Hf by (by apply list_elem_of_filter).
  rewrite H in Hf. by apply elem_of_nil in Hf.
Qed.

(** The stages of a run with clients: nothing is released before the body, the database is
    closed in it, the clients after it. *)
Lemma clients_ordered c dir : let l := (run_clients (Normalize c) dir).2 in db_before_clients l ∧ CloseTimings ∉ l ∧ StopProfile ∉ l.
Proof.
  cbn zeta. unfold run_clients. rewrite wbind_trace. set (m := buildClientContext L def url (Normalize c)).
  assert (∀ x, x ∈ m.2 → x ∈ [OpenRPC; OpenGRPC; CloseGRPC]) as Hm by apply build_actions.
  destruct m.1 as [[c' ctx]|e|p] eqn:Em; cycle 1.
  1,2: rewrite app_nil_r; split_and!; [apply (ordered_app []); [set_solver|]|..]; intros H%Hm; set_solver.
  apply build_trace in Em as (Et & _). fold m in Et.
  rewrite wbind_trace. pose proof (broadcast_stage c' ctx) as Hb. cbn zeta in Hb. set (bm := if j_Enable (c_JSONRPC c') then _ else _) in *. rewrite Hb.
  assert (∀ x, x ∈ m.2 → x ∈ [OpenRPC; OpenGRPC]) as Hm' by (rewrite Et; destruct (c_OfflineRPCOnly _); set_solver). clear Hm Et.
  destruct bm.1 as [[ctx2 bc]|e|p]; cycle 1.
  1,2: rewrite app_nil_l, ?app_nil_r; split_and!; [apply (ordered_app []); [set_solver|]|..]; intros H%Hm'; set_solver.
  cbn [deferred snd]. destruct (body_counts dir c' ctx _ eq_refl) as (_ & Hz & _). set (k := (run_body dir c' ctx).2) in *.
  rewrite !Forall_cons in Hz. destruct Hz as (_ & Z2 & _ & Z4 & _ & Z6 & Z7 & Z8 & _). apply count_elem in Z2, Z4, Z6, Z7, Z8.
  assert (∀ x, x ∈ (if bc then [OpenBroadcast] else []) → x = OpenBroadcast) as Hbc by (destruct bc; set_solver).
  assert (∀ x, x ∈ release_clients ctx bc → x ∈ [StopBroadcast; StopRPC; CloseGRPC]) as Hrel
    by (unfold release_clients; destruct bc, (cc_Client ctx), (cc_GRPC ctx); set_solver).
  split_and!.
  - rewrite !app_assoc. apply ordered_app; [|intros H%Hrel; set_solver]. intros a Ha Hin. rewrite !elem_of_app in Hin.
    destruct Hin as [[Hin%Hm'|Hin%Hbc]|Hin]; [set_solver|subst a; set_solver|]. rewrite !elem_of_cons in Ha.
    destruct Ha as [->|[->|[->|Ha]]]; [done..|by apply elem_of_nil in Ha].
  - rewrite !elem_of_app. intros [H%Hm'|[H%Hbc|[H|H%Hrel]]]; [set_solver|done|done|set_solver].
  - rewrite !elem_of_app. intros [H%Hm'|[H%Hbc|[H|H%Hrel]]]; [set_solver|done|done|set_solver].
Qed.

(** Actions after the clients do not disturb the order. *)
Lemma ordered_snoc l k : db_before_clients l → CloseDB ∉ k → db_before_clients (l ++ k).
Proof.
  intros H Hk l1 l2 E a Ha. apply app_eq_app in E as [q [[-> Eq]|[-> Eq]]].
  - destruct q as [|x q]; cbn in Eq; [exfalso; apply Hk; rewrite <- Eq; set_solver|]. injection Eq as <- ->. by apply (H l1 q).
  - exfalso. apply Hk. rewrite Eq. set_solver.
Qed.

(** C28. [Run] releases what it opened, on every path out of it: the context is
    cancelled last; the database is closed as often as it was opened and so is the
    client for broadcasts; the database is closed before any client is released; and once
    the clients could be built, the RPC client and the gRPC connection are released too, and
    a database that the syncer works on is closed only after the wait for the services,
    provided the server could be started.  When the data directory and the profile could be
    set up, the recorder of timings and the profile are closed after everything else. *)
Theorem Run_releases c :
  let l := (Run L def url c).2 in
  last l = Some CancelContext ∧ count OpenDB l = count CloseDB l ∧ count OpenBroadcast l = count StopBroadcast l ∧ clients_released c l ∧
  db_before_clients l ∧
  (is_ok (expandHome L (c_DataDir (Normalize c))) = true → is_ok (sl_CPUProfile L) = true →
     [CloseTimings; StopProfile; CancelContext] `suffix_of` l ∧ count CloseTimings l = 1%nat ∧ count StopProfile l = 1%nat).
Proof.
  cbn zeta. destruct (Run_shape c) as (l & -> & Hl). rewrite last_snoc. split; [done|]. rewrite !count_app.
  destruct (is_ok (expandHome _ _) && is_ok (sl_CPUProfile L)) eqn:Eok; [|subst l].
  - destruct Hl as [dir ->]. destruct (clients_counts c dir _ eq_refl) as (H1 & H2 & H3). destruct (clients_ordered c dir) as (O1 & O2 & O3).
    rewrite !count_app, H1, H2. split_and!; [done..| | |].
    + intros c' ctx Hb Hok. destruct (H3 c' ctx Hb Hok) as (H4 & H5 & H6). rewrite !count_app, H4, H5. split_and!; [done..|].
      intros Hin Hs. destruct H6 as (l1 & l2 & -> & Hn); [set_solver|done|]. exists l1, (l2 ++ [CloseTimings; StopProfile; CancelContext]).
      by rewrite <- !app_assoc.
    + apply ordered_snoc; [apply ordered_snoc|]; [done|set_solver..].
    + intros _ _. rewrite !(count_none CloseTimings (run_clients _ _).2), !(count_none StopProfile (run_clients _ _).2) by done.
      split; [|done]. exists (run_clients (Normalize c) dir).2. by rewrite <- app_assoc.
  - split_and!; [done..| | |].
    + intros c' ctx _ _. split_and!; [done..|]. intros Hin. set_solver.
    + apply (ordered_app []); set_solver.
    + intros E1 E2. by rewrite E1, E2 in Eok.
Qed.
End traces.

(** ** Addresses *)

Lemma index_byte_none c l : c ∉ l → index_byte c l = None.
Proof. induction l as [|x l IH]; cbn; [done|]. intros [Hx H]%not_elem_of_cons. rewrite bool_decide_eq_false_2 by done. by rewrite IH. Qed.

Lemma index_byte_app c l k : c ∉ l → index_byte c (l ++ c :: k) = Some (length l).
Proof.
  induction l as [|x l IH]; cbn; [by rewrite bool_decide_eq_true_2|]. intros [Hx H]%not_elem_of_cons.
  rewrite bool_decide_eq_false_2 by done. by rewrite IH.
Qed.

Lemma contains_false c l : c ∉ l → contains_byte c l = false.
Proof. intros H. unfold contains_byte. by rewrite index_byte_none. Qed.

Lemma contains_true c l : c ∈ l → contains_byte c l = true.
Proof.
  intros H. unfold contains_byte. apply bool_decide_eq_true_2. induction l as [|x l IH]; [by apply elem_of_nil in H|]. cbn.
  case_bool_decide; [done|]. apply elem_of_cons in H as [->|H]; [done|]. destruct (IH H) as [n ->]. by eexists.
Qed.

Lemma last_index_app c l k : c ∉ k → last_index_byte c (l ++ c :: k) = Some (length l).
Proof.
  intros H. unfold last_index_byte. rewrite reverse_app, reverse_cons, <- app_assoc. cbn. rewrite index_byte_app by by rewrite elem_of_reverse.
  cbn. rewrite length_app, length_reverse. cbn. f_equal. lia.
Qed.

(** A host and a port that can be joined: no brackets, and no colon in the port. *)
Definition host_text (host : list ascii) : Prop := "["%char ∉ host ∧ "]"%char ∉ host.
Definition port_text (port : list ascii) : Prop := "["%char ∉ port ∧ "]"%char ∉ port ∧ ":"%char ∉ port.

(** Joining a host and a port and splitting the address gives them back, for IPv6
    hosts in brackets too. *)
Theorem SplitHostPort_JoinHostPort host port :
  host_text (list_ascii_of_string host) → port_text (list_ascii_of_string port) → SplitHostPort (JoinHostPort host port) = Some (host, port).
Proof.
  unfold SplitHostPort, JoinHostPort. rewrite list_ascii_of_string_of_list_ascii.
  intros [Ho Hc] (Po & Pc & Pn). set (h := list_ascii_of_string host) in *. set (p := list_ascii_of_string port) in *.
  assert (split_host_port (join_host_port h p) = Some (h, p)) as ->; [|cbn; unfold h, p; by rewrite !string_of_list_ascii_of_string].
  unfold join_host_port. destruct (decide (":"%char ∈ h)) as [Hin|Hin].
  - rewrite contains_true by done. unfold split_host_port.
    assert ("["%char :: h ++ "]"%char :: ":"%char :: p = ("["%char :: h ++ ["]"%char]) ++ ":"%char :: p) as E by by rewrite <- app_comm_cons, <- app_assoc.
    rewrite E at 1. rewrite last_index_app by done. cbn [length]. rewrite length_app. cbn [length].
    assert (index_byte "]" ("["%char :: h ++ "]"%char :: ":"%char :: p) = Some (S (length h))) as ->.
    { cbn. by rewrite index_byte_app. }
    rewrite bool_decide_eq_true_2 by lia.
    assert (drop 1 ("["%char :: h ++ "]"%char :: ":"%char :: p) = h ++ "]"%char :: ":"%char :: p) as -> by done.
    assert (drop (S (S (length h))) ("["%char :: h ++ "]"%char :: ":"%char :: p) = ":"%char :: p) as ->.
    { rewrite E. rewrite drop_app_ge by (cbn; rewrite length_app; cbn; lia). cbn. rewrite length_app. cbn.
      by replace (S (length h) - (length h + 1))%nat with 0%nat by lia. }
    rewrite (contains_false "["), (contains_false "]"); [|set_solver..]. cbn [orb]. f_equal. f_equal.
    + cbn [take drop]. by rewrite take_app_length.
    + rewrite E. rewrite drop_app_ge by (cbn; rewrite length_app; cbn; lia). cbn. rewrite length_app. cbn.
      by replace (S (length h + 1) - (length h + 1))%nat with 1%nat by lia.
  - rewrite contains_false by done. unfold split_host_port. rewrite last_index_app by done.
    rewrite take_app_length. rewrite !(contains_false _ (h ++ _)) by set_solver. rewrite contains_false by done. cbn [orb].
    assert (drop (S (length h)) (h ++ ":"%char :: p) = p) as ->.
    { rewrite drop_app_ge by lia. by replace (S (length h) - length h)%nat with 1%nat by lia. }
    destruct h as [|c h]; [done|]. cbn [app]. destruct (decide (c = "["%char)) as [->|Hne]; [set_solver|].
    destruct c as [[] [] [] [] [] [] [] []]; done.
Qed.

Module Witness.

(** A node of chain 1776 that answers everything. *)
Definition sample_start (broadcast listen : res string unit) : StartLib :=
  mkStart (Ok tt) (λ url _, if bool_decide (url = "http://b:1"%string) then broadcast else Ok tt) (Ok "injective-1"%string) (λ _, Ok tt)
    (Ok (Some (Some 1776))) (λ _, Ok 1776) (Ok "/root"%string) (λ a b, a ++ "/" ++ b)%string (Ok tt) (Ok 100) (λ _, Ok 50000000)
    (λ _ _, Ok tt) (λ _, Ok tt) (λ _ _, listen) None.

Definition two_nodes : Config := with_broadcast DefaultConfig "http://b:1".

Lemma sample_calm broadcast listen : calm broadcast → calm listen → calm_start (sample_start broadcast listen).
Proof. intros Hb Hl. unfold calm_start. cbn. split_and!; try done. intros s n. by case_bool_decide. Qed.

Lemma sample_ids broadcast listen : sound_ids (sample_start broadcast listen).
Proof. split; cbn; [intros id [= <-]; lia|intros s id [= <-]; lia]. Qed.

(** The whole of a regular run. *)
Example regular_run :
  Run (sample_start (Ok tt) (Ok tt)) 1776 (λ _, None) two_nodes =
  (Ok tt, [OpenRPC; OpenGRPC; OpenBroadcast; OpenDB; StartSyncer; Listen; StartWebsocket; WaitGroup; Shutdown; CloseDB;
           StopBroadcast; StopRPC; CloseGRPC; CloseTimings; StopProfile; CancelContext]).
Proof. vm_compute. reflexivity. Qed.

(** A client for broadcasts that cannot be made: the RPC client and the gRPC
    connection stay open. *)
Lemma broadcast_failure_leaks :
  (Run (sample_start (Err "refused"%string) (Ok tt)) 1776 (λ _, None) two_nodes).2 = [OpenRPC; OpenGRPC; CloseTimings; StopProfile; CancelContext].
Proof. vm_compute. reflexivity. Qed.

(** A port that cannot be listened on: the database is closed while the syncer runs. *)
Lemma listen_failure_closes_database :
  (Run (sample_start (Ok tt) (Err "address in use"%string)) 1776 (λ _, None) two_nodes).2 =
  [OpenRPC; OpenGRPC; OpenBroadcast; OpenDB; StartSyncer; CloseDB; StopBroadcast; StopRPC; CloseGRPC; CloseTimings; StopProfile; CancelContext].
Proof. vm_compute. reflexivity. Qed.

Lemma env_file_roundtrip_witness :
  loadEnvFile (λ _, Some (entry_line <$> [("WEB3INJ_ENV", "a b"); ("WEB3INJ_ENV", "prod")]%string, None)) ∅ ".env" =
  (<["WEB3INJ_ENV"%string := "prod"%string]> (<["WEB3INJ_ENV"%string := "a b"%string]> ∅), None).
Proof.
  refine (env_file_roundtrip (λ _, Some (entry_line <$> [("WEB3INJ_ENV", "a b"); ("WEB3INJ_ENV", "prod")]%string, None)) ∅ ".env"
    [("WEB3INJ_ENV", "a b"); ("WEB3INJ_ENV", "prod")]%string _ eq_refl).
  assert (∀ v, nul ∉ list_ascii_of_string v → head (list_ascii_of_string v) ≠ Some quote → last (list_ascii_of_string v) ≠ Some quote →
    plain_entry ("WEB3INJ_ENV"%string, v)) as H.
  { intros v H1 H2 H3. split_and!; cbn [fst snd]; try done.
    - repeat (apply Forall_cons; split; [vm_compute; split; discriminate|]). apply Forall_nil. exact I.
    - apply (bool_decide_unpack _). vm_compute. exact I. }
  apply Forall_cons. split; [apply H; try done; apply (bool_decide_unpack _); vm_compute; exact I|].
  apply Forall_cons. split; [apply H; try done; apply (bool_decide_unpack _); vm_compute; exact I|]. apply Forall_nil. exact I.
Defined.

Lemma SplitHostPort_JoinHostPort_witness : SplitHostPort (JoinHostPort "::1" "443") = Some ("::1"%string, "443"%string).
Proof.
  apply (SplitHostPort_JoinHostPort "::1" "443").
  - split; apply (bool_decide_unpack _); vm_compute; exact I.
  - split_and!; apply (bool_decide_unpack _); vm_compute; exact I.
Defined.

(** Caps beyond 32 bits wrap before they are validated, and a negative gas cap becomes
    the largest one. *)
Lemma caps_wrap :
  let env : environment := list_to_map [("WEB3INJ_JSONRPC_LOGS_CAP", "4294967301"); ("WEB3INJ_JSONRPC_GAS_CAP", "-1")]%string in
  match (Load (λ _, Err EmptyString) (λ _, Err EmptyString) (λ _, None) env EmptyString).1 with
  | Ok c => j_LogsCap (c_JSONRPC c) = 5 ∧ j_GasCap (c_JSONRPC c) = 2 ^ 64 - 1
  | _ => False
  end.
Proof. vm_compute. split; reflexivity. Qed.

(** A chain id with surrounding spaces is valid, but never equal to the node's. *)
Lemma spaced_chain_id_refused :
  Validate (with_ids DefaultConfig EmptyString " 1776 ") = Ok tt ∧
  is_ok (Run (sample_start (Ok tt) (Ok tt)) 1776 (λ _, None) (with_ids DefaultConfig EmptyString " 1776 ")).1 = false.
Proof. vm_compute. split; reflexivity. Qed.
End Witness.
End AppProps.
