(* ===== verification/Commands.v ===== *)
(** * Commands

    src/cmd/evm-gateway: the options of the command line as a configuration
    (buildConfig), the targets of the resync command, the lists of namespaces and the
    .env file read at the start of main.  The parser of options is a parameter: a
    record holds the values it yields. *)

From Stdlib Require Import Ascii String.
From S2P Require Import Prelude Ranges Bytes Instances GoLib Indexer RpcTypes Backend BackendFees Decimals AppConfig AppStart AppProps.
From stdpp Require Import strings list gmap.
#[local] Open Scope Z_scope.

Module Commands.
Import GoLib Ranges Decimals AppConfig AppStart.

(** ** Options *)

(** The two options that main reads itself, the file of the environment and the
    version, are left out. *)
Record gatewayCLIOptions := mkOptions {
  o_chainID : string;
  o_evmChainID : string;
  o_cometRPC : string;
  o_cometBroadcastRPC : string;
  o_grpcAddr : string;
  o_earliest : Z;
  o_fetchJobs : Z;
  o_dataDir : string;
  o_enableSync : bool;
  o_parallelSyncTipAndGaps : bool;
  o_virtualizeCosmosEvents : bool;
  o_offlineRPCOnly : bool;
  o_logFormat : string;
  o_logVerbose : bool;
  o_enableRPC : bool;
  o_rpcAddr : string;
  o_wsAddr : string;
  o_rpcAPI : string;
  o_traceTimeoutCap : string;
  o_tracingEnabled : bool;
  o_tracingDSN : string;
  o_tracingCollectorAuthorization : string;
  o_tracingCollectorAuthorizationName : string;
  o_tracingCollectorEnableTLS : bool;
}.

(** The same cleaning of a comma-separated list as in the configuration. *)
Definition parseCSV (value : string) (fallback : list string) : list string := csv value fallback.

(** The configuration before it is normalized: what the options do not name keeps
    its default. *)
Definition configured (opts : gatewayCLIOptions) (traceTimeoutCap : Z) : Config :=
  let d := DefaultConfig in
  let j := c_JSONRPC d in
  let t := c_Tracing d in
  mkConfig (c_Env d) (o_logFormat opts) (o_logVerbose opts) (o_chainID opts) (o_evmChainID opts) (o_cometRPC opts)
    (o_cometBroadcastRPC opts) (o_grpcAddr opts) (o_earliest opts) (o_fetchJobs opts) (c_RPCMaxIdleConnsPerHost d)
    (o_dataDir opts) (c_DBBackend d) (c_AllowGaps d) (o_enableSync opts) (o_parallelSyncTipAndGaps opts)
    (o_virtualizeCosmosEvents opts) (o_offlineRPCOnly opts) (c_MinGasPrices d)
    (mkJSONRPC (o_enableRPC opts) (parseCSV (o_rpcAPI opts) (j_API j)) (o_rpcAddr opts) (o_wsAddr opts) (j_EnableUnsafeCors j)
       (j_GasCap j) (j_EVMTimeout j) traceTimeoutCap (j_TxFeeCap j) (j_FilterCap j) (j_FeeHistoryCap j) (j_LogsCap j)
       (j_BlockRangeCap j) (j_HTTPTimeout j) (j_HTTPIdleTimeout j) (j_AllowUnprotectedTx j) (j_MaxOpenConnections j)
       (j_ReturnDataLimit j))
    (mkTracing (o_tracingEnabled opts) (o_tracingDSN opts) (o_tracingCollectorAuthorization opts)
       (o_tracingCollectorAuthorizationName opts) (o_tracingCollectorEnableTLS opts) (t_ClusterID t))
    (c_ShutdownTimeout d).

Section build.
Context (ParseDuration : string → res string Z) (UserHomeDir : res string string) (filepath_Join : string → string → string).

Definition buildConfig (opts : gatewayCLIOptions) : res error Config :=
  let! cap := res_map_err (λ e, Wrap "invalid jsonrpc trace-timeout-cap: %w" (New e)) (ParseDuration (o_traceTimeoutCap opts)) in
  let cfg := Expand UserHomeDir filepath_Join (Normalize (configured opts cap)) in
  let! _ := Validate cfg in
  Ok cfg.

(** The start command: the configuration, then the application. *)
Definition runStart (L : StartLib) (def : Z) (url : string → option string) (opts : gatewayCLIOptions) : res error unit :=
  let! cfg := buildConfig opts in
  (Run L def url cfg).1.
End build.

(** ** Targets of a resync *)

Definition parseResyncHeight (raw : string) : res error Z :=
  match strconv_Atoi raw with
  | Ok height => if bool_decide (height < 0) then Err (Errorf "block height %d cannot be negative") else Ok height
  | _ => Err (Errorf "invalid block height %q")
  end.

Definition strings_Count (c : ascii) (s : string) : nat := length (filter (c =.) (list_ascii_of_string s)).

Definition parseResyncTarget (raw : string) : res error BlockRange :=
  if bool_decide (raw = EmptyString) then Err (Errorf "empty resync target")
  else if negb (has_byte ":" raw) then
    let! height := res_map_err (Wrap "parse resync target %q") (parseResyncHeight raw) in
    Ok (mkRange height height)
  else if bool_decide (strings_Count ":" raw ≠ 1%nat) then Err (Errorf "parse resync target %q: expected START:END")
  else match cut_at ":" raw with
       | None => Err (Errorf "parse resync target %q: expected START:END")
       | Some (startRaw, endRaw) =>
           let! start := res_map_err (Wrap "parse resync target %q") (parseResyncHeight startRaw) in
           let! end_ := res_map_err (Wrap "parse resync target %q") (parseResyncHeight endRaw) in
           if bool_decide (end_ < start) then Err (Errorf "parse resync target %q: start block %d greater than end block %d")
           else Ok (mkRange start end_)
       end.

Definition parseResyncTargets (args : list string) : res error (list BlockRange) :=
  match args with
  | [] => Err (Errorf "no resync targets provided")
  | _ => let! targets := res_mapM parseResyncTarget args in Ok (NormalizeRanges targets)
  end.

(** The resync command: targets, configuration, and the application around the resync
    of the indexer service. *)
Definition runResync (ParseDuration : string → res string Z) (UserHomeDir : res string string)
    (filepath_Join : string → string → string) (L : StartLib) (def : Z) (url : string → option string)
    (resync : list BlockRange → res error unit) (opts : gatewayCLIOptions) (args : list string) : res error unit :=
  let! targets := parseResyncTargets args in
  let! cfg := buildConfig ParseDuration UserHomeDir filepath_Join opts in
  (RunResync L def url cfg (resync targets)).1.

(** ** The .env file of the current directory *)

(** readEnv: every line with an equals sign is an assignment; a refused one is
    logged. *)
Definition readEnv (lines : option (list string)) (env : environment) : environment :=
  match lines with
  | None => env
  | Some lines =>
      foldl (λ env txt,
        match cut_at "=" txt with
        | None => env
        | Some (name, value) => default env (Setenv env name (trim_byte quote value))
        end) env lines
  end.

(** ** Properties *)

(** A configuration from the command line is valid. *)
Lemma buildConfig_valid ParseDuration home join opts cfg : buildConfig ParseDuration home join opts = Ok cfg → Validate cfg = Ok tt.
Proof. unfold buildConfig. intros (cap & _ & ([] & H & [= <-])%res_bind_ok)%res_bind_ok. done. Qed.

Lemma Validate_calm cfg : AppProps.calm (Validate cfg).
Proof.
  assert (∀ bad msg (k : res error unit), AppProps.calm k → AppProps.calm (let! _ := check bad msg in k)) as H by (by intros []).
  assert (∀ bad msg, AppProps.calm (check bad msg)) as H' by (by intros []).
  unfold Validate. cbn zeta. do 10 apply H. destruct (c_OfflineRPCOnly cfg); [apply H, H'|done].
Qed.

(** The start command never panics: whatever options are given, whatever the node
    answers and whichever namespaces are selected, a configuration that passes
    validation leads to backends whose chain id is a positive number, whether it comes
    from the options, from the node, from the name of the chain in offline mode or from
    the default of the virtual backfill. *)
Theorem runStart_never_panics ParseDuration home join L def url opts :
  (∀ s, AppProps.calm (ParseDuration s)) → AppProps.calm_start L → AppProps.sound_ids L → 0 < def →
  AppProps.calm (runStart ParseDuration home join L def url opts).
Proof.
  intros Hp Hc Hi Hd. unfold runStart. apply AppProps.calm_bind.
  - unfold buildConfig. apply AppProps.calm_bind; [by apply AppProps.calm_map_err|]. intros cap _. cbn zeta.
    apply AppProps.calm_bind; [apply Validate_calm|done].
  - intros cfg H%buildConfig_valid. by apply AppProps.Run_calm.
Qed.

(** Targets as they are written on the command line. *)
Definition target_text (r : BlockRange) (short : bool) : string :=
  if short then strconv_Itoa (Ranges.Start r) else (strconv_Itoa (Ranges.Start r) ++ String ":" (strconv_Itoa (End_ r)))%string.

Definition writable (t : BlockRange * bool) : Prop :=
  0 ≤ Ranges.Start t.1 ≤ End_ t.1 ∧ End_ t.1 < 2 ^ 63 - 1 ∧ (t.2 = true → Ranges.Start t.1 = End_ t.1).

Lemma parse_height z : 0 ≤ z < 2 ^ 63 → parseResyncHeight (strconv_Itoa z) = Ok z.
Proof. intros Hz. unfold parseResyncHeight. rewrite Atoi_Itoa by done. by rewrite bool_decide_eq_false_2 by lia. Qed.

Lemma Itoa_no_colon z : 0 ≤ z → ":"%char ∉ list_ascii_of_string (strconv_Itoa z).
Proof. intros Hz. by apply Itoa_no_byte. Qed.

Lemma count_zero c s : c ∉ list_ascii_of_string s → strings_Count c s = 0%nat.
Proof.
  unfold strings_Count. induction (list_ascii_of_string s) as [|x l IH]; [done|]. intros [Hx H]%not_elem_of_cons.
  rewrite filter_cons, decide_False by done. by apply IH.
Qed.

Lemma parse_target t : writable t → parseResyncTarget (target_text t.1 t.2) = Ok t.1.
Proof.
  destruct t as [[s e] short]. unfold writable. cbn. intros (Hs & He & Hshort). unfold parseResyncTarget, target_text. cbn [Ranges.Start End_].
  destruct short.
  - rewrite bool_decide_eq_false_2 by apply Itoa_nonempty. unfold has_byte. rewrite bool_decide_eq_false_2 by (apply Itoa_no_colon; lia).
    cbn [negb]. rewrite parse_height by lia. cbn. by rewrite Hshort.
  - set (text := (strconv_Itoa s ++ String ":" (strconv_Itoa e))%string).
    assert (list_ascii_of_string text = list_ascii_of_string (strconv_Itoa s) ++ ":"%char :: list_ascii_of_string (strconv_Itoa e)) as Hl
      by apply AppProps.list_of_append.
    rewrite bool_decide_eq_false_2 by (intros E; rewrite E in Hl; by destruct (list_ascii_of_string (strconv_Itoa s))).
    unfold has_byte. rewrite bool_decide_eq_true_2 by (rewrite Hl; set_solver). cbn [negb].
    assert (strings_Count ":" text = 1%nat) as ->.
    { unfold strings_Count. rewrite Hl, filter_app, length_app, filter_cons, decide_True by done. cbn [length].
      change (strings_Count ":" (strconv_Itoa s) + S (strings_Count ":" (strconv_Itoa e)) = 1)%nat.
      by rewrite !count_zero by (apply Itoa_no_colon; lia). }
    rewrite bool_decide_eq_false_2 by (intros H; by apply H). unfold text. rewrite AppProps.cut_at_append by (apply Itoa_no_colon; lia).
    rewrite parse_height by lia. cbn. rewrite parse_height by lia. cbn. by rewrite bool_decide_eq_false_2 by lia.
Qed.

(** The targets of a resync read back as written: heights and START:END ranges on
    the command line are parsed to the canonical list of exactly the heights they
    cover. *)
Theorem resync_targets_roundtrip ts :
  ts ≠ [] → Forall writable ts →
  ∃ targets, parseResyncTargets ((λ t, target_text t.1 t.2) <$> ts) = Ok targets ∧ canonical targets ∧
    ∀ h, in_ranges h targets ↔ in_ranges h ts.*1.
Proof.
  intros Hne Hw. assert (res_mapM parseResyncTarget ((λ t, target_text t.1 t.2) <$> ts) = Ok ts.*1) as Hp.
  { clear Hne. induction Hw as [|t ts Ht Hw IH]; [done|]. cbn. rewrite parse_target by done. cbn. by rewrite IH. }
  exists (NormalizeRanges ts.*1). unfold parseResyncTargets. destruct ts as [|t ts]; [done|]. rewrite Hp. cbn [fmap list_fmap res_bind].
  destruct (NormalizeRanges_spec (t :: ts).*1) as [H1 H2]; [|by split_and!].
  apply Forall_fmap. eapply Forall_impl; [exact Hw|]. intros [r b] (Hs & He & _). unfold wf_range. cbn in *. lia.
Qed.

Module Witness.
Import AppProps.Witness.

Definition sample_options : gatewayCLIOptions :=
  mkOptions "injective-1" " 1776" "http://a:1" EmptyString "a:2" 1 4 "/data" true true false false "json" false true ":1" ":2" "eth, debug" "30s"
    false EmptyString EmptyString EmptyString true.

Lemma runStart_never_panics_witness :
  AppProps.calm (runStart (λ _, Ok (seconds 30)) (Ok "/root"%string) (λ a b, a ++ b)%string (sample_start (Ok tt) (Ok tt)) 1776 (λ _, None) sample_options).
Proof.
  apply (runStart_never_panics (λ _, Ok (seconds 30)) (Ok "/root"%string) (λ a b, a ++ b)%string (sample_start (Ok tt) (Ok tt)) 1776
    (λ _, None) sample_options).
  - intros s. exact I.
  - apply sample_calm; exact I.
  - apply sample_ids.
  - lia.
Defined.

Lemma resync_targets_roundtrip_witness :
  ∃ targets, parseResyncTargets ["7"; "1:3"]%string = Ok targets ∧ canonical targets ∧ ∀ h, in_ranges h targets ↔ in_ranges h [mkRange 7 7; mkRange 1 3].
Proof.
  refine (resync_targets_roundtrip [(mkRange 7 7, true); (mkRange 1 3, false)] _ _).
  - discriminate.
  - repeat constructor; cbn; lia || done.
Defined.
End Witness.
End Commands.
