(* ===== verification/KvInspect.v ===== *)
(** * The kvinspect command

    src/cmd/kvinspect/main.go: the encodings of stored values, the summary of a
    database, the values of a range of heights, and the search for a range whose block
    metadata is still JSON.  Reports are values here; their printing is left out. *)

From Stdlib Require Import Ascii String.
From S2P Require Import Prelude Ranges Bytes Instances GoLib EthTypes EthInstances Keys Normalize Virtual VirtualBank VirtualIbc Cached Codec.
From S2P Require Import CodecInstances Indexer IndexerQuery IndexerStore IndexerSample IndexerScan AppConfig.
From stdpp Require Import strings list gmap.
#[local] Open Scope Z_scope.

Module KvInspect.
Import GoLib EthTypes Keys Codec AppConfig.

(** ** Prefixes and encodings *)

Record prefixInfo := mkInfo {
  name : string;
  heightKey : bool;
  hashValue : bool;
  rawValue : bool;
  jsonLegacy : bool;
  protoLegacy : bool;
  traceLegacy : bool;
}.

Definition prefixes : gmap Z prefixInfo := list_to_map [
  (KeyPrefixTxHash, mkInfo "tx_result" false false false false true false);
  (KeyPrefixTxIndex, mkInfo "tx_index" true true true false false false);
  (KeyPrefixRPCtxHash, mkInfo "rpc_tx" false false false true false false);
  (KeyPrefixRPCtxIndex, mkInfo "rpc_tx_index" true true true false false false);
  (KeyPrefixReceipt, mkInfo "receipt" false false false true false false);
  (KeyPrefixBlockLogs, mkInfo "block_logs" true false false true false false);
  (KeyPrefixBlockMeta, mkInfo "block_meta" true false false true false false);
  (KeyPrefixBlockHash, mkInfo "block_hash" false false true false false false);
  (KeyPrefixTraceTx, mkInfo "trace_tx" false false false false false true);
  (KeyPrefixTraceBlock, mkInfo "trace_block" true false false false false true);
  (KeyPrefixVirtualRPCtx, mkInfo "virtual_rpc_tx" false false true false false false)]%string.

(** The zero value of a prefix that is not known. *)
Definition no_info : prefixInfo := mkInfo EmptyString false false false false false false.

(** bytes.TrimSpace *)
Definition bytes_TrimSpace (l : bytes) : bytes :=
  let l := strip (length l) white_space l in
  let r := reverse l in
  reverse (strip (length r) (reverse <$> white_space) r).

Definition brace : Z := 123.
Definition bracket : Z := 91.

Definition opens_json (trimmed : bytes) : bool :=
  match trimmed with b :: _ => bool_decide (b = brace) || bool_decide (b = bracket) | [] => false end.

Definition classifyValue (prefix : Z) (value : bytes) : string :=
  if bytes_HasPrefix value kvCapnpMagic then "capnp"
  else
    let info := default no_info (prefixes !! prefix) in
    let trimmed := bytes_TrimSpace value in
    if rawValue info then "raw"
    else if jsonLegacy info && opens_json trimmed then "json"
    else if traceLegacy info then
      if opens_json trimmed || bool_decide (trimmed = string_bytes "null") then "raw_json" else "raw"
    else if protoLegacy info then "legacy_proto"
    else if opens_json trimmed then "json"
    else "unknown".

Section ops.
Context {D : Type} {DB : KVDB D} {SD : SDK} {EL : EthLib}.

(** binary.BigEndian.Uint64(key[1:9]) as int64 *)
Definition heightFromKey (prefix : Z) (key : bytes) : option Z :=
  match prefixes !! prefix with
  | None => None
  | Some info =>
      if negb (heightKey info) || bool_decide (length key < 9)%nat then None
      else Some (int64 (be_value (take 8 (drop 1 key))))
  end.

Definition heightPrefix (prefix height : Z) : bytes := prefix :: be_bytes 8 (uint64 height).

(** ** Summary *)

Record prefixStats := mkStats {
  p_info : prefixInfo;
  p_total : Z;
  p_encoding : gmap string Z;
  p_minHeight : Z;
  p_maxHeight : Z;
  p_hasHeight : bool;
}.

Definition new_stats (info : prefixInfo) : prefixStats := mkStats info 0 ∅ (2 ^ 63 - 1) 0 false.

Definition incr (m : gmap string Z) (key : string) : gmap string Z := <[key := default 0 (m !! key) + 1]> m.

Definition count_entry (stat : prefixStats) (prefix : Z) (key value : bytes) : prefixStats :=
  let encoding := incr (p_encoding stat) (classifyValue prefix value) in
  match heightFromKey prefix key with
  | Some height =>
      mkStats (p_info stat) (p_total stat + 1) encoding
        (if bool_decide (height < p_minHeight stat) then height else p_minHeight stat)
        (if bool_decide (p_maxHeight stat < height) then height else p_maxHeight stat) true
  | None => mkStats (p_info stat) (p_total stat + 1) encoding (p_minHeight stat) (p_maxHeight stat) (p_hasHeight stat)
  end.

Definition summary_step (stats : gmap Z prefixStats) (kv : bytes * bytes) : gmap Z prefixStats :=
  match kv.1 with
  | [] => stats
  | prefix :: _ =>
      let stat := default (new_stats (mkInfo ("unknown_" ++ strconv_Itoa prefix) false false false false false false)) (stats !! prefix) in
      <[prefix := count_entry stat prefix kv.1 kv.2]> stats
  end.

(** The statistics of every prefix; a report lists those that occur. *)
Definition runSummary (d : D) : res error (gmap Z prefixStats) :=
  let! kvs := lib (db_iterator d [] None) in
  Ok (foldl summary_step (new_stats <$> prefixes) kvs).

(** ** Ranges of heights *)

Definition rangeStats : Type := gmap string (gmap string Z).

Definition add (s : rangeStats) (item encoding : string) : rangeStats := <[item := incr (default ∅ (s !! item)) encoding]> s.

(** countHeightValue and countHashValue *)
Definition countValue (d : D) (stats : rangeStats) (item : string) (key : bytes) (prefix : Z) : rangeStats :=
  match db_get d key with
  | Ok [] => add stats item "missing"
  | Ok value => add stats item (classifyValue prefix value)
  | _ => add stats item "read_error"
  end.

Definition hashesByHeight (d : D) (prefix height : Z) : res error (list Hash) :=
  let! kvs := lib (db_iterator d (heightPrefix prefix height) (Some (heightPrefix prefix (int64 (height + 1))))) in
  Ok (omap (λ kv : bytes * bytes, if bool_decide (length kv.2 = 32%nat) then Some (BytesToHash kv.2) else None) kvs).

Definition range_height (d : D) (stats : rangeStats) (height : Z) : res error rangeStats :=
  let stats := countValue d stats "block_meta" (BlockMetaKey height) KeyPrefixBlockMeta in
  let stats := countValue d stats "block_logs" (BlockLogsKey height) KeyPrefixBlockLogs in
  let! txHashes := res_map_err (Wrap "tx index %d: %w") (hashesByHeight d KeyPrefixTxIndex height) in
  let stats := foldl (λ stats hash,
    let stats := countValue d stats "tx_result" (TxHashKey hash) KeyPrefixTxHash in
    let stats := countValue d stats "receipt" (ReceiptKey hash) KeyPrefixReceipt in
    countValue d stats "rpc_tx" (RPCtxHashKey hash) KeyPrefixRPCtxHash) stats txHashes in
  let! rpcHashes := res_map_err (Wrap "rpc tx index %d: %w") (hashesByHeight d KeyPrefixRPCtxIndex height) in
  Ok (foldl (λ stats hash,
    let stats := countValue d stats "receipt" (ReceiptKey hash) KeyPrefixReceipt in
    countValue d stats "rpc_tx" (RPCtxHashKey hash) KeyPrefixRPCtxHash) stats rpcHashes).

(** for height := start; height <= end; height++ with end below the largest height *)
Definition runRange (d : D) (start end_ : Z) : res error rangeStats :=
  res_foldl (range_height d) ∅ (seqZ start (end_ - start + 1)).

Definition parseRange (raw : string) : res error (Z * Z) :=
  match cut_at ":" raw with
  | None => let! height := lib (strconv_Atoi raw) in Ok (height, height)
  | Some (startRaw, endRaw) =>
      let! start := lib (strconv_Atoi startRaw) in
      let! end_ := lib (strconv_Atoi endRaw) in
      if bool_decide (end_ < start) then Err (Errorf "start %d is greater than end %d") else Ok (start, end_)
  end.

(** ** A range of JSON metadata *)

Record find_state := mkFind { candidates : list (Z * Z); current : Z * Z; inRun : bool; last_ : Z }.

Definition find_start : find_state := mkFind [] (0, 0) false 0.

(** flush: a long enough run becomes a candidate. *)
Definition flush (blocks : Z) (s : find_state) : find_state :=
  mkFind (if inRun s && bool_decide (blocks ≤ (current s).2 - (current s).1 + 1) then candidates s ++ [current s] else candidates s)
    (current s) false (last_ s).

Definition find_step (blocks : Z) (s : find_state) (entry : Z * bool) : find_state :=
  let '(height, json) := entry in
  if negb json then flush blocks s
  else if negb (inRun s) || bool_decide (height ≠ last_ s + 1) then
    mkFind (candidates (flush blocks s)) (height, height) true height
  else mkFind (candidates s) ((current s).1, height) true height.

(** The heights of the metadata with whether it is JSON; other keys are skipped. *)
Definition meta_entries (kvs : list (bytes * bytes)) : list (Z * bool) :=
  omap (λ kv : bytes * bytes, (λ height, (height, bool_decide (classifyValue KeyPrefixBlockMeta kv.2 = "json"%string))) <$>
                                heightFromKey KeyPrefixBlockMeta kv.1) kvs.

(** [Intn] and [Int63n] are the draws of the random source. *)
Definition runFindJSONRange (Intn : nat → nat) (Int63n : Z → Z) (d : D) (blocks : Z) : res error (Z * Z) :=
  let! kvs := lib (db_iterator d [KeyPrefixBlockMeta] (Some [KeyPrefixBlockMeta + 1])) in
  let found := candidates (flush blocks (foldl (find_step blocks) find_start (meta_entries kvs))) in
  match found with
  | [] => Err (Errorf "no contiguous JSON block_meta range with at least %d blocks")
  | _ =>
      match found !! Intn (length found) with
      | None => Panic "index out of range"
      | Some picked =>
          let maxOffset := picked.2 - picked.1 + 1 - blocks in
          let offset := if bool_decide (0 < maxOffset) then Int63n (maxOffset + 1) else 0 in
          Ok (picked.1 + offset, picked.1 + offset + blocks - 1)
      end
  end.
End ops.

(** ** Runs of heights *)

Section runs.
Context (blocks : Z) (Hblocks : 0 < blocks).

Definition json (P : list (Z * bool)) (h : Z) : Prop := (h, true) ∈ P.

(** Every height from [a] to [b] has JSON metadata. *)
Definition json_run (P : list (Z * bool)) (a b : Z) : Prop := ∀ x, a ≤ x ≤ b → json P x.

Definition increasing (P : list (Z * bool)) : Prop := StronglySorted (λ a b, a.1 < b.1) P.

Record find_inv (P : list (Z * bool)) (s : find_state) : Prop := {
  fi_candidates : ∀ c, c ∈ candidates s → blocks ≤ c.2 - c.1 + 1 ∧ json_run P c.1 c.2;
  fi_current : inRun s = true → (current s).1 ≤ (current s).2 ∧ json_run P (current s).1 (current s).2 ∧
                 last P = Some ((current s).2, true) ∧ last_ s = (current s).2 ∧ ¬ json P ((current s).1 - 1);
  fi_idle : inRun s = false → match last P with Some (_, b) => b = false | None => True end;
  fi_complete : ∀ a, json_run P a (a + blocks - 1) →
                  (∃ c, c ∈ candidates s ∧ c.1 ≤ a ∧ a + blocks - 1 ≤ c.2) ∨ (inRun s = true ∧ (current s).1 ≤ a);
}.

Lemma json_app P h b x : json (P ++ [(h, b)]) x ↔ json P x ∨ (x = h ∧ b = true).
Proof. unfold json. rewrite elem_of_app, list_elem_of_singleton. naive_solver. Qed.

Lemma increasing_snoc P h b : increasing (P ++ [(h, b)]) → increasing P ∧ ∀ x c, (x, c) ∈ P → x < h.
Proof.
  unfold increasing. induction P as [|p P IH]; cbn; [split; [constructor|]; by intros x c ?%elem_of_nil|].
  intros [Hs Hp]%StronglySorted_inv. apply Forall_app in Hp as [Hp Hh]. destruct (IH Hs) as [H1 H2]. split; [by constructor|].
  intros x c [E|Hin]%elem_of_cons; [|by eapply H2]. apply Forall_cons in Hh as [Hh _]. by rewrite <- E in Hh.
Qed.

Lemma last_elem {A} (l : list A) x : last l = Some x → x ∈ l.
Proof. intros H. apply last_Some in H as [l' ->]. set_solver. Qed.

(** The last height is the largest. *)
Lemma last_largest P h b x c : increasing P → last P = Some (h, b) → (x, c) ∈ P → x ≤ h.
Proof.
  intros Hi Hl Hin. apply last_Some in Hl as [P' ->]. apply increasing_snoc in Hi as [_ Hi].
  apply elem_of_app in Hin as [Hin|Hin]; [apply Hi in Hin; lia|]. apply list_elem_of_singleton in Hin. injection Hin as -> _. lia.
Qed.

(** A flushed run that holds a wanted range is a candidate for it. *)
Lemma flush_inv P s a :
  find_inv P s → increasing P → json_run P a (a + blocks - 1) → ∃ c, c ∈ candidates (flush blocks s) ∧ c.1 ≤ a ∧ a + blocks - 1 ≤ c.2.
Proof.
  intros Hs Hi Hr. unfold flush. cbn. destruct (fi_complete _ _ Hs a Hr) as [(c & Hc & ?)|[Hrun Ha]].
  - exists c. split; [|done]. case_match; [|done]. set_solver.
  - destruct (fi_current _ _ Hs Hrun) as (H1 & H2 & H3 & _). assert (a + blocks - 1 ≤ (current s).2) as Hle.
    { eapply last_largest; [done|exact H3|]. apply Hr. lia. }
    exists (current s). rewrite Hrun, bool_decide_eq_true_2 by lia. cbn. set_solver.
Qed.

Lemma flush_candidates P s c :
  find_inv P s → c ∈ candidates (flush blocks s) → blocks ≤ c.2 - c.1 + 1 ∧ json_run P c.1 c.2.
Proof.
  intros Hs. unfold flush. cbn. destruct (inRun s) eqn:Hrun; cbn; [|by apply Hs]. case_bool_decide; [|by apply Hs].
  intros [Hc|Hc]%elem_of_app; [by apply Hs|]. apply list_elem_of_singleton in Hc as ->. split; [done|]. by apply (fi_current _ _ Hs Hrun).
Qed.

Lemma run_mono P h b a c : json_run P a c → json_run (P ++ [(h, b)]) a c.
Proof. intros H x Hx. apply json_app. left. by apply H. Qed.

(** A range that is complete only with the new height ends there. *)
Lemma json_run_snoc P h b a :
  increasing (P ++ [(h, b)]) → json_run (P ++ [(h, b)]) a (a + blocks - 1) →
  json_run P a (a + blocks - 1) ∨ (a + blocks - 1 = h ∧ b = true ∧ json_run P a (h - 1)).
Proof.
  intros Hi Hr. apply increasing_snoc in Hi as [_ Hi]. destruct (decide (a ≤ h ≤ a + blocks - 1)) as [Hin|Hout].
  - right. assert (a + blocks - 1 = h) as E.
    { assert (json (P ++ [(h, b)]) (a + blocks - 1)) as Hj by (apply Hr; lia). apply json_app in Hj as [Hj|[? _]]; [|done]. apply Hi in Hj. lia. }
    split_and!; [done| |].
    + assert (json (P ++ [(h, b)]) h) as Hj by (apply Hr; lia). apply json_app in Hj as [Hj|[_ ?]]; [|done]. apply Hi in Hj. lia.
    + intros x Hx. assert (json (P ++ [(h, b)]) x) as Hj by (apply Hr; lia). apply json_app in Hj as [?|[-> _]]; [done|lia].
  - left. intros x Hx. assert (json (P ++ [(h, b)]) x) as Hj by (apply Hr; lia). apply json_app in Hj as [?|[-> _]]; [done|lia].
Qed.

Lemma find_step_inv P s h b :
  increasing (P ++ [(h, b)]) → find_inv P s → find_inv (P ++ [(h, b)]) (find_step blocks s (h, b)).
Proof.
  intros Hi Hs. pose proof (increasing_snoc _ _ _ Hi) as [HP Hlt]. destruct b; cbn [find_step negb].
  - destruct (negb (inRun s) || bool_decide (h ≠ last_ s + 1)) eqn:E.
    + assert (¬ json P (h - 1)) as Hno.
      { intros Hj. destruct (inRun s) eqn:Hrun; cbn in E.
        - apply bool_decide_eq_true in E. destruct (fi_current _ _ Hs Hrun) as (_ & _ & H3 & H4 & _).
          assert (h - 1 ≤ (current s).2) by (eapply last_largest; [exact HP|exact H3|exact Hj]). apply last_elem in H3. apply Hlt in H3. lia.
        - pose proof (fi_idle _ _ Hs Hrun) as Hl. destruct (last P) as [[y c]|] eqn:El.
          + subst c. assert (h - 1 ≤ y) by (eapply last_largest; [exact HP|exact El|exact Hj]). pose proof (Hlt _ _ (last_elem _ _ El)).
            assert (y = h - 1) as -> by lia. apply last_Some in El as [P' ->]. apply increasing_snoc in HP as [_ HP].
            apply json_app in Hj as [Hj|[_ [=]]]. apply HP in Hj. lia.
          + apply last_None in El as ->. by apply elem_of_nil in Hj. }
      split; cbn.
      * intros c Hc. destruct (flush_candidates P s c Hs Hc). split; [done|]. by apply run_mono.
      * intros _. split_and!; [lia| |by rewrite last_snoc|done|].
        -- intros x Hx. apply json_app. right. split; [lia|done].
        -- rewrite json_app. intros [?|[? _]]; [done|lia].
      * done.
      * intros a Hr. destruct (json_run_snoc _ _ _ _ Hi Hr) as [Hr'|(Ea & _ & Hr')]; [left; by eapply flush_inv|].
        right. split; [done|]. destruct (decide (a = h)); [lia|]. exfalso. apply Hno, Hr'. lia.
    + apply orb_false_iff in E as [Hrun%negb_false_iff Hh%bool_decide_eq_false]. assert (h = last_ s + 1) as Hh' by lia.
      destruct (fi_current _ _ Hs Hrun) as (H1 & H2 & H3 & H4 & H5). split; cbn.
      * intros c Hc. destruct (fi_candidates _ _ Hs c Hc). split; [done|]. by apply run_mono.
      * intros _. split_and!; [lia| |by rewrite last_snoc|done|].
        -- intros x Hx. apply json_app. destruct (decide (x = h)); [by right|left]. apply H2. lia.
        -- rewrite json_app. intros [?|[? _]]; [done|lia].
      * done.
      * intros a Hr. destruct (json_run_snoc _ _ _ _ Hi Hr) as [Hr'|(Ea & _ & Hr')].
        -- destruct (fi_complete _ _ Hs a Hr') as [?|[_ ?]]; [by left|by right].
        -- right. split; [done|]. destruct (decide ((current s).1 ≤ a)); [done|]. exfalso. apply H5, Hr'. lia.
  - split; cbn.
    + intros c Hc. destruct (flush_candidates P s c Hs Hc). split; [done|]. by apply run_mono.
    + done.
    + by rewrite last_snoc.
    + intros a Hr. left. destruct (json_run_snoc _ _ _ _ Hi Hr) as [Hr'|(_ & [=] & _)]. by eapply flush_inv.
Qed.

Lemma find_fold P : increasing P → find_inv P (foldl (find_step blocks) find_start P).
Proof.
  induction P as [|[h b] P IH] using rev_ind; intros Hi.
  - split; cbn; [by intros c ?%elem_of_nil|done|done|]. intros a Hr. assert (json [] a) as []%elem_of_nil by (apply Hr; lia).
  - rewrite foldl_snoc. apply find_step_inv; [done|]. apply IH. by apply increasing_snoc in Hi as [? _].
Qed.
End runs.

(** ** Searching a store *)

Section store.
Context {D : Type} {DB : KVDB D} {DBL : KVDBLaws D} {DBR : KVDBReliable D} {SD : SDK} {SDL : SDKLaws} {EL : EthLib}.
Context (d : D) (Hwf : IndexerStore.wf_store (contents d)) (Hpos : IndexerScan.heights_wf (contents d)).

Definition json_meta (h : Z) : Prop :=
  ∃ v, contents d !! BlockMetaKey h = Some v ∧ classifyValue KeyPrefixBlockMeta v = "json"%string.

Lemma height_of_meta h : is_int64 h → heightFromKey KeyPrefixBlockMeta (BlockMetaKey h) = Some h.
Proof.
  intros Hh. unfold heightFromKey. set (l := Uint64ToBigEndian (uint64 h)). assert (length l = 8%nat) as Hl by apply be_length.
  change (BlockMetaKey h) with (7 :: l). change (drop 1 (7 :: l)) with l. rewrite take_ge by lia. assert (be_value l = uint64 h) as -> by (apply be_encodes, uint64_range).
  rewrite int64_uint64 by done.
  change (prefixes !! KeyPrefixBlockMeta) with (Some (mkInfo "block_meta" true false false true false false)).
  cbn [heightKey negb orb]. rewrite bool_decide_eq_false_2; [done|]. cbn. lia.
Qed.

Lemma meta_entries_spec kvs :
  iterates (contents d) [KeyPrefixBlockMeta] (Some [KeyPrefixBlockMeta + 1]) kvs →
  increasing (meta_entries kvs) ∧ ∀ h, json (meta_entries kvs) h ↔ is_int64 h ∧ json_meta h.
Proof.
  intros [Hs Hi].
  assert (∀ kv, kv ∈ kvs → ∃ h, is_int64 h ∧ kv.1 = BlockMetaKey h ∧ 0 ≤ h) as Hk.
  { intros [key v] [Hl Hr]%Hi. destruct (Hwf _ _ Hl) as (k & -> & [Hk _]).
    apply IndexerScan.prefix_byte_range in Hr; [|vm_compute; intuition congruence|done].
    destruct k; try discriminate Hr. exists height. split_and!; [done|done|]. apply Hpos; [done|left]. by exists v. }
  split.
  - clear Hi. induction kvs as [|[key v] kvs IH]; [constructor|]. rewrite fmap_cons in Hs. apply StronglySorted_inv in Hs as [Hs Hx].
    destruct (Hk (key, v)) as (h & Hh & E & H0); [by left|]. cbn [fst] in E. subst key. unfold meta_entries. cbn [omap list_omap fst snd].
    rewrite height_of_meta by done. cbn. constructor; [apply IH; [done|]; intros; apply Hk; by right|].
    apply Forall_forall. intros [h' b'] ([key' v'] & Hin & E)%list_elem_of_omap.
    destruct (Hk (key', v')) as (h2 & Hh2 & E2 & H02); [by right|]. cbn [fst snd] in E, E2. subst key'. rewrite height_of_meta in E by done.
    injection E as <- <-. cbn. rewrite Forall_forall in Hx. specialize (Hx (BlockMetaKey h2)).
    apply BlockMetaKey_lt; [gate_ints; lia..|]. apply Hx. apply list_elem_of_fmap. by exists (BlockMetaKey h2, v').
  - intros h. unfold json, meta_entries. rewrite list_elem_of_omap. split.
    + intros ([key v] & Hin & E). destruct (Hk _ Hin) as (h' & Hh' & E' & _). cbn [fst snd] in E, E'. subst key. rewrite height_of_meta in E by done.
      injection E as -> Hj%bool_decide_eq_true. split; [done|]. exists v. split; [|done]. by apply Hi in Hin as [? _].
    + intros (Hh & v & Hv & Hj). exists (BlockMetaKey h, v). split.
      * apply Hi. split; [done|]. by apply (IndexerScan.prefix_byte_range _ (KBlockMeta h)); [vm_compute; intuition congruence|..].
      * cbn [fst snd]. rewrite height_of_meta by done. cbn. by rewrite bool_decide_eq_true_2.
Qed.

(** The search for legacy metadata is exact: a range it returns has the wanted
    number of heights and JSON metadata at every one of them; and it fails only when no
    such range exists.  The random draws stay in their bounds. *)
Theorem find_json_range_exact (Intn : nat → nat) (Int63n : Z → Z) blocks :
  0 < blocks → (∀ n, (0 < n)%nat → (Intn n < n)%nat) → (∀ n, 0 < n → 0 ≤ Int63n n < n) →
  match runFindJSONRange Intn Int63n d blocks with
  | Ok (start, end_) => end_ - start + 1 = blocks ∧ ∀ h, start ≤ h ≤ end_ → json_meta h
  | Err _ => ∀ a, ¬ (∀ h, a ≤ h ≤ a + blocks - 1 → is_int64 h ∧ json_meta h)
  | Panic _ => False
  end.
Proof.
  intros Hb Hn Hz. unfold runFindJSONRange. destruct (IndexerScan.iterator_reads d [KeyPrefixBlockMeta] (Some [KeyPrefixBlockMeta + 1])) as (kvs & -> & Hi).
  cbn [lib res_map_err res_bind]. destruct (meta_entries_spec kvs Hi) as [Hinc Hj]. pose proof (find_fold blocks Hb _ Hinc) as Hinv.
  set (s := foldl _ _ _) in *. destruct (candidates (flush blocks s)) as [|c0 cs] eqn:Ec.
  - intros a Hr. destruct (flush_inv blocks Hb _ s a Hinv Hinc) as (c & Hc & _); [intros x Hx; by apply Hj, Hr|].
    rewrite Ec in Hc. by apply elem_of_nil in Hc.
  - rewrite <- Ec. specialize (Hn (length (candidates (flush blocks s)))).
    destruct (candidates (flush blocks s) !! Intn _) as [c|] eqn:El; cycle 1.
    { apply lookup_ge_None_1 in El. rewrite Ec in *. cbn in *. lia. }
    destruct (flush_candidates blocks _ s c Hinv (list_elem_of_lookup_2 _ _ _ El)) as [Hlen Hrun]. cbn zeta.
    case_bool_decide as Ho; [pose proof (Hz (c.2 - c.1 + 1 - blocks + 1) ltac:(lia))|];
      (split; [lia|]; intros h Hh; apply Hj, Hrun; lia).
Qed.
End store.

(** What the indexer writes is recognised: payloads of the codec carry the magic. *)
Lemma payload_classified built bz prefix : mustCapnpPayload built = Ok bz → classifyValue prefix bz = "capnp"%string.
Proof.
  unfold mustCapnpPayload. destruct built as [data| |]; try done. intros H. assert (bz = kvCapnpMagic ++ data) as -> by congruence. unfold classifyValue, bytes_HasPrefix.
  assert (take (length kvCapnpMagic) (kvCapnpMagic ++ data) = kvCapnpMagic) as -> by apply take_app_length. by rewrite bool_decide_eq_true_2.
Qed.

Module Witness.
Import IndexerSample EthInstances.

(** JSON metadata at heights 3 to 5, the encoded form at height 6. *)
Definition legacy_store : gmap bytes bytes :=
  list_to_map [(BlockMetaKey 3, [123; 125]); (BlockMetaKey 4, [32; 123; 125]); (BlockMetaKey 5, [123; 125]); (BlockMetaKey 6, kvCapnpMagic)].

Lemma legacy_keys key v : legacy_store !! key = Some v → ∃ h, key = BlockMetaKey h ∧ 0 ≤ h < 10.
Proof.
  intros Hl. apply elem_of_list_to_map_2 in Hl.
  repeat (apply elem_of_cons in Hl as [[= -> ->]|Hl]); [exists 3|exists 4|exists 5|exists 6|set_solver]; (split; [done|lia]).
Qed.

Lemma legacy_wf : IndexerStore.wf_store (contents legacy_store).
Proof.
  intros key v (h & -> & Hh)%legacy_keys. exists (KBlockMeta h). split; [done|]. split; [|done]. cbn. gate_ints. lia.
Qed.

Lemma legacy_heights : IndexerScan.heights_wf (contents legacy_store).
Proof.
  intros h H64 [[v (n & E & Hn)%legacy_keys]|(i & _ & [v (n & E & _)%legacy_keys])]; [|done].
  apply (encode_inj (KBlockMeta h) (KBlockMeta n)) in E; [|done|cbn; gate_ints; lia]. injection E as ->. lia.
Qed.

Lemma find_json_range_exact_witness :
  runFindJSONRange (λ _, 0%nat) (λ n, n - 1) legacy_store 2 = Ok (4, 5) ∧ json_meta legacy_store 4.
Proof.
  assert (runFindJSONRange (λ _, 0%nat) (λ n, n - 1) legacy_store 2 = Ok (4, 5)) as H by (vm_compute; reflexivity).
  split; [exact H|].
  pose proof (find_json_range_exact (D := gmap bytes bytes) legacy_store legacy_wf legacy_heights (λ _, 0%nat) (λ n, n - 1) 2
    ltac:(lia) ltac:(intros; cbn; lia) ltac:(intros; cbn; lia)) as Hx.
  rewrite H in Hx. apply Hx. lia.
Defined.
End Witness.
End KvInspect.
