(* ===== verification/Websocket.v ===== *)
(** * Websocket connections (src/internal/jsonrpc/json_rpc_ws.go)

    A connection with its read loop, the subscriptions it starts and the goroutines
    that follow the event streams for them (Stream.Subscribe of
    internal/evm/rpc/stream/stream.go).  The state of a connection is explicit and
    every action that can interleave with another is a step of its own: taking a
    message, writing its answer, a read of the stream, one write of a notification,
    the wait for a broadcast, a cancellation, the heartbeat.  The JSON decoder, the
    request to the HTTP server and the outcome of each socket write are parameters;
    rpc.NewID gives the id of a subscription to the step that uses it. *)

From Stdlib Require Import Ascii String.
From S2P Require Import Prelude Queue Stream Bytes Instances GoLib EthTypes Keys Virtual RpcUtils Cached Codec Indexer RpcStream FilterApi.
From stdpp Require Import strings list gmap relations.
#[local] Open Scope Z_scope.

Module Websocket.
Import GoLib EthTypes Keys Virtual RpcUtils Cached RpcStream FilterApi.

(** ** Requests *)

(** interface{} as the decoder fills it; the fields of an object in their order. *)
Inductive value :=
| JNull
| JBool (b : bool)
| JNumber (text : string)
| JString (s : string)
| JArray (l : list value)
| JObject (fields : list (string * value)).

(** The element of a map[string]interface{}: the last field of that name; a missing
    one and null are both nil. *)
Fixpoint field (name : string) (fields : list (string * value)) : value :=
  match fields with
  | [] => JNull
  | (k, v) :: fields =>
      if existsb (λ f, bool_decide (f.1 = name)) fields then field name fields else if bool_decide (k = name) then v else JNull
  end.

(** wsRPCRequest; nil parameters are [None]. *)
Record wsRPCRequest := mkRequest { rq_Method : string; rq_Params : option (list value); rq_ID : bytes }.

Fixpoint isBatch (raw : bytes) : bool :=
  match raw with
  | [] => false
  | c :: raw => if bool_decide (c = 32 ∨ c = 9 ∨ c = 10 ∨ c = 13) then isBatch raw else bool_decide (c = 91)
  end.

(** What a client is sent; the time of a notification is left out. *)
Inductive payload := PHeader (header : Header) | PLog (log : option RPCLog) | PHash (hash : Hash).

Inductive frame :=
| Subscribed (id : bytes) (subID : string)
| Unsubscribed (id : bytes) (found : bool)
| ErrorResponse (err : error)
| Forwarded (body : bytes)
| Notification (subID : string) (result : payload).

(** ** Subscriptions *)

Inductive subscription := NewHeads | Logs (crit : FilterCriteria) | NewPendingTransactions.

Section requests.
Context {EL : EthLib}.

Definition parse_address (v : value) : res error Address :=
  match v with JString s => Ok (HexToAddress s) | _ => Err (New "invalid address") end.

Definition parse_addresses (v : value) : res error (list Address) :=
  match v with
  | JNull => Ok []
  | JString s => Ok [HexToAddress s]
  | JArray l => res_mapM parse_address l
  | _ => Err (New "invalid addresses; must be address or array of addresses")
  end.

Definition parse_subtopic (v : value) : res error Hash :=
  match v with JString s => Ok (HexToHash s) | _ => Err (Errorf "invalid subtopic: %s") end.

Definition parse_topic (v : value) : res error (list Hash) :=
  match v with
  | JNull => Ok []
  | JString s => Ok [HexToHash s]
  | JArray l => res_mapM parse_subtopic l
  | _ => Err (New "invalid subtopics")
  end.

Definition parse_topics (v : value) : res error (list (list Hash)) :=
  match v with
  | JNull => Ok []
  | JArray l => res_mapM parse_topic l
  | _ => Err (Errorf "invalid topics: %s")
  end.

Definition parse_criteria (extra : value) : res error FilterCriteria :=
  match extra with
  | JNull => Ok no_criteria
  | JObject params =>
      let! addresses := parse_addresses (field "address" params) in
      let! topics := parse_topics (field "topics" params) in
      Ok (mkCriteria None None None addresses topics)
  | _ => Err (New "invalid criteria")
  end.

Definition subscribeLogs (extra : value) : res error subscription :=
  let! crit := parse_criteria extra in
  let! _ := Indexer.wrap_err "invalid filter criteria" (ValidateFilterCriteria crit) in
  Ok (Logs crit).

(** The subscription that is started; [params] is not empty. *)
Definition subscribe (available : bool) (params : list value) : res error subscription :=
  if negb available then Err (New "eth_subscribe is unavailable in polling-only mode")
  else match params with
       | JString method :: rest =>
           if bool_decide (method = "newHeads"%string) then Ok NewHeads
           else if bool_decide (method = "logs"%string) then subscribeLogs (default JNull (head rest))
           else if bool_decide (method = "newPendingTransactions"%string) then Ok NewPendingTransactions
           else if bool_decide (method = "syncing"%string) then Err (New "syncing subscription is not implemented")
           else Err (Errorf "unsupported method %s")
       | _ => Err (New "invalid parameters")
       end.

Definition getParamsAndCheckValid (params : option (list value)) : res error (list value) :=
  match params with
  | None => Err (New "invalid parameters")
  | Some [] => Err (New "empty parameters")
  | Some params => Ok params
  end.
End requests.

(** ** State *)

(** wsConn: whether the socket is open, how many writes were tried, and the frames
    that reached the peer. *)
Record wsConn := mkConn { open : bool; attempts : nat; sent : list frame }.

(** A goroutine in Stream.Subscribe: about to read the stream at its offset, writing
    what its callback selected, waiting for a broadcast, or returned. *)
Inductive phase := Reading | Sending (results : list payload) | Waiting | Returned.

Record worker := mkWorker { w_id : string; w_sub : subscription; w_offset : Z; w_phase : phase; w_cancelled : bool }.

(** The read loop: between messages, before the write of an answer, or left. *)
Inductive loop := Idle | Replying (answer : frame) | Left.

(** The map of subscriptions holds cancel functions; one is the index of its worker. *)
Record state := mkState {
  events : option RPCStream;
  conn : wsConn;
  subscriptions : gmap string nat;
  workers : list worker;
  reading : loop;
}.

Definition connected (events : option RPCStream) : state := mkState events (mkConn true 0 []) ∅ [] Idle.

Definition with_conn (st : state) (c : wsConn) : state := mkState (events st) c (subscriptions st) (workers st) (reading st).
Definition with_workers (st : state) (ws : list worker) : state := mkState (events st) (conn st) (subscriptions st) ws (reading st).
Definition with_loop (st : state) (l : loop) : state := mkState (events st) (conn st) (subscriptions st) (workers st) l.

Definition Close (c : wsConn) : wsConn := mkConn false (attempts c) (sent c).

Definition cancel (i : nat) (ws : list worker) : list worker :=
  alter (λ w, mkWorker (w_id w) (w_sub w) (w_offset w) (w_phase w) true) i ws.

Definition ErrCloseSent : string := "websocket: close sent".
Definition net_ErrClosed : error := Sentinel "use of closed network connection".

Section connection.
Context {EL : EthLib}.
(** sonic.Unmarshal of a message, the HTTP server's answer to a request, and the
    outcome of the n-th write. *)
Context (decode : bytes → wsRPCRequest + error) (post : bytes → bytes + error) (outcome : nat → option error).

Definition WriteMessage (c : wsConn) (f : frame) : option error * wsConn :=
  let err := if open c then outcome (attempts c) else Some net_ErrClosed in
  (err, mkConn (open c) (S (attempts c)) (match err with None => sent c ++ [f] | Some _ => sent c end)).

(** ** The read loop *)

(** The first write of tcpGetAndSendResponse. *)
Definition tcpGetAndSendResponse (mb : bytes) : frame :=
  match post mb with inl body => Forwarded body | inr err => ErrorResponse err end.

Definition eth_subscribe (st : state) (newID : string) (msg : wsRPCRequest) : state :=
  match (let! params := getParamsAndCheckValid (rq_Params msg) in subscribe (bool_decide (is_Some (events st))) params) with
  | Ok sub =>
      mkState (events st) (conn st) (<[newID := length (workers st)]> (subscriptions st))
        (workers st ++ [mkWorker newID sub (-1) Reading false]) (Replying (Subscribed (rq_ID msg) newID))
  | Err err => with_loop st (Replying (ErrorResponse err))
  | Panic p => with_loop st (Replying (ErrorResponse (New p)))
  end.

Definition eth_unsubscribe (st : state) (msg : wsRPCRequest) : state :=
  match getParamsAndCheckValid (rq_Params msg) with
  | Ok (JString id :: _) =>
      match subscriptions st !! id with
      | Some i =>
          mkState (events st) (conn st) (delete id (subscriptions st)) (cancel i (workers st)) (Replying (Unsubscribed (rq_ID msg) true))
      | None => with_loop st (Replying (Unsubscribed (rq_ID msg) false))
      end
  | Ok _ => with_loop st (Replying (ErrorResponse (New "invalid parameters")))
  | Err err => with_loop st (Replying (ErrorResponse err))
  | Panic p => with_loop st (Replying (ErrorResponse (New p)))
  end.

(** One message, up to the write of its answer. *)
Definition handle_message (st : state) (newID : string) (mb : bytes) : state :=
  if isBatch mb then with_loop st (Replying (tcpGetAndSendResponse mb))
  else match decode mb with
       | inr err => with_loop st (Replying (ErrorResponse err))
       | inl msg =>
           if bool_decide (rq_Method msg = "eth_subscribe"%string) then eth_subscribe st newID msg
           else if bool_decide (rq_Method msg = "eth_unsubscribe"%string) then eth_unsubscribe st msg
           else with_loop st (Replying (tcpGetAndSendResponse mb))
       end.

(** The write of the answer; a forwarded body that cannot be written is followed by
    an attempt to send the error. *)
Definition write_answer (st : state) (answer : frame) : state :=
  let '(err, c) := WriteMessage (conn st) answer in
  with_loop (with_conn st c)
    (match answer, err with Forwarded _, Some err => Replying (ErrorResponse err) | _, _ => Idle end).

(** A read error: the socket is closed and every subscription cancelled. *)
Definition leave (st : state) : state :=
  mkState (events st) (Close (conn st)) (subscriptions st)
    (map_fold (λ _ i ws, cancel i ws) (workers st) (subscriptions st)) Left.

(** ** Subscription goroutines *)

Definition set_worker (st : state) (i : nat) (w : worker) (offset : Z) (p : phase) : state :=
  with_workers st (<[i := mkWorker (w_id w) (w_sub w) offset p (w_cancelled w)]> (workers st)).

(** One chunk of the stream of a subscription, the part of it the callback sends, and
    the next offset. *)
Definition read_chunk (ev : RPCStream) (sub : subscription) (offset : Z) : res error (bool * list payload * Z) :=
  match sub with
  | NewHeads =>
      let! (items, n) := no_err (Stream.doRead (headerStream ev) offset) in
      Ok (bool_decide (items = []), (λ h, PHeader (EthHeader h)) <$> items, n)
  | Logs crit =>
      let! (items, n) := no_err (Stream.doRead (logStream ev) offset) in
      let! found := FilterLogs items (FromBlock crit) (ToBlock crit) (Addresses crit) (Topics crit) in
      Ok (bool_decide (items = []), PLog <$> found, n)
  | NewPendingTransactions =>
      let! (items, n) := no_err (Stream.doRead (pendingTxStream ev) offset) in
      Ok (bool_decide (items = []), PHash <$> items, n)
  end.

(** doRead of ReadBlocking: an empty chunk leads to the wait, another one to the
    callback. *)
Definition worker_read (st : state) (ev : RPCStream) (i : nat) (w : worker) : res error state :=
  let! (nothing, results, n) := read_chunk ev (w_sub w) (w_offset w) in
  Ok (set_worker st i w n (if nothing : bool then Waiting else Sending results)).

(** writeSubscriptionResult: a failed write closes the socket, unless the peer was
    already told, and ends the subscription. *)
Definition worker_send (st : state) (i : nat) (w : worker) (result : payload) (rest : list payload) : state :=
  let '(err, c) := WriteMessage (conn st) (Notification (w_id w) result) in
  match err with
  | None => set_worker (with_conn st c) i w (w_offset w) (Sending rest)
  | Some err =>
      set_worker (with_conn st (if Indexer.errors_Is err ErrCloseSent then c else Close c)) i w (w_offset w) Returned
  end.

(** What one worker does next, when it does not wait. A cancellation is noticed in
    the wait only. *)
Definition worker_turn (st : state) (i : nat) : res error state :=
  match events st, workers st !! i with
  | Some ev, Some w =>
      match w_phase w with
      | Reading => worker_read st ev i w
      | Sending [] => Ok (set_worker st i w (w_offset w) Reading)
      | Sending (result :: rest) => Ok (worker_send st i w result rest)
      | Waiting => Ok (if w_cancelled w then set_worker st i w (w_offset w) Returned else st)
      | Returned => Ok st
      end
  | _, _ => Ok st
  end.

(** ** Steps *)

Inductive step : state → state → Prop :=
| step_message st newID mb :
    reading st = Idle → open (conn st) = true → newID ∉ (w_id <$> workers st) → step st (handle_message st newID mb)
| step_answer st answer : reading st = Replying answer → step st (write_answer st answer)
| step_leave st : reading st = Idle → step st (leave st)
| step_turn st i st' : worker_turn st i = Ok st' → step st st'
| step_wake st i w :
    workers st !! i = Some w → w_phase w = Waiting → step st (set_worker st i w (w_offset w) Reading)
| step_heartbeat st : step st (with_conn st (Close (conn st)))
| step_publish st ev height r ev' :
    events st = Some ev → PublishIndexedBlock ev height = (r, ev') →
    step st (mkState (Some ev') (conn st) (subscriptions st) (workers st) (reading st))
| step_pending st ev hash ev' :
    events st = Some ev → ListenPendingTx (Some ev) hash = Ok (Some ev') →
    step st (mkState (Some ev') (conn st) (subscriptions st) (workers st) (reading st)).
End connection.
End Websocket.
