(* ===== verification/WebsocketProps.v ===== *)
(** * Correctness of websocket connections

    The bookkeeping of subscriptions, what a subscriber is sent, and the end of the
    goroutines of a connection that is gone, over every interleaving of the steps of
    Websocket.v. *)

From Stdlib Require Import Ascii String.
From S2P Require Import Prelude Queue Stream Bytes Instances GoLib EthTypes Keys Virtual RpcUtils Cached Codec Indexer RpcStream FilterApi FilterPoll Websocket.
From S2P Require Import EthInstances.
From stdpp Require Import strings list gmap relations.
#[local] Open Scope Z_scope.

Module WebsocketProps.
Import GoLib EthTypes Keys Virtual RpcUtils Cached RpcStream FilterApi Websocket.

Section connection.
Context {EL : EthLib}.
Context (decode : bytes → wsRPCRequest + error) (post : bytes → bytes + error) (outcome : nat → option error).
Notation step := (step decode post outcome).

(** ** The book of subscriptions *)

(** Of the workers only the id and the flag of their context. *)
Definition roster (st : state) : list (string * bool) := (λ w, (w_id w, w_cancelled w)) <$> workers st.

Lemma roster_set_worker st i w o p : workers st !! i = Some w → roster (set_worker st i w o p) = roster st.
Proof.
  intros H. unfold roster, set_worker. cbn [workers with_workers]. rewrite list_fmap_insert. apply list_insert_id.
  by rewrite list_lookup_fmap, H.
Qed.

(** What a step other than a message or the end of the loop leaves alone. *)
Definition same_book (st st' : state) : Prop :=
  roster st' = roster st ∧ subscriptions st' = subscriptions st ∧ (reading st' = Left ↔ reading st = Left).

Lemma same_set_worker st i w o p : workers st !! i = Some w → same_book st (set_worker st i w o p).
Proof. intros H. split; [by apply roster_set_worker|done]. Qed.

Lemma same_turn st i st' : worker_turn outcome st i = Ok st' → same_book st st'.
Proof.
  unfold worker_turn. destruct (events st) as [ev|]; [|by intros [= <-]]. destruct (workers st !! i) as [w|] eqn:Ew; [|by intros [= <-]].
  destruct (w_phase w) as [|[|x l]| |].
  - unfold worker_read. intros ([[nothing rs] n] & _ & [= <-])%res_bind_ok. by apply same_set_worker.
  - intros [= <-]. by apply same_set_worker.
  - intros [= <-]. unfold worker_send. destruct (WriteMessage _ _ _) as [[err|] c];
      [by apply (same_set_worker (with_conn st _))|by apply (same_set_worker (with_conn st c))].
  - intros [= <-]. destruct (w_cancelled w); [by apply same_set_worker|done].
  - by intros [= <-].
Qed.

Record book_inv (st : state) : Prop := {
  bk_ids : NoDup (roster st).*1;
  bk_open i id : roster st !! i = Some (id, false) → subscriptions st !! id = Some i;
  bk_map id i : subscriptions st !! id = Some i → ∃ c, roster st !! i = Some (id, c) ∧ (reading st ≠ Left → c = false);
  bk_left i id c : reading st = Left → roster st !! i = Some (id, c) → c = true;
}.

Lemma book_same st st' : same_book st st' → book_inv st → book_inv st'.
Proof.
  intros (H1 & H2 & H3) [B1 B2 B3 B4]. split; rewrite ?H1, ?H2; [done..| |].
  - intros id i (c & Hc & Hl)%B3. exists c. split; [done|]. intros H. apply Hl. by rewrite <- H3.
  - intros i id c. rewrite H3. apply B4.
Qed.

Lemma roster_cancel (ws : list worker) i :
  (λ w, (w_id w, w_cancelled w)) <$> cancel i ws = alter (λ p, (p.1, true)) i ((λ w, (w_id w, w_cancelled w)) <$> ws).
Proof.
  unfold cancel. apply list_eq. intros j. rewrite list_lookup_fmap. destruct (decide (i = j)) as [<-|Hne].
  - rewrite !list_lookup_alter_eq, list_lookup_fmap. by destruct (ws !! i).
  - by rewrite !list_lookup_alter_ne, list_lookup_fmap by done.
Qed.

(** The rosters before and after all subscriptions of a map are cancelled. *)
Lemma roster_cancel_all (m : gmap string nat) (ws : list worker) :
  let f := λ w, (w_id w, w_cancelled w) in
  let ws' := map_fold (λ _ i ws, cancel i ws) ws m in
  ∀ j, match (f <$> ws) !! j, (f <$> ws') !! j with
       | Some (id, c), Some (id', c') => id' = id ∧ (c = true ∨ (∃ k, m !! k = Some j) → c' = true)
       | None, None => True
       | _, _ => False
       end.
Proof.
  cbn zeta. set (f := λ w, (w_id w, w_cancelled w)). apply (map_fold_weak_ind (λ ws' m, ∀ j, match (f <$> ws) !! j, (f <$> ws') !! j with
       | Some (id, c), Some (id', c') => id' = id ∧ (c = true ∨ (∃ k, m !! k = Some j) → c' = true)
       | None, None => True | _, _ => False end)).
  - intros j. destruct ((f <$> ws) !! j) as [[id c]|]; [|done]. split; [done|]. intros [?|[k Hk]]; [done|by rewrite lookup_empty in Hk].
  - intros k i m' ws' Hk IH j. specialize (IH j). unfold f in *. rewrite roster_cancel. set (r := (_ <$> ws')) in *.
    destruct ((_ <$> ws) !! j) as [[id c]|]; destruct (decide (i = j)) as [<-|Hne];
      rewrite ?list_lookup_alter_eq, ?list_lookup_alter_ne by done; destruct (r !! _) as [[id' c']|]; try done; cbn.
    + by destruct IH as [-> _].
    + destruct IH as [-> IH]. split; [done|]. intros [?|[k' Hk']]; apply IH; [by left|]. right. exists k'.
      rewrite lookup_insert_ne in Hk'; [done|]. intros ->. rewrite lookup_insert_eq in Hk'. congruence.
Qed.

Lemma book_leave st : book_inv st → book_inv (leave st).
Proof.
  intros [B1 B2 B3 B4]. pose proof (roster_cancel_all (subscriptions st) (workers st)) as H. cbn zeta in H.
  fold (roster st) in H. change (_ <$> map_fold _ _ _) with (roster (leave st)) in H.
  assert (∀ j id c, roster (leave st) !! j = Some (id, c) → c = true ∧ ∃ c0, roster st !! j = Some (id, c0)) as Hall.
  { intros j id c Hj. specialize (H j). rewrite Hj in H. destruct (roster st !! j) as [[id0 c0]|] eqn:E; [|done]. destruct H as [-> H].
    split; [|by eexists]. apply H. destruct c0; [by left|]. right. exists id0. by apply B2. }
  split.
  - assert ((roster (leave st)).*1 = (roster st).*1) as ->; [|done]. apply list_eq. intros j. rewrite !list_lookup_fmap. specialize (H j).
    destruct (roster st !! j) as [[id c]|], (roster (leave st) !! j) as [[id' c']|]; try done. by destruct H as [-> _].
  - intros i id Hi. by apply Hall in Hi as [? _].
  - intros id i (c & Hc & _)%B3. specialize (H i). rewrite Hc in H. destruct (roster (leave st) !! i) as [[id' c']|] eqn:E; [|done].
    destruct H as [-> _]. exists c'. by split.
  - intros i id c _ Hi. by apply Hall in Hi as [? _].
Qed.

Lemma same_reply st f : reading st = Idle → same_book st (with_loop st (Replying f)).
Proof. intros Hr. split; [done|]. split; [done|]. cbn. by rewrite Hr. Qed.

Lemma roster_ids st : (roster st).*1 = w_id <$> workers st.
Proof. unfold roster. by rewrite <- list_fmap_compose. Qed.

Lemma book_subscribe st newID msg :
  book_inv st → reading st = Idle → newID ∉ (w_id <$> workers st) → book_inv (eth_subscribe st newID msg).
Proof.
  intros Hb Hr Hn. unfold eth_subscribe. destruct (res_bind _ _) as [sub|e|p];
    [|by apply (book_same st); [apply same_reply|]..].
  destruct Hb as [B1 B2 B3 B4]. rewrite <- roster_ids in Hn.
  set (st' := mkState _ _ _ _ _). assert (roster st' = roster st ++ [(newID, false)]) as Hro by (unfold roster, st'; cbn [workers]; by rewrite fmap_app).
  assert (length (workers st) = length (roster st)) as Hlen by (unfold roster; by rewrite length_fmap).
  split; rewrite ?Hro.
  - rewrite fmap_app. apply NoDup_app. split; [done|]. split; [|apply NoDup_singleton]. by intros x Hx ->%list_elem_of_singleton.
  - intros i id [H|[Hge H]]%lookup_app_Some; cbn.
    + rewrite lookup_insert_ne; [by apply B2|]. intros ->. apply Hn. apply list_elem_of_fmap. by eexists (_, _); split; [|eapply list_elem_of_lookup_2].
    + apply list_lookup_singleton_Some in H as [Hi [= <-]]. rewrite lookup_insert_eq, Hlen. f_equal. lia.
  - intros id i. cbn. destruct (decide (id = newID)) as [->|Hne].
    + rewrite lookup_insert_eq, Hlen. intros [= <-]. exists false. split; [|done]. rewrite lookup_app_r by lia. by rewrite Nat.sub_diag.
    + rewrite lookup_insert_ne by done. intros (c & Hc & Hl)%B3. exists c. split; [by apply lookup_app_l_Some|]. intros _. apply Hl. by rewrite Hr.
  - done.
Qed.

Lemma book_unsubscribe st msg : book_inv st → reading st = Idle → book_inv (eth_unsubscribe st msg).
Proof.
  intros Hb Hr. pose proof (λ f, book_same _ _ (same_reply st f Hr) Hb) as Hreply. unfold eth_unsubscribe.
  destruct (getParamsAndCheckValid _) as [[|[| | |id| |] rest]|e|p]; try done. destruct (subscriptions st !! id) as [i|] eqn:Ei; [|done].
  destruct Hb as [B1 B2 B3 B4]. destruct (B3 _ _ Ei) as (c & Hc & _). set (st' := mkState _ _ _ _ _).
  assert (roster st' = alter (λ p, (p.1, true)) i (roster st)) as Hro by apply roster_cancel.
  assert (∀ j id' c', roster st' !! j = Some (id', c') → (j = i ∧ id' = id ∧ c' = true) ∨ (j ≠ i ∧ roster st !! j = Some (id', c'))) as Hall.
  { intros j id' c'. rewrite Hro. destruct (decide (i = j)) as [<-|Hne]; [|rewrite list_lookup_alter_ne by done; by right].
    rewrite list_lookup_alter_eq, Hc. intros [= <- <-]. by left. }
  assert ((roster st').*1 = (roster st).*1) as Hids.
  { rewrite Hro. apply list_eq. intros j. rewrite !list_lookup_fmap. destruct (decide (i = j)) as [<-|Hne];
      rewrite ?list_lookup_alter_eq, ?list_lookup_alter_ne by done; [by rewrite Hc|done]. }
  split.
  - by rewrite Hids.
  - intros j id' [(_ & _ & ?)|[Hne Hj]]%Hall; [done|]. cbn. rewrite lookup_delete_ne; [by apply B2|]. intros <-.
    apply B2 in Hj. congruence.
  - intros id' j. change (subscriptions st') with (delete id (subscriptions st)). intros [Hne H]%lookup_delete_Some. apply B3 in H as (c' & Hc' & Hl). exists c'. rewrite Hro, list_lookup_alter_ne.
    + split; [done|]. intros _. apply Hl. by rewrite Hr.
    + intros <-. rewrite Hc in Hc'. congruence.
  - done.
Qed.

Lemma book_step st st' : step st st' → book_inv st → book_inv st'.
Proof.
  intros Hs Hb. destruct Hs as [st newID mb Hr Ho Hn|st f Hr|st Hr|st i st' Ht|st i w Hw Hp|st|st ev h r ev' He Hp|st ev x ev' He Hp].
  - unfold handle_message. destruct (isBatch mb); [by apply (book_same st); [apply same_reply|]|].
    destruct (decode mb) as [msg|e]; [|by apply (book_same st); [apply same_reply|]].
    case_bool_decide; [by apply book_subscribe|]. case_bool_decide; [by apply book_unsubscribe|].
    by apply (book_same st); [apply same_reply|].
  - apply (book_same st); [|done]. unfold write_answer. destruct (WriteMessage _ _ _) as [err c]. split; [done|]. split; [done|].
    cbn. rewrite Hr. by destruct f, err.
  - by apply book_leave.
  - by apply (book_same st); [eapply same_turn|].
  - by apply (book_same st); [apply same_set_worker|].
  - by apply (book_same st).
  - by apply (book_same st).
  - by apply (book_same st).
Qed.

Lemma book_connected ev : book_inv (connected ev).
Proof. split; cbn; [constructor|done..|]. done. Qed.

Lemma book_reachable ev st : rtc step (connected ev) st → book_inv st.
Proof.
  intros H. assert (book_inv (connected ev)) as Hb by apply book_connected. induction H as [|a b c Hab _ IH]; [done|].
  apply IH. by eapply book_step.
Qed.

(** C16. No subscription outlives its connection or is out of the client's reach: in
    every reachable state of a connection a running subscription is the one that
    eth_unsubscribe finds under its id, the ids are distinct, and once the read loop
    has been left the context of every subscription has been cancelled. *)
Theorem subscriptions_accounted ev st :
  rtc step (connected ev) st →
  NoDup (w_id <$> workers st) ∧
  (∀ i w, workers st !! i = Some w → w_cancelled w = false → subscriptions st !! w_id w = Some i ∧ reading st ≠ Left) ∧
  (∀ id i, subscriptions st !! id = Some i → ∃ w, workers st !! i = Some w ∧ w_id w = id ∧ (reading st ≠ Left → w_cancelled w = false)).
Proof.
  intros H%book_reachable. rewrite <- roster_ids. destruct H as [B1 B2 B3 B4]. unfold roster in *. split; [done|]. split.
  - intros i w Hw Hc. assert (((λ w, (w_id w, w_cancelled w)) <$> workers st) !! i = Some (w_id w, false)) as Hro
      by (by rewrite list_lookup_fmap, Hw; cbn; rewrite Hc).
    split; [by apply B2|]. intros Hl. by specialize (B4 _ _ _ Hl Hro).
  - intros id i (c & Hc & Hl)%B3. rewrite list_lookup_fmap_Some in Hc. destruct Hc as (w & [= -> ->] & Hw). by exists w.
Qed.

(** ** What a subscription is to deliver *)

(** The notifications of every item of the stream of a subscription, in order. *)
Definition feed (sub : subscription) (h : history) : list (list payload) :=
  match sub with
  | NewHeads => (λ x, [PHeader (EthHeader x)]) <$> headers h
  | Logs crit => (λ log, if LogMatches log (Addresses crit) (Topics crit) then [PLog log] else []) <$> logs h
  | NewPendingTransactions => (λ x, [PHash x]) <$> hashes h
  end.

(** Those of the items from the [start]-th to before the [n]-th. *)
Definition slice {A} (l : list (list A)) (start n : nat) : list A := mjoin (take (n - start) (drop start l)).

Lemma slice_extend {A} (l k : list (list A)) start n : (n ≤ length l)%nat → slice (l ++ k) start n = slice l start n.
Proof.
  intros Hn. unfold slice. destruct (decide (start ≤ length l)%nat) as [Hs|Hs].
  - rewrite drop_app_le by done. rewrite take_app_le; [done|]. rewrite length_drop. lia.
  - replace (n - start)%nat with 0%nat by lia. by rewrite !take_0.
Qed.

Lemma slice_join {A} (l : list (list A)) a b c : (a ≤ b ≤ c)%nat → slice l a c = slice l a b ++ slice l b c.
Proof.
  intros H. unfold slice. rewrite <- join_app. f_equal. replace (c - a)%nat with ((b - a) + (c - b))%nat by lia.
  rewrite <- take_take_drop, drop_drop. do 3 f_equal. lia.
Qed.

Lemma slice_nil {A} (l : list (list A)) n : slice l n n = [].
Proof. unfold slice. by rewrite Nat.sub_diag, take_0. Qed.

(** The first item that the stream of a subscription still holds. *)
Definition first_kept (ev : RPCStream) (sub : subscription) : nat :=
  match sub with
  | NewHeads => Stream.segmentOffset (headerStream ev) * Stream.segmentSize (headerStream ev)
  | Logs _ => Stream.segmentOffset (logStream ev) * Stream.segmentSize (logStream ev)
  | NewPendingTransactions => Stream.segmentOffset (pendingTxStream ev) * Stream.segmentSize (pendingTxStream ev)
  end.

(** Subscriptions have no bounds on block numbers. *)
Definition unbounded (sub : subscription) : Prop :=
  match sub with Logs crit => FromBlock crit = None ∧ ToBlock crit = None | _ => True end.

Lemma subscribe_unbounded b params sub : subscribe b params = Ok sub → unbounded sub.
Proof.
  unfold subscribe. destruct b; [|done]. cbn [negb]. destruct params as [|[| | |method| |] rest]; try done.
  case_bool_decide; [by intros [= <-]|]. case_bool_decide; cycle 1.
  { case_bool_decide; [by intros [= <-]|]. by case_bool_decide. }
  intros (crit & Hc & (u & _ & [= <-])%res_bind_ok)%res_bind_ok. cbn. revert Hc. unfold parse_criteria.
  destruct (default _ _); try done; [by intros [= <-]|]. by intros (x & _ & (y & _ & [= <-])%res_bind_ok)%res_bind_ok.
Qed.

Lemma FilterLogs_unbounded items addresses topics :
  FilterLogs items None None addresses topics = Ok (base.filter (λ log, LogMatches log addresses topics = true) items).
Proof.
  induction items as [|log items IH]; [done|]. cbn [FilterLogs out_of_range res_bind]. rewrite IH. cbn [res_bind orb]. f_equal.
  rewrite filter_cons. destruct (LogMatches _ _ _); [by rewrite decide_True|by rewrite decide_False].
Qed.

Lemma join_cons {A} (x : list A) (l : list (list A)) : mjoin (x :: l) = x ++ mjoin l.
Proof. done. Qed.

Lemma feed_logs crit (items : list (option RPCLog)) :
  PLog <$> base.filter (λ log, LogMatches log (Addresses crit) (Topics crit) = true) items =
    mjoin ((λ log, if LogMatches log (Addresses crit) (Topics crit) then [PLog log] else []) <$> items).
Proof.
  induction items as [|log items IH]; [done|]. rewrite filter_cons, fmap_cons, join_cons, <- IH.
  destruct (LogMatches _ _ _); [by rewrite decide_True|by rewrite decide_False].
Qed.

Lemma singles {A B} (f : A → B) (l : list A) : f <$> l = mjoin ((λ x, [f x]) <$> l).
Proof. induction l as [|x l IH]; [done|]. by rewrite !fmap_cons, join_cons, <- IH. Qed.

Lemma took_nothing {A} (l : list A) o n : (o ≤ n ≤ length l)%nat → bool_decide (take (n - o) (drop o l) = []) = bool_decide (n = o).
Proof.
  intros H. apply bool_decide_ext. split.
  - intros E%(f_equal length). rewrite length_take, length_drop in E. cbn in E. lia.
  - intros ->. by rewrite Nat.sub_diag, take_0.
Qed.

(** A read at an offset that is still held. *)
Lemma read_chunk_spec ev h sub (o : nat) :
  streams_inv ev h → unbounded sub → (first_kept ev sub ≤ o ≤ length (feed sub h))%nat →
  ∃ n : nat, read_chunk ev sub (Z.of_nat o) = Ok (bool_decide (n = o), slice (feed sub h) o n, Z.of_nat n) ∧
    (o ≤ n ≤ length (feed sub h))%nat ∧ (o < length (feed sub h) → o < n)%nat.
Proof.
  intros (I1 & I2 & I3) Hu. destruct sub as [|crit|]; cbn [first_kept feed]; rewrite length_fmap; intros Ho.
  1: destruct (Stream.doRead_spec _ _ o I1 Ho) as (n & E & Hn & Hlt & _).
  2: destruct (Stream.doRead_spec _ _ o I3 Ho) as (n & E & Hn & Hlt & _).
  3: destruct (Stream.doRead_spec _ _ o I2 Ho) as (n & E & Hn & Hlt & _).
  all: exists n; (split; [|done]); unfold read_chunk, slice; rewrite E; cbn [no_err lib res_map_err res_bind].
  - by rewrite took_nothing, <- fmap_drop, <- fmap_take, singles by done.
  - destruct Hu as [-> ->]. rewrite FilterLogs_unbounded. cbn [res_bind]. by rewrite took_nothing, <- fmap_drop, <- fmap_take, feed_logs by done.
  - by rewrite took_nothing, <- fmap_drop, <- fmap_take, singles by done.
Qed.

(** The first read of a subscription: nothing, and the end of the stream. *)
Lemma read_chunk_start ev h sub :
  streams_inv ev h → unbounded sub → read_chunk ev sub (-1) = Ok (true, [], Z.of_nat (length (feed sub h))).
Proof.
  intros (I1 & I2 & I3) Hu. pose proof (FilterPoll.read_end _ _ I1) as E1. pose proof (FilterPoll.read_end _ _ I2) as E2.
  pose proof (FilterPoll.read_end _ _ I3) as E3. unfold Stream.ReadNonBlocking in *.
  destruct sub as [|crit|]; cbn [feed read_chunk]; rewrite ?E1, ?E2, ?E3, length_fmap; reflexivity.
Qed.

(** ** Delivery *)

(** The notifications of one subscription among the frames the peer was sent. *)
Definition notified (id : string) (frames : list frame) : list payload :=
  omap (λ f, match f with Notification id' result => if bool_decide (id' = id) then Some result else None | _ => None end) frames.

Definition is_notification (f : frame) : bool := match f with Notification _ _ => true | _ => false end.

Lemma notified_other id frames f : is_notification f = false → notified id (frames ++ [f]) = notified id frames.
Proof. intros H. unfold notified. rewrite omap_app. destruct f; [by rewrite app_nil_r..|done]. Qed.

Lemma notified_snoc id id' frames result :
  notified id (frames ++ [Notification id' result]) = notified id frames ++ (if bool_decide (id' = id) then [result] else []).
Proof. unfold notified. rewrite omap_app. cbn. by destruct (bool_decide _). Qed.

(** What was published before the connection. *)
Context (base : history).

(** A worker has sent what its stream holds from the place where it started up to its
    offset, except for what it is about to send. *)
Definition delivered (h : history) (frames : list frame) (w : worker) : Prop :=
  (w_offset w = -1 ∧ w_phase w = Reading ∧ notified (w_id w) frames = []) ∨
  ∃ (start n : nat) rest, w_offset w = Z.of_nat n ∧
    (length (feed (w_sub w) base) ≤ start ∧ start ≤ n ≤ length (feed (w_sub w) h))%nat ∧
    notified (w_id w) frames ++ rest = slice (feed (w_sub w) h) start n ∧
    match w_phase w with Sending results => rest = results | Reading | Waiting => rest = [] | Returned => True end.

Definition worker_inv (h : history) (frames : list frame) (w : worker) : Prop := unbounded (w_sub w) ∧ delivered h frames w.

Record delivery_inv (st : state) (ev : RPCStream) (h : history) : Prop := {
  dl_events : events st = Some ev;
  dl_streams : streams_inv ev h;
  dl_base sub : (length (feed sub base) ≤ length (feed sub h))%nat;
  dl_book : book_inv st;
  dl_known id result : Notification id result ∈ sent (conn st) → id ∈ (w_id <$> workers st);
  dl_answer f : reading st = Replying f → is_notification f = false;
  dl_workers : Forall (worker_inv h (sent (conn st))) (workers st);
}.

(** No running worker lags behind what its stream still holds. *)
Definition keeps_up (st : state) : Prop :=
  ∀ ev w (n : nat), events st = Some ev → w ∈ workers st → w_phase w ≠ Returned → w_offset w = Z.of_nat n → (first_kept ev (w_sub w) ≤ n)%nat.

Definition paced (st st' : state) : Prop := step st st' ∧ keeps_up st'.

Definition grows (h h' : history) : Prop := ∀ sub, ∃ k, feed sub h' = feed sub h ++ k.

Lemma delivered_grows h h' frames w : grows h h' → delivered h frames w → delivered h' frames w.
Proof.
  intros Hg [H|(start & n & rest & Ho & Hn & Hs & Hp)]; [by left|right]. destruct (Hg (w_sub w)) as [k Hk].
  exists start, n, rest. rewrite Hk, length_app, slice_extend by lia. split_and!; try done; lia.
Qed.

Lemma publish_grows ev h height r ev' :
  streams_inv ev h → PublishIndexedBlock ev height = (r, ev') → ∃ h', streams_inv ev' h' ∧ grows h h'.
Proof.
  assert (grows h h) as Hid by (intros sub; exists []; by rewrite app_nil_r).
  intros Hs Hp. destruct (reader ev) as [rd|] eqn:Er; [|unfold PublishIndexedBlock in Hp; rewrite Er in Hp; by injection Hp as _ <-; exists h].
  pose proof (publish_spec ev h rd height Hs Er) as H. destruct (read_block rd height) as [b|e|p].
  - destruct H as (s' & E & Hs' & _). rewrite Hp in E. injection E as _ <-. exists (extend h b). split; [done|].
    intros [|crit|]; cbn; rewrite fmap_app; by eexists.
  - rewrite Hp in H. injection H as _ <-. by exists h.
  - rewrite Hp in H. injection H as _ <-. by exists h.
Qed.

Lemma pending_grows ev h x ev' :
  streams_inv ev h → ListenPendingTx (Some ev) x = Ok (Some ev') → ∃ h', streams_inv ev' h' ∧ grows h h'.
Proof.
  intros (I1 & I2 & I3). unfold ListenPendingTx. destruct (Add_ok _ _ [x] I2) as (id & t & E & It & _). rewrite E. cbn. intros [= <-].
  exists (mkHistory (headers h) (hashes h ++ [x]) (logs h)). split; [done|]. intros [|crit|]; cbn; [by exists []; rewrite app_nil_r..|].
  rewrite fmap_app. by eexists.
Qed.

Lemma cancel_inv h frames i ws : Forall (worker_inv h frames) ws → Forall (worker_inv h frames) (cancel i ws).
Proof. intros H. unfold cancel. apply Forall_alter; [done|]. by intros w _ Hw. Qed.

Lemma cancel_ids i ws : w_id <$> cancel i ws = w_id <$> ws.
Proof.
  unfold cancel. apply list_eq. intros j. rewrite !list_lookup_fmap. destruct (decide (i = j)) as [<-|Hne].
  - rewrite list_lookup_alter_eq. by destruct (ws !! i).
  - by rewrite list_lookup_alter_ne.
Qed.

Lemma cancel_all_inv h frames (m : gmap string nat) ws :
  Forall (worker_inv h frames) ws → Forall (worker_inv h frames) (map_fold (λ _ i ws, cancel i ws) ws m) ∧
    w_id <$> map_fold (λ _ i ws, cancel i ws) ws m = w_id <$> ws.
Proof.
  intros H. apply (map_fold_weak_ind (λ ws' _, Forall (worker_inv h frames) ws' ∧ w_id <$> ws' = w_id <$> ws)); [done|].
  intros k i m' ws' _ [IH1 IH2]. split; [by apply cancel_inv|]. by rewrite cancel_ids.
Qed.

Lemma delivery_keep st st' ev h :
  delivery_inv st ev h → book_inv st' → events st' = events st → sent (conn st') = sent (conn st) →
  (w_id <$> workers st) ⊆ (w_id <$> workers st') → (∀ f, reading st' = Replying f → is_notification f = false) →
  Forall (worker_inv h (sent (conn st))) (workers st') → delivery_inv st' ev h.
Proof. intros [] Hb He Hc Hw Hr Hf. split; rewrite ?He, ?Hc; try done. intros id result Hin. eauto. Qed.

Lemma tcp_answer mb : is_notification (tcpGetAndSendResponse post mb) = false.
Proof. unfold tcpGetAndSendResponse. by destruct (post mb). Qed.

Lemma notified_unknown st ev h id : delivery_inv st ev h → id ∉ (w_id <$> workers st) → notified id (sent (conn st)) = [].
Proof.
  intros Hd Hid. pose proof (dl_known _ _ _ Hd) as Hk. unfold notified. induction (sent (conn st)) as [|f l IH]; [done|].
  cbn. rewrite IH by (intros id' r Hin; apply (Hk id' r); by right). destruct f as [| | | |id' r]; try done.
  rewrite bool_decide_eq_false_2; [done|]. intros ->. apply Hid, (Hk id r). by left.
Qed.

(** A message is answered by a frame that is not a notification. *)
Lemma handle_reply st newID mb : ∃ f, reading (handle_message decode post st newID mb) = Replying f ∧ is_notification f = false.
Proof.
  unfold handle_message, eth_subscribe, eth_unsubscribe. destruct (isBatch mb); [by eexists; split; [|apply tcp_answer]|].
  destruct (decode mb) as [msg|e]; [|by eexists]. case_bool_decide; [destruct (res_bind _ _); by eexists|].
  case_bool_decide; [|by eexists; split; [|apply tcp_answer]].
  destruct (getParamsAndCheckValid _) as [[|[| | |id| |] rest]|e|p]; try by eexists. destruct (_ !! id); by eexists.
Qed.

Lemma handle_conn st newID mb : conn (handle_message decode post st newID mb) = conn st ∧ events (handle_message decode post st newID mb) = events st.
Proof.
  unfold handle_message, eth_subscribe, eth_unsubscribe. destruct (isBatch mb); [done|].
  destruct (decode mb) as [msg|e]; [|done]. case_bool_decide; [by destruct (res_bind _ _)|].
  case_bool_decide; [|done]. destruct (getParamsAndCheckValid _) as [[|[| | |id| |] rest]|e|p]; try done. by destruct (_ !! id).
Qed.

(** On a connection whose writes succeed every message is answered by exactly one
    frame, and the loop is ready for the next one. *)
Lemma message_answered st newID mb :
  open (conn st) = true → (∀ n, outcome n = None) →
  ∃ f, is_notification f = false ∧ reading (handle_message decode post st newID mb) = Replying f ∧
    let st' := write_answer outcome (handle_message decode post st newID mb) f in
    reading st' = Idle ∧ sent (conn st') = sent (conn st) ++ [f].
Proof.
  intros Ho Hn. destruct (handle_reply st newID mb) as (f & Hf & Hnf). exists f. split; [done|]. split; [done|]. cbn zeta.
  unfold write_answer, WriteMessage. destruct (handle_conn st newID mb) as [-> _]. rewrite Ho, Hn. by destruct f.
Qed.

(** eth_unsubscribe tells whether the subscription was running, and cancels it. *)
Lemma unsubscribe_answer st id rest rid ev :
  rtc step (connected ev) st → reading st = Idle →
  let st' := eth_unsubscribe st (mkRequest "eth_unsubscribe" (Some (JString id :: rest)) rid) in
  reading st' = Replying (Unsubscribed rid (bool_decide ((id, false) ∈ roster st))) ∧ (id, false) ∉ roster st'.
Proof.
  intros Hr Hidle. pose proof (book_reachable _ _ Hr) as Hb. cbn zeta.
  pose proof (book_unsubscribe st (mkRequest "eth_unsubscribe" (Some (JString id :: rest)) rid) Hb Hidle) as Hb'.
  revert Hb'. unfold eth_unsubscribe. cbn [rq_Params getParamsAndCheckValid rq_ID]. destruct (subscriptions st !! id) as [i|] eqn:Ei; intros Hb'.
  - destruct (bk_map _ Hb _ _ Ei) as (c & Hc & Hl). rewrite Hidle in Hl. rewrite Hl in Hc by done. split.
    + cbn. rewrite bool_decide_eq_true_2; [done|]. by eapply list_elem_of_lookup_2.
    + intros [j Hj]%list_elem_of_lookup. apply (bk_open _ Hb') in Hj. cbn in Hj. by rewrite lookup_delete_eq in Hj.
  - assert ((id, false) ∉ roster st) as Hno by (intros [j Hj]%list_elem_of_lookup; apply (bk_open _ Hb) in Hj; congruence).
    split; [cbn; by rewrite bool_decide_eq_false_2|done].
Qed.

Lemma delivery_message st newID mb ev h :
  delivery_inv st ev h → reading st = Idle → open (conn st) = true → newID ∉ (w_id <$> workers st) →
  delivery_inv (handle_message decode post st newID mb) ev h.
Proof.
  intros Hd Hr Ho Hn. destruct (handle_conn st newID mb) as [Hc He]. destruct (handle_reply st newID mb) as (f & Hf & Hnf).
  assert (book_inv (handle_message decode post st newID mb)) as Hb by (apply (book_step st); [by constructor|apply Hd]).
  pose proof (dl_workers _ _ _ Hd) as Hw.
  assert ((w_id <$> workers st) ⊆ (w_id <$> workers (handle_message decode post st newID mb)) ∧
    Forall (worker_inv h (sent (conn st))) (workers (handle_message decode post st newID mb))) as [H1 H2].
  { unfold handle_message, eth_subscribe, eth_unsubscribe. destruct (isBatch mb); [done|].
    destruct (decode mb) as [msg|e]; [|done]. case_bool_decide.
    - destruct (res_bind _ _) as [sub|e|p] eqn:Es; [|done..]. cbn [workers]. rewrite fmap_app. split; [set_solver|].
      apply Forall_app. split; [done|]. apply Forall_singleton. split.
      + cbn. apply res_bind_ok in Es as (params & _ & Es). by eapply subscribe_unbounded.
      + left. split_and!; [done..|]. by eapply notified_unknown.
    - case_bool_decide; [|done]. destruct (getParamsAndCheckValid _) as [[|[| | |id| |] rest]|e|p]; try done.
      destruct (subscriptions st !! id) as [i|]; [|done]. cbn [workers]. rewrite cancel_ids. split; [done|]. by apply cancel_inv. }
  apply (delivery_keep st); [done..|by rewrite Hc|done| |done]. intros f' Hf'. rewrite Hf in Hf'. by injection Hf' as <-.
Qed.

Lemma delivery_answer st f ev h : delivery_inv st ev h → reading st = Replying f → delivery_inv (write_answer outcome st f) ev h.
Proof.
  intros Hd Hr. pose proof (dl_answer _ _ _ Hd f Hr) as Hf.
  assert (book_inv (write_answer outcome st f)) as Hb by (apply (book_step st); [by constructor|apply Hd]).
  revert Hb. unfold write_answer, WriteMessage. set (err := if open _ then _ else _). intros Hb. destruct Hd as [D1 D2 D0 D3 D4 D5 D6]. split; [done..| | |].
  - intros id result. cbn. destruct err; [apply D4|]. rewrite elem_of_app, list_elem_of_singleton. intros [?|<-]; [by eapply D4|done].
  - intros f'. cbn. destruct f, err; try done. by intros [= <-].
  - cbn. destruct err; [done|]. eapply Forall_impl; [exact D6|]. intros w [Hu Hw]. split; [done|].
    unfold delivered in *. by rewrite notified_other.
Qed.

Lemma delivery_leave st ev h : delivery_inv st ev h → reading st = Idle → delivery_inv (leave st) ev h.
Proof.
  intros Hd Hr. destruct (cancel_all_inv h (sent (conn st)) (subscriptions st) (workers st) (dl_workers _ _ _ Hd)) as [H1 H2].
  apply (delivery_keep st); [done|apply book_leave, Hd|done|done|cbn; by rewrite H2|done|done].
Qed.

Lemma delivery_conn st c ev h : delivery_inv st ev h → sent c = sent (conn st) → delivery_inv (with_conn st c) ev h.
Proof. intros Hd Hc. apply (delivery_keep st); try done; [apply (book_same st); [done|apply Hd]|apply Hd..]. Qed.

Lemma ids_set_worker st i w o p : workers st !! i = Some w → w_id <$> workers (set_worker st i w o p) = w_id <$> workers st.
Proof.
  intros H. unfold set_worker. cbn [workers with_workers]. rewrite list_fmap_insert. apply list_insert_id. by rewrite list_lookup_fmap, H.
Qed.

Lemma delivery_set st i w o p ev h :
  delivery_inv st ev h → workers st !! i = Some w →
  delivered h (sent (conn st)) (mkWorker (w_id w) (w_sub w) o p (w_cancelled w)) → delivery_inv (set_worker st i w o p) ev h.
Proof.
  intros Hd Hw Hn. pose proof (dl_workers _ _ _ Hd) as Hf. apply (delivery_keep st); try done.
  - apply (book_same st); [by apply same_set_worker|apply Hd].
  - by rewrite ids_set_worker.
  - apply Hd.
  - cbn. apply Forall_insert; [done|]. split; [|done]. by apply (Forall_lookup_1 _ _ _ _ Hf Hw).
Qed.

(** A notification that was sent counts for its worker only. *)
Lemma delivery_sent st i w result rest ev h c :
  delivery_inv st ev h → workers st !! i = Some w → w_phase w = Sending (result :: rest) →
  sent c = sent (conn st) ++ [Notification (w_id w) result] →
  delivery_inv (set_worker (with_conn st c) i w (w_offset w) (Sending rest)) ev h.
Proof.
  intros Hd Hw Hp Hc. pose proof Hd as [D1 D2 D0 D3 D4 D5 D6].
  assert (book_inv (set_worker (with_conn st c) i w (w_offset w) (Sending rest))) as Hb
    by (apply (book_same st); [by apply (same_set_worker (with_conn st c))|done]).
  split; [done..| |done|].
  - intros id r. rewrite (ids_set_worker (with_conn st c)) by done. cbn. rewrite Hc, elem_of_app, list_elem_of_singleton.
    intros [?|[= -> ->]]; [by eapply D4|]. apply list_elem_of_fmap. exists w. split; [done|]. by eapply list_elem_of_lookup_2.
  - cbn. rewrite Hc. apply Forall_lookup_2. intros j w'. rewrite list_lookup_insert_Some. intros [(<- & <- & _)|[Hne Hj]].
    + destruct (Forall_lookup_1 _ _ _ _ D6 Hw) as [Hu [(_ & ? & _)|(start & n & r & Ho & Hn & Hs & Hr)]]; [congruence|]. split; [done|].
      right. exists start, n, rest. rewrite Hp in Hr. subst r. cbn. rewrite notified_snoc, bool_decide_eq_true_2, <- app_assoc by done. done.
    + destruct (Forall_lookup_1 _ _ _ _ D6 Hj) as [Hu Hd']. split; [done|]. unfold delivered in *.
      assert (w_id w ≠ w_id w') as Hids.
      { intros E. apply Hne. pose proof (bk_ids _ D3) as Hnd. rewrite roster_ids in Hnd. apply (NoDup_lookup _ _ _ (w_id w) Hnd);
          rewrite list_lookup_fmap; [by rewrite Hw|by rewrite Hj, E]. }
      by rewrite notified_snoc, bool_decide_eq_false_2, app_nil_r by done.
Qed.

(** What the running worker [i] may do is defined, and keeps the account. *)
Lemma delivery_turn st i ev h :
  delivery_inv st ev h → keeps_up st → ∃ st', worker_turn outcome st i = Ok st' ∧ delivery_inv st' ev h.
Proof.
  intros Hd Hk. pose proof (dl_events _ _ _ Hd) as He. unfold worker_turn. rewrite He.
  destruct (workers st !! i) as [w|] eqn:Ew; [|by exists st].
  destruct (Forall_lookup_1 _ _ _ _ (dl_workers _ _ _ Hd) Ew) as [Hu Hw]. destruct (w_phase w) as [|[|x l]| |] eqn:Ep.
  - unfold worker_read. destruct Hw as [(Ho & _ & Hn)|(start & n & rest & Ho & Hn & Hs & Hr)]; rewrite Ho.
    + rewrite (read_chunk_start ev h) by (done || apply Hd). eexists. split; [done|]. apply delivery_set; [done..|]. right. cbn.
      eexists (length (feed (w_sub w) h)), (length (feed (w_sub w) h)), []. rewrite slice_nil, Hn. pose proof (dl_base _ _ _ Hd (w_sub w)). split_and!; done || lia.
    + rewrite Ep in Hr. subst rest. rewrite app_nil_r in Hs.
      destruct (read_chunk_spec ev h (w_sub w) n) as (n' & -> & Hn' & _); [apply Hd|done| |].
      { split; [|lia]. apply (Hk ev w n He); [by eapply list_elem_of_lookup_2|by rewrite Ep|done]. }
      eexists. split; [done|]. apply delivery_set; [done..|]. right. cbn. exists start, n'. case_bool_decide.
      * subst n'. exists []. rewrite app_nil_r. split_and!; done || lia.
      * exists (slice (feed (w_sub w) h) n n'). rewrite Hs, <- slice_join by lia. split_and!; done || lia.
  - eexists. split; [done|]. apply delivery_set; [done..|]. destruct Hw as [(_ & ? & _)|(start & n & rest & Ho & Hn & Hs & Hr)]; [congruence|].
    right. exists start, n, rest. by rewrite Ep in Hr.
  - eexists. split; [done|]. unfold worker_send, WriteMessage. set (err := if open _ then _ else _). destruct err as [e|] eqn:Eerr; cbn zeta.
    + apply (delivery_set (with_conn st _)); [apply delivery_conn; [done|by destruct (Indexer.errors_Is _ _)]|done|].
      destruct Hw as [(_ & ? & _)|(start & n & rest & Ho & Hn & Hs & Hr)]; [congruence|]. right. exists start, n, rest.
      split; [done|]. split; [done|]. split; [by destruct (Indexer.errors_Is _ _)|done].
    + by apply (delivery_sent st i w x).
  - eexists. split; [done|]. destruct (w_cancelled w); [|done]. apply delivery_set; [done..|].
    destruct Hw as [(_ & ? & _)|(start & n & rest & Ho & Hn & Hs & Hr)]; [congruence|]. right. by exists start, n, rest.
  - by eexists.
Qed.

Lemma delivery_grows st ev h ev' h' :
  delivery_inv st ev h → streams_inv ev' h' → grows h h' →
  delivery_inv (mkState (Some ev') (conn st) (subscriptions st) (workers st) (reading st)) ev' h'.
Proof.
  intros [D1 D2 D0 D3 D4 D5 D6] Hs Hg. split; cbn; try done.
  - intros sub. destruct (Hg sub) as [k ->]. rewrite length_app. specialize (D0 sub). lia.
  - by apply (book_same st).
  - eapply Forall_impl; [exact D6|]. intros w [Hu Hw]. split; [done|]. by eapply delivered_grows.
Qed.

Lemma delivery_step st st' ev h : step st st' → keeps_up st → delivery_inv st ev h → ∃ ev' h', delivery_inv st' ev' h'.
Proof.
  intros Hs Hk Hd. destruct Hs as [st newID mb Hr Ho Hn|st f Hr|st Hr|st i st' Ht|st i w Hw Hp|st|st ev1 height r ev' He Hp|st ev1 x ev' He Hp].
  - exists ev, h. by apply delivery_message.
  - exists ev, h. by apply delivery_answer.
  - exists ev, h. by apply delivery_leave.
  - destruct (delivery_turn st i ev h Hd Hk) as (st1 & E & Hd'). rewrite Ht in E. injection E as <-. by exists ev, h.
  - exists ev, h. apply delivery_set; [done..|].
    destruct (Forall_lookup_1 _ _ _ _ (dl_workers _ _ _ Hd) Hw) as [Hu [(_ & ? & _)|(start & n & rest & Ho & Hn & Hs & Hr)]]; [congruence|].
    right. exists start, n, rest. by rewrite Hp in Hr.
  - exists ev, h. by apply delivery_conn.
  - rewrite (dl_events _ _ _ Hd) in He. injection He as <-. destruct (publish_grows ev h height r ev' (dl_streams _ _ _ Hd) Hp) as (h' & Hs & Hg).
    exists ev', h'. by eapply delivery_grows.
  - rewrite (dl_events _ _ _ Hd) in He. injection He as <-. destruct (pending_grows ev h x ev' (dl_streams _ _ _ Hd) Hp) as (h' & Hs & Hg).
    exists ev', h'. by eapply delivery_grows.
Qed.

Lemma delivery_connected ev : streams_inv ev base → delivery_inv (connected (Some ev)) ev base.
Proof. intros Hs. split; try done; try apply book_connected. intros id r H. by apply elem_of_nil in H. Qed.

Lemma delivery_reachable ev0 st :
  streams_inv ev0 base → rtc paced (connected (Some ev0)) st → keeps_up st ∧ ∃ ev h, delivery_inv st ev h.
Proof.
  intros H0 Hr. assert (∀ a, rtc paced a st → keeps_up a → (∃ ev h, delivery_inv a ev h) → keeps_up st ∧ ∃ ev h, delivery_inv st ev h) as H.
  { clear Hr. intros a Ha. induction Ha as [|a b c [Hab Hb] _ IH]; [done|]. intros Hka (ev & h & Hd). apply IH; [done|]. by eapply delivery_step. }
  apply (H _ Hr); [intros ? w n _ Hw; by apply not_elem_of_nil in Hw|]. eexists _, _. by apply delivery_connected.
Qed.


(** ** Progress of one worker *)

Definition turn (i : nat) (st st' : state) : Prop := worker_turn outcome st i = Ok st'.

Definition reliable (st : state) : Prop := open (conn st) = true ∧ ∀ n, outcome n = None.

Definition with_place (w : worker) (o : Z) (p : phase) : worker := mkWorker (w_id w) (w_sub w) o p (w_cancelled w).

(** Where a turn brings the worker. *)
Definition turned (ev : RPCStream) (h : history) (st : state) (w : worker) (o : Z) (p : phase) : Prop :=
  match w_phase w with
  | Reading => ∃ n : nat, o = Z.of_nat n ∧ (first_kept ev (w_sub w) ≤ n ≤ length (feed (w_sub w) h))%nat ∧
      ((p = Waiting ∧ n = length (feed (w_sub w) h)) ∨ ∃ (m : nat) l, w_offset w = Z.of_nat m ∧ (m < n)%nat ∧ p = Sending l)
  | Sending [] => o = w_offset w ∧ p = Reading
  | Sending (_ :: l) => o = w_offset w ∧ (p = Sending l ∨ (p = Returned ∧ ¬ reliable st))
  | Waiting => o = w_offset w ∧ p = if w_cancelled w then Returned else Waiting
  | Returned => o = w_offset w ∧ p = Returned
  end.

Lemma first_kept_le ev h sub : streams_inv ev h → (first_kept ev sub ≤ length (feed sub h))%nat.
Proof.
  intros (I1 & I2 & I3). unfold Stream.inv in *. destruct sub as [|crit|]; cbn; rewrite length_fmap; [apply I1|apply I3|apply I2].
Qed.

Lemma with_place_id (ws : list worker) i w : ws !! i = Some w → <[i := with_place w (w_offset w) (w_phase w)]> ws = ws.
Proof. intros H. apply list_insert_id. rewrite H. by destruct w. Qed.

Lemma turn_spec st i w ev h :
  delivery_inv st ev h → keeps_up st → workers st !! i = Some w →
  ∃ st' o p, turn i st st' ∧ delivery_inv st' ev h ∧ workers st' = <[i := with_place w o p]> (workers st) ∧
    reading st' = reading st ∧ (reliable st → reliable st') ∧ turned ev h st w o p.
Proof.
  intros Hd Hk Hw. destruct (delivery_turn st i ev h Hd Hk) as (st' & Ht & Hd'). exists st'.
  assert (∃ o p, workers st' = <[i := with_place w o p]> (workers st) ∧ reading st' = reading st ∧ (reliable st → reliable st') ∧
    turned ev h st w o p) as (o & p & H); [|by exists o, p].
  clear Hd'. revert Ht. unfold worker_turn, turned. rewrite (dl_events _ _ _ Hd), Hw. destruct (w_phase w) as [|[|x l]| |] eqn:Ep.
  - unfold worker_read. destruct (Forall_lookup_1 _ _ _ _ (dl_workers _ _ _ Hd) Hw) as [Hu [(Ho & _)|(start & n & rest & Ho & Hn & _)]]; rewrite Ho.
    + rewrite (read_chunk_start ev h) by (done || apply Hd). intros [= <-]. eexists _, _. split_and!; [done..|].
      exists (length (feed (w_sub w) h)). pose proof (first_kept_le ev h (w_sub w) (dl_streams _ _ _ Hd)). split; [done|]. split; [lia|by left].
    + assert (first_kept ev (w_sub w) ≤ n)%nat as Hkn.
      { apply (Hk ev w n (dl_events _ _ _ Hd)); [by eapply list_elem_of_lookup_2|by rewrite Ep|done]. }
      destruct (read_chunk_spec ev h (w_sub w) n) as (n' & -> & Hn' & Hlt); [apply Hd|done|lia|].
      intros [= <-]. eexists _, _. split_and!; [done..|]. exists n'. split; [done|]. split; [lia|]. case_bool_decide; [left; split; [done|lia]|].
      right. eexists n, _. split; [done|]. split; [lia|done].
  - intros [= <-]. by eexists _, _.
  - intros [= <-]. unfold worker_send, WriteMessage. set (err := if open _ then _ else _). destruct err as [e|] eqn:Eerr; eexists _, _.
    + assert (¬ reliable st) as Hnr by (intros [H1 H2]; unfold err in Eerr; rewrite H1, H2 in Eerr; done).
      split_and!; [done..|]. by right.
    + split_and!; [done..| |done|by left]. intros [H1 H2]. by split.
  - intros [= <-]. destruct (w_cancelled w); [by eexists _, _|]. exists (w_offset w), Waiting. rewrite <- Ep at 1. by rewrite with_place_id.
  - intros [= <-]. exists (w_offset w), Returned. rewrite <- Ep at 1. by rewrite with_place_id.
Qed.

Lemma turn_keeps_up st i w ev h st' o p :
  delivery_inv st ev h → keeps_up st → workers st !! i = Some w → delivery_inv st' ev h →
  workers st' = <[i := with_place w o p]> (workers st) → turned ev h st w o p → keeps_up st'.
Proof.
  intros Hd Hk Hw Hd' Hws Ht ev1 w1 n He Hin Hp Hn. rewrite (dl_events _ _ _ Hd') in He. injection He as <-.
  rewrite Hws in Hin. apply list_elem_of_lookup in Hin as [j Hj]. apply list_lookup_insert_Some in Hj as [(_ & <- & _)|[_ Hj]]; cycle 1.
  { apply (Hk ev w1 n); [apply Hd|by eapply list_elem_of_lookup_2|done..]. }
  cbn in *. unfold turned in Ht. pose proof (list_elem_of_lookup_2 _ _ _ Hw) as Hin. specialize (Hk ev w n (dl_events _ _ _ Hd) Hin).
  destruct (w_phase w) as [|[|x l]| |].
  - destruct Ht as (m & -> & Hm & _). apply Nat2Z.inj in Hn as ->. lia.
  - destruct Ht as [-> _]. by apply Hk.
  - destruct Ht as [-> _]. by apply Hk.
  - destruct Ht as [-> _]. by apply Hk.
  - by destruct Ht as [_ ->].
Qed.

(** A worker in a sound state, and its turns. *)
Record live (ev : RPCStream) (h : history) (i : nat) (st : state) (w : worker) : Prop := {
  lv_delivery : delivery_inv st ev h;
  lv_keeps : keeps_up st;
  lv_worker : workers st !! i = Some w;
}.

Definition paced_turn (i : nat) (st st' : state) : Prop := turn i st st' ∧ keeps_up st'.

Lemma paced_turn_paced i st st' : rtc (paced_turn i) st st' → rtc paced st st'.
Proof. apply rtc_subrel. intros a b [H Hk]. split; [by eapply step_turn|done]. Qed.

Lemma turn_live ev h i st w :
  live ev h i st w → ∃ st' o p, paced_turn i st st' ∧ live ev h i st' (with_place w o p) ∧ reading st' = reading st ∧
    (reliable st → reliable st') ∧ turned ev h st w o p.
Proof.
  intros [Hd Hk Hw]. destruct (turn_spec st i w ev h Hd Hk Hw) as (st' & o & p & Ht & Hd' & Hws & Hr & Hrel & Htd).
  assert (keeps_up st') as Hk' by exact (turn_keeps_up st i w ev h st' o p Hd Hk Hw Hd' Hws Htd).
  exists st', o, p. split; [done|]. split; [|done]. split; [done..|]. rewrite Hws. apply list_lookup_insert_eq. by eapply lookup_lt_Some.
Qed.

(** A worker is settled once it waits at the end of its stream or has returned. *)
Definition settled (h : history) (st : state) (w' : worker) : Prop :=
  (w_phase w' = Waiting ∧ w_offset w' = Z.of_nat (length (feed (w_sub w') h))) ∨ (w_phase w' = Returned ∧ ¬ reliable st).

Definition settles (ev : RPCStream) (h : history) (i : nat) (st : state) (w : worker) : Prop :=
  ∃ st' o p, rtc (paced_turn i) st st' ∧ live ev h i st' (with_place w o p) ∧ reading st' = reading st ∧
    (reliable st → reliable st') ∧ settled h st (with_place w o p).

Lemma settles_turn ev h i st st' w o p :
  paced_turn i st st' → reading st' = reading st → (reliable st → reliable st') →
  settles ev h i st' (with_place w o p) → settles ev h i st w.
Proof.
  intros Ht Hr Hrel (st2 & o2 & p2 & Hs & Hl & Hr2 & Hrel2 & H). exists st2, o2, p2. split; [by eapply rtc_l|]. split; [done|].
  split; [congruence|]. split; [auto|]. destruct H as [H|[H Hn]]; [by left|right]. split; [done|]. auto.
Qed.

(** From the middle of sending a worker comes to its next read, or returns. *)
Lemma sending_settles ev h i l st w :
  live ev h i st w → w_phase w = Sending l →
  (∀ st' p, live ev h i st' (with_place w (w_offset w) p) → p = Reading → settles ev h i st' (with_place w (w_offset w) p)) →
  settles ev h i st w.
Proof.
  revert st w. induction l as [|x l IH]; intros st w Hl Hp Hread; destruct (turn_live _ _ _ _ _ Hl) as (st' & o & p & Ht & Hl' & Hr & Hrel & Htd);
    unfold turned in Htd; rewrite Hp in Htd; destruct Htd as [-> Htd].
  - apply (settles_turn _ _ _ _ st' _ (w_offset w) p); [done..|]. by apply Hread.
  - destruct Htd as [->|[-> Hn]].
    + apply (settles_turn _ _ _ _ st' _ (w_offset w) (Sending l)); [done..|]. apply IH; [done..|]. intros st2 p2 Hl2 ->. by apply Hread.
    + exists st', (w_offset w), Returned. split; [by apply rtc_once|]. split; [done|]. split; [done|]. split; [done|]. by right.
Qed.

Lemma reading_settles ev h i d st w :
  live ev h i st w → w_phase w = Reading → Z.to_nat (Z.of_nat (length (feed (w_sub w) h)) - w_offset w) = d → settles ev h i st w.
Proof.
  revert st w. induction (lt_wf d) as [d _ IH]. intros st w Hl Hp Hd.
  destruct (turn_live _ _ _ _ _ Hl) as (st' & o & p & Ht & Hl' & Hr & Hrel & Htd). unfold turned in Htd. rewrite Hp in Htd.
  destruct Htd as (n & -> & Hn & [[-> Hend]|(m & l & Ho & Hmn & ->)]).
  - exists st', (Z.of_nat n), Waiting. split; [by apply rtc_once|]. split_and!; [done..|]. left. split; [done|]. cbn. by rewrite Hend.
  - apply (settles_turn _ _ _ _ st' _ (Z.of_nat n) (Sending l)); [done..|]. apply (sending_settles _ _ _ l); [done..|].
    intros st2 p2 Hl2 ->. eapply IH; [|exact Hl2|done|reflexivity]. cbn. lia.
Qed.

Lemma worker_settles ev h i st w :
  live ev h i st w → w_phase w = Reading ∨ (∃ l, w_phase w = Sending l) → settles ev h i st w.
Proof.
  intros Hl [Hp|[l Hp]]; [by eapply reading_settles|]. apply (sending_settles _ _ _ l); [done..|]. intros st' p Hl' ->. by eapply reading_settles.
Qed.

(** A subscription catches up: on a connection whose writes succeed, a worker that
    runs after a broadcast comes to wait again having sent, from the place it started
    at, everything its stream holds. *)
Theorem subscription_catches_up ev0 st i w :
  streams_inv ev0 base → rtc paced (connected (Some ev0)) st → reliable st →
  workers st !! i = Some w → w_phase w = Reading ∨ (∃ l, w_phase w = Sending l) →
  ∃ st' ev h w' (start : nat), rtc (paced_turn i) st st' ∧ events st = Some ev ∧ streams_inv ev h ∧
    workers st' !! i = Some w' ∧ w_id w' = w_id w ∧ w_sub w' = w_sub w ∧ w_phase w' = Waiting ∧
    (start ≤ length (feed (w_sub w) h))%nat ∧
    notified (w_id w) (sent (conn st')) = mjoin (drop start (feed (w_sub w) h)).
Proof.
  intros H0 Hreach Hrel Hw Hp. destruct (delivery_reachable ev0 st H0 Hreach) as (Hk & ev & h & Hd).
  destruct (worker_settles ev h i st w) as (st' & o & p & Hrun & [Hd' Hk' Hw'] & _ & _ & [[Hwait Ho]|[_ ?]]); [by split|done| |done].
  destruct (Forall_lookup_1 _ _ _ _ (dl_workers _ _ _ Hd') Hw') as [_ [(_ & ? & _)|(start & n & rest & Hn & Hle & Hs & Hrest)]]; [congruence|].
  cbn in *. rewrite Hwait in Hrest. subst rest. rewrite app_nil_r in Hs. rewrite Ho in Hn. apply Nat2Z.inj in Hn.
  exists st', ev, h, (with_place w o p), start. split_and!; [done|apply Hd|apply Hd|done..|lia|].
  rewrite Hs. unfold slice. f_equal. apply take_ge. rewrite length_drop. lia.
Qed.

(** The goroutines of a connection that was left come to an end: each of its workers
    returns after finitely many turns of its own. *)
Theorem left_workers_return ev0 st i w :
  streams_inv ev0 base → rtc paced (connected (Some ev0)) st → reading st = Left → workers st !! i = Some w →
  ∃ st' w', rtc (turn i) st st' ∧ workers st' !! i = Some w' ∧ w_id w' = w_id w ∧ w_phase w' = Returned.
Proof.
  intros H0 Hreach Hleft Hw. destruct (delivery_reachable ev0 st H0 Hreach) as (Hk & ev & h & Hd).
  assert (∀ st1 w1, live ev h i st1 w1 → reading st1 = Left → w_phase w1 = Waiting →
    ∃ st', turn i st1 st' ∧ workers st' !! i = Some (with_place w1 (w_offset w1) Returned)) as Hwait.
  { intros st1 w1 Hl Hr Hp. destruct (turn_live _ _ _ _ _ Hl) as (st2 & o & p & [Ht _] & [_ _ Hw2] & _ & _ & Htd). exists st2. split; [done|].
    unfold turned in Htd. rewrite Hp in Htd. destruct Htd as [-> ->]. destruct Hl as [Hd1 _ Hw1].
    pose proof (bk_left _ (dl_book _ _ _ Hd1) i (w_id w1) (w_cancelled w1) Hr) as Hc. rewrite Hc in Hw2; [done|].
    unfold roster. by rewrite list_lookup_fmap, Hw1. }
  assert (live ev h i st w) as Hl by by split.
  destruct (w_phase w) as [|l| |] eqn:Ep.
  3: { destruct (Hwait st w Hl Hleft Ep) as (st' & Ht & Hw'). eexists st', _. split; [by apply rtc_once|]. by split. }
  3: { exists st, w. by split; [apply rtc_refl|]. }
  all: destruct (worker_settles ev h i st w Hl) as (st' & o & p & Hrun & Hl' & Hr & _ & Hend); [eauto|].
  all: assert (rtc (turn i) st st') as Hrun' by (revert Hrun; apply rtc_subrel; by intros a b [? _]).
  all: destruct Hend as [[Hp _]|[Hp _]]; [|eexists st', _; split; [done|]; split; [apply Hl'|by split]].
  all: destruct (Hwait st' _ Hl' ltac:(congruence) Hp) as (st2 & Ht & Hw2).
  all: eexists st2, _; split; [by eapply rtc_r|]; split; [exact Hw2|by split].
Qed.
End connection.

(** ** A connection with one subscription to headers *)

Module Witness.
Import EthInstances.

Definition sample_meta : CachedBlockMeta :=
  mkMeta 12 "0x00000000000000000000000000000000000000000000000000000000000000aa" EmptyString EmptyString EmptyString 1700000000 0 0 0 0 0
    EmptyString EmptyString EmptyString false.
Definition sample_reader : IndexedBlockReader := mkBlockReader (λ _, Ok sample_meta) (λ _, Ok []) (λ _, Ok []).

Definition sample_decode (mb : bytes) : wsRPCRequest + error :=
  inl (mkRequest "eth_subscribe" (Some [JString "newHeads"]) mb).
Definition sample_post (mb : bytes) : bytes + error := inl mb.
Definition always (n : nat) : option error := None.

Notation step_ := (step sample_decode sample_post always).
Notation paced_ := (paced sample_decode sample_post always).

Definition the {A} (d : A) (m : res error A) : A := match m with Ok a => a | _ => d end.
Definition no_stream : RPCStream := mkRPCStream None (Stream.mkStream Queue.New 1 1 0) (Stream.mkStream Queue.New 1 1 0) (Stream.mkStream Queue.New 1 1 0).
Definition ev0 : RPCStream := the no_stream (NewRPCStream (Some sample_reader)).
Definition ev1 : RPCStream := (PublishIndexedBlock ev0 12).2.

Definition subscribed : state := handle_message sample_decode sample_post (connected (Some ev0)) "0x1" [49].
Definition answered : state := write_answer always subscribed (Subscribed [49] "0x1").
Definition waiting (st : state) : state := the st (worker_turn always st 0).
Definition published (st : state) : state := mkState (Some ev1) (conn st) (subscriptions st) (workers st) (reading st).
Definition woken (st : state) : state :=
  match workers st with w :: _ => set_worker st 0 w (w_offset w) Reading | [] => st end.
Definition sample_state : state := woken (published (waiting answered)).

Lemma ev0_inv : streams_inv ev0 (mkHistory [] [] []).
Proof. unfold ev0. destruct (NewRPCStream_ok (Some sample_reader)) as (ev & -> & H & _). exact H. Qed.

Lemma nothing_dropped st :
  (∀ ev, events st = Some ev → ev = ev0 ∨ ev = ev1) → keeps_up st.
Proof.
  intros He ev w n Hev _ _ _. assert (first_kept ev (w_sub w) = 0)%nat as ->; [|lia].
  destruct (He ev Hev) as [-> | ->]; destruct (w_sub w); vm_compute; reflexivity.
Qed.

Lemma pace st st' : step_ st st' → (events st' = Some ev0 ∨ events st' = Some ev1) → paced_ st st'.
Proof. intros Hs He. split; [done|]. apply nothing_dropped. intros ev E. rewrite E in He. destruct He as [[= ->]|[= ->]]; auto. Qed.

Lemma reach_answered : rtc paced_ (connected (Some ev0)) answered.
Proof.
  eapply rtc_l; [apply pace; [apply (step_message _ _ _ _ "0x1" [49]); [reflexivity|reflexivity|apply not_elem_of_nil]|left; reflexivity]|].
  apply rtc_once, pace; [apply step_answer; reflexivity|left; reflexivity].
Qed.

Lemma publish_step st : events st = Some ev0 → step_ st (published st).
Proof. intros He. apply (step_publish _ _ _ st ev0 12 (Ok tt)); [exact He|vm_compute; reflexivity]. Qed.

Lemma reach_sample : rtc paced_ (connected (Some ev0)) sample_state.
Proof.
  etrans; [apply reach_answered|].
  eapply rtc_l; [apply (pace _ (waiting answered)); [apply (step_turn _ _ _ _ 0); vm_compute; reflexivity|left; vm_compute; reflexivity]|].
  eapply rtc_l; [apply (pace _ (published (waiting answered))); [apply publish_step; vm_compute; reflexivity|right; reflexivity]|].
  apply rtc_once, pace; [|right; vm_compute; reflexivity].
  refine (step_wake _ _ _ (published (waiting answered)) 0 (mkWorker "0x1" NewHeads 0 Waiting false) _ _); vm_compute; reflexivity.
Qed.

Definition sample_worker : worker := mkWorker "0x1" NewHeads 0 Reading false.

(** The worker reads the published header, sends it, and waits again. *)
Definition delivered_state : state := waiting (waiting (waiting (waiting sample_state))).

Lemma paced_waiting st : worker_turn always st 0 = Ok (waiting st) → events (waiting st) = Some ev1 → paced_ st (waiting st).
Proof. intros Ht He. apply pace; [by apply (step_turn _ _ _ _ 0)|by right]. Qed.

Lemma reach_delivered : rtc paced_ (connected (Some ev0)) delivered_state.
Proof.
  etrans; [apply reach_sample|]. unfold delivered_state.
  do 3 (eapply rtc_l; [apply paced_waiting; vm_compute; reflexivity|]).
  apply rtc_once, paced_waiting; vm_compute; reflexivity.
Qed.


(** The header that was published while it waited is sent when the worker has run. *)
Lemma subscription_catches_up_witness :
  ∃ st' ev h (start : nat), rtc (paced_turn always 0) sample_state st' ∧ events sample_state = Some ev ∧ streams_inv ev h ∧
    notified "0x1" (sent (conn st')) = mjoin (drop start (feed NewHeads h)).
Proof.
  destruct (subscription_catches_up sample_decode sample_post always (mkHistory [] [] []) ev0 sample_state 0 sample_worker)
    as (st' & ev & h & w' & start & H1 & H2 & H3 & _ & _ & _ & _ & _ & H4);
    [apply ev0_inv|apply reach_sample|split; [vm_compute; reflexivity|reflexivity]|vm_compute; reflexivity|left; reflexivity|].
  exists st', ev, h, start. split_and!; assumption.
Defined.

Lemma subscriptions_accounted_witness : subscriptions sample_state !! "0x1"%string = Some 0%nat.
Proof.
  destruct (subscriptions_accounted sample_decode sample_post always (Some ev0) sample_state) as (_ & H & _).
  - apply (rtc_subrel paced_ step_); [by intros a b [? _]|apply reach_sample].
  - apply (H 0%nat sample_worker); [vm_compute; reflexivity|reflexivity].
Defined.

Lemma left_workers_return_witness :
  ∃ st' w', rtc (turn always 0) (leave answered) st' ∧ workers st' !! 0%nat = Some w' ∧ w_phase w' = Returned.
Proof.
  destruct (left_workers_return sample_decode sample_post always (mkHistory [] [] []) ev0 (leave answered) 0 (mkWorker "0x1" NewHeads (-1) Reading true))
    as (st' & w' & H1 & H2 & _ & H3).
  - apply ev0_inv.
  - eapply rtc_r; [apply reach_answered|]. apply pace; [apply step_leave; reflexivity|left; reflexivity].
  - reflexivity.
  - vm_compute. reflexivity.
  - exists st', w'. split_and!; assumption.
Defined.

(** The goroutine is started before the id of the subscription is sent: a notification
    can reach the client first. *)
Lemma notification_before_response :
  let st := waiting (waiting (woken (published (waiting subscribed)))) in
  rtc step_ (connected (Some ev0)) st ∧ is_notification <$> sent (conn st) = [true] ∧ reading st = Replying (Subscribed [49] "0x1").
Proof.
  cbn zeta. split; [|split; vm_compute; reflexivity].
  eapply rtc_l; [apply (step_message _ _ _ _ "0x1" [49]); [reflexivity|reflexivity|apply not_elem_of_nil]|]. fold subscribed.
  eapply rtc_l; [apply (step_turn _ _ _ _ 0 (waiting subscribed)); vm_compute; reflexivity|].
  eapply rtc_l; [apply publish_step; vm_compute; reflexivity|].
  eapply rtc_l; [refine (step_wake _ _ _ (published (waiting subscribed)) 0 (mkWorker "0x1" NewHeads 0 Waiting false) _ _); vm_compute; reflexivity|].
  eapply rtc_l; [apply (step_turn _ _ _ _ 0 (waiting (woken (published (waiting subscribed))))); vm_compute; reflexivity|].
  apply rtc_once. apply (step_turn _ _ _ _ 0). vm_compute. reflexivity.
Qed.

(** The goroutine takes its place in the stream when it first runs: a block published
    after the answer to the request can be missed. *)
Lemma block_missed_after_response :
  let st := waiting (published answered) in
  rtc step_ (connected (Some ev0)) st ∧ sent (conn st) = [Subscribed [49] "0x1"] ∧
  workers st !! 0%nat = Some (mkWorker "0x1" NewHeads 1 Waiting false).
Proof.
  cbn zeta. split; [|split; vm_compute; reflexivity].
  etrans; [apply (rtc_subrel paced_ step_); [by intros a b [? _]|apply reach_answered]|].
  eapply rtc_l; [apply publish_step; vm_compute; reflexivity|].
  apply rtc_once. apply (step_turn _ _ _ _ 0). vm_compute. reflexivity.
Qed.
End Witness.
End WebsocketProps.
