(* ===== verification/Pace.v ===== *)
(** * Pace and fetch timings

    Pace of src/internal/blocksync/pace.go, which logs how fast blocks are handled, and
    the fetch timing recorder of timing.go.  Both are read by nobody but the operator;
    what matters is that the log accounts for every block, that stopping flushes it, and
    that a closed recorder is not written to. *)

From Stdlib Require Import String.
From S2P Require Import Prelude Bytes GoLib.
From stdpp Require Import list relations.
#[local] Open Scope Z_scope.

Module Pace.
Import GoLib.

Definition Millisecond : Z := 1000000.

(** Times are nanoseconds; the zero time is [None].  [previous] is the count of the last
    report of progress: only its being zero is used. *)
Record Pace := mkPace {
  label : string;
  timeframe : Z;
  count : Z;
  startedAt : Z;
  lastReportAt : Z;
  lastCount : Z;
  previous : Z;
  stalled : option Z;
}.

Definition NewPace (l : string) (tf started reported : Z) : Pace := mkPace l tf 0 started reported 0 0 None.

Definition Add (p : Pace) (n : Z) : Pace :=
  mkPace (label p) (timeframe p) (int64 (count p + n)) (startedAt p) (lastReportAt p) (lastCount p) (previous p) (stalled p).

Inductive line :=
| Progress (message : string) (delta duration : Z)
| Stalled (message : string) (duration : Z).

Definition reportProgress (p : Pace) (value duration : Z) (final : bool) : Pace * list line :=
  (mkPace (label p) (timeframe p) (count p) (startedAt p) (lastReportAt p) (lastCount p) value None,
   [Progress (if final then label p +:+ " [done]" else label p) value duration]).

(** The time a report covers: a clock that did not advance counts as a whole period. *)
Definition report_duration (p : Pace) (now : Z) : Z :=
  let duration := int64 (now - lastReportAt p) in
  let duration := if bool_decide (duration ≤ 0) then timeframe p else duration in
  if bool_decide (lastReportAt p = startedAt p) && bool_decide (duration < Millisecond) then Millisecond else duration.

(** The warning of a period without progress; [now'] is the time it is written. *)
Definition report_stalled (p : Pace) (now' : Z) : Pace * list line :=
  match stalled p with
  | Some since =>
      let dur := int64 (now' - since) in
      let n := Z.quot dur (timeframe p) in
      let dur := if bool_decide (int64 (dur - int64 (n * timeframe p)) < 10 * Millisecond) then int64 (n * timeframe p) else dur in
      (p, [Stalled (label p) dur])
  | None =>
      (mkPace (label p) (timeframe p) (count p) (startedAt p) (lastReportAt p) (lastCount p) (previous p) (Some (now' - timeframe p)),
       [Stalled (label p) (timeframe p)])
  end.

Definition report (p : Pace) (now now' : Z) (final : bool) : Pace * list line :=
  let current := count p in
  let deltaCount := int64 (current - lastCount p) in
  let duration := report_duration p now in
  if bool_decide (0 < deltaCount) then
    reportProgress (mkPace (label p) (timeframe p) (count p) (startedAt p) now current (previous p) (stalled p)) deltaCount duration final
  else if final then (p, [])
  else if bool_decide (previous p = 0) then (p, [])
  else report_stalled p now'.

(** ** The goroutine

    [run] waits for the ticker or for [stopC]; Stop closes [stopC] once and returns when
    [run] has. *)

Inductive phase := Running | Stopping | Done.

Record psys := mkPsys { pace : Pace; log : list line; at_phase : phase }.

Inductive pstep : psys → psys → Prop :=
| step_add p l ph n : pstep (mkPsys p l ph) (mkPsys (Add p n) l ph)
| step_tick p l ph now now' p' l' : ph ≠ Done → report p now now' false = (p', l') → pstep (mkPsys p l ph) (mkPsys p' (l ++ l') ph)
| step_stop p l : pstep (mkPsys p l Running) (mkPsys p l Stopping)
| step_final p l now now' p' l' : report p now now' true = (p', l') → pstep (mkPsys p l Stopping) (mkPsys p' (l ++ l') Done).

(** The count a log accounts for. *)
Definition delta_of (x : line) : Z := match x with Progress _ delta _ => delta | Stalled _ _ => 0 end.
Fixpoint reported (l : list line) : Z := match l with [] => 0 | x :: l => delta_of x + reported l end.

Lemma reported_app a b : reported (a ++ b) = reported a + reported b.
Proof. induction a as [|x a IH]; cbn; lia. Qed.

(** Steps while the counter neither overflows nor goes down. *)
Definition steady (s s' : psys) : Prop := pstep s s' ∧ count (pace s) ≤ count (pace s').

Definition counted (s : psys) : Prop :=
  reported (log s) = lastCount (pace s) ∧ 0 ≤ lastCount (pace s) ≤ count (pace s) ∧ is_int64 (count (pace s)).

(** One report: it moves the count it reports from the counter to the log. *)
Lemma report_counts p now now' final p' l :
  0 ≤ lastCount p ≤ count p → is_int64 (count p) → report p now now' final = (p', l) →
  count p' = count p ∧ lastCount p' = count p ∧ reported l = count p - lastCount p.
Proof.
  intros Hl Hc. unfold report. rewrite int64_small by (gate_ints; lia). case_bool_decide as Hd.
  - intros [= <- <-]. cbn. lia.
  - assert (lastCount p = count p) as E by lia. destruct final; [intros [= <- <-]; cbn; lia|].
    case_bool_decide; [intros [= <- <-]; cbn; lia|]. unfold report_stalled. destruct (stalled p); intros [= <- <-]; cbn; lia.
Qed.

Lemma steady_counted s s' : steady s s' → counted s → counted s'.
Proof.
  intros [H Hm] (Hr & Hl & Hc). unfold counted. destruct H as [p l ph n|p l ph now now' p' l' _ E|p l|p l now now' p' l' E]; cbn in *.
  - split_and!; try lia; apply int64_range.
  - destruct (report_counts _ _ _ _ _ _ Hl Hc E) as (-> & -> & E'). rewrite reported_app. gate_ints. lia.
  - done.
  - destruct (report_counts _ _ _ _ _ _ Hl Hc E) as (-> & -> & E'). rewrite reported_app. gate_ints. lia.
Qed.

(** The pace log accounts for every block: as long as the counter only grows, the
    counts in the log add up to the counter at the last report and never exceed it, and
    the report made when the pace is stopped brings the log up to the counter. *)
Theorem pace_accounts label tf started reported_at s :
  rtc steady (mkPsys (NewPace label tf started reported_at) [] Running) s →
  reported (log s) ≤ count (pace s) ∧
  (∀ s', steady s s' → at_phase s = Stopping → at_phase s' = Done → reported (log s') = count (pace s')).
Proof.
  intros Hr. assert (counted s) as Hs.
  { assert (counted (mkPsys (NewPace label tf started reported_at) [] Running)) as H0 by (unfold counted; cbn; gate_ints; lia).
    induction Hr; eauto using steady_counted. }
  pose proof Hs as (H1 & H2 & H3). split; [lia|]. intros s' H Hp Hd.
  destruct H as [H _]. revert H1 H2 H3 Hp Hd. clear Hr Hs.
  destruct H as [p l ph n|p l ph now now' p' l' Hn E|p l|p l now now' p' l' E]; cbn [at_phase pace log]; intros H1 H2 H3 Hp Hd; [congruence|congruence|done|].
  destruct (report_counts _ _ _ _ _ _ H2 H3 E) as (-> & _ & E'). rewrite reported_app. lia.
Qed.

(** Reported durations are positive, so the rate is defined. *)
Lemma report_duration_positive p now : 0 < timeframe p → 0 < report_duration p now.
Proof. intros H. unfold report_duration, Millisecond. repeat case_bool_decide; cbn; lia. Qed.

(** Stop returns: the final report does not wait. *)
Lemma pace_stops p l : ∃ s, pstep (mkPsys p l Stopping) s ∧ at_phase s = Done.
Proof. destruct (report p 0 0 true) as [p' l'] eqn:E. eexists. split; [by eapply step_final|done]. Qed.

(** ** Fetch timings *)

(** The outcomes of opening the file: no path configured or a failure leave no
    recorder. *)
Record recorder := mkRecorder { r_open : bool; r_lines : list string }.

(** [sync.Once] and the instance it may have created. *)
Inductive once := NotYet | Tried (instance : option recorder).

Definition getFetchTimingRecorder (path : string) (mkdir create : option error) (o : once) : option recorder * once :=
  match o with
  | Tried r => (r, o)
  | NotYet =>
      let r := if bool_decide (path = "") then None
               else match mkdir, create with None, None => Some (mkRecorder true []) | _, _ => None end in
      (r, Tried r)
  end.

Definition CloseFetchTimingRecorder (path : string) (mkdir create close : option error) (o : once) : option error * once :=
  match getFetchTimingRecorder path mkdir create o with
  | (None, o) => (None, o)
  | (Some r, o) => if negb (r_open r) then (None, o) else (close, Tried (Some (mkRecorder false (r_lines r))))
  end.

(** [event] is the encoded event, or nothing when it could not be encoded; errors of the
    write are ignored. *)
Definition Record_ (r : option recorder) (event : option string) : option recorder :=
  match r, event with
  | Some r, Some e => if r_open r then Some (mkRecorder true (r_lines r ++ [e])) else Some r
  | r, _ => r
  end.

(** A closed recorder stays as it is, and closing it again succeeds. *)
Lemma closed_recorder path mkdir create close close' o e o' :
  CloseFetchTimingRecorder path mkdir create close o = (e, o') →
  CloseFetchTimingRecorder path mkdir create close' o' = (None, o') ∧
  (∀ r event, o' = Tried r → Record_ r event = r).
Proof.
  unfold CloseFetchTimingRecorder, getFetchTimingRecorder. intros H.
  assert (o' = Tried None ∨ ∃ lines, o' = Tried (Some (mkRecorder false lines))) as [->|[lines ->]].
  { destruct o as [|[[[] lines]|]]; cbn in H; [|injection H as _ <-; eauto..]. case_bool_decide; [injection H as _ <-; eauto|].
    destruct mkdir, create; injection H as _ <-; eauto. }
  - split; [done|]. intros r event [= <-]. by destruct event.
  - split; [done|]. intros r event [= <-]. by destruct event.
Qed.

Definition sample_pace : psys := mkPsys (NewPace "blocks" 5000000000 0 0) [] Running.

Lemma pace_accounts_witness :
  ∃ s, rtc steady sample_pace s ∧ at_phase s = Done ∧ log s = [Progress "blocks [done]" 3 2000000000] ∧ reported (log s) = count (pace s).
Proof.
  set (s1 := mkPsys (Add (pace sample_pace) 3) [] Running). set (s2 := mkPsys (pace s1) [] Stopping).
  set (s3 := mkPsys (report (pace s2) 2000000000 0 true).1 [Progress "blocks [done]" 3 2000000000] Done).
  assert (steady sample_pace s1) as H1 by (split; [apply step_add|by vm_compute]).
  assert (steady s1 s2) as H2 by (split; [apply step_stop|done]).
  assert (steady s2 s3) as H3 by (split; [by apply (step_final (pace s2) [] 2000000000 0)|by vm_compute]).
  assert (rtc steady sample_pace s2) as Hr by (eapply rtc_l; [exact H1|by apply rtc_once]).
  exists s3. split_and!; [by eapply rtc_r|done|done|].
  exact (proj2 (pace_accounts "blocks" 5000000000 0 0 s2 Hr) s3 H3 eq_refl eq_refl).
Defined.
End Pace.
