(* ===== verification/DebugApi.v ===== *)
(** * The profiles of the debug namespace

    StartCPUProfile, StopCPUProfile, StartGoTrace, StopGoTrace and the timed profiles of
    src/internal/evm/rpc/namespaces/ethereum/debug (api.go, trace.go, utils.go).  The
    state is the handler and what it changes in the process: open files, the running CPU
    profile and Go trace, the sampling rates.  A call holds the handler's lock from its
    first to its last statement and is one step; the timed profiles release it while they
    sleep, so other calls run in between. *)

From Stdlib Require Import Ascii String.
From S2P Require Import Prelude Bytes GoLib.
From stdpp Require Import strings list gmap relations.
#[local] Open Scope Z_scope.

Module DebugApi.
Import GoLib.

(** ** Paths *)

(** The elements of a path between its slashes. *)
Fixpoint split_path (acc : string) (p : string) : list string :=
  match p with
  | EmptyString => [acc]
  | String c p => if bool_decide (c = "/"%char) then acc :: split_path "" p else split_path (acc +:+ String c EmptyString) p
  end.

(** path/filepath.Clean on Unix: elements are kept on a stack, the last one first. *)
Definition clean_step (rooted : bool) (stack : list string) (e : string) : list string :=
  if bool_decide (e = "" ∨ e = ".") then stack
  else if bool_decide (e = "..") then
    match stack with
    | top :: rest => if bool_decide (top = "..") then e :: stack else rest
    | [] => if rooted then [] else [e]
    end
  else e :: stack.

Definition filepath_Clean (p : string) : string :=
  let rooted := strings_HasPrefix p "/" in
  let elements := rev (foldl (clean_step rooted) [] (split_path "" p)) in
  let joined := String.concat "/" elements in
  if rooted then "/" +:+ joined else if bool_decide (joined = "") then "." else joined.

(** What the operating system answers during one call: the home directory, the creation
    of the file, the write of a profile, the closing of the file. *)
Record os_answers := mkAnswers {
  user_Current : res error string;
  os_Create : option error;
  profile_WriteTo : option error;
  os_Close : option error;
}.

Definition ExpandHome (os : os_answers) (p : string) : res error string :=
  if strings_HasPrefix p "~/" || strings_HasPrefix p "~\" then
    let! home := user_Current os in
    Ok (filepath_Clean (home +:+ String.substring 1 (String.length p - 1) p))
  else Ok (filepath_Clean p).

(** ** State *)

Definition file := nat.

Record HandlerT := mkHandler {
  cpuFilename : string;
  cpuFile : option file;
  traceFilename : string;
  traceFile : option file;
}.

(** The process: files created so far and those open, the file the CPU profiler and the
    tracer write to, the sampling rates of the block and mutex profiles. *)
Record process := mkProcess {
  p_files : nat;
  p_open : gset file;
  p_cpu : option file;
  p_trace : option file;
  p_blockRate : Z;
  p_mutexFraction : Z;
}.

Record dstate := mkD { handler : HandlerT; proc : process }.

Definition new_state : dstate := mkD (mkHandler "" None "" None) (mkProcess 0 ∅ None None 0 0).

(** Files are closed once; closing one again fails. *)
Definition create_file (p : process) : file * process :=
  (p_files p, mkProcess (S (p_files p)) ({[ p_files p ]} ∪ p_open p) (p_cpu p) (p_trace p) (p_blockRate p) (p_mutexFraction p)).

Definition file_Close (os : os_answers) (f : file) (p : process) : option error * process :=
  if bool_decide (f ∈ p_open p) then
    (os_Close os, mkProcess (p_files p) (p_open p ∖ {[ f ]}) (p_cpu p) (p_trace p) (p_blockRate p) (p_mutexFraction p))
  else (Some (New "file already closed"), p).

Definition set_cpu (f : option file) (p : process) : process :=
  mkProcess (p_files p) (p_open p) f (p_trace p) (p_blockRate p) (p_mutexFraction p).
Definition set_trace (f : option file) (p : process) : process :=
  mkProcess (p_files p) (p_open p) (p_cpu p) f (p_blockRate p) (p_mutexFraction p).
Definition set_block_rate (rate : Z) (p : process) : process :=
  mkProcess (p_files p) (p_open p) (p_cpu p) (p_trace p) rate (p_mutexFraction p).
Definition set_mutex_fraction (rate : Z) (p : process) : process :=
  mkProcess (p_files p) (p_open p) (p_cpu p) (p_trace p) (p_blockRate p) rate.

(** pprof.StartCPUProfile and trace.Start refuse to run twice. *)
Definition pprof_StartCPUProfile (f : file) (p : process) : option error * process :=
  match p_cpu p with Some _ => (Some (New "cpu profiling already in use"), p) | None => (None, set_cpu (Some f) p) end.
Definition trace_Start (f : file) (p : process) : option error * process :=
  match p_trace p with Some _ => (Some (New "tracing is already enabled"), p) | None => (None, set_trace (Some f) p) end.

(** ** Calls *)

Definition with_proc (s : dstate) (p : process) : dstate := mkD (handler s) p.

Definition isCPUProfileConfigurationActivated : bool := false.

(** The file of a profile, created; [start] runs on it and it is closed when that fails. *)
Definition open_profile (os : os_answers) (file_name closing : string) (start : file → process → option error * process)
    (p : process) : res error file * process :=
  match ExpandHome os file_name with
  | Err err => (Err err, p)
  | Panic m => (Panic m, p)
  | Ok _ =>
      match os_Create os with
      | Some err => (Err err, p)
      | None =>
          let '(f, p) := create_file p in
          match start f p with
          | (Some err, p) =>
              match file_Close os f p with
              | (Some closeErr, p) => (Err (Wrap closing closeErr), p)
              | (None, p) => (Err err, p)
              end
          | (None, p) => (Ok f, p)
          end
      end
  end.

Definition StartCPUProfile (os : os_answers) (file_name : string) (s : dstate) : res error unit * dstate :=
  let h := handler s in
  if isCPUProfileConfigurationActivated then (Err (New "CPU profiling already in progress using the configuration file"), s)
  else
    match cpuFile h with
    | Some _ => (Err (New "CPU profiling already in progress"), s)
    | None =>
        match open_profile os file_name "failed to close cpu profile file" pprof_StartCPUProfile (proc s) with
        | (Ok f, p) => (Ok tt, mkD (mkHandler file_name (Some f) (traceFilename h) (traceFile h)) p)
        | (Err err, p) => (Err err, with_proc s p)
        | (Panic m, p) => (Panic m, with_proc s p)
        end
    end.

Definition StopCPUProfile (os : os_answers) (s : dstate) : res error unit * dstate :=
  let h := handler s in
  if isCPUProfileConfigurationActivated then (Err (New "CPU profiling already in progress using the configuration file"), s)
  else
    match cpuFile h with
    | None => (Err (New "CPU profiling not in progress"), s)
    | Some f =>
        match file_Close os f (set_cpu None (proc s)) with
        | (Some err, p) => (Err (Wrap "failed to close cpu file" err), with_proc s p)
        | (None, p) => (Ok tt, mkD (mkHandler "" None (traceFilename h) (traceFile h)) p)
        end
    end.

Definition StartGoTrace (os : os_answers) (file_name : string) (s : dstate) : res error unit * dstate :=
  let h := handler s in
  match traceFile h with
  | Some _ => (Err (New "trace already in progress"), s)
  | None =>
      match open_profile os file_name "failed to close trace file" trace_Start (proc s) with
      | (Ok f, p) => (Ok tt, mkD (mkHandler (cpuFilename h) (cpuFile h) file_name (Some f)) p)
      | (Err err, p) => (Err err, with_proc s p)
      | (Panic m, p) => (Panic m, with_proc s p)
      end
  end.

(** trace.Stop() runs before the handler is looked at. *)
Definition StopGoTrace (os : os_answers) (s : dstate) : res error unit * dstate :=
  let h := handler s in
  let p := set_trace None (proc s) in
  match traceFile h with
  | None => (Err (New "trace not in progress"), with_proc s p)
  | Some f =>
      match file_Close os f p with
      | (Some err, p) => (Err (Wrap "failed to close trace file" err), with_proc s p)
      | (None, p) => (Ok tt, mkD (mkHandler (cpuFilename h) (cpuFile h) "" None) p)
      end
  end.

(** The error of Close replaces that of the write; a successful Close returns the
    write's error, or none. *)
Definition writeProfile (os : os_answers) (file_name : string) (s : dstate) : res error unit * dstate :=
  match ExpandHome os file_name with
  | Err err => (Err err, s)
  | Panic m => (Panic m, s)
  | Ok _ =>
      match os_Create os with
      | Some err => (Err err, s)
      | None =>
          let '(f, p) := create_file (proc s) in
          let '(closed, p) := file_Close os f p in
          match closed, profile_WriteTo os with
          | Some err, _ | None, Some err => (Err err, with_proc s p)
          | None, None => (Ok tt, with_proc s p)
          end
      end
  end.

(** A rate below 1 turns block profiling off; a negative fraction only reads. *)
Definition SetBlockProfileRate (rate : Z) (s : dstate) : dstate := with_proc s (set_block_rate (Z.max 0 rate) (proc s)).
Definition SetMutexProfileFraction (rate : Z) (s : dstate) : dstate :=
  if bool_decide (rate < 0) then s else with_proc s (set_mutex_fraction rate (proc s)).

(** ** Timed profiles

    The first part of a timed profile runs when the call arrives, the second when its
    sleep is over. *)

Inductive sleeper := SleepCPU | SleepTrace | SleepBlock (file_name : string) | SleepMutex (file_name : string).

Inductive call :=
| CStartCPU (file_name : string) | CStopCPU | CStartTrace (file_name : string) | CStopTrace
| CWrite (file_name : string) | CBlockRate (rate : Z) | CMutexFraction (rate : Z)
| CCPUProfile (file_name : string) | CGoTrace (file_name : string)
| CBlockProfile (file_name : string) | CMutexProfile (file_name : string).

(** The answer of a call, or [None] while it sleeps. *)
Definition answered (r : res error unit * dstate) : option (res error unit) * dstate * list sleeper := (Some r.1, r.2, []).
Definition sleeps (k : sleeper) (r : res error unit * dstate) : option (res error unit) * dstate * list sleeper :=
  match r with
  | (Ok _, s) => (None, s, [k])
  | (e, s) => (Some e, s, [])
  end.

Definition CPUProfile (os : os_answers) (f : string) (s : dstate) := sleeps SleepCPU (StartCPUProfile os f s).
Definition GoTrace (os : os_answers) (f : string) (s : dstate) := sleeps SleepTrace (StartGoTrace os f s).
Definition BlockProfile (f : string) (s : dstate) := sleeps (SleepBlock f) (Ok tt, SetBlockProfileRate 1 s).
Definition MutexProfile (f : string) (s : dstate) := sleeps (SleepMutex f) (Ok tt, SetMutexProfileFraction 1 s).

Definition serve (os : os_answers) (c : call) (s : dstate) : option (res error unit) * dstate * list sleeper :=
  match c with
  | CStartCPU f => answered (StartCPUProfile os f s)
  | CStopCPU => answered (StopCPUProfile os s)
  | CStartTrace f => answered (StartGoTrace os f s)
  | CStopTrace => answered (StopGoTrace os s)
  | CWrite f => answered (writeProfile os f s)
  | CBlockRate rate => answered (Ok tt, SetBlockProfileRate rate s)
  | CMutexFraction rate => answered (Ok tt, SetMutexProfileFraction rate s)
  | CCPUProfile f => CPUProfile os f s
  | CGoTrace f => GoTrace os f s
  | CBlockProfile f => BlockProfile f s
  | CMutexProfile f => MutexProfile f s
  end.

(** The rest of a timed profile; the rates are reset when the write has returned. *)
Definition wake (os : os_answers) (k : sleeper) (s : dstate) : res error unit * dstate :=
  match k with
  | SleepCPU => StopCPUProfile os s
  | SleepTrace => StopGoTrace os s
  | SleepBlock f => let '(r, s) := writeProfile os f s in (r, SetBlockProfileRate 0 s)
  | SleepMutex f => let '(r, s) := writeProfile os f s in (r, SetMutexProfileFraction 0 s)
  end.

Record sys := mkSys { now : dstate; asleep : list sleeper }.

Inductive dstep : sys → sys → Prop :=
| step_serve os c s ks r s' k : serve os c s = (r, s', k) → dstep (mkSys s ks) (mkSys s' (k ++ ks))
| step_wake os k s ks1 ks2 : dstep (mkSys s (ks1 ++ k :: ks2)) (mkSys (wake os k s).2 (ks1 ++ ks2)).

(** ** Files and profiles belong together *)

(** Every open file is held by the handler, and a profile runs exactly while its file is
    held and open. *)
Record accounted (s : dstate) : Prop := {
  ac_open f : f ∈ p_open (proc s) → cpuFile (handler s) = Some f ∨ traceFile (handler s) = Some f;
  ac_cpu f : p_cpu (proc s) = Some f ↔ cpuFile (handler s) = Some f ∧ f ∈ p_open (proc s);
  ac_trace f : p_trace (proc s) = Some f ↔ traceFile (handler s) = Some f ∧ f ∈ p_open (proc s);
  ac_old f : cpuFile (handler s) = Some f ∨ traceFile (handler s) = Some f → (f < p_files (proc s))%nat;
  ac_apart f : cpuFile (handler s) = Some f → traceFile (handler s) ≠ Some f;
}.

Lemma not_running s : accounted s → cpuFile (handler s) = None → p_cpu (proc s) = None.
Proof. intros H E. destruct (p_cpu (proc s)) as [f|] eqn:Ep; [|done]. apply (ac_cpu _ H) in Ep as [? _]. congruence. Qed.

Lemma not_tracing s : accounted s → traceFile (handler s) = None → p_trace (proc s) = None.
Proof. intros H E. destruct (p_trace (proc s)) as [f|] eqn:Ep; [|done]. apply (ac_trace _ H) in Ep as [? _]. congruence. Qed.

(** A new file is not one the handler holds. *)
Lemma fresh_file s : accounted s → p_files (proc s) ∉ p_open (proc s) ∧
  cpuFile (handler s) ≠ Some (p_files (proc s)) ∧ traceFile (handler s) ≠ Some (p_files (proc s)).
Proof.
  intros H. split_and!; [intros Hin%(ac_open _ H)|intros E|intros E].
  - apply (ac_old _ H) in Hin. lia.
  - pose proof (ac_old _ H _ (or_introl E)). lia.
  - pose proof (ac_old _ H _ (or_intror E)). lia.
Qed.

(** The same files, another process or other rates. *)
Lemma accounted_same s s' :
  accounted s → handler s' = handler s → p_open (proc s') = p_open (proc s) → p_cpu (proc s') = p_cpu (proc s) →
  p_trace (proc s') = p_trace (proc s) → (p_files (proc s) ≤ p_files (proc s'))%nat → accounted s'.
Proof.
  intros [H1 H2 H3 H4 H5] Eh Eo Ec Et Ef. constructor; intros f; rewrite ?Eh, ?Eo, ?Ec, ?Et; auto.
  intros Hf%H4. lia.
Qed.

(** A file for the CPU profile, and its end. *)
Lemma accounted_cpu_started s name :
  accounted s → cpuFile (handler s) = None →
  accounted (mkD (mkHandler name (Some (p_files (proc s))) (traceFilename (handler s)) (traceFile (handler s)))
               (set_cpu (Some (p_files (proc s))) (create_file (proc s)).2)).
Proof.
  intros H Ec. destruct (fresh_file _ H) as (F1 & F2 & F3). destruct H as [H1 H2 H3 H4 H5]. constructor; intros f; cbn.
  - intros [->%elem_of_singleton|Hf]%elem_of_union; [by left|]. apply H1 in Hf as [|]; [congruence|by right].
  - split; [intros [= <-]; split; [done|set_solver]|by intros [[= <-] _]].
  - rewrite H3, elem_of_union, elem_of_singleton. split; [by intros [? ?]; split; [|right]|]. intros [E [->|Hf]]; [done|by split].
  - intros [[= <-]|E]; [lia|]. pose proof (H4 f (or_intror E)). lia.
  - by intros [= <-].
Qed.

Lemma accounted_trace_started s name :
  accounted s → traceFile (handler s) = None →
  accounted (mkD (mkHandler (cpuFilename (handler s)) (cpuFile (handler s)) name (Some (p_files (proc s))))
               (set_trace (Some (p_files (proc s))) (create_file (proc s)).2)).
Proof.
  intros H Ec. destruct (fresh_file _ H) as (F1 & F2 & F3). destruct H as [H1 H2 H3 H4 H5]. constructor; intros f; cbn.
  - intros [->%elem_of_singleton|Hf]%elem_of_union; [by right|]. apply H1 in Hf as [|]; [by left|congruence].
  - rewrite H2, elem_of_union, elem_of_singleton. split; [by intros [? ?]; split; [|right]|]. intros [E [->|Hf]]; [done|by split].
  - split; [intros [= <-]; split; [done|set_solver]|by intros [[= <-] _]].
  - intros [E|[= <-]]; [|lia]. pose proof (H4 f (or_introl E)). lia.
  - intros E [= <-]. by apply F2.
Qed.

(** The profile has ended and its file is closed; the handler keeps it or not. *)
Lemma accounted_cpu_stopped s h' g :
  accounted s → cpuFile (handler s) = Some g → (cpuFile h' = Some g ∨ cpuFile h' = None) → traceFile h' = traceFile (handler s) →
  accounted (mkD h' (mkProcess (p_files (proc s)) (p_open (proc s) ∖ {[ g ]}) None (p_trace (proc s)) (p_blockRate (proc s)) (p_mutexFraction (proc s)))).
Proof.
  intros [H1 H2 H3 H4 H5] Ec Eh Et. constructor; intros f; cbn; rewrite ?Et.
  - intros [Hf Hn]%elem_of_difference. apply H1 in Hf as [|]; [set_solver|by right].
  - split; [done|]. intros [E [_ Hn]%elem_of_difference]. destruct Eh as [Eh|Eh]; [|congruence]. set_solver.
  - rewrite H3, elem_of_difference, elem_of_singleton. split; [|by intros (? & ? & _)]. intros [E Hf]. split_and!; [done..|]. intros ->. by eapply H5.
  - intros [E|E]; [|by apply H4; right]. apply H4. left. destruct Eh; congruence.
  - intros E. apply H5. destruct Eh; congruence.
Qed.

Lemma accounted_trace_stopped s h' g :
  accounted s → traceFile (handler s) = Some g → (traceFile h' = Some g ∨ traceFile h' = None) → cpuFile h' = cpuFile (handler s) →
  accounted (mkD h' (mkProcess (p_files (proc s)) (p_open (proc s) ∖ {[ g ]}) (p_cpu (proc s)) None (p_blockRate (proc s)) (p_mutexFraction (proc s)))).
Proof.
  intros [H1 H2 H3 H4 H5] Ec Eh Et. constructor; intros f; cbn; rewrite ?Et.
  - intros [Hf Hn]%elem_of_difference. apply H1 in Hf as [|]; [by left|set_solver].
  - rewrite H2, elem_of_difference, elem_of_singleton. split; [|by intros (? & ? & _)]. intros [E Hf]. split_and!; [done..|]. intros ->. by eapply H5.
  - split; [done|]. intros [E [_ Hn]%elem_of_difference]. destruct Eh as [Eh|Eh]; [|congruence]. set_solver.
  - intros [E|E]; [by apply H4; left|]. apply H4. right. destruct Eh; congruence.
  - intros E1%H5 E2. apply E1. destruct Eh; congruence.
Qed.

(** A closed file is no longer open, whatever Close answers. *)
Lemma file_Close_closes os f p : p_open (file_Close os f p).2 = p_open p ∖ {[ f ]} ∧
  (file_Close os f p).2 = mkProcess (p_files p) (p_open p ∖ {[ f ]}) (p_cpu p) (p_trace p) (p_blockRate p) (p_mutexFraction p).
Proof.
  unfold file_Close. case_bool_decide; [done|]. destruct p as [n o c t b m]; cbn in *.
  assert (o ∖ {[f]} = o) as -> by set_solver. done.
Qed.

Lemma start_cpu_accounted os f s : accounted s → accounted (StartCPUProfile os f s).2.
Proof.
  intros H. unfold StartCPUProfile. cbn. destruct (cpuFile (handler s)) as [g|] eqn:Ec; [done|].
  unfold open_profile. destruct (ExpandHome os f) as [path|e|m]; cbn; [|by destruct s..].
  destruct (os_Create os); cbn; [by destruct s|]. unfold pprof_StartCPUProfile. cbn. rewrite (not_running _ H Ec). cbn.
  by apply (accounted_cpu_started s f).
Qed.

Lemma start_trace_accounted os f s : accounted s → accounted (StartGoTrace os f s).2.
Proof.
  intros H. unfold StartGoTrace. cbn. destruct (traceFile (handler s)) as [g|] eqn:Ec; [done|].
  unfold open_profile. destruct (ExpandHome os f) as [path|e|m]; cbn; [|by destruct s..].
  destruct (os_Create os); cbn; [by destruct s|]. unfold trace_Start. cbn. rewrite (not_tracing _ H Ec). cbn.
  by apply (accounted_trace_started s f).
Qed.

Lemma stop_cpu_accounted os s : accounted s → accounted (StopCPUProfile os s).2.
Proof.
  intros H. unfold StopCPUProfile. cbn. destruct (cpuFile (handler s)) as [g|] eqn:Ec; [|done].
  destruct (file_Close_closes os g (set_cpu None (proc s))) as [_ E]. destruct (file_Close _ _ _) as [[err|] p]; cbn in E |- *; subst p;
    apply accounted_cpu_stopped; auto.
Qed.

Lemma stop_trace_accounted os s : accounted s → accounted (StopGoTrace os s).2.
Proof.
  intros H. unfold StopGoTrace. cbn. destruct (traceFile (handler s)) as [g|] eqn:Ec.
  - destruct (file_Close_closes os g (set_trace None (proc s))) as [_ E]. destruct (file_Close _ _ _) as [[err|] p]; cbn in E |- *; subst p;
      apply accounted_trace_stopped; auto.
  - apply (accounted_same s); try done. cbn. by rewrite (not_tracing s).
Qed.

Lemma write_accounted os f s : accounted s → accounted (writeProfile os f s).2.
Proof.
  intros H. unfold writeProfile. destruct (ExpandHome os f); [|done..]. destruct (os_Create os); [done|]. cbn.
  destruct (fresh_file _ H) as (F1 & _). destruct (file_Close_closes os (p_files (proc s)) (create_file (proc s)).2) as [_ E].
  destruct (file_Close _ _ _) as [c p]. cbn in E.
  assert (accounted (with_proc s p)) as Hp.
  { subst p. apply (accounted_same s); try done; cbn; [set_solver|lia]. }
  by destruct c, (profile_WriteTo os).
Qed.

Lemma rates_accounted rate s : accounted s → accounted (SetBlockProfileRate rate s) ∧ accounted (SetMutexProfileFraction rate s).
Proof.
  intros H. split; [by apply (accounted_same s)|]. unfold SetMutexProfileFraction. case_bool_decide; [done|by apply (accounted_same s)].
Qed.

#[local] Hint Resolve start_cpu_accounted start_trace_accounted stop_cpu_accounted stop_trace_accounted write_accounted : core.

Lemma sleeps_state k r : (sleeps k r).1.2 = r.2.
Proof. by destruct r as [[] ]. Qed.

Lemma serve_accounted os c s : accounted s → accounted (serve os c s).1.2.
Proof.
  intros H. destruct c; cbn [serve answered fst snd]; unfold CPUProfile, GoTrace, BlockProfile, MutexProfile;
    rewrite ?sleeps_state; cbn [snd]; auto; by apply rates_accounted.
Qed.

Lemma wake_accounted os k s : accounted s → accounted (wake os k s).2.
Proof.
  intros H. destruct k as [| |f|f]; cbn [wake]; auto; pose proof (write_accounted os f s H) as Hw;
    destruct (writeProfile os f s); by apply rates_accounted.
Qed.

(** The profiles of the debug namespace never lose a file: in every interleaving of
    its calls, timed profiles included and whatever the operating system answers, the
    files left open are those the handler holds, and the CPU profiler and the Go tracer
    run exactly while the handler holds their open file. *)
Theorem profiles_accounted s : rtc dstep (mkSys new_state []) s → accounted (now s).
Proof.
  intros Hr. assert (accounted (now (mkSys new_state []))) as H0 by (constructor; intros f; cbn; set_solver).
  induction Hr as [|x y z Hs _ IH]; [done|]. apply IH. destruct Hs as [os c s ks r s' k E|os k s ks1 ks2]; cbn in *.
  - pose proof (serve_accounted os c s H0) as H. by rewrite E in H.
  - by apply wake_accounted.
Qed.

(** ** A failed Close *)

(** A Close that fails leaves the closed file in the handler; from then on no CPU profile
    can be started or stopped. *)
Definition wedged (s : dstate) : Prop := ∃ f, cpuFile (handler s) = Some f ∧ f ∉ p_open (proc s) ∧ (f < p_files (proc s))%nat.

(** No old file is opened again. *)
Definition no_reopen (p p' : process) : Prop :=
  (p_files p ≤ p_files p')%nat ∧ ∀ f, (f < p_files p)%nat → f ∈ p_open p' → f ∈ p_open p.

Lemma wedged_kept s s' : wedged s → cpuFile (handler s') = cpuFile (handler s) → no_reopen (proc s) (proc s') → wedged s'.
Proof. intros (f & E & Hf & Hl) Eh [Hn Ho]. exists f. rewrite Eh. split_and!; [done| |lia]. intros Hin. by apply Hf, Ho. Qed.

Lemma close_no_reopen os f p p0 : no_reopen p0 p → no_reopen p0 (file_Close os f p).2.
Proof. intros [H1 H2]. rewrite (proj2 (file_Close_closes os f p)). split; [done|]. cbn. intros g Hg [Hin _]%elem_of_difference. auto. Qed.

Lemma create_no_reopen p : no_reopen p (create_file p).2.
Proof. split; cbn; [lia|]. intros f Hf [->%elem_of_singleton|?]%elem_of_union; [lia|done]. Qed.

Lemma open_profile_no_reopen os f closing start p :
  (∀ g q, p_open (start g q).2 = p_open q ∧ p_files (start g q).2 = p_files q) → no_reopen p (open_profile os f closing start p).2.
Proof.
  intros Hs. unfold open_profile. destruct (ExpandHome os f); [|done..]. destruct (os_Create os); [done|]. cbn.
  pose proof (create_no_reopen p) as Hc. destruct (Hs (p_files p) (create_file p).2) as [H1 H2]. cbn in H1, H2, Hc.
  destruct (start _ _) as [[err|] q]; cbn in *.
  - assert (no_reopen p q) as Hq by (destruct Hc as [C1 C2]; split; [by rewrite H2|intros g; rewrite H1; apply C2]).
    pose proof (close_no_reopen os (p_files p) q p Hq). by destruct (file_Close _ _ _) as [[]]; cbn in *.
  - destruct Hc as [C1 C2]; split; [by rewrite H2|intros g; rewrite H1; apply C2].
Qed.

Lemma trace_Start_files g q : p_open (trace_Start g q).2 = p_open q ∧ p_files (trace_Start g q).2 = p_files q.
Proof. unfold trace_Start. by destruct (p_trace q). Qed.

Lemma wedged_cpu os f s : wedged s →
  StartCPUProfile os f s = (Err (New "CPU profiling already in progress"), s) ∧
  StopCPUProfile os s = (Err (Wrap "failed to close cpu file" (New "file already closed")), with_proc s (set_cpu None (proc s))).
Proof.
  intros (g & Eg & Hg & _). unfold StartCPUProfile, StopCPUProfile. cbn. rewrite Eg. split; [done|].
  unfold file_Close. cbn. by rewrite bool_decide_eq_false_2.
Qed.

Lemma wedged_stop_cpu os s : wedged s → wedged (StopCPUProfile os s).2.
Proof. intros H. rewrite (proj2 (wedged_cpu os "" s H)). by apply (wedged_kept s). Qed.

Lemma wedged_start_trace os f s : wedged s → wedged (StartGoTrace os f s).2.
Proof.
  intros H. unfold StartGoTrace. destruct (traceFile (handler s)); [done|].
  pose proof (open_profile_no_reopen os f "failed to close trace file" trace_Start (proc s) trace_Start_files) as Hn.
  destruct (open_profile _ _ _ _ _) as [[g|e|m] p]; cbn in *; by apply (wedged_kept s).
Qed.

Lemma wedged_stop_trace os s : wedged s → wedged (StopGoTrace os s).2.
Proof.
  intros H. unfold StopGoTrace. cbn. destruct (traceFile (handler s)) as [g|]; [|by apply (wedged_kept s)].
  assert (no_reopen (proc s) (set_trace None (proc s))) as Hn by done. apply (close_no_reopen os g) in Hn.
  destruct (file_Close _ _ _) as [[e|] p]; cbn in *; by apply (wedged_kept s).
Qed.

Lemma wedged_write os f s : wedged s → wedged (writeProfile os f s).2.
Proof.
  intros H. unfold writeProfile. destruct (ExpandHome os f); [|done..]. destruct (os_Create os); [done|]. cbn.
  pose proof (close_no_reopen os (p_files (proc s)) _ _ (create_no_reopen (proc s))) as Hn. cbn in Hn.
  destruct (file_Close _ _ _) as [c p]; cbn in Hn. destruct c, (profile_WriteTo os); by apply (wedged_kept s).
Qed.

Lemma wedged_rates rate s : wedged s → wedged (SetBlockProfileRate rate s) ∧ wedged (SetMutexProfileFraction rate s).
Proof. intros H. split; [by apply (wedged_kept s)|]. unfold SetMutexProfileFraction. case_bool_decide; [done|by apply (wedged_kept s)]. Qed.

Lemma wedged_step s s' : dstep s s' → wedged (now s) → wedged (now s').
Proof.
  intros [os c d ks r d' k E|os k d ks1 ks2] H; cbn in *.
  - replace d' with (serve os c d).1.2 by (by rewrite E). clear E.
    destruct c; cbn [serve answered fst snd]; unfold CPUProfile, GoTrace, BlockProfile, MutexProfile; rewrite ?sleeps_state; cbn [snd];
      rewrite ?(proj1 (wedged_cpu _ _ _ H)); auto using wedged_stop_cpu, wedged_start_trace, wedged_stop_trace, wedged_write;
      by apply wedged_rates.
  - destruct k as [| |f|f]; cbn [wake]; auto using wedged_stop_cpu, wedged_stop_trace; pose proof (wedged_write os f d H) as Hw;
      destruct (writeProfile os f d); by apply wedged_rates.
Qed.

(** A CPU profile whose file could not be closed blocks profiling for good: after
    StopCPUProfile failed on a running profile, every later StartCPUProfile and
    StopCPUProfile fails, whatever happens in between. *)
Theorem failed_close_wedges s g os err d' s' :
  accounted s → cpuFile (handler s) = Some g → StopCPUProfile os s = (Err err, d') →
  rtc dstep (mkSys d' []) s' → ∀ os' f,
  StartCPUProfile os' f (now s') = (Err (New "CPU profiling already in progress"), now s') ∧
  (StopCPUProfile os' (now s')).1 = Err (Wrap "failed to close cpu file" (New "file already closed")).
Proof.
  intros Ha Eg E Hr os' f. assert (wedged d') as Hw.
  { unfold StopCPUProfile in E. cbn in E. rewrite Eg in E. destruct (file_Close_closes os g (set_cpu None (proc s))) as [_ Ep].
    destruct (file_Close _ _ _) as [[e|] p]; [|done]. injection E as _ <-. cbn in Ep. subst p. exists g. cbn. split; [done|]. split; [set_solver|].
    apply (ac_old _ Ha). by left. }
  assert (wedged (now s')) as Hw'. { revert Hw. change d' with (now (mkSys d' [])). induction Hr; eauto using wedged_step. }
  split; [by apply wedged_cpu|]. by rewrite (proj2 (wedged_cpu os' f _ Hw')).
Qed.

(** ** Timed profiles overlap *)

Definition os_ok : os_answers := mkAnswers (Ok "/root") None None None.

(** A timed profile that wakes up stops whatever profile is running then: here one that
    another client started after the first had been stopped. *)
Example wake_stops_other_profile :
  let s1 := (CPUProfile os_ok "a" new_state).1.2 in
  let s2 := (StopCPUProfile os_ok s1).2 in
  let s3 := (StartCPUProfile os_ok "b" s2).2 in
  p_cpu (proc s3) = Some 1%nat ∧ (wake os_ok SleepCPU s3).1 = Ok tt ∧ p_cpu (proc (wake os_ok SleepCPU s3).2) = None.
Proof. vm_compute. done. Qed.

Example expand_home : ExpandHome os_ok "~/p/../cpu.prof" = Ok "/root/cpu.prof" ∧ ExpandHome os_ok "~user/x" = Ok "~user/x" ∧
  ExpandHome os_ok "/../a//./b/" = Ok "/a/b" ∧ ExpandHome os_ok "" = Ok ".".
Proof. vm_compute. done. Qed.

Definition os_bad_close : os_answers := mkAnswers (Ok "/root") None None (Some (New "input/output error")).
Definition cpu_running : dstate := (StartCPUProfile os_ok "cpu" new_state).2.

Lemma failed_close_wedges_witness :
  (StartCPUProfile os_ok "again" (StopCPUProfile os_bad_close cpu_running).2).1 = Err (New "CPU profiling already in progress").
Proof.
  refine (f_equal fst (proj1 (failed_close_wedges cpu_running 0%nat os_bad_close _ _
    (mkSys (StopCPUProfile os_bad_close cpu_running).2 []) _ eq_refl eq_refl (rtc_refl _ _) os_ok "again"))).
  apply (start_cpu_accounted os_ok "cpu" new_state). constructor; intros f; cbn; set_solver.
Defined.

Lemma profiles_accounted_witness : p_open (proc cpu_running) = {[ 0%nat ]} ∧ accounted cpu_running.
Proof.
  split; [reflexivity|]. apply (profiles_accounted (mkSys cpu_running [])). apply rtc_once.
  by apply (step_serve os_ok (CStartCPU "cpu") new_state [] (Some (Ok tt)) cpu_running []).
Defined.
End DebugApi.
