(* ===== verification/Namespaces.v ===== *)
(** * The RPC namespaces

    src/internal/evm/rpc/namespaces/ethereum: the methods of eth (eth/api.go), of debug
    that read blocks and traces (debug/api.go), and of net, web3, txpool, miner and inj.
    Methods that only forward to the backend are the backend's definitions, collected in
    [eth_request]; the others are defined here.  The filter methods of eth are in
    FilterApi, the profiles of debug in DebugApi. *)

From Stdlib Require Import Ascii String.
From S2P Require Import Prelude Ranges Bytes Instances GoLib EthTypes EthInstances Keys Tracker ParsedTx Normalize.
From S2P Require Import Virtual VirtualBank VirtualIbc VirtualResponse RpcUtils Cached Codec CodecInstances CodecProps.
From S2P Require Import Indexer IndexerQuery IndexerStore IndexerLoop IndexerBatch IndexerSample IndexerProps.
From S2P Require Import RpcTypes Backend BackendLive BackendBlocks BackendTx BackendLogs BackendSample BackendParity.
From S2P Require Import BackendCache BackendProps BackendFees FilterApi FilterQuery BackendTrace BackendCall AppConfig AppStart.
From stdpp Require Import strings list gmap.
#[local] Open Scope Z_scope.

Module Namespaces.
Import GoLib EthTypes Keys ParsedTx Normalize Virtual RpcUtils Cached Codec CodecProps Indexer RpcTypes Backend BackendLive BackendBlocks BackendTx BackendLogs.
Import BackendParity BackendCache BackendProps BackendFees BackendTrace BackendCall.
#[local] Open Scope backend_scope.

(** ** Constants *)

Definition ProtocolVersion : Z := 65.
Definition GetUncleByBlockHashAndIndex (hash : Hash) (idx : Z) : option (gmap string BlockValue) := None.
Definition GetUncleByBlockNumberAndIndex (number idx : Z) : option (gmap string BlockValue) := None.
Definition GetUncleCountByBlockHash (hash : Hash) : Z := 0.
Definition GetUncleCountByBlockNumber (number : Z) : Z := 0.
Definition Hashrate : Z := 0.
Definition Mining : bool := false.

(** web3: the version of the build, when there is one; Keccak of the text's bytes. *)
Definition ClientVersion (build : option string) : string :=
  match build with
  | Some version => if bool_decide (version ≠ "") then "evm-gateway/" +:+ version else "evm-gateway/devel"
  | None => "evm-gateway/devel"
  end.
Definition Sha3 `{EthLib} (input : string) : Hash := Keccak256Hash [string_bytes input].

(** txpool: nothing is pooled here. *)
Definition txpool_Content : gmap string (gmap string (gmap string RPCTransaction)) := {[ "pending" := ∅; "queued" := ∅ ]}.
Definition txpool_Status : gmap string Z := {[ "pending" := 0; "queued" := 0 ]}.

(** miner *)
Definition SetEtherbase (etherbase : Address) : bool := false.
Definition miner_SetExtra (extra : string) : res error bool := Err (New "unsupported rpc function: miner_setExtra").
Definition miner_SetGasLimit (limit : Z) : bool := false.
Definition miner_Start (threads : option Z) : res error unit := Err (New "unsupported rpc function: miner_start").

(** miner_setGasPrice changes the configuration of the backend it is called on.  The coins
    of the Cosmos SDK are parameters: NewDecCoin panics on an invalid denomination or a
    negative amount. *)
Section miner.
Context {DecCoins : Type} (ParseDecCoins : string → res string DecCoins) (DecCoins_String : DecCoins → string) (no_coins : DecCoins).
Context (first_denom : DecCoins → option string) (GetBaseDenom : res string string) (NewDecCoin : string → Z → res string DecCoins).

Definition SetGasPrice (cfg : AppConfig.Config) (gasPrice : Z) : res error (bool * AppConfig.Config) :=
  let! minGasPrices := AppConfig.GetMinGasPrices ParseDecCoins no_coins cfg in
  match match first_denom minGasPrices with
        | Some denom => Ok denom
        | None => GetBaseDenom
        end with
  | Err _ => Ok (false, cfg)
  | Panic p => Panic p
  | Ok unit => let! c := lib (NewDecCoin unit gasPrice) in Ok (true, AppConfig.SetMinGasPrices DecCoins_String cfg c)
  end.

(** Every namespace that needs a backend gets one with its own copy of the
    configuration. *)
Definition namespace_configs (cfg : AppConfig.Config) : gmap string AppConfig.Config :=
  (λ _, cfg) <$> filter (λ e : string * (bool * nat), e.2.1 = true) AppStart.apiCreators.

Definition miner_SetGasPrice (cfgs : gmap string AppConfig.Config) (gasPrice : Z) : res error (bool * gmap string AppConfig.Config) :=
  let! cfg := deref (cfgs !! "miner") in
  let! (done, cfg) := SetGasPrice cfg gasPrice in
  Ok (done, <["miner" := cfg]> cfgs).

(** The gas price set through the miner namespace is seen by no other one: the backend
    that answers eth_gasPrice keeps the configured prices. *)
Lemma miner_keeps_others cfgs gasPrice done cfgs' ns :
  ns ≠ "miner" → miner_SetGasPrice cfgs gasPrice = Ok (done, cfgs') → cfgs' !! ns = cfgs !! ns.
Proof.
  intros Hns (c & _ & H)%res_bind_ok. apply res_bind_ok in H as ([done' cfg'] & _ & [= _ <-]). by rewrite lookup_insert_ne.
Qed.

Lemma miner_gas_price_local cfg gasPrice done cfgs' :
  miner_SetGasPrice (namespace_configs cfg) gasPrice = Ok (done, cfgs') → cfgs' !! "eth" = Some cfg.
Proof. intros H. by rewrite (miner_keeps_others _ _ _ _ "eth" ltac:(done) H). Qed.
End miner.

(** ** net *)

Record NetInfo := mkNetInfo { ni_Listening : bool; ni_Peers : Z }.

(** The network version: the configured chain id, or the one in the Cosmos chain id,
    which must parse. *)
Definition net_Version (ParseChainID : string → res string Z) (cosmosChainID evmChainID : string) : res error string :=
  let networkVersion := strings_TrimSpace evmChainID in
  if bool_decide (networkVersion = "") then
    match ParseChainID cosmosChainID with
    | Ok chainIDEpoch => Ok (strconv_Itoa chainIDEpoch)
    | Err err => Panic err
    | Panic p => Panic p
    end
  else Ok networkVersion.

Definition net_Listening (client : option (res string NetInfo)) : bool :=
  match client with Some (Ok info) => ni_Listening info | _ => false end.
Definition net_PeerCount (client : option (res string NetInfo)) : Z :=
  match client with Some (Ok info) => ni_Peers info | _ => 0 end.

(** net_version and eth_chainId are one number when the chain id is configured. *)
Lemma net_version_is_chain_id ParseChainID cosmos s id :
  backendChainID s = Ok id → ∃ v, net_Version ParseChainID cosmos s = Ok v ∧ big_SetString v = Some id.
Proof.
  unfold backendChainID, net_Version. intros H. destruct (big_SetString (strings_TrimSpace s)) as [z|] eqn:E; [|done].
  case_bool_decide as Hz; [done|]. injection H as <-. case_bool_decide as He; [by rewrite He in E|]. by eexists.
Qed.

(** ** eth *)

(** Encoding of transactions, the header and block as RLP, go-spew. *)
Class ApiLib := {
  Transaction_MarshalBinary : Transaction → res string bytes;
  rlp_Header : Header → res string bytes;
  rlp_Block : Header * list (option Transaction) → res string bytes;
  spew_Sdump : Header * list (option Transaction) → string;
}.

Section eth.
Context {EL : EthLib} {CL : ChainLib} {LJ : LogJSON} {PB : Proto} {BL : Bank.BankLib} {IL : Ibc.IbcLib} {BB : BackendLib} {FL : FeeLib}.
Context {KL : CallLib} {AL : ApiLib}.
Context (caller : string) (ReturnDataLimit : Z) (q : CallQueries).
Context {RC LC : Type} `{!LRU Hash (gmap string Value) RC} `{!LRU Z (list (option RPCLog)) LC}.
Notation M := (Backend.M RC LC).

Definition api_GetTransactionCount (b : Backend) (address : Address) (blockNrOrHash : BlockNumberOrHash) : res error Z :=
  let! blockNum := BlockNumberFromTendermint b blockNrOrHash in
  BackendCall.GetTransactionCount q b address blockNum.

(** An error of the call comes with an empty, not a nil, result. *)
Definition api_Call (b : Backend) (args : TransactionArgs) (blockNrOrHash : BlockNumberOrHash) (overrides : option bytes) :
    res error bytes :=
  let! blockNum := BlockNumberFromTendermint b blockNrOrHash in
  let! data := DoCall q ReturnDataLimit b args blockNum overrides in
  Ok (cres_Ret data).

Definition MaxPriorityFeePerGas (b : Backend) : res error Z :=
  let! head := CurrentHeader caller b in
  SuggestGasTipCap b (h_BaseFee head).

(** [validator] is the validator address in the node's status.  A malformed account
    address is taken as the empty one. *)
Definition GetCoinbase (b : Backend) (validator : res string bytes) : res error bytes :=
  match client b with
  | None => Err (New "no RPC client is defined in offline mode")
  | Some _ =>
      let! consAddress := lib validator in
      let! account := lib (q_ValidatorAccount (queryClient b) 0 (ConsAddress_String consAddress)) in
      match AccAddressFromBech32 account with
      | Ok address => Ok address
      | Err _ => Ok []
      | Panic p => Panic p
      end
  end.

(** Backend.ChainConfig, from the parameters of the EVM module: nil when they cannot be
    read.  Backend.GlobalMinGasPrice, from those of the fee module: zero with the error. *)
Definition ChainConfig {Params Config} (EthereumConfig : Params → Config) (params : res string Params) : option Config :=
  match params with Ok p => Some (EthereumConfig p) | _ => None end.
Definition GlobalMinGasPrice {Params Dec} (MinGasPrice : Params → Dec) (zero : Dec) (params : res string Params) : Dec * option string :=
  match params with Ok p => (MinGasPrice p, None) | Err e | Panic e => (zero, Some e) end.

Definition Coinbase (b : Backend) (validator : res string bytes) : res error string :=
  let! coinbase := GetCoinbase b validator in
  Ok (Address_Hex (BytesToAddress coinbase)).

(** [None] is the nil slice. *)
Definition receipt_logs (receipt : option (gmap string Value)) : option (list (option RPCLog)) :=
  match receipt with
  | None => None
  | Some receipt =>
      match receipt !! "logs" with
      | Some (VLogs logs) => Some logs
      | Some (VEthLogs logs) => Some (WrapLogs logs false None)
      | _ => None
      end
  end.

Definition GetTransactionLogs (b : Backend) (txHash : Hash) : M (option (list (option RPCLog))) :=
  do! receipt := GetTransactionReceipt caller b txHash in
  ret (receipt_logs receipt).

Record SignTransactionResult := mkSigned { st_Raw : bytes; st_Tx : Transaction }.

Definition FillTransaction (b : Backend) (args : TransactionArgs) : res error SignTransactionResult :=
  let! args := SetTxDefaults caller q b args in
  let tx := TxData_Transaction (ToTransaction args) in
  let! data := lib (Transaction_MarshalBinary tx) in
  Ok (mkSigned data tx).

(** The Ethereum messages of a transaction up to the first other message. *)
Fixpoint pending_msgs (chain : Z) (result : list RPCTransaction) (msgs : list Msg) : res error (list RPCTransaction) :=
  match msgs with
  | EthMsg ethMsg :: msgs =>
      let! rpctx := NewTransactionFromMsg ethMsg zero_hash 0 0 None (Some chain) in
      pending_msgs chain (result ++ [rpctx]) msgs
  | _ => Ok result
  end.

Definition GetPendingTransactions (b : Backend) : res error (list RPCTransaction) :=
  let! txs := PendingTransactions b in
  res_foldl (λ result tx, pending_msgs (ChainID b) result (GetMsgs tx)) [] txs.

(** ** The methods of eth

    One request per method of the eth namespace (filters apart), with its answer. *)

Inductive eth_request :=
| EBlockNumber
| EGetBlockByNumber (number : Z) (fullTx : bool)
| EGetBlockByHash (hash : Hash) (fullTx : bool)
| EGetTransactionByHash (hash : Hash)
| EGetTransactionCount (address : Address) (ref : BlockNumberOrHash)
| EGetTransactionReceipt (hash : Hash)
| EGetBlockReceipts (ref : BlockNumberOrHash)
| EGetBlockTransactionCountByHash (hash : Hash)
| EGetBlockTransactionCountByNumber (number : Z)
| EGetTransactionByBlockHashAndIndex (hash : Hash) (idx : Z)
| EGetTransactionByBlockNumberAndIndex (number idx : Z)
| ESendRawTransaction (data : bytes)
| EGetBalance (address : Address) (ref : BlockNumberOrHash)
| EGetStorageAt (address : Address) (key : string) (ref : BlockNumberOrHash)
| EGetCode (address : Address) (ref : BlockNumberOrHash)
| EGetProof (address : Address) (keys : list string) (ref : BlockNumberOrHash)
| ECall (args : TransactionArgs) (ref : BlockNumberOrHash) (overrides : option bytes)
| EGasPrice
| EEstimateGas (args : TransactionArgs) (number : option Z)
| EFeeHistory (count last : Z) (percentiles : list float64)
| EMaxPriorityFeePerGas
| EChainId
| ESyncing
| ECoinbase
| EGetTransactionLogs (hash : Hash)
| EFillTransaction (args : TransactionArgs)
| EGetPendingTransactions
| EConstant.

Inductive eth_answer :=
| ANumber (n : Z)
| ACount (n : option Z)
| ABlock (block : option (gmap string BlockValue))
| ATx (tx : option RPCTransaction)
| ATxs (txs : list RPCTransaction)
| AReceipt (receipt : option (gmap string Value))
| AReceipts (receipts : option (list (gmap string Value)))
| ABytes (data : bytes)
| ASent (hash : Hash) (err : option error)
| AProof (proof : AccountResult)
| AFees (fees : option FeeHistoryResult)
| ASyncing (state : option (Z * Z))
| AText (text : string)
| ALogs (logs : option (list (option RPCLog)))
| AFilled (tx : SignTransactionResult)
| AConstant (protocol hashrate : Z) (mining : bool).

Context (sort : list txGasAndReward → list txGasAndReward) (pick : list Z → nat) (validator : res string bytes).
Context (TxFeeCap : float64) (allowUnprotectedTxs : bool).

Definition answer {A} (f : A → eth_answer) (m : res error A) : M eth_answer := do! a := lift m in ret (f a).
Definition answerM {A} (f : A → eth_answer) (m : M A) : M eth_answer := do! a := m in ret (f a).

Definition eth_serve (b : Backend) (r : eth_request) : M eth_answer :=
  match r with
  | EBlockNumber => answer ANumber (Backend.BlockNumber b)
  | EGetBlockByNumber n fullTx => answer ABlock (GetBlockByNumber caller b n fullTx)
  | EGetBlockByHash x fullTx => answer ABlock (GetBlockByHash caller b x fullTx)
  | EGetTransactionByHash x => answerM ATx (GetTransactionByHash caller b x)
  | EGetTransactionCount a ref => answer ANumber (api_GetTransactionCount b a ref)
  | EGetTransactionReceipt x => answerM AReceipt (GetTransactionReceipt caller b x)
  | EGetBlockReceipts ref => answerM AReceipts (GetBlockReceipts caller b ref)
  | EGetBlockTransactionCountByHash x => answer ACount (GetBlockTransactionCountByHash caller b x)
  | EGetBlockTransactionCountByNumber n => answer ACount (GetBlockTransactionCountByNumber caller b n)
  | EGetTransactionByBlockHashAndIndex x i => answerM ATx (GetTransactionByBlockHashAndIndex caller b x i)
  | EGetTransactionByBlockNumberAndIndex n i => answerM ATx (GetTransactionByBlockNumberAndIndex caller b n i)
  | ESendRawTransaction data => answer (λ r : Hash * option error, ASent r.1 r.2) (SendRawTransaction q TxFeeCap allowUnprotectedTxs b data)
  | EGetBalance a ref => answer ANumber (GetBalance q b a ref)
  | EGetStorageAt a key ref => answer ABytes (GetStorageAt q b a key ref)
  | EGetCode a ref => answer ABytes (GetCode q b a ref)
  | EGetProof a keys ref => answer AProof (GetProof q b a keys ref)
  | ECall args ref overrides => answer ABytes (api_Call b args ref overrides)
  | EGasPrice => answer ANumber (GasPrice caller q b)
  | EEstimateGas args n => answer ANumber (EstimateGas q b args n)
  | EFeeHistory n last ps => answer AFees (FeeHistory caller sort pick b n last ps)
  | EMaxPriorityFeePerGas => answer ANumber (MaxPriorityFeePerGas b)
  | EChainId => answer ANumber (Ok (ChainID b))
  | ESyncing => answer ASyncing (Syncing b)
  | ECoinbase => answer AText (Coinbase b validator)
  | EGetTransactionLogs x => answerM ALogs (GetTransactionLogs b x)
  | EFillTransaction args => answer AFilled (FillTransaction b args)
  | EGetPendingTransactions => answer ATxs (GetPendingTransactions b)
  | EConstant => answer (λ _ : unit, AConstant ProtocolVersion Hashrate Mining) (Ok tt)
  end.

Fixpoint eth_serve_all (b : Backend) (rs : list eth_request) (s : bstate RC LC) : list (res error eth_answer) :=
  match rs with
  | [] => []
  | r :: rs => let '(a, s) := eth_serve b r s in a :: eth_serve_all b rs s
  end.

(** ** debug *)

Definition GetHeaderRlp (b : Backend) (number : Z) : res error bytes :=
  let! header := HeaderByNumber caller b (int64 number) in
  lib (rlp_Header header).
Definition GetBlockRlp (b : Backend) (number : Z) : res error bytes :=
  let! block := EthBlockByNumber caller b (int64 number) in
  lib (rlp_Block block).
Definition PrintBlock (b : Backend) (number : Z) : res error string :=
  let! block := EthBlockByNumber caller b (int64 number) in
  Ok (spew_Sdump block).
Definition IntermediateRoots (hash : Hash) : res error (option (list Hash)) := Ok None.
End eth.

Section debug_traces.
Context {EL : EthLib} {CL : ChainLib} {LJ : LogJSON} {PB : Proto} {BB : BackendLib}.
Context {J : Type} {TL : TraceLib J} {T : Type} {TC : TraceCache T} {RC LC : Type}.
Context (TraceTimeoutCap : Z) (queries : TraceQueries).

Definition TraceBlockByNumber (b : Backend) (height : Z) (config : option TraceConfig) : TM (T := T) (RC := RC) (LC := LC) (list (option (TxTraceResult J))) :=
  if bool_decide (height = 0) then tlift (Err (New "genesis is not traceable"))
  else TraceBlock TraceTimeoutCap queries b height config None.

Definition TraceBlockByHash (b : Backend) (hash : Hash) (config : option TraceConfig) : TM (T := T) (RC := RC) (LC := LC) (list (option (TxTraceResult J))) :=
  match BlockNumberFromTendermintByHash b hash with
  | Ok height => TraceBlock TraceTimeoutCap queries b (NewBlockNumber height) config None
  | Err _ => tlift (Err (New "block not found"))
  | Panic p => tlift (Panic p)
  end.
End debug_traces.

(** ** Pending transactions *)

Section pending.
Context {EL : EthLib} {CL : ChainLib} {BB : BackendLib}.

Definition pending_tx (chain : Z) (m : MsgEthereumTx) : res error RPCTransaction := NewTransactionFromMsg m zero_hash 0 0 None (Some chain).

Lemma pending_msgs_spec chain result msgs :
  pending_msgs chain result msgs = (let! txs := res_mapM (pending_tx chain) (leading_eth msgs) in Ok (result ++ txs)).
Proof.
  revert result. induction msgs as [|[m|o] msgs IH]; intros result; cbn; [by rewrite app_nil_r| |by rewrite app_nil_r].
  unfold pending_tx at 1. destruct (NewTransactionFromMsg _ _ _ _ _ _) as [tx|e|p]; cbn; [|done..]. rewrite IH.
  destruct (res_mapM _ _) as [txs|e|p]; cbn; [|done..]. by rewrite <- app_assoc.
Qed.

Lemma res_mapM_app {A B} (f : A → res error B) l1 l2 :
  res_mapM f (l1 ++ l2) = (let! a := res_mapM f l1 in let! b := res_mapM f l2 in Ok (a ++ b)).
Proof.
  induction l1 as [|x l1 IH]; cbn; [by destruct (res_mapM f l2)|]. destruct (f x); cbn; [|done..]. rewrite IH.
  destruct (res_mapM f l1); cbn; [|done..]. by destruct (res_mapM f l2).
Qed.

Lemma pending_fold chain txs result :
  res_foldl (λ result tx, pending_msgs chain result (GetMsgs tx)) result txs =
  (let! l := res_mapM (pending_tx chain) (mjoin ((λ tx, leading_eth (GetMsgs tx)) <$> txs)) in Ok (result ++ l)).
Proof.
  revert result. induction txs as [|tx txs IH]; intros result; cbn; [by rewrite app_nil_r|]. rewrite pending_msgs_spec, res_mapM_app.
  destruct (res_mapM _ (leading_eth _)) as [l|e|p]; cbn; [|done..]. rewrite IH.
  destruct (res_mapM _ (mjoin _)) as [l'|e|p]; cbn; [|done..]. by rewrite app_assoc.
Qed.

(** eth_pendingTransactions lists the Ethereum messages that open the transactions of the
    mempool, in order, none of them placed in a block; it fails with the first message
    that cannot be converted. *)
Theorem pending_transactions_exact b :
  GetPendingTransactions b =
    (let! txs := PendingTransactions b in res_mapM (pending_tx (ChainID b)) (mjoin ((λ tx, leading_eth (GetMsgs tx)) <$> txs))) ∧
  (∀ txs tx, GetPendingTransactions b = Ok txs → tx ∈ txs → t_BlockHash tx = None ∧ t_BlockNumber tx = None ∧ t_TransactionIndex tx = None).
Proof.
  assert (GetPendingTransactions b =
    (let! txs := PendingTransactions b in res_mapM (pending_tx (ChainID b)) (mjoin ((λ tx, leading_eth (GetMsgs tx)) <$> txs)))) as E.
  { unfold GetPendingTransactions. destruct (PendingTransactions b) as [txs|e|p]; cbn; [|done..].
    rewrite pending_fold. cbn. by destruct (res_mapM _ _). }
  split; [done|]. rewrite E. intros txs tx (pool & _ & H)%res_bind_ok Hin.
  apply res_mapM_ok in H. apply list_elem_of_lookup_1 in Hin as [i Hi]. destruct (Forall2_lookup_r _ _ _ _ _ H Hi) as (m & _ & Hm).
  unfold pending_tx, NewTransactionFromMsg, NewRPCTransaction in Hm. destruct (msg_AsTransaction m) as [t|]; [|done].
  apply res_bind_ok in Hm as (from & _ & Hm). rewrite (bool_decide_eq_false_2 (zero_hash ≠ zero_hash)) in Hm by auto.
  repeat case_bool_decide; by injection Hm as <-.
Qed.
End pending.

(** ** Logs of transactions and of blocks *)

Section logs.
Context {D : Type} {DB : KVDB D} {DBL : KVDBLaws D} {DBR : KVDBReliable D} {SD : SDK} {SDL : SDKLaws} {EL : EthLib}
        {ELL : EthLibLaws} {CL : ChainLib} {CLL : ChainLibLaws} {LJ : LogJSON} {PB : Proto} {BL : Bank.BankLib}
        {IL : Ibc.IbcLib} {CP : CapnpLib} {CPL : CapnpLaws} {LG : LegacyLib} {BB : BackendLib}.
Context {RC LC : Type} `{!LRU Hash (gmap string Value) RC} `{!LRULaws Hash (gmap string Value) RC}
        `{!LRU Z (list (option RPCLog)) LC} `{!LRULaws Z (list (option RPCLog)) LC}.
Context (caller : string).

(** The metadata of an indexed block carries the mode it was indexed in. *)
Lemma indexed_mode kv (d : D) block results stats d' :
  0 ≤ blk_Height block < 2 ^ 63 → (∀ bz tx, TxDecoder bz = Ok tx → IndexerLoop.tx_hashes_wf tx) →
  indexBlockWithStats caller kv d block results = (Ok stats, d') →
  ∃ meta, IndexerQuery.GetBlockMetaByHeight d' (blk_Height block) = Ok meta ∧
          m_VirtualizedCosmosEvents meta = Indexer.virtualizationEnabled kv.
Proof.
  intros Hh Hdec Hrun. destruct (IndexerProps.indexBlock_built _ _ _ _ _ _ _ Hh Hdec Hrun) as (ba & s & hs & meta & metaBz & logsBz & Hb & Hd').
  destruct (IndexerBatch.final_block kv d block _ _ _ _ _ _ _ Hb) as (F1 & _). rewrite <- Hd' in F1.
  destruct (IndexerBatch.bu_meta _ _ _ _ _ _ _ _ _ _ Hb) as (root & _ & Em). pose proof (IndexerBatch.bu_metaBz _ _ _ _ _ _ _ _ _ _ Hb) as Hm.
  exists meta. split; [|by rewrite Em]. unfold IndexerQuery.GetBlockMetaByHeight.
  rewrite (IndexerProps.get_record_present _ _ metaBz) by (done || by eapply IndexerProps.payload_nonempty).
  cbn. by rewrite (BlockMeta_roundtrip _ _ Hm).
Qed.

Lemma without_caches {A} b (m : Backend.M RC LC A) s : transparent b m → coherent b s → (m s).1 = (m (forget s)).1.
Proof. intros Ht Hs. by destruct (Ht s Hs) as [_ ->]. Qed.

(** A receipt of an indexed block of the backend's mode is served from the index. *)
Lemma indexed_receipt_served b ix hash receipt h meta (s : bstate RC LC) :
  indexer b = Some ix → virtualizationEnabled b = true → ir_GetReceiptByTxHash ix hash = Ok receipt →
  receipt !! "blockNumber" = Some (VUint64 h) → ir_GetBlockMetaByHeight ix (int64 h) = Ok meta →
  cachedMetaMatchesVirtualization b (Some meta) = true → coherent b s →
  (GetTransactionReceipt caller b hash s).1 = Ok (Some receipt).
Proof.
  intros Hi Hv Hr Hn Hm Hmode Hs. rewrite (without_caches b) by (done || apply transparent_GetTransactionReceipt).
  unfold GetTransactionReceipt, cached_receipt, materializedReceiptByHash, cachedTransactionVisible, cachedReceiptMatchesVirtualization,
    heightMatchesVirtualization, getReceipt, addReceipt, forget, Backend.call, bind, lift, count, ret. cbn. rewrite Hi. cbn. rewrite Hr. cbn.
  rewrite Hv. cbn. rewrite Hn, Hm. change (Bool.eqb _ _) with (cachedMetaMatchesVirtualization b (Some meta)). by rewrite Hmode.
Qed.

(** The logs of an indexed block are served from the index. *)
Lemma indexed_logs_served b ix h meta groups (s : bstate RC LC) :
  indexer b = Some ix → ir_GetBlockMetaByHeight ix h = Ok meta → cachedMetaMatchesVirtualization b (Some meta) = true →
  ir_GetLogsByBlockHeight ix h = Ok groups → (GetLogsByHeight caller b h s).1 = Ok groups.
Proof.
  intros Hi Hm Hmode Hg. unfold GetLogsByHeight, cached_logs, read_logs, Backend.call, bind, lift, count, ret. rewrite Hi, Hm, Hmode. cbn.
  by rewrite Hg.
Qed.

(** C5. The logs of a transaction are its part of the logs of its block: for a block
    indexed with virtualization and whatever is in the caches, the backend answers the
    block's log groups, one per listed transaction hash, and eth_getTransactionLogs of a
    hash answers the group at its position. *)
Theorem transaction_logs_agree kv (d : D) block r stats d' b resBlock (s : bstate RC LC) :
  0 ≤ blk_Height block < 2 ^ 63 → (∀ bz tx, TxDecoder bz = Ok tx → IndexerLoop.tx_hashes_wf tx) →
  IndexerStore.wf_store (contents d) → wf_bytes (blk_Hash block) → rb_Block resBlock = Some block →
  (∀ i h, (∃ e, DecodeMsgLogs [] i h = Err e) ∨ DecodeMsgLogs [] i h = Ok []) →
  (∀ a n, is_address (CreateAddress a n)) →
  Indexer.virtualizationEnabled kv = true → virtualChainID kv = Some (ChainID b) →
  or_nil (BaseFee b (Some r)) = Ok (BaseFeeFromEvents (br_FinalizeBlockEvents r)) →
  (∀ results, NormalizeTxResponseIndexes (br_TxResults r) = Ok results →
     Forall (wf_live_tx b (BaseFeeFromEvents (br_FinalizeBlockEvents r)) results) (imap pair (blk_Txs block))) →
  (∀ s, IndexerBatch.run_loop caller kv d block (Some r) = Ok s → bounded s) →
  (∀ view, liveVirtualBlockView caller b (Some resBlock) (Some r) = Ok view →
     Forall wf_logs (Logs view) ∧ Forall (Forall is_Some) (Logs view) ∧ NoDup (t_Hash <$> Transactions view)) →
  indexBlockWithStats caller kv d block (Some r) = (Ok stats, d') →
  indexer b = Some (kv_reader d') → virtualizationEnabled b = true → coherent b s →
  ∃ groups hs,
    (GetLogsByHeight caller b (blk_Height block) s).1 = Ok groups ∧
    IndexerQuery.GetRPCTransactionHashesByBlockHeight d' (blk_Height block) = Ok hs ∧
    length hs = length groups ∧
    ∀ i hash logs, hs !! i = Some hash → groups !! i = Some logs → (GetTransactionLogs caller b hash s).1 = Ok (Some logs).
Proof.
  intros Hh Hdec Hwf Hblk Hres Hempty Hcreate Hv Hchain Hfee Hw Hbound Hlogs Hrun Hix Hmode Hs.
  destruct (live_view_stored caller kv d block r stats d' b resBlock) as (view & Hl & [V1 V2 V3 V4 V5 V6]); [done..|].
  destruct (Hlogs view Hl) as (W1 & W2 & W3). destruct (indexed_mode kv d block (Some r) stats d' Hh Hdec Hrun) as (meta & Hm & Hmm).
  assert (cachedMetaMatchesVirtualization b (Some meta) = true) as Hc.
  { unfold cachedMetaMatchesVirtualization. unfold virtualizationEnabled in Hmode. by rewrite Hmm, Hmode, Hv. }
  exists (Logs view), (t_Hash <$> Transactions view). split_and!; [|done| |].
  - eapply indexed_logs_served; [done|exact Hm|done|]. cbn. rewrite V2 by done. by rewrite FilterQuery.stored_groups_id.
  - rewrite length_fmap, <- V6. by eapply Forall2_length.
  - intros i hash logs Hi Hg. apply list_lookup_fmap_Some in Hi as (tx & -> & Htx).
    destruct (Forall2_lookup_r _ _ _ _ _ V5 Hg) as (receipt & Hr & Hlog & Hnum).
    destruct (V4 i tx receipt logs) as (cached & Hcached & Hsame); try done; [by eapply (Forall_lookup_1 _ _ _ _ W1)|by eapply (Forall_lookup_1 _ _ _ _ W2)|].
    rewrite (BackendParity.same_receipt_field _ _ _ Hsame) in Hlog by done. rewrite (BackendParity.same_receipt_field _ _ _ Hsame) in Hnum by done. unfold live_number in Hnum.
    assert ((GetTransactionReceipt caller b (t_Hash tx) s).1 = Ok (Some cached)) as Hserved.
    { eapply indexed_receipt_served; [done..|exact Hnum| |exact Hc|done]. cbn. by rewrite int64_uint64 by (gate_ints; lia). }
    unfold GetTransactionLogs, bind. destruct (GetTransactionReceipt caller b (t_Hash tx) s) as [o s']. cbn in Hserved. subst o.
    cbn. by rewrite Hlog.
Qed.
End logs.

(** ** The caches of the backend *)

Section caches.
Context {EL : EthLib} {CL : ChainLib} {LJ : LogJSON} {PB : Proto} {BL : Bank.BankLib} {IL : Ibc.IbcLib} {BB : BackendLib} {FL : FeeLib}.
Context {KL : CallLib} {AL : ApiLib}.
Context (caller : string) (ReturnDataLimit : Z) (q : CallQueries) (sort : list txGasAndReward → list txGasAndReward) (pick : list Z → nat)
        (validator : res string bytes) (TxFeeCap : float64) (allowUnprotectedTxs : bool).
Context {RC LC : Type} `{!LRU Hash (gmap string Value) RC} `{!LRULaws Hash (gmap string Value) RC}
        `{!LRU Z (list (option RPCLog)) LC} `{!LRULaws Z (list (option RPCLog)) LC}.
Context (b : Backend).

Lemma transparent_answer {A} (f : A → eth_answer) (m : res error A) : transparent b (answer (RC := RC) (LC := LC) f m).
Proof. apply transparent_bind; [apply transparent_lift|intros ?; apply transparent_ret]. Qed.

Lemma transparent_answerM {A} (f : A → eth_answer) (m : Backend.M RC LC A) : transparent b m → transparent b (answerM f m).
Proof. intros Hm. apply transparent_bind; [done|intros ?; apply transparent_ret]. Qed.

Lemma transparent_GetTransactionLogs hash : transparent b (GetTransactionLogs (RC := RC) (LC := LC) caller b hash).
Proof. apply transparent_bind; [apply transparent_GetTransactionReceipt|intros ?; apply transparent_ret]. Qed.

Notation serve := (eth_serve caller ReturnDataLimit q (RC := RC) (LC := LC) sort pick validator TxFeeCap allowUnprotectedTxs).
Notation serve_all := (eth_serve_all caller ReturnDataLimit q (RC := RC) (LC := LC) sort pick validator TxFeeCap allowUnprotectedTxs).

Lemma transparent_eth_serve r : transparent b (serve b r).
Proof.
  destruct r; cbn [eth_serve]; first [apply transparent_answer|apply transparent_answerM];
    auto using transparent_GetTransactionByHash, transparent_GetTransactionReceipt, transparent_GetBlockReceipts, transparent_GetTransactionLogs,
      transparent_GetTransactionByBlockHashAndIndex, transparent_GetTransactionByBlockNumberAndIndex.
Qed.

Lemma eth_serve_forget rs s : coherent b s → serve_all b rs s = serve_all b rs (forget s).
Proof.
  revert s. induction rs as [|r rs IH]; intros s Hs; [done|]. cbn. destruct (transparent_eth_serve r s Hs) as [H1 H2]. rewrite H2.
  destruct (serve b r s) as [a s']. cbn. by rewrite IH.
Qed.

(** The materialized caches cannot be observed through the eth namespace: from new
    caches, every sequence of eth requests is answered, errors included, as it would be
    without caches, whatever they evict. *)
Theorem eth_cache_transparent rs c sync :
  newMaterializedCache = Ok c → serve_all b rs (mkBState (Some c) sync) = serve_all b rs (mkBState None sync).
Proof. intros Hc. apply eth_serve_forget. by apply new_cache_coherent. Qed.
End caches.

(** ** The concrete block *)

Module Witness.
Import EthInstances IndexerSample BackendSample CodecInstances.

Definition sample_state : bstate (lru_cache Hash (gmap string Value)) (lru_cache Z (list (option RPCLog))) := mkBState None None.

Definition sample_view : liveView :=
  match liveVirtualBlockView "0x01" sample_backend (Some (mkResultBlock [] (Some sample_block))) (Some sample_results) with
  | Ok view => view
  | _ => mkView [] [] []
  end.

Lemma sample_view_wf :
  Forall wf_logs (Logs sample_view) ∧ Forall (Forall is_Some) (Logs sample_view) ∧ NoDup (t_Hash <$> Transactions sample_view).
Proof. split_and!; apply (bool_decide_unpack _); vm_compute; exact I. Qed.

(** The groups of the sample block: an Ethereum log, none, and two virtual ones. *)
Example sample_log_groups : (λ r : res error (list (list (option RPCLog))), match r with Ok l => length <$> l | _ => [] end)
  (GetLogsByHeight "0x01" sample_backend 12 sample_state).1 = [1%nat; 0%nat; 2%nat].
Proof. by vm_compute. Qed.

Lemma transaction_logs_agree_witness :
  ∃ groups hs, (GetLogsByHeight "0x01" sample_backend 12 sample_state).1 = Ok groups ∧
    IndexerQuery.GetRPCTransactionHashesByBlockHeight sample_store 12 = Ok hs ∧ length hs = length groups ∧
    ∀ i hash logs, hs !! i = Some hash → groups !! i = Some logs → (GetTransactionLogs "0x01" sample_backend hash sample_state).1 = Ok (Some logs).
Proof.
  destruct (transaction_logs_agree (D := gmap bytes bytes) "0x01" sample_indexer ∅ sample_block sample_results (Indexer.mkStats 1) sample_store
    sample_backend (mkResultBlock [] (Some sample_block)) sample_state (proj1 sample_block_wf) sample_decodes empty_store_wf (proj2 sample_block_wf) eq_refl)
    as (groups & hs & H1 & H2 & H3 & H4).
  - intros i h. right. reflexivity.
  - intros a n. split; [apply be_bytes_length|apply be_bytes_wf].
  - reflexivity.
  - reflexivity.
  - reflexivity.
  - exact BackendParity.Witness.sample_txs_wf.
  - exact BackendParity.Witness.sample_bounded.
  - intros view Hview. pose proof sample_view_wf as H. unfold sample_view in H. rewrite Hview in H. exact H.
  - exact sample_run_ok.
  - reflexivity.
  - reflexivity.
  - by intros c [=].
  - exists groups, hs. exact (conj H1 (conj H2 (conj H3 H4))).
Defined.
End Witness.
End Namespaces.
