(* ===== verification/CliOptions.v ===== *)
(** * Command-line options

    The options that src/cmd/evm-gateway declares to the command-line library (options*.go)
    and newGatewayCLI with its default action (main.go).  The library is a parameter: the
    value of an option is a function of its declaration, of the arguments and of the value
    of the environment variable it names.  The theorems compare this with config.Load,
    the other way to a configuration. *)

From Stdlib Require Import Ascii String.
From S2P Require Import Prelude Ranges Bytes Instances GoLib Indexer RpcTypes Backend BackendFees Decimals AppConfig AppStart AppProps Commands.
From stdpp Require Import strings list gmap.
#[local] Open Scope Z_scope.

Module CliOptions.
Import GoLib BackendFees AppConfig AppStart Commands.

(** ** The library *)

(** cli.StringOpt, IntOpt and BoolOpt *)
Record opt (A : Type) := mkOpt { op_Name : string; op_EnvVar : string; op_Value : A }.
Arguments mkOpt {A}.
Arguments op_Name {A}.
Arguments op_EnvVar {A}.
Arguments op_Value {A}.

(** The value of an option, from the arguments and the value of its variable (empty when it
    is not set). *)
Class CliLib := {
  cli_String : opt string → list string → string → string;
  cli_Int : opt Z → list string → string → Z;
  cli_Bool : opt bool → list string → string → bool;
}.

(** strconv.ParseBool *)
Definition ParseBool (s : string) : option bool :=
  if bool_decide (s ∈ ["1"; "t"; "T"; "TRUE"; "true"; "True"]%string) then Some true
  else if bool_decide (s ∈ ["0"; "f"; "F"; "FALSE"; "false"; "False"]%string) then Some false
  else None.

(** Without arguments a variable that is set initializes its option, unless it cannot be
    parsed; otherwise the option has its default. *)
Class CliLaws `{CliLib} : Prop := {
  cli_String_env o v : cli_String o [] v = if bool_decide (v ≠ EmptyString) then v else op_Value o;
  cli_Int_env o v : cli_Int o [] v = match strconv_Atoi v with Ok n => n | _ => op_Value o end;
  cli_Bool_env o v : cli_Bool o [] v = default (op_Value o) (ParseBool v);
}.

(** ** Declarations *)

Definition defaults : Config := DefaultConfig.

(** options_chain.go *)
Definition chainID_opt : opt string := mkOpt "chain-id" "WEB3INJ_CHAIN_ID" (c_ChainID defaults).
Definition evmChainID_opt : opt string := mkOpt "evm-chain-id" "WEB3INJ_EVM_CHAIN_ID" (c_EVMChainID defaults).
Definition cometRPC_opt : opt string := mkOpt "comet-rpc" "WEB3INJ_COMET_RPC" (c_CometRPC defaults).
Definition cometBroadcastRPC_opt : opt string := mkOpt "comet-broadcast-rpc" "WEB3INJ_COMET_BROADCAST_RPC" "".
Definition grpcAddr_opt : opt string := mkOpt "grpc-addr" "WEB3INJ_GRPC_ADDR" (c_GRPCAddr defaults).

(** options_indexer.go *)
Definition earliest_opt : opt Z := mkOpt "earliest-block" "WEB3INJ_EARLIEST_BLOCK" (c_Earliest defaults).
Definition fetchJobs_opt : opt Z := mkOpt "fetch-jobs" "WEB3INJ_FETCH_JOBS" (c_FetchJobs defaults).
Definition dataDir_opt : opt string := mkOpt "data-dir" "WEB3INJ_DATA_DIR" (c_DataDir defaults).
Definition enableSync_opt : opt bool := mkOpt "enable-sync" "WEB3INJ_ENABLE_SYNC" (c_EnableSync defaults).
Definition parallelSync_opt : opt bool :=
  mkOpt "parallel-sync-tip-and-gaps" "WEB3INJ_PARALLEL_SYNC_TIP_AND_GAPS" (c_ParallelSyncTipAndGaps defaults).
Definition virtualize_opt : opt bool := mkOpt "virtualize-cosmos-events" "WEB3INJ_VIRTUALIZE_COSMOS_EVENTS" (c_VirtualizeCosmosEvents defaults).
Definition offline_opt : opt bool := mkOpt "offline-rpc-only" "WEB3INJ_OFFLINE_RPC_ONLY" (c_OfflineRPCOnly defaults).

(** options_logging.go *)
Definition logFormat_opt : opt string := mkOpt "log-format" "WEB3INJ_LOG_FORMAT" (c_LogFormat defaults).
Definition logVerbose_opt : opt bool := mkOpt "log-verbose" "WEB3INJ_LOG_VERBOSE" (c_LogVerbose defaults).

(** options_telemetry.go *)
Definition tracingEnabled_opt : opt bool := mkOpt "gotracer-enabled" "WEB3INJ_GOTRACER_ENABLED" (t_Enabled (c_Tracing defaults)).
Definition tracingDSN_opt : opt string := mkOpt "gotracer-collector-dsn" "WEB3INJ_GOTRACER_COLLECTOR_DSN" (t_CollectorDSN (c_Tracing defaults)).
Definition tracingAuthorization_opt : opt string :=
  mkOpt "gotracer-collector-authorization" "WEB3INJ_GOTRACER_COLLECTOR_AUTHORIZATION" (t_CollectorAuthorization (c_Tracing defaults)).
Definition tracingAuthorizationName_opt : opt string :=
  mkOpt "gotracer-collector-authorization-header" "WEB3INJ_GOTRACER_COLLECTOR_AUTHORIZATION_HEADER"
    (t_CollectorAuthorizationField (c_Tracing defaults)).
Definition tracingTLS_opt : opt bool :=
  mkOpt "gotracer-collector-enable-tls" "WEB3INJ_GOTRACER_COLLECTOR_ENABLE_TLS" (t_CollectorEnableTLS (c_Tracing defaults)).

Section options.
Context {CL : CliLib} (Duration_String : Z → string) (args : list string) (env : environment).

(** options_rpc.go *)
Definition enableRPC_opt : opt bool := mkOpt "rpc-enable" "WEB3INJ_JSONRPC_ENABLE" (j_Enable (c_JSONRPC defaults)).
Definition rpcAddr_opt : opt string := mkOpt "rpc-address" "WEB3INJ_JSONRPC_ADDRESS" (j_Address (c_JSONRPC defaults)).
Definition wsAddr_opt : opt string := mkOpt "ws-address" "WEB3INJ_JSONRPC_WS_ADDRESS" (j_WsAddress (c_JSONRPC defaults)).
Definition rpcAPI_opt : opt string := mkOpt "rpc-api" "WEB3INJ_JSONRPC_API" (String.concat "," (j_API (c_JSONRPC defaults))).
Definition traceTimeoutCap_opt : opt string :=
  mkOpt "rpc-trace-timeout-cap" "WEB3INJ_JSONRPC_TRACE_TIMEOUT_CAP" (Duration_String (j_TraceTimeoutCap (c_JSONRPC defaults))).

Definition str (o : opt string) : string := cli_String o args (Getenv env (op_EnvVar o)).
Definition int (o : opt Z) : Z := cli_Int o args (Getenv env (op_EnvVar o)).
Definition flag (o : opt bool) : bool := cli_Bool o args (Getenv env (op_EnvVar o)).

Definition gateway_options : gatewayCLIOptions :=
  mkOptions (str chainID_opt) (str evmChainID_opt) (str cometRPC_opt) (str cometBroadcastRPC_opt) (str grpcAddr_opt)
    (int earliest_opt) (int fetchJobs_opt) (str dataDir_opt) (flag enableSync_opt) (flag parallelSync_opt) (flag virtualize_opt)
    (flag offline_opt) (str logFormat_opt) (flag logVerbose_opt) (flag enableRPC_opt) (str rpcAddr_opt) (str wsAddr_opt)
    (str rpcAPI_opt) (str traceTimeoutCap_opt) (flag tracingEnabled_opt) (str tracingDSN_opt) (str tracingAuthorization_opt)
    (str tracingAuthorizationName_opt) (flag tracingTLS_opt).

(** The two options without a variable. *)
Definition envFile : string := cli_String (mkOpt "env-file" "" "") args EmptyString.
Definition printVersion : bool := cli_Bool (mkOpt "version" "" false) args EmptyString.
End options.

(** ** The commands *)

(** How the process ends: the version is printed, the command returned, fail printed the
    error and left with status 1, or a panic. *)
Inductive exit := Printed | Returned | Failed (e : error) | Panicked (p : string).

Definition runOrFail (result : res error unit) : exit :=
  match result with Ok _ => Returned | Err e => Failed e | Panic p => Panicked p end.

Definition runDefaultAction (printVersion : bool) (startRunner : gatewayCLIOptions → res error unit) (opts : gatewayCLIOptions) : exit :=
  if printVersion then Printed else runOrFail (startRunner opts).

(** The commands of the application, with the targets of the last one. *)
Inductive command := NoCommand | StartCommand | VersionCommand | ResyncCommand (targets : list string).

(** main: the .env file is read into the environment before the options are declared. *)
Definition newGatewayCLI `{CliLib} (Duration_String : Z → string) (dotenv : option (list string)) (env : environment)
    (startRunner : gatewayCLIOptions → res error unit) (resyncRunner : gatewayCLIOptions → list string → res error unit)
    (cmd : command) (args : list string) : exit :=
  let env := readEnv dotenv env in
  let opts := gateway_options Duration_String args env in
  match cmd with
  | NoCommand | StartCommand => runDefaultAction (printVersion args) startRunner opts
  | VersionCommand => Printed
  | ResyncCommand targets => runOrFail (resyncRunner opts targets)
  end.

(** ** What of the environment is read *)

Definition bool_vars : list string :=
  op_EnvVar <$> [enableSync_opt; parallelSync_opt; virtualize_opt; offline_opt; logVerbose_opt; enableRPC_opt; tracingEnabled_opt; tracingTLS_opt].
Definition other_vars : list string :=
  (op_EnvVar <$> [earliest_opt; fetchJobs_opt]) ++
  (op_EnvVar <$> [chainID_opt; evmChainID_opt; cometRPC_opt; cometBroadcastRPC_opt; grpcAddr_opt; dataDir_opt; logFormat_opt; rpcAddr_opt;
     wsAddr_opt; rpcAPI_opt; traceTimeoutCap_opt (λ _, EmptyString); tracingDSN_opt; tracingAuthorization_opt; tracingAuthorizationName_opt]).
Definition option_vars : list string := bool_vars ++ other_vars.

(** The environment without the variables that no option names. *)
Definition restrict (env : environment) : environment := filter (λ e : string * string, e.1 ∈ option_vars) (env : gmap string string).

Lemma Getenv_restrict env key : Getenv (restrict env) key = if bool_decide (key ∈ option_vars) then Getenv env key else EmptyString.
Proof.
  unfold Getenv, restrict, environment in *. rewrite map_lookup_filter. destruct (env !! key) as [v|]; cbn; [|by case_bool_decide].
  case_bool_decide; [by rewrite option_guard_True|by rewrite option_guard_False].
Qed.

(** An option of the gateway reads the restricted environment. *)
Lemma option_var_kept env key : bool_decide (key ∈ option_vars) = true → Getenv env key = Getenv (restrict env) key.
Proof. intros H. by rewrite Getenv_restrict, H. Qed.

(** A variable that no option names reads as empty. *)
Lemma other_var_empty env key : bool_decide (key ∈ option_vars) = false → Getenv (restrict env) key = EmptyString.
Proof. intros H. by rewrite Getenv_restrict, H. Qed.

Section equivalence.
Context {CL : CliLib} {LAWS : CliLaws} (Duration_String : Z → string).
Context (ParseDuration : string → res string Z) (ParseFloat : string → res string float64).

(** The options depend on the restricted environment only, whatever the arguments are. *)
Lemma options_restrict args env : gateway_options Duration_String args env = gateway_options Duration_String args (restrict env).
Proof.
  unfold gateway_options, str, int, flag. cbn [op_EnvVar chainID_opt evmChainID_opt cometRPC_opt cometBroadcastRPC_opt grpcAddr_opt earliest_opt
    fetchJobs_opt dataDir_opt enableSync_opt parallelSync_opt virtualize_opt offline_opt logFormat_opt logVerbose_opt enableRPC_opt rpcAddr_opt
    wsAddr_opt rpcAPI_opt traceTimeoutCap_opt tracingEnabled_opt tracingDSN_opt tracingAuthorization_opt tracingAuthorizationName_opt tracingTLS_opt].
  f_equal; f_equal; by apply option_var_kept.
Qed.

(** What config.Load makes of an environment after its file is read, with the path of the
    data directory expanded as buildConfig does. *)
Definition load_config (UserHomeDir : res string string) (filepath_Join : string → string → string) (env : environment) : res error Config :=
  let! cfg := applyEnvOverrides ParseDuration ParseFloat env DefaultConfig in
  let cfg := Expand UserHomeDir filepath_Join (Normalize cfg) in
  let! _ := Validate cfg in Ok cfg.

(** A variable of a flag is empty or one of the texts of strconv.ParseBool. *)
Definition bool_text (v : string) : Prop := v = EmptyString ∨ is_Some (ParseBool v).

#[global] Instance bool_text_decision v : Decision (bool_text v).
Proof. unfold bool_text. apply _. Defined.

Lemma str_env env key (o : opt string) :
  op_EnvVar o = (envPrefix ++ key)%string → str [] env o = getEnvString env key (op_Value o).
Proof. intros E. unfold str, getEnvString, env_value. by rewrite cli_String_env, E. Qed.

Lemma int_env env key (o : opt Z) :
  op_EnvVar o = (envPrefix ++ key)%string → int [] env o = getEnvInt env key (op_Value o).
Proof. intros E. unfold int, getEnvInt, env_value. by rewrite cli_Int_env, E. Qed.

Lemma bool_texts v fallback : bool_text v →
  default fallback (ParseBool v) =
  (if bool_decide (strings_ToLower v ∈ ["true"; "1"; "t"; "yes"; "y"]%string) then true
   else if bool_decide (strings_ToLower v ∈ ["false"; "0"; "f"; "no"; "n"]%string) then false else fallback).
Proof.
  intros [->|[b H]]; [done|]. rewrite H. unfold ParseBool in H. case_bool_decide as Ht; [|case_bool_decide as Hf; [|done]]; simplify_eq.
  - rewrite !elem_of_cons, elem_of_nil in Ht. by destruct_or! Ht; subst v.
  - rewrite !elem_of_cons, elem_of_nil in Hf. by destruct_or! Hf; subst v.
Qed.

Lemma flag_env env key (o : opt bool) :
  op_EnvVar o = (envPrefix ++ key)%string → bool_text (Getenv env (op_EnvVar o)) → flag [] env o = getEnvBool env key (op_Value o).
Proof. intros E H. unfold flag, getEnvBool, env_value. rewrite cli_Bool_env, bool_texts by done. by rewrite E. Qed.

(** The variables that only config.Load reads keep their defaults in a restricted
    environment. *)
Lemma unread_String env key fallback :
  bool_decide ((envPrefix ++ key)%string ∈ option_vars) = false → getEnvString (restrict env) key fallback = fallback.
Proof. intros H. unfold getEnvString, env_value. by rewrite other_var_empty. Qed.
Lemma unread_Bool env key fallback :
  bool_decide ((envPrefix ++ key)%string ∈ option_vars) = false → getEnvBool (restrict env) key fallback = fallback.
Proof. intros H. unfold getEnvBool, env_value. by rewrite other_var_empty. Qed.
Lemma unread_Int env key fallback :
  bool_decide ((envPrefix ++ key)%string ∈ option_vars) = false → getEnvInt (restrict env) key fallback = fallback.
Proof. intros H. unfold getEnvInt, env_value. by rewrite other_var_empty. Qed.
Lemma unread_Float env key fallback :
  bool_decide ((envPrefix ++ key)%string ∈ option_vars) = false → getEnvFloat ParseFloat (restrict env) key fallback = fallback.
Proof. intros H. unfold getEnvFloat, env_value. by rewrite other_var_empty. Qed.
Lemma unread_Duration env key fallback :
  bool_decide ((envPrefix ++ key)%string ∈ option_vars) = false → getEnvDuration ParseDuration (restrict env) key fallback = fallback.
Proof. intros H. unfold getEnvDuration, env_value. by rewrite other_var_empty. Qed.

Definition flags_readable (env : environment) : Prop := Forall (λ key, bool_text (Getenv env key)) bool_vars.

#[global] Instance flags_readable_decision env : Decision (flags_readable env).
Proof. unfold flags_readable. apply _. Defined.

Lemma api_env env : parseCSV (str [] env rpcAPI_opt) (j_API (c_JSONRPC DefaultConfig)) = getEnvCSV env "JSONRPC_API" (j_API (c_JSONRPC DefaultConfig)).
Proof.
  rewrite (str_env env "JSONRPC_API") by done. unfold parseCSV, getEnvCSV, getEnvString. case_bool_decide as H; [done|].
  by rewrite H.
Qed.

Lemma flag_restrict env key (o : opt bool) :
  flags_readable env → bool_decide (op_EnvVar o ∈ bool_vars) = true → op_EnvVar o = (envPrefix ++ key)%string →
  flag [] (restrict env) o = getEnvBool (restrict env) key (op_Value o).
Proof.
  intros H Hin%bool_decide_eq_true E. apply flag_env; [done|]. rewrite <- option_var_kept.
  - by apply (proj1 (Forall_forall _ _) H).
  - apply bool_decide_eq_true_2. unfold option_vars. by apply elem_of_app; left.
Qed.

(** A field of the configuration: a default that the restricted environment cannot change,
    or a variable read through an option. *)
Ltac same_field :=
  first [done|by apply unread_String|by apply unread_Bool|by apply unread_Int|by apply unread_Float|by apply unread_Duration
        |by rewrite unread_Int
        |symmetry; first [by apply str_env|by apply int_env|by apply flag_restrict|by apply api_env]].

(** The bound of a trace that config.Load takes from the environment. *)
Definition env_trace_cap (env : environment) : res error Z :=
  if bool_decide (env_value env "JSONRPC_TRACE_TIMEOUT_CAP" = EmptyString) then Ok (j_TraceTimeoutCap (c_JSONRPC DefaultConfig))
  else res_map_err (λ e, Wrap "invalid jsonrpc trace-timeout-cap" (New e)) (ParseDuration (env_value env "JSONRPC_TRACE_TIMEOUT_CAP")).

(** The two overlays of the defaults are the same. *)
Lemma options_overlay env :
  flags_readable env →
  applyEnvOverrides ParseDuration ParseFloat (restrict env) DefaultConfig =
  let! cap := env_trace_cap (restrict env) in Ok (configured (gateway_options Duration_String [] (restrict env)) cap).
Proof.
  intros H. unfold applyEnvOverrides, applyJSONRPC. fold (env_trace_cap (restrict env)).
  destruct (env_trace_cap (restrict env)) as [cap| |]; [|done|done]. cbn [res_bind].
  unfold configured, gateway_options, applyTracing.
  cbn [o_chainID o_evmChainID o_cometRPC o_cometBroadcastRPC o_grpcAddr o_earliest o_fetchJobs o_dataDir o_enableSync o_parallelSyncTipAndGaps
    o_virtualizeCosmosEvents o_offlineRPCOnly o_logFormat o_logVerbose o_enableRPC o_rpcAddr o_wsAddr o_rpcAPI o_tracingEnabled o_tracingDSN
    o_tracingCollectorAuthorization o_tracingCollectorAuthorizationName o_tracingCollectorEnableTLS].
  unfold getEnvInt64. f_equal. f_equal; try same_field; f_equal; same_field.
Qed.

(** The bound of a trace is the same too, when the printed default is read back. *)
Lemma trace_cap_overlay env :
  ParseDuration (Duration_String DefaultTraceTimeoutCap) = Ok DefaultTraceTimeoutCap →
  ∀ cap, ParseDuration (o_traceTimeoutCap (gateway_options Duration_String [] env)) = Ok cap ↔ env_trace_cap env = Ok cap.
Proof.
  intros Hd cap. change (o_traceTimeoutCap _) with (str [] env (traceTimeoutCap_opt Duration_String)).
  rewrite (str_env env "JSONRPC_TRACE_TIMEOUT_CAP") by done. unfold getEnvString, env_trace_cap.
  repeat case_bool_decide; try done.
  - destruct (ParseDuration (env_value _ _)); cbn; split; by inversion 1.
  - change (op_Value _) with (Duration_String DefaultTraceTimeoutCap). rewrite Hd.
    change (j_TraceTimeoutCap _) with DefaultTraceTimeoutCap. split; by inversion 1.
Qed.

(** Started without arguments, the gateway has the configuration that config.Load makes of
    the variables its options name, and refuses when that one is refused: where a flag's
    variable is empty or a text of strconv.ParseBool, and the printed default of the bound
    of a trace is read back. *)
Theorem gateway_config_is_loaded home join env cfg :
  ParseDuration (Duration_String DefaultTraceTimeoutCap) = Ok DefaultTraceTimeoutCap → flags_readable env →
  buildConfig ParseDuration home join (gateway_options Duration_String [] env) = Ok cfg ↔ load_config home join (restrict env) = Ok cfg.
Proof.
  intros Hd Hf. rewrite options_restrict. unfold buildConfig, load_config. rewrite options_overlay by done.
  pose proof (trace_cap_overlay (restrict env) Hd) as Hc. clear Hd. revert Hc.
  destruct (ParseDuration _) as [cap| |], (env_trace_cap (restrict env)) as [cap'| |]; cbn; intros Hc;
    try discriminate (proj1 (Hc _) eq_refl); try discriminate (proj2 (Hc _) eq_refl); try (split; discriminate).
  by injection (proj1 (Hc cap) eq_refl) as ->.
Qed.
End equivalence.

(** A command depends on the variables of the options only: two environments that agree on
    them, after the .env file, give the same run. *)
Lemma newGatewayCLI_restrict `{CliLib} Duration_String dotenv env env' startRunner resyncRunner cmd args :
  restrict (readEnv dotenv env) = restrict (readEnv dotenv env') →
  newGatewayCLI Duration_String dotenv env startRunner resyncRunner cmd args =
  newGatewayCLI Duration_String dotenv env' startRunner resyncRunner cmd args.
Proof.
  intros E. unfold newGatewayCLI. by rewrite (options_restrict _ _ (readEnv dotenv env)), E, <- options_restrict.
Qed.

(** ** Instances *)

(** A library that looks at the environment only. *)
#[local] Instance env_cli : CliLib := {|
  cli_String o _ v := if bool_decide (v ≠ EmptyString) then v else op_Value o;
  cli_Int o _ v := match strconv_Atoi v with Ok n => n | _ => op_Value o end;
  cli_Bool o _ v := default (op_Value o) (ParseBool v);
|}.

#[local] Instance env_cli_laws : CliLaws.
Proof. by split. Qed.

Definition sample_duration (s : string) : res string Z := if bool_decide (s = "30s"%string) then Ok (seconds 30) else Err "invalid duration"%string.
Definition sample_env : environment :=
  <["WEB3INJ_CHAIN_ID" := "injective-1"]> (<["WEB3INJ_LOG_VERBOSE" := "T"]> (<["WEB3INJ_JSONRPC_GAS_CAP" := "5"]> ∅)).

Definition sample_config : Config :=
  match load_config sample_duration (λ _, Err ""%string) (Err ""%string) (λ a _, a) (restrict sample_env) with Ok cfg => cfg | _ => DefaultConfig end.

Lemma gateway_config_is_loaded_witness :
  buildConfig sample_duration (Err ""%string) (λ a _, a) (gateway_options (λ _, "30s"%string) [] sample_env) = Ok sample_config ∧
  c_ChainID sample_config = "injective-1"%string ∧ c_LogVerbose sample_config = true ∧ j_GasCap (c_JSONRPC sample_config) = 25000000.
Proof.
  split; [|by vm_compute].
  apply (gateway_config_is_loaded (λ _, "30s"%string) sample_duration (λ _, Err ""%string)); [done|by apply (bool_decide_unpack _)|].
  vm_compute. reflexivity.
Defined.

(** A variable that the configuration reads and no option names is ignored. *)
Lemma gas_cap_ignored :
  ∀ PF, ∃ cfg, applyEnvOverrides sample_duration PF sample_env DefaultConfig = Ok cfg ∧ j_GasCap (c_JSONRPC cfg) = 5.
Proof. intros PF. by eexists. Qed.

(** A flag written as a word of getEnvBool that strconv.ParseBool does not know keeps its
    default on the command line. *)
Lemma yes_ignored :
  let env : environment := <["WEB3INJ_LOG_VERBOSE" := "yes"]> ∅ in
  o_logVerbose (gateway_options (λ _, "30s"%string) [] env) = false ∧ getEnvBool env "LOG_VERBOSE" false = true.
Proof. by vm_compute. Qed.
End CliOptions.
