(* ===== verification/PubSub.v ===== *)
(** * Event bus

    src/internal/evm/rpc/ethereum/pubsub/pubsub.go: topics with a source channel each, the
    goroutine that publishes a source, and subscribers with unbuffered channels of their
    own.  The methods run as small steps between their critical sections: AddTopic and
    Subscribe look a topic up before they lock again, and a publisher ranges over the map
    of subscribers after it gave the lock back.  The inner maps are objects with an
    identity, as the publisher keeps a reference to one while others change it. *)

From Stdlib Require Import ZArith String.
From S2P Require Import Prelude GoLib.
From stdpp Require Import strings list gmap sets.
#[local] Open Scope Z_scope.

Module PubSub.
Import GoLib.

Section bus.
Context {Event : Type}.

(** ** State *)

(** The channel of a subscriber: whether a receiver is blocked on it, what the receiver got,
    and the topic it was made for. *)
Record chan := mkChan { ch_topic : string; ch_closed : bool; ch_waiting : bool; ch_got : list Event }.

(** The channel of a source: everything sent to it and the part that is still unread. *)
Record source := mkSource { so_sent : list Event; so_queue : list Event; so_closed : bool }.
Definition no_source : source := mkSource [] [] false.

(** publishTopic: at the receive; ranging over an inner map (nil when the topic has none),
    with the keys the map had at the start, the keys already produced and the event; before
    the deletion of the topic; returned. *)
Inductive pc := Receiving | Ranging (subs : option nat) (present seen : gset Z) (msg : Event) | Forgetting | Ended.

(** A publisher, with all it has received. *)
Record publisher := mkPublisher { p_name : string; p_src : nat; p_pc : pc; p_taken : list Event }.

(** Callers between the look-up of a topic and the second critical section. *)
Inductive caller := Adding (name : string) (src : nat) | Subscribing (name : string).

(** The inner maps are the entries of [slots] with the same first component. *)
Record bus := mkBus {
  topics : gmap string nat;
  subscribers : gmap string nat;
  currentUniqueID : Z;
  slots : gmap (nat * Z) nat;
  next_map : nat;
  chans : gmap nat chan;
  next_chan : nat;
  sources : gmap nat source;
  publishers : list publisher;
  callers : list caller;
  panicked : bool;
}.

Definition NewEventBus : bus := mkBus ∅ ∅ 0 ∅ 0 ∅ 0 ∅ [] [] false.

(** ** Field updates *)

Definition with_topics (m : bus) (t : gmap string nat) : bus :=
  mkBus t (subscribers m) (currentUniqueID m) (slots m) (next_map m) (chans m) (next_chan m) (sources m) (publishers m) (callers m) (panicked m).
Definition with_slots (m : bus) (s : gmap (nat * Z) nat) : bus :=
  mkBus (topics m) (subscribers m) (currentUniqueID m) s (next_map m) (chans m) (next_chan m) (sources m) (publishers m) (callers m) (panicked m).
Definition with_chans (m : bus) (c : gmap nat chan) : bus :=
  mkBus (topics m) (subscribers m) (currentUniqueID m) (slots m) (next_map m) c (next_chan m) (sources m) (publishers m) (callers m) (panicked m).
Definition with_sources (m : bus) (s : gmap nat source) : bus :=
  mkBus (topics m) (subscribers m) (currentUniqueID m) (slots m) (next_map m) (chans m) (next_chan m) s (publishers m) (callers m) (panicked m).
Definition with_publishers (m : bus) (p : list publisher) : bus :=
  mkBus (topics m) (subscribers m) (currentUniqueID m) (slots m) (next_map m) (chans m) (next_chan m) (sources m) p (callers m) (panicked m).
Definition with_callers (m : bus) (c : list caller) : bus :=
  mkBus (topics m) (subscribers m) (currentUniqueID m) (slots m) (next_map m) (chans m) (next_chan m) (sources m) (publishers m) c (panicked m).
Definition with_panic (m : bus) : bus :=
  mkBus (topics m) (subscribers m) (currentUniqueID m) (slots m) (next_map m) (chans m) (next_chan m) (sources m) (publishers m) (callers m) true.

Definition set_pc (p : publisher) (k : pc) : publisher := mkPublisher (p_name p) (p_src p) k (p_taken p).
Definition source_of (m : bus) (s : nat) : source := default no_source (sources m !! s).

(** ** Methods *)

Definition Topics (m : bus) : list string := (map_to_list (topics m)).*1.

(** AddTopic up to the release of the read lock: the error, or a caller that goes on. *)
Definition AddTopic (m : bus) (name : string) (src : nat) : res error bus :=
  match topics m !! name with
  | Some _ => Err (New "topic already registered")
  | None => Ok (with_callers m (callers m ++ [Adding name src]))
  end.

(** The rest of AddTopic: the topic is stored and its publisher starts. *)
Definition AddTopic_store (m : bus) (name : string) (src : nat) : bus :=
  with_publishers (with_topics m (<[name := src]> (topics m))) (publishers m ++ [mkPublisher name src Receiving []]).

Definition RemoveTopic (m : bus) (name : string) : bus := with_topics m (delete name (topics m)).

Definition Subscribe (m : bus) (name : string) : res error bus :=
  match topics m !! name with
  | None => Err (Errorf "topic not found: %s")
  | Some _ => Ok (with_callers m (callers m ++ [Subscribing name]))
  end.

Definition GenUniqueID (m : bus) : Z := uint64 (currentUniqueID m + 1).

(** The rest of Subscribe: a fresh channel under a fresh id, in the map of the topic, which
    is made when it is absent. *)
Definition Subscribe_store (m : bus) (name : string) : bus :=
  let id := GenUniqueID m in
  let '(subs, l, next) :=
    match subscribers m !! name with
    | Some l => (subscribers m, l, next_map m)
    | None => (<[name := next_map m]> (subscribers m), next_map m, S (next_map m))
    end in
  mkBus (topics m) subs id (<[(l, id) := next_chan m]> (slots m)) next
    (<[next_chan m := mkChan name false false []]> (chans m)) (S (next_chan m)) (sources m) (publishers m) (callers m) (panicked m).

(** The function that Subscribe returns: the map is looked up again; deleting from a nil map
    does nothing. *)
Definition unsubscribe (m : bus) (name : string) (id : Z) : bus :=
  match subscribers m !! name with None => m | Some l => with_slots m (delete (l, id) (slots m)) end.

(** The channels of an inner map. *)
Definition members (m : bus) (l : nat) : gset nat := list_to_set (map_to_list (filter (λ e, e.1.1 = l) (slots m))).*2.

(** closeAllSubscribers: the map is taken out and its channels are closed; closing a closed
    one panics. *)
Definition closeAllSubscribers (m : bus) (name : string) : bus :=
  match subscribers m !! name with
  | None => m
  | Some l =>
      let targets := members m l in
      let bad := bool_decide (set_Exists (λ c, (ch_closed <$> chans m !! c) = Some true) targets) in
      mkBus (topics m) (delete name (subscribers m)) (currentUniqueID m) (slots m) (next_map m)
        (map_imap (λ c ch, Some (if bool_decide (c ∈ targets) then mkChan (ch_topic ch) true false (ch_got ch) else ch)) (chans m))
        (next_chan m) (sources m) (publishers m) (callers m) (panicked m || bad)
  end.

(** The send of publishAllSubscribers: a blocked receiver gets the event, otherwise it is
    dropped; sending on a closed channel panics. *)
Definition send (m : bus) (c : nat) (msg : Event) : bus :=
  match chans m !! c with
  | None => m
  | Some ch =>
      if ch_closed ch then with_panic m
      else if ch_waiting ch then with_chans m (<[c := mkChan (ch_topic ch) false false (ch_got ch ++ [msg])]> (chans m))
      else m
  end.

(** ** The publisher *)

Definition put (m : bus) (i : nat) (p : publisher) : bus := with_publishers m (<[i := p]> (publishers m)).

(** publishTopic receives: the event is taken and the map of the topic is read under the
    lock; a source that is closed and empty closes the subscribers. *)
Definition publish_receive (m : bus) (i : nat) (p : publisher) : option bus :=
  let so := source_of m (p_src p) in
  match so_queue so with
  | msg :: queue =>
      let subs := subscribers m !! p_name p in
      let present := match subs with Some l => set_map snd (filter (λ k : nat * Z, k.1 = l) (dom (slots m))) | None => ∅ end in
      Some (put (with_sources m (<[p_src p := mkSource (so_sent so) queue (so_closed so)]> (sources m))) i
              (mkPublisher (p_name p) (p_src p) (Ranging subs present ∅ msg) (p_taken p ++ [msg])))
  | [] => if so_closed so then Some (put (closeAllSubscribers m (p_name p)) i (set_pc p Forgetting)) else None
  end.

(** publishAllSubscribers produces a key of the map as it is now. *)
Definition publish_send (m : bus) (i : nat) (p : publisher) (id : Z) : option bus :=
  match p_pc p with
  | Ranging (Some l) present seen msg =>
      if bool_decide (id ∈ seen) then None
      else match slots m !! (l, id) with
           | None => None
           | Some c => Some (put (send m c msg) i (set_pc p (Ranging (Some l) present ({[id]} ∪ seen) msg)))
           end
  | _ => None
  end.

(** The range ends when no key of the start is left; keys that were added meanwhile may be
    skipped. *)
Definition publish_done (m : bus) (i : nat) (p : publisher) : option bus :=
  match p_pc p with
  | Ranging subs present seen _ =>
      let left := match subs with Some l => filter (λ id, is_Some (slots m !! (l, id))) (present ∖ seen) | None => ∅ end in
      if bool_decide (left = ∅) then Some (put m i (set_pc p Receiving)) else None
  | _ => None
  end.

(** ** Steps *)

(** What can happen next: the owner of a source sends or closes it, a client calls a method
    or blocks on its channel, a caller goes on, or a publisher does. *)
Inductive label :=
| LFeed (src : nat) (e : Event) | LCloseSource (src : nat)
| LAddTopic (name : string) (src : nat) | LRemoveTopic (name : string)
| LSubscribe (name : string) | LUnsubscribe (name : string) (id : Z)
| LAwait (c : nat) | LCaller (i : nat)
| LReceive (i : nat) | LSend (i : nat) (id : Z) | LDone (i : nat) | LForget (i : nat).

Definition ok_bus (r : res error bus) : option bus := match r with Ok m => Some m | _ => None end.

Definition caller_store (m : bus) (k : caller) : bus :=
  match k with Adding name src => AddTopic_store m name src | Subscribing name => Subscribe_store m name end.

Definition act (a : label) (m : bus) : option bus :=
  match a with
  | LFeed s e =>
      let so := source_of m s in
      if so_closed so then None
      else Some (with_sources m (<[s := mkSource (so_sent so ++ [e]) (so_queue so ++ [e]) false]> (sources m)))
  | LCloseSource s =>
      let so := source_of m s in
      if so_closed so then None else Some (with_sources m (<[s := mkSource (so_sent so) (so_queue so) true]> (sources m)))
  | LAddTopic name src => ok_bus (AddTopic m name src)
  | LRemoveTopic name => Some (RemoveTopic m name)
  | LSubscribe name => ok_bus (Subscribe m name)
  | LUnsubscribe name id => Some (unsubscribe m name id)
  | LAwait c =>
      match chans m !! c with
      | Some ch => if ch_closed ch then None else Some (with_chans m (<[c := mkChan (ch_topic ch) false true (ch_got ch)]> (chans m)))
      | None => None
      end
  | LCaller i =>
      match callers m !! i with None => None | Some k => Some (caller_store (with_callers m (delete i (callers m))) k) end
  | LReceive i =>
      match publishers m !! i with
      | Some p => match p_pc p with Receiving => publish_receive m i p | _ => None end
      | None => None
      end
  | LSend i id => match publishers m !! i with Some p => publish_send m i p id | None => None end
  | LDone i => match publishers m !! i with Some p => publish_done m i p | None => None end
  | LForget i =>
      match publishers m !! i with
      | Some p =>
          match p_pc p with
          | Forgetting => Some (put (with_topics m (delete (p_name p) (topics m))) i (set_pc p Ended))
          | _ => None
          end
      | None => None
      end
  end.

Definition step (m m' : bus) : Prop := panicked m = false ∧ ∃ a, act a m = Some m'.
Definition reachable (m : bus) : Prop := rtc step NewEventBus m.

Fixpoint run (m : bus) (l : list label) : option bus :=
  match l with [] => Some m | a :: l => if panicked m then None else match act a m with Some m' => run m' l | None => None end end.

Lemma bus_run_reachable l m m' : reachable m → run m l = Some m' → reachable m'.
Proof.
  revert m. induction l as [|a l IH]; cbn; intros m Hm H; [by simplify_eq|].
  destruct (panicked m) eqn:Hp; [done|]. destruct (act a m) as [m1|] eqn:E; [|done].
  apply (IH m1); [|done]. apply (rtc_r _ _ _ Hm). split; [done|by exists a].
Qed.

(** ** The invariant *)

(** No topic was registered twice. *)
Definition distinct (m : bus) : Prop := NoDup (p_name <$> publishers m).

Lemma members_spec m l c : c ∈ members m l ↔ ∃ id, slots m !! (l, id) = Some c.
Proof.
  unfold members. rewrite elem_of_list_to_set, list_elem_of_fmap. split.
  - intros ([[l' id] c'] & -> & H). apply elem_of_map_to_list, map_lookup_filter_Some in H as [H ?]. cbn in *. subst l'. by exists id.
  - intros [id H]. exists ((l, id), c). split; [done|]. apply elem_of_map_to_list, map_lookup_filter_Some. done.
Qed.

Record inv (m : bus) : Prop := {
  inv_bound n l : subscribers m !! n = Some l → (l < next_map m)%nat;
  inv_slot l id c : slots m !! (l, id) = Some c → (l < next_map m)%nat ∧ (c < next_chan m)%nat;
  inv_chan c : is_Some (chans m !! c) → (c < next_chan m)%nat;
  inv_inj n n' l : subscribers m !! n = Some l → subscribers m !! n' = Some l → n = n';
  inv_uniq k k' c : slots m !! k = Some c → slots m !! k' = Some c → k = k';
  inv_open n l id c : subscribers m !! n = Some l → slots m !! (l, id) = Some c →
    ∃ ch, chans m !! c = Some ch ∧ ch_closed ch = false ∧ ch_topic ch = n;
  inv_ranging p l pr se msg : distinct m → p ∈ publishers m → p_pc p = Ranging (Some l) pr se msg → subscribers m !! p_name p = Some l;
  inv_calm : distinct m → panicked m = false;
}.

Lemma inv_start : inv NewEventBus.
Proof. split; try done. - intros c [? [=]]. - intros p l pr se msg _ H. by apply elem_of_nil in H. Qed.

(** What the invariant needs to know of a channel. *)
Definition shape (ch : chan) : string * bool := (ch_topic ch, ch_closed ch).

Lemma shape_lookup (cs cs' : gmap nat chan) c ch :
  shape <$> cs' !! c = shape <$> cs !! c → cs !! c = Some ch → ∃ ch', cs' !! c = Some ch' ∧ shape ch' = shape ch.
Proof. intros E H. rewrite H in E. destruct (cs' !! c) as [ch'|]; [|done]. exists ch'. split; [done|]. by apply (inj Some) in E. Qed.

(** A step that leaves the maps of subscribers, up to removed entries, and the shapes of the
    channels alone. *)
Lemma inv_quiet m m' :
  inv m → subscribers m' = subscribers m → slots m' ⊆ slots m → next_map m' = next_map m → next_chan m' = next_chan m →
  (∀ c, shape <$> chans m' !! c = shape <$> chans m !! c) → (distinct m' → distinct m) →
  (∀ p l pr se msg, distinct m → p ∈ publishers m' → p_pc p = Ranging (Some l) pr se msg → subscribers m !! p_name p = Some l) →
  (distinct m' → panicked m' = false) → inv m'.
Proof.
  intros I Es Hsl Em Ec Hch Hd Hr Hp.
  assert (∀ k c, slots m' !! k = Some c → slots m !! k = Some c) as Hs by (intros k c H; by apply (lookup_weaken _ _ _ _ H)).
  split; rewrite ?Es, ?Em, ?Ec; try (by apply I || done).
  - intros l id c H%Hs. by eapply inv_slot.
  - intros c [ch H]. apply (inv_chan _ I). specialize (Hch c). rewrite H in Hch. by destruct (chans m !! c).
  - intros k k' c H%Hs H'%Hs. by eapply inv_uniq.
  - intros n l id c Hn H%Hs. destruct (inv_open _ I _ _ _ _ Hn H) as (ch & E & Hc & Ht).
    destruct (shape_lookup _ _ _ _ (Hch c) E) as (ch' & E' & [= Ht' Hc']). exists ch'. by rewrite Hc', Ht'.
  - intros p l pr se msg H. by apply Hr, Hd.
Qed.

Lemma put_distinct m i p p' ps :
  publishers m !! i = Some p → p_name p' = p_name p → ps = <[i := p']> (publishers m) → p_name <$> ps = p_name <$> publishers m.
Proof.
  intros H E ->. rewrite list_fmap_insert, E. apply list_insert_id. by rewrite list_lookup_fmap, H.
Qed.

(** The publishers after one of them moved on. *)
Lemma put_elem m i p p' q :
  publishers m !! i = Some p → q ∈ <[i := p']> (publishers m) → q = p' ∨ q ∈ publishers m.
Proof.
  intros H Hq. apply list_elem_of_lookup in Hq as [j Hj]. apply list_lookup_insert_Some in Hj as [(_ & -> & _)|[_ Hj]]; [by left|].
  right. by apply list_elem_of_lookup_2 in Hj.
Qed.

Lemma send_fields m c msg :
  topics (send m c msg) = topics m ∧ subscribers (send m c msg) = subscribers m ∧ slots (send m c msg) = slots m ∧
  next_map (send m c msg) = next_map m ∧ next_chan (send m c msg) = next_chan m ∧ publishers (send m c msg) = publishers m ∧
  sources (send m c msg) = sources m ∧ callers (send m c msg) = callers m.
Proof. unfold send. by repeat case_match. Qed.

Lemma send_shape m c msg c' : shape <$> chans (send m c msg) !! c' = shape <$> chans m !! c'.
Proof.
  unfold send. destruct (chans m !! c) as [ch|] eqn:E; [|done]. destruct (ch_closed ch) eqn:Ec; [done|]. destruct (ch_waiting ch); [|done]. cbn.
  destruct (decide (c' = c)) as [->|]; [|by rewrite lookup_insert_ne]. rewrite lookup_insert_eq, E. cbn. unfold shape. cbn. by rewrite Ec.
Qed.

(** A channel in the map of a topic is open, so that a send does not panic. *)
Lemma send_calm m c msg n l id :
  inv m → panicked m = false → subscribers m !! n = Some l → slots m !! (l, id) = Some c → panicked (send m c msg) = false.
Proof.
  intros I Hp Hn Hs. destruct (inv_open _ I _ _ _ _ Hn Hs) as (ch & E & Hc & _). unfold send. rewrite E, Hc. by case_match.
Qed.

(** A publisher that moves on, over a bus that is quiet otherwise. *)
Lemma inv_put m m1 i p p' :
  inv m → publishers m !! i = Some p → publishers m1 = publishers m → p_name p' = p_name p →
  subscribers m1 = subscribers m → slots m1 ⊆ slots m → next_map m1 = next_map m → next_chan m1 = next_chan m →
  (∀ c, shape <$> chans m1 !! c = shape <$> chans m !! c) →
  (∀ l pr se msg, distinct m → p_pc p' = Ranging (Some l) pr se msg → subscribers m !! p_name p = Some l) →
  (distinct m → panicked m1 = false) → inv (put m1 i p').
Proof.
  intros I Hi Eps En Es Hsl Em Ec Hch Hr Hp.
  assert (distinct (put m1 i p') → distinct m) as Hd.
  { unfold distinct. cbn. rewrite Eps. by rewrite (put_distinct m i p p' _ Hi En eq_refl). }
  apply (inv_quiet m); try done.
  - intros q l pr se msg D Hq Hpc. cbn in Hq. rewrite Eps in Hq. destruct (put_elem _ _ _ _ _ Hi Hq) as [->|Hin].
    + rewrite En. by eapply Hr.
    + by eapply inv_ranging.
  - intros D. by apply Hp, Hd.
Qed.

(** The map that Subscribe adds to: the one of the topic, or a fresh one. *)
Record enrols (m : bus) (name : string) (subs : gmap string nat) (l next : nat) : Prop := {
  en_here : subs !! name = Some l;
  en_other n : n ≠ name → subs !! n = subscribers m !! n;
  en_next : (l < next)%nat ∧ (next_map m ≤ next)%nat;
  en_map : subscribers m !! name = Some l ∨ subscribers m !! name = None ∧ l = next_map m;
}.

Lemma enrols_old m name subs l next n l' :
  inv m → enrols m name subs l next → subscribers m !! n = Some l' → subs !! n = Some l'.
Proof.
  intros I E H. destruct (decide (n = name)) as [->|Hn]; [|by rewrite (en_other _ _ _ _ _ E)].
  rewrite (en_here _ _ _ _ _ E). destruct (en_map _ _ _ _ _ E) as [H'|[H' _]]; congruence.
Qed.

(** Back from the new subscribers to the old ones, the fresh map apart. *)
Lemma enrols_new m name subs l next n l' :
  inv m → enrols m name subs l next → subs !! n = Some l' → subscribers m !! n = Some l' ∨ n = name ∧ l' = l ∧ l = next_map m.
Proof.
  intros I E H. destruct (decide (n = name)) as [->|Hn]; [|left; by rewrite <- (en_other _ _ _ _ _ E)].
  rewrite (en_here _ _ _ _ _ E) in H. simplify_eq. destruct (en_map _ _ _ _ _ E) as [H'|[H' ->]]; [by left|by right].
Qed.

Lemma enrols_inj m name subs l next n n' l' :
  inv m → enrols m name subs l next → subs !! n = Some l' → subs !! n' = Some l' → n = n'.
Proof.
  intros I E H H'. destruct (enrols_new _ _ _ _ _ _ _ I E H) as [Ho|(-> & -> & Hl)], (enrols_new _ _ _ _ _ _ _ I E H') as [Ho'|(-> & Hl' & Hl'')];
    try done; [by eapply inv_inj| |]; [apply (inv_bound _ I) in Ho|apply (inv_bound _ I) in Ho']; lia.
Qed.

Lemma inv_enrol m name subs l next id :
  inv m → enrols m name subs l next →
  inv (mkBus (topics m) subs id (<[(l, id) := next_chan m]> (slots m)) next
         (<[next_chan m := mkChan name false false []]> (chans m)) (S (next_chan m)) (sources m) (publishers m) (callers m) (panicked m)).
Proof.
  intros I E. destruct (en_next _ _ _ _ _ E) as [Hl Hn].
  split; cbn; try (by apply I).
  - intros n l' [H|(-> & -> & _)]%(enrols_new _ _ _ _ _ _ _ I E); [|done]. apply (inv_bound _ I) in H. lia.
  - intros l' id' c [[[= <- <-] <-]|[_ H]]%lookup_insert_Some; [lia|]. apply (inv_slot _ I) in H. lia.
  - intros c [ch [[<- <-]|[_ H]]%lookup_insert_Some]; [lia|]. assert (c < next_chan m)%nat by (apply (inv_chan _ I); by eexists). lia.
  - intros n n' l'. by eapply enrols_inj.
  - intros k k' c [[<- <-]|[_ H]]%lookup_insert_Some [[<- Hc]|[_ H']]%lookup_insert_Some; try done.
    + destruct k'. apply (inv_slot _ I) in H'. lia.
    + subst c. destruct k. apply (inv_slot _ I) in H. lia.
    + by eapply inv_uniq.
  - intros n l' id' c Hs [[[= <- <-] <-]|[_ H]]%lookup_insert_Some.
    + eexists. rewrite lookup_insert_eq. split; [done|]. split; [done|]. cbn. by eapply enrols_inj; [..|exact Hs]; [..|apply E].
    + destruct (inv_slot _ I _ _ _ H). destruct (enrols_new _ _ _ _ _ _ _ I E Hs) as [Ho|(-> & -> & ->)]; [|lia].
      destruct (inv_open _ I _ _ _ _ Ho H) as (ch & Hc & Hrest). exists ch. split; [|done]. rewrite lookup_insert_ne; [done|lia].
  - intros p l' pr se msg D Hp Hpc. eapply enrols_old; [done..|]. by eapply inv_ranging.
Qed.

Lemma Subscribe_enrols m name : inv m →
  enrols m name
    (match subscribers m !! name with Some _ => subscribers m | None => <[name := next_map m]> (subscribers m) end)
    (default (next_map m) (subscribers m !! name))
    (match subscribers m !! name with Some _ => next_map m | None => S (next_map m) end).
Proof.
  intros I. destruct (subscribers m !! name) as [l|] eqn:E; cbn; split; try done.
  - split; [by eapply inv_bound|done].
  - by left.
  - by rewrite lookup_insert_eq.
  - intros n Hn. by rewrite lookup_insert_ne.
  - lia.
  - by right.
Qed.

Lemma inv_Subscribe_store m name : inv m → inv (Subscribe_store m name).
Proof.
  intros I. pose proof (inv_enrol _ _ _ _ _ (GenUniqueID m) I (Subscribe_enrols m name I)) as H.
  unfold Subscribe_store. by destruct (subscribers m !! name).
Qed.

(** The channels after the map of a topic was closed. *)
Lemma closed_lookup (cs : gmap nat chan) (targets : gset nat) c :
  map_imap (λ c ch, Some (if bool_decide (c ∈ targets) then mkChan (ch_topic ch) true false (ch_got ch) else ch)) cs !! c =
  (λ ch, if bool_decide (c ∈ targets) then mkChan (ch_topic ch) true false (ch_got ch) else ch) <$> cs !! c.
Proof. rewrite map_lookup_imap. by destruct (cs !! c). Qed.

Lemma distinct_name m p q : distinct m → p ∈ publishers m → q ∈ publishers m → p_name p = p_name q → p = q.
Proof.
  intros D [i Hi]%list_elem_of_lookup [j Hj]%list_elem_of_lookup E.
  assert (i = j) as ->; [|congruence]. apply (NoDup_lookup _ _ _ (p_name p) D); rewrite list_lookup_fmap; [by rewrite Hi|by rewrite Hj, E].
Qed.

(** The publisher of a topic whose source ended closes open channels only. *)
Lemma inv_close m i p :
  inv m → publishers m !! i = Some p → p_pc p = Receiving → inv (put (closeAllSubscribers m (p_name p)) i (set_pc p Forgetting)).
Proof.
  intros I Hi Hpc. unfold closeAllSubscribers. destruct (subscribers m !! p_name p) as [l|] eqn:El.
  2: { apply (inv_put m _ i p); try done. apply (inv_calm _ I). }
  assert (p ∈ publishers m) as Hp by (by eapply list_elem_of_lookup_2).
  pose proof (put_distinct m i p (set_pc p Forgetting) _ Hi eq_refl eq_refl) as Hd.
  assert (∀ n l' id c, n ≠ p_name p → subscribers m !! n = Some l' → slots m !! (l', id) = Some c → c ∉ members m l) as Hout.
  { intros n l' id c Hn Hs Hc [id' Hc']%members_spec. apply Hn. assert ((l', id) = (l, id')) as E by by eapply inv_uniq. injection E as -> _. by eapply inv_inj. }
  split; cbn; try (by apply I).
  - intros n l' [_ H]%lookup_delete_Some. by eapply inv_bound.
  - intros c [ch H]. rewrite closed_lookup in H. apply (inv_chan _ I). by destruct (chans m !! c).
  - intros n n' l' [_ H]%lookup_delete_Some [_ H']%lookup_delete_Some. by eapply inv_inj.
  - intros n l' id c [Hn Hs]%lookup_delete_Some Hc. destruct (inv_open _ I _ _ _ _ Hs Hc) as (ch & Hch & Hrest). exists ch. split; [|done].
    rewrite closed_lookup, Hch. cbn. by rewrite bool_decide_eq_false_2 by (by eapply Hout).
  - intros q l' pr se msg D Hq Hqpc. unfold distinct in D. cbn in D. rewrite Hd in D.
    destruct (put_elem _ _ _ _ _ Hi Hq) as [->|Hin]; [done|]. rewrite lookup_delete_ne; [by eapply inv_ranging|].
    intros En. assert (p = q) as <- by by eapply distinct_name. congruence.
  - intros D. unfold distinct in D. cbn in D. rewrite Hd in D. rewrite (inv_calm _ I D). cbn. apply bool_decide_eq_false_2.
    intros (c & [id Hc]%members_spec & Hbad). destruct (inv_open _ I _ _ _ _ El Hc) as (ch & Hch & Ho & _). rewrite Hch in Hbad. cbn in Hbad. congruence.
Qed.

Lemma bus_step_inv m m' : inv m → step m m' → inv m'.
Proof.
  intros I [Hp [a H]].
  assert (distinct m → panicked m = false) as Hcalm by apply (inv_calm _ I).
  destruct a; cbn in H.
  - case_match; simplify_eq. by apply (inv_quiet m); try apply I.
  - case_match; simplify_eq. by apply (inv_quiet m); try apply I.
  - unfold AddTopic in H. destruct (topics m !! name); simplify_eq/=. by apply (inv_quiet m); try apply I.
  - simplify_eq/=. by apply (inv_quiet m); try apply I.
  - unfold Subscribe in H. destruct (topics m !! name); simplify_eq/=. by apply (inv_quiet m); try apply I.
  - simplify_eq/=. unfold unsubscribe. case_match; [|done]. apply (inv_quiet m); try apply I; try done. apply delete_subseteq.
  - destruct (chans m !! c) as [ch|] eqn:E; [|done]. destruct (ch_closed ch) eqn:Ec; simplify_eq/=. apply (inv_quiet m); try apply I; try done.
    intros c'. cbn. destruct (decide (c' = c)) as [->|]; [|by rewrite lookup_insert_ne]. rewrite lookup_insert_eq, E. cbn. unfold shape. cbn. by rewrite Ec.
  - destruct (callers m !! i) as [k|]; simplify_eq/=.
    assert (inv (with_callers m (delete i (callers m)))) as I' by (by apply (inv_quiet m); try apply I).
    destruct k as [name src|name]; cbn; [|by apply inv_Subscribe_store].
    assert (distinct (AddTopic_store (with_callers m (delete i (callers m))) name src) → distinct m) as Hd.
    { unfold distinct. cbn. rewrite fmap_app. by intros [? _]%NoDup_app. }
    apply (inv_quiet m); try done.
    intros p l pr se msg D [Hq|Hq]%elem_of_app Hpc; [by eapply inv_ranging|]. apply list_elem_of_singleton in Hq. by subst p.
  - destruct (publishers m !! i) as [p|] eqn:Hi; [|done]. destruct (p_pc p) eqn:Hpc; try done. unfold publish_receive in H.
    destruct (so_queue _) as [|msg queue]; [case_match; simplify_eq; by apply inv_close|]. simplify_eq.
    apply (inv_put m _ i p); try done. by intros l pr se msg' _ [= ->].
  - destruct (publishers m !! i) as [p|] eqn:Hi; [|done]. unfold publish_send in H.
    destruct (p_pc p) as [|[l|] present seen msg| |] eqn:Hpc; try done. case_bool_decide as Hseen; [done|].
    destruct (slots m !! (l, id)) as [c|] eqn:Hc; simplify_eq.
    destruct (send_fields m c msg) as (_ & Es & Esl & Em & Ec & Ep & _). assert (p ∈ publishers m) as Hp' by (by eapply list_elem_of_lookup_2).
    apply (inv_put m _ i p); try done; [by rewrite Esl|apply send_shape| |].
    + intros l' pr se msg' D [= <- _ _ _]. by eapply inv_ranging.
    + intros D. eapply send_calm; [done|done|by eapply inv_ranging|done].
  - destruct (publishers m !! i) as [p|] eqn:Hi; [|done]. unfold publish_done in H. destruct (p_pc p); try done. case_bool_decide; simplify_eq.
    by apply (inv_put m _ i p).
  - destruct (publishers m !! i) as [p|] eqn:Hi; [|done]. destruct (p_pc p); try done. simplify_eq. by apply (inv_put m _ i p).
Qed.

Lemma bus_inv m : reachable m → inv m.
Proof. apply (rtc_ind_r inv); [apply inv_start|]. intros m1 m2 _ H I. by eapply bus_step_inv. Qed.

(** ** Delivery *)

Definition names (m : bus) : list string := p_name <$> publishers m.

Record inv_got (m : bus) : Prop := {
  ig_topic n s : topics m !! n = Some s → n ∈ names m;
  ig_caller n : Subscribing n ∈ callers m → n ∈ names m;
  ig_chan c ch : chans m !! c = Some ch → ch_topic ch ∈ names m;
  ig_msg p subs pr se msg : p ∈ publishers m → p_pc p = Ranging subs pr se msg → ∃ t, p_taken p = t ++ [msg];
  ig_read s : ∃ k, so_sent (source_of m s) = k ++ so_queue (source_of m s);
  ig_src p k : p ∈ publishers m → so_sent (source_of m (p_src p)) = k ++ so_queue (source_of m (p_src p)) → p_taken p `sublist_of` k;
  ig_got p c ch : distinct m → p ∈ publishers m → chans m !! c = Some ch → ch_topic ch = p_name p → ch_got ch `sublist_of` p_taken p;
  ig_left p c ch l pr se msg id t : distinct m → p ∈ publishers m → chans m !! c = Some ch → ch_topic ch = p_name p →
    p_pc p = Ranging (Some l) pr se msg → slots m !! (l, id) = Some c → id ∉ se → p_taken p = t ++ [msg] → ch_got ch `sublist_of` t;
}.

(** What delivery needs to know of a channel. *)
Definition content (ch : chan) : string * list Event := (ch_topic ch, ch_got ch).

Lemma content_lookup (cs cs' : gmap nat chan) c ch' :
  content <$> cs' !! c = content <$> cs !! c → cs' !! c = Some ch' → ∃ ch, cs !! c = Some ch ∧ ch_topic ch' = ch_topic ch ∧ ch_got ch' = ch_got ch.
Proof. intros E H. rewrite H in E. destruct (cs !! c) as [ch|]; [|done]. exists ch. by injection E. Qed.

(** A step that delivers nothing; sources may grow. *)
Lemma got_quiet m m' :
  inv_got m → (∀ n, is_Some (topics m' !! n) → is_Some (topics m !! n)) → (∀ n, Subscribing n ∈ callers m' → n ∈ names m) →
  (∀ c, content <$> chans m' !! c = content <$> chans m !! c) → publishers m' = publishers m → slots m' ⊆ slots m →
  (∀ s, ∃ e, so_sent (source_of m' s) = so_sent (source_of m s) ++ e ∧ so_queue (source_of m' s) = so_queue (source_of m s) ++ e) →
  inv_got m'.
Proof.
  intros G Ht Hk Hc Ep Hsl Hso. assert (names m' = names m) as En by (unfold names; by rewrite Ep).
  split; rewrite ?En, ?Ep; try (by apply G || done).
  - intros n s H. destruct (Ht n) as [s' Hs']; [by eexists|]. by eapply ig_topic.
  - intros c ch H. destruct (content_lookup _ _ _ _ (Hc c) H) as (ch0 & H0 & -> & _). by eapply ig_chan.
  - intros s. destruct (Hso s) as (e & E1 & E2), (ig_read _ G s) as [k E]. exists k. by rewrite E1, E2, E, app_assoc.
  - intros p k Hp. destruct (Hso (p_src p)) as (e & E1 & E2). rewrite E1, E2, app_assoc. intros E%(inj (.++ e)). by apply (ig_src _ G).
  - unfold distinct. rewrite Ep. intros p c ch D Hp H. destruct (content_lookup _ _ _ _ (Hc c) H) as (ch0 & H0 & -> & ->). by eapply ig_got.
  - unfold distinct. rewrite Ep. intros p c ch l pr se msg id t D Hp H. destruct (content_lookup _ _ _ _ (Hc c) H) as (ch0 & H0 & -> & ->).
    intros Htp Hpc Hs%(λ h, lookup_weaken _ _ _ _ h Hsl). by eapply ig_left.
Qed.

Lemma put_names m i p p' : publishers m !! i = Some p → p_name p' = p_name p → names (put m i p') = names m.
Proof. intros Hi En. by apply (put_distinct m i p p'). Qed.

(** A publisher that leaves a round or the loop. *)
Lemma got_put m i p k :
  inv_got m → publishers m !! i = Some p → (∀ subs pr se msg, k ≠ Ranging subs pr se msg) → inv_got (put m i (set_pc p k)).
Proof.
  intros G Hi Hk. pose proof (put_names m i p (set_pc p k) Hi eq_refl) as En. assert (p ∈ publishers m) as Hp by (by eapply list_elem_of_lookup_2).
  split; unfold distinct; fold (names (put m i (set_pc p k))); rewrite ?En; cbn; try (by apply G).
  - intros q subs pr se msg [->|Hq]%(put_elem _ _ _ _ _ Hi); [by intros ?%Hk|by eapply ig_msg].
  - intros q k' [->|Hq]%(put_elem _ _ _ _ _ Hi); [exact (ig_src _ G p k' Hp)|exact (ig_src _ G q k' Hq)].
  - intros q c ch D [->|Hq]%(put_elem _ _ _ _ _ Hi); [by eapply (ig_got _ G p)|by eapply ig_got].
  - intros q c ch l pr se msg id t D [->|Hq]%(put_elem _ _ _ _ _ Hi); [by intros ? ? ?%Hk|by eapply ig_left].
Qed.

Lemma got_AddTopic_store m name src : inv_got m → inv_got (AddTopic_store m name src).
Proof.
  intros G. assert (names (AddTopic_store m name src) = names m ++ [name]) as En by (unfold names; cbn; by rewrite fmap_app).
  split; unfold distinct; fold (names (AddTopic_store m name src)); rewrite ?En; cbn.
  - intros n s [[<- _]|[_ H]]%lookup_insert_Some; [|apply (ig_topic _ G) in H]; set_solver.
  - intros n H%(ig_caller _ G). set_solver.
  - intros c ch H%(ig_chan _ G). set_solver.
  - intros p subs pr se msg [Hp|Hp]%elem_of_app; [by eapply ig_msg|]. apply list_elem_of_singleton in Hp. by subst p.
  - apply (ig_read _ G).
  - intros p k [Hp|Hp]%elem_of_app; [exact (ig_src _ G p k Hp)|]. apply list_elem_of_singleton in Hp. subst p. intros _. apply sublist_nil_l.
  - intros p c ch (D & Dn & _)%NoDup_app [Hp|Hp]%elem_of_app H E; [by eapply ig_got|]. apply list_elem_of_singleton in Hp. subst p. cbn in E.
    exfalso. apply (Dn name); [|set_solver]. rewrite <- E. by eapply ig_chan.
  - intros p c ch l pr se msg id t (D & _)%NoDup_app [Hp|Hp]%elem_of_app; [by eapply ig_left|]. apply list_elem_of_singleton in Hp. by subst p.
Qed.

(** A new subscriber has received nothing. *)
Lemma got_Subscribe_store m name : inv m → inv_got m → name ∈ names m → inv_got (Subscribe_store m name).
Proof.
  intros I G Hn. assert (∀ subs l next id, inv_got (mkBus (topics m) subs id (<[(l, id) := next_chan m]> (slots m)) next
    (<[next_chan m := mkChan name false false []]> (chans m)) (S (next_chan m)) (sources m) (publishers m) (callers m) (panicked m))) as H.
  { intros subs l next id. split; cbn; try (by apply G).
    - intros c ch [[_ <-]|[_ H]]%lookup_insert_Some; [done|by eapply ig_chan].
    - intros p c ch D Hp [[_ <-]|[_ H]]%lookup_insert_Some; [intros _; apply sublist_nil_l|by eapply ig_got].
    - intros p c ch l' pr se msg id' t D Hp [[_ <-]|[Hc H]]%lookup_insert_Some; [intros ? ? ? ? ?; apply sublist_nil_l|].
      intros Ht Hpc [[_ ?]|[_ Hs]]%lookup_insert_Some; [done|by eapply ig_left]. }
  unfold Subscribe_store. destruct (subscribers m !! name); apply H.
Qed.

(** A round starts. *)
Lemma got_receive m i p msg queue present :
  inv_got m → publishers m !! i = Some p → so_queue (source_of m (p_src p)) = msg :: queue →
  inv_got (put (with_sources m (<[p_src p := mkSource (so_sent (source_of m (p_src p))) queue (so_closed (source_of m (p_src p)))]> (sources m))) i
             (mkPublisher (p_name p) (p_src p) (Ranging (subscribers m !! p_name p) present ∅ msg) (p_taken p ++ [msg]))).
Proof.
  intros G Hi Hq. set (p' := mkPublisher _ _ _ _). set (so := mkSource _ _ _). set (m1 := with_sources _ _).
  pose proof (put_names m1 i p p' Hi eq_refl : names (put m1 i p') = names m) as En. assert (p ∈ publishers m) as Hp by (by eapply list_elem_of_lookup_2).
  assert (source_of m1 (p_src p) = so) as Eso by (unfold source_of; cbn; by rewrite lookup_insert_eq).
  assert (∀ s, s ≠ p_src p → source_of m1 s = source_of m s) as Eother by (intros s ?; unfold source_of; cbn; by rewrite lookup_insert_ne).
  split; unfold distinct; fold (names (put m1 i p')); rewrite ?En; try (by apply G); change (source_of (put m1 i p')) with (source_of m1).
  - intros q subs pr se msg' [->|Hin]%(put_elem _ _ _ _ _ Hi); [intros [= _ _ _ <-]; by eexists|by apply (ig_msg _ G)].
  - intros s. destruct (decide (s = p_src p)) as [->|Hs]; [|rewrite Eother by done; apply (ig_read _ G)].
    rewrite Eso. destruct (ig_read _ G (p_src p)) as [k E]. rewrite Hq in E. exists (k ++ [msg]). cbn. by rewrite E, <- app_assoc.
  - intros q k Hin. assert (p_src q ≠ p_src p ∨ p_src q = p_src p) as [Hs|Hs] by (destruct (decide (p_src q = p_src p)); tauto).
    + rewrite Eother by done. destruct (put_elem _ _ _ _ _ Hi Hin) as [->|Hq']; [done|]. by apply (ig_src _ G).
    + rewrite Hs, Eso. cbn. destruct (ig_read _ G (p_src p)) as [k0 E]. rewrite E, Hq. intros Ek. rewrite cons_middle, app_assoc in Ek.
      apply (inj (.++ queue)) in Ek. subst k. destruct (put_elem _ _ _ _ _ Hi Hin) as [->|Hq'].
      * cbn. apply sublist_app; [|done]. by apply (ig_src _ G).
      * apply sublist_inserts_r. apply (ig_src _ G); [done|]. by rewrite Hs.
  - intros q c ch D [->|Hin]%(put_elem _ _ _ _ _ Hi) Hc Ht; [|by eapply (ig_got _ G)]. cbn. apply sublist_inserts_r. by eapply (ig_got _ G p).
  - intros q c ch l pr se msg' id t D [->|Hin]%(put_elem _ _ _ _ _ Hi) Hc Ht; [|by eapply (ig_left _ G)].
    intros [= _ _ _ <-] _ _ [<- _]%app_inj_tail. by eapply (ig_got _ G p).
Qed.

(** The channels after a send: the event was appended to the one channel, or nothing
    changed. *)
Lemma send_lookup m c msg c' ch' :
  chans (send m c msg) !! c' = Some ch' →
  chans m !! c' = Some ch' ∨ c' = c ∧ ∃ ch, chans m !! c = Some ch ∧ ch_topic ch' = ch_topic ch ∧ ch_got ch' = ch_got ch ++ [msg].
Proof.
  unfold send. destruct (chans m !! c) as [ch|] eqn:E; [|by left]. destruct (ch_closed ch); [by left|]. destruct (ch_waiting ch); [|by left]. cbn.
  intros [[<- <-]|[_ H]]%lookup_insert_Some; [right|by left]. split; [done|]. by exists ch.
Qed.

(** One subscriber is served: it has its event, and is not served again in this round. *)
Lemma got_send m i p l pr se msg id c :
  inv m → inv_got m → publishers m !! i = Some p → p_pc p = Ranging (Some l) pr se msg → id ∉ se → slots m !! (l, id) = Some c →
  inv_got (put (send m c msg) i (set_pc p (Ranging (Some l) pr ({[id]} ∪ se) msg))).
Proof.
  intros I G Hi Hpc Hid Hc. set (p' := set_pc p _).
  destruct (send_fields m c msg) as (Et & Es & Esl & _ & _ & Ep & Eso & Ek). assert (p ∈ publishers m) as Hp by (by eapply list_elem_of_lookup_2).
  assert (names (put (send m c msg) i p') = names m) as En by (unfold names; cbn; rewrite Ep; by apply (put_distinct m i p p')).
  assert (∀ s, source_of (put (send m c msg) i p') s = source_of m s) as Esrc by (intros s; unfold source_of; cbn; by rewrite Eso).
  assert (∀ q, q ∈ publishers (put (send m c msg) i p') → q = p' ∨ q ∈ publishers m) as Hpub
    by (cbn; rewrite Ep; intros q; by apply (put_elem m i p)).
  assert (∀ q, distinct m → q ∈ publishers (put (send m c msg) i p') → p_name q = p_name p → q = p') as Hsame.
  { intros q D Hq E. apply (distinct_name (put (send m c msg) i p')); [unfold distinct; fold (names (put (send m c msg) i p')); by rewrite En|done| |done].
    cbn. rewrite Ep. apply list_elem_of_lookup. exists i. apply list_lookup_insert_eq. by eapply lookup_lt_Some. }
  assert (distinct m → ∀ ch, chans m !! c = Some ch → ch_topic ch = p_name p) as Htop.
  { intros D ch Hch. destruct (inv_open _ I _ _ _ _ (inv_ranging _ I _ _ _ _ _ D Hp Hpc) Hc) as (ch0 & E & _ & <-). congruence. }
  split; unfold distinct; fold (names (put (send m c msg) i p')); rewrite ?En; cbn [topics callers put with_publishers]; rewrite ?Et, ?Ek; try (by apply G).
  - intros c' ch' [H|(-> & ch & H & -> & _)]%send_lookup; by eapply ig_chan.
  - intros q subs pr' se' msg' [->|Hq]%Hpub; [|by apply (ig_msg _ G)]. intros [= _ _ _ <-]. by eapply (ig_msg _ G p).
  - intros s. rewrite Esrc. apply (ig_read _ G).
  - intros q k Hq. rewrite Esrc. destruct (Hpub q Hq) as [->|Hq']; [by apply (ig_src _ G p)|by apply (ig_src _ G)].
  - intros q c' ch' D Hq [H|(-> & ch & H & -> & ->)]%send_lookup E.
    + destruct (Hpub q Hq) as [->|Hq']; [exact (ig_got _ G p c' ch' D Hp H E)|exact (ig_got _ G q c' ch' D Hq' H E)].
    + destruct (ig_msg _ G _ _ _ _ _ Hp Hpc) as [t Et']. rewrite (Hsame q D Hq) by (rewrite <- E; exact (Htop D ch H)). cbn. rewrite Et'.
      apply sublist_app; [|done]. exact (ig_left _ G p c ch l pr se msg id t D Hp H (Htop D ch H) Hpc Hc Hid Et').
  - intros q c' ch' l' pr' se' msg' id' t D Hq Hch Ht' Hq' Hs. cbn [slots put with_publishers] in Hs. rewrite Esl in Hs.
    destruct (decide (p_name q = p_name p)) as [E|E].
    + rewrite (Hsame q D Hq E) in Hq', Ht' |- *. injection Hq' as <- <- <- <-. intros [Hne Hse]%not_elem_of_union Etk.
      destruct (send_lookup _ _ _ _ _ Hch) as [H|(-> & _)]; [by eapply (ig_left _ G p)|].
      assert ((l, id') = (l, id)) as [=] by (by eapply inv_uniq). set_solver.
    + destruct (send_lookup _ _ _ _ _ Hch) as [H|(-> & ch & H & Et' & _)]; [|rewrite Et', (Htop D ch H) in Ht'; congruence].
      destruct (Hpub q Hq) as [->|Hin]; [done|by eapply (ig_left _ G)].
Qed.

Lemma source_same m s : ∃ e, so_sent (source_of m s) = so_sent (source_of m s) ++ e ∧ so_queue (source_of m s) = so_queue (source_of m s) ++ e.
Proof. exists []. by rewrite !app_nil_r. Qed.

Lemma source_insert m s so s' : source_of (with_sources m (<[s := so]> (sources m))) s' = if decide (s' = s) then so else source_of m s'.
Proof. unfold source_of. cbn. case_decide as E; [by rewrite E, lookup_insert_eq|by rewrite lookup_insert_ne]. Qed.

(** A source that its owner changed. *)
Lemma source_grown m s e so :
  so_sent so = so_sent (source_of m s) ++ e → so_queue so = so_queue (source_of m s) ++ e →
  let m' := with_sources m (<[s := so]> (sources m)) in
  ∀ s', ∃ e', so_sent (source_of m' s') = so_sent (source_of m s') ++ e' ∧ so_queue (source_of m' s') = so_queue (source_of m s') ++ e'.
Proof. intros E1 E2 m' s'. unfold m'. rewrite source_insert. case_decide as E; [subst s'; by exists e|apply source_same]. Qed.

Lemma close_content m name :
  let m' := closeAllSubscribers m name in
  (∀ c, content <$> chans m' !! c = content <$> chans m !! c) ∧ topics m' = topics m ∧ callers m' = callers m ∧ publishers m' = publishers m ∧
  slots m' = slots m ∧ sources m' = sources m.
Proof.
  unfold closeAllSubscribers. destruct (subscribers m !! name); [|done]. cbn. split; [|done].
  intros c. rewrite closed_lookup. destruct (chans m !! c); [|done]. cbn. by case_bool_decide.
Qed.

Lemma step_got m m' : inv m → inv_got m → step m m' → inv_got m'.
Proof.
  intros I G [_ [a H]]. pose proof (ig_caller _ G) as Hcall. pose proof (source_same m) as Hsame. destruct a; cbn in H.
  - case_match; simplify_eq. apply (got_quiet m); try done. by apply (source_grown m src [e]).
  - case_match; simplify_eq. apply (got_quiet m); try done. apply (source_grown m src []); by rewrite app_nil_r.
  - unfold AddTopic in H. destruct (topics m !! name); simplify_eq/=. apply (got_quiet m); try done.
    intros n [Hn|Hn]%elem_of_app; [by apply Hcall|]. by apply list_elem_of_singleton in Hn.
  - simplify_eq/=. apply (got_quiet m); try done. intros n [s Hn]. cbn in Hn. apply lookup_delete_Some in Hn as [_ Hn]. by eexists.
  - unfold Subscribe in H. destruct (topics m !! name) eqn:E; simplify_eq/=. apply (got_quiet m); try done.
    intros n' [Hn|Hn]%elem_of_app; [by apply Hcall|]. apply list_elem_of_singleton in Hn as [= ->]. by eapply ig_topic.
  - simplify_eq/=. unfold unsubscribe. case_match; [|done]. apply (got_quiet m); try done. apply delete_subseteq.
  - destruct (chans m !! c) as [ch|] eqn:E; [|done]. case_match; simplify_eq/=. apply (got_quiet m); try done. intros c'. cbn.
    destruct (decide (c' = c)) as [->|]; [by rewrite lookup_insert_eq, E|by rewrite lookup_insert_ne].
  - destruct (callers m !! i) as [k|] eqn:Ek; simplify_eq/=.
    assert (∀ x, x ∈ delete i (callers m) → x ∈ callers m) as Hdel 
      by (intros x Hx; eapply elem_of_submseteq; [done|]; apply sublist_submseteq, sublist_delete).
    assert (inv (with_callers m (delete i (callers m)))) as I' by (by apply (inv_quiet m); try apply I).
    assert (inv_got (with_callers m (delete i (callers m)))) as G' by (apply (got_quiet m); try done; intros n Hn; by apply Hcall, Hdel).
    destruct k as [name src|name]; cbn; [by apply got_AddTopic_store|]. apply got_Subscribe_store; [done|done|]. cbn.
    apply Hcall. by eapply list_elem_of_lookup_2.
  - destruct (publishers m !! i) as [p|] eqn:Hi; [|done]. destruct (p_pc p) eqn:Hpc; try done. unfold publish_receive in H.
    destruct (so_queue _) as [|msg queue] eqn:Hq; [case_match; simplify_eq|simplify_eq; by apply got_receive].
    destruct (close_content m (p_name p)) as (Hc & Et & Ek & Ep & Es & Eso). apply got_put; [|by rewrite Ep|done].
    apply (got_quiet m); rewrite ?Et, ?Ek, ?Ep, ?Es; try done.
    intros s. exists []. unfold source_of. by rewrite Eso, !app_nil_r.
  - destruct (publishers m !! i) as [p|] eqn:Hi; [|done]. unfold publish_send in H.
    destruct (p_pc p) as [|[l|] present seen msg| |] eqn:Hpc; try done. case_bool_decide as Hseen; [done|].
    destruct (slots m !! (l, id)) as [c|] eqn:Hc; simplify_eq. by apply got_send.
  - destruct (publishers m !! i) as [p|] eqn:Hi; [|done]. unfold publish_done in H. destruct (p_pc p); try done. case_bool_decide; simplify_eq.
    by apply got_put.
  - destruct (publishers m !! i) as [p|] eqn:Hi; [|done]. destruct (p_pc p); try done. simplify_eq. apply got_put; [|done|done].
    apply (got_quiet m); try done. intros n [s Hn]. cbn in Hn. apply lookup_delete_Some in Hn as [_ Hn]. by eexists.
Qed.

Lemma got_start : inv_got NewEventBus.
Proof.
  assert (∀ p, p ∈ publishers NewEventBus → False) as Hno by (intros p; apply not_elem_of_nil).
  split; try done; try (by intros ? ? ? ? ? ?%Hno || by intros ? ? ?%Hno); [|by intros s; exists []].
  intros n H. by apply elem_of_nil in H.
Qed.

Lemma reachable_got m : reachable m → inv m ∧ inv_got m.
Proof.
  apply (rtc_ind_r (λ m, inv m ∧ inv_got m)); [by split; [apply inv_start|apply got_start]|].
  intros m1 m2 _ H [I G]. split; [by eapply bus_step_inv|by eapply step_got].
Qed.

(** Where no topic was registered twice, whatever the interleaving of callers, publishers
    and receivers, the bus never sends on a closed channel and never closes one twice, and
    each subscriber has received events of the source of its topic in the order of the
    source, none of them twice. *)
Theorem bus_delivers m :
  reachable m → distinct m →
  panicked m = false ∧
  ∀ c ch, chans m !! c = Some ch → ∃ p, p ∈ publishers m ∧ p_name p = ch_topic ch ∧ ch_got ch `sublist_of` so_sent (source_of m (p_src p)).
Proof.
  intros [I G]%reachable_got D. split; [by apply I|]. intros c ch Hc. pose proof (ig_chan _ G _ _ Hc) as (p & E & Hp)%list_elem_of_fmap.
  exists p. split; [done|]. split; [done|]. destruct (ig_read _ G (p_src p)) as [k Ek]. rewrite Ek. apply sublist_inserts_r.
  trans (p_taken p); [by eapply ig_got|by eapply ig_src].
Qed.
End bus.
Arguments bus : clear implicits.
Arguments publisher : clear implicits.
Arguments chan : clear implicits.
Arguments source : clear implicits.
Arguments pc : clear implicits.
Arguments label : clear implicits.

(** ** Runs *)

Lemma run_start {Event} (l : list (label Event)) m : run NewEventBus l = Some m → reachable m.
Proof. apply bus_run_reachable. apply rtc_refl. Qed.

Definition state_after (l : list (label Z)) : bus Z := default NewEventBus (run NewEventBus l).

Lemma state_reachable l : bool_decide (is_Some (run NewEventBus l)) = true → reachable (state_after l).
Proof. intros [m E]%bool_decide_eq_true. unfold state_after. rewrite E. by apply (run_start l). Qed.

Definition one_topic : list (label Z) := [LAddTopic "a" 0; LCaller 0; LSubscribe "a"; LCaller 0; LAwait 0].

(** An event for a receiver that is blocked, and one that is dropped. *)
Definition sample_run : list (label Z) :=
  one_topic ++ [LFeed 0 7; LReceive 0; LSend 0 1; LDone 0; LFeed 0 8; LReceive 0; LSend 0 1; LDone 0].

Lemma bus_delivers_witness :
  let m := state_after sample_run in
  panicked m = false ∧ (ch_got <$> chans m !! 0%nat) = Some [7] ∧
  ∃ p, p ∈ publishers m ∧ p_name p = "a"%string ∧ [7] `sublist_of` so_sent (source_of m (p_src p)).
Proof.
  intros m. assert (reachable m) as Hr by (by apply state_reachable). assert (distinct m) as Hd by (apply (bool_decide_unpack _); by vm_compute).
  destruct (bus_delivers m Hr Hd) as [Hp H]. split; [exact Hp|]. split; [done|].
  destruct (H 0%nat (mkChan "a" false false [7])) as (p & Hin & En & Hs); [by vm_compute|]. by exists p.
Defined.

(** A topic that is removed keeps its publisher.  Registered again it has two, and the one
    whose source ends closes the channels that the other is sending to: the send panics. *)
Lemma readded_topic_panics : ∃ m : bus Z, reachable m ∧ panicked m = true.
Proof.
  exists (state_after [LAddTopic "a" 0; LCaller 0; LRemoveTopic "a"; LAddTopic "a" 1; LCaller 0; LSubscribe "a"; LCaller 0;
    LFeed 0 7; LReceive 0; LCloseSource 1; LReceive 1; LSend 0 1]).
  split; [by apply state_reachable|by vm_compute].
Qed.

(** Two calls of AddTopic for one name can both succeed: the topic is looked up and stored
    in two critical sections. *)
Lemma topic_added_twice : ∃ m : bus Z, reachable m ∧ names m = ["a"; "a"]%string.
Proof.
  exists (state_after [LAddTopic "a" 0; LAddTopic "a" 1; LCaller 0; LCaller 0]). split; [by apply state_reachable|by vm_compute].
Qed.

(** A subscriber that found its topic just before the source ended is stored after the
    channels were closed: the only publisher is gone, the channel stays open. *)
Lemma late_subscriber_stranded :
  ∃ m : bus Z, reachable m ∧ distinct m ∧ topics m = ∅ ∧ (p_pc <$> publishers m) = [Ended] ∧ callers m = [] ∧ (ch_closed <$> chans m !! 0%nat) = Some false.
Proof.
  exists (state_after [LAddTopic "a" 0; LCaller 0; LSubscribe "a"; LCloseSource 0; LReceive 0; LForget 0; LCaller 0]).
  split; [by apply state_reachable|]. split; [apply (bool_decide_unpack _); by vm_compute|by vm_compute].
Qed.

(** A publisher can be in the range over a map with entries left while a caller is about to
    store into the same map: the read lock is released before the loop. *)
Lemma map_race :
  ∃ (m : bus Z) p l pr msg, reachable m ∧ distinct m ∧ publishers m = [p] ∧ p_pc p = Ranging (Some l) pr ∅ msg ∧ is_Some (slots m !! (l, 1)) ∧
    callers m = [Subscribing "a"] ∧ subscribers m !! "a"%string = Some l.
Proof.
  set (run := one_topic ++ [LFeed 0 7; LSubscribe "a"; LReceive 0]).
  exists (state_after run), (mkPublisher "a" 0 (Ranging (Some 0%nat) {[1]} ∅ 7) [7]), 0%nat, {[1]}, 7.
  split; [by apply state_reachable|]. split; [apply (bool_decide_unpack _); by vm_compute|].
  repeat split; try by vm_compute. by exists 0%nat.
Qed.
End PubSub.
