(* ===== verification/Overrides.v ===== *)
(** * State and block overrides

    src/internal/evm/rpc/types/types.go: the overrides of accounts and of the block context.
    The state database is an interface with the laws that its setters commute on different
    accounts and slots; Go ranges over a map in no fixed order, so an override is given as
    the list of its entries in the order of one run. *)

From Stdlib Require Import ZArith String.
From S2P Require Import Prelude GoLib Indexer EthTypes.
From stdpp Require Import strings list gmap.
#[local] Open Scope Z_scope.

Module Overrides.
Import GoLib.

Section overrides.
Context {Address Hash Code : Type} `{!EqDecision Address, !EqDecision Hash}.

Record OverrideAccount := mkOverride {
  oa_Nonce : option Z;
  oa_Code : option Code;
  oa_Balance : option Z;
  oa_State : option (list (Hash * Hash));
  oa_StateDiff : option (list (Hash * Hash));
}.

Class stateDB (S : Type) := {
  SetNonce : Address → Z → S → S;
  SetCode : Address → Code → S → S;
  SetBalance : Address → Z → S → S;
  SetStorage : Address → list (Hash * Hash) → S → S;
  SetState : Address → Hash → Hash → S → S;
}.

(** uint256.FromBig: the value modulo 2^256 and whether it did not fit. *)
Definition FromBig (z : Z) : Z * bool := (z mod 2 ^ 256, bool_decide (2 ^ 256 ≤ Z.abs z)).

Context {S : Type} `{!stateDB S}.

Definition when {A} (o : option A) (f : A → S → S) (db : S) : S := match o with Some a => f a db | None => db end.

Definition apply_diff (addr : Address) (diff : list (Hash * Hash)) (db : S) : S :=
  foldl (λ db kv, SetState addr kv.1 kv.2 db) db diff.

(** The body of the loop: the state it leaves, and the error that ends the loop. *)
Definition apply_account (db : S) (addr : Address) (account : OverrideAccount) : S * option error :=
  let db := when (oa_Nonce account) (SetNonce addr) db in
  let db := when (oa_Code account) (SetCode addr) db in
  let '(db, overflow) :=
    match oa_Balance account with
    | Some b => let '(balance, overflow) := FromBig b in if overflow then (db, true) else (SetBalance addr balance db, false)
    | None => (db, false)
    end in
  if overflow then (db, Some (Errorf "account %s balance overflow"))
  else if bool_decide (is_Some (oa_State account)) && bool_decide (is_Some (oa_StateDiff account))
  then (db, Some (Errorf "account %s has both 'state' and 'stateDiff'"))
  else (when (oa_StateDiff account) (apply_diff addr) (when (oa_State account) (SetStorage addr) db), None).

(** StateOverride.Apply over the entries in the order of the range. *)
Fixpoint Apply_entries (db : S) (diff : list (Address * OverrideAccount)) : S * option error :=
  match diff with
  | [] => (db, None)
  | (addr, account) :: diff =>
      match apply_account db addr account with
      | (db, Some e) => (db, Some e)
      | (db, None) => Apply_entries db diff
      end
  end.

Definition Apply (diff : option (list (Address * OverrideAccount))) (db : S) : S * option error :=
  match diff with None => (db, None) | Some diff => Apply_entries db diff end.

(** ** The order of the range *)

(** The setters of different accounts commute, and those of different slots of one. *)
Inductive write := WNonce (n : Z) | WCode (c : Code) | WBalance (b : Z) | WStorage (s : list (Hash * Hash)) | WState (k v : Hash).

Definition do_write (addr : Address) (w : write) (db : S) : S :=
  match w with
  | WNonce n => SetNonce addr n db
  | WCode c => SetCode addr c db
  | WBalance b => SetBalance addr b db
  | WStorage s => SetStorage addr s db
  | WState k v => SetState addr k v db
  end.

Class stateLaws : Prop := {
  accounts_commute a a' w w' db : a ≠ a' → do_write a w (do_write a' w' db) = do_write a' w' (do_write a w db);
  slots_commute a k k' v v' db : k ≠ k' → SetState a k v (SetState a k' v' db) = SetState a k' v' (SetState a k v db);
}.
Context `{!stateLaws}.

(** An account is refused when its balance does not fit or both kinds of storage are given,
    whatever the state is. *)
Definition accepted (account : OverrideAccount) : bool :=
  match oa_Balance account with Some b => bool_decide (Z.abs b < 2 ^ 256) | None => true end &&
  negb (bool_decide (is_Some (oa_State account)) && bool_decide (is_Some (oa_StateDiff account))).

(** The writes of an accepted account. *)
Definition writes (account : OverrideAccount) : list write :=
  option_list (WNonce <$> oa_Nonce account) ++ option_list (WCode <$> oa_Code account) ++
  option_list ((λ b, WBalance (b mod 2 ^ 256)) <$> oa_Balance account) ++ option_list (WStorage <$> oa_State account) ++
  ((λ kv, WState kv.1 kv.2) <$> default [] (oa_StateDiff account)).

Definition do_writes (addr : Address) (ws : list write) (db : S) : S := foldl (λ db w, do_write addr w db) db ws.

Lemma do_writes_app addr ws ws' db : do_writes addr (ws ++ ws') db = do_writes addr ws' (do_writes addr ws db).
Proof. apply foldl_app. Qed.

Lemma apply_diff_writes addr diff db : apply_diff addr diff db = do_writes addr ((λ kv, WState kv.1 kv.2) <$> diff) db.
Proof. unfold apply_diff, do_writes. by rewrite foldl_fmap. Qed.

Lemma apply_account_spec db addr account :
  if accepted account then apply_account db addr account = (do_writes addr (writes account) db, None)
  else is_Some (apply_account db addr account).2.
Proof.
  unfold accepted, apply_account, writes, FromBig. destruct account as [n c b st sd]. cbn [oa_Nonce oa_Code oa_Balance oa_State oa_StateDiff].
  destruct b as [b|]; cbn zeta; [destruct (bool_decide_reflect (2 ^ 256 ≤ Z.abs b)) as [Hb|Hb]|].
  - rewrite bool_decide_eq_false_2 by lia. by eexists.
  - rewrite bool_decide_eq_true_2 by lia. destruct n, c, st, sd; cbn; try done; try (by eexists); by rewrite ?apply_diff_writes.
  - destruct n, c, st, sd; cbn; try done; try (by eexists); by rewrite ?apply_diff_writes.
Qed.

Lemma do_write_comm a a' w ws' db : a ≠ a' → do_writes a' ws' (do_write a w db) = do_write a w (do_writes a' ws' db).
Proof. intros Ha. revert db. induction ws' as [|w' ws' IH]; intros db; [done|]. unfold do_writes in *. cbn. by rewrite accounts_commute, IH. Qed.

Lemma do_writes_comm a a' ws ws' db : a ≠ a' → do_writes a ws (do_writes a' ws' db) = do_writes a' ws' (do_writes a ws db).
Proof.
  intros Ha. revert db. induction ws as [|w ws IH]; intros db; [done|].
  change (do_writes a ws (do_write a w (do_writes a' ws' db)) = do_writes a' ws' (do_writes a ws (do_write a w db))).
  by rewrite <- IH, (do_write_comm a a').
Qed.

(** All accounts accepted: the writes of all entries. *)
Definition all_writes (diff : list (Address * OverrideAccount)) (db : S) : S := foldl (λ db e, do_writes e.1 (writes e.2) db) db diff.

Lemma Apply_spec diff db :
  if forallb (λ e, accepted e.2) diff then Apply_entries db diff = (all_writes diff db, None) else is_Some (Apply_entries db diff).2.
Proof.
  revert db. induction diff as [|[addr account] diff IH]; cbn; intros db; [done|]. pose proof (apply_account_spec db addr account) as Ha.
  destruct (accepted account); cbn; [rewrite Ha; apply IH|]. destruct (apply_account db addr account) as [? []]; [done|by destruct Ha].
Qed.

Lemma all_writes_perm l l' db : l ≡ₚ l' → NoDup l.*1 → all_writes l db = all_writes l' db.
Proof.
  intros P. revert db. induction P as [|e l l' P IH|e e' l|l l1 l2 P1 IH1 P2 IH2]; intros db Hd; cbn; [done| | |].
  - apply IH. by apply NoDup_cons in Hd as [_ ?].
  - rewrite do_writes_comm; [done|]. apply NoDup_cons in Hd as [Hn _]. set_solver.
  - rewrite IH1 by done. apply IH2. by rewrite <- P1.
Qed.

(** The same account with the slots of its difference in another order. *)
Definition reordered (e e' : Address * OverrideAccount) : Prop :=
  e.1 = e'.1 ∧ oa_Nonce e.2 = oa_Nonce e'.2 ∧ oa_Code e.2 = oa_Code e'.2 ∧ oa_Balance e.2 = oa_Balance e'.2 ∧ oa_State e.2 = oa_State e'.2 ∧
  match oa_StateDiff e.2, oa_StateDiff e'.2 with
  | Some d, Some d' => d ≡ₚ d' ∧ NoDup d.*1
  | None, None => True
  | _, _ => False
  end.

Lemma reordered_accepted e e' : reordered e e' → accepted e'.2 = accepted e.2.
Proof.
  intros (_ & _ & _ & Eb & Es & Ed). unfold accepted. rewrite Eb, Es. f_equal. f_equal. f_equal.
  by destruct (oa_StateDiff e.2), (oa_StateDiff e'.2).
Qed.

Lemma diff_perm addr d d' db : d ≡ₚ d' → NoDup d.*1 → apply_diff addr d db = apply_diff addr d' db.
Proof.
  intros P. revert db. induction P as [|e l l' P IH|e e' l|l l1 l2 P1 IH1 P2 IH2]; intros db Hd; cbn; [done| | |].
  - apply IH. by apply NoDup_cons in Hd as [_ ?].
  - rewrite slots_commute; [done|]. apply NoDup_cons in Hd as [Hn _]. set_solver.
  - rewrite IH1 by done. apply IH2. by rewrite <- P1.
Qed.

Lemma reordered_writes e e' db : reordered e e' → do_writes e'.1 (writes e'.2) db = do_writes e.1 (writes e.2) db.
Proof.
  intros (Ea & En & Ec & Eb & Es & Ed). unfold writes. rewrite Ea, En, Ec, Eb, Es, !do_writes_app, <- !apply_diff_writes.
  destruct (oa_StateDiff e.2), (oa_StateDiff e'.2); try done. destruct Ed as [P Hd]. cbn. symmetry. by apply diff_perm.
Qed.

Lemma reordered_all l l' db : Forall2 reordered l l' → all_writes l' db = all_writes l db.
Proof. intros R. revert db. unfold all_writes. induction R as [|e e' l l' He R IH]; cbn; intros db; [done|]. by rewrite (reordered_writes e e'), IH. Qed.

Lemma reordered_forallb l l' : Forall2 reordered l l' → forallb (λ e, accepted e.2) l' = forallb (λ e, accepted e.2) l.
Proof. induction 1 as [|e e' l l' He R IH]; cbn; [done|]. by rewrite IH, (reordered_accepted e e'). Qed.

(** Applying an override does not depend on the orders in which Go ranges over the accounts
    and over the slots of their differences: it fails in every order or in none, and then
    leaves the same state. *)
Theorem Apply_order_irrelevant l l1 l' db :
  l ≡ₚ l1 → Forall2 reordered l1 l' → NoDup l.*1 →
  if forallb (λ e, accepted e.2) l then Apply (Some l) db = (all_writes l db, None) ∧ Apply (Some l') db = Apply (Some l) db
  else is_Some (Apply (Some l) db).2 ∧ is_Some (Apply (Some l') db).2.
Proof.
  intros P R Hd. assert (forallb (λ e, accepted e.2) l1 = forallb (λ e, accepted e.2) l) as E.
  { apply eq_true_iff_eq. rewrite !forallb_forall. by setoid_rewrite <- list_elem_of_In; setoid_rewrite P. }
  pose proof (Apply_spec l db) as Hl. pose proof (Apply_spec l' db) as Hl'. rewrite (reordered_forallb _ _ R), E in Hl'. cbn.
  destruct (forallb _ l); [|done]. rewrite Hl, Hl'. by rewrite (reordered_all _ _ _ R), (all_writes_perm l l1).
Qed.

(** ** Block overrides *)

Record BlockOverrides := mkBlockOverrides {
  bo_Number : option Z; bo_Difficulty : option Z; bo_Time : option Z; bo_GasLimit : option Z;
  bo_Coinbase : option Address; bo_Random : option Hash; bo_BaseFee : option Z;
}.

(** The fields of vm.BlockContext that an override can set; pointers may be nil. *)
Record BlockContext := mkBlockContext {
  bc_BlockNumber : option Z; bc_Difficulty : option Z; bc_Time : Z; bc_GasLimit : Z;
  bc_Coinbase : Address; bc_Random : option Hash; bc_BaseFee : option Z;
}.

Definition or_else {A} (o d : option A) : option A := match o with Some a => Some a | None => d end.

Definition BlockOverrides_Apply (diff : option BlockOverrides) (blockCtx : BlockContext) : BlockContext :=
  match diff with
  | None => blockCtx
  | Some d =>
      mkBlockContext (or_else (bo_Number d) (bc_BlockNumber blockCtx)) (or_else (bo_Difficulty d) (bc_Difficulty blockCtx))
        (default (bc_Time blockCtx) (bo_Time d)) (default (bc_GasLimit blockCtx) (bo_GasLimit d))
        (default (bc_Coinbase blockCtx) (bo_Coinbase d)) (or_else (bo_Random d) (bc_Random blockCtx))
        (or_else (bo_BaseFee d) (bc_BaseFee blockCtx))
  end.

(** Overrides compose field by field: applying one after another is applying the second
    over the first. *)
Definition over (d d' : BlockOverrides) : BlockOverrides :=
  mkBlockOverrides (or_else (bo_Number d) (bo_Number d')) (or_else (bo_Difficulty d) (bo_Difficulty d')) (or_else (bo_Time d) (bo_Time d'))
    (or_else (bo_GasLimit d) (bo_GasLimit d')) (or_else (bo_Coinbase d) (bo_Coinbase d')) (or_else (bo_Random d) (bo_Random d'))
    (or_else (bo_BaseFee d) (bo_BaseFee d')).

Lemma BlockOverrides_compose d d' ctx :
  BlockOverrides_Apply (Some d) (BlockOverrides_Apply (Some d') ctx) = BlockOverrides_Apply (Some (over d d')) ctx.
Proof. destruct d as [[] [] [] [] [] [] []], d' as [[] [] [] [] [] [] []]; reflexivity. Qed.
End overrides.
Arguments OverrideAccount : clear implicits.

(** ** A state database *)

(** Accounts by number, with a map for the storage. *)
Record account := mkAccount { a_nonce : Z; a_code : Z; a_balance : Z; a_storage : gmap Z Z }.
Definition no_account : account := mkAccount 0 0 0 ∅.

Definition update (f : account → account) (addr : Z) (db : gmap Z account) : gmap Z account := <[addr := f (default no_account (db !! addr))]> db.

#[local] Instance map_db : stateDB (Address:=Z) (Hash:=Z) (Code:=Z) (gmap Z account) := {|
  SetNonce addr n := update (λ a, mkAccount n (a_code a) (a_balance a) (a_storage a)) addr;
  SetCode addr c := update (λ a, mkAccount (a_nonce a) c (a_balance a) (a_storage a)) addr;
  SetBalance addr b := update (λ a, mkAccount (a_nonce a) (a_code a) b (a_storage a)) addr;
  SetStorage addr s := update (λ a, mkAccount (a_nonce a) (a_code a) (a_balance a) (list_to_map s)) addr;
  SetState addr k v := update (λ a, mkAccount (a_nonce a) (a_code a) (a_balance a) (<[k := v]> (a_storage a))) addr;
|}.

Lemma update_comm f f' a a' db : a ≠ a' → update f a (update f' a' db) = update f' a' (update f a db).
Proof. intros Ha. unfold update. rewrite !lookup_insert_ne by done. by apply insert_insert_ne. Qed.

#[local] Instance map_laws : stateLaws (S:=gmap Z account).
Proof.
  split.
  - intros a a' w w' db Ha. destruct w, w'; by apply update_comm.
  - intros a k k' v v' db Hk. cbn. unfold update. rewrite !lookup_insert_eq, !insert_insert_eq. cbn. by rewrite (insert_insert_ne _ k k').
Qed.

Definition sample_overrides : list (Z * OverrideAccount Z Z) :=
  [(1, mkOverride (Some 5) None (Some 10) None (Some [(1, 2); (3, 4)])); (2, mkOverride None (Some 9) None (Some [(7, 7)]) None)].
Definition sample_shuffled : list (Z * OverrideAccount Z Z) :=
  [(2, mkOverride None (Some 9) None (Some [(7, 7)]) None); (1, mkOverride (Some 5) None (Some 10) None (Some [(3, 4); (1, 2)]))].

Lemma Apply_order_irrelevant_witness :
  Apply (Some sample_shuffled) (∅ : gmap Z account) = Apply (Some sample_overrides) ∅ ∧
  (a_balance <$> (Apply (Some sample_overrides) (∅ : gmap Z account)).1 !! 1) = Some 10.
Proof.
  split; [|done].
  refine (proj2 (Apply_order_irrelevant sample_overrides (reverse sample_overrides) sample_shuffled ∅ _ _ _)).
  - symmetry. apply reverse_Permutation.
  - repeat constructor; apply (bool_decide_unpack _); by vm_compute.
  - apply (bool_decide_unpack _). by vm_compute.
Defined.
End Overrides.
