(* ===== verification/Connection.v ===== *)
(** * The life of a websocket connection

    ServeHTTP and heartbeat of src/internal/jsonrpc/json_rpc_ws.go: the handler of a
    connection around the read loop that Websocket.v models, the heartbeat beside it and the
    mutex they share with the senders, as labelled steps of these goroutines. *)

From Stdlib Require Import ZArith String.
From S2P Require Import Prelude Ranges Bytes GoLib Indexer AppConfig AppStart.
From stdpp Require Import strings list.
#[local] Open Scope Z_scope.

(** Runs of a labelled machine. *)
Section machine.
Context {S A : Type} (act : A → S → option S).

Definition step_of (s s' : S) : Prop := ∃ a, act a s = Some s'.

Fixpoint run_of (s : S) (l : list A) : option S := match l with [] => Some s | a :: l => act a s ≫= λ s', run_of s' l end.

Lemma rtc_invariant (P : S → Prop) s0 s : P s0 → (∀ s a s', P s → act a s = Some s' → P s') → rtc (step_of) s0 s → P s.
Proof. intros H0 Hs. apply (rtc_ind_r P); [done|]. intros s1 s2 _ [a E] H1. by eapply Hs. Qed.
End machine.

Module Connection.
Import GoLib AppStart.

(** ** State *)

Definition websocketPingInterval : Z := 20 * 10 ^ 9.
Definition messageSizeLimit : Z := 10 * 1024 * 1024.

(** The server listens on one address and forwards requests to the port of the other. *)
Definition NewWebsocketsServer (address : string) : string :=
  match SplitHostPort address with Some (_, port) => ("localhost:" ++ port)%string | None => "localhost:"%string end.

Definition ping_interval (pingInterval : Z) : Z := if bool_decide (pingInterval ≤ 0) then websocketPingInterval else pingInterval.

(** Who holds the mutex of the connection: a sender of a frame, or the heartbeat. *)
Inductive holder := Sender | Heart.
Inductive heartbeat := Selecting | Pinging | HeartDone.
(** ServeHTTP: in the read loop, before each statement of the deferred function, returned. *)
Inductive serve := InLoop | Cancelling | Closing | Joining | Served.

Record peer := mkPeer { cancelled : bool; closed : bool; mux : option holder; heart : heartbeat; srv : serve }.

(** After the upgrade. *)
Definition upgraded : peer := mkPeer false false None Selecting InLoop.

(** ** Steps *)

Inductive label := Lock | Unlock | Tick | Wrote (ok : bool) | Notice | LoopEnds | Cancel | Close | Join.

Definition act (a : label) (p : peer) : option peer :=
  match a, mux p, heart p, srv p with
  | Lock, None, h, s => Some (mkPeer (cancelled p) (closed p) (Some Sender) h s)
  | Unlock, Some Sender, h, s => Some (mkPeer (cancelled p) (closed p) None h s)
  (* the ticker: TryLock, and another round when it fails *)
  | Tick, None, Selecting, s => Some (mkPeer (cancelled p) (closed p) (Some Heart) Pinging s)
  | Tick, Some _, Selecting, _ => Some p
  (* the ping was written, or failed within its deadline *)
  | Wrote true, Some Heart, Pinging, s => Some (mkPeer (cancelled p) (closed p) None Selecting s)
  | Wrote false, Some Heart, Pinging, s => Some (mkPeer (cancelled p) true None HeartDone s)
  (* ctx.Done *)
  | Notice, m, Selecting, s => if cancelled p then Some (mkPeer true (closed p) m HeartDone s) else None
  (* the read loop closes the socket before it returns *)
  | LoopEnds, m, h, InLoop => Some (mkPeer (cancelled p) true m h Cancelling)
  | Cancel, m, h, Cancelling => Some (mkPeer true (closed p) m h Closing)
  | Close, m, h, Closing => Some (mkPeer (cancelled p) true m h Joining)
  | Join, m, HeartDone, Joining => Some (mkPeer (cancelled p) (closed p) m HeartDone Served)
  | _, _, _, _ => None
  end.

Definition reachable (p : peer) : Prop := rtc (step_of act) upgraded p.

(** ** Properties *)

Definition inv (p : peer) : Prop :=
  (mux p = Some Heart ↔ heart p = Pinging) ∧
  match srv p with
  | InLoop => True
  | Cancelling => closed p = true
  | Closing | Joining => closed p = true ∧ cancelled p = true
  | Served => closed p = true ∧ cancelled p = true ∧ heart p = HeartDone
  end.

Lemma connection_inv p : reachable p → inv p.
Proof.
  apply rtc_invariant; [done|]. intros [c cl m h s] a p' [I1 I2] H. unfold inv in *. cbn [mux heart srv cancelled closed] in *.
  destruct a as [| | |[]| | | | |], m as [[]|], h, s, c; simplify_eq/=; split; try done; naive_solver.
Qed.

(** A handler that returned left nothing behind: the context is cancelled, the socket
    closed and the heartbeat over; the heartbeat holds the mutex exactly while it pings. *)
Theorem served_connection_is_over p :
  reachable p → (mux p = Some Heart ↔ heart p = Pinging) ∧
  (srv p = Served → cancelled p = true ∧ closed p = true ∧ heart p = HeartDone).
Proof.
  intros [I1 I2]%connection_inv. split; [done|]. intros E. rewrite E in I2. tauto.
Qed.

(** The statements ServeHTTP has left. *)
Definition to_join (p : peer) : list label :=
  match srv p with InLoop => [] | Cancelling => [Cancel; Close] | Closing => [Close] | Joining | Served => [] end.
Definition to_end (p : peer) : list label :=
  match srv p with Served => [] | _ => match heart p with Pinging => [Wrote true; Notice] | Selecting => [Notice] | HeartDone => [] end ++ [Join] end.

(** Once the read loop is over the handler can return without a step of any sender: one that
    keeps the mutex cannot hold it back, as the heartbeat never waits for the mutex. *)
Theorem connection_can_end p :
  reachable p → srv p ≠ InLoop →
  ∃ l p', Forall (λ a, a ≠ Lock ∧ a ≠ Unlock) l ∧ (length l ≤ 5)%nat ∧ run_of act p l = Some p' ∧ srv p' = Served ∧ (mux p = Some Sender → mux p' = Some Sender).
Proof.
  intros [I1 I2]%connection_inv Hs. destruct p as [c cl m h s]. cbn [mux heart srv cancelled closed] in *.
  exists (to_join (mkPeer c cl m h s) ++ to_end (mkPeer c cl m h s)), (mkPeer true true (match m with Some Sender => Some Sender | _ => None end) HeartDone Served).
  assert (match m, h with Some Heart, Pinging => true | Some Heart, _ | _, Pinging => false | _, _ => true end = true) as Hm
    by (destruct m as [[]|], h; try done; exfalso; naive_solver).
  clear I1. split_and!; [destruct s, h; repeat constructor; done|destruct s, h; cbn; lia| |done|by intros ->].
  destruct s; [done| | | |]; destruct_and? I2; subst; destruct m as [[]|]; try destruct h; done.
Qed.
End Connection.
