(* ===== verification/Lifecycle.v ===== *)
(** * The end of the service

    The group of goroutines, the shutdown function and its Once in Run of
    src/internal/app/app.go, with handleHTTPServerExit of src/internal/jsonrpc/json_rpc.go,
    as labelled steps of the goroutines that take part.  AppStart.v models Run as the
    sequence of its statements; here its last part runs beside the server, the syncer and
    the goroutine that waits for the context of the group. *)

From Stdlib Require Import ZArith String.
From S2P Require Import Prelude Ranges Bytes GoLib Indexer AppConfig AppStart Connection.
From stdpp Require Import strings list.
#[local] Open Scope Z_scope.

Module Lifecycle.
Import GoLib Indexer.

Definition ErrServerClosed : string := "http: Server closed".

(** handleHTTPServerExit: whether it closes the channel of the end, and its result. *)
Definition handleHTTPServerExit (err : option error) : bool * option error :=
  match err with
  | None => (false, None)
  | Some e => if errors_Is e ErrServerClosed then (true, None) else (false, Some e)
  end.

(** ** State *)

(** A function of the group. *)
Inductive routine := Running | Finished (err : option error).
(** shutdown under its Once: not begun, before httpSrv.Shutdown, in it, at the select, over. *)
Inductive once := NotRun | Telling | Draining | AwaitDone | OnceDone.
(** Run: in g.Wait, in its own shutdown, returned. *)
Inductive main := InWait | InShutdown | Returned (result : option error).

Record life := mkLife {
  gctx : bool;                  (* the context of the group is cancelled *)
  first : option error;         (* the error of the group *)
  server : option routine;      (* Serve, when JSON-RPC is enabled *)
  syncer : option routine;
  told : bool;                  (* httpSrv.Shutdown was called *)
  done_closed : bool;           (* httpSrvDone *)
  expired : bool;               (* shutdownCtx *)
  shut : once;
  watcher : bool;               (* the goroutine at gctx.Done has called shutdown *)
  run : main;
}.

Definition started (jsonrpc sync : bool) : life :=
  mkLife false None (if jsonrpc then Some Running else None) (if sync then Some Running else None) false false false NotRun false InWait.

(** A function of the group returned: the first error cancels the context. *)
Definition group_done (s : life) (err : option error) : bool * option error :=
  match err with None => (gctx s, first s) | Some e => (true, match first s with Some e0 => Some e0 | None => Some e end) end.

Definition running (r : option routine) : bool := match r with Some Running => true | _ => false end.
Definition finished (r : option routine) : bool := match r with Some Running => false | _ => true end.

(** The result of Run: a cancelled context and a server that was shut down are no errors. *)
Definition result (err : option error) : option error :=
  match err with
  | None => None
  | Some e => if errors_Is e "context canceled" || errors_Is e ErrServerClosed then None else Some e
  end.

(** ** Steps *)

Inductive label :=
| Interrupt | ServerExits (err : option error) | SyncerExits (err : option error)
| Watch | WaitEnds | Tell | Drained | SeeDone | Expire | Return.

Definition set_shut (s : life) (o : once) : life :=
  mkLife (gctx s) (first s) (server s) (syncer s) (told s) (done_closed s) (expired s) o (watcher s) (run s).

(** shutdown is called: the first caller begins, the others wait for it. *)
Definition enter (o : once) : once := match o with NotRun => Telling | _ => o end.

Definition act (a : label) (s : life) : option life :=
  match a with
  | Interrupt => Some (mkLife true (first s) (server s) (syncer s) (told s) (done_closed s) (expired s) (shut s) (watcher s) (run s))
  | ServerExits err =>
      (* after Shutdown, Serve returns ErrServerClosed; before, another error *)
      if running (server s) && match err with Some e => Bool.eqb (errors_Is e ErrServerClosed) (told s) | None => false end then
        let '(closes, err) := handleHTTPServerExit err in
        let '(c, f) := group_done s err in
        Some (mkLife c f (Some (Finished err)) (syncer s) (told s) (done_closed s || closes) (expired s) (shut s) (watcher s) (run s))
      else None
  | SyncerExits err =>
      if running (syncer s) then
        let '(c, f) := group_done s err in
        Some (mkLife c f (server s) (Some (Finished err)) (told s) (done_closed s) (expired s) (shut s) (watcher s) (run s))
      else None
  | Watch =>
      if gctx s && negb (watcher s) then
        Some (mkLife true (first s) (server s) (syncer s) (told s) (done_closed s) (expired s) (enter (shut s)) true (run s))
      else None
  | WaitEnds =>
      match run s with
      | InWait =>
          if finished (server s) && finished (syncer s) then
            Some (mkLife true (first s) (server s) (syncer s) (told s) (done_closed s) (expired s) (enter (shut s)) (watcher s) InShutdown)
          else None
      | _ => None
      end
  | Tell =>
      match shut s, server s with
      | Telling, Some _ => Some (mkLife (gctx s) (first s) (server s) (syncer s) true (done_closed s) (expired s) Draining (watcher s) (run s))
      | Telling, None => Some (set_shut s OnceDone)
      | _, _ => None
      end
  | Drained => match shut s with Draining => Some (set_shut s AwaitDone) | _ => None end
  | SeeDone => match shut s with AwaitDone => if done_closed s then Some (set_shut s OnceDone) else None | _ => None end
  | Expire =>
      match shut s with
      | AwaitDone => Some (mkLife (gctx s) (first s) (server s) (syncer s) (told s) (done_closed s) true OnceDone (watcher s) (run s))
      | _ => None
      end
  | Return =>
      match run s, shut s with
      | InShutdown, OnceDone =>
          Some (mkLife (gctx s) (first s) (server s) (syncer s) (told s) (done_closed s) (expired s) OnceDone (watcher s) (Returned (result (first s))))
      | _, _ => None
      end
  end.

Definition reachable (jsonrpc sync : bool) (s : life) : Prop := rtc (step_of act) (started jsonrpc sync) s.

(** ** Properties *)

Definition told_by (o : once) : bool := match o with NotRun | Telling => false | _ => true end.

Record inv (jsonrpc : bool) (s : life) : Prop := {
  inv_server : bool_decide (is_Some (server s)) = jsonrpc;
  inv_done : done_closed s = match server s with Some (Finished None) => true | _ => false end;
  inv_told : told s = told_by (shut s) && jsonrpc;
  inv_waited : run s ≠ InWait → finished (server s) = true ∧ finished (syncer s) = true ∧ shut s ≠ NotRun;
  inv_watcher : watcher s = true → shut s ≠ NotRun;
  inv_once : shut s = OnceDone → jsonrpc = true → done_closed s = true ∨ expired s = true;
  inv_result r : run s = Returned r → shut s = OnceDone ∧ r = result (first s);
}.

Lemma started_inv jsonrpc sync : inv jsonrpc (started jsonrpc sync).
Proof. by destruct jsonrpc, sync; split. Qed.

Lemma exit_closes e : errors_Is e ErrServerClosed = true → handleHTTPServerExit (Some e) = (true, None).
Proof. intros H. cbn. by rewrite H. Qed.
Lemma exit_fails e : errors_Is e ErrServerClosed = false → handleHTTPServerExit (Some e) = (false, Some e).
Proof. intros H. cbn. by rewrite H. Qed.

Lemma act_inv jsonrpc s a s' : inv jsonrpc s → act a s = Some s' → inv jsonrpc s'.
Proof.
  intros [I1 I2 I3 I4 I5 I6 I7] H. destruct s as [g f srv syn t d x o w r]. cbn [server syncer told done_closed expired shut watcher run gctx first] in *.
  destruct a as [|err|err| | | | | | |]; cbn [act server syncer told done_closed expired shut watcher run gctx first] in H.
  - simplify_eq. by split.
  - destruct srv as [[]|]; try done. destruct err as [e|]; [|done]. cbn [running andb] in H.
    assert (r = InWait) as -> by (destruct r; [done|by destruct (I4 ltac:(done))..]).
    destruct (errors_Is e ErrServerClosed) eqn:Ee, t; try done; cbn [Bool.eqb] in H.
    + rewrite (exit_closes _ Ee) in H. simplify_eq/=. split; try done; cbn. by left.
    + rewrite (exit_fails _ Ee) in H. by simplify_eq/=; split.
  - destruct syn as [[]|]; try done. cbn [running] in H.
    assert (r = InWait) as -> by (destruct r; [done|by destruct (I4 ltac:(done)) as (_ & ? & _)..]).
    destruct err; simplify_eq/=; by split.
  - destruct g, w; simplify_eq/=. destruct o; split; cbn in *; naive_solver.
  - destruct r; try done. destruct (finished srv) eqn:E1, (finished syn) eqn:E2; simplify_eq/=. destruct o; split; cbn in *; naive_solver.
  - destruct o; try done. destruct srv as [q|]; simplify_eq/=; split; cbn in *; naive_solver.
  - destruct o; simplify_eq/=; split; cbn in *; naive_solver.
  - destruct o, d; simplify_eq/=; split; cbn in *; naive_solver.
  - destruct o; simplify_eq/=; split; cbn in *; naive_solver.
  - destruct r, o; simplify_eq/=; split; cbn in *; naive_solver.
Qed.

Lemma life_inv jsonrpc sync s : reachable jsonrpc sync s → inv jsonrpc s.
Proof. apply rtc_invariant; [apply started_inv|]. intros s1 a s2. apply act_inv. Qed.

(** Run returns after the functions of the group and after the shutdown: the server was told
    to stop and either has stopped or the time for it is over; the result is the first error
    of the group, a cancelled context and a stopped server apart. *)
Theorem Run_returns_after_shutdown jsonrpc sync s r :
  reachable jsonrpc sync s → run s = Returned r →
  finished (server s) = true ∧ finished (syncer s) = true ∧ told s = jsonrpc ∧
  (jsonrpc = true → done_closed s = true ∨ expired s = true) ∧ r = result (first s).
Proof.
  intros I%life_inv E. destruct (inv_waited _ _ I) as (? & ? & _); [by rewrite E|]. destruct (inv_result _ _ I r E) as [Eo ->].
  split_and!; try done; [by rewrite (inv_told _ _ I), Eo|by apply (inv_once _ _ I)].
Qed.

(** A server that failed never closes its channel: the shutdown always takes its full time. *)
Theorem failed_server_shutdown_expires sync s e :
  reachable true sync s → server s = Some (Finished (Some e)) → shut s = OnceDone → expired s = true.
Proof.
  intros I%life_inv Es Eo. destruct (inv_once _ _ I Eo eq_refl) as [H|H]; [|done]. by rewrite (inv_done _ _ I), Es in H.
Qed.

(** ** The service can always stop *)

(** How far the service is from the end: every label but an interrupt brings it closer. *)
Definition distance (s : life) : nat :=
  (if running (server s) then 1 else 0) + (if running (syncer s) then 1 else 0) + (if watcher s then 0 else 1) +
  match shut s with NotRun => 4 | Telling => 3 | Draining => 2 | AwaitDone => 1 | OnceDone => 0 end +
  match run s with InWait => 2 | InShutdown => 1 | Returned _ => 0 end.

Lemma act_closer s a s' : act a s = Some s' → a ≠ Interrupt → (distance s' < distance s)%nat.
Proof.
  intros H Ha. destruct s as [g f srv syn t d x o w r]. unfold distance.
  destruct a as [|err|err| | | | | | |]; cbn [act server syncer told done_closed expired shut watcher run gctx first] in H; [done|..].
  - destruct srv as [[]|], err as [e|]; try done. cbn [running andb] in H. destruct (Bool.eqb _ _); [|done].
    destruct (handleHTTPServerExit (Some e)) as [c err']. destruct (group_done _ err'). simplify_eq/=. lia.
  - destruct syn as [[]|]; try done. cbn [running] in H. destruct (group_done _ err). simplify_eq/=. lia.
  - destruct g, w; simplify_eq/=. destruct o; cbn; lia.
  - destruct r; try done. destruct (finished srv && finished syn); simplify_eq/=. destruct o; cbn; lia.
  - destruct o, srv; simplify_eq/=; lia.
  - destruct o; simplify_eq/=; lia.
  - destruct o, d; simplify_eq/=; lia.
  - destruct o; simplify_eq/=; lia.
  - destruct r, o; simplify_eq/=; lia.
Qed.

Lemma act_gctx s a s' : act a s = Some s' → gctx s = true → gctx s' = true.
Proof.
  destruct s as [g f srv syn t d x o w r]. cbn [gctx]. intros H ->.
  destruct a as [|err|err| | | | | | |]; 
    cbn [act server syncer told done_closed expired shut watcher run gctx first] in H; unfold group_done in H; cbn in H; repeat case_match; by simplify_eq/=.
Qed.

(** A cancelled service that has not returned has a step. *)
Lemma act_enabled jsonrpc s : inv jsonrpc s → gctx s = true → (∀ r, run s ≠ Returned r) → ∃ a s', a ≠ Interrupt ∧ act a s = Some s'.
Proof.
  intros [I1 I2 I3 I4 I5 I6 I7] Hg Hr. destruct s as [g f srv syn t d x o w r].
  cbn [server syncer told done_closed expired shut watcher run gctx first] in *. subst g.
  destruct (running syn) eqn:E1; [exists (SyncerExits None); eexists; split; [done|]; cbn; by rewrite E1|].
  destruct w; [|exists Watch; by eexists]. specialize (I5 eq_refl).
  destruct o; [done|exists Tell; destruct srv; by eexists|exists Drained; by eexists|exists Expire; by eexists|].
  destruct r as [| |r]; [|exists Return; by eexists|by destruct (Hr r)].
  destruct (running srv) eqn:E2.
  - exists (ServerExits (Some (Sentinel ErrServerClosed))). destruct srv as [[]|]; try done. cbn in I1, I3. rewrite <- I1 in I3. subst t. by eexists.
  - exists WaitEnds. destruct srv as [[]|], syn as [[]|]; try done; by eexists.
Qed.

(** The runs of the service alone. *)
Lemma run_bounded l s s' : Forall (λ a, a ≠ Interrupt) l → run_of act s l = Some s' → (length l + distance s' ≤ distance s)%nat.
Proof.
  revert s. induction l as [|a l IH]; intros s Hl H; [by simplify_eq/=|]. apply Forall_cons in Hl as [Ha Hl]. cbn [run_of] in H.
  destruct (act a s) as [s1|] eqn:E; [|done]. pose proof (act_closer _ _ _ E Ha). specialize (IH s1 Hl H). cbn [length]. lia.
Qed.

Lemma run_keeps (P : life → Prop) l s s' : (∀ s a s', P s → act a s = Some s' → P s') → P s → run_of act s l = Some s' → P s'.
Proof.
  intros Hs. revert s. induction l as [|a l IH]; intros s Hp H; [by simplify_eq/=|]. cbn [run_of] in H.
  destruct (act a s) as [s1|] eqn:E; [|done]. by eapply IH; [eapply Hs|].
Qed.

(** C27. Once the context of the group is cancelled, by a signal or by an error, the service
    stops: in whatever order its goroutines go on, they make at most nine steps, and when
    none of them can make another one Run has returned.  The syncer is one goroutine here,
    whose own return after the cancellation is a step that is always possible. *)
Theorem cancelled_service_stops jsonrpc sync s l s' :
  reachable jsonrpc sync s → gctx s = true → Forall (λ a, a ≠ Interrupt) l → run_of act s l = Some s' →
  (length l ≤ 9)%nat ∧ ((∀ a, a ≠ Interrupt → act a s' = None) → ∃ r, run s' = Returned r).
Proof.
  intros I%life_inv Hg Hl H. split.
  - pose proof (run_bounded _ _ _ Hl H). assert (distance s ≤ 9)%nat; [|lia].
    unfold distance. destruct (running _), (running _), (watcher s), (shut s), (run s); lia.
  - intros Hstuck. assert (inv jsonrpc s') as I' by (eapply run_keeps; [by intros ? ? ?; apply act_inv|done|done]).
    assert (gctx s' = true) as Hg' by (eapply (run_keeps (λ s, gctx s = true)); [by intros ? ? ? ? ?; eapply act_gctx|done|done]).
    destruct (run s') as [| |r] eqn:E; [| |by eexists].
    all: destruct (act_enabled jsonrpc s' I' Hg') as (a & s2 & Ha & Hs2); [by rewrite E|]; by rewrite Hstuck in Hs2.
Qed.

(** ** Runs *)

Definition cancelled_at (jsonrpc sync : bool) : life := default (started jsonrpc sync) (act Interrupt (started jsonrpc sync)).

Lemma cancelled_reachable jsonrpc sync : reachable jsonrpc sync (cancelled_at jsonrpc sync).
Proof. apply rtc_once. by exists Interrupt. Qed.

Definition stop_run : list label :=
  [Watch; SyncerExits (Some (Sentinel "context canceled")); Tell; ServerExits (Some (Sentinel ErrServerClosed)); WaitEnds; Drained; SeeDone; Return].
Definition stopped : life := default (cancelled_at true true) (run_of act (cancelled_at true true) stop_run).

Lemma cancelled_service_stops_witness : run stopped = Returned None ∧ (length stop_run ≤ 9)%nat.
Proof.
  split; [done|]. apply (cancelled_service_stops true true (cancelled_at true true) stop_run stopped);
    [apply cancelled_reachable|done|repeat constructor; done|done].
Defined.

(** The accept loop fails: the service ends with its error, after the full time. *)
Definition failing_run : list label := [ServerExits (Some (New "accept")); Watch; Tell; Drained; WaitEnds; Expire; Return].
Lemma failing_server : run <$> run_of act (started true false) failing_run = Some (Returned (Some (New "accept"))).
Proof. reflexivity. Qed.
End Lifecycle.
